(* ===== verification/_CoqProject ===== *)
-Q . S2P
Prelude.v
Text.v
Floats.v
Net.v
Commands.v
Config.v
Events.v
Bus.v
Wiring.v
Alerting.v
AlertLoop.v
AlertingShim.v
Sharding.v
Cache.v
Queue.v
Scheduler.v
SchedulerLoop.v
Proxy.v
ProxyTcp.v
Failover.v
FailoverIo.v
MultiCluster.v
RateLimit.v
Migration.v
Auth.v
Shutdown.v
Tenant.v
TenantWire.v
Management.v
Archival.v
ArchivalStore.v
Compliance.v
Replication.v
Cost.v
AuditLog.v
Cdc.v
CdcLoop.v
Chaos.v
Process.v
Reaper.v
HotReload.v
Health.v
Resource.v
Backup.v
Main.v
RedisBridge.v
Encryption.v
Tls.v
Vault.v
ConfigShim.v
Operator.v
Databases.v
Wasm.v
Plugin.v
Shimctl.v
Metrics.v
Logging.v
Errors.v
Lifecycle.v
Testing.v
TestMain.v
TestDatabases.v
TestFailover.v
TestData.v
TestTraffic.v
TestState.v
TestPolicy.v
TestEvents.v
TestSecrets.v
TestConfig.v
TestRuntime.v
TestPlugins.v
TestPlatform.v
