(* ===== verification/Prelude.v ===== *)
(** * EvergreenShims: a verification library

    EvergreenShims is a set of sidecar services ("shims") for databases, written
    in Rust.  Each shim is a crate under [src/crates]; [shim-core] holds what they
    share: the event model, the in-process event bus, the cross-shim wiring, the
    configuration, tenants, health checks, shutdown and the alert manager.  This
    library models the state-keeping logic of the core and of the shims below, and
    proves what makes it correct, or shows where it is not.

    ** Files, and what they correspond to

    Shared theory, with no counterpart in the repository:

    - [Prelude.v] (this file): record update, [Result], machine integers,
      strings, number parsing, binary64 floats, the environment, hash maps with
      an arbitrary iteration order, list and vector operations, the calendar and
      timestamp interfaces, and the lemmas and tactics the other files share.
    - [Text.v]: the rest of [str] (suffixes, trimming, splitting, padding,
      hexadecimal) and ordered maps.  [Floats.v]: decimal text of floats, [clamp].
      [Net.v]: socket addresses as the standard library parses them.
      [Commands.v]: child processes that are run to their end.

    The core ([src/crates/shim-core/src]):

    - [Events.v]: [event.rs], and the tag and rank tables of [bus.rs].  Foreign
      types (UUIDs, JSON values) are the class [External].
    - [Bus.v]: [bus.rs].  [ShimBus] with [publish], [emit], [recv_filtered],
      [BusSubscriber]; the broadcast channel of tokio is the class [Broadcast] with
      its documented laws and one instance that meets them.  [pub_step] interleaves
      publishers between the counter update and the send.
    - [Wiring.v]: [wiring.rs].  The four handlers that react to events by
      publishing others, as tasks over a bus ([task_step], [tasks_step],
      [wired_step]).
    - [Alerting.v]: [alerting.rs].  [process_event] filters, deduplicates and
      forwards; [run_ops] mixes it with [cleanup_dedup_cache].  [AlertLoop.v]: its start,
      stop and tasks over the bus, interleaved at every await ([am_exec]).
    - [Config.v]: [config.rs].  Every section with its defaults, [from_env],
      [merge], [load], [validate], [validate_schema].
    - [Tenant.v]: [tenant.rs].  Identifiers, token buckets, quota decisions, the
      usage and audit tables.  [TenantWire.v]: the fields of a usage that is written.
    - [Shutdown.v]: [shutdown.rs].  The three shutdown handlers and the manager over
      the class [Os], in which a process reacts to signals.  [Process.v]:
      [process.rs], the child process on top of it.  [Reaper.v]: the task of
      [process.rs] that collects grandchildren, over the class [ProcTable].
    - [HotReload.v]: [hotreload.rs].  The thread that watches the file, as a fold
      over its notifications.
    - [Resource.v]: [resource.rs].  [/proc], quotas and gauges.
    - [Health.v]: [health.rs] and the crate [health-shim].  Commands and startup
      probes; the checker, the shim and its endpoints.
    - [Metrics.v]: [metrics.rs] and [metrics_export.rs].  The families of a process, the
      exporter and its handlers.  [Logging.v]: [structured_logging.rs], request ids and
      tracked operations.  [Errors.v]: [error.rs].

    The shims ([src/crates/<name>/src/lib.rs]):

    - [AlertingShim.v]: [alerting-shim].  Routing by severity, deduplication,
      retries and backoff records.
    - [Sharding.v]: [sharding-shim].  FNV-1a, the ring of virtual nodes, and routing
      by hash, range and directory.
    - [Cache.v]: [cache-shim].  The bounded cache with expiry and three eviction
      strategies; [cache_run] is a sequence of calls and sweeps.
    - [Queue.v]: [queue-shim].  The calls and the worker tasks, cut where the code
      releases its lock; [sys_run] is one interleaving.
    - [Scheduler.v]: [scheduler-shim].  The search for the next task to fire and the
      run of a task with its retries.  [SchedulerLoop.v]: the waiting around them
      ([loop_run]).
    - [Proxy.v]: [proxy-shim].  Circuit breaker, degradation cache, routing, token
      bucket, weighted round-robin.  [ProxyTcp.v]: the TCP proxy on that state ([tcp_run]).
    - [Failover.v]: the first half of [failover-shim].  The monitoring loop for its
      three connectors ([tick]) and the two stand-alone monitors.  [FailoverIo.v]: the
      checks that give a tick its inputs.
      [MultiCluster.v]: the second half, several clusters, the choice of the one to
      promote, and the background loop ([loop_tick]).
    - [Migration.v]: [migration-shim].  Versions, application and rollback in memory
      and over a database ([SqlDb]), the lock file with interleaved processes
      ([lock_step]), the start over a directory.
    - [Replication.v]: [replication-shim].  The table of replicas, promotion, the
      health-check loop ([tick]).
    - [Auth.v]: [auth-shim].  Tokens and their checks, lockout, passwords, roles.
    - [AuditLog.v]: [audit-shim].  Entries, files, rotation, queries, restarts.
    - [Cdc.v]: [cdc-shim].  Capture, publication, positions, one poll of a source.
      [CdcLoop.v]: the loops of the three sources.
    - [Cost.v]: [cost-shim].  Budgets, usage, projection, the optimizer.
    - [Archival.v]: [archival-shim].  Batches, lifecycle, purge.  [ArchivalStore.v]: its
      blob store.
    - [Compliance.v]: [compliance-shim].  Rules, checks and scores.
    - [Chaos.v]: [chaos-shim].  Experiments, the evaluation of a request, injectors,
      the orchestrator.
    - [Backup.v]: [backup-shim].  Books, dumps, retries, uploads, verification, the
      scheduled loop, over the class [Host].
    - [RateLimit.v] and [Management.v]: [management-api].  The rate limiter; the
      handlers with validation, sanitization and audit records.
    - [Encryption.v]: [encryption-shim].  The key ring, over the cipher class [Aead].
    - [Tls.v]: [tls-shim].  Base64 and PEM, certificates, the three providers.
    - [Vault.v]: [vault-shim].  Fetching, writing and rotating credentials.
    - [ConfigShim.v]: [config-shim].  Reloads over a state of files and signals.
    - [Databases.v]: [mongodb-shim], [cockroachdb-shim], [dynamodb-shim],
      [elasticsearch-shim], [cassandra-shim], a Module each.

    The programs:

    - [Main.v]: [shim-core/src/signal.rs] and [evergreen-shim/src/main.rs].
      [run_shim] assembles the configuration, boots the capabilities, watches the
      child over a list of [Turn]s and winds down.
    - [RedisBridge.v]: [shim-core/src/redis_bridge.rs].  Several bridges on one
      stream ([net_run]), over the class [RedisStream].
    - [Operator.v]: [shim-operator].  The resource, what is made of it, and a
      reconciliation over a [Cluster].
    - [Wasm.v]: [shim-core/src/wasm.rs].  The wrapper of a capability; the store of a
      module, the functions of the host over its memory, and a call ([run]) as any list
      of actions.
    - [Plugin.v]: [shim-plugin/src/loader.rs].  The scan of a directory, and a table of C
      functions as a capability.
    - [Shimctl.v]: [shimctl].  The requests of each command, what it prints, and the
      routes of [health-shim] they meet.

    The life of the tasks, and the tests:

    - [Lifecycle.v]: start and stop of the shims that run a task, with the channel that
      ends it ([Watch]), for [alerting-shim], [cache-shim], [proxy-shim] and the others
      that follow the pattern.
    - [Testing.v] and the files [Test*.v], which hold a Module per shim or file: the
      repository's own tests.  A test is a boolean with the name it has in the source,
      its calls are those of the model, and an [Example] per Module evaluates them all
      to [true]: the definitions agree with what the authors wrote down.  What is left
      out of a test, and the tests left out, are those about serialization, sockets,
      threads and accessors.

    ** How the parts interact

    Shims talk through the bus: [Failover.v], [MultiCluster.v] and [Replication.v]
    produce [effect]s whose events are those of [Events.v]; [Wiring.v] consumes and
    publishes on the [ShimBus] of [Bus.v], against the [Broadcast] interface only;
    [Alerting.v] consumes events.  [Config.v] holds the sections that [Failover.v],
    [Migration.v], [Replication.v], [AuditLog.v], [Health.v], [Backup.v],
    [HotReload.v] and [Process.v] read, and the quotas of [Tenant.v] and
    [Resource.v]; their [init] takes what [validate] reports.  [Process.stop] calls
    the handlers of [Shutdown.v], [Backup.v] the schedules of [Scheduler.v].  [Main.v]
    runs the capabilities, reads [Config.v], starts and stops the child of [Process.v]
    and hears the signals over [Bus.v]; [Operator.v] is about what [Main.load_config]
    makes of the environment it writes; [RedisBridge.v] carries the events of
    [Events.v] between buses.  [Wasm.v] and [Plugin.v] make capabilities of [Main.v];
    [AlertLoop.v] runs [Alerting.v] on the bus; [Shimctl.v] puts the client in front of the
    endpoints of [Health.v].  The other shims keep their state to themselves.

    ** Conventions

    A record of the code is a [Record] with the same fields (less shutdown
    channels and handles); [r <| f := v |>] is an assignment.  A method is a
    function from the state, the clock readings and the outside answers it uses
    to its result and the new state; a method that releases a lock in the middle
    is two functions; a method whose calls change the world ([Shutdown.v],
    [Process.v], [Backup.v]) takes the world and gives the next one.  Integers are
    [Z] and wrap as in the release profile; where a release build panics, the result
    is an [option].  Instants are nanoseconds (milliseconds in [Shutdown.v]).  Code
    that is not in the repository is a class or an argument: the UUIDs and JSON
    values ([External], [LockJson], [EntryJson], [JsonObject]), the channel
    ([Broadcast]), the calendar ([Chrono], where an addition may panic,
    [ChronoDuration], [DateFormat]), RFC 3339 text ([Rfc3339]), cron expressions
    ([Cron]), [HashMap] iteration ([HashOrder]), slice binary search
    ([BinarySearch]), the MAC ([HmacSha256]), databases ([SqlDb]), the operating
    system ([Os], [Host]), ciphers ([Aead]), Redis streams ([RedisStream]), the
    DynamoDB client ([Client]), the memory of a module ([LinearMemory]), JSON replies
    ([Wire]), the watch channel ([Watch]), the table of processes ([ProcTable]).  Each has an instance, used in the runs at the end of a
    file, so no theorem is about nothing.

    ** What the theorems show

    - Bus: sequence numbers are gapless per source and unique under concurrency,
      though delivery can reorder them; filtered receiving skips exactly what it
      should.
    - Wiring: the loops of handlers terminate, their output does not depend on
      the interleaving, failovers are triggered once per threshold; the alert
      fan-in task is dead on arrival.
    - Alerting: the counters account for every event, deduplication spaces
      alerts, cleanup is invisible, low severities are never posted.  AlertLoop: however
      often it is started and stopped, the tasks record and post published events, each at
      most once; a key is recorded once per window unless two tasks overlap; a task alone
      does what [process_event] says; after a stop no event is taken up.
    - AlertingShim: what [process_alert] posts, counts and records; the backoff it
      records is never consulted.
    - Config: [validate] reports exactly the violated rules; what each variable
      overrides in [load], and that a loaded configuration that validates is valid.
    - Tenant: the decision on a request, and that one tenant cannot affect another.
      TenantWire: what of a usage survives writing and reading.
    - Shutdown, Process: every handler returns, within its time and the lateness of the
      timer, and the manager too unless the deadline of its drain overflows; what becomes
      of a process that ignores SIGTERM; stopping a child always ends it; the states of a
      child.
      Reaper: the task may take the status of a command that another part waits for.
      Lifecycle: a stop reaches the task that the last start made.
    - HotReload: the configuration in force is that of the last accepted file, and
      with validation always a valid one.
    - Health: the outcome of a startup probe; the codes the endpoints answer, which
      no later change of a capability affects.  Resource: what a quota check answers;
      the processor quota is never checked.
    - Sharding: hash routing finds the owner on the ring, a new shard only
      attracts keys, range routing does not depend on map order; misses are
      never counted.
    - Cache: the invariant of map, orders and byte count; a refinement to a store
      (no stale answers); exactness of eviction and of bulk removal.
    - Queue: conservation of jobs under all interleavings of one kind, the record
      a job carries, the counterexample to mixing both kinds, backoff and timeout
      arithmetic.
    - Scheduler: the loop picks the earliest task; the outcome of a run.  SchedulerLoop:
      no task starts early, and of two with the same schedule the second never does.
    - Proxy: refinement of the circuit breaker to an abstract machine, its
      threshold and single probe, the method that can never recover; fairness of
      the round-robin.  ProxyTcp: failed connections change neither the circuit nor the
      choice of backends.
    - Failover: failover exactly at the threshold, failback after ten checks, and
      the blip that disables it; multi-cluster promotion is sound.  FailoverIo: a primary
      that is given by name is failed over.
    - Migration: the applied versions stay contiguous, in memory and against a database,
      below the largest version; a rollback undoes an
      application, two processes can hold the lock, file names round-trip.
    - Replication: statuses follow the lag; the outcome of a turn; promotion leaves
      the loop watching the old primary.
    - Auth: tokens implement grants (who may do what, until when); passwords
      round-trip.
    - AuditLog: the files hold what was logged, and what a restart doubles.
    - Cdc: every event is counted once; a batch is published or dropped as a whole.
      CdcLoop: what the loops capture; the MariaDB source captures nothing.
    - Cost: spend refines a ledger.  Archival: identifiers are unique.  ArchivalStore:
      uploads and downloads round-trip.  Compliance: every check is accounted for, the
      verdicts of the rules.
    - Chaos: experiments never influence a request; the orchestrator neither loses
      nor repeats an experiment.
    - Backup: a recorded backup can be verified, only SQL dumps can succeed, nothing
      ever expires, a scheduled backup runs early and again, the wait for Redis ends.
    - RateLimit: refinement to a sliding window over the whole history.
      Management: what each handler answers and records.
    - Main: which capabilities are stopped, in which order, on every way out; the
      HTTP health check is a TCP check; what the death of a child leads to.
    - RedisBridge: an event reaches at most one container, and all but the last entry
      of a batch stay pending.
    - Encryption: decryption undoes encryption through rotations; what is sealed with a
      prefix for the additional data comes back only if it opens under other data.
    - Tls: base64 and PEM round-trip; a certificate found on disk is never renewed; an
      order that is not valid at once is never found valid.
    - Vault: the credentials file follows Vault, the metrics do not.
    - ConfigShim: what a reload does on every path; a signal that fails is lost; the
      backup is of the new file.
    - Operator: what it writes does not influence the shim; a sidecar is made once.
    - Databases: what each health check reports, and what it cannot see.
    - Wasm: the memory of a module and the configuration served to it are bounded; a
      module can bring down its host; no limit of fuel is no fuel; what a call reports.
    - Plugin: what a scan loads, whatever the order of the directory; when a plugin works.
    - Shimctl: no server of the repository answers its requests, the metrics apart.
    - Metrics: custom metrics are never seen; the counters agree with the calls.
      Logging: request ids are unique.  Errors: the text tells the part.

    ** Fuel and bounds

    [Cache.evict_while] has one more than the number of entries
    ([cache_run_invariant] shows that no [set] ends in [Diverged]);
    [Scheduler.attempt_loop], [AlertingShim.send_attempts], [Health.attempts] and
    [Backup.backup_loop] have the number of attempts, which is the bound of the [for]
    loop; [Shutdown.poll_until] and [Backup.bgsave_wait] poll every 100 ms, so ten
    polls for each second and one more are enough ([shutdown_returns],
    [bgsave_wait_ends]); [Text.trim_end_fuel], [Main.trim_start_fuel] and [Tls.pem_lines]
    have the length of the string; the text
    of a float has its seventeen digits ([Floats.shortest]); [Databases.first_ok] has
    the number of attempts.  Hypotheses such as
    [length rounds < 2^32] keep the code's counters from wrapping; where they can
    wrap, the theorem says so.

    ** Not modelled

    Sockets, HTTP, database clients, timers and the delivery of shutdown signals,
    whose results are inputs; the WASM engine, the dynamic loader, the registry and the
    text format of the metrics, which are foreign; log lines and tracing ([otel.rs]); argument
    parsing; benchmarks, and the tests that need a network, containers or the clock. *)

From stdpp Require Export prelude gmap strings pretty sorting list numbers.
From Stdlib Require Export ZArith Lia Ascii.
From stdpp Require Export strings.
From Stdlib Require Import SpecFloat.

Declare Scope rust_scope.
Delimit Scope rust_scope with rust.
Open Scope rust_scope.
Open Scope Z_scope.

(** ** Record update

    [r <| f := v |>] is the Rust assignment [r.f = v] on a cloned record and
    [r <| f ::= g |>] is [r.f = g(r.f)].  A record type declares its eta
    expansion once ([Settable]); the setters of its fields are derived. *)

Class Settable (R : Type) := eta_of : R → R.
Class Setter {R T : Type} (proj : R → T) := modify_field : (T → T) → R → R.
Global Arguments modify_field {R T} proj {_} _ _ /.

Ltac derive_setter :=
  lazymatch goal with
  | |- @Setter ?R _ ?proj =>
      let i := constr:(_ : Settable R) in
      let body := eval cbv [eta_of] in (@eta_of R i) in
      let body := eval hnf in body in
      lazymatch eval pattern proj in body with
      | ?abs _ => let r := eval cbv beta in (fun g => abs (fun x => g (proj x))) in exact r
      end
  end.

#[global] Hint Extern 0 (Setter _) => derive_setter : typeclass_instances.

Notation "r <| f := v |>" := (modify_field f (λ _, v) r)
  (at level 1, left associativity, f at next level, format "r  <|  f  :=  v  |>") : rust_scope.
Notation "r <| f ::= g |>" := (modify_field f g r)
  (at level 1, left associativity, f at next level, format "r  <|  f  ::=  g  |>") : rust_scope.

(** ** Fallible code: [Result<T, E>] *)

Inductive result (E A : Type) : Type :=
| Ok (a : A)
| Err (e : E).
Global Arguments Ok {E A} a.
Global Arguments Err {E A} e.

Definition result_bind {E A B} (r : result E A) (k : A → result E B) : result E B :=
  match r with Ok a => k a | Err e => Err e end.
Definition is_ok {E A} (r : result E A) : bool :=
  match r with Ok _ => true | Err _ => false end.
Notation "x '<-?' r ; k" := (result_bind r (λ x, k))
  (at level 60, r at level 59, right associativity) : rust_scope.

(** ** Machine integers

    A [w]-bit unsigned integer is a [Z] in [0 <= z < 2^w]; the operators are
    those of the release profile, which wraps (the profile in the workspace
    [Cargo.toml] does not turn [overflow-checks] on). *)

Definition wrap (w z : Z) : Z := z mod 2 ^ w.
Definition in_u (w z : Z) : Prop := 0 ≤ z < 2 ^ w.
Definition add64 (a b : Z) : Z := wrap 64 (a + b).
Definition sub64 (a b : Z) : Z := wrap 64 (a - b).
Definition mul64 (a b : Z) : Z := wrap 64 (a * b).
Definition add32 (a b : Z) : Z := wrap 32 (a + b).
Definition sub32 (a b : Z) : Z := wrap 32 (a - b).
Definition saturating_sub (a b : Z) : Z := Z.max 0 (a - b).
(** [2u32.saturating_pow(n)] *)
Definition saturating_pow2_u32 (n : Z) : Z := Z.min (2 ^ 32 - 1) (2 ^ n).

Lemma wrap_add_l w a b : wrap w (wrap w a + b) = wrap w (a + b).
Proof. unfold wrap. apply Zplus_mod_idemp_l. Qed.
Lemma wrap_add_r w a b : wrap w (a + wrap w b) = wrap w (a + b).
Proof. unfold wrap. apply Zplus_mod_idemp_r. Qed.
Lemma wrap_small w z : in_u w z → wrap w z = z.
Proof. apply Z.mod_small. Qed.
Lemma wrap_range w z : 0 ≤ w → in_u w (wrap w z).
Proof. intros. apply Z.mod_pos_bound. lia. Qed.
Lemma add64_small a b : in_u 64 (a + b) → add64 a b = a + b.
Proof. apply wrap_small. Qed.
Lemma sub64_small a b : in_u 64 (a - b) → sub64 a b = a - b.
Proof. apply wrap_small. Qed.
Lemma mul64_small a b : in_u 64 (a * b) → mul64 a b = a * b.
Proof. apply wrap_small. Qed.
Lemma add32_small a b : in_u 32 (a + b) → add32 a b = a + b.
Proof. apply wrap_small. Qed.
Lemma sub32_small a b : in_u 32 (a - b) → sub32 a b = a - b.
Proof. apply wrap_small. Qed.
Lemma add64_range a b : in_u 64 (add64 a b).
Proof. by apply wrap_range. Qed.
Lemma add32_range a b : in_u 32 (add32 a b).
Proof. by apply wrap_range. Qed.

(** [u_small] rewrites every wrapping operation whose operands [lia] can bound
    to the plain one. *)
Ltac u_small_step :=
  first
    [ rewrite add64_small by (unfold in_u in *; lia)
    | rewrite sub64_small by (unfold in_u in *; lia)
    | rewrite mul64_small by (unfold in_u in *; lia)
    | rewrite add32_small by (unfold in_u in *; lia)
    | rewrite sub32_small by (unfold in_u in *; lia)
    | rewrite wrap_small by (unfold in_u in *; lia) ].
Ltac u_small := repeat u_small_step.

Lemma add64_0_r a : in_u 64 a → add64 a 0 = a.
Proof. intros. unfold add64. rewrite Z.add_0_r. by apply wrap_small. Qed.
Lemma add64_assoc_l a b c : add64 (add64 a b) c = add64 a (b + c).
Proof. unfold add64, wrap. rewrite Zplus_mod_idemp_l. f_equal. lia. Qed.

(** ** Strings: the [str] methods the code uses, on bytes *)

Definition starts_with (s pat : string) : bool := String.prefix pat s.

Fixpoint str_contains (s pat : string) : bool :=
  String.prefix pat s ||
  match s with EmptyString => false | String _ r => str_contains r pat end.

Definition ascii_lower (c : ascii) : ascii :=
  let n := N_of_ascii c in
  if ((65 <=? n) && (n <=? 90))%N then ascii_of_N (n + 32) else c.

(** [to_lowercase] on the ASCII range.  (Full Unicode lowercasing maps no other
    character into the words the program compares the result with.) *)
Fixpoint to_lowercase (s : string) : string :=
  match s with
  | EmptyString => EmptyString
  | String c r => String (ascii_lower c) (to_lowercase r)
  end.

(** [split(sep)]: always at least one piece *)
Fixpoint split_on (sep : ascii) (s : string) : list string :=
  match s with
  | EmptyString => [""]
  | String c r =>
      if bool_decide (c = sep) then "" :: split_on sep r
      else match split_on sep r with
           | h :: t => String c h :: t
           | [] => [String c ""]
           end
  end.

(** [trim], on the ASCII white space *)
Fixpoint trim_start (s : string) : string :=
  match s with
  | String c r => if Ascii.is_space c then trim_start r else s
  | EmptyString => s
  end.
Definition trim (s : string) : string :=
  String.rev (trim_start (String.rev (trim_start s))).

Definition digit_val (c : ascii) : option Z :=
  let n := Z.of_N (N_of_ascii c) in
  if (48 <=? n) && (n <=? 57) then Some (n - 48) else None.

Fixpoint digits_value (acc : Z) (s : string) : option Z :=
  match s with
  | EmptyString => Some acc
  | String c r => match digit_val c with
                  | Some d => digits_value (10 * acc + d) r
                  | None => None
                  end
  end.

(** [str::parse] for an unsigned type whose largest value is [hi]: an optional
    plus sign, at least one digit, and a value in range. *)
Definition parse_unsigned (hi : Z) (s : string) : option Z :=
  let v := match s with
           | EmptyString => None
           | String c r =>
               if bool_decide (c = "+"%char)
               then (if bool_decide (r = "") then None else digits_value 0 r)
               else digits_value 0 s
           end in
  match v with Some z => if z <=? hi then Some z else None | None => None end.
Definition parse_u32 : string → option Z := parse_unsigned (2 ^ 32 - 1).
Definition parse_u64 : string → option Z := parse_unsigned (2 ^ 64 - 1).
Definition parse_usize : string → option Z := parse_unsigned (2 ^ 64 - 1).

(** [str::parse::<i64>] *)
Definition parse_i64 (s : string) : option Z :=
  match s with
  | String c r =>
      if bool_decide (c = "-"%char)
      then (if bool_decide (r = "") then None
            else match digits_value 0 r with
                 | Some z => if z <=? 2 ^ 63 then Some (- z) else None
                 | None => None
                 end)
      else parse_unsigned (2 ^ 63 - 1) s
  | EmptyString => None
  end.

(** [as i64] of a [u64] *)
Definition as_i64 (z : Z) : Z := if z <? 2 ^ 63 then z else z - 2 ^ 64.
(** [as u64] of an [i64] *)
Definition as_u64 (z : Z) : Z := wrap 64 z.
(** [as i32] of a [u32], [as u32] *)
Definition as_i32 (z : Z) : Z := if z <? 2 ^ 31 then z else z - 2 ^ 32.
Definition as_u32 (z : Z) : Z := wrap 32 z.

(** Instants are nanoseconds.  [now + chrono::Duration::seconds(n)] panics when
    the sum is no date of [chrono]; [plus_seconds] is [None] there. *)
Class Chrono := {
  plus_seconds : Z → Z → option Z;
  plus_seconds_ok now n t : plus_seconds now n = Some t → t = now + n * 10 ^ 9
}.
(** A calendar that ends with the year 9999 *)
Program Definition demo_chrono : Chrono :=
  {| plus_seconds now n :=
       let t := now + n * 10 ^ 9 in
       if bool_decide (Z.abs t < 253402300800 * 10 ^ 9) then Some t else None |}.
Next Obligation. intros now n t. simpl. by case_bool_decide; intros; simplify_eq. Qed.

(** RFC 3339 timestamps: [to_rfc3339] keeps the nanoseconds, so parsing gives
    the instant back. *)
Class Rfc3339 := {
  to_rfc3339 : Z → string;
  parse_from_rfc3339 : string → option Z;
  parse_to_rfc3339 t : parse_from_rfc3339 (to_rfc3339 t) = Some t
}.
(** [(a - b).num_seconds()]: towards zero *)
Definition num_seconds_between (a b : Z) : Z := Z.quot (a - b) (10 ^ 9).

(** A format of this kind: the instant in unary, behind its sign. *)
Fixpoint unary (n : nat) : string :=
  match n with O => "" | S n => String "1" (unary n) end.
Program Definition demo_rfc3339 : Rfc3339 :=
  {| to_rfc3339 t := String (if (t <? 0)%Z then "-" else "+")%char (unary (Z.to_nat (Z.abs t)));
     parse_from_rfc3339 s :=
       match s with
       | String c r =>
           Some (if bool_decide (c = "-"%char) then - Z.of_nat (String.length r)
                 else Z.of_nat (String.length r))
       | EmptyString => None
       end |}.
Next Obligation.
  intros t. simpl. assert (∀ n, String.length (unary n) = n) as ->.
  { induction n; simpl; congruence. }
  destruct (Z.ltb_spec t 0); simpl; f_equal; lia.
Qed.

(** ** The process environment *)

Abbreviation environment := (gmap string string).

(** [std::env::var(k).unwrap_or_else(|_| d)] *)
Definition env_or (env : environment) (k d : string) : string :=
  default d (env !! k).
(** [std::env::var(k).ok().and_then(|s| s.parse().ok()).unwrap_or(d)] *)
Definition env_parse {A} (env : environment) (k : string)
    (parse : string → option A) (d : A) : A :=
  default d (env !! k ≫= parse).

(** [std::env::var(k).map(|v| v == "true" || v == "1").unwrap_or(false)] *)
Definition env_true (env : environment) (k : string) : bool :=
  match env !! k with Some v => bool_decide (v = "true") || bool_decide (v = "1") | None => false end.

(** ** [std::collections::HashMap]

    A map is a [gmap]; what a program can see beyond that is the order in which
    the entries are visited, which the standard library leaves unspecified
    ([RandomState]).  [HashOrder] is one such order; every theorem holds for
    all of them. *)

Class HashOrder := {
  hash_iter : ∀ {K} `{Countable K} {V}, gmap K V → list (K * V);
  hash_iter_perm : ∀ {K} `{Countable K} {V} (m : gmap K V),
    hash_iter m ≡ₚ map_to_list m
}.

(** An order that exists: the one of the key encodings. *)
Definition canonical_order : HashOrder :=
  {| hash_iter := λ K _ _ V m, map_to_list m;
     hash_iter_perm := λ K _ _ V m, reflexivity _ |}.

(** ... and its reverse *)
Definition reversed_order : HashOrder :=
  {| hash_iter := λ K _ _ V m, reverse (map_to_list m);
     hash_iter_perm := λ K _ _ V m, reverse_Permutation _ |}.

Section hash_order.
Context `{HO : HashOrder} `{Countable K} {V : Type}.
Implicit Types m : gmap K V.

Definition hash_keys m : list K := (hash_iter m).*1.
Definition hash_values m : list V := (hash_iter m).*2.

Lemma elem_of_hash_iter m k v : (k, v) ∈ hash_iter m ↔ m !! k = Some v.
Proof. rewrite (hash_iter_perm m). apply elem_of_map_to_list. Qed.
Lemma NoDup_hash_keys m : NoDup (hash_keys m).
Proof. unfold hash_keys. rewrite (hash_iter_perm m). apply NoDup_fst_map_to_list. Qed.
Lemma elem_of_hash_keys m k : k ∈ hash_keys m ↔ is_Some (m !! k).
Proof.
  unfold hash_keys. rewrite list_elem_of_fmap. split.
  - intros ([k' v] & -> & Hin%elem_of_hash_iter). eauto.
  - intros [v Hv]. exists (k, v). by rewrite elem_of_hash_iter.
Qed.
Lemma length_hash_iter m : length (hash_iter m) = size m.
Proof. rewrite (hash_iter_perm m). apply length_map_to_list. Qed.
Lemma hash_iter_nil m : hash_iter m = [] → m = ∅.
Proof.
  intros E. apply map_size_empty_iff. by rewrite <-length_hash_iter, E.
Qed.
End hash_order.

(** ** Lists and vectors *)

(** [VecDeque::retain(|k| k != x)] and its queue view *)
Definition retain_ne {A} `{EqDecision A} (x : A) (l : list A) : list A :=
  filter (λ y, y ≠ x) l.

(** [iter().min_by_key(f)]: the first of the minimal elements *)
Fixpoint min_by_key {A} (f : A → Z) (l : list A) : option A :=
  match l with
  | [] => None
  | x :: r => match min_by_key f r with
              | Some y => if f y <? f x then Some y else Some x
              | None => Some x
              end
  end.

(** [iter().position(p)] *)
Fixpoint position {A} (p : A → bool) (l : list A) : option nat :=
  match l with
  | [] => None
  | x :: r => if p x then Some 0%nat else S <$> position p r
  end.

(** [sort_by_key]: stable *)
Fixpoint insert_by_key {A} (f : A → Z) (x : A) (l : list A) : list A :=
  match l with
  | [] => [x]
  | y :: r => if f x <=? f y then x :: y :: r else y :: insert_by_key f x r
  end.
Definition sort_by_key {A} (f : A → Z) (l : list A) : list A :=
  foldr (insert_by_key f) [] l.

(** [Vec::remove(i)] for an index in range *)
Definition remove_at {A} (i : nat) (l : list A) : list A := take i l ++ drop (S i) l.

Definition sum_list_Z {A} (f : A → Z) (l : list A) : Z := foldr (λ x s, f x + s) 0 l.

Section lists.
Context {A : Type}.
Implicit Types (l : list A) (x y : A).

Lemma min_by_key_elem f l x : min_by_key f l = Some x → x ∈ l.
Proof.
  revert x. induction l as [|y r IH]; simpl; intros x E; [done|].
  destruct (min_by_key f r) as [z|]; [destruct (f z <? f y)|];
    simplify_eq; rewrite elem_of_cons; eauto.
Qed.
Lemma min_by_key_le f l x : min_by_key f l = Some x → ∀ y, y ∈ l → f x ≤ f y.
Proof.
  revert x. induction l as [|y r IH]; simpl; intros x E z Hz; [done|].
  apply elem_of_cons in Hz.
  destruct (min_by_key f r) as [w|] eqn:Er.
  - specialize (IH w eq_refl).
    destruct (Z.ltb_spec (f w) (f y)); simplify_eq;
      destruct Hz as [->|Hz]; try specialize (IH _ Hz); lia.
  - simplify_eq. destruct Hz as [->|Hz]; [lia|].
    destruct r; simpl in *; [by apply elem_of_nil in Hz|].
    by destruct (min_by_key f r) as [?|]; [destruct (_ <? _)|].
Qed.
Lemma min_by_key_is_Some f l : l ≠ [] → is_Some (min_by_key f l).
Proof.
  destruct l as [|x r]; [done|]; intros _; simpl.
  destruct (min_by_key f r) as [y|]; [destruct (f y <? f x)|]; eauto.
Qed.
Lemma min_by_key_None f l : min_by_key f l = None → l = [].
Proof.
  intros E. destruct l as [|x r]; [done|].
  by destruct (min_by_key_is_Some f (x :: r)) as [? E']; [|rewrite E' in E].
Qed.

Lemma position_Some p l i :
  position p l = Some i →
  ∃ x, l !! i = Some x ∧ p x = true ∧ l ≡ₚ x :: remove_at i l.
Proof.
  revert i. induction l as [|y r IHr]; simpl; intros i E; [done|].
  destruct (p y) eqn:Ey; simplify_eq/=.
  - exists y. by unfold remove_at.
  - apply fmap_Some in E as (j & (x & Hx & Hp & HP)%IHr & ->).
    exists x. split_and!; [done..|].
    unfold remove_at in *. simpl. rewrite HP at 1. apply perm_swap.
Qed.
Lemma position_None p l : position p l = None ↔ Forall (λ x, p x = false) l.
Proof.
  induction l as [|y r IHr]; simpl; [done|].
  rewrite Forall_cons. destruct (p y) eqn:Ey.
  - split; [done|by intros []].
  - rewrite fmap_None, IHr. tauto.
Qed.

Lemma sum_list_Z_cons f x l : sum_list_Z f (x :: l) = f x + sum_list_Z f l.
Proof. done. Qed.
Lemma sum_list_Z_singleton f x : sum_list_Z f [x] = f x.
Proof. apply Z.add_0_r. Qed.
Lemma sum_list_Z_app f l1 l2 :
  sum_list_Z f (l1 ++ l2) = sum_list_Z f l1 + sum_list_Z f l2.
Proof. induction l1; simpl; lia. Qed.
Lemma sum_list_Z_perm f l1 l2 : l1 ≡ₚ l2 → sum_list_Z f l1 = sum_list_Z f l2.
Proof. induction 1; simpl; lia. Qed.
Lemma sum_list_Z_nonneg f l : (∀ x, x ∈ l → 0 ≤ f x) → 0 ≤ sum_list_Z f l.
Proof.
  induction l as [|x r IH]; simpl; intros Hf; [lia|].
  assert (0 ≤ f x) by (apply Hf; constructor).
  assert (0 ≤ sum_list_Z f r) by (apply IH; intros y Hy; apply Hf; by constructor). lia.
Qed.
#[export] Instance sum_list_Z_Proper f : Proper ((≡ₚ@{A}) ==> (=)) (sum_list_Z f).
Proof. intros l1 l2. apply sum_list_Z_perm. Qed.
End lists.

Lemma filter_all {A} (P : A → Prop) `{∀ x, Decision (P x)} (l : list A) :
  Forall P l → filter P l = l.
Proof. induction 1 as [|x l Hx Hl IH]; [done|]. rewrite filter_cons_True by done. by f_equal. Qed.
Lemma NoDup_fmap_inj_in {A B} (f : A → B) (l : list A) x y :
  NoDup (f <$> l) → x ∈ l → y ∈ l → f x = f y → x = y.
Proof.
  intros Hnd [i Hi]%list_elem_of_lookup [j Hj]%list_elem_of_lookup Hf.
  assert (i = j) as ->; [|by simplify_eq].
  apply (NoDup_lookup (f <$> l) i j (f x) Hnd); rewrite list_lookup_fmap;
    [by rewrite Hi|rewrite Hj; by rewrite Hf].
Qed.

Definition sorted_by {A} (f : A → Z) (l : list A) : Prop :=
  StronglySorted (λ x y, f x ≤ f y) l.

Section sort_by_key.
Context {A : Type} (f : A → Z).
Implicit Types (l : list A).

Lemma insert_by_key_perm x l : insert_by_key f x l ≡ₚ x :: l.
Proof.
  induction l as [|y r IHr]; simpl; [done|]. destruct (f x <=? f y); [done|].
  rewrite IHr. apply perm_swap.
Qed.
Lemma sort_by_key_perm l : sort_by_key f l ≡ₚ l.
Proof. induction l as [|x r IHr]; simpl; [done|]. by rewrite insert_by_key_perm, IHr. Qed.
Lemma insert_by_key_sorted x l : sorted_by f l → sorted_by f (insert_by_key f x l).
Proof.
  unfold sorted_by. induction 1 as [|y r Hr IHr Hy]; simpl; [by repeat constructor|].
  destruct (Z.leb_spec (f x) (f y)) as [Hle|Hlt].
  - constructor; [by constructor|]. constructor; [done|].
    eapply Forall_impl; [exact Hy|]. simpl. lia.
  - constructor; [done|]. rewrite insert_by_key_perm. constructor; [lia|done].
Qed.
Lemma sort_by_key_sorted l : sorted_by f (sort_by_key f l).
Proof.
  induction l as [|x r IHr]; simpl; [constructor|]. by apply insert_by_key_sorted.
Qed.
Lemma sorted_by_lookup l i j x y :
  sorted_by f l → (i ≤ j)%nat → l !! i = Some x → l !! j = Some y → f x ≤ f y.
Proof.
  intros Hs. revert i j. induction Hs as [|z r Hr IHr Hz]; intros i j Hij Hi Hj; [done|].
  destruct i as [|i], j as [|j]; simpl in *; simplify_eq; try lia.
  - rewrite Forall_lookup in Hz. by apply (Hz j).
  - apply (IHr i j); [lia|done..].
Qed.
End sort_by_key.

(** [slice::binary_search_by] on a key: the standard library fixes the result
    only up to the choice among equal elements, so the search is any function
    that meets its documentation. *)
Class BinarySearch := {
  binary_search : ∀ {A}, (A → Z) → list A → Z → result nat nat;
  binary_search_ok : ∀ A (f : A → Z) l x i,
    sorted_by f l → binary_search f l x = Ok i → ∃ a, l !! i = Some a ∧ f a = x;
  binary_search_err : ∀ A (f : A → Z) l x i,
    sorted_by f l → binary_search f l x = Err i →
    (i ≤ length l)%nat ∧
    ∀ j a, l !! j = Some a → ((j < i)%nat → f a < x) ∧ ((i ≤ j)%nat → x < f a)
}.

(** One such search: the first element that is not smaller. *)
Fixpoint first_not_smaller {A} (f : A → Z) (l : list A) (x : Z) : result nat nat :=
  match l with
  | [] => Err 0%nat
  | y :: r =>
      if f y <? x then
        match first_not_smaller f r x with Ok i => Ok (S i) | Err i => Err (S i) end
      else if f y =? x then Ok 0%nat else Err 0%nat
  end.
Program Definition linear_search : BinarySearch :=
  {| binary_search A f l x := first_not_smaller f l x |}.
Next Obligation.
  intros A f l x. induction l as [|y r IHr]; intros i Hs E; simpl in *; [done|].
  apply StronglySorted_inv in Hs as [Hs _].
  destruct (f y <? x), (first_not_smaller f r x) as [j|j] eqn:Er; simplify_eq.
  - by apply IHr.
  - destruct (Z.eqb_spec (f y) x); simplify_eq. by exists y.
  - destruct (Z.eqb_spec (f y) x); simplify_eq. by exists y.
Qed.
Next Obligation.
  intros A f l x. induction l as [|y r IHr]; intros i Hs E; simpl in *.
  { simplify_eq. split; [lia|]. intros j a Ha. by rewrite lookup_nil in Ha. }
  pose proof Hs as Hs0. apply StronglySorted_inv in Hs as [Hs Hy].
  destruct (Z.ltb_spec (f y) x) as [Hlt|Hge].
  - destruct (first_not_smaller f r x) as [j|j] eqn:Er; simplify_eq.
    destruct (IHr _ Hs eq_refl) as [Hle Hall]. split; [simpl; lia|].
    intros [|k] a Ha; simpl in Ha; simplify_eq; [split; lia|].
    destruct (Hall k a Ha). split; intros; [apply H|apply H0]; lia.
  - destruct (Z.eqb_spec (f y) x); simplify_eq. split; [lia|].
    intros j a Ha. split; [lia|]. intros _.
    pose proof (sorted_by_lookup f (y :: r) 0 j y a Hs0 ltac:(lia) eq_refl Ha). lia.
Qed.

Section retain.
Context {A : Type} `{EqDecision A}.
Implicit Types (l : list A) (x y : A).

Lemma elem_of_retain_ne x y l : y ∈ retain_ne x l ↔ y ≠ x ∧ y ∈ l.
Proof. unfold retain_ne. by rewrite list_elem_of_filter. Qed.
Lemma NoDup_retain_ne x l : NoDup l → NoDup (retain_ne x l).
Proof. apply NoDup_filter. Qed.
Lemma retain_ne_notin x l : x ∉ l → retain_ne x l = l.
Proof.
  induction l as [|y r IH]; intros Hx; [done|].
  apply not_elem_of_cons in Hx as [Hne Hx].
  unfold retain_ne in *. rewrite filter_cons_True by done.
  f_equal. by apply IH.
Qed.
Lemma NoDup_retain_snoc x l : NoDup l → NoDup (retain_ne x l ++ [x]).
Proof.
  intros. apply NoDup_app. split_and!.
  - by apply NoDup_retain_ne.
  - intros y [Hne _]%elem_of_retain_ne. by rewrite list_elem_of_singleton.
  - apply NoDup_singleton.
Qed.
End retain.

(** ** Reachability: an invariant of the steps holds along an execution. *)
Lemma rtc_invariant {S} (R : relation S) (P : S → Prop) a b :
  (∀ x y, R x y → P x → P y) → rtc R a b → P a → P b.
Proof. intros HR. induction 1; eauto. Qed.

(** ** Binary64 arithmetic, computed by the integer model of the standard library *)

Abbreviation f64 := spec_float.
Definition f64_of_Z (z : Z) : f64 := binary_normalize 53 1024 z 0 false.
Definition f64_add : f64 → f64 → f64 := SFadd 53 1024.
Definition f64_sub : f64 → f64 → f64 := SFsub 53 1024.
Definition f64_mul : f64 → f64 → f64 := SFmul 53 1024.
Definition f64_div : f64 → f64 → f64 := SFdiv 53 1024.
Definition f64_ge (a b : f64) : bool := SFleb b a.
Definition f64_gt (a b : f64) : bool := SFltb b a.
Definition f64_le : f64 → f64 → bool := SFleb.
Definition f64_is_nan (a : f64) : bool := match a with S754_nan => true | _ => false end.
(** [f64::min]: the other operand when one is NaN *)
Definition f64_min (a b : f64) : f64 :=
  if f64_is_nan a then b else if f64_is_nan b then a
  else if SFltb b a then b else a.

Definition f64_lt : f64 → f64 → bool := SFltb.
(** [Duration::as_secs_f64] of a number of nanoseconds *)
Definition as_secs_f64 (ns : Z) : f64 :=
  f64_add (f64_of_Z (ns / 10 ^ 9)) (f64_div (f64_of_Z (ns mod 10 ^ 9)) (f64_of_Z (10 ^ 9))).
(** [f64::MAX] *)
Definition f64_max_value : f64 := S754_finite false (2 ^ 53 - 1) 971.
(** [%] on [f64]: the remainder is exact *)
Definition f64_rem (x y : f64) : f64 :=
  match x, y with
  | S754_nan, _ | _, S754_nan | S754_infinity _, _ | _, S754_zero _ => S754_nan
  | S754_zero s, _ => S754_zero s
  | _, S754_infinity _ => x
  | S754_finite s1 m1 e1, S754_finite _ m2 e2 =>
      let e := Z.min e1 e2 in
      let r := (Z.pos m1 * 2 ^ (e1 - e)) mod (Z.pos m2 * 2 ^ (e2 - e)) in
      binary_normalize 53 1024 (if s1 then - r else r) e s1
  end.
(** [as u64] of an [f64]: towards zero, saturating *)
Definition f64_to_u64 (f : f64) : Z :=
  match f with
  | S754_finite false m e =>
      Z.min (2 ^ 64 - 1) (if 0 <=? e then Z.pos m * 2 ^ e else Z.pos m / 2 ^ (- e))
  | S754_infinity false => 2 ^ 64 - 1
  | _ => 0
  end.

(** [str::parse::<f64>]: an optional sign, digits with an optional point and
    exponent, or a name of infinity or NaN; the value is rounded once. *)
Fixpoint take_digits (acc : Z) (n : nat) (s : string) : Z * nat * string :=
  match s with
  | String c r => match digit_val c with
                  | Some d => take_digits (10 * acc + d) (S n) r
                  | None => (acc, n, s)
                  end
  | EmptyString => (acc, n, s)
  end.
(** [m * 10^e] *)
Definition f64_of_decimal (m e : Z) : f64 :=
  match m with
  | Zpos p => if 0 <=? e then f64_of_Z (m * 10 ^ e)
              else match 10 ^ (- e) with
                   | Zpos q => f64_div (S754_finite false p 0) (S754_finite false q 0)
                   | _ => S754_nan
                   end
  | _ => S754_zero false
  end.
Definition parse_exponent (s : string) : option Z :=
  match s with
  | EmptyString => Some 0
  | String c r =>
      if bool_decide (c = "e"%char) || bool_decide (c = "E"%char) then
        let '(neg, r) := match r with
                         | String "-" r' => (true, r')
                         | String "+" r' => (false, r')
                         | _ => (false, r)
                         end in
        match take_digits 0 0 r with
        | (z, S _, EmptyString) => Some (if neg : bool then - z else z)
        | _ => None
        end
      else None
  end.
Definition parse_f64_abs (s : string) : option f64 :=
  let l := to_lowercase s in
  if bool_decide (l = "inf") || bool_decide (l = "infinity") then Some (S754_infinity false)
  else if bool_decide (l = "nan") then Some S754_nan
  else
    let '(m, n, r) := take_digits 0 0 s in
    let '(m, k, r) := match r with
                      | String "." r' => take_digits m 0 r'
                      | _ => (m, O, r)
                      end in
    if bool_decide ((n + k)%nat = 0%nat) then None
    else f64_of_decimal m <$> ((λ e, e - Z.of_nat k) <$> parse_exponent r).
Definition parse_f64 (s : string) : option f64 :=
  match s with
  | String "-" r => SFopp <$> parse_f64_abs r
  | String "+" r => parse_f64_abs r
  | _ => parse_f64_abs s
  end.
Example parse_f64_half : parse_f64 "1.5e0" = Some (f64_div (f64_of_Z 3) (f64_of_Z 2)).
Proof. reflexivity. Qed.

Lemma f64_compare_refl a : f64_is_nan a = false → SFcompare a a = Some Eq.
Proof.
  destruct a as [[]|[]| |[] m e]; try done; intros _; simpl; rewrite Z.compare_refl;
    by rewrite Pos.compare_cont_refl.
Qed.
Lemma f64_compare_swap a b : SFcompare a b = CompOpp <$> SFcompare b a.
Proof.
  destruct a as [[]|[]| |[] m e], b as [[]|[]| |[] m' e']; try done; simpl;
    rewrite (Z.compare_antisym e' e); destruct (e' ?= e); simpl; try done;
    fold (Pos.compare m m') (Pos.compare m' m); rewrite (Pos.compare_antisym m' m);
    by destruct (m' ?= m)%positive.
Qed.
Lemma f64_le_refl a : f64_is_nan a = false → f64_le a a = true.
Proof. intros H. unfold f64_le, SFleb. by rewrite f64_compare_refl. Qed.
(** [min] is below its second argument, unless that is NaN. *)
Lemma f64_min_le_r a b : f64_is_nan b = false → f64_le (f64_min a b) b = true.
Proof.
  intros Hb. pose proof (f64_compare_refl b Hb) as Hr. unfold f64_le, f64_min, SFleb, SFltb.
  rewrite Hb. destruct (f64_is_nan a) eqn:Ha; [by rewrite Hr|].
  rewrite (f64_compare_swap b a).
  destruct (SFcompare a b) as [[]|] eqn:E; simpl; rewrite ?Hr, ?E; try done.
  by destruct a as [[]|[]| |[]], b as [[]|[]| |[]].
Qed.

(** Rounding an integer never gives NaN. *)
Lemma shr_nonneg mrs e n : 0 ≤ shr_m mrs → 0 ≤ shr_m (shr mrs e n).1.
Proof.
  intros H. destruct n as [|p|p]; [done| |done]. simpl. clear e. revert mrs H.
  assert (∀ mrs, 0 ≤ shr_m mrs → 0 ≤ shr_m (shr_1 mrs)) as Hs.
  { intros [[|[]|] [] []]; simpl; lia. }
  induction p as [p IH|p IH|]; intros mrs H; simpl; auto.
Qed.
Lemma f64_normalize_not_nan m e z : f64_is_nan (binary_normalize 53 1024 m e z) = false.
Proof.
  assert (∀ s m e, f64_is_nan (binary_round 53 1024 s m e) = false) as H.
  { clear. intros s m e. unfold binary_round. destruct (shl_align _ _ _) as [mz ez].
    unfold binary_round_aux, shr_fexp.
    pose proof (shr_nonneg (shr_record_of_loc (Z.pos mz) loc_Exact) ez
      (fexp 53 1024 (Zdigits2 (Z.pos mz) + ez) - ez)) as H1.
    destruct (shr (shr_record_of_loc _ _) ez _) as [[m1 r1 s1] e1].
    assert (0 ≤ m1) as Hm1 by (apply H1; simpl; lia). clear H1.
    set (m2 := round_nearest_even _ _).
    assert (0 ≤ m2) as Hm2.
    { unfold m2. simpl. destruct r1, s1; simpl; try case_match; lia. }
    pose proof (shr_nonneg (shr_record_of_loc m2 loc_Exact) e1
      (fexp 53 1024 (Zdigits2 m2 + e1) - e1) Hm2) as H3.
    destruct (shr _ e1 _) as [[m3 r3 s3] e3]. simpl in *.
    destruct m3; [done|by case_match|lia]. }
  destruct m; simpl; [done|apply H|apply H].
Qed.
Lemma f64_of_Z_not_nan z : f64_is_nan (f64_of_Z z) = false.
Proof. apply f64_normalize_not_nan. Qed.

(** ** Automation of the common cases *)

Create HintDb evergreen.
#[export] Hint Resolve add64_range add32_range NoDup_retain_ne NoDup_retain_snoc : evergreen.
#[export] Hint Extern 5 (in_u _ _) => unfold in_u in *; lia : evergreen.

(** Case analysis on every [if]/[match] of the goal, then the record and
    constructor equations. *)
Ltac branch :=
  repeat (case_match; simplify_eq/=; try done).
Ltac bool_prop :=
  repeat match goal with
  | H : (_ <? _) = true |- _ => apply Z.ltb_lt in H
  | H : (_ <? _) = false |- _ => apply Z.ltb_ge in H
  | H : (_ <=? _) = true |- _ => apply Z.leb_le in H
  | H : (_ <=? _) = false |- _ => apply Z.leb_gt in H
  | H : (_ =? _) = true |- _ => apply Z.eqb_eq in H
  | H : (_ =? _) = false |- _ => apply Z.eqb_neq in H
  | H : bool_decide _ = true |- _ => apply bool_decide_eq_true in H
  | H : bool_decide _ = false |- _ => apply bool_decide_eq_false in H
  | H : _ && _ = true |- _ => apply andb_true_iff in H as [??]
  | H : _ || _ = false |- _ => apply orb_false_iff in H as [??]
  | H : negb _ = true |- _ => apply negb_true_iff in H
  | H : negb _ = false |- _ => apply negb_false_iff in H
  end.
