(* ===== verification/Text.v ===== *)
(** * Text: string routines shared by the components

    Prefixes and suffixes, [splitn], decimal and hexadecimal numerals, with the
    laws that relate printing and parsing. *)

From S2P Require Import Prelude.

(** ** Bytes *)

Definition byte (c : ascii) : Z := Z.of_N (N_of_ascii c).
Definition of_byte (z : Z) : ascii := ascii_of_N (Z.to_N z).
Lemma byte_range c : in_u 8 (byte c).
Proof. unfold byte, in_u. pose proof (N_ascii_bounded c). lia. Qed.
Lemma of_byte_byte c : of_byte (byte c) = c.
Proof. unfold of_byte, byte. by rewrite N2Z.id, ascii_N_embedding. Qed.
Lemma byte_of_byte z : in_u 8 z → byte (of_byte z) = z.
Proof. unfold of_byte, byte, in_u. intros H. rewrite N_ascii_embedding, Z2N.id; lia. Qed.

(** ** Appending *)

Lemma str_app_nil_r s : s +:+ "" = s.
Proof. induction s as [|c s IH]; [done|]. unfold String.app in *. simpl. by f_equal. Qed.
Lemma str_app_cons c s t : String c s +:+ t = String c (s +:+ t).
Proof. done. Qed.
Lemma str_app_assoc s t u : (s +:+ t) +:+ u = s +:+ t +:+ u.
Proof. induction s as [|c s IH]; [done|]. rewrite !str_app_cons. by f_equal. Qed.
Lemma str_length_app s t : String.length (s +:+ t) = (String.length s + String.length t)%nat.
Proof. induction s as [|c s IH]; [done|]. rewrite str_app_cons. simpl. by f_equal. Qed.
Lemma str_app_inj_l s t u : s +:+ t = s +:+ u → t = u.
Proof.
  induction s as [|c s IH]; [done|]. rewrite !str_app_cons. intros [= ?]. by apply IH.
Qed.
Lemma str_length_0 s : String.length s = 0%nat → s = "".
Proof. by destruct s. Qed.

(** Two ways to cut one string: one cut is inside a part of the other. *)
Lemma str_app_cut a b c d :
  a +:+ b = c +:+ d → (String.length c ≤ String.length a)%nat →
  ∃ m, a = c +:+ m ∧ d = m +:+ b.
Proof.
  revert c. induction a as [|x a IH]; intros [|y c] E Hl; simpl in Hl; try lia.
  - by exists "".
  - by exists (String x a).
  - rewrite !str_app_cons in E. injection E as -> E.
    destruct (IH c E ltac:(lia)) as (m & -> & ->). by exists m.
Qed.

Fixpoint str_take (n : nat) (s : string) : string :=
  match n, s with S n, String c s => String c (str_take n s) | _, _ => "" end.
Fixpoint str_drop (n : nat) (s : string) : string :=
  match n, s with S n, String _ s => str_drop n s | _, _ => s end.

Lemma str_take_drop n s : str_take n s +:+ str_drop n s = s.
Proof.
  revert s. induction n as [|n IH]; intros [|c s]; [done..|]. simpl.
  by rewrite str_app_cons, IH.
Qed.
Lemma str_take_app s t : str_take (String.length s) (s +:+ t) = s.
Proof. induction s as [|c s IH]; [by destruct t|]. rewrite str_app_cons. simpl. by rewrite IH. Qed.
Lemma str_drop_app s t : str_drop (String.length s) (s +:+ t) = t.
Proof. induction s as [|c s IH]; [done|]. by rewrite str_app_cons. Qed.

(** [s.chars().all(p)] on ASCII strings *)
Fixpoint str_all (p : ascii → bool) (s : string) : bool :=
  match s with EmptyString => true | String c r => p c && str_all p r end.
Lemma str_all_app p s t : str_all p (s +:+ t) = str_all p s && str_all p t.
Proof.
  induction s as [|c s IH]; [done|]. rewrite str_app_cons. simpl.
  by rewrite IH, andb_assoc.
Qed.

(** ** [strip_suffix], [ends_with] and [trim_end_matches] *)

Definition strip_suffix (suf s : string) : option string :=
  let n := (String.length s - String.length suf)%nat in
  if bool_decide (str_drop n s = suf) then Some (str_take n s) else None.
Definition ends_with (s suf : string) : bool := bool_decide (is_Some (strip_suffix suf s)).

(** As many rounds as there are characters are enough for a nonempty suffix. *)
Fixpoint trim_end_fuel (n : nat) (suf s : string) : string :=
  match n with
  | O => s
  | S n => match strip_suffix suf s with Some r => trim_end_fuel n suf r | None => s end
  end.
Definition trim_end_matches (suf s : string) : string := trim_end_fuel (String.length s) suf s.

Lemma strip_suffix_app suf s : strip_suffix suf (s +:+ suf) = Some s.
Proof.
  unfold strip_suffix. rewrite str_length_app, Nat.add_sub, str_drop_app, str_take_app.
  by rewrite bool_decide_eq_true_2.
Qed.
Lemma strip_suffix_Some suf s r : strip_suffix suf s = Some r ↔ s = r +:+ suf.
Proof.
  split; [|intros ->; apply strip_suffix_app]. unfold strip_suffix.
  case_bool_decide as E; intros; simplify_eq. rewrite <-E at 2. by rewrite str_take_drop.
Qed.
Lemma ends_with_spec s suf : ends_with s suf = true ↔ ∃ r, s = r +:+ suf.
Proof.
  unfold ends_with. rewrite bool_decide_eq_true. split.
  - intros [r E%strip_suffix_Some]. by exists r.
  - intros [r ->]. exists r. apply strip_suffix_app.
Qed.
Lemma strip_suffix_None suf s : ends_with s suf = false → strip_suffix suf s = None.
Proof.
  unfold ends_with. rewrite bool_decide_eq_false, <-eq_None_not_Some. done.
Qed.

Lemma trim_end_fuel_nil suf n : suf ≠ "" → trim_end_fuel n suf "" = "".
Proof.
  intros Hne. destruct n; [done|]. simpl.
  destruct (strip_suffix suf "") as [r|] eqn:E; [|done].
  apply strip_suffix_Some in E. by destruct r, suf.
Qed.
Lemma trim_end_fuel_enough suf n m s :
  suf ≠ "" → (String.length s ≤ n)%nat → (String.length s ≤ m)%nat →
  trim_end_fuel n suf s = trim_end_fuel m suf s.
Proof.
  intros Hne. assert (1 ≤ String.length suf)%nat as Hl.
  { destruct suf; [done|]. simpl. lia. }
  revert m s. induction n as [|n IH]; intros m s Hn Hm.
  { rewrite (str_length_0 s) by lia. by rewrite !trim_end_fuel_nil. }
  destruct m as [|m].
  { rewrite (str_length_0 s) by lia. by rewrite !trim_end_fuel_nil. }
  simpl. destruct (strip_suffix suf s) as [r|] eqn:E; [|done].
  apply strip_suffix_Some in E. subst s. rewrite str_length_app in Hn, Hm. apply IH; lia.
Qed.
Lemma trim_end_matches_app suf s :
  suf ≠ "" → trim_end_matches suf (s +:+ suf) = trim_end_matches suf s.
Proof.
  intros Hne. unfold trim_end_matches at 1. rewrite str_length_app.
  destruct suf as [|c suf]; [done|]. simpl. rewrite Nat.add_succ_r. simpl.
  rewrite strip_suffix_app. apply trim_end_fuel_enough; [done|lia..].
Qed.
Lemma trim_end_matches_none suf s : ends_with s suf = false → trim_end_matches suf s = s.
Proof.
  intros E%strip_suffix_None. unfold trim_end_matches.
  destruct (String.length s); simpl; by rewrite ?E.
Qed.

(** A suffix that avoids [p] cannot reach over a character that satisfies it. *)
Lemma ends_with_barrier s c t suf :
  str_all (λ x, negb (bool_decide (x = c))) suf = true →
  ends_with (s +:+ String c t) suf = ends_with t suf.
Proof.
  intros Hsuf. apply eq_bool_prop_intro. rewrite !Is_true_true, !ends_with_spec. split.
  - intros [r E]. destruct (decide (String.length suf ≤ String.length t)%nat) as [Hl|Hl].
    + assert (String.length (s +:+ String c "") ≤ String.length r)%nat as Hl'.
      { apply (f_equal String.length) in E. rewrite !str_length_app in E. simpl in E.
        rewrite str_length_app. simpl. lia. }
      replace (s +:+ String c t) with ((s +:+ String c "") +:+ t) in E
        by by rewrite str_app_assoc.
      symmetry in E. destruct (str_app_cut _ _ _ _ E Hl') as (m & _ & ->). by exists m.
    + exfalso. assert (String.length r ≤ String.length s)%nat as Hl'.
      { apply (f_equal String.length) in E. rewrite !str_length_app in E. simpl in E. lia. }
      destruct (str_app_cut _ _ _ _ E Hl') as (m & _ & ->).
      rewrite str_all_app in Hsuf. apply andb_true_iff in Hsuf as [_ Hsuf]. simpl in Hsuf.
      by rewrite bool_decide_eq_true_2 in Hsuf.
  - intros [r ->]. exists (s +:+ String c r). by rewrite str_app_assoc.
Qed.

(** A suffix no longer than the end of the string is decided by that end. *)
Lemma ends_with_app s a b :
  (String.length b ≤ String.length a)%nat → ends_with (s +:+ a) b = ends_with a b.
Proof.
  intros Hl. apply eq_bool_prop_intro. rewrite !Is_true_true, !ends_with_spec. split.
  - intros [r E]. symmetry in E. assert (String.length s ≤ String.length r)%nat as Hl'.
    { apply (f_equal String.length) in E. rewrite !str_length_app in E. lia. }
    destruct (str_app_cut _ _ _ _ E Hl') as (m & _ & ->). by exists m.
  - intros [r ->]. exists (s +:+ r). by rewrite str_app_assoc.
Qed.

(** ** [splitn(2, sep)]: the piece before the first separator, and the rest *)

Fixpoint splitn2 (sep : ascii) (s : string) : string * option string :=
  match s with
  | EmptyString => ("", None)
  | String c r =>
      if bool_decide (c = sep) then ("", Some r)
      else let '(a, b) := splitn2 sep r in (String c a, b)
  end.
Definition avoids (c : ascii) (s : string) : bool := str_all (λ x, negb (bool_decide (x = c))) s.

Lemma splitn2_app sep a b : avoids sep a = true → splitn2 sep (a +:+ String sep b) = (a, Some b).
Proof.
  induction a as [|c a IH]; intros Ha; [simpl|].
  { unfold String.app. simpl. by rewrite bool_decide_eq_true_2. }
  simpl in Ha. apply andb_true_iff in Ha as [Hc%negb_true_iff Ha].
  rewrite str_app_cons. simpl. by rewrite Hc, IH.
Qed.
Lemma splitn2_none sep a : avoids sep a = true → splitn2 sep a = (a, None).
Proof.
  induction a as [|c a IH]; intros Ha; [done|].
  simpl in Ha. apply andb_true_iff in Ha as [Hc%negb_true_iff Ha]. simpl. by rewrite Hc, IH.
Qed.

Lemma splitn2_inv sep s a o :
  splitn2 sep s = (a, o) →
  avoids sep a = true ∧ s = match o with Some b => a +:+ String sep b | None => a end.
Proof.
  revert a o. induction s as [|c s IH]; intros a o E; simpl in E; simplify_eq; [done|].
  case_bool_decide as Hc; simplify_eq; [done|].
  destruct (splitn2 sep s) as [x y]. simplify_eq.
  destruct (IH x o eq_refl) as [Ha ->]. split.
  - unfold avoids in *. simpl. by rewrite bool_decide_eq_false_2, Ha.
  - by destruct o.
Qed.

(** ** Decimal numerals *)

Lemma digits_value_app acc s t :
  digits_value acc (s +:+ t) = digits_value acc s ≫= λ v, digits_value v t.
Proof.
  revert acc. induction s as [|c s IH]; intros acc; [done|]. rewrite str_app_cons. simpl.
  by destruct (digit_val c).
Qed.
Lemma digit_val_char n : (n < 10)%N → digit_val (pretty_N_char n) = Some (Z.of_N n).
Proof.
  intros H. assert (n = 0 ∨ n = 1 ∨ n = 2 ∨ n = 3 ∨ n = 4 ∨ n = 5 ∨ n = 6 ∨ n = 7 ∨ n = 8 ∨ n = 9)%N
    by lia. by destruct_or!; subst.
Qed.
Lemma digits_value_pretty_go n s : digits_value 0 (pretty_N_go n s) = digits_value (Z.of_N n) s.
Proof.
  revert s. induction (N.lt_wf_0 n) as [n _ IH]; intros s.
  destruct (decide (0 < n)%N) as [Hn|Hn]; [|by replace n with 0%N by lia].
  rewrite pretty_N_go_step by done. rewrite IH by (apply N.div_lt; lia). simpl.
  rewrite digit_val_char by (apply N.mod_lt; lia). f_equal.
  rewrite N2Z.inj_div, N2Z.inj_mod. pose proof (Z.div_mod (Z.of_N n) 10). lia.
Qed.
Lemma digits_value_pretty (n : N) : digits_value 0 (pretty n) = Some (Z.of_N n).
Proof.
  unfold pretty, pretty_N. case_decide as E; [by subst|]. by rewrite digits_value_pretty_go.
Qed.
Lemma digit_val_plus : digit_val "+"%char = None.
Proof. done. Qed.

(** A decimal with leading zeros parses to its value. *)
Definition zeros (k : nat) : string := Nat.iter k (String "0") "".
Lemma digits_value_zeros k s : digits_value 0 (zeros k +:+ s) = digits_value 0 s.
Proof. induction k as [|k IH]; [done|]. exact IH. Qed.
Lemma parse_unsigned_digits hi s v :
  digits_value 0 s = Some v → s ≠ "" → v ≤ hi → parse_unsigned hi s = Some v.
Proof.
  intros E Hne Hv. unfold parse_unsigned. destruct s as [|c s]; [done|].
  case_bool_decide as Hc.
  - subst c. simpl in E. done.
  - rewrite E. destruct (Z.leb_spec v hi); [done|lia].
Qed.
Lemma pretty_N_ne (n : N) : pretty n ≠ "".
Proof.
  intros E. pose proof (digits_value_pretty n) as H. rewrite E in H. simpl in H. simplify_eq.
  destruct n; [|lia]. done.
Qed.

(** [format!("{:0w$}", n)]: a number padded with zeros *)
Definition pad_zeros (w : nat) (n : Z) : string :=
  let d := pretty (Z.to_N n) in zeros (w - String.length d) +:+ d.
Lemma pad_zeros_value w n : 0 ≤ n → digits_value 0 (pad_zeros w n) = Some n.
Proof. intros. unfold pad_zeros. rewrite digits_value_zeros, digits_value_pretty. f_equal. lia. Qed.
Lemma pad_zeros_inj w a b : 0 ≤ a → 0 ≤ b → pad_zeros w a = pad_zeros w b → a = b.
Proof.
  intros Ha Hb E. apply (f_equal (digits_value 0)) in E. rewrite !pad_zeros_value in E by done. by simplify_eq.
Qed.
Lemma parse_pad_zeros hi w n : 0 ≤ n ≤ hi → parse_unsigned hi (pad_zeros w n) = Some n.
Proof.
  intros Hn. apply parse_unsigned_digits; [apply pad_zeros_value; lia| |lia].
  unfold pad_zeros. intros E. apply (f_equal String.length) in E. rewrite str_length_app in E. simpl in E.
  apply (pretty_N_ne (Z.to_N n)). apply str_length_0. lia.
Qed.
Lemma digits_all s v w :
  digits_value v s = Some w → str_all (λ c, bool_decide (is_Some (digit_val c))) s = true.
Proof.
  revert v. induction s as [|c s IH]; intros v E; [done|]. simpl in *.
  destruct (digit_val c) eqn:Ec; [|done]. rewrite bool_decide_eq_true_2 by eauto. by eapply IH.
Qed.
Lemma digits_avoid c s v w :
  digit_val c = None → digits_value v s = Some w → avoids c s = true.
Proof.
  intros Hc E%digits_all. unfold avoids. induction s as [|x s IH]; [done|]. simpl in *.
  apply andb_true_iff in E as [Ex E]. rewrite IH by done.
  rewrite andb_true_r. apply negb_true_iff, bool_decide_eq_false. intros ->.
  apply bool_decide_eq_true in Ex as [? Ex]. by rewrite Hc in Ex.
Qed.

(** A timestamp format: the nanoseconds in decimal, behind their sign *)
Program Definition decimal_rfc3339 : Rfc3339 :=
  {| to_rfc3339 t := String (if (t <? 0)%Z then "-" else "+")%char (pretty (Z.to_N (Z.abs t)));
     parse_from_rfc3339 s :=
       match s with
       | String c r => (if bool_decide (c = "-"%char) then Z.opp else id) <$> digits_value 0 r
       | EmptyString => None
       end |}.
Next Obligation.
  intros t. simpl. rewrite digits_value_pretty.
  destruct (Z.ltb_spec t 0); simpl; f_equal; unfold id; lia.
Qed.

(** ** Pieces and names *)
Definition newline : ascii := ascii_of_nat 10.
(** [str::eq_ignore_ascii_case] *)
Definition eq_ignore_ascii_case (a b : string) : bool := bool_decide (to_lowercase a = to_lowercase b).

Lemma split_on_app sep a b : avoids sep a = true → split_on sep (a +:+ String sep b) = a :: split_on sep b.
Proof.
  unfold avoids. induction a as [|c a IH]; simpl; intros H.
  - by rewrite bool_decide_eq_true_2.
  - apply andb_true_iff in H as [Hc Ha]. apply negb_true_iff in Hc. rewrite Hc.
    change (a +:+ String sep b) with (a +:+ String sep b) in *. by rewrite (IH Ha).
Qed.
Lemma split_on_none sep a : avoids sep a = true → split_on sep a = [a].
Proof.
  unfold avoids. induction a as [|c a IH]; [done|]. simpl. intros [Hc H]%andb_true_iff.
  case_bool_decide; [done|]. by rewrite IH.
Qed.
(** [strip_prefix] *)
Fixpoint strip_prefix (pre s : string) : option string :=
  match pre, s with
  | EmptyString, _ => Some s
  | String c pre, String d s => if bool_decide (c = d) then strip_prefix pre s else None
  | String _ _, EmptyString => None
  end.
Lemma strip_prefix_app pre s : strip_prefix pre (pre +:+ s) = Some s.
Proof. induction pre as [|c pre IH]; [done|]. simpl. by rewrite bool_decide_eq_true_2. Qed.
Lemma starts_with_app pre s : starts_with (pre +:+ s) pre = true.
Proof. unfold starts_with. induction pre as [|c pre IH]; simpl; [by destruct s|]. by destruct (ascii_dec c c). Qed.

Lemma rev_app_rev s t u : String.rev_app (String.rev_app s t) u = String.rev_app t (s +:+ u).
Proof. revert t. induction s as [|c s IH]; intros t; simpl; [done|]. by rewrite IH. Qed.
Lemma rev_app_app s t u : String.rev_app (s +:+ t) u = String.rev_app t (String.rev_app s u).
Proof. revert u. induction s as [|c s IH]; intros u; simpl; [done|]. apply IH. Qed.
(** There is nothing to trim between braces. *)
Lemma trim_braces x : trim ("{" +:+ x +:+ "}") = "{" +:+ x +:+ "}".
Proof.
  unfold trim. change (trim_start ("{" +:+ x +:+ "}")) with ("{" +:+ x +:+ "}").
  unfold String.rev at 2. rewrite <-str_app_assoc, rev_app_app. simpl String.rev_app at 2.
  set (r := String.rev_app _ _). change (trim_start (String "}" r)) with (String "}" r).
  unfold String.rev. simpl. unfold r. by rewrite rev_app_rev, str_app_assoc.
Qed.

(** [Path::join] of a directory and a plain file name *)
Definition path_join (dir file : string) : string :=
  if bool_decide (dir = "") || ends_with dir "/" then dir +:+ file else dir +:+ "/" +:+ file.

(** What is before and behind the last separator *)
Fixpoint cut_last (sep : ascii) (s : string) : option (string * string) :=
  match s with
  | EmptyString => None
  | String c r =>
      match cut_last sep r with
      | Some (a, b) => Some (String c a, b)
      | None => if bool_decide (c = sep) then Some ("", r) else None
      end
  end.
Lemma cut_last_Some sep s a r : cut_last sep s = Some (a, r) → s = a +:+ String sep r ∧ cut_last sep r = None.
Proof.
  revert a. induction s as [|c s IH]; intros a H; simpl in H; [done|].
  destruct (cut_last sep s) as [[x y]|] eqn:E.
  - injection H as <- <-. destruct (IH x eq_refl) as [-> ?]. done.
  - case_bool_decide as Hc; [|done]. by simplify_eq.
Qed.
(** [Display] of a signed integer *)
Definition pretty_i64 (z : Z) : string := if z <? 0 then "-" +:+ pretty (Z.to_N (- z)) else pretty (Z.to_N z).

(** [sort] of what has a name, bytewise *)
Section by_name.
Context {A : Type} (name : A → string).
Fixpoint insert_by_name (x : A) (l : list A) : list A :=
  match l with
  | [] => [x]
  | y :: r => if String.leb (name x) (name y) then x :: l else y :: insert_by_name x r
  end.
Definition sort_by_name (l : list A) : list A := foldr insert_by_name [] l.
Lemma sort_by_name_perm l : sort_by_name l ≡ₚ l.
Proof.
  assert (∀ x l, insert_by_name x l ≡ₚ x :: l) as H.
  { intros x. induction l0 as [|y r IH]; simpl; [done|]. case_match; [done|]. rewrite IH. constructor. }
  induction l as [|x l IH]; simpl; [done|]. by rewrite H, IH.
Qed.
Lemma insert_by_name_sorted x l :
  StronglySorted (λ a b, String.le (name a) (name b)) l → StronglySorted (λ a b, String.le (name a) (name b)) (insert_by_name x l).
Proof.
  induction 1 as [|y l Hl IH Hy]; simpl; [constructor; constructor|].
  destruct (String.leb (name x) (name y)) eqn:E.
  - assert (String.le (name x) (name y)) as Hxy by (unfold String.le; by rewrite E).
    constructor; [by constructor|]. constructor; [done|]. eapply Forall_impl; [exact Hy|]. intros z Hz. by etrans.
  - constructor; [done|]. rewrite Forall_forall. intros z Hz.
    assert (∀ l, insert_by_name x l ≡ₚ x :: l) as HP.
    { induction l0 as [|w r IHl]; simpl; [done|]. case_match; [done|]. rewrite IHl. constructor. }
    rewrite HP in Hz. apply elem_of_cons in Hz as [->|Hz]; [|by rewrite Forall_forall in Hy; apply Hy].
    destruct (String.leb_total (name x) (name y)) as [?|H]; [congruence|]. unfold String.le. by rewrite H.
Qed.
Lemma sort_by_name_sorted l : StronglySorted (λ a b, String.le (name a) (name b)) (sort_by_name l).
Proof. induction l as [|x l IH]; simpl; [constructor|]. by apply insert_by_name_sorted. Qed.
End by_name.
(** Sorting names forgets the order of the input. *)
Lemma sort_names_order_free (l l' : list string) : l ≡ₚ l' → sort_by_name id l = sort_by_name id l'.
Proof.
  intros H. apply (StronglySorted_unique String.le); [apply (sort_by_name_sorted id)..|]. by rewrite !sort_by_name_perm.
Qed.

(** ** Hexadecimal numerals *)

Definition hex_digit (n : Z) : ascii :=
  ascii_of_N (Z.to_N (if n <? 10 then 48 + n else 87 + n)).
(** [char::to_digit(16)] *)
Definition hex_value (c : ascii) : option Z :=
  let n := Z.of_N (N_of_ascii c) in
  if (48 <=? n) && (n <=? 57) then Some (n - 48)
  else if (97 <=? n) && (n <=? 102) then Some (n - 87)
  else if (65 <=? n) && (n <=? 70) then Some (n - 55)
  else None.

Lemma hex_value_digit n : 0 ≤ n < 16 → hex_value (hex_digit n) = Some n.
Proof.
  intros H. assert (n = 0 ∨ n = 1 ∨ n = 2 ∨ n = 3 ∨ n = 4 ∨ n = 5 ∨ n = 6 ∨ n = 7 ∨ n = 8 ∨ n = 9
    ∨ n = 10 ∨ n = 11 ∨ n = 12 ∨ n = 13 ∨ n = 14 ∨ n = 15) by lia.
  by destruct_or!; subst.
Qed.
Lemma hex_digit_not_plus n : 0 ≤ n < 16 → hex_digit n ≠ "+"%char.
Proof. intros H E. pose proof (hex_value_digit n H) as Hv. by rewrite E in Hv. Qed.

Fixpoint hex_digits_value (acc : Z) (s : string) : option Z :=
  match s with
  | EmptyString => Some acc
  | String c r => match hex_value c with
                  | Some d => hex_digits_value (16 * acc + d) r
                  | None => None
                  end
  end.
(** [from_str_radix(s, 16)] of an unsigned type whose largest value is [hi]: as
    [parse], an optional plus sign and at least one digit *)
Definition from_hex (hi : Z) (s : string) : option Z :=
  let v := match s with
           | EmptyString => None
           | String c r =>
               if bool_decide (c = "+"%char)
               then (if bool_decide (r = "") then None else hex_digits_value 0 r)
               else hex_digits_value 0 s
           end in
  match v with Some z => if z <=? hi then Some z else None | None => None end.
(** [format!("{:0wx}")] of a value that fits into [w] digits *)
Fixpoint fixed_hex (w : nat) (z : Z) : string :=
  match w with
  | O => ""
  | S w => String (hex_digit (z / 16 ^ Z.of_nat w mod 16)) (fixed_hex w z)
  end.

Lemma fixed_hex_length w z : String.length (fixed_hex w z) = w.
Proof. induction w; simpl; congruence. Qed.
(** [hex_encode]: two digits for each byte *)
Fixpoint hex_encode (data : string) : string :=
  match data with
  | EmptyString => ""
  | String b rest => fixed_hex 2 (Z.of_N (N_of_ascii b)) +:+ hex_encode rest
  end.
Lemma hex_encode_length data : String.length (hex_encode data) = (2 * String.length data)%nat.
Proof.
  induction data as [|b data IH]; [done|]. cbn [hex_encode]. rewrite str_length_app, fixed_hex_length, IH.
  simpl. lia.
Qed.
Lemma hex_digits_fixed w z acc :
  hex_digits_value acc (fixed_hex w z) = Some (acc * 16 ^ Z.of_nat w + z mod 16 ^ Z.of_nat w).
Proof.
  revert acc. induction w as [|w IH]; intros acc.
  - simpl. f_equal. rewrite Z.mod_1_r. lia.
  - cbn [fixed_hex hex_digits_value]. rewrite hex_value_digit by (apply Z.mod_pos_bound; lia).
    rewrite IH. f_equal. rewrite Nat2Z.inj_succ, Z.pow_succ_r by lia.
    assert (0 < 16 ^ Z.of_nat w) by lia. generalize dependent (16 ^ Z.of_nat w). intros P _ HP.
    rewrite (Z.mul_comm 16 P), (Z.rem_mul_r z) by lia. ring.
Qed.
Lemma from_hex_fixed w hi z :
  (0 < w)%nat → 0 ≤ z < 16 ^ Z.of_nat w → z ≤ hi → from_hex hi (fixed_hex w z) = Some z.
Proof.
  intros Hw Hz Hhi. unfold from_hex.
  assert (hex_digits_value 0 (fixed_hex w z) = Some z) as E.
  { rewrite hex_digits_fixed. f_equal. rewrite Z.mod_small by lia. lia. }
  destruct w as [|w]; [lia|]. cbn [fixed_hex] in *.
  rewrite bool_decide_eq_false_2 by (apply hex_digit_not_plus, Z.mod_pos_bound; lia).
  rewrite E. destruct (Z.leb_spec z hi); [done|lia].
Qed.
Lemma fixed_hex_inj w x y :
  0 ≤ x < 16 ^ Z.of_nat w → 0 ≤ y < 16 ^ Z.of_nat w → fixed_hex w x = fixed_hex w y → x = y.
Proof.
  intros Hx Hy E. pose proof (hex_digits_fixed w x 0) as Ex. rewrite E, hex_digits_fixed in Ex.
  rewrite !Z.mod_small in Ex by lia. by simplify_eq.
Qed.

(** ** Sorting by distinct keys forgets the order of the input. *)

Lemma sorted_by_unique {A} (f : A → Z) (l1 l2 : list A) :
  sorted_by f l1 → sorted_by f l2 → l1 ≡ₚ l2 → NoDup (f <$> l1) → l1 = l2.
Proof.
  unfold sorted_by. intros H1. revert l2.
  induction H1 as [|x l1 Hl1 IH Hx]; intros l2 H2 HP Hnd.
  { by apply Permutation_nil_l in HP. }
  destruct l2 as [|y l2]; [by apply Permutation_nil_r in HP|].
  apply StronglySorted_inv in H2 as [H2 Hy]. csimpl in *.
  assert (x = y) as ->.
  { rewrite Forall_forall in Hx, Hy.
    assert (x ∈ y :: l2) as Hin by (rewrite <-HP; constructor).
    assert (y ∈ x :: l1) as Hin' by (rewrite HP; constructor).
    apply elem_of_cons in Hin as [?|Hin]; [done|]. apply elem_of_cons in Hin' as [?|Hin']; [done|].
    apply (NoDup_fmap_inj_in f (x :: l1) x y Hnd); [by constructor|by constructor|].
    apply Z.le_antisymm; [by apply Hx|by apply Hy]. }
  apply Permutation_cons_inv in HP. f_equal. apply IH; [done..|]. by apply NoDup_cons in Hnd as [_ ?].
Qed.
Lemma sort_by_key_unique {A} (f : A → Z) (l l' : list A) :
  l ≡ₚ l' → sorted_by f l' → NoDup (f <$> l') → sort_by_key f l = l'.
Proof.
  intros HP Hs Hnd. symmetry. apply (sorted_by_unique f); [done|apply sort_by_key_sorted| |done].
  by rewrite sort_by_key_perm.
Qed.
Lemma sorted_by_fmap {A} (f : A → Z) (l : list A) : sorted_by f l ↔ sorted_by id (f <$> l).
Proof.
  unfold sorted_by. split.
  - induction 1 as [|x l Hl IH Hx]; csimpl; constructor; [done|]. by apply Forall_fmap.
  - induction l as [|x l IH]; intros H; [constructor|]. csimpl in *.
    apply StronglySorted_inv in H as [H Hx]. constructor; [by apply IH|].
    by rewrite Forall_fmap in Hx.
Qed.
Lemma seqZ_sorted_by a n : sorted_by id (seqZ a n).
Proof.
  unfold sorted_by. revert a. destruct (decide (n < 0)) as [Hn|Hn].
  { intros a. rewrite seqZ_nil by lia. constructor. }
  replace n with (Z.of_nat (Z.to_nat n)) by lia. generalize (Z.to_nat n). clear n Hn.
  intros n. induction n as [|n IH]; intros a; [constructor|].
  rewrite seqZ_cons by lia. replace (Z.pred (Z.of_nat (S n))) with (Z.of_nat n) by lia.
  constructor; [apply IH|]. apply Forall_forall. intros x Hx%elem_of_seqZ. simpl. lia.
Qed.

(** ** [BTreeMap] with integer keys: iteration is in ascending order. *)

Section btree.
Context {V : Type}.
Implicit Types m : gmap Z V.

Definition btree_iter m : list (Z * V) := sort_by_key fst (map_to_list m).
Definition btree_keys m : list Z := (btree_iter m).*1.
Definition btree_values m : list V := (btree_iter m).*2.
(** [keys().next_back()] *)
Definition last_key m : option Z := last (btree_keys m).

Lemma elem_of_btree_iter m k v : (k, v) ∈ btree_iter m ↔ m !! k = Some v.
Proof. unfold btree_iter. by rewrite sort_by_key_perm, elem_of_map_to_list. Qed.
Lemma elem_of_btree_keys m k : k ∈ btree_keys m ↔ is_Some (m !! k).
Proof.
  unfold btree_keys. rewrite list_elem_of_fmap. split.
  - intros ([k' v] & -> & Hv%elem_of_btree_iter). eauto.
  - intros [v Hv%elem_of_btree_iter]. by exists (k, v).
Qed.
Lemma btree_keys_sorted m : sorted_by id (btree_keys m).
Proof.
  unfold btree_keys, btree_iter. pose proof (sort_by_key_sorted fst (map_to_list m)) as H.
  induction H as [|x l Hl IH Hx]; [constructor|]. simpl. constructor; [done|].
  apply Forall_fmap. done.
Qed.
Lemma last_key_spec m k :
  last_key m = Some k ↔ is_Some (m !! k) ∧ ∀ k', is_Some (m !! k') → k' ≤ k.
Proof.
  unfold last_key. setoid_rewrite <-elem_of_btree_keys.
  pose proof (btree_keys_sorted m) as Hs. generalize dependent (btree_keys m). intros l Hs.
  assert (∀ x, last l = Some x → x ∈ l ∧ ∀ y, y ∈ l → y ≤ x) as Hlast.
  { intros x Hx. apply last_Some in Hx as [l' ->]. split; [set_solver|].
    intros y [i Hi]%list_elem_of_lookup.
    apply (sorted_by_lookup id (l' ++ [x]) i (length l') y x Hs); [|done|].
    - apply lookup_lt_Some in Hi. rewrite length_app in Hi. simpl in Hi. lia.
    - by rewrite lookup_app_r, Nat.sub_diag by lia. }
  split; [apply Hlast|]. intros [Hk Hmax].
  destruct (last l) as [x|] eqn:E.
  - destruct (Hlast x eq_refl) as [Hx Hle]. f_equal. apply Z.le_antisymm; auto.
  - apply last_None in E as ->. by apply elem_of_nil in Hk.
Qed.
Lemma last_key_None m : last_key m = None ↔ m = ∅.
Proof.
  unfold last_key. rewrite last_None. split.
  - intros E. apply map_empty. intros k. destruct (m !! k) eqn:Ek; [|done].
    assert (k ∈ btree_keys m) as H by (apply elem_of_btree_keys; eauto).
    rewrite E in H. by apply elem_of_nil in H.
  - intros ->. done.
Qed.
End btree.
