(* ===== verification/Floats.v ===== *)
(** * Binary64: ordering, maximum, rounding to integers, sums and display

    What the shims that compute with [f64] use beyond the prelude.  The order of
    floats is the lexicographic order of a key of three integers ([f64_key]), so
    that its laws are facts of linear arithmetic. *)

From S2P Require Import Prelude Text.
From Stdlib Require Import SpecFloat.

(** [f64::max]: the other operand when one is NaN *)
Definition f64_max (a b : f64) : f64 :=
  if f64_is_nan a then b else if f64_is_nan b then a
  else if f64_lt a b then b else a.
(** [fold(0.0, f64::max)] *)
Definition f64_max_list (l : list f64) : f64 := foldl f64_max (f64_of_Z 0) l.

(** [f64::clamp] for bounds that are in order; a NaN stays one *)
Definition f64_clamp (lo hi x : f64) : f64 :=
  let x := if f64_lt x lo then lo else x in
  if f64_gt x hi then hi else x.

(** [iter().sum::<f64>()], from left to right, starting at negative zero *)
Definition f64_sum (l : list f64) : f64 := foldl f64_add (S754_zero true) l.

(** [f64::ceil]; an integer of that size is exact, so rounding does not matter. *)
Definition f64_ceil (f : f64) : f64 :=
  match f with
  | S754_finite s m e =>
      if 0 <=? e then f
      else binary_normalize 53 1024
             (if s : bool then - (Z.pos m / 2 ^ (- e)) else - (- Z.pos m / 2 ^ (- e))) 0 s
  | _ => f
  end.

(** ** [Display] of an [f64]: the shortest decimal that reads back as the number,
    the closest of those, written without an exponent *)

Definition decimal_length (n : Z) : Z := Z.of_nat (String.length (pretty (Z.to_N n))).
(** The number of digits before the point of [num / den] (negative for zeros after
    it): [10^(p-1) <= num / den < 10^p] *)
Definition scale10 (n k : Z) : Z := if 0 <=? k then n * 10 ^ k else n.
Definition magnitude (num den : Z) : Z :=
  let p := decimal_length num - decimal_length den in
  if scale10 num (- p) <? scale10 den p then p else p + 1.
(** The decimals with [n] digits around [num / den], those that read back as [f] *)
Definition candidate (f : f64) (num den p n : Z) : option Z :=
  let up := scale10 num (n - p) in
  let down := scale10 den (p - n) in
  let q := up / down in
  let reads z := SFeqb (f64_of_decimal z (p - n)) f in
  if reads q && reads (q + 1) then Some (if 2 * (up - q * down) <=? down then q else q + 1)
  else if reads q then Some q
  else if reads (q + 1) then Some (q + 1)
  else None.
Fixpoint shortest (fuel : nat) (f : f64) (num den p n : Z) : Z * Z :=
  match fuel with
  | O => (scale10 num (n - p) / scale10 den (p - n), p - n)
  | S k => match candidate f num den p n with
           | Some d => (d, p - n)
           | None => shortest k f num den p (n + 1)
           end
  end.
(** [d * 10^e] without an exponent *)
Definition place_point (d e : Z) : string :=
  let '(d, e) := if (e <? 0) && (d mod 10 =? 0) then (d / 10, e + 1) else (d, e) in
  let digits := pretty (Z.to_N d) in
  let n := Z.of_nat (String.length digits) in
  if 0 <=? e then digits +:+ zeros (Z.to_nat e)
  else if 0 <? n + e then
    String.substring 0 (Z.to_nat (n + e)) digits +:+ "." +:+
    String.substring (Z.to_nat (n + e)) (Z.to_nat (- e)) digits
  else "0." +:+ zeros (Z.to_nat (- (n + e))) +:+ digits.
Definition f64_display (f : f64) : string :=
  match f with
  | S754_nan => "NaN"
  | S754_infinity s => if s : bool then "-inf" else "inf"
  | S754_zero s => if s : bool then "-0" else "0"
  | S754_finite s m e =>
      let num := if 0 <=? e then Z.pos m * 2 ^ e else Z.pos m in
      let den := if 0 <=? e then 1 else 2 ^ (- e) in
      let '(d, x) := shortest 17 (S754_finite false m e) num den (magnitude num den) 1 in
      (if s : bool then "-" else "") +:+ place_point d x
  end.
Example f64_display_runs :
  (λ s, f64_display <$> parse_f64 s) <$>
    ["100"; "0.1"; "-2.50"; "1e21"; "1.5e-7"; "123456.789"; "0.3"; "5e-324"; "9007199254740993"]
  = Some <$> ["100"; "0.1"; "-2.5"; "1000000000000000000000"; "0.00000015"; "123456.789"; "0.3";
              "0." +:+ zeros 323 +:+ "5"; "9007199254740992"].
Proof. vm_compute. done. Qed.

(** ** The order *)

Definition f64_key (f : f64) : Z * Z * Z :=
  match f with
  | S754_infinity true => (-2, 0, 0)
  | S754_finite true m e => (-1, - e, - Z.pos m)
  | S754_zero _ | S754_nan => (0, 0, 0)
  | S754_finite false m e => (1, e, Z.pos m)
  | S754_infinity false => (2, 0, 0)
  end.
Definition key_compare (j k : Z * Z * Z) : comparison :=
  match j.1.1 ?= k.1.1 with
  | Eq => match j.1.2 ?= k.1.2 with Eq => j.2 ?= k.2 | c => c end
  | c => c
  end.
Definition key_le (j k : Z * Z * Z) : Prop :=
  j.1.1 < k.1.1 ∨ j.1.1 = k.1.1 ∧ (j.1.2 < k.1.2 ∨ j.1.2 = k.1.2 ∧ j.2 ≤ k.2).

Lemma f64_compare_key a b :
  f64_is_nan a = false → f64_is_nan b = false →
  SFcompare a b = Some (key_compare (f64_key a) (f64_key b)).
Proof.
  intros Ha Hb. unfold key_compare.
  destruct a as [[]|[]| |[] m e], b as [[]|[]| |[] m' e']; try done; simpl; f_equal; try done.
  destruct (Z.compare_spec e e'), (Z.compare_spec (- e) (- e')); try lia; try done.
Qed.

Section f64_order.
Implicit Types a b c : f64.

Lemma f64_le_key a b :
  f64_is_nan a = false → f64_is_nan b = false → f64_le a b = true ↔ key_le (f64_key a) (f64_key b).
Proof.
  intros Ha Hb. unfold f64_le, SFleb. rewrite f64_compare_key by done.
  unfold key_compare, key_le. destruct (f64_key a) as [[x y] z], (f64_key b) as [[x' y'] z']. simpl.
  destruct (Z.compare_spec x x'), (Z.compare_spec y y'), (Z.compare_spec z z'); split; intros; lia || done.
Qed.
Lemma f64_lt_le a b :
  f64_is_nan a = false → f64_is_nan b = false → f64_lt a b = negb (f64_le b a).
Proof.
  intros Ha Hb. unfold f64_lt, f64_le, SFltb, SFleb. rewrite (f64_compare_swap a b).
  by rewrite f64_compare_key; [destruct (key_compare _ _)|..].
Qed.
Lemma f64_le_nan a b : f64_le a b = true → f64_is_nan a = false ∧ f64_is_nan b = false.
Proof. by destruct a as [[]|[]| |[]], b as [[]|[]| |[]]. Qed.
Lemma f64_le_trans a b c : f64_le a b = true → f64_le b c = true → f64_le a c = true.
Proof.
  intros Hab Hbc. destruct (f64_le_nan _ _ Hab), (f64_le_nan _ _ Hbc).
  rewrite f64_le_key in * by done. unfold key_le in *. lia.
Qed.
Lemma f64_le_total a b :
  f64_is_nan a = false → f64_is_nan b = false → f64_le a b = false → f64_le b a = true.
Proof.
  intros Ha Hb. rewrite <-not_true_iff_false, !f64_le_key by done. unfold key_le. lia.
Qed.

Lemma f64_lt_le_trans a b c : f64_le b c = true → f64_lt a b = true → f64_lt a c = true.
Proof.
  intros Hbc Hab. destruct (f64_le_nan _ _ Hbc).
  assert (f64_is_nan a = false) by (by destruct a as [[]|[]| |[]]).
  rewrite f64_lt_le in * by done. apply negb_true_iff, not_true_iff_false in Hab.
  apply negb_true_iff, not_true_iff_false. intros Hca. apply Hab. by eapply f64_le_trans.
Qed.

(** The maximum is an upper bound of what is not NaN, and one of the operands. *)
Lemma f64_max_or a b : f64_max a b = a ∨ f64_max a b = b.
Proof. unfold f64_max. repeat case_match; auto. Qed.
Lemma f64_max_le_l a b : f64_is_nan a = false → f64_le a (f64_max a b) = true.
Proof.
  intros Ha. unfold f64_max. rewrite Ha. destruct (f64_is_nan b) eqn:Hb; [by apply f64_le_refl|].
  destruct (f64_lt a b) eqn:E; [|by apply f64_le_refl].
  rewrite f64_lt_le in E by done. apply f64_le_total; [done..|]. by destruct (f64_le b a).
Qed.
Lemma f64_max_le_r a b : f64_is_nan b = false → f64_le b (f64_max a b) = true.
Proof.
  intros Hb. unfold f64_max. rewrite Hb. destruct (f64_is_nan a) eqn:Ha; [by apply f64_le_refl|].
  destruct (f64_lt a b) eqn:E; [by apply f64_le_refl|].
  rewrite f64_lt_le in E by done. by destruct (f64_le b a).
Qed.
Lemma f64_max_not_nan a b : f64_is_nan a = false → f64_is_nan (f64_max a b) = false.
Proof. intros Ha. unfold f64_max. rewrite Ha. destruct (f64_is_nan b) eqn:Hb; [done|]. by case_match. Qed.

Lemma f64_max_fold_spec l a :
  f64_is_nan a = false →
  let m := foldl f64_max a l in
  f64_is_nan m = false ∧ f64_le a m = true ∧
  (∀ x, x ∈ l → f64_is_nan x = false → f64_le x m = true) ∧ m ∈ a :: l.
Proof.
  revert a. induction l as [|y l IH]; intros a Ha; simpl.
  - split_and!; [done|by apply f64_le_refl|by intros x ?%not_elem_of_nil|constructor].
  - destruct (IH (f64_max a y)) as (Hn & Hle & Hall & Hin); [by apply f64_max_not_nan|].
    split_and!; [done|eapply f64_le_trans; [by apply f64_max_le_l|done]| |].
    + intros x [->|Hx]%elem_of_cons Hxn; [|by apply Hall].
      eapply f64_le_trans; [by apply f64_max_le_r|done].
    + rewrite !elem_of_cons. apply elem_of_cons in Hin as [Hin|]; [|auto].
      rewrite Hin. destruct (f64_max_or a y) as [->| ->]; auto.
Qed.
(** The largest of a list, or zero: it does not depend on the order. *)
Lemma f64_max_list_spec l :
  let m := f64_max_list l in
  f64_is_nan m = false ∧ f64_le (f64_of_Z 0) m = true ∧
  (∀ x, x ∈ l → f64_is_nan x = false → f64_le x m = true) ∧ m ∈ f64_of_Z 0 :: l.
Proof. by apply f64_max_fold_spec. Qed.
End f64_order.

Example f64_ceil_runs :
  f64_ceil <$> [f64_div (f64_of_Z 5) (f64_of_Z 2); f64_of_Z 3; f64_div (f64_of_Z (-5)) (f64_of_Z 2);
                f64_div (f64_of_Z (-1)) (f64_of_Z 2)]
  = [f64_of_Z 3; f64_of_Z 3; f64_of_Z (-2); S754_zero true].
Proof. reflexivity. Qed.
