(* ===== verification/Net.v ===== *)
(** * [str::parse::<std::net::SocketAddr>]

    The recursive-descent parser of the standard library ([core::net::parser]): a
    parser takes the input and gives the value and the rest, or fails and consumes
    nothing.  Used by the validation of the configuration and by the shims that
    open connections. *)

From S2P Require Import Prelude Text.

Definition parser (A : Type) : Type := string → option (A * string).

(** [read_given_char] *)
Definition read_char (c : ascii) : parser unit := λ s,
  match s with
  | String d r => if bool_decide (c = d) then Some ((), r) else None
  | EmptyString => None
  end.

(** [read_number]: at most [max_digits] digits of the radix ([None]: any number), a
    leading zero only when allowed (or alone), and a value of at most [hi] *)
Definition radix_digit (radix : Z) (c : ascii) : option Z :=
  match hex_value c with
  | Some d => if d <? radix then Some d else None
  | None => None
  end.
Fixpoint read_digits (radix hi : Z) (acc : Z) (n : nat) (s : string) : option (Z * nat * string) :=
  match s with
  | String c r =>
      match radix_digit radix c with
      | Some d => let z := acc * radix + d in
                  if z <=? hi then read_digits radix hi z (S n) r else None
      | None => Some (acc, n, s)
      end
  | EmptyString => Some (acc, n, s)
  end.
Definition read_number (radix hi : Z) (max_digits : option nat) (zero_prefix : bool) : parser Z := λ s,
  '(z, n, r) ← read_digits radix hi 0 0 s;
  let leading_zero := starts_with s "0" in
  if bool_decide (n = 0%nat) then None
  else if negb zero_prefix && leading_zero && bool_decide (1 < n)%nat then None
  else if match max_digits with Some m => bool_decide (m < n)%nat | None => false end then None
  else Some (z, r).

(** [read_separator]: from the second item on, the separator comes first. *)
Definition read_separator {A} (sep : ascii) (index : nat) (p : parser A) : parser A := λ s,
  match index with
  | O => p s
  | S _ => '(_, r) ← read_char sep s; p r
  end.

(** [read_ipv4_addr] *)
Fixpoint read_octets (n index : nat) : parser (list Z) := λ s,
  match n with
  | O => Some ([], s)
  | S n =>
      '(z, r) ← read_separator "." index (read_number 10 255 (Some 3%nat) false) s;
      '(l, r) ← read_octets n (S index) r;
      Some (z :: l, r)
  end.
Definition read_ipv4 : parser (list Z) := read_octets 4 0.

(** [read_groups]: up to [limit] groups, an IPv4 address counting for two, and
    whether it ended with one *)
Fixpoint read_groups (n index : nat) (s : string) : list Z * bool * string :=
  match n with
  | O => ([], false, s)
  | S n' =>
      let v4 := match n' with
                | O => None
                | S _ => read_separator ":" index read_ipv4 s
                end in
      match v4 with
      | Some ([a; b; c; d], r) => ([a * 256 + b; c * 256 + d], true, r)
      | _ =>
          match read_separator ":" index (read_number 16 65535 (Some 4%nat) true) s with
          | Some (g, r) => let '(l, v4, r) := read_groups n' (S index) r in (g :: l, v4, r)
          | None => ([], false, s)
          end
      end
  end.
(** [read_ipv6_addr] *)
Definition read_ipv6 : parser (list Z) := λ s,
  let '(head, head_v4, r) := read_groups 8 0 s in
  if bool_decide (length head = 8%nat) then Some (head, r)
  else if head_v4 : bool then None
  else
    '(_, r) ← read_char ":" r;
    '(_, r) ← read_char ":" r;
    let '(rest, _, r) := read_groups (8 - (length head + 1)) 0 r in
    Some (head ++ replicate (8 - length head - length rest) 0 ++ rest, r).

(** [read_port], [read_scope_id], [read_socket_addr] *)
Definition read_port : parser Z := λ s,
  '(_, r) ← read_char ":" s; read_number 10 65535 None true r.
Definition read_scope_id : parser Z := λ s,
  '(_, r) ← read_char "%" s; read_number 10 (2 ^ 32 - 1) None true r.
Inductive SocketAddr :=
| V4 (ip : list Z) (port : Z)
| V6 (ip : list Z) (port scope_id : Z).
Definition read_socket_v4 : parser SocketAddr := λ s,
  '(ip, r) ← read_ipv4 s; '(p, r) ← read_port r; Some (V4 ip p, r).
Definition read_socket_v6 : parser SocketAddr := λ s,
  '(_, r) ← read_char "[" s;
  '(ip, r) ← read_ipv6 r;
  let '(scope, r) := default (0, r) (read_scope_id r) in
  '(_, r) ← read_char "]" r;
  '(p, r) ← read_port r;
  Some (V6 ip p scope, r).
Definition parse_socket_addr (s : string) : option SocketAddr :=
  let whole r := match r with Some (a, EmptyString) => Some a | _ => None end in
  match read_socket_v4 s with
  | Some r => whole (Some r)
  | None => whole (read_socket_v6 s)
  end.
Definition port_of (a : SocketAddr) : Z := match a with V4 _ p => p | V6 _ p _ => p end.

Example parse_socket_addr_runs :
  parse_socket_addr <$> ["0.0.0.0:9101"; "127.0.0.1:0"; "256.0.0.1:1"; "01.0.0.1:1"; "1.2.3.4"; "1.2.3.4:65536";
    "localhost:80"; "[::1]:5432"; "[fe80::1%2]:80"; "[::ffff:1.2.3.4]:1"; "[1:2:3:4:5:6:7:8]:1"; "[1:2:3:4:5:6:7]:1"]
  = [Some (V4 [0; 0; 0; 0] 9101); Some (V4 [127; 0; 0; 1] 0); None; None; None; None; None;
     Some (V6 [0; 0; 0; 0; 0; 0; 0; 1] 5432 0); Some (V6 [0xfe80; 0; 0; 0; 0; 0; 0; 1] 80 2);
     Some (V6 [0; 0; 0; 0; 0; 0xffff; 0x0102; 0x0304] 1 0); Some (V6 [1; 2; 3; 4; 5; 6; 7; 8] 1 0); None].
Proof. vm_compute. done. Qed.

(** A port of a parsed address is 16 bits wide. *)
Lemma read_digits_bound radix hi acc n s z k r :
  0 < radix → 0 ≤ acc ≤ hi → read_digits radix hi acc n s = Some (z, k, r) → 0 ≤ z ≤ hi.
Proof.
  intros Hr. revert acc n. induction s as [|c s IH]; intros acc n Ha H; simpl in H; [by simplify_eq|].
  unfold radix_digit in H. destruct (hex_value c) as [d|] eqn:Ed; [|by simplify_eq].
  destruct (d <? radix); [|by simplify_eq]. case_match eqn:E; [|done]. apply Z.leb_le in E.
  assert (0 ≤ d) as Hd.
  { unfold hex_value, digit_val in Ed. repeat case_match; simplify_eq; bool_prop; lia. }
  eapply (IH _ _); [|exact H]. nia.
Qed.
Lemma read_port_bound s p r : read_port s = Some (p, r) → in_u 16 p.
Proof.
  unfold read_port, read_number, read_char. destruct s as [|c s]; [done|]. case_bool_decide; [|done]. simpl.
  destruct (read_digits _ _ _ _ _) as [[[z n] r']|] eqn:E; [|done]. simpl.
  apply read_digits_bound in E; [|lia..]. repeat (case_match; [done|]). intros [= <- _]. unfold in_u. lia.
Qed.
Lemma parse_socket_addr_port s a : parse_socket_addr s = Some a → in_u 16 (port_of a).
Proof.
  unfold parse_socket_addr, read_socket_v4, read_socket_v6.
  destruct (read_ipv4 s) as [[ip r]|]; simpl.
  1: destruct (read_port r) as [[p r']|] eqn:Ep; simpl.
  1: { destruct r'; [|done]. intros [= <-]. by eapply read_port_bound. }
  all: destruct (read_char "[" s) as [[[] r1]|]; [|done]; simpl; destruct (read_ipv6 r1) as [[ip6 r2]|]; [|done]; simpl;
    destruct (default _ _) as [sc r3]; destruct (read_char "]" r3) as [[[] r4]|]; [|done]; simpl;
    destruct (read_port r4) as [[p6 r5]|] eqn:Ep6; [|done]; simpl; (destruct r5; [|done]);
    intros [= <-]; by eapply read_port_bound.
Qed.
