(* ===== verification/Commands.v ===== *)
(** * Child processes ([std::process::Command] and [tokio::process::Command])

    A command is its program, its arguments and the variables added to its
    environment.  Running it is an input of the model: a function from commands to
    what [output()] returns. *)

From S2P Require Import Prelude.

Record Command := mkCommand {
  program : string;
  args : list string;
  envs : list (string * string)
}.
#[export] Instance Command_eq_dec : EqDecision Command.
Proof. solve_decision. Defined.
(** [std::process::Output]; the bytes are kept as they are (an ASCII text is in them
    exactly when it is in what [String::from_utf8_lossy] makes of them) *)
Record Output := mkOutput { exit_ok : bool; stdout : string; stderr : string }.
Abbreviation runner := (Command → result string Output).

(** [cmd.output().await?], and [bail!] with the standard error when the status is a
    failure *)
Definition run_checked (run : runner) (failure : string) (c : Command) : result string Output :=
  out <-? run c;
  if exit_ok out then Ok out else Err (failure +:+ stderr out).

Lemma run_checked_ok run f c out :
  run_checked run f c = Ok out ↔ run c = Ok out ∧ exit_ok out = true.
Proof.
  unfold run_checked. destruct (run c) as [o|e]; simpl; [|split; [done|by intros [? _]]].
  destruct (exit_ok o) eqn:E; split; intros H; simplify_eq; [done|destruct H; congruence..].
Qed.
