(* ===== verification/Config.v ===== *)
(** * Configuration ([shim-core/src/config.rs])

    The sections of the configuration and their defaults, the environment, the merge
    of a file with it, and validation.  The TOML reader, the file system, cron
    expressions and the URL check of [validkit] are arguments. *)

From S2P Require Import Prelude Text Floats Net.

(** ** Sections *)

Record HealthConfig := mkHealth {
  liveness_cmd : string;
  readiness_cmd : string;
  listen : string;
  interval_secs : Z;
  timeout_secs : Z
}.
#[export] Instance HealthConfig_settable : Settable HealthConfig := λ h,
  mkHealth (liveness_cmd h) (readiness_cmd h) (listen h) (interval_secs h) (timeout_secs h).
Definition default_health : HealthConfig := mkHealth "exec:true" "exec:true" "0.0.0.0:9101" 10 5.

Record VaultConfig := mkVault { vault_addr : string; role : string; secret : string; rotation_secs : Z }.
Record BackupConfig := mkBackup {
  schedule : string;
  storage : string;
  retention_days : Z;
  backup_database : string;
  backup_prefix : string
}.
Record MigrationConfig := mkMigrationConfig {
  cfg_dir : string;
  cfg_database : string;
  cfg_auto_migrate : bool;
  cfg_db_host : string;
  cfg_db_port : Z;
  cfg_db_user : string;
  cfg_db_password : string;
  cfg_db_type : string
}.
Record AuditConfig := mkAuditConfig { audit_database : string; audit_tables : list string; format : string }.
Record TlsConfig := mkTls { provider : string; domain : string; email : string; renew_before_secs : Z }.
Record FailoverConfig := mkFailoverConfig {
  fc_primary : string;
  fc_replica : string;
  fc_check_interval_secs : Z;
  fc_timeout_secs : Z;
  fc_failure_threshold : Z;
  fc_webhook : option string;
  fc_db_type : string
}.
Record ReplicationConfig := mkReplicationConfig {
  rc_primary : string;
  rc_replicas : list string;
  rc_mode : string;
  rc_check_interval_secs : Z;
  rc_db_type : string;
  rc_slot_name : option string
}.
Record ResourceQuota := mkQuota {
  quota_memory_bytes : option Z;
  quota_cpu_percent : option f64;
  quota_open_files : option Z;
  quota_connections : option Z
}.
#[export] Instance ResourceQuota_settable : Settable ResourceQuota := λ q,
  mkQuota (quota_memory_bytes q) (quota_cpu_percent q) (quota_open_files q) (quota_connections q).
Definition no_quota : ResourceQuota := mkQuota None None None None.
Record TenantConfig := mkTenant {
  tenant_id : string;
  max_memory_bytes : option Z;
  max_cpu_percent : option f64;
  max_requests_per_sec : option Z;
  allowed_features : list string;
  quota_config : ResourceQuota;
  reset_period_secs : Z
}.
#[export] Instance TenantConfig_settable : Settable TenantConfig := λ t,
  mkTenant (tenant_id t) (max_memory_bytes t) (max_cpu_percent t) (max_requests_per_sec t)
    (allowed_features t) (quota_config t) (reset_period_secs t).
Record ProcessConfig := mkProcess {
  command : string;
  args : list string;
  working_dir : option string;
  shutdown_timeout_secs : Z;
  startup_grace_secs : Z
}.
#[export] Instance ProcessConfig_settable : Settable ProcessConfig := λ p,
  mkProcess (command p) (args p) (working_dir p) (shutdown_timeout_secs p) (startup_grace_secs p).
Definition default_process : ProcessConfig := mkProcess "" [] None 30 5.

Record Config := mkConfig {
  version : option string;
  health : HealthConfig;
  vault : option VaultConfig;
  backup : option BackupConfig;
  migration : option MigrationConfig;
  audit : option AuditConfig;
  tls : option TlsConfig;
  failover : option FailoverConfig;
  replication : option ReplicationConfig;
  process : ProcessConfig;
  resource_quota : ResourceQuota;
  tenants : list TenantConfig
}.
#[export] Instance Config_settable : Settable Config := λ c,
  mkConfig (version c) (health c) (vault c) (backup c) (migration c) (audit c) (tls c) (failover c)
    (replication c) (process c) (resource_quota c) (tenants c).
Definition default_config : Config :=
  mkConfig (Some "1.0") default_health None None None None None None None default_process no_quota [].

(** ** The environment *)

Definition split_whitespace (s : string) : list string :=
  let fix go (cur : string) (s : string) : list string :=
    match s with
    | EmptyString => if bool_decide (cur = "") then [] else [cur]
    | String c r =>
        if Ascii.is_space c then (if bool_decide (cur = "") then go "" r else cur :: go "" r)
        else go (cur +:+ String c "") r
    end in
  go "" s.
(** [if let Ok(v) = var(k) { x = v }], and the same with a parse whose failure only
    logs *)
Definition env_set {A} (env : environment) (k : string) (f : string → A → A) (x : A) : A :=
  match env !! k with Some v => f v x | None => x end.
Definition parsed {A B} (parse : string → option B) (f : B → A → A) : string → A → A :=
  λ v x, match parse v with Some b => f b x | None => x end.

Definition env_tenant (env : environment) (i : string) : TenantConfig :=
  let t := mkTenant i None None None [] no_quota 1 in
  let t := env_set env "SHIM_TENANT_MAX_MEMORY" (parsed parse_u64 (λ v t, t <| max_memory_bytes := Some v |>)) t in
  env_set env "SHIM_TENANT_MAX_CPU" (parsed parse_f64 (λ v t, t <| max_cpu_percent := Some v |>)) t.
Definition env_health (env : environment) (h : HealthConfig) : HealthConfig :=
  let h := env_set env "HEALTH_CMD" (λ v h, h <| liveness_cmd := v |> <| readiness_cmd := v |>) h in
  let h := env_set env "HEALTH_LISTEN" (λ v h, h <| listen := v |>) h in
  env_set env "HEALTH_INTERVAL_SECS" (parsed parse_u64 (λ v h, h <| interval_secs := v |>)) h.
Definition env_process (env : environment) (p : ProcessConfig) : ProcessConfig :=
  let p := env_set env "PROCESS_COMMAND" (λ v p, p <| command := v |>) p in
  env_set env "PROCESS_ARGS" (λ v p, p <| args := split_whitespace v |>) p.
Definition env_quota (env : environment) (q : ResourceQuota) : ResourceQuota :=
  let q := env_set env "SHIM_MAX_MEMORY_BYTES" (parsed parse_u64 (λ v q, q <| quota_memory_bytes := Some v |>)) q in
  let q := env_set env "SHIM_MAX_CPU_PERCENT" (parsed parse_f64 (λ v q, q <| quota_cpu_percent := Some v |>)) q in
  env_set env "SHIM_MAX_OPEN_FILES" (parsed parse_u32 (λ v q, q <| quota_open_files := Some v |>)) q.
(** [Config::from_env] *)
Definition from_env (env : environment) : Config :=
  default_config
    <| health := env_health env default_health |>
    <| process := env_process env default_process |>
    <| resource_quota := env_quota env no_quota |>
    <| tenants := match env !! "SHIM_TENANT_ID" with Some i => [env_tenant env i] | None => [] end |>.
(** [validation_enabled] *)
Definition validation_enabled (env : environment) : bool :=
  match env !! "SHIM_VALIDATE_CONFIG" with
  | Some v => negb (bool_decide (v ∈ ["0"; "false"; "False"; "FALSE"]))
  | None => true
  end.

(** ** Merging *)

(** [if var(k).is_ok() { x = y }] *)
Definition when_set {A} (env : environment) (k : string) (y x : A) : A :=
  if bool_decide (is_Some (env !! k)) then y else x.
(** [if other.is_some() { self = other }] *)
Definition prefer {A} (other self : option A) : option A :=
  match other with Some x => Some x | None => self end.

Definition merge_health (env : environment) (o h : HealthConfig) : HealthConfig :=
  h <| liveness_cmd ::= when_set env "HEALTH_CMD" (liveness_cmd o) |>
    <| readiness_cmd ::= when_set env "HEALTH_CMD" (readiness_cmd o) |>
    <| listen ::= when_set env "HEALTH_LISTEN" (listen o) |>
    <| interval_secs ::= when_set env "HEALTH_INTERVAL_SECS" (interval_secs o) |>
    <| timeout_secs ::= when_set env "HEALTH_TIMEOUT_SECS" (timeout_secs o) |>.
Definition merge_process (env : environment) (o p : ProcessConfig) : ProcessConfig :=
  p <| command ::= when_set env "PROCESS_COMMAND" (command o) |>
    <| args ::= when_set env "PROCESS_ARGS" (args o) |>
    <| working_dir ::= prefer (working_dir o) |>
    <| shutdown_timeout_secs ::= when_set env "SHUTDOWN_TIMEOUT_SECS" (shutdown_timeout_secs o) |>.
Definition merge_quota (env : environment) (o q : ResourceQuota) : ResourceQuota :=
  q <| quota_memory_bytes ::= when_set env "SHIM_MAX_MEMORY_BYTES" (quota_memory_bytes o) |>
    <| quota_cpu_percent ::= when_set env "SHIM_MAX_CPU_PERCENT" (quota_cpu_percent o) |>
    <| quota_open_files ::= when_set env "SHIM_MAX_OPEN_FILES" (quota_open_files o) |>.
Definition replace_tenant (ts : list TenantConfig) (t : TenantConfig) : list TenantConfig :=
  filter (λ u, tenant_id u ≠ tenant_id t) ts ++ [t].
Definition merge_tenants (env : environment) (o ts : list TenantConfig) : list TenantConfig :=
  if bool_decide (is_Some (env !! "SHIM_TENANT_ID")) then foldl replace_tenant ts o
  else if negb (bool_decide (o = [])) && bool_decide (ts = []) then o
  else ts.
(** [Config::merge] *)
Definition merge (env : environment) (o c : Config) : Config :=
  c <| health ::= merge_health env (health o) |>
    <| process ::= merge_process env (process o) |>
    <| vault ::= prefer (vault o) |>
    <| backup ::= prefer (backup o) |>
    <| migration ::= prefer (migration o) |>
    <| audit ::= prefer (audit o) |>
    <| tls ::= prefer (tls o) |>
    <| failover ::= prefer (failover o) |>
    <| replication ::= prefer (replication o) |>
    <| resource_quota ::= merge_quota env (resource_quota o) |>
    <| tenants ::= merge_tenants env (tenants o) |>.

(** [Config::load]; [file] is [None] when there is no file at the path, and else
    what [from_file] makes of it. *)
Definition config_path (env : environment) : string := env_or env "SHIM_CONFIG" "shim.toml".
Definition load (env : environment) (file : string → option (result string Config)) : Config :=
  match file (config_path env) with
  | Some (Ok c) => merge env (from_env env) c
  | Some (Err _) | None => from_env env
  end.

(** ** Validation *)

Record ConfigValidationError := mkError { field : string; message : string }.
Definition error_display (e : ConfigValidationError) : string := field e +:+ ": " +:+ message e.
Definition quote : string := String (ascii_of_nat 34) "".
Definition SUPPORTED_VERSIONS : list string := ["1.0"].
(** The list as [{:?}] writes it *)
Definition debug_list (l : list string) : string :=
  "[" +:+ String.concat ", " ((λ s, quote +:+ s +:+ quote) <$> l) +:+ "]".

Definition check (bad : bool) (f m : string) : list ConfigValidationError :=
  if bad then [mkError f m] else [].
Definition check_some {A} (o : option A) (f : A → list ConfigValidationError) : list ConfigValidationError :=
  match o with Some x => f x | None => [] end.
Definition must_be_positive : string := "must be greater than 0".

Section validation.
(** Whether a path exists; the error of the cron parser and of the URL check, if any *)
Context (path_exists : string → bool) (cron_error https_error : string → option string).

Definition validate_version (v : string) : list ConfigValidationError :=
  check (negb (bool_decide (v ∈ SUPPORTED_VERSIONS))) "version"
    ("unknown config version '" +:+ v +:+ "'; supported versions: " +:+ debug_list SUPPORTED_VERSIONS).
Definition validate_health (h : HealthConfig) : list ConfigValidationError :=
  check (negb (bool_decide (is_Some (parse_socket_addr (listen h))))) "health.listen"
    ("'" +:+ listen h +:+ "' is not a valid socket address (expected e.g. 0.0.0.0:9101)") ++
  check (interval_secs h =? 0) "health.interval_secs" must_be_positive ++
  check (timeout_secs h =? 0) "health.timeout_secs" must_be_positive.
Definition validate_vault (v : VaultConfig) : list ConfigValidationError :=
  check (bool_decide (is_Some (https_error (vault_addr v)))) "vault.addr"
    ("'" +:+ vault_addr v +:+ "' is not a valid URL (must be https:// without credentials)") ++
  check (rotation_secs v =? 0) "vault.rotation_secs" must_be_positive.
Definition validate_backup (b : BackupConfig) : list ConfigValidationError :=
  check (retention_days b =? 0) "backup.retention_days" must_be_positive ++
  if bool_decide (schedule b = "") then []
  else check_some (cron_error (schedule b)) (λ e, [mkError "backup.schedule" ("cron parse error: " +:+ e)]).
Definition validate_migration (m : MigrationConfig) : list ConfigValidationError :=
  check (negb (path_exists (cfg_dir m))) "migration.dir" ("directory '" +:+ cfg_dir m +:+ "' does not exist") ++
  check (cfg_db_port m =? 0) "migration.db_port" must_be_positive.
Definition validate_tls (t : TlsConfig) : list ConfigValidationError :=
  check (bool_decide (domain t = "")) "tls.domain" "must not be empty" ++
  check (renew_before_secs t =? 0) "tls.renew_before_secs" must_be_positive.
Definition validate_failover (f : FailoverConfig) : list ConfigValidationError :=
  check (fc_check_interval_secs f =? 0) "failover.check_interval_secs" must_be_positive ++
  check (fc_timeout_secs f =? 0) "failover.timeout_secs" must_be_positive ++
  check (fc_failure_threshold f =? 0) "failover.failure_threshold" must_be_positive.

(** [(0.0..=100.0).contains(&cpu)] *)
Definition percent (x : f64) : bool := f64_le (f64_of_Z 0) x && f64_le x (f64_of_Z 100).
Definition tenant_field (i : nat) (f : string) : string :=
  "tenants[" +:+ pretty (N.of_nat i) +:+ "]." +:+ f.
Definition validate_tenant (i : nat) (seen : list string) (t : TenantConfig) : list ConfigValidationError :=
  check (bool_decide (tenant_id t = "")) (tenant_field i "tenant_id") "must not be empty" ++
  check (bool_decide (tenant_id t ∈ seen)) (tenant_field i "tenant_id")
    ("duplicate tenant_id '" +:+ tenant_id t +:+ "'") ++
  check_some (max_cpu_percent t) (λ cpu,
    check (negb (percent cpu)) (tenant_field i "max_cpu_percent")
      (f64_display cpu +:+ " is not in range 0.0-100.0")).
Fixpoint validate_tenants (i : nat) (seen : list string) (ts : list TenantConfig)
    : list ConfigValidationError :=
  match ts with
  | [] => []
  | t :: ts => validate_tenant i seen t ++ validate_tenants (S i) (tenant_id t :: seen) ts
  end.
(** [Config::validate] *)
Definition validate (c : Config) : list ConfigValidationError :=
  check_some (version c) validate_version ++
  validate_health (health c) ++
  check_some (vault c) validate_vault ++
  check_some (backup c) validate_backup ++
  check_some (migration c) validate_migration ++
  check_some (tls c) validate_tls ++
  check_some (failover c) validate_failover ++
  validate_tenants 0 [] (tenants c).

(** [Config::validate_schema] *)
Definition validate_schema (c : Config) : list ConfigValidationError :=
  validate c ++
  check_some (parse_socket_addr (listen (health c))) (λ a,
    check (port_of a =? 0) "health.listen" ("port " +:+ pretty (port_of a) +:+ " is out of range 1-65535")) ++
  check_some (migration c) (λ m,
    check (cfg_db_port m =? 0) "migration.db_port"
      ("port " +:+ pretty (cfg_db_port m) +:+ " is out of valid range 1-65535")) ++
  check_some (backup c) (λ b,
    check (bool_decide (storage b = "")) "backup.storage" "storage backend must not be empty") ++
  check_some (vault c) (λ v,
    check_some (https_error (vault_addr v)) (λ e, [mkError "vault.addr" ("invalid vault URL: " +:+ e)])) ++
  check_some (failover c) (λ f, check_some (fc_webhook f) (λ w,
    if bool_decide (w = "") then []
    else check_some (https_error w) (λ e, [mkError "failover.webhook" ("invalid webhook URL: " +:+ e)]))) ++
  check_some (migration c) (λ m,
    check (bool_decide (cfg_dir m = "")) "migration.dir" "migration directory path must not be empty") ++
  check (bool_decide (command (process c) = "") && bool_decide (is_Some (working_dir (process c))))
    "process.command" "command must not be empty when working_dir is set".

(** ** What a valid configuration is *)

Record health_ok (h : HealthConfig) : Prop := {
  listen_ok : is_Some (parse_socket_addr (listen h));
  interval_ok : interval_secs h ≠ 0;
  timeout_ok : timeout_secs h ≠ 0
}.
Record tenants_ok (ts : list TenantConfig) : Prop := {
  ids_distinct : NoDup (tenant_id <$> ts);
  ids_named : ∀ t, t ∈ ts → tenant_id t ≠ "";
  cpus_percent : ∀ t x, t ∈ ts → max_cpu_percent t = Some x → percent x = true
}.
Record valid (c : Config) : Prop := {
  valid_version : ∀ v, version c = Some v → v = "1.0";
  valid_health : health_ok (health c);
  valid_vault : ∀ v, vault c = Some v → https_error (vault_addr v) = None ∧ rotation_secs v ≠ 0;
  valid_backup : ∀ b, backup c = Some b →
    retention_days b ≠ 0 ∧ (schedule b = "" ∨ cron_error (schedule b) = None);
  valid_migration : ∀ m, migration c = Some m → path_exists (cfg_dir m) = true ∧ cfg_db_port m ≠ 0;
  valid_tls : ∀ t, tls c = Some t → domain t ≠ "" ∧ renew_before_secs t ≠ 0;
  valid_failover : ∀ f, failover c = Some f →
    fc_check_interval_secs f ≠ 0 ∧ fc_timeout_secs f ≠ 0 ∧ fc_failure_threshold f ≠ 0;
  valid_tenants : tenants_ok (tenants c)
}.

Lemma check_nil b f m : check b f m = [] ↔ b = false.
Proof. by destruct b. Qed.
Lemma check_some_nil {A} (o : option A) f : check_some o f = [] ↔ ∀ x, o = Some x → f x = [].
Proof. destruct o as [x|]; simpl; naive_solver. Qed.
Lemma validate_tenants_nil i seen ts :
  validate_tenants i seen ts = [] ↔ tenants_ok ts ∧ (∀ t, t ∈ ts → tenant_id t ∉ seen).
Proof.
  revert i seen. induction ts as [|t ts IH]; intros i seen; simpl.
  { split; [|done]. intros _. split; [split; [constructor|..]|]; [by intros ? ?%elem_of_nil|by intros ? ? ?%elem_of_nil|by intros ? ?%elem_of_nil]. }
  unfold validate_tenant. rewrite !app_nil, IH, !check_nil, check_some_nil, !bool_decide_eq_false.
  setoid_rewrite check_nil. setoid_rewrite negb_false_iff. split.
  - intros ((Hn & Hs & Hc) & [Hd Hns Hcs] & Hseen). split; [split|].
    + rewrite fmap_cons. constructor; [|done].
      intros (u & Eu & Hu)%list_elem_of_fmap. apply (Hseen u Hu). rewrite <-Eu. by left.
    + intros u [->|Hu]%elem_of_cons; auto.
    + intros u x [->|Hu]%elem_of_cons; eauto.
    + intros u [->|Hu]%elem_of_cons; [done|]. by specialize (Hseen u Hu) as [_ ?]%not_elem_of_cons.
  - intros [[Hd Hns Hcs] Hseen]. rewrite fmap_cons, NoDup_cons in Hd. destruct Hd as [Ht Hd].
    split_and!; [apply Hns; by left|apply Hseen; by left|intros x Hx; eapply Hcs; [by left|done]| |].
    + split; [done|..]; intros; [apply Hns|eapply Hcs]; try by right. done.
    + intros u Hu. rewrite not_elem_of_cons. split; [|apply Hseen; by right].
      intros E. apply Ht. rewrite <-E. by apply list_elem_of_fmap_2.
Qed.

Ltac validate_cases :=
  unfold validate; rewrite !app_nil, !check_some_nil, validate_tenants_nil;
  unfold validate_version, validate_health, validate_vault, validate_backup, validate_migration,
    validate_tls, validate_failover;
  repeat (setoid_rewrite app_nil || setoid_rewrite check_nil);
  rewrite !Z.eqb_neq, negb_false_iff, bool_decide_eq_true.
Lemma validate_sound c : validate c = [] → valid c.
Proof.
  validate_cases.
  intros (Hv & (H1 & H2 & H3) & Hva & Hb & Hm & Ht & Hf & Htn & _).
  split; [|by split|..|done].
  - intros v Ev. specialize (Hv v Ev). apply negb_false_iff, bool_decide_eq_true in Hv.
    by apply list_elem_of_singleton in Hv.
  - intros v Ev. destruct (Hva v Ev) as [Hu Hr]. apply bool_decide_eq_false in Hu.
    split; [by destruct (https_error _); [destruct Hu|]|by apply Z.eqb_neq].
  - intros b Eb. destruct (Hb b Eb) as [Hr Hs]. split; [by apply Z.eqb_neq|].
    case_bool_decide; [by left|]. right. by destruct (cron_error _).
  - intros m Em. destruct (Hm m Em) as [Hp Hq]. split; [by apply negb_false_iff|by apply Z.eqb_neq].
  - intros t Et. destruct (Ht t Et) as [Hd Hr]. apply bool_decide_eq_false in Hd.
    split; [done|by apply Z.eqb_neq].
  - intros f Ef. destruct (Hf f Ef) as (? & ? & ?). by split_and!; apply Z.eqb_neq.
Qed.
Lemma validate_complete c : valid c → validate c = [].
Proof.
  intros Hc. validate_cases. revert Hc.
  intros [Hv [H1 H2 H3] Hva Hb Hm Ht Hf Htn]. split_and!; try done.
  - intros v Ev. rewrite (Hv v Ev). done.
  - intros v Ev. destruct (Hva v Ev) as [-> Hr]. split; [done|by apply Z.eqb_neq].
  - intros b Eb. destruct (Hb b Eb) as [Hr Hs]. split; [by apply Z.eqb_neq|].
    case_bool_decide; [done|]. destruct Hs as [?| ->]; done.
  - intros m Em. destruct (Hm m Em) as [-> Hq]. split; [done|by apply Z.eqb_neq].
  - intros t Et. destruct (Ht t Et) as [Hd Hr]. split; [by apply bool_decide_eq_false|by apply Z.eqb_neq].
  - intros f Ef. destruct (Hf f Ef) as (? & ? & ?). by split_and!; apply Z.eqb_neq.
  - intros t _. apply not_elem_of_nil.
Qed.

(** C28. Validation accepts exactly the valid configurations: [validate] reports no
    error if and only if the version is supported, the health address parses and no
    interval or timeout is zero, the optional sections that are there are well formed,
    and the tenants have distinct, non-empty ids and CPU limits between 0 and 100. *)
Theorem validate_exact c : validate c = [] ↔ valid c.
Proof. split; [apply validate_sound|apply validate_complete]. Qed.
End validation.

(** ** What the environment does to a file *)

Lemma when_set_eq {A} env k (y x : A) :
  when_set env k y x = match env !! k with Some _ => y | None => x end.
Proof. unfold when_set. by destruct (env !! k). Qed.
Lemma env_tenant_id env i : tenant_id (env_tenant env i) = i.
Proof. unfold env_tenant, env_set, parsed. by repeat case_match. Qed.

(** The value [g] makes of a variable, or [d] when it is not set *)
Definition overridden {A} (env : environment) (k : string) (d : A) (g : string → A) : A :=
  match env !! k with Some v => g v | None => d end.

Lemma merge_health_env env h :
  merge_health env (env_health env default_health) h = {|
    liveness_cmd := env_or env "HEALTH_CMD" (liveness_cmd h);
    readiness_cmd := env_or env "HEALTH_CMD" (readiness_cmd h);
    listen := env_or env "HEALTH_LISTEN" (listen h);
    interval_secs := overridden env "HEALTH_INTERVAL_SECS" (interval_secs h) (λ v, default 10 (parse_u64 v));
    timeout_secs := overridden env "HEALTH_TIMEOUT_SECS" (timeout_secs h) (λ _, 5) |}.
Proof.
  unfold merge_health, env_health, env_set, parsed, env_or, overridden. simpl. rewrite !when_set_eq.
  destruct (env !! "HEALTH_CMD"), (env !! "HEALTH_LISTEN"), (env !! "HEALTH_INTERVAL_SECS") as [v|];
    try destruct (parse_u64 v); done.
Qed.
Lemma merge_process_env env p :
  merge_process env (env_process env default_process) p = {|
    command := env_or env "PROCESS_COMMAND" (command p);
    args := overridden env "PROCESS_ARGS" (args p) split_whitespace;
    working_dir := working_dir p;
    shutdown_timeout_secs := overridden env "SHUTDOWN_TIMEOUT_SECS" (shutdown_timeout_secs p) (λ _, 30);
    startup_grace_secs := startup_grace_secs p |}.
Proof.
  unfold merge_process, env_process, env_set, env_or, overridden. simpl. rewrite !when_set_eq.
  by destruct (env !! "PROCESS_COMMAND"), (env !! "PROCESS_ARGS").
Qed.
Lemma merge_quota_env env q :
  merge_quota env (env_quota env no_quota) q = {|
    quota_memory_bytes := overridden env "SHIM_MAX_MEMORY_BYTES" (quota_memory_bytes q) parse_u64;
    quota_cpu_percent := overridden env "SHIM_MAX_CPU_PERCENT" (quota_cpu_percent q) parse_f64;
    quota_open_files := overridden env "SHIM_MAX_OPEN_FILES" (quota_open_files q) parse_u32;
    quota_connections := quota_connections q |}.
Proof.
  unfold merge_quota, env_quota, env_set, parsed, overridden. simpl. rewrite !when_set_eq.
  destruct (env !! "SHIM_MAX_MEMORY_BYTES") as [m|], (env !! "SHIM_MAX_CPU_PERCENT") as [p|],
    (env !! "SHIM_MAX_OPEN_FILES") as [o|];
    try destruct (parse_u64 m); try destruct (parse_f64 p); try destruct (parse_u32 o); done.
Qed.
Lemma merge_tenants_env env ts :
  merge_tenants env (tenants (from_env env)) ts =
    overridden env "SHIM_TENANT_ID" ts (λ i, filter (λ t, tenant_id t ≠ i) ts ++ [env_tenant env i]).
Proof.
  unfold merge_tenants, overridden. simpl. destruct (env !! "SHIM_TENANT_ID") as [i|]; simpl; [|done].
  unfold replace_tenant. f_equal. apply list_filter_iff. intros t. by rewrite env_tenant_id.
Qed.

(** C29. What is loaded from a file and the environment.  A variable that is set
    replaces the file's value, and sections come from the file; but the replacement is
    the value [from_env] has, so that a variable that does not parse resets the file's
    interval to its default and erases the file's quota, the two timeout variables,
    which nothing reads, reset the file's timeouts to 5 and 30 seconds, and an
    environment tenant replaces the file's tenant of that id as a whole. *)
Theorem load_overrides env file f :
  file (config_path env) = Some (Ok f) →
  let c := load env file in
  health c = {|
    liveness_cmd := env_or env "HEALTH_CMD" (liveness_cmd (health f));
    readiness_cmd := env_or env "HEALTH_CMD" (readiness_cmd (health f));
    listen := env_or env "HEALTH_LISTEN" (listen (health f));
    interval_secs :=
      overridden env "HEALTH_INTERVAL_SECS" (interval_secs (health f)) (λ v, default 10 (parse_u64 v));
    timeout_secs := overridden env "HEALTH_TIMEOUT_SECS" (timeout_secs (health f)) (λ _, 5) |} ∧
  process c = {|
    command := env_or env "PROCESS_COMMAND" (command (process f));
    args := overridden env "PROCESS_ARGS" (args (process f)) split_whitespace;
    working_dir := working_dir (process f);
    shutdown_timeout_secs :=
      overridden env "SHUTDOWN_TIMEOUT_SECS" (shutdown_timeout_secs (process f)) (λ _, 30);
    startup_grace_secs := startup_grace_secs (process f) |} ∧
  resource_quota c = {|
    quota_memory_bytes :=
      overridden env "SHIM_MAX_MEMORY_BYTES" (quota_memory_bytes (resource_quota f)) parse_u64;
    quota_cpu_percent :=
      overridden env "SHIM_MAX_CPU_PERCENT" (quota_cpu_percent (resource_quota f)) parse_f64;
    quota_open_files :=
      overridden env "SHIM_MAX_OPEN_FILES" (quota_open_files (resource_quota f)) parse_u32;
    quota_connections := quota_connections (resource_quota f) |} ∧
  tenants c = overridden env "SHIM_TENANT_ID" (tenants f)
    (λ i, filter (λ t, tenant_id t ≠ i) (tenants f) ++ [env_tenant env i]) ∧
  (version c, vault c, backup c, migration c, audit c, tls c, failover c, replication c)
    = (version f, vault f, backup f, migration f, audit f, tls f, failover f, replication f).
Proof.
  intros Hf c. unfold c, load. rewrite Hf.
  split_and!; [apply merge_health_env|apply merge_process_env|apply merge_quota_env|apply merge_tenants_env|done].
Qed.

(** Loading preserves validity.  From a valid file, with an environment whose
    listen address parses, whose interval is not zero, and whose tenant has a name and
    a CPU limit in range (where they are set), the loaded configuration is valid: in
    particular the tenants' ids stay distinct. *)
Theorem load_valid path_exists cron_error https_error env file f :
  file (config_path env) = Some (Ok f) →
  valid path_exists cron_error https_error f →
  (∀ a, env !! "HEALTH_LISTEN" = Some a → is_Some (parse_socket_addr a)) →
  (∀ v, env !! "HEALTH_INTERVAL_SECS" = Some v → parse_u64 v ≠ Some 0) →
  env !! "SHIM_TENANT_ID" ≠ Some "" →
  (∀ v x, env !! "SHIM_TENANT_MAX_CPU" = Some v → parse_f64 v = Some x → percent x = true) →
  validate path_exists cron_error https_error (load env file) = [].
Proof.
  intros Hf [Hv [H1 H2 H3] Hva Hb Hm Ht Hfo [Hd Hn Hc]] Hl Hi Hid Hcpu. apply validate_complete.
  unfold load. rewrite Hf. split; try done; simpl.
  - rewrite merge_health_env. split; simpl.
    + unfold env_or. destruct (env !! "HEALTH_LISTEN") eqn:E; simpl; eauto.
    + unfold overridden. destruct (env !! "HEALTH_INTERVAL_SECS") as [v|] eqn:E; [|done].
      specialize (Hi v eq_refl). destruct (parse_u64 v); simpl; [congruence|done].
    + unfold overridden. by case_match.
  - change (match env !! "SHIM_TENANT_ID" with Some i => [env_tenant env i] | None => [] end)
      with (tenants (from_env env)).
    rewrite merge_tenants_env. unfold overridden. destruct (env !! "SHIM_TENANT_ID") as [i|] eqn:Ei; [|by split].
    split.
    + rewrite fmap_app, NoDup_app. simpl. rewrite env_tenant_id. split_and!.
      * eapply sublist_NoDup; [exact Hd|]. apply fmap_sublist, sublist_filter.
      * intros j (t & -> & [Hne _]%list_elem_of_filter)%list_elem_of_fmap ?%list_elem_of_singleton. done.
      * apply NoDup_singleton.
    + intros t [[_ ?]%list_elem_of_filter| ->%list_elem_of_singleton]%elem_of_app; [by apply Hn|].
      rewrite env_tenant_id. congruence.
    + intros t x [[_ ?]%list_elem_of_filter| ->%list_elem_of_singleton]%elem_of_app; [by apply Hc|].
      unfold env_tenant, env_set, parsed. intros Hx.
      destruct (env !! "SHIM_TENANT_MAX_CPU") as [v|] eqn:Ev;
        [destruct (parse_f64 v) eqn:Ep; [eapply Hcpu; [done|]|]|];
        repeat case_match; simplify_eq/=; congruence.
Qed.

(** ** Runs *)
Section config_runs.
Definition demo_exists : string → bool := λ _, true.
Definition no_error : string → option string := λ _, None.
Definition demo_tenant (i : string) : TenantConfig := mkTenant i (Some 1000) None (Some 10) [] no_quota 60.
Definition demo_file : Config :=
  default_config <| health := mkHealth "exec:true" "exec:true" "127.0.0.1:9000" 60 20 |>
    <| resource_quota := mkQuota (Some 1000000) None None None |>
    <| tenants := [demo_tenant "acme"; demo_tenant "globex"] |>.
Definition demo_read : string → option (result string Config) := λ p,
  if bool_decide (p = "shim.toml") then Some (Ok demo_file) else None.
(** A limit that does not parse removes the file's limit; a timeout variable resets
    the file's timeout to the default, whatever its value. *)
Definition demo_env : environment :=
  {[ "SHIM_MAX_MEMORY_BYTES" := "1G"; "HEALTH_TIMEOUT_SECS" := "30"; "SHIM_TENANT_ID" := "acme" ]}.
Example demo_load :
  let c := load demo_env demo_read in
  (quota_memory_bytes (resource_quota c), timeout_secs (health c),
   (λ t, (tenant_id t, max_memory_bytes t)) <$> tenants c)
  = (None, 5, [("globex", Some 1000); ("acme", None)]).
Proof. vm_compute. done. Qed.
Example demo_errors :
  error_display <$> validate demo_exists no_error no_error
    (default_config <| version := Some "2" |> <| health ::= λ h, h <| listen := "localhost:80" |> |>
       <| tenants := [demo_tenant "a"; (demo_tenant "a") <| max_cpu_percent := Some (f64_of_Z 101) |>] |>)
  = ["version: unknown config version '2'; supported versions: [" +:+ quote +:+ "1.0" +:+ quote +:+ "]";
     "health.listen: 'localhost:80' is not a valid socket address (expected e.g. 0.0.0.0:9101)";
     "tenants[1].tenant_id: duplicate tenant_id 'a'";
     "tenants[1].max_cpu_percent: 101 is not in range 0.0-100.0"].
Proof. vm_compute. done. Qed.
(** A port that is zero is reported twice by the strict check. *)
Example demo_schema_twice :
  field <$> validate_schema demo_exists no_error no_error
    (default_config <| migration := Some (mkMigrationConfig "m" "db" false "h" 0 "u" "" "postgres") |>)
  = ["migration.db_port"; "migration.db_port"].
Proof. vm_compute. done. Qed.

Lemma load_overrides_witness :
  resource_quota (load demo_env demo_read)
  = mkQuota (overridden demo_env "SHIM_MAX_MEMORY_BYTES" (Some 1000000) parse_u64)
      (overridden demo_env "SHIM_MAX_CPU_PERCENT" None parse_f64)
      (overridden demo_env "SHIM_MAX_OPEN_FILES" None parse_u32) None.
Proof. by destruct (load_overrides demo_env demo_read demo_file eq_refl) as (_ & _ & H & _). Defined.
Lemma load_valid_witness : validate demo_exists no_error no_error (load demo_env demo_read) = [].
Proof.
  apply (load_valid demo_exists no_error no_error demo_env demo_read demo_file); [done|..].
  - apply validate_sound. vm_compute. done.
  - intros a Ha. discriminate Ha.
  - intros v Hv. discriminate Hv.
  - discriminate.
  - intros v x Hv. discriminate Hv.
Defined.
End config_runs.
