(* ===== verification/Events.v ===== *)
(** * Cross-shim events ([shim-core/src/event.rs], tags of [shim-core/src/bus.rs])

    The payload of every message on the bus.  [serde_json::Value] and
    [uuid::Uuid] are types of other packages: they are the fields of
    [External]; times are nanoseconds since the epoch. *)

From S2P Require Import Prelude.

Class External := { json : Type; uuid : Type }.

(** [Severity] *)
Inductive Severity := Info | Notice | Warning | Error | Critical.

#[export] Instance Severity_eq_dec : EqDecision Severity.
Proof. solve_decision. Defined.

Section events.
Context `{EX : External}.

(** [EventType] *)
Inductive EventType :=
| HealthStatusChanged (previous current : string)
| FailoverTriggered (old_primary new_primary : string)
| FailoverCompleted (promoted : string)
| BackupStarted (name : string)
| BackupCompleted (name : string) (size_bytes : Z) (checksum : string)
| BackupFailed (name reason : string)
| EncryptionKeyRotated (key_id algorithm : string)
| ReplicationLagWarning (lag_ms threshold_ms : Z)
| MigrationStarted (version : string)
| MigrationCompleted (version : string)
| MigrationFailed (version reason : string)
| AuditRecorded (event_type resource action : string)
| ComplianceCheckCompleted (standard : string) (score : f64) (violations : Z)
| TlsCertExpiring (cert_path : string) (days_remaining : Z)
| TlsCertRenewed (cert_path : string)
| AuthTokenRevoked (token_id reason : string)
| SchedulerTaskFired (task_name schedule : string)
| QueueJobFailed (job_id queue : string) (retries : Z)
| CacheHitRateLow (hit_rate threshold : f64)
| CircuitBreakerTripped (service state : string)
| CdcBatchCommitted (table : string) (event_count : Z)
| ShardRebalanceStarted (from_shard to_shard : string)
| ArchivalTierTransition (resource from_tier to_tier : string)
| CostBudgetAlert (budget_name : string) (usage_percent : f64)
| ChaosExperimentStarted (experiment : string)
| ChaosExperimentCompleted (experiment outcome : string)
| Custom (event_name : string) (payload : json).

(** [ShimEvent] *)
Record ShimEvent := mkShimEvent {
  id : uuid;
  source : string;
  event : EventType;
  severity : Severity;
  timestamp : Z;
  sequence : Z;
  correlation_id : option uuid;
  payload : option json
}.
Global Instance ShimEvent_settable : Settable ShimEvent := λ e,
  mkShimEvent (id e) (source e) (event e) (severity e) (timestamp e)
    (sequence e) (correlation_id e) (payload e).

(** [ShimEvent::new]: [Uuid::new_v4()] and [Utc::now()] are the arguments
    [new_id] and [now]. *)
Definition new_event (new_id : uuid) (now : Z)
    (src : string) (ev : EventType) (sev : Severity) : ShimEvent :=
  {| id := new_id; source := src; event := ev; severity := sev; timestamp := now;
     sequence := 0; correlation_id := None; payload := None |}.

Definition with_sequence (e : ShimEvent) (seq : Z) : ShimEvent := e <| sequence := seq |>.
Definition with_correlation (e : ShimEvent) (i : uuid) : ShimEvent :=
  e <| correlation_id := Some i |>.
Definition with_payload (e : ShimEvent) (p : json) : ShimEvent := e <| payload := Some p |>.

Definition is_alertable (e : ShimEvent) : bool :=
  match severity e with Warning | Error | Critical => true | _ => false end.

(** [ShimEvent::event_name] *)
Definition event_name (e : ShimEvent) : string :=
  match event e with
  | HealthStatusChanged _ _ => "health_status_changed"
  | FailoverTriggered _ _ => "failover_triggered"
  | FailoverCompleted _ => "failover_completed"
  | BackupStarted _ => "backup_started"
  | BackupCompleted _ _ _ => "backup_completed"
  | BackupFailed _ _ => "backup_failed"
  | EncryptionKeyRotated _ _ => "encryption_key_rotated"
  | ReplicationLagWarning _ _ => "replication_lag_warning"
  | MigrationStarted _ => "migration_started"
  | MigrationCompleted _ => "migration_completed"
  | MigrationFailed _ _ => "migration_failed"
  | AuditRecorded _ _ _ => "audit_recorded"
  | ComplianceCheckCompleted _ _ _ => "compliance_check_completed"
  | TlsCertExpiring _ _ => "tls_cert_expiring"
  | TlsCertRenewed _ => "tls_cert_renewed"
  | AuthTokenRevoked _ _ => "auth_token_revoked"
  | SchedulerTaskFired _ _ => "scheduler_task_fired"
  | QueueJobFailed _ _ _ => "queue_job_failed"
  | CacheHitRateLow _ _ => "cache_hit_rate_low"
  | CircuitBreakerTripped _ _ => "circuit_breaker_tripped"
  | CdcBatchCommitted _ _ => "cdc_batch_committed"
  | ShardRebalanceStarted _ _ => "shard_rebalance_started"
  | ArchivalTierTransition _ _ _ => "archival_tier_transition"
  | CostBudgetAlert _ _ => "cost_budget_alert"
  | ChaosExperimentStarted _ => "chaos_experiment_started"
  | ChaosExperimentCompleted _ _ => "chaos_experiment_completed"
  | Custom n _ => n
  end.

(** [ShimEvent::severity_str] *)
Definition severity_str (e : ShimEvent) : string :=
  match severity e with
  | Info => "INFO"
  | Notice => "NOTICE"
  | Warning => "WARN"
  | Error => "ERROR"
  | Critical => "CRITICAL"
  end.

(** [event_type_tag] (bus.rs): the same names, but the fixed tag ["custom"]
    for custom events *)
Definition event_type_tag (ev : EventType) : string :=
  match ev with
  | HealthStatusChanged _ _ => "health_status_changed"
  | FailoverTriggered _ _ => "failover_triggered"
  | FailoverCompleted _ => "failover_completed"
  | BackupStarted _ => "backup_started"
  | BackupCompleted _ _ _ => "backup_completed"
  | BackupFailed _ _ => "backup_failed"
  | EncryptionKeyRotated _ _ => "encryption_key_rotated"
  | ReplicationLagWarning _ _ => "replication_lag_warning"
  | MigrationStarted _ => "migration_started"
  | MigrationCompleted _ => "migration_completed"
  | MigrationFailed _ _ => "migration_failed"
  | AuditRecorded _ _ _ => "audit_recorded"
  | ComplianceCheckCompleted _ _ _ => "compliance_check_completed"
  | TlsCertExpiring _ _ => "tls_cert_expiring"
  | TlsCertRenewed _ => "tls_cert_renewed"
  | AuthTokenRevoked _ _ => "auth_token_revoked"
  | SchedulerTaskFired _ _ => "scheduler_task_fired"
  | QueueJobFailed _ _ _ => "queue_job_failed"
  | CacheHitRateLow _ _ => "cache_hit_rate_low"
  | CircuitBreakerTripped _ _ => "circuit_breaker_tripped"
  | CdcBatchCommitted _ _ => "cdc_batch_committed"
  | ShardRebalanceStarted _ _ => "shard_rebalance_started"
  | ArchivalTierTransition _ _ _ => "archival_tier_transition"
  | CostBudgetAlert _ _ => "cost_budget_alert"
  | ChaosExperimentStarted _ => "chaos_experiment_started"
  | ChaosExperimentCompleted _ _ => "chaos_experiment_completed"
  | Custom _ _ => "custom"
  end.

End events.

(** [severity_rank] (bus.rs) and [severity_rank_event] (alerting.rs) *)
Definition severity_rank (s : Severity) : Z :=
  match s with
  | Info => 0 | Notice => 1 | Warning => 2 | Error => 3 | Critical => 4
  end.

Lemma severity_rank_inj s1 s2 : severity_rank s1 = severity_rank s2 → s1 = s2.
Proof. by destruct s1, s2. Qed.

Section event_facts.
Context `{EX : External}.

(** The two tag tables agree on every event that is not custom. *)
Lemma event_name_tag (e : ShimEvent) :
  (∀ n p, event e ≠ Custom n p) → event_name e = event_type_tag (event e).
Proof. unfold event_name. destruct (event e); try done. intros H. by destruct (H event_name0 payload0). Qed.

Lemma is_alertable_rank (e : ShimEvent) :
  is_alertable e = (severity_rank Warning <=? severity_rank (severity e)).
Proof. unfold is_alertable. by destruct (severity e). Qed.

End event_facts.

(** Types the foreign ones can be, for the concrete runs below and in the other
    files: payloads carry nothing, ids are numbers. *)
Definition demo_external : External := {| json := unit; uuid := Z |}.
