(* ===== verification/Bus.v ===== *)
(** * The in-process event bus ([shim-core/src/bus.rs])

    [ShimBus] stamps every event with the next sequence number of its source
    and hands it to a [tokio::sync::broadcast] channel.  The channel is a
    package of its own: [Broadcast] is its interface, with the documented laws
    the program relies on (a receiver sees the values sent after it subscribed,
    in order, except a prefix it lagged behind on). *)

From S2P Require Import Prelude Events.

(** What [Receiver::recv] returns ([RecvError::Lagged], [RecvError::Closed]). *)
Inductive RecvResult (M : Type) : Type :=
| Received (m : M)
| Lagged (n : Z)
| Closed.
Global Arguments Received {M} m.
Global Arguments Lagged {M} n.
Global Arguments Closed {M}.

Class Broadcast (M : Type) := {
  sender : Type;
  receiver : Type;
  channel : Z → sender;
  send : sender → M → sender;
  subscribe : sender → receiver;
  (** [None]: the call would wait *)
  recv : sender → receiver → option (RecvResult M * receiver);
  (** the values sent so far; the receivers of this channel; what they have
      still to see *)
  sent : sender → list M;
  live : sender → receiver → Prop;
  backlog : sender → receiver → list M;
  sent_channel : ∀ n, sent (channel n) = [];
  sent_send : ∀ s m, sent (send s m) = sent s ++ [m];
  live_subscribe : ∀ s, live s (subscribe s);
  live_send : ∀ s r m, live s r → live (send s m) r;
  backlog_subscribe : ∀ s, backlog s (subscribe s) = [];
  backlog_send : ∀ s r m, live s r → backlog (send s m) r = backlog s r ++ [m];
  recv_empty : ∀ s r, live s r → backlog s r = [] → recv s r = None;
  recv_next : ∀ s r m rest, live s r → backlog s r = m :: rest →
    (∃ r', recv s r = Some (Received m, r') ∧ live s r' ∧ backlog s r' = rest) ∨
    (∃ n r', recv s r = Some (Lagged n, r') ∧ live s r' ∧ 0 < n ∧
             backlog s r' = drop (Z.to_nat n) (m :: rest))
}.

(** A channel that meets the contract: an append-only log and positions in it. *)
Program Definition log_broadcast (M : Type) : Broadcast M := {|
  sender := list M; receiver := nat;
  channel _ := []; send s m := s ++ [m]; subscribe s := length s;
  recv s i := match s !! i with Some m => Some (Received m, S i) | None => None end;
  sent s := s; live s i := (i ≤ length s)%nat; backlog s i := drop i s
|}.
Next Obligation. by intros. Qed.
Next Obligation. by intros. Qed.
Next Obligation. intros M s. simpl. lia. Qed.
Next Obligation. intros M s i m Hi. simpl in *. rewrite length_app. simpl. lia. Qed.
Next Obligation. intros M s. simpl. by rewrite drop_all. Qed.
Next Obligation. intros M s i m Hi. simpl in *. by rewrite drop_app_le. Qed.
Next Obligation.
  intros M s i Hi E. simpl in *. rewrite lookup_ge_None_2; [done|].
  apply (f_equal length) in E. rewrite length_drop in E. simpl in E. lia.
Qed.
Next Obligation.
  intros M s i m rest Hi E. simpl in *. left. exists (S i).
  assert (s !! i = Some m) as Hm.
  { rewrite <-(Nat.add_0_r i), <-lookup_drop, E. done. }
  rewrite Hm. split_and!; [done| |].
  - apply lookup_lt_Some in Hm. lia.
  - rewrite (drop_S _ _ _ Hm) in E. by simplify_eq.
Qed.

Section bus.
Context `{EX : External} `{BC : !Broadcast ShimEvent}.

(** [ShimBus] *)
Record ShimBus := mkShimBus {
  tx : sender;
  sequences : gmap string Z;
  total_published : Z;
  total_dropped : Z
}.
Global Instance ShimBus_settable : Settable ShimBus := λ b,
  mkShimBus (tx b) (sequences b) (total_published b) (total_dropped b).

(** [ShimBus::with_capacity] and [ShimBus::new] *)
Definition with_capacity (capacity : Z) : ShimBus :=
  {| tx := channel capacity; sequences := ∅; total_published := 0; total_dropped := 0 |}.
Definition DEFAULT_CAPACITY : Z := 1024.
Definition new_bus : ShimBus := with_capacity DEFAULT_CAPACITY.

(** [sequence_for] *)
Definition sequence_for (b : ShimBus) (src : string) : Z := default 0 (sequences b !! src).

(** [publish]: the sequence number assigned, and the bus after the send *)
Definition publish (b : ShimBus) (e : ShimEvent) : Z * ShimBus :=
  let next := default 0 (sequences b !! source e) in
  let seq := add64 next 1 in
  let b := b <| sequences := <[source e := seq]> (sequences b) |> in
  let e := e <| sequence := seq |> in
  let b := b <| tx := send (tx b) e |> in
  let b := b <| total_published := add64 (total_published b) 1 |> in
  (seq, b).

(** [emit] *)
Definition emit (new_id : uuid) (now : Z) (b : ShimBus)
    (src : string) (ev : EventType) (sev : Severity) : ShimEvent * ShimBus :=
  let evt := new_event new_id now src ev sev in
  let '(seq, b) := publish b evt in
  (with_sequence evt seq, b).

(** The publications of a sequence of events, and the numbers they got. *)
Fixpoint publish_all (b : ShimBus) (es : list ShimEvent) : list Z * ShimBus :=
  match es with
  | [] => ([], b)
  | e :: rest =>
      let '(seq, b) := publish b e in
      let '(seqs, b) := publish_all b rest in
      (seq :: seqs, b)
  end.

(** [recv_filtered] on the results that successive [rx.recv()] calls give:
    the value returned, the bus, and the results left; [None] while the call
    still waits. *)
Fixpoint recv_filtered (b : ShimBus) (filter : list string)
    (results : list (RecvResult ShimEvent))
    : option (option ShimEvent * ShimBus * list (RecvResult ShimEvent)) :=
  match results with
  | [] => None
  | Received e :: rest =>
      if bool_decide (filter = []) ||
         existsb (λ f, bool_decide (f = event_type_tag (event e))) filter
      then Some (Some e, b, rest)
      else recv_filtered b filter rest
  | Lagged n :: rest =>
      recv_filtered (b <| total_dropped := add64 (total_dropped b) n |>) filter rest
  | Closed :: rest => Some (None, b, rest)
  end.

(** [BusSubscriber] without its receiver *)
Record BusSubscriber := mkBusSubscriber {
  interested_tags : list string;
  min_severity : Severity
}.

(** [BusSubscriber::matches] *)
Definition sub_matches (s : BusSubscriber) (e : ShimEvent) : bool :=
  if negb (bool_decide (interested_tags s = [])) &&
     negb (existsb (λ t, bool_decide (t = event_type_tag (event e))) (interested_tags s))
  then false
  else severity_rank (min_severity s) <=? severity_rank (severity e).

(** [BusSubscriber::recv], on the results of the underlying receiver *)
Fixpoint sub_recv (s : BusSubscriber) (results : list (RecvResult ShimEvent))
    : option (option ShimEvent * list (RecvResult ShimEvent)) :=
  match results with
  | [] => None
  | Received e :: rest =>
      if sub_matches s e then Some (Some e, rest) else sub_recv s rest
  | Lagged _ :: rest => sub_recv s rest
  | Closed :: rest => Some (None, rest)
  end.

(** [BusSubscriber::try_recv]: an empty channel ends the call too. *)
Fixpoint sub_try_recv (s : BusSubscriber) (results : list (RecvResult ShimEvent))
    : option ShimEvent * list (RecvResult ShimEvent) :=
  match results with
  | [] => (None, [])
  | Received e :: rest =>
      if sub_matches s e then (Some e, rest) else sub_try_recv s rest
  | Lagged _ :: rest => sub_try_recv s rest
  | Closed :: rest => (None, rest)
  end.

(** ** Publishers on several threads

    [publish] takes the lock on the counters, releases it, and sends
    afterwards: two threads can be between the two at the same time.
    [in_flight] holds the stamped events not yet sent. *)

Record pub_state := mkPub { pub_bus : ShimBus; in_flight : list ShimEvent }.

Inductive pub_step : pub_state → pub_state → Prop :=
| step_assign b fl e :
    let seq := add64 (sequence_for b (source e)) 1 in
    pub_step (mkPub b fl)
             (mkPub (b <| sequences := <[source e := seq]> (sequences b) |>)
                    (with_sequence e seq :: fl))
| step_send b fl1 fl2 e :
    pub_step (mkPub b (fl1 ++ e :: fl2))
             (mkPub (b <| tx := send (tx b) e |>
                       <| total_published := add64 (total_published b) 1 |>)
                    (fl1 ++ fl2)).

Definition pub_start (capacity : Z) : pub_state := mkPub (with_capacity capacity) [].

(** Everything stamped so far: on the channel, or about to be. *)
Definition stamped (p : pub_state) : list ShimEvent := sent (tx (pub_bus p)) ++ in_flight p.
Definition from_source (src : string) (es : list ShimEvent) : list ShimEvent :=
  filter (λ e, source e = src) es.

(** ** Lemmas *)

Implicit Types (b : ShimBus) (e : ShimEvent).

Lemma sequence_for_insert b src src' q :
  sequence_for (b <| sequences := <[src := q]> (sequences b) |>) src' =
  if decide (src = src') then q else sequence_for b src'.
Proof. unfold sequence_for; simpl. rewrite lookup_insert. by case_decide. Qed.

Lemma publish_seq b e :
  publish b e =
  (add64 (sequence_for b (source e)) 1,
   b <| sequences := <[source e := add64 (sequence_for b (source e)) 1]> (sequences b) |>
     <| tx := send (tx b) (with_sequence e (add64 (sequence_for b (source e)) 1)) |>
     <| total_published := add64 (total_published b) 1 |>).
Proof. done. Qed.

Lemma from_source_app src es1 es2 :
  from_source src (es1 ++ es2) = from_source src es1 ++ from_source src es2.
Proof. apply filter_app. Qed.
Lemma from_source_cons src e es :
  from_source src (e :: es) =
  if decide (source e = src) then e :: from_source src es else from_source src es.
Proof. unfold from_source. rewrite filter_cons. done. Qed.

Global Instance from_source_perm src : Proper ((≡ₚ) ==> (≡ₚ)) (from_source src).
Proof. intros l l' HP. by apply filter_Permutation. Qed.

(** The next [k] numbers after [n]. *)
Definition next_seqs (n : Z) (k : nat) : list Z := (λ i, n + 1 + Z.of_nat i) <$> seq 0 k.
Lemma next_seqs_S n k : next_seqs n (S k) = (n + 1) :: next_seqs (n + 1) k.
Proof.
  unfold next_seqs. simpl. f_equal; [lia|].
  rewrite <-fmap_S_seq, <-list_fmap_compose. apply list_fmap_ext. intros; simpl; lia.
Qed.

(** C7.  Sequence numbers are per source, start after the current one and have
    no gap: publishing any list of events, in whatever mix of sources, puts the
    events on the channel in the order of the calls with nothing but their
    sequence number changed, and those of each source carry exactly the next
    numbers of that source, as long as the 64-bit counter does not overflow. *)
Theorem publish_all_gapless b es src seqs b' :
  publish_all b es = (seqs, b') →
  0 ≤ sequence_for b src →
  sequence_for b src + Z.of_nat (length (from_source src es)) < 2 ^ 64 →
  ∃ out,
    sent (tx b') = sent (tx b) ++ out ∧
    seqs = sequence <$> out ∧
    (λ e, e <| sequence := 0 |>) <$> out = (λ e, e <| sequence := 0 |>) <$> es ∧
    sequence <$> from_source src out =
      next_seqs (sequence_for b src) (length (from_source src es)) ∧
    sequence_for b' src = sequence_for b src + Z.of_nat (length (from_source src es)).
Proof.
  revert b seqs b'. induction es as [|e es IH]; intros b seqs b' Hp Hnn Hov; simpl in Hp.
  { simplify_eq. exists []. simpl. rewrite app_nil_r. split_and!; try done. lia. }
  set (q := add64 (default 0 (sequences b !! source e)) 1) in Hp.
  set (b1 := mkShimBus _ _ _ _) in Hp.
  destruct (publish_all b1 es) as [seqs1 b2] eqn:Hrest. simplify_eq.
  rewrite from_source_cons in Hov |- *.
  assert (sequence_for b1 src = if decide (source e = src) then q else sequence_for b src)
    as Hs1 by apply (sequence_for_insert b).
  assert (source e = src → q = sequence_for b src + 1) as Hq.
  { intros <-. unfold q. fold (sequence_for b (source e)). rewrite decide_True in Hov by done.
    simpl in Hov. apply add64_small. unfold in_u. lia. }
  destruct (IH b1 _ _ Hrest) as (out & Hsent & Hseqs & Hbody & Hsrc & Hend).
  { rewrite Hs1. case_decide; [rewrite Hq by done; lia|done]. }
  { rewrite Hs1. case_decide; simpl in Hov; [rewrite Hq by done; lia|done]. }
  exists (with_sequence e q :: out). simpl. split_and!.
  - rewrite Hsent. unfold b1. simpl. rewrite sent_send, <-app_assoc. done.
  - by rewrite Hseqs.
  - f_equal. exact Hbody.
  - rewrite from_source_cons. simpl. rewrite Hs1 in Hsrc.
    case_decide as Heq; [|done]. cbn [length]. rewrite next_seqs_S, <-Hq by done.
    cbn. by f_equal.
  - rewrite Hend, Hs1. case_decide; simpl; [rewrite Hq by done; lia|done].
Qed.

(** ** Receiving *)

Definition wanted (filter : list string) (e : ShimEvent) : bool :=
  bool_decide (filter = []) || existsb (λ f, bool_decide (f = event_type_tag (event e))) filter.
Definition skippable (filter : list string) (r : RecvResult ShimEvent) : bool :=
  match r with Received e => negb (wanted filter e) | Lagged _ => true | Closed => false end.
Definition lag_of (r : RecvResult ShimEvent) : Z := match r with Lagged n => n | _ => 0 end.

Lemma bus_dropped_eta b :
  {| tx := tx b; sequences := sequences b; total_published := total_published b;
     total_dropped := total_dropped b |} = b.
Proof. by destruct b. Qed.

Lemma recv_filtered_skip b filter skipped rest :
  in_u 64 (total_dropped b) →
  forallb (skippable filter) skipped = true →
  recv_filtered b filter (skipped ++ rest) =
  recv_filtered (b <| total_dropped := add64 (total_dropped b) (sum_list_Z lag_of skipped) |>)
    filter rest.
Proof.
  revert b. induction skipped as [|[e|n|] sk IH]; intros b Hu Hsk; simpl in *; try done.
  - by rewrite add64_0_r, bus_dropped_eta.
  - apply andb_true_iff in Hsk as [Hw Hsk]. apply negb_true_iff in Hw.
    unfold wanted in Hw. rewrite Hw. by apply IH.
  - rewrite IH by (done || apply add64_range). simpl. by rewrite add64_assoc_l.
Qed.

(** [recv_filtered] returns exactly the first event of a wanted type (any
    event when the filter is empty), or [None] when the channel closes first;
    it consumes the results up to that one and no more, adds to the drop
    counter exactly the sum of the lags it skipped, changes nothing else of the
    bus, and waits exactly when every result so far is to be skipped. *)
Theorem recv_filtered_spec b filter results :
  in_u 64 (total_dropped b) →
  match recv_filtered b filter results with
  | None => forallb (skippable filter) results = true
  | Some (r, b', rest) =>
      ∃ skipped last,
        results = skipped ++ last :: rest ∧
        forallb (skippable filter) skipped = true ∧
        b' = b <| total_dropped := add64 (total_dropped b) (sum_list_Z lag_of skipped) |> ∧
        match r with
        | Some e => last = Received e ∧ wanted filter e = true
        | None => last = Closed
        end
  end.
Proof.
  intros Hu.
  revert b Hu. induction results as [|[e|n|] rs IH]; intros b Hu; [done|..].
  - cbn [recv_filtered]. fold (wanted filter e). destruct (wanted filter e) eqn:Hw.
    + exists [], (Received e). simpl. rewrite add64_0_r, bus_dropped_eta by done. done.
    + specialize (IH b Hu). destruct (recv_filtered b filter rs) as [[[r b'] rest]|].
      * destruct IH as (sk & last & -> & Hsk & -> & Hr).
        exists (Received e :: sk), last. simpl. rewrite Hw, Hsk. done.
      * simpl. by rewrite Hw.
  - cbn [recv_filtered].
    specialize (IH _ (add64_range (total_dropped b) n : in_u 64 (total_dropped
      (b <| total_dropped := add64 (total_dropped b) n |>)))).
    destruct (recv_filtered _ filter rs) as [[[r b'] rest]|].
    + destruct IH as (sk & last & -> & Hsk & -> & Hr).
      exists (Lagged n :: sk), last. simpl. rewrite Hsk, add64_assoc_l. done.
    + done.
  - exists [], Closed. simpl. rewrite add64_0_r, bus_dropped_eta by done. done.
Qed.

(** ** Concurrent publishers *)

Lemma pub_step_stamped_le p p' :
  pub_step p p' → (length (stamped p) ≤ length (stamped p'))%nat.
Proof.
  destruct 1; unfold stamped; simpl; rewrite ?sent_send, ?length_app; simpl;
    rewrite ?length_app; simpl; lia.
Qed.

Lemma next_seqs_snoc n k : next_seqs n (S k) = next_seqs n k ++ [n + 1 + Z.of_nat k].
Proof. unfold next_seqs. by rewrite seq_S, fmap_app. Qed.

Lemma NoDup_next_seqs n k : NoDup (next_seqs n k).
Proof. apply (NoDup_fmap_2_strong _); [intros; lia|apply NoDup_seq]. Qed.

(** Per source, the numbers stamped so far are 1 to the counter, each once. *)
Definition pub_inv (p : pub_state) : Prop :=
  ∀ src, let stamps := from_source src (stamped p) in
    sequence <$> stamps ≡ₚ next_seqs 0 (length stamps) ∧
    sequence_for (pub_bus p) src = Z.of_nat (length stamps).

Lemma pub_inv_perm p p' :
  stamped p' ≡ₚ stamped p → sequences (pub_bus p') = sequences (pub_bus p) →
  pub_inv p → pub_inv p'.
Proof.
  intros HP Hs Hinv src. destruct (Hinv src) as [H1 H2].
  cbv zeta. rewrite HP. unfold sequence_for in *. by rewrite Hs.
Qed.

Lemma pub_inv_step p p' :
  pub_step p p' → Z.of_nat (length (stamped p')) < 2 ^ 64 → pub_inv p → pub_inv p'.
Proof.
  destruct 1 as [b fl e q|b fl1 fl2 e]; intros Hlen Hinv.
  - intros src. destruct (Hinv src) as [H1 H2].
    set (p' := mkPub _ _) in *.
    assert (stamped p' ≡ₚ with_sequence e q :: stamped (mkPub b fl)) as HP
      by (unfold stamped; simpl; by rewrite <-Permutation_middle).
    assert (sequence_for (pub_bus p') src =
            if decide (source e = src) then q else sequence_for b src) as Hq
      by apply sequence_for_insert.
    pose proof (length_filter (λ e, source e = src) (stamped (mkPub b fl))) as Hf.
    fold (from_source src (stamped (mkPub b fl))) in Hf.
    cbv zeta. rewrite HP in Hlen |- *. rewrite Hq, from_source_cons. simpl in Hlen, H2 |- *.
    case_decide as Hd; [|done]. subst src. unfold q. rewrite H2. u_small.
    split; [|simpl; lia]. simpl. rewrite next_seqs_snoc, H1.
    rewrite Permutation_app_comm. simpl. f_equiv. lia.
  - refine (pub_inv_perm _ _ _ _ Hinv); [|done].
    unfold stamped. simpl. rewrite sent_send, <-app_assoc. simpl.
    by rewrite Permutation_middle.
Qed.

(** However the publishers interleave, two events of one source never get
    the same sequence number: of all the events stamped since the bus was made
    (sent or still in the hands of their publisher), those of a source carry the
    numbers 1 to [sequence_for], each exactly once. *)
Theorem concurrent_publish_unique capacity p src :
  rtc pub_step (pub_start capacity) p →
  Z.of_nat (length (stamped p)) < 2 ^ 64 →
  NoDup (sequence <$> from_source src (stamped p)) ∧
  ∀ n, n ∈ sequence <$> from_source src (stamped p) ↔ 1 ≤ n ≤ sequence_for (pub_bus p) src.
Proof.
  intros Hr Hlen.
  assert (pub_inv p) as Hinv.
  { revert Hlen. refine (rtc_invariant pub_step
      (λ p, Z.of_nat (length (stamped p)) < 2 ^ 64 → pub_inv p) _ _ _ Hr _).
    - intros p1 p2 Hstep IH Hlen. apply (pub_inv_step p1); [done..|]. apply IH.
      apply pub_step_stamped_le in Hstep. lia.
    - intros _ s. unfold stamped, pub_start. simpl. by rewrite sent_channel. }
  destruct (Hinv src) as [H1 H2]. rewrite H2. split.
  - rewrite H1. apply NoDup_next_seqs.
  - intros n. rewrite H1. unfold next_seqs. rewrite list_elem_of_fmap.
    setoid_rewrite elem_of_seq. split.
    + intros (i & -> & Hi). lia.
    + intros Hn. exists (Z.to_nat (n - 1)). lia.
Qed.

(** The order of arrival is not the order of the numbers: because the
    counter lock is released before the send, two threads publishing for one
    source can put number 2 on the channel before number 1. *)
Theorem concurrent_publish_reorders capacity e :
  ∃ p, rtc pub_step (pub_start capacity) p ∧
       sequence <$> sent (tx (pub_bus p)) = [2; 1] ∧
       Forall (λ e', source e' = source e) (sent (tx (pub_bus p))).
Proof.
  set (b0 := with_capacity capacity).
  eexists. split.
  - eapply rtc_l; [apply (step_assign b0 [] e)|].
    eapply rtc_l; [apply (step_assign _ _ e)|].
    eapply rtc_l; [apply (step_send _ [] _ _)|].
    eapply rtc_l; [apply (step_send _ [] _ _)|]. apply rtc_refl.
  - simpl. rewrite !sent_send, sent_channel. simpl. split.
    + unfold sequence_for. simpl. by rewrite !lookup_insert_eq, lookup_empty.
    + by repeat constructor.
Qed.

End bus.

(** ** Concrete runs *)

Section bus_runs.
#[local] Instance run_external : External := demo_external.
#[local] Instance run_channel : Broadcast ShimEvent := log_broadcast ShimEvent.

Definition demo_event (src : string) : ShimEvent :=
  new_event (EX := demo_external) 7 0 src (BackupStarted "nightly") Info.

Lemma publish_all_gapless_witness :
  ∃ out, sent (tx (publish_all new_bus [demo_event "a"; demo_event "b"; demo_event "a"]).2) = out ∧
         sequence <$> from_source "a" out = [1; 2].
Proof.
  destruct (publish_all_gapless new_bus [demo_event "a"; demo_event "b"; demo_event "a"] "a"
              _ _ eq_refl) as (out & Hs & _ & _ & Hq & _); [reflexivity|reflexivity|].
  exists out. split; [exact Hs|exact Hq].
Defined.

Lemma recv_filtered_spec_witness :
  ∃ skipped last, [Lagged 3; Received (demo_event "a")] = skipped ++ last :: [] ∧
                  last = Received (demo_event "a") ∧ wanted ["backup_started"] (demo_event "a") = true.
Proof.
  destruct (recv_filtered_spec new_bus ["backup_started"] [Lagged 3; Received (demo_event "a")])
    as (sk & l & H1 & _ & _ & H2 & H3); [split; reflexivity || discriminate|].
  exists sk, l. split; [exact H1|split; [exact H2|exact H3]].
Defined.

Lemma concurrent_publish_unique_witness :
  ∃ p, rtc pub_step (pub_start 16) p ∧ length (stamped p) = 1%nat ∧
       NoDup (sequence <$> from_source "a" (stamped p)).
Proof.
  pose proof (rtc_once _ _ (step_assign (with_capacity 16) [] (demo_event "a"))) as Hrun.
  eexists. split; [exact Hrun|]. split; [reflexivity|].
  exact (proj1 (concurrent_publish_unique 16 _ "a" Hrun eq_refl)).
Defined.
End bus_runs.
