(* ===== verification/Wiring.v ===== *)
(** * Cross-shim wiring ([shim-core/src/wiring.rs])

    Four background tasks subscribe to one bus and publish on it: the reaction
    of each to an event ([on_event]), one iteration of its loop ([task_step])
    and the system [wire_all_handlers] starts, as a step relation in which the
    tasks and outside publishers interleave freely. *)

From stdpp Require Import functions.
From S2P Require Import Prelude Events Bus.

Inductive Handler := HealthFailover | BackupEncryption | AlertFanIn | SchedulerBackup.
#[export] Instance Handler_eq_dec : EqDecision Handler.
Proof. solve_decision. Defined.
Definition all_handlers : list Handler :=
  [HealthFailover; BackupEncryption; AlertFanIn; SchedulerBackup].

Section wiring.
Context `{EX : External}.

(** The arguments of a [bus.emit] call *)
Record emission := mkEmission { em_source : string; em_event : EventType; em_severity : Severity }.

(** Body of [HealthFailoverHandler]'s loop for a received event: the new
    [unhealthy_count] and the emissions. *)
Definition health_on_event (failover_threshold count : Z) (e : ShimEvent) : Z * list emission :=
  match event e with
  | HealthStatusChanged _ current =>
      if bool_decide (current = "unhealthy") || bool_decide (current = "down")
      then
        let count := add32 count 1 in
        if failover_threshold <=? count
        then (0, [mkEmission "failover-shim" (FailoverTriggered "primary" "promoted") Critical])
        else (count, [])
      else (0, [])
  | _ => (count, [])
  end.

(** Body of [BackupEncryptionHandler]'s loop *)
Definition backup_on_event (e : ShimEvent) : list emission :=
  match event e with
  | BackupCompleted name _ _ =>
      [mkEmission "encryption-shim" (EncryptionKeyRotated ("backup-" +:+ name) "AES-256-GCM") Info]
  | _ => []
  end.

(** Body of [AlertFanInHandler]'s loop: whether the event is logged as an alert *)
Definition alert_on_event (e : ShimEvent) : bool := is_alertable e.

(** Body of [SchedulerBackupHandler]'s loop *)
Definition scheduler_on_event (e : ShimEvent) : list emission :=
  match event e with
  | SchedulerTaskFired task_name _ =>
      if str_contains task_name "backup" || str_contains task_name "daily"
      then [mkEmission "backup-shim" (BackupStarted task_name) Info]
      else []
  | _ => []
  end.

(** The reaction of any of the tasks; only the health task has a state. *)
Definition on_event (failover_threshold : Z) (h : Handler) (count : Z) (e : ShimEvent)
    : Z * list emission :=
  match h with
  | HealthFailover => health_on_event failover_threshold count e
  | BackupEncryption => (count, backup_on_event e)
  | AlertFanIn => (count, [])
  | SchedulerBackup => (count, scheduler_on_event e)
  end.

(** The reactions to a sequence of events. *)
Fixpoint run_handler (th : Z) (h : Handler) (count : Z) (es : list ShimEvent)
    : Z * list emission :=
  match es with
  | [] => (count, [])
  | e :: rest =>
      let '(count, out) := on_event th h count e in
      let '(count, out') := run_handler th h count rest in
      (count, out ++ out')
  end.

Context `{BC : !Broadcast ShimEvent}.

(** The wired system.  [w_shutdown] holds the tasks whose [shutdown_rx.changed()]
    is ready.  [w_log], [w_ext] and [w_out] are history: everything sent since
    the tasks subscribed, what came from outside, and what each task emitted. *)
Record wired := mkWired {
  w_bus : ShimBus;
  w_threshold : Z;
  w_rx : Handler → receiver;
  w_running : Handler → bool;
  w_shutdown : Handler → bool;
  w_count : Handler → Z;
  w_alerts : list ShimEvent;
  w_log : list ShimEvent;
  w_ext : list ShimEvent;
  w_out : Handler → list emission
}.
Global Instance wired_settable : Settable wired := λ w,
  mkWired (w_bus w) (w_threshold w) (w_rx w) (w_running w) (w_shutdown w) (w_count w)
    (w_alerts w) (w_log w) (w_ext w) (w_out w).

(** Does the spawned task of a handler own a reference to it?  All but
    [AlertFanInHandler] capture [Arc::clone(&self)], to emit on its bus. *)
Definition captures_self (h : Handler) : bool :=
  match h with AlertFanIn => false | _ => true end.

(** [start(self: Arc<Self>)]: subscribe, make the shutdown channel, spawn.  The
    handler owns the sender of that channel; when [start] returns it is dropped
    unless the task or the caller ([kept]) holds a reference, and the receiver
    of a channel without sender is ready at once. *)
Definition start_handler (kept : bool) (w : wired) (h : Handler) : wired :=
  w <| w_rx ::= <[h := subscribe (tx (w_bus w))]> |>
    <| w_running ::= <[h := true]> |>
    <| w_shutdown ::= <[h := negb (kept || captures_self h)]> |>.

(** [stop(&self)] *)
Definition stop_handler (w : wired) (h : Handler) : wired :=
  w <| w_shutdown ::= <[h := true]> |>.

(** [wire_all_handlers]: no reference to a handler is kept. *)
Definition wire_all_handlers (b : ShimBus) : wired :=
  let w := {| w_bus := b; w_threshold := 3; w_rx := λ _, subscribe (tx b);
              w_running := λ _, false; w_shutdown := λ _, false; w_count := λ _, 0;
              w_alerts := []; w_log := []; w_ext := []; w_out := λ _, [] |} in
  let w := start_handler false w HealthFailover in
  let w := start_handler false w BackupEncryption in
  let w := start_handler false w AlertFanIn in
  start_handler false w SchedulerBackup.

(** Publishing an event of the outside, or of a task, with the history. *)
Definition wired_publish (w : wired) (e : ShimEvent) : wired :=
  let b := (publish (w_bus w) e).2 in
  w <| w_bus := b |>
    <| w_log ::= λ l, l ++ [with_sequence e (publish (w_bus w) e).1] |>.

Definition wired_emit (new_id : uuid) (now : Z) (w : wired) (m : emission) : wired :=
  wired_publish w (new_event new_id now (em_source m) (em_event m) (em_severity m)).

(** One iteration of the loop of task [h]: the biased [select!] takes the
    shutdown branch when it is ready, and the receiver's otherwise.  [None]: the
    task is over, or waits. *)
Definition task_step (new_id : uuid) (now : Z) (w : wired) (h : Handler) : option wired :=
  if negb (w_running w h) then None
  else if w_shutdown w h then Some (w <| w_running ::= <[h := false]> |>)
  else
    match recv (tx (w_bus w)) (w_rx w h) with
    | None => None
    | Some (Received e, rx) =>
        let w := w <| w_rx ::= <[h := rx]> |> in
        let '(count, out) := on_event (w_threshold w) h (w_count w h) e in
        let w := w <| w_count ::= <[h := count]> |>
                   <| w_out ::= alter (λ o, o ++ out) h |> in
        let w := if bool_decide (h = AlertFanIn) && alert_on_event e
                 then w <| w_alerts ::= λ l, l ++ [e] |> else w in
        Some (foldl (wired_emit new_id now) w out)
    | Some (Lagged _, rx) => Some (w <| w_rx ::= <[h := rx]> |>)
    | Some (Closed, rx) => Some (w <| w_rx ::= <[h := rx]> |> <| w_running ::= <[h := false]> |>)
    end.

(** Steps of the tasks alone, and of the whole system *)
Inductive tasks_step : wired → wired → Prop :=
| ts_task w h new_id now w' : task_step new_id now w h = Some w' → tasks_step w w'.

Inductive wired_step : wired → wired → Prop :=
| ws_publish w e :
    wired_step w
      ((wired_publish w e) <| w_ext ::= λ l, l ++ [with_sequence e (publish (w_bus w) e).1] |>)
| ws_stop w h : wired_step w (stop_handler w h)
| ws_task w w' : tasks_step w w' → wired_step w w'.

(** No task can move. *)
Definition quiescent (w : wired) : Prop := ∀ w', ¬ tasks_step w w'.

(** ** Specifications *)

(** The health verdicts in a sequence of events, and the lengths of the maximal
    runs of unhealthy ones ([cur] verdicts are already in the current run). *)
Definition unhealthy_verdicts (es : list ShimEvent) : list bool :=
  omap (λ e, match event e with
             | HealthStatusChanged _ c =>
                 Some (bool_decide (c = "unhealthy") || bool_decide (c = "down"))
             | _ => None
             end) es.
Fixpoint run_lengths (cur : Z) (verdicts : list bool) : list Z :=
  match verdicts with
  | [] => [cur]
  | true :: r => run_lengths (cur + 1) r
  | false :: r => cur :: run_lengths 0 r
  end.
(** One failover for every [th] consecutive unhealthy verdicts *)
Definition expected_triggers (th : Z) (verdicts : list bool) : Z :=
  sum_list_Z (λ n, n / th) (run_lengths 0 verdicts).

(** Events some task reacts to *)
Definition reactive (e : ShimEvent) : bool :=
  match event e with
  | HealthStatusChanged _ _ | BackupCompleted _ _ _ | SchedulerTaskFired _ _ => true
  | _ => false
  end.

(** Bound on the iterations still to come *)
Definition weight (e : ShimEvent) : Z := if reactive e then 5 else 1.
Definition task_measure (w : wired) (h : Handler) : Z :=
  if w_running w h then 1 + sum_list_Z weight (backlog (tx (w_bus w)) (w_rx w h)) else 0.
Definition wired_measure (w : wired) : Z := sum_list_Z (task_measure w) all_handlers.

(** ** Lemmas on the reactions *)

Lemma on_event_inert th h count e :
  reactive e = false → on_event th h count e = (count, []).
Proof.
  unfold reactive. intros He. destruct h; simpl; try done.
  - unfold health_on_event. by destruct (event e).
  - unfold backup_on_event. by destruct (event e).
  - unfold scheduler_on_event. by destruct (event e).
Qed.

Lemma on_event_emits th h count e :
  (on_event th h count e).2 = [] ∨
  ∃ m, (on_event th h count e).2 = [m] ∧
       ∀ new_id now q, reactive (with_sequence (new_event new_id now (em_source m) (em_event m)
                                   (em_severity m)) q) = false.
Proof.
  destruct h; simpl; unfold health_on_event, backup_on_event, scheduler_on_event;
    destruct (event e); simpl; eauto; repeat case_match; simpl; eauto.
Qed.

Lemma run_handler_app th h c es1 es2 :
  run_handler th h c (es1 ++ es2) =
  let '(c1, o1) := run_handler th h c es1 in
  let '(c2, o2) := run_handler th h c1 es2 in (c2, o1 ++ o2).
Proof.
  revert c. induction es1 as [|e es1 IH]; intros c; simpl.
  - by destruct (run_handler th h c es2).
  - destruct (on_event th h c e) as [c' o']. rewrite IH.
    destruct (run_handler th h c' es1) as [c1 o1].
    destruct (run_handler th h c1 es2) as [c2 o2]. by rewrite app_assoc.
Qed.

Lemma run_handler_filter th h c es :
  run_handler th h c es = run_handler th h c (filter reactive es).
Proof.
  revert c. induction es as [|e es IH]; intros c; [done|].
  rewrite filter_cons. simpl. destruct (reactive e) eqn:He; case_decide; try done; simpl.
  - destruct (on_event th h c e) as [c' o']. by rewrite IH.
  - rewrite on_event_inert by done. rewrite IH. by destruct (run_handler _ _ _ _).
Qed.

Lemma run_lengths_count th (q c : Z) verdicts :
  0 < th →
  sum_list_Z (λ n, n / th) (run_lengths (q * th + c) verdicts) =
  q + sum_list_Z (λ n, n / th) (run_lengths c verdicts).
Proof.
  intros Hth. revert q c. induction verdicts as [|[] r IH]; intros q c; cbn [run_lengths].
  - simpl. rewrite Z.div_add_l by lia. lia.
  - rewrite <-Z.add_assoc. apply IH.
  - simpl. rewrite Z.div_add_l by lia. lia.
Qed.

Lemma health_run th c es :
  1 ≤ th < 2 ^ 32 → 0 ≤ c < th →
  Z.of_nat (length (run_handler th HealthFailover c es).2) =
    sum_list_Z (λ n, n / th) (run_lengths c (unhealthy_verdicts es)) ∧
  Forall (λ m, ∃ o n, em_event m = FailoverTriggered o n ∧ em_severity m = Critical)
    (run_handler th HealthFailover c es).2.
Proof.
  intros Hth. revert c. induction es as [|e es IH]; intros c Hc.
  { simpl. rewrite Z.div_small by lia. split; [lia|constructor]. }
  cbn [run_handler on_event unhealthy_verdicts omap list_omap].
  unfold health_on_event. destruct (event e) as [prev cur| | | | | | | | | | | | | | | | | |
    | | | | | | | |]; try (destruct (IH c Hc) as [IH1 IH2];
    destruct (run_handler th HealthFailover c es); simpl in *; by split).
  destruct (bool_decide (cur = "unhealthy") || bool_decide (cur = "down")); cbn [run_lengths].
  - u_small. destruct (Z.leb_spec th (c + 1)) as [Hle|Hlt].
    + destruct (IH 0 ltac:(lia)) as [IH1 IH2].
      destruct (run_handler th HealthFailover 0 es) as [c' o]. simpl in *. split.
      * replace (c + 1) with (1 * th + 0) by lia. rewrite run_lengths_count by lia.
        unfold unhealthy_verdicts in IH1. lia.
      * constructor; [eauto|done].
    + destruct (IH (c + 1) ltac:(lia)) as [IH1 IH2].
      by destruct (run_handler th HealthFailover (c + 1) es).
  - destruct (IH 0 ltac:(lia)) as [IH1 IH2].
    destruct (run_handler th HealthFailover 0 es) as [c' o]. simpl in *.
    rewrite Z.div_small by lia. by split.
Qed.

(** The health task triggers a failover exactly once for every [threshold]
    consecutive unhealthy verdicts: over any sequence of events the number of
    its emissions is the sum, over the maximal runs of unhealthy (or down)
    verdicts, of the length of the run divided by the threshold (events of other
    types do not break a run), and every emission is a critical
    [FailoverTriggered]. *)
Theorem health_failover_triggers th es :
  1 ≤ th < 2 ^ 32 →
  Z.of_nat (length (run_handler th HealthFailover 0 es).2) =
    expected_triggers th (unhealthy_verdicts es) ∧
  Forall (λ m, ∃ o n, em_event m = FailoverTriggered o n ∧ em_severity m = Critical)
    (run_handler th HealthFailover 0 es).2.
Proof. intros. apply health_run; lia. Qed.

(** ** Lemmas on the system *)

(** What publishing leaves alone, and what it appends. *)
Lemma wired_publish_frame w e :
  let w' := wired_publish w e in
  let e' := with_sequence e (publish (w_bus w) e).1 in
  tx (w_bus w') = send (tx (w_bus w)) e' ∧ w_log w' = w_log w ++ [e'] ∧
  w_threshold w' = w_threshold w ∧ w_rx w' = w_rx w ∧ w_running w' = w_running w ∧
  w_shutdown w' = w_shutdown w ∧ w_count w' = w_count w ∧ w_alerts w' = w_alerts w ∧
  w_ext w' = w_ext w ∧ w_out w' = w_out w.
Proof. done. Qed.

Definition all_live (w : wired) : Prop := ∀ h, live (tx (w_bus w)) (w_rx w h).

Lemma all_live_publish w e : all_live w → all_live (wired_publish w e).
Proof. intros Hl h. apply live_send, Hl. Qed.
Lemma all_live_emits w i n ms : all_live w → all_live (foldl (wired_emit i n) w ms).
Proof. revert w. induction ms as [|m ms IH]; intros w Hl; [done|]. by apply IH, all_live_publish. Qed.

Lemma all_live_insert s (f : Handler → receiver) h rx :
  (∀ h', live s (f h')) → live s rx → ∀ h', live s (<[h := rx]> f h').
Proof.
  intros Hf Hrx h'. destruct (decide (h' = h)) as [->|Hne].
  - by rewrite fn_lookup_insert.
  - by rewrite fn_lookup_insert_ne.
Qed.

(** The iteration of a task, by cases. *)
Lemma task_step_inv i n w h w' :
  all_live w → task_step i n w h = Some w' →
  w_running w h = true ∧
  ((w_shutdown w h = true ∧ w' = w <| w_running ::= <[h := false]> |>) ∨
   (w_shutdown w h = false ∧ ∃ rx r,
      recv (tx (w_bus w)) (w_rx w h) = Some (r, rx) ∧ live (tx (w_bus w)) rx ∧
      ((∃ e rest, r = Received e ∧ backlog (tx (w_bus w)) (w_rx w h) = e :: rest ∧
          backlog (tx (w_bus w)) rx = rest ∧
          w' = foldl (wired_emit i n)
            (w <| w_rx ::= <[h := rx]> |>
               <| w_count ::= <[h := (on_event (w_threshold w) h (w_count w h) e).1]> |>
               <| w_out ::= alter (λ o, o ++ (on_event (w_threshold w) h (w_count w h) e).2) h |>
               <| w_alerts := if bool_decide (h = AlertFanIn) && alert_on_event e
                              then w_alerts w ++ [e] else w_alerts w |>)
            (on_event (w_threshold w) h (w_count w h) e).2) ∨
       (∃ k m rest, r = Lagged k ∧ 0 < k ∧ backlog (tx (w_bus w)) (w_rx w h) = m :: rest ∧
          backlog (tx (w_bus w)) rx = drop (Z.to_nat k) (m :: rest) ∧
          w' = w <| w_rx ::= <[h := rx]> |>)))).
Proof.
  intros Hl. unfold task_step. destruct (w_running w h) eqn:Hrun; [|done]. simpl.
  destruct (w_shutdown w h) eqn:Hsd; [intros; simplify_eq; split; [done|by left]|].
  intros Ht. split; [done|right; split; [done|]].
  destruct (backlog (tx (w_bus w)) (w_rx w h)) as [|e rest] eqn:Hb.
  { by rewrite recv_empty in Ht. }
  destruct (recv_next _ _ _ _ (Hl h) Hb) as [(rx & Hr & Hlv & Hrest)|(k & rx & Hr & Hlv & Hk & Hrest)];
    rewrite Hr in Ht; exists rx.
  - exists (Received e). split_and!; [done..|]. left. exists e, rest. split_and!; [done..|].
    destruct (on_event _ _ _ _) as [c o]. simplify_eq. f_equal.
    by destruct (bool_decide _ && _); cbn.
  - exists (Lagged k). split_and!; [done..|]. right. exists k, e, rest. simplify_eq/=. done.
Qed.

Lemma all_live_task i n w h w' : all_live w → task_step i n w h = Some w' → all_live w'.
Proof.
  intros Hl Hs. destruct (task_step_inv _ _ _ _ _ Hl Hs)
    as (_ & [[_ ->]|(_ & rx & r & _ & Hrx & [(e & rest & _ & _ & _ & ->)|(k & m & rest & _ & _ & _ & _ & ->)])]).
  - done.
  - apply all_live_emits. exact (all_live_insert _ _ _ _ Hl Hrx).
  - exact (all_live_insert _ _ _ _ Hl Hrx).
Qed.

Lemma all_live_step w w' : wired_step w w' → all_live w → all_live w'.
Proof.
  destruct 1 as [w e|w h|w w' [? h i n w'' Hs]]; intros Hl.
  - by apply all_live_publish.
  - done.
  - by eapply all_live_task.
Qed.

Lemma all_live_start b : all_live (wire_all_handlers b).
Proof. intros []; apply live_subscribe. Qed.

(** *** Termination *)

Lemma weight_pos e : 1 ≤ weight e.
Proof. unfold weight. case_match; lia. Qed.
Lemma weights_nonneg es : 0 ≤ sum_list_Z weight es.
Proof. apply sum_list_Z_nonneg. intros e _. pose proof (weight_pos e). lia. Qed.
Lemma task_measure_nonneg w h : 0 ≤ task_measure w h.
Proof. unfold task_measure. case_match; [|lia]. pose proof (weights_nonneg (backlog (tx (w_bus w)) (w_rx w h))). lia. Qed.

Lemma task_measure_publish w e h :
  all_live w → reactive (with_sequence e (publish (w_bus w) e).1) = false →
  task_measure (wired_publish w e) h ≤ task_measure w h + 1.
Proof.
  intros Hl He.
  assert (weight (with_sequence e (publish (w_bus w) e).1) = 1) as Hw
    by (unfold weight; by rewrite He).
  unfold task_measure.
  destruct (wired_publish_frame w e) as (-> & _ & _ & -> & -> & _).
  case_match; [|lia]. rewrite backlog_send by apply Hl. rewrite sum_list_Z_app, sum_list_Z_singleton.
  lia.
Qed.

Lemma wired_measure_sum w :
  wired_measure w = task_measure w HealthFailover + task_measure w BackupEncryption
                  + task_measure w AlertFanIn + task_measure w SchedulerBackup.
Proof. unfold wired_measure, all_handlers, sum_list_Z, foldr. lia. Qed.

(** One task changes by [d], the others stay: so does the sum. *)
Lemma wired_measure_one w w' h d :
  (∀ h', h' ≠ h → task_measure w' h' = task_measure w h') →
  task_measure w' h ≤ task_measure w h - d →
  wired_measure w' ≤ wired_measure w - d.
Proof.
  intros Ho Hh. rewrite !wired_measure_sum.
  destruct h; rewrite ?(Ho HealthFailover), ?(Ho BackupEncryption), ?(Ho AlertFanIn),
    ?(Ho SchedulerBackup) by done; lia.
Qed.

Lemma task_step_decreases i n w h w' :
  all_live w → task_step i n w h = Some w' → wired_measure w' ≤ wired_measure w - 1.
Proof.
  intros Hl Hs. destruct (task_step_inv _ _ _ _ _ Hl Hs)
    as (Hrun & [[_ ->]|(_ & rx & r & _ & Hrx & [(e & rest & _ & Hb & Hrest & ->)|(k & m & rest & _ & Hk & Hb & Hrest & ->)])]).
  - apply (wired_measure_one _ _ h).
    + intros h' Hne. unfold task_measure. simpl. by rewrite fn_lookup_insert_ne.
    + unfold task_measure. simpl. rewrite fn_lookup_insert, Hrun.
      pose proof (weights_nonneg (backlog (tx (w_bus w)) (w_rx w h))). lia.
  - match goal with |- context [foldl _ ?x _] => set (w1 := x) end.
    assert (all_live w1) as Hl1.
    { exact (all_live_insert _ _ _ _ Hl Hrx). }
    assert (wired_measure w1 ≤ wired_measure w - weight e) as Hw1.
    { apply (wired_measure_one _ _ h).
      - intros h' Hne. unfold task_measure. simpl. by rewrite fn_lookup_insert_ne.
      - unfold task_measure. simpl. rewrite fn_lookup_insert, Hrun, Hb, Hrest. simpl. lia. }
    destruct (reactive e) eqn:He.
    + unfold weight in Hw1. rewrite He in Hw1.
      destruct (on_event_emits (w_threshold w) h (w_count w h) e) as [->|(m & -> & Hm)]; [simpl; lia|].
      simpl. unfold wired_emit. specialize (Hm i n (publish (w_bus w1)
        (new_event i n (em_source m) (em_event m) (em_severity m))).1).
      rewrite !wired_measure_sum in *.
      pose proof (task_measure_publish w1 _ HealthFailover Hl1 Hm).
      pose proof (task_measure_publish w1 _ BackupEncryption Hl1 Hm).
      pose proof (task_measure_publish w1 _ AlertFanIn Hl1 Hm).
      pose proof (task_measure_publish w1 _ SchedulerBackup Hl1 Hm). lia.
    + subst w1. revert Hw1. rewrite (on_event_inert _ _ _ _ He). simpl.
      pose proof (weight_pos e). lia.
  - apply (wired_measure_one _ _ h).
    + intros h' Hne. unfold task_measure. simpl. by rewrite fn_lookup_insert_ne.
    + unfold task_measure. simpl. rewrite fn_lookup_insert, Hrun, Hb, Hrest.
      destruct (Z.to_nat k) as [|k'] eqn:Ek; [lia|]. simpl.
      pose proof (weight_pos m).
      assert (sum_list_Z weight (drop k' rest) ≤ sum_list_Z weight rest); [|lia].
      rewrite <-(take_drop k' rest) at 2. rewrite sum_list_Z_app.
      pose proof (weights_nonneg (take k' rest)). lia.
Qed.

(** A step is possible or not independently of the identifiers and the clock. *)
Lemma task_step_enabled i n i' n' w h :
  is_Some (task_step i n w h) → is_Some (task_step i' n' w h).
Proof.
  unfold task_step. destruct (negb _); [done|]. destruct (w_shutdown w h); [eauto|].
  destruct (recv _ _) as [[[e|k|] rx]|]; eauto.
  destruct (on_event _ _ _ _). eauto.
Qed.

Lemma reachable_live b w : rtc wired_step (wire_all_handlers b) w → all_live w.
Proof.
  intros Hr. refine (rtc_invariant wired_step all_live _ _ _ Hr (all_live_start b)).
  intros x y Hxy Hx. by eapply all_live_step.
Qed.

(** C38.  The wiring cannot feed itself for ever: from any state the system can
    be in, with any events pending, the tasks make at most [wired_measure] more
    iterations in total before all of them wait, whichever task moves next; and
    they can always be run to such a quiescent state. *)
Theorem wiring_terminates b w (i : uuid) :
  rtc wired_step (wire_all_handlers b) w →
  (∀ k w', nsteps tasks_step k w w' → Z.of_nat k ≤ wired_measure w) ∧
  ∃ w', rtc tasks_step w w' ∧ quiescent w'.
Proof.
  intros Hlive%reachable_live.
  assert (∀ w w', tasks_step w w' → all_live w → all_live w' ∧
            wired_measure w' ≤ wired_measure w - 1) as Hstep.
  { intros w1 w2 [w0 h i0 n0 w0' Hs] Hl.
    split; [by eapply all_live_task|by eapply task_step_decreases]. }
  assert (∀ w, 0 ≤ wired_measure w) as Hnn.
  { intros w0. apply sum_list_Z_nonneg. intros h _. apply task_measure_nonneg. }
  split.
  - intros k w' Hk. induction Hk as [w0|k w1 w2 w3 H12 _ IH]; [apply Hnn|].
    destruct (Hstep _ _ H12 Hlive) as [Hl2 Hm]. specialize (IH Hl2). lia.
  - remember (Z.to_nat (wired_measure w)) as m eqn:Hm.
    revert w Hlive Hm. induction m as [m IH] using lt_wf_ind. intros w Hlive ->.
    destruct (decide (Exists (λ h, is_Some (task_step i 0 w h)) all_handlers)) as [Hex|Hno].
    + apply Exists_exists in Hex as (h & _ & [w1 Hs]).
      destruct (Hstep w w1 (ts_task _ _ _ _ _ Hs) Hlive) as [Hl1 Hm1].
      pose proof (Hnn w1). pose proof (Hnn w).
      destruct (IH (Z.to_nat (wired_measure w1)) ltac:(lia) w1 Hl1 eq_refl) as (w' & Hw' & Hq).
      exists w'. split; [|done]. eapply rtc_l; [by eapply ts_task|done].
    + exists w. split; [done|]. intros w' Hs. inversion Hs as [w0 h i0 n0 w0' Hs']; subst. apply Hno, Exists_exists.
      exists h. split; [destruct h; unfold all_handlers; rewrite !elem_of_cons; tauto|].
      apply (task_step_enabled i0 n0). eauto.
Qed.

(** *** What the tasks emit *)

Definition never_lags : Prop :=
  ∀ s rx k rx', recv s rx ≠ Some (Lagged k, rx').

(** The history is that of the reactions to what each task consumed. *)
Definition history_inv (w : wired) : Prop :=
  filter reactive (w_log w) = filter reactive (w_ext w) ∧
  ∀ h, ∃ consumed,
    w_log w = consumed ++ backlog (tx (w_bus w)) (w_rx w h) ∧
    run_handler (w_threshold w) h 0 consumed = (w_count w h, w_out w h).

Lemma history_publish w e (ext : bool) :
  all_live w → history_inv w →
  (ext = false → reactive (with_sequence e (publish (w_bus w) e).1) = false) →
  history_inv ((wired_publish w e)
    <| w_ext ::= λ l, if ext then l ++ [with_sequence e (publish (w_bus w) e).1] else l |>).
Proof.
  intros Hl [Hf Hh] Hext. split.
  - set (e' := with_sequence e _) in *. match goal with |- filter _ (w_log ?x) = _ => set (w' := x) end.
    assert (w_log w' = w_log w ++ [e']) as -> by done.
    assert (w_ext w' = if ext then w_ext w ++ [e'] else w_ext w) as -> by done.
    rewrite filter_app, Hf. destruct ext; [by rewrite filter_app|].
    rewrite filter_cons_False by (rewrite (Hext eq_refl); auto). apply app_nil_r.
  - intros h. destruct (Hh h) as (consumed & Hlog & Hrun). exists consumed.
    split; [|done]. simpl. rewrite Hlog, backlog_send by apply Hl. by rewrite app_assoc.
Qed.

Lemma history_emits i n w ms :
  all_live w → history_inv w →
  (ms = [] ∨ ∃ m, ms = [m] ∧ ∀ j t q, reactive (with_sequence (new_event j t (em_source m)
      (em_event m) (em_severity m)) q) = false) →
  history_inv (foldl (wired_emit i n) w ms).
Proof.
  intros Hl Hi [->|(m & -> & Hm)]; [done|]. simpl.
  pose proof (history_publish w (new_event i n (em_source m) (em_event m) (em_severity m))
    false Hl Hi (λ _, Hm _ _ _)) as H.
  exact H.
Qed.

Lemma history_task i n w h w' :
  never_lags → all_live w → history_inv w → task_step i n w h = Some w' → history_inv w'.
Proof.
  intros Hnl Hl [Hf Hh] Hs. destruct (task_step_inv _ _ _ _ _ Hl Hs)
    as (_ & [[_ ->]|(_ & rx & r & Hr & Hrx & [(e & rest & -> & Hb & Hrest & ->)|(k & m & rest & -> & _)])]);
    [done| |by apply Hnl in Hr].
  apply history_emits; [exact (all_live_insert _ _ _ _ Hl Hrx)| |apply on_event_emits].
  split; [done|]. intros h'. destruct (Hh h') as (consumed & Hlog & Hrun). simpl.
  destruct (decide (h' = h)) as [->|Hne].
  - rewrite !fn_lookup_insert, fn_lookup_alter, Hrest. exists (consumed ++ [e]).
    rewrite Hlog, Hb, <-app_assoc. split; [done|].
    rewrite run_handler_app, Hrun. simpl.
    destruct (on_event (w_threshold w) h (w_count w h) e) as [c o]. simpl. by rewrite app_nil_r.
  - rewrite !fn_lookup_insert_ne, fn_lookup_alter_ne by done. eauto.
Qed.

(** What the wired tasks do is determined by what the rest of the program
    publishes, not by the interleaving: on a channel that does not drop events,
    whenever a task has nothing left to read, it has emitted exactly the
    reactions of that task to the sequence of outside events, and none to what
    the tasks themselves publish. *)
Theorem wired_outputs_deterministic b w h :
  never_lags →
  rtc wired_step (wire_all_handlers b) w →
  w_running w h = true → w_shutdown w h = false →
  (∀ i n, task_step i n w h = None) →
  ∀ i : uuid, w_out w h = (run_handler 3 h 0 (w_ext w)).2.
Proof.
  intros Hnl Hr Hrun Hsd Hidle i.
  assert (all_live w ∧ history_inv w ∧ w_threshold w = 3) as (Hl & [Hf Hh] & Ht).
  { refine (rtc_invariant wired_step (λ w, all_live w ∧ history_inv w ∧ w_threshold w = 3)
      _ _ _ Hr _); clear -Hnl.
    - intros x y Hxy (Hl & Hi & Ht). split_and!; [by eapply all_live_step|..].
      + destruct Hxy as [x e|x h|x y [x' h i n w'' Hs]]; [|done|by eapply history_task].
        by apply (history_publish x e true).
      + destruct Hxy as [x e|x h|x y [x' h i n w'' Hs]]; [done..|].
        destruct (task_step_inv _ _ _ _ _ Hl Hs) as (_ & [[_ ->]|(_ & rx & r & _ & _ &
          [(e & rest & _ & _ & _ & ->)|(k & m & rest & _ & _ & _ & _ & ->)])]); [done| |done].
        destruct (on_event_emits (w_threshold x') h (w_count x' h) e) as [->|(m & -> & _)]; done.
    - split_and!; [apply all_live_start| |done]. split; [done|].
      intros h. exists []. split; [|done].
      assert (w_rx (wire_all_handlers b) h = subscribe (tx b)) as -> by by destruct h.
      assert (w_bus (wire_all_handlers b) = b) as -> by done.
      by rewrite backlog_subscribe. }
  destruct (Hh h) as (consumed & Hlog & Hout).
  destruct (backlog (tx (w_bus w)) (w_rx w h)) as [|e rest] eqn:Hb.
  - rewrite app_nil_r in Hlog. rewrite Ht, <-Hlog, run_handler_filter, Hf, <-run_handler_filter in Hout.
    by rewrite Hout.
  - destruct (recv_next _ _ _ _ (Hl h) Hb) as [(rx & Hrv & _)|(k & rx & Hrv & _)].
    + specialize (Hidle i 0). unfold task_step in Hidle. rewrite Hrun, Hsd, Hrv in Hidle.
      simpl in Hidle. by destruct (on_event _ _ _ _).
    + by apply Hnl in Hrv.
Qed.

(** The alert fan-in of [wire_all_handlers] never sees an event: its task
    does not hold a reference to the handler, so the handler and the sender of
    its shutdown channel are dropped when [start] returns, and the first
    iteration of the loop leaves it. *)
Theorem wired_alert_fanin_dead b w :
  rtc wired_step (wire_all_handlers b) w →
  w_alerts w = [] ∧ w_out w AlertFanIn = [] ∧ w_shutdown w AlertFanIn = true.
Proof.
  intros Hr. cut (all_live w ∧ w_alerts w = [] ∧ w_out w AlertFanIn = [] ∧
                  w_shutdown w AlertFanIn = true); [tauto|].
  refine (rtc_invariant wired_step (λ w, all_live w ∧ w_alerts w = [] ∧ w_out w AlertFanIn = [] ∧
            w_shutdown w AlertFanIn = true) _ _ _ Hr _).
  - intros x y Hxy (Hl & Ha & Ho & Hsd). split; [by eapply all_live_step|].
    destruct Hxy as [x e|x h|x y [x' h i n w'' Hs]]; [done|..].
    + simpl. split_and!; [done..|]. destruct (decide (AlertFanIn = h)) as [<-|];
        [apply fn_lookup_insert|by rewrite fn_lookup_insert_ne].
    + destruct (task_step_inv _ _ _ _ _ Hl Hs) as (_ & [[_ ->]|(Hsd' & rx & r & _ & _ &
          [(e & rest & _ & _ & _ & ->)|(k & m & rest & _ & _ & _ & _ & ->)])]); [done| |done].
      assert (h ≠ AlertFanIn) as Hne by (intros ->; congruence).
      match goal with |- context [foldl _ ?x _] => set (w1 := x) end.
      assert (w_alerts w1 = [] ∧ w_out w1 AlertFanIn = [] ∧ w_shutdown w1 AlertFanIn = true).
      { simpl. rewrite bool_decide_eq_false_2, fn_lookup_alter_ne by done. done. }
      by destruct (on_event_emits (w_threshold x') h (w_count x' h) e) as [->|(m & -> & _)].
  - split; [apply all_live_start|done].
Qed.

End wiring.

(** ** Concrete runs *)

Section wiring_runs.
#[local] Instance wiring_external : External := demo_external.
#[local] Instance wiring_channel : Broadcast ShimEvent := log_broadcast ShimEvent.

Definition demo_id : @uuid demo_external := 0.
Definition unhealthy_event : ShimEvent :=
  new_event (EX := demo_external) 1 0 "health-shim" (HealthStatusChanged "healthy" "unhealthy") Error.

Lemma health_failover_triggers_witness :
  Z.of_nat (length (run_handler 3 HealthFailover 0 (replicate 7 unhealthy_event)).2) = 2.
Proof.
  rewrite (proj1 (health_failover_triggers 3 (replicate 7 unhealthy_event) ltac:(lia))).
  reflexivity.
Defined.

(** Three unhealthy events, and the health task until it waits *)
Fixpoint drive (n : nat) (w : wired) : wired :=
  match n with
  | O => w
  | S n => match task_step demo_id 0 w HealthFailover with
           | Some w' => drive n w'
           | None => w
           end
  end.
Fixpoint publish_times (n : nat) (w : wired) : wired :=
  match n with
  | O => w
  | S n => publish_times n ((wired_publish w unhealthy_event) <| w_ext ::= λ l,
             l ++ [with_sequence unhealthy_event (publish (w_bus w) unhealthy_event).1] |>)
  end.
Lemma drive_reachable n w : rtc wired_step w (drive n w).
Proof.
  revert w. induction n as [|n IH]; intros w; simpl; [constructor|].
  destruct (task_step demo_id 0 w HealthFailover) as [w'|] eqn:E; [|constructor].
  econstructor; [|apply IH]. apply ws_task. by econstructor.
Qed.
Lemma publish_times_reachable n w : rtc wired_step w (publish_times n w).
Proof.
  revert w. induction n as [|n IH]; intros w; [constructor|]. cbn [publish_times].
  eapply rtc_l; [apply ws_publish|apply IH].
Qed.
Definition demo_wired : wired := drive 4 (publish_times 3 (wire_all_handlers new_bus)).
Lemma demo_wired_reachable : rtc wired_step (wire_all_handlers new_bus) demo_wired.
Proof. etrans; [apply publish_times_reachable|apply drive_reachable]. Qed.

Lemma wiring_terminates_witness :
  ∃ w', rtc tasks_step demo_wired w' ∧ quiescent w'.
Proof. exact (proj2 (wiring_terminates new_bus _ demo_id demo_wired_reachable)). Defined.

Lemma wired_outputs_deterministic_witness :
  w_out demo_wired HealthFailover =
    [mkEmission "failover-shim" (FailoverTriggered "primary" "promoted") Critical].
Proof.
  rewrite (wired_outputs_deterministic new_bus demo_wired HealthFailover).
  - vm_compute. reflexivity.
  - intros s rx k rx'. cbv [recv wiring_channel log_broadcast]. case_match; discriminate.
  - exact demo_wired_reachable.
  - vm_compute. reflexivity.
  - vm_compute. reflexivity.
  - intros i n. vm_compute. reflexivity.
  - exact demo_id.
Defined.

Lemma wired_alert_fanin_dead_witness : w_alerts demo_wired = [].
Proof. exact (proj1 (wired_alert_fanin_dead new_bus _ demo_wired_reachable)). Defined.
End wiring_runs.
