(* ===== verification/Alerting.v ===== *)
(** * AlertManager integration ([shim-core/src/alerting.rs])

    Filtering, deduplication and fan-out of bus events to webhooks.  The HTTP
    delivery, the RFC 3339 formatter of [chrono] and the derived [Debug] text
    of an event are arguments; [Instant]s are nanoseconds on the monotonic
    clock. *)

From S2P Require Import Prelude Events.

(** [AlertSeverity] *)
Inductive AlertSeverity := AInfo | AWarning | AError | ACritical.
#[export] Instance AlertSeverity_eq_dec : EqDecision AlertSeverity.
Proof. solve_decision. Defined.

(** [impl From<Severity> for AlertSeverity] *)
Definition alert_severity_from (s : Severity) : AlertSeverity :=
  match s with
  | Info => AInfo
  | Notice => AInfo
  | Warning => AWarning
  | Error => AError
  | Critical => ACritical
  end.

(** [impl Display for AlertSeverity] *)
Definition alert_severity_display (s : AlertSeverity) : string :=
  match s with
  | AInfo => "info" | AWarning => "warning" | AError => "error" | ACritical => "critical"
  end.

(** [severity_rank] of alerting.rs *)
Definition alert_severity_rank (s : AlertSeverity) : Z :=
  match s with AInfo => 0 | AWarning => 1 | AError => 2 | ACritical => 3 end.

Section alerting.
Context `{EX : External}.
Context (to_rfc3339 : Z → string) (debug_event : EventType → string).

(** [AlertManagerAlert] *)
Record AlertManagerAlert := mkAlert {
  al_id : uuid;
  al_labels : gmap string string;
  al_annotations : gmap string string;
  al_severity : AlertSeverity;
  al_source : string;
  al_correlation_id : option uuid;
  al_timestamp : string;
  al_event_type : string
}.

(** [WebhookPayload] *)
Record WebhookPayload := mkPayload {
  wp_group : string;
  wp_alerts : list AlertManagerAlert;
  wp_group_labels : gmap string string;
  wp_common_labels : gmap string string;
  wp_external_url : string
}.

(** [AlertManagerWebhook] *)
Record AlertManagerWebhook := mkWebhook {
  wh_name : string;
  wh_url : string;
  wh_min_severity : AlertSeverity;
  wh_headers : gmap string string;
  wh_group : option string
}.

(** [AlertManagerWebhook::accepts] *)
Definition accepts (w : AlertManagerWebhook) (s : AlertSeverity) : bool :=
  alert_severity_rank (wh_min_severity w) <=? alert_severity_rank s.

(** [AlertManager], less the bus and the shutdown channel *)
Record AlertManager := mkAlertManager {
  webhooks : list AlertManagerWebhook;
  am_min_severity : Severity;
  external_url : string;
  dedup_window : Z;
  dedup_cache : gmap string Z;
  alerts_forwarded : Z;
  alerts_dropped : Z;
  delivery_failures : Z
}.
Global Instance AlertManager_settable : Settable AlertManager := λ m,
  mkAlertManager (webhooks m) (am_min_severity m) (external_url m) (dedup_window m)
    (dedup_cache m) (alerts_forwarded m) (alerts_dropped m) (delivery_failures m).

(** [AlertManager::new] and the builder methods *)
Definition new_alert_manager (whs : list AlertManagerWebhook) : AlertManager :=
  {| webhooks := whs; am_min_severity := Info; external_url := "http://localhost:9093";
     dedup_window := 300 * 10 ^ 9; dedup_cache := ∅; alerts_forwarded := 0;
     alerts_dropped := 0; delivery_failures := 0 |}.
Definition with_min_severity (m : AlertManager) (s : Severity) := m <| am_min_severity := s |>.
Definition with_external_url (m : AlertManager) (u : string) := m <| external_url := u |>.
Definition with_dedup_window (m : AlertManager) (d : Z) := m <| dedup_window := d |>.

(** [event_to_alert] *)
Definition event_to_alert (e : ShimEvent) : AlertManagerAlert :=
  {| al_id := id e;
     al_labels := <["event_type" := event_name e]> (<["severity" := severity_str e]>
                    (<["source" := source e]> ∅));
     al_annotations := <["description" := debug_event (event e)]>
       (<["summary" := "[" +:+ severity_str e +:+ "] " +:+ event_name e]> ∅);
     al_severity := alert_severity_from (severity e);
     al_source := source e;
     al_correlation_id := correlation_id e;
     al_timestamp := to_rfc3339 (timestamp e);
     al_event_type := event_name e |}.

(** [build_webhook_payload] *)
Definition build_webhook_payload (m : AlertManager) (a : AlertManagerAlert)
    (w : AlertManagerWebhook) : WebhookPayload :=
  let group := default "shim-alerts" (wh_group w) in
  {| wp_group := group;
     wp_alerts := [a];
     wp_group_labels := <["group" := group]> ∅;
     wp_common_labels := <["severity" := alert_severity_display (al_severity a)]>
                           (<["source" := al_source a]> ∅);
     wp_external_url := external_url m |}.

(** [convert_event] *)
Definition convert_event (m : AlertManager) (e : ShimEvent) : WebhookPayload :=
  let a := event_to_alert e in
  let w := default {| wh_name := "default"; wh_url := "http://localhost:9093";
                      wh_min_severity := AInfo; wh_headers := ∅; wh_group := None |}
                   (head (webhooks m)) in
  build_webhook_payload m a w.

(** The deduplication key *)
Definition dedup_key (e : ShimEvent) : string :=
  source e +:+ ":" +:+ event_name e +:+ ":" +:+ severity_str e.

(** The delivery loop over the matching webhooks; [deliver] is [send_webhook]'s
    success. *)
Fixpoint forward_all (deliver : AlertManagerWebhook → WebhookPayload → bool)
    (m : AlertManager) (a : AlertManagerAlert) (matching : list AlertManagerWebhook)
    : AlertManager :=
  match matching with
  | [] => m
  | w :: rest =>
      let m := if deliver w (build_webhook_payload m a w)
               then m <| alerts_forwarded ::= λ n, add64 n 1 |>
               else m <| delivery_failures ::= λ n, add64 n 1 |> in
      forward_all deliver m a rest
  end.

(** [process_event] at the instant [now]: the manager afterwards and the
    webhooks a payload was posted to. *)
Definition process_event (deliver : AlertManagerWebhook → WebhookPayload → bool)
    (now : Z) (m : AlertManager) (e : ShimEvent) : AlertManager * list AlertManagerWebhook :=
  let drop_it m := (m <| alerts_dropped ::= λ n, add64 n 1 |>, []) in
  if negb (is_alertable e) then drop_it m
  else if severity_rank (severity e) <? severity_rank (am_min_severity m) then drop_it m
  else
    let key := dedup_key e in
    if match dedup_cache m !! key with
       | Some last_seen => saturating_sub now last_seen <? dedup_window m
       | None => false
       end
    then drop_it m
    else
      let m := m <| dedup_cache ::= <[key := now]> |> in
      let a := event_to_alert e in
      let matching := filter (λ w, accepts w (al_severity a)) (webhooks m) in
      if bool_decide (matching = []) then drop_it m
      else (forward_all deliver m a matching, matching).

(** [cleanup_dedup_cache] *)
Definition cleanup_dedup_cache (now : Z) (m : AlertManager) : AlertManager :=
  m <| dedup_cache ::= filter (λ kv, saturating_sub now kv.2 < dedup_window m) |>.

(** A run of the manager: events at their instants, and cleanups. *)
Inductive am_op := OpEvent (now : Z) (e : ShimEvent) | OpCleanup (now : Z).
Definition op_time (o : am_op) : Z := match o with OpEvent t _ | OpCleanup t => t end.

Definition run_op (deliver : AlertManagerWebhook → WebhookPayload → bool)
    (m : AlertManager) (o : am_op) : AlertManager * list (Z * ShimEvent * list AlertManagerWebhook) :=
  match o with
  | OpEvent t e => let '(m, posted) := process_event deliver t m e in (m, [(t, e, posted)])
  | OpCleanup t => (cleanup_dedup_cache t m, [])
  end.
Fixpoint run_ops (deliver : AlertManagerWebhook → WebhookPayload → bool)
    (m : AlertManager) (os : list am_op)
    : AlertManager * list (Z * ShimEvent * list AlertManagerWebhook) :=
  match os with
  | [] => (m, [])
  | o :: rest =>
      let '(m, out) := run_op deliver m o in
      let '(m, out') := run_ops deliver m rest in
      (m, out ++ out')
  end.

(** ** Lemmas *)

Implicit Types (m : AlertManager) (e : ShimEvent).

Definition recently_seen (now : Z) m (k : string) : bool :=
  match dedup_cache m !! k with
  | Some last_seen => saturating_sub now last_seen <? dedup_window m
  | None => false
  end.
(** The checks before the deduplication, and the webhooks that take the event *)
Definition passes_filter m e : bool :=
  is_alertable e && negb (severity_rank (severity e) <? severity_rank (am_min_severity m)).
Definition takers m e : list AlertManagerWebhook :=
  filter (λ w, accepts w (alert_severity_from (severity e))) (webhooks m).

Lemma forward_all_frame deliver a ws m :
  let m' := forward_all deliver m a ws in
  webhooks m' = webhooks m ∧ am_min_severity m' = am_min_severity m ∧
  external_url m' = external_url m ∧ dedup_window m' = dedup_window m ∧
  dedup_cache m' = dedup_cache m ∧ alerts_dropped m' = alerts_dropped m.
Proof.
  revert m. induction ws as [|w ws IH]; intros m; [done|]. simpl.
  case_match; match goal with |- context [forward_all _ ?x _ _] => exact (IH x) end.
Qed.

Lemma forward_all_count deliver a ws m :
  let m' := forward_all deliver m a ws in
  wrap 64 (alerts_forwarded m' + delivery_failures m') =
  wrap 64 (alerts_forwarded m + delivery_failures m + Z.of_nat (length ws)).
Proof.
  revert m. induction ws as [|w ws IH]; intros m; cbn [forward_all length].
  { by rewrite Z.add_0_r. }
  cbv zeta. rewrite IH. destruct (deliver w _); cbn -[add64 Z.of_nat].
  - rewrite <-Z.add_assoc. unfold add64. rewrite wrap_add_l. f_equal. lia.
  - rewrite (Z.add_comm _ (add64 _ _)), <-Z.add_assoc. unfold add64. rewrite wrap_add_l. f_equal. lia.
Qed.

(** [process_event] by cases: dropped, or posted to every taker. *)
Lemma process_event_cases deliver now m e :
  let '(m', posted) := process_event deliver now m e in
  (posted = [] ∧ alerts_dropped m' = add64 (alerts_dropped m) 1 ∧
   alerts_forwarded m' = alerts_forwarded m ∧ delivery_failures m' = delivery_failures m ∧
   dedup_cache m' = (if passes_filter m e && negb (recently_seen now m (dedup_key e))
                     then <[dedup_key e := now]> (dedup_cache m) else dedup_cache m) ∧
   (passes_filter m e && negb (recently_seen now m (dedup_key e)) = true → takers m e = [])
   ∨
   posted = takers m e ∧ posted ≠ [] ∧
   passes_filter m e = true ∧ recently_seen now m (dedup_key e) = false ∧
   alerts_dropped m' = alerts_dropped m ∧
   dedup_cache m' = <[dedup_key e := now]> (dedup_cache m) ∧
   wrap 64 (alerts_forwarded m' + delivery_failures m') =
   wrap 64 (alerts_forwarded m + delivery_failures m + Z.of_nat (length posted))) ∧
  webhooks m' = webhooks m ∧ am_min_severity m' = am_min_severity m ∧
  external_url m' = external_url m ∧ dedup_window m' = dedup_window m.
Proof.
  unfold process_event, passes_filter. destruct (is_alertable e); simpl; [|by split_and!; [left|..]].
  destruct (_ <? _) eqn:Hsev; simpl; [by split_and!; [left|..]|].
  fold (recently_seen now m (dedup_key e)).
  destruct (recently_seen now m (dedup_key e)) eqn:Hrec; simpl; [by split_and!; [left|..]|].
  fold (takers m e). case_bool_decide as Hnil; simpl.
  - split_and!; [left|done..]. split_and!; done.
  - set (m1 := mkAlertManager _ _ _ _ _ _ _ _).
    destruct (forward_all_frame deliver (event_to_alert e) (takers m e) m1)
      as (-> & -> & -> & -> & -> & ->).
    pose proof (forward_all_count deliver (event_to_alert e) (takers m e) m1).
    split_and!; [right|done..]. by split_and!.
Qed.

Definition dropped_count (out : list (Z * ShimEvent * list AlertManagerWebhook)) : nat :=
  length (filter (λ x, x.2 = []) out).
Definition posted_count (out : list (Z * ShimEvent * list AlertManagerWebhook)) : Z :=
  sum_list_Z (λ x, Z.of_nat (length x.2)) out.

(** The counters account for every event and every delivery: over any run
    the events that were posted to no webhook are exactly those added to
    [alerts_dropped], and the webhook posts attempted are exactly those added to
    [alerts_forwarded] plus [delivery_failures] (on 64-bit counters). *)
Theorem alert_accounting deliver m os m' out :
  in_u 64 (alerts_dropped m) →
  run_ops deliver m os = (m', out) →
  alerts_dropped m' = add64 (alerts_dropped m) (Z.of_nat (dropped_count out)) ∧
  wrap 64 (alerts_forwarded m' + delivery_failures m') =
  wrap 64 (alerts_forwarded m + delivery_failures m + posted_count out).
Proof.
  revert m m' out. induction os as [|o os IH]; intros m m' out Hu Hrun; simpl in Hrun.
  { simplify_eq. unfold posted_count. simpl. by rewrite add64_0_r, Z.add_0_r. }
  destruct (run_op deliver m o) as [m1 out1] eqn:Ho.
  destruct (run_ops deliver m1 os) as [m2 out2] eqn:Hos. simplify_eq.
  destruct o as [t e|t]; simpl in Ho.
  - pose proof (process_event_cases deliver t m e) as Hc.
    destruct (process_event deliver t m e) as [m3 posted]. simplify_eq.
    unfold dropped_count, posted_count. simpl. rewrite filter_cons.
    destruct Hc as [[(-> & Hd & Hf & Hx & _)|(-> & Hne & _ & _ & Hd & _ & Hfx)] _].
    + destruct (IH m1 m' out2) as [IH1 IH2]; [rewrite Hd; apply add64_range|done|].
      rewrite decide_True by done. rewrite IH1, IH2, Hd, Hf, Hx, add64_assoc_l. split.
      * f_equal. simpl. unfold dropped_count. lia.
      * f_equal.
    + destruct (IH m1 m' out2) as [IH1 IH2]; [by rewrite Hd|done|].
      rewrite decide_False by done. rewrite IH1, IH2, Hd. split; [done|].
      revert Hfx. unfold posted_count, wrap. intros Hfx.
      rewrite Z.add_mod, Hfx, <-Z.add_mod by done. f_equal. lia.
  - simplify_eq. simpl. apply (IH (cleanup_dedup_cache t m) _ _ Hu Hos).
Qed.

(** Times do not go back along a run. *)
Definition in_time_order (now : Z) (os : list am_op) : Prop :=
  StronglySorted Z.le (now :: (op_time <$> os)).

(** An alert with key [k] went out at [t]: at [now] the cache still knows it, or
    the window has passed. *)
Definition remembers (k : string) (t now : Z) m : Prop :=
  (∃ t', dedup_cache m !! k = Some t' ∧ t ≤ t') ∨ dedup_window m ≤ now - t.

Lemma remembers_op deliver k t now m o :
  remembers k t now m → t ≤ now → now ≤ op_time o →
  remembers k t (op_time o) (run_op deliver m o).1.
Proof.
  intros Hr Ht Hle. destruct o as [t1 e|t1]; simpl in *.
  - pose proof (process_event_cases deliver t1 m e) as Hc.
    destruct (process_event deliver t1 m e) as [m1 posted]. simpl.
    assert (dedup_window m1 = dedup_window m) as Hw by (destruct Hc; tauto).
    assert (dedup_cache m1 = dedup_cache m ∨ dedup_cache m1 = <[dedup_key e := t1]> (dedup_cache m))
      as Hcache.
    { destruct Hc as [[(_ & _ & _ & _ & -> & _)|(_ & _ & _ & _ & _ & -> & _)] _];
        [case_match|]; auto. }
    unfold remembers. rewrite Hw.
    destruct Hr as [(t' & Hk & Htt)|Hwin]; [|right; lia]. left.
    destruct Hcache as [->| ->]; [eauto|]. rewrite lookup_insert. case_decide; [|eauto].
    exists t1. split; [done|lia].
  - destruct Hr as [(t' & Hk & Htt)|Hwin]; [|right; simpl; lia].
    unfold remembers. simpl.
    destruct (decide (saturating_sub t1 t' < dedup_window m)) as [Hlt|Hge].
    + left. exists t'. split; [|done]. by apply map_lookup_filter_Some_2.
    + right. unfold saturating_sub in Hge. lia.
Qed.

Lemma remembers_blocks deliver k t now m e :
  remembers k t now m → dedup_key e = k → t ≤ now →
  (process_event deliver now m e).2 ≠ [] → dedup_window m ≤ now - t.
Proof.
  intros Hr <- Ht Hp. pose proof (process_event_cases deliver now m e) as Hc.
  destruct (process_event deliver now m e) as [m1 posted]. simpl in Hp.
  destruct Hc as [[(-> & _)|(_ & _ & _ & Hrec & _)] _]; [done|].
  destruct Hr as [(t' & Hk & Htt)|]; [|done].
  unfold recently_seen in Hrec. rewrite Hk in Hrec. bool_prop.
  unfold saturating_sub in Hrec. lia.
Qed.

Lemma run_op_window deliver m o : dedup_window (run_op deliver m o).1 = dedup_window m.
Proof.
  destruct o as [t e|t]; [|done]. simpl. pose proof (process_event_cases deliver t m e) as Hc.
  destruct (process_event deliver t m e). simpl. tauto.
Qed.

Lemma later_alerts_spaced deliver k t now m os m' out :
  remembers k t now m → t ≤ now → in_time_order now os →
  run_ops deliver m os = (m', out) →
  ∀ t2 e2 posted2, (t2, e2, posted2) ∈ out → posted2 ≠ [] → dedup_key e2 = k →
  dedup_window m ≤ t2 - t.
Proof.
  revert now m m' out. induction os as [|o os IH]; intros now m m' out Hr Ht Hord Hrun t2 e2 p2 Hin Hp2 Hk.
  { simpl in Hrun. simplify_eq. by apply elem_of_nil in Hin. }
  simpl in Hrun. destruct (run_op deliver m o) as [m1 out1] eqn:Ho.
  destruct (run_ops deliver m1 os) as [m2 out2] eqn:Hos. simplify_eq.
  apply StronglySorted_inv in Hord as [Hord Hle]. simpl in Hord, Hle.
  assert (now ≤ op_time o) as Hno by by apply Forall_cons in Hle as [? _].
  apply elem_of_app in Hin as [Hin|Hin].
  - destruct o as [t1 e1|t1]; simpl in Ho.
    + destruct (process_event deliver t1 m e1) as [m3 posted] eqn:Hpe. simplify_eq.
      apply list_elem_of_singleton in Hin. simplify_eq.
      apply (remembers_blocks deliver (dedup_key e1) t t1 m e1); [|done|simpl in Hno; lia|by rewrite Hpe].
      destruct Hr as [?|?]; [by left|right; simpl in Hno; lia].
    + simplify_eq. by apply elem_of_nil in Hin.
  - rewrite <-(run_op_window deliver m o), Ho. simpl.
    pose proof (remembers_op deliver _ t now m o Hr Ht Hno) as Hr'. rewrite Ho in Hr'.
    apply (IH _ _ _ _ Hr' ltac:(lia) Hord Hos t2 e2 p2 Hin Hp2 eq_refl).
Qed.

(** Deduplication: over any run in time order, cleanups included, two alerts
    that were posted for the same source, event name and severity are at least
    the deduplication window apart. *)
Theorem alerts_spaced deliver now m os m' out i j t1 e1 p1 t2 e2 p2 :
  in_time_order now os →
  run_ops deliver m os = (m', out) →
  (i < j)%nat → out !! i = Some (t1, e1, p1) → out !! j = Some (t2, e2, p2) →
  p1 ≠ [] → p2 ≠ [] → dedup_key e1 = dedup_key e2 →
  dedup_window m ≤ t2 - t1.
Proof.
  revert now m m' out i j. induction os as [|o os IH];
    intros now m m' out i j Hord Hrun Hij Hi Hj Hp1 Hp2 Hk; simpl in Hrun; [by simplify_eq|].
  destruct (run_op deliver m o) as [m1 out1] eqn:Ho.
  destruct (run_ops deliver m1 os) as [m2 out2] eqn:Hos. simplify_eq.
  apply StronglySorted_inv in Hord as [Hord _]. simpl in Hord.
  rewrite <-(run_op_window deliver m o), Ho. simpl.
  destruct o as [t e|t]; simpl in Ho; [|simplify_eq; by eapply IH].
  destruct (process_event deliver t m e) as [m3 posted] eqn:Hpe. simplify_eq.
  destruct j as [|j]; [lia|]. simpl in Hj. destruct i as [|i]; simpl in Hi.
  - simplify_eq. pose proof (process_event_cases deliver t1 m e1) as Hc. rewrite Hpe in Hc.
    assert (dedup_cache m1 = <[dedup_key e1 := t1]> (dedup_cache m)) as Hcache
      by (destruct Hc as [[(? & _)|(_ & _ & _ & _ & _ & ? & _)] _]; done).
    apply (later_alerts_spaced deliver (dedup_key e1) t1 t1 m1 os m' out2) with e2 p2; try done.
    + left. exists t1. by rewrite Hcache, lookup_insert_eq.
    + by eapply list_elem_of_lookup_2.
  - eapply (IH _ m1 m' out2 i j); eauto with lia.
Qed.

(** *** Forgetting expired entries is invisible *)

(** [m1] is [m2] after some cleanups: only expired entries are missing. *)
Record cleaned (now : Z) (m1 m2 : AlertManager) : Prop := {
  cl_webhooks : webhooks m1 = webhooks m2;
  cl_min : am_min_severity m1 = am_min_severity m2;
  cl_url : external_url m1 = external_url m2;
  cl_window : dedup_window m1 = dedup_window m2;
  cl_forwarded : alerts_forwarded m1 = alerts_forwarded m2;
  cl_dropped : alerts_dropped m1 = alerts_dropped m2;
  cl_failures : delivery_failures m1 = delivery_failures m2;
  cl_cache : ∀ k, dedup_cache m1 !! k = dedup_cache m2 !! k ∨
    (dedup_cache m1 !! k = None ∧
     ∃ t, dedup_cache m2 !! k = Some t ∧ dedup_window m2 ≤ saturating_sub now t)
}.

Lemma cleaned_recent now now' m1 m2 k :
  cleaned now m1 m2 → now ≤ now' → recently_seen now' m1 k = recently_seen now' m2 k.
Proof.
  intros Hc Hle. unfold recently_seen. rewrite (cl_window _ _ _ Hc).
  destruct (cl_cache _ _ _ Hc k) as [->|(-> & t & -> & Ht)]; [done|].
  symmetry. apply Z.ltb_ge. unfold saturating_sub in *. lia.
Qed.

Lemma cleaned_later now now' m1 m2 : cleaned now m1 m2 → now ≤ now' → cleaned now' m1 m2.
Proof.
  intros [] Hle. split; try done. intros k.
  destruct (cl_cache0 k) as [?|(? & t & ? & ?)]; [by left|right]. split; [done|].
  exists t. split; [done|]. unfold saturating_sub in *. lia.
Qed.

Lemma cleaned_forward now deliver a ws m1 m2 :
  cleaned now m1 m2 → cleaned now (forward_all deliver m1 a ws) (forward_all deliver m2 a ws).
Proof.
  revert m1 m2. induction ws as [|w ws IH]; intros m1 m2 Hc; [done|]. simpl.
  assert (build_webhook_payload m1 a w = build_webhook_payload m2 a w) as Hb.
  { unfold build_webhook_payload. by rewrite (cl_url _ _ _ Hc). }
  rewrite Hb. destruct (deliver w _); apply IH; destruct Hc; split; simpl; congruence || done.
Qed.

Lemma cleaned_process now deliver m1 m2 e :
  cleaned now m1 m2 →
  cleaned now (process_event deliver now m1 e).1 (process_event deliver now m2 e).1 ∧
  (process_event deliver now m1 e).2 = (process_event deliver now m2 e).2.
Proof.
  intros Hc. pose proof (cleaned_recent now now m1 m2 (dedup_key e) Hc ltac:(lia)) as Hrec.
  pose proof Hc as [Hw Hmin Hurl Hwin Hf Hd Hx Hcache].
  assert (cleaned now (m1 <| alerts_dropped ::= λ n, add64 n 1 |>)
                      (m2 <| alerts_dropped ::= λ n, add64 n 1 |>)) as Hdrop
    by (split; simpl; congruence || done).
  unfold process_event. rewrite Hmin. destruct (is_alertable e); [|done]. simpl negb. cbv iota.
  destruct (_ <? _); [done|].
  fold (recently_seen now m1 (dedup_key e)) (recently_seen now m2 (dedup_key e)).
  rewrite Hrec. destruct (recently_seen now m2 (dedup_key e)); [done|].
  assert (cleaned now (m1 <| dedup_cache ::= <[dedup_key e := now]> |>)
                      (m2 <| dedup_cache ::= <[dedup_key e := now]> |>)) as Hins.
  { split; simpl; try done. intros k. rewrite !lookup_insert. case_decide; [by left|apply Hcache]. }
  change (webhooks (m1 <| dedup_cache ::= _ |>)) with (webhooks m1).
  change (webhooks (m2 <| dedup_cache ::= _ |>)) with (webhooks m2). rewrite Hw.
  case_bool_decide; simpl.
  - split; [|done]. by destruct Hins; split; simpl in *; congruence || done.
  - split; [|done]. by apply cleaned_forward.
Qed.

Lemma cleaned_cleanup now m1 m2 :
  cleaned now m1 m2 → cleaned now (cleanup_dedup_cache now m1) m2.
Proof.
  intros Hc. pose proof Hc as [Hw Hmin Hurl Hwin Hf Hd Hx Hcache]. split; simpl; try done.
  intros k. rewrite map_lookup_filter.
  destruct (Hcache k) as [->|(-> & Ht)]; [|by right].
  destruct (dedup_cache m2 !! k) as [t|] eqn:Hk; simpl; [|by left].
  case_guard as Hg; simpl; [by left|right]. split; [done|].
  exists t. split; [done|]. rewrite <-Hwin. simpl in Hg. lia.
Qed.

Definition is_event_op (o : am_op) : Prop := match o with OpEvent _ _ => True | OpCleanup _ => False end.
Global Instance is_event_op_dec o : Decision (is_event_op o).
Proof. destruct o; simpl; apply _. Defined.

Lemma cleaned_run now deliver os m1 m2 :
  cleaned now m1 m2 → in_time_order now os →
  (run_ops deliver m1 os).2 = (run_ops deliver m2 (filter is_event_op os)).2 ∧
  ∃ now', cleaned now' (run_ops deliver m1 os).1 (run_ops deliver m2 (filter is_event_op os)).1.
Proof.
  revert now m1 m2. induction os as [|o os IH]; intros now m1 m2 Hc Hord; [simpl; eauto|].
  apply StronglySorted_inv in Hord as [Hord Hle]. simpl in Hord, Hle.
  apply Forall_cons in Hle as [Hno _].
  rewrite filter_cons. destruct o as [t e|t]; case_decide as Ho; simpl in Ho; try done; simpl.
  - pose proof (cleaned_process t deliver m1 m2 e (cleaned_later _ _ _ _ Hc Hno)) as [Hc' Hp].
    destruct (process_event deliver t m1 e) as [m1' p1], (process_event deliver t m2 e) as [m2' p2].
    simpl in *. subst p2. destruct (IH _ _ _ Hc' Hord) as [Hout Hend].
    destruct (run_ops deliver m1' os), (run_ops deliver m2' (filter _ os)). simpl in *. by subst.
  - pose proof (cleaned_cleanup _ _ _ (cleaned_later _ _ _ _ Hc Hno)) as Hc'.
    destruct (IH _ _ _ Hc' Hord) as [Hout Hend].
    simpl in *. by destruct (run_ops deliver (cleanup_dedup_cache t m1) os).
Qed.

(** [cleanup_dedup_cache] is invisible: interspersing cleanups anywhere in
    a run, in time order, changes neither which event is posted to which
    webhooks nor any counter. *)
Theorem cleanup_invisible deliver now m os :
  in_time_order now os →
  let with_cleanups := run_ops deliver m os in
  let without := run_ops deliver m (filter is_event_op os) in
  with_cleanups.2 = without.2 ∧
  alerts_forwarded with_cleanups.1 = alerts_forwarded without.1 ∧
  alerts_dropped with_cleanups.1 = alerts_dropped without.1 ∧
  delivery_failures with_cleanups.1 = delivery_failures without.1.
Proof.
  intros Hord with_cleanups without.
  assert (cleaned now m m) as Hc by (split; try done; by left).
  destruct (cleaned_run now deliver os m m Hc Hord) as [? [? []]]. done.
Qed.

Lemma forward_all_min deliver a ws m s :
  with_min_severity (forward_all deliver m a ws) s =
    forward_all deliver (with_min_severity m s) a ws ∧
  am_min_severity (forward_all deliver m a ws) = am_min_severity m.
Proof.
  revert m. induction ws as [|w ws IH]; intros m; [done|]. simpl.
  change (build_webhook_payload (with_min_severity m s) a w) with (build_webhook_payload m a w).
  destruct (deliver w _);
    match goal with |- context [with_min_severity (forward_all _ ?x _ _) _] => exact (IH x) end.
Qed.

(** Whatever the minimum is set to below [Warning], an event fares alike. *)
Lemma process_low_severity deliver t m e s :
  severity_rank s ≤ severity_rank Warning → am_min_severity m = s →
  let r := process_event deliver t m e in
  let r' := process_event deliver t (with_min_severity m Warning) e in
  r.2 = r'.2 ∧ with_min_severity r.1 Warning = r'.1 ∧ am_min_severity r.1 = s ∧
  (severity_rank (severity e) < severity_rank Warning → r.2 = []).
Proof.
  intros Hs Hm. unfold process_event. rewrite is_alertable_rank.
  destruct (Z.leb_spec (severity_rank Warning) (severity_rank (severity e))) as [Hle|Hlt];
    [|by simpl].
  change (am_min_severity (with_min_severity m Warning)) with Warning. rewrite Hm.
  assert ((severity_rank (severity e) <? severity_rank s) = false) as -> by (apply Z.ltb_ge; lia).
  assert ((severity_rank (severity e) <? severity_rank Warning) = false) as ->
    by (apply Z.ltb_ge; lia).
  simpl negb. cbv iota.
  change (dedup_cache (with_min_severity m Warning)) with (dedup_cache m).
  change (dedup_window (with_min_severity m Warning)) with (dedup_window m).
  destruct (match dedup_cache m !! dedup_key e with Some _ => _ | None => _ end);
    [by split_and!; try done; lia|].
  simpl webhooks. case_bool_decide; simpl; [by split_and!; try done; lia|].
  match goal with |- context [forward_all _ ?x ?a ?ws] =>
    destruct (forward_all_min deliver a ws x Warning) as [-> ->] end.
  split_and!; try done. simpl in Hle. lia.
Qed.

Lemma run_low_severity deliver os m s :
  severity_rank s ≤ severity_rank Warning → am_min_severity m = s →
  (run_ops deliver m os).2 = (run_ops deliver (with_min_severity m Warning) os).2 ∧
  Forall (λ x, severity_rank (severity x.1.2) < severity_rank Warning → x.2 = [])
    (run_ops deliver m os).2.
Proof.
  intros Hs. revert m. induction os as [|o os IH]; intros m Hm; [simpl; auto|].
  destruct o as [t e|t]; simpl.
  - destruct (process_low_severity deliver t m e s Hs Hm) as (Hout & Hst & Hmin & Hlow).
    destruct (process_event deliver t m e) as [m2 p],
      (process_event deliver t (with_min_severity m Warning) e) as [m3 p'].
    simpl in *. subst. destruct (IH m2 Hmin) as [IH1 IH2].
    destruct (run_ops deliver m2 os), (run_ops deliver (with_min_severity m2 Warning) os).
    simpl in *. subst. split; [done|]. by constructor.
  - destruct (IH (cleanup_dedup_cache t m) Hm) as [IH1 IH2].
    change (cleanup_dedup_cache t (with_min_severity m Warning))
      with (with_min_severity (cleanup_dedup_cache t m) Warning).
    by destruct (run_ops deliver (cleanup_dedup_cache t m) os),
      (run_ops deliver (with_min_severity (cleanup_dedup_cache t m) Warning) os).
Qed.

(** The global minimum severity does nothing below [Warning]: informational
    events are never posted whatever it is set to, and a manager set to [Info]
    or [Notice] posts exactly what one set to [Warning] posts. *)
Theorem low_severity_never_posted deliver m os s :
  severity_rank s ≤ severity_rank Warning →
  (run_ops deliver (with_min_severity m s) os).2 =
    (run_ops deliver (with_min_severity m Warning) os).2 ∧
  Forall (λ x, severity_rank (severity x.1.2) < severity_rank Warning → x.2 = [])
    (run_ops deliver (with_min_severity m s) os).2.
Proof. intros Hs. by apply (run_low_severity deliver os (with_min_severity m s) s). Qed.

End alerting.

(** ** Concrete runs *)

Section alerting_runs.
#[local] Instance alerting_external : External := demo_external.

Definition demo_rfc (_ : Z) : string := "1970-01-01T00:00:00Z".
Definition demo_debug (_ : EventType) : string := "event".
Definition demo_deliver (_ : AlertManagerWebhook) (_ : WebhookPayload) : bool := true.
Definition demo_manager : AlertManager :=
  new_alert_manager [mkWebhook "pager" "http://pager" AInfo ∅ None].
Definition failed_backup (sev : Severity) : ShimEvent :=
  new_event (EX := demo_external) 1 0 "backup-shim" (BackupFailed "nightly" "disk") sev.
Definition demo_alerts : list am_op :=
  [OpEvent 0 (failed_backup Error); OpEvent 1 (failed_backup Error); OpCleanup (400 * 10 ^ 9);
   OpEvent (500 * 10 ^ 9) (failed_backup Error)].

Lemma alert_accounting_witness :
  alerts_dropped (run_ops demo_rfc demo_debug demo_deliver demo_manager demo_alerts).1 = 1.
Proof.
  destruct (run_ops demo_rfc demo_debug demo_deliver demo_manager demo_alerts) as [m' out] eqn:E.
  change (alerts_dropped m' = 1).
  rewrite (proj1 (alert_accounting demo_rfc demo_debug demo_deliver demo_manager demo_alerts m' out
                    ltac:(split; [discriminate|reflexivity]) E)).
  replace out with (run_ops demo_rfc demo_debug demo_deliver demo_manager demo_alerts).2 by (by rewrite E).
  vm_compute. reflexivity.
Defined.

Lemma demo_alerts_in_order : in_time_order 0 demo_alerts.
Proof. unfold in_time_order. simpl. repeat constructor; lia. Qed.

Lemma alerts_spaced_witness : dedup_window demo_manager ≤ 500 * 10 ^ 9 - 0.
Proof.
  refine (alerts_spaced demo_rfc demo_debug demo_deliver 0 demo_manager demo_alerts _ _ 0 2
            0 (failed_backup Error) _ (500 * 10 ^ 9) (failed_backup Error) _
            demo_alerts_in_order (surjective_pairing _) _ _ _ _ _ eq_refl).
  - lia.
  - vm_compute. reflexivity.
  - vm_compute. reflexivity.
  - discriminate.
  - discriminate.
Defined.

Lemma cleanup_invisible_witness :
  (run_ops demo_rfc demo_debug demo_deliver demo_manager demo_alerts).2 =
  (run_ops demo_rfc demo_debug demo_deliver demo_manager (filter is_event_op demo_alerts)).2.
Proof.
  exact (proj1 (cleanup_invisible demo_rfc demo_debug demo_deliver 0 demo_manager demo_alerts
                  demo_alerts_in_order)).
Defined.

Lemma low_severity_never_posted_witness :
  (run_ops demo_rfc demo_debug demo_deliver (with_min_severity demo_manager Info)
     [OpEvent 0 (failed_backup Notice)]).2 =
  (run_ops demo_rfc demo_debug demo_deliver (with_min_severity demo_manager Warning)
     [OpEvent 0 (failed_backup Notice)]).2.
Proof.
  exact (proj1 (low_severity_never_posted demo_rfc demo_debug demo_deliver demo_manager
                  [OpEvent 0 (failed_backup Notice)] Info ltac:(discriminate))).
Defined.
End alerting_runs.
