(* ===== verification/AlertLoop.v ===== *)
(** * The task of the AlertManager integration ([shim-core/src/alerting.rs])

    [AlertManager::start] and [stop] around the operations of [Alerting.v]: a task per
    start, a shutdown channel whose sender the manager keeps, and the bus of [Bus.v].  A
    turn of a task goes to the next point where others may run: it takes an event, checks
    it against the cache, records it, starts a post, or gets its answer. *)

From S2P Require Import Prelude Events Bus Alerting.

(** ** [Alert] and its builder *)

Record Alert := mkAlertRecord {
  alert_id : string;
  alert_source : string;
  alert_severity : Severity;
  alert_title : string;
  alert_message : string;
  alert_timestamp : Z;
  alert_correlation : option string;
  alert_labels : gmap string string
}.
#[export] Instance Alert_settable : Settable Alert := λ a,
  mkAlertRecord (alert_id a) (alert_source a) (alert_severity a) (alert_title a) (alert_message a) (alert_timestamp a)
    (alert_correlation a) (alert_labels a).
Definition new_alert (new_id : string) (now : Z) (src : string) (s : Severity) (title message : string) : Alert :=
  mkAlertRecord new_id src s title message now None ∅.
Definition with_correlation_id (a : Alert) (i : string) : Alert := a <| alert_correlation := Some i |>.
Definition with_label (a : Alert) (k v : string) : Alert := a <| alert_labels ::= <[k := v]> |>.

Section alert_loop.
Context `{EX : External} `{BC : !Broadcast ShimEvent}.
Context (to_rfc3339 : Z → string) (debug_event : EventType → string).

(** ** [send_webhook]

    [http] gives the status of the reply, if there is one; the status is not looked at. *)
Definition send_webhook `{HashOrder} (to_json : WebhookPayload → option string)
    (http : string → list (string * string) → string → option Z) (w : AlertManagerWebhook) (p : WebhookPayload) : bool :=
  match to_json p with
  | None => false
  | Some body => bool_decide (is_Some (http (wh_url w) (("Content-Type", "application/json") :: hash_iter (wh_headers w)) body))
  end.

(** ** Start, stop and the loop *)

(** Whether a post made at an instant succeeds *)
Context (deliver : Z → AlertManagerWebhook → WebhookPayload → bool).

(** Where a task is: in the select of its loop, or inside [process_event] with an event:
    before the check of the cache; between the two locks, with the instant of the check;
    before a post, the webhooks after it still to come; and waiting for its answer *)
Inductive phase :=
| Waiting
| Checking (e : ShimEvent)
| Recording (e : ShimEvent) (checked : Z)
| Posting (e : ShimEvent) (w : AlertManagerWebhook) (rest : list AlertManagerWebhook)
| Awaiting (e : ShimEvent) (w : AlertManagerWebhook) (rest : list AlertManagerWebhook).
(** A task: its receiver, whether its shutdown channel was written to or lost its sender,
    whether it still runs, and where it is *)
Record task := mkTask { t_rx : receiver; t_told : bool; t_running : bool; t_phase : phase }.
#[local] Instance task_settable : Settable task := λ t, mkTask (t_rx t) (t_told t) (t_running t) (t_phase t).
(** An insertion into the cache and a post, as they are observed *)
Record recording := mkRecording { r_task : nat; r_event : ShimEvent; r_checked : Z; r_at : Z }.
Record posting := mkPosting { p_at : Z; p_task : nat; p_event : ShimEvent; p_webhook : AlertManagerWebhook }.
(** The bus, the manager, the tasks and the one that [shutdown_tx] belongs to; and, as a
    trace, the events taken up, the insertions into the cache, and the posts *)
Record am_system := mkSystem {
  s_bus : ShimBus;
  s_manager : AlertManager;
  s_tasks : list task;
  shutdown_tx : option nat;
  s_taken : list (nat * ShimEvent);
  s_recorded : list recording;
  s_posted : list posting
}.
#[local] Instance am_system_settable : Settable am_system := λ s,
  mkSystem (s_bus s) (s_manager s) (s_tasks s) (shutdown_tx s) (s_taken s) (s_recorded s) (s_posted s).
Definition am_init (b : ShimBus) (m : AlertManager) : am_system := mkSystem b m [] None [] [] [].

Definition tell (k : option nat) (s : am_system) : am_system :=
  match k with Some k => s <| s_tasks ::= alter (λ t, t <| t_told := true |>) k |> | None => s end.
(** [start]: the sender that is replaced is dropped. *)
Definition am_start (s : am_system) : am_system :=
  let rx := subscribe (tx (s_bus s)) in
  (tell (shutdown_tx s) s) <| shutdown_tx := Some (length (s_tasks s)) |>
    <| s_tasks ::= λ l, l ++ [mkTask rx false true Waiting] |>.
Definition am_stop (s : am_system) : am_system := (tell (shutdown_tx s) s) <| shutdown_tx := None |>.

Definition set_task (k : nat) (t : task) (s : am_system) : am_system := s <| s_tasks ::= <[k := t]> |>.
Definition move (k : nat) (t : task) (p : phase) (s : am_system) : am_system := set_task k (t <| t_phase := p |>) s.
(** The select of the loop: the shutdown comes first.  [None]: the task waits. *)
Definition take_up (k : nat) (t : task) (s : am_system) : option am_system :=
  if t_told t then Some (set_task k (t <| t_running := false |>) s)
  else
    '(r, rx) ← recv (tx (s_bus s)) (t_rx t);
    let t := t <| t_rx := rx |> in
    Some match r with
    | Received e => (move k t (Checking e) s) <| s_taken ::= λ l, l ++ [(k, e)] |>
    | Lagged _ => set_task k t s
    | Closed => set_task k (t <| t_running := false |>) s
    end.
Definition drop_alert (m : AlertManager) : AlertManager := m <| alerts_dropped ::= λ n, add64 n 1 |>.
(** The next webhook of the loop over those that take the event *)
Definition next_post (e : ShimEvent) (ws : list AlertManagerWebhook) : phase :=
  match ws with [] => Waiting | w :: rest => Posting e w rest end.
(** One stretch of [process_event], at the instant [now] *)
Definition handle (now : Z) (k : nat) (t : task) (s : am_system) : am_system :=
  let m := s_manager s in
  match t_phase t with
  | Waiting => s
  | Checking e =>
      if negb (passes_filter m e) || recently_seen now m (dedup_key e)
      then (move k t Waiting s) <| s_manager ::= drop_alert |>
      else move k t (Recording e now) s
  | Recording e checked =>
      let s := s <| s_manager := m <| dedup_cache ::= <[dedup_key e := now]> |> |>
                 <| s_recorded ::= λ l, l ++ [mkRecording k e checked now] |> in
      if bool_decide (takers m e = []) then (move k t Waiting s) <| s_manager ::= drop_alert |>
      else move k t (next_post e (takers m e)) s
  | Posting e w rest =>
      (move k t (Awaiting e w rest) s) <| s_posted ::= λ l, l ++ [mkPosting now k e w] |>
  | Awaiting e w rest =>
      (move k t (next_post e rest) s) <| s_manager :=
        if deliver now w (build_webhook_payload m (event_to_alert to_rfc3339 debug_event e) w)
        then m <| alerts_forwarded ::= λ n, add64 n 1 |> else m <| delivery_failures ::= λ n, add64 n 1 |> |>
  end.
(** A turn of the task [k] at the instant [now].  [None]: it is over, or waits. *)
Definition am_turn (now : Z) (k : nat) (s : am_system) : option am_system :=
  t ← s_tasks s !! k;
  if negb (t_running t) then None
  else match t_phase t with Waiting => take_up k t s | _ => Some (handle now k t s) end.
Inductive am_event := EvPublish (e : ShimEvent) | EvStart | EvStop | EvTurn (now : Z) (k : nat) | EvCleanup (now : Z).
Definition am_apply (s : am_system) (v : am_event) : am_system :=
  match v with
  | EvPublish e => s <| s_bus ::= λ b, (publish b e).2 |>
  | EvStart => am_start s
  | EvStop => am_stop s
  | EvTurn now k => default s (am_turn now k s)
  | EvCleanup now => s <| s_manager ::= cleanup_dedup_cache now |>
  end.
Definition am_exec (vs : list am_event) (s : am_system) : am_system := foldl am_apply s vs.

(** The clock that the turns and the cleanups read does not go back. *)
Fixpoint clock_from (t : Z) (vs : list am_event) : Prop :=
  match vs with
  | [] => True
  | (EvTurn now _ | EvCleanup now) :: vs => t ≤ now ∧ clock_from now vs
  | _ :: vs => clock_from t vs
  end.

(** ** The events taken up are those published, in order *)

Definition listening (t : task) : bool := t_running t && negb (t_told t).
(** Every task has a receiver of the bus; a task that listens is the one of the sender,
    and has still to see the events behind those handled. *)
Definition tasks_inv (s : am_system) (handled new : list ShimEvent) : Prop :=
  ∀ k t, s_tasks s !! k = Some t →
    live (tx (s_bus s)) (t_rx t) ∧
    (listening t = true → shutdown_tx s = Some k ∧ ∃ seen, new = seen ++ backlog (tx (s_bus s)) (t_rx t) ∧ handled `sublist_of` seen).
Definition am_inv (old : list ShimEvent) (s : am_system) : Prop :=
  ∃ new, sent (tx (s_bus s)) = old ++ new ∧ (s_taken s).*2 `sublist_of` new ∧ tasks_inv s (s_taken s).*2 new.

Lemma tasks_inv_tell s h n : tasks_inv s h n → tasks_inv ((tell (shutdown_tx s) s) <| shutdown_tx := None |>) h n ∧
  ∀ k t, s_tasks (tell (shutdown_tx s) s) !! k = Some t → listening t = false.
Proof.
  intros Hi. assert (∀ k t, s_tasks (tell (shutdown_tx s) s) !! k = Some t →
    live (tx (s_bus s)) (t_rx t) ∧ listening t = false) as H.
  { intros k t. unfold tell. destruct (shutdown_tx s) as [k'|] eqn:E; simpl.
    - destruct (decide (k = k')) as [->|].
      + rewrite list_lookup_alter_eq. destruct (s_tasks s !! k') as [t'|] eqn:Ht; [|done]. intros [= <-]. simpl.
        split; [by eapply Hi|]. unfold listening. simpl. by rewrite andb_false_r.
      + rewrite list_lookup_alter_ne by done. intros Ht. destruct (Hi _ _ Ht) as [Hl Hc]. split; [done|].
        destruct (listening t); [|done]. destruct (Hc eq_refl) as [E' _]. congruence.
    - intros Ht. destruct (Hi _ _ Ht) as [Hl Hc]. split; [done|]. destruct (listening t); [|done]. destruct (Hc eq_refl) as [E' _]. congruence. }
  split; [|intros k t Hk; by apply (H k t)]. intros k t Ht. simpl in *. destruct (H _ _ Ht) as [Hl ->].
  unfold tell in *. destruct (shutdown_tx s); by split.
Qed.
Lemma tell_frame k s : s_bus (tell k s) = s_bus s ∧ s_manager (tell k s) = s_manager s ∧
  s_taken (tell k s) = s_taken s ∧ s_recorded (tell k s) = s_recorded s ∧ s_posted (tell k s) = s_posted s ∧
  length (s_tasks (tell k s)) = length (s_tasks s).
Proof. destruct k; simpl; [by rewrite length_alter|done]. Qed.
Lemma tell_phase k s i : t_phase <$> s_tasks (tell k s) !! i = t_phase <$> s_tasks s !! i.
Proof.
  destruct k as [k|]; [|done]. simpl. destruct (decide (i = k)) as [->|].
  - rewrite list_lookup_alter_eq. by destruct (s_tasks s !! k).
  - by rewrite list_lookup_alter_ne.
Qed.

Lemma am_inv_publish old s e : am_inv old s → am_inv old (am_apply s (EvPublish e)).
Proof.
  intros (new & Hs & Hsub & Ht). exists (new ++ [with_sequence e (publish (s_bus s) e).1]).
  cbn [am_apply].
  change (tx (s_bus _)) with (send (tx (s_bus s)) (with_sequence e (publish (s_bus s) e).1)).
  rewrite sent_send, Hs, app_assoc. split; [done|]. split; [by apply sublist_inserts_r|].
  intros k t Hk. destruct (Ht k t Hk) as [Hl Hc]. split; [by apply live_send|].
  intros Hli. destruct (Hc Hli) as (Hx & seen & -> & Hsn). split; [done|]. exists seen.
  split; [|done]. etransitivity; [|exact (f_equal (app seen) (eq_sym (backlog_send _ _ _ Hl)))]. by rewrite app_assoc.
Qed.
Lemma am_inv_stop old s : am_inv old s → am_inv old (am_stop s).
Proof.
  intros (new & Hs & Hsub & Ht). exists new. destruct (tell_frame (shutdown_tx s) s) as (Eb & _ & Et & _).
  unfold am_stop. simpl. rewrite Et. split_and!; [by rewrite Eb|done|by apply tasks_inv_tell].
Qed.
Lemma am_inv_start old s : am_inv old s → am_inv old (am_start s).
Proof.
  intros (new & Hs & Hsub & Ht). exists new. destruct (tell_frame (shutdown_tx s) s) as (Eb & _ & Et & _ & _ & El).
  destruct (tasks_inv_tell s _ _ Ht) as [Ht' Hq].
  assert (s_bus (am_start s) = s_bus s) as Eb' by done.
  assert (s_taken (am_start s) = s_taken s) as Et' by done.
  rewrite Eb', Et'. split_and!; [done|done|].
  intros k t. rewrite Eb'. simpl. rewrite lookup_app_Some, El. intros [Hk|[Hk Hk']].
  - destruct (Ht' k t Hk) as [Hl _]. simpl in Hl. rewrite Eb in Hl. split; [done|]. by rewrite (Hq k t Hk).
  - rewrite list_lookup_singleton in Hk'. destruct (k - length _)%nat eqn:E; [|done]. injection Hk' as <-.
    split; [apply live_subscribe|]. intros _. split; [f_equal; lia|]. exists new. simpl.
    by rewrite backlog_subscribe, app_nil_r.
Qed.
(** Only one task has moved on, and it sees less of the bus or as much. *)
Lemma tasks_inv_moved s k t t' h h' new :
  tasks_inv s h new → s_tasks s !! k = Some t → live (tx (s_bus s)) (t_rx t') →
  (listening t' = true → listening t = true ∧ ∃ seen, new = seen ++ backlog (tx (s_bus s)) (t_rx t') ∧ h' `sublist_of` seen) →
  (h' = h ∨ listening t = true) →
  tasks_inv (set_task k t' s) h' new.
Proof.
  intros Hi Hk Hl Hseen Hh k' u. simpl. destruct (decide (k' = k)) as [->|].
  - rewrite list_lookup_insert_eq by (by eapply lookup_lt_Some). intros [= <-]. split; [done|].
    intros Hli. destruct (Hseen Hli) as [Hli' ?]. destruct (Hi k t Hk) as [_ Hc]. destruct (Hc Hli') as [? _]. by split.
  - rewrite list_lookup_insert_ne by done. intros Hk'. destruct (Hi k' u Hk') as [Hl' Hc']. split; [done|].
    intros Hli'. destruct (Hc' Hli') as [E Hs]. destruct Hh as [->|Hli]; [by split|].
    destruct (Hi k t Hk) as [_ Hc]. destruct (Hc Hli) as [E' _]. congruence.
Qed.
(** [handle] changes the task's place and the trace, not the bus or the receivers. *)
Lemma handle_shape now k t s :
  t_phase t ≠ Waiting →
  ∃ p, s_tasks (handle now k t s) = <[k := t <| t_phase := p |>]> (s_tasks s) ∧
  s_bus (handle now k t s) = s_bus s ∧ shutdown_tx (handle now k t s) = shutdown_tx s ∧
  s_taken (handle now k t s) = s_taken s.
Proof.
  unfold handle. destruct (t_phase t) as [|e|e c|e w ws|e w ws]; [done|..]; intros _.
  - case_match; by eexists.
  - case_bool_decide; by eexists.
  - by eexists.
  - by eexists.
Qed.
Lemma am_inv_turn old now k s s' : am_inv old s → am_turn now k s = Some s' → am_inv old s'.
Proof.
  intros (new & Hs & Hsub & Ht). unfold am_turn. destruct (s_tasks s !! k) as [t|] eqn:Hk; [|done]. simpl.
  destruct (t_running t) eqn:Hrun; [|done]. simpl. destruct (Ht k t Hk) as [Hl Hc].
  assert (t_phase t = Waiting ∨ t_phase t ≠ Waiting) as [Hp|Hp] by (destruct (t_phase t); auto).
  2:{ intros H. assert (s' = handle now k t s) as -> by (destruct (t_phase t); congruence).
      destruct (handle_shape now k t s Hp) as (p & E1 & E2 & E3 & E4). exists new. rewrite E2, E4. split_and!; [done..|].
      assert (tasks_inv (set_task k (t <| t_phase := p |>) s) (s_taken s).*2 new) as Hm.
      { apply (tasks_inv_moved s k t _ (s_taken s).*2); [done..| |by left].
        intros Hli. change (listening t = true) in Hli. split; [done|]. by destruct (Hc Hli) as [_ ?]. }
      intros k' t'. rewrite E1, E2, E3. apply Hm. }
  rewrite Hp. unfold take_up. destruct (t_told t) eqn:Htold.
  { intros [= <-]. exists new. split_and!; [done..|]. by apply (tasks_inv_moved s k t _ (s_taken s).*2); [..|left]. }
  assert (listening t = true) as Hli by (unfold listening; by rewrite Hrun, Htold).
  destruct (Hc Hli) as (_ & seen & Hnew & Hsn).
  destruct (backlog (tx (s_bus s)) (t_rx t)) as [|e rest] eqn:Hb; [by rewrite recv_empty|].
  destruct (recv_next _ _ _ _ Hl Hb) as [(rx & -> & Hl' & Hb')|(n & rx & -> & Hl' & _ & Hb')]; simpl; intros [= <-].
  - exists new. assert ((s_taken s).*2 ++ [e] `sublist_of` seen ++ [e]) as Hsn' by by apply sublist_app.
    assert (new = (seen ++ [e]) ++ rest) as Hn by by rewrite <-app_assoc.
    simpl. rewrite fmap_app. simpl. split_and!; [done|rewrite Hn; by apply sublist_inserts_r|].
    assert (tasks_inv (set_task k (t <| t_rx := rx |> <| t_phase := Checking e |>) s) ((s_taken s).*2 ++ [e]) new) as Hm; [|exact Hm].
    apply (tasks_inv_moved s k t _ (s_taken s).*2); [done..| |by right]. intros _. split; [done|]. exists (seen ++ [e]).
    simpl. by rewrite Hb'.
  - exists new. split_and!; [done..|].
    apply (tasks_inv_moved s k t _ (s_taken s).*2); [done..| |by left]. intros _. split; [done|].
    exists (seen ++ take (Z.to_nat n) (e :: rest)). simpl. rewrite Hb', <-app_assoc, take_drop.
    split; [done|]. by apply sublist_inserts_r.
Qed.
Lemma am_inv_step old s v : am_inv old s → am_inv old (am_apply s v).
Proof.
  intros Hi. destruct v as [e| | |now k|now].
  - by apply am_inv_publish.
  - by apply am_inv_start.
  - by apply am_inv_stop.
  - simpl. destruct (am_turn now k s) eqn:E; [by eapply am_inv_turn|done].
  - done.
Qed.
Lemma am_inv_exec old vs s : am_inv old s → am_inv old (am_exec vs s).
Proof. revert s. induction vs as [|v vs IH]; intros s Hi; [done|]. by apply IH, am_inv_step. Qed.
Lemma am_init_inv b m : am_inv (sent (tx b)) (am_init b m).
Proof. exists []. split_and!; [by rewrite app_nil_r|constructor|]. by intros k t. Qed.

(** ** Deduplication *)

(** The earlier of two recordings of a key is a window before the check of the later one,
    or that check was made not later than the earlier recording, by another task. *)
Definition apart (w : Z) (r1 : recording) (k2 : nat) (c2 : Z) : Prop :=
  w ≤ c2 - r_at r1 ∨ (c2 ≤ r_at r1 ∧ r_task r1 ≠ k2).
Definition apart_from_all (w : Z) (s : am_system) (k : nat) (e : ShimEvent) (c : Z) : Prop :=
  ∀ r, r ∈ s_recorded s → dedup_key (r_event r) = dedup_key e → apart w r k c.
Record dedup_inv (w now : Z) (s : am_system) : Prop := {
  dd_window : dedup_window (s_manager s) = w;
  dd_remembers : ∀ r, r ∈ s_recorded s →
    r_checked r ≤ r_at r ≤ now ∧ remembers (dedup_key (r_event r)) (r_at r) now (s_manager s);
  dd_between : ∀ k t e c, s_tasks s !! k = Some t → t_phase t = Recording e c →
    c ≤ now ∧ apart_from_all w s k e c;
  dd_pairs : ∀ i j r1 r2, (i < j)%nat → s_recorded s !! i = Some r1 → s_recorded s !! j = Some r2 →
    dedup_key (r_event r1) = dedup_key (r_event r2) → apart w r1 (r_task r2) (r_checked r2)
}.

Lemma remembers_later k t now now' m : remembers k t now m → now ≤ now' → remembers k t now' m.
Proof. intros [?|?] ?; [by left|right; lia]. Qed.
Lemma remembers_same k t now m m' :
  dedup_cache m' = dedup_cache m → dedup_window m' = dedup_window m → remembers k t now m → remembers k t now m'.
Proof. unfold remembers. by intros -> ->. Qed.
Lemma remembers_insert k k' t now m :
  remembers k t now m → t ≤ now → remembers k t now (m <| dedup_cache ::= <[k' := now]> |>).
Proof.
  intros [(t' & Hk & Ht)|Hw] Hle; [|by right]. left. simpl. rewrite lookup_insert. case_decide; [|by exists t'].
  by exists now.
Qed.
(** A key that is not recently seen was last recorded a window ago. *)
Lemma not_seen_apart k t now m :
  remembers k t now m → t ≤ now → recently_seen now m k = false → dedup_window m ≤ now - t.
Proof.
  intros [(t' & Hk & Ht)|Hw] Hle Hs; [|done]. unfold recently_seen in Hs. rewrite Hk in Hs. bool_prop.
  unfold saturating_sub in Hs. lia.
Qed.

(** Steps that record nothing and put no task between the locks *)
Lemma dedup_inv_frame w now now' s s' :
  dedup_inv w now s → now ≤ now' → s_recorded s' = s_recorded s →
  dedup_cache (s_manager s') = dedup_cache (s_manager s) → dedup_window (s_manager s') = dedup_window (s_manager s) →
  (∀ k t' e c, s_tasks s' !! k = Some t' → t_phase t' = Recording e c →
     ∃ t, s_tasks s !! k = Some t ∧ t_phase t = Recording e c) →
  dedup_inv w now' s'.
Proof.
  intros [Hw Hr Hb Hp] Hle Er Ec Ew Ht. split; [by rewrite Ew| | |by rewrite Er].
  - rewrite Er. intros r Hin. destruct (Hr r Hin) as [? Hm]. split; [lia|].
    eapply remembers_same; [done..|]. by eapply remembers_later.
  - intros k t' e c Hk He. destruct (Ht k t' e c Hk He) as (t & Hk' & He'). destruct (Hb k t e c Hk' He') as [? Ha].
    split; [lia|]. unfold apart_from_all. by rewrite Er.
Qed.
Lemma dedup_inv_later w now now' s : dedup_inv w now s → now ≤ now' → dedup_inv w now' s.
Proof. intros Hi Hle. eapply dedup_inv_frame; [done..|]. by eauto. Qed.
(** A task changes; it is not between the locks then. *)
Lemma set_task_phase k t' s i u e c :
  (∀ e c, t_phase t' ≠ Recording e c) → s_tasks (set_task k t' s) !! i = Some u → t_phase u = Recording e c →
  ∃ t, s_tasks s !! i = Some t ∧ t_phase t = Recording e c.
Proof.
  intros Hne. simpl. intros [(-> & <- & _)|[? Hi]]%list_lookup_insert_Some Hu; [by destruct (Hne e c)|by exists u].
Qed.
Lemma next_post_phase e ws e' c : next_post e ws ≠ Recording e' c.
Proof. by destruct ws. Qed.

Lemma dedup_inv_check w now k t s e :
  dedup_inv w now s → recently_seen now (s_manager s) (dedup_key e) = false →
  dedup_inv w now (move k t (Recording e now) s).
Proof.
  intros [Hw Hr Hb Hp] Hs. split; [done|done| |done].
  intros k' u e' c. simpl. intros [(-> & <- & _)|[? Hk]]%list_lookup_insert_Some.
  - intros [= <- <-]. split; [lia|]. intros r Hin Hke. left. destruct (Hr r Hin) as [? Hm]. rewrite Hke in Hm.
    rewrite <-Hw. apply (not_seen_apart (dedup_key e)); [done|lia|done].
  - apply (Hb k' u e' c Hk).
Qed.
(** Inserting into the cache and recording it *)
Definition recorded_at (now : Z) (k : nat) (e : ShimEvent) (c : Z) (s : am_system) : am_system :=
  s <| s_manager ::= λ m, m <| dedup_cache ::= <[dedup_key e := now]> |> |>
    <| s_recorded ::= λ l, l ++ [mkRecording k e c now] |>.
Lemma dedup_inv_record w now k t s e c p :
  dedup_inv w now s → s_tasks s !! k = Some t → t_phase t = Recording e c → (∀ e c, p ≠ Recording e c) →
  dedup_inv w now (move k t p (recorded_at now k e c s)).
Proof.
  intros [Hw Hr Hb Hp] Hk Ht Hne. destruct (Hb k t e c Hk Ht) as [Hc Ha]. split; [done|..].
  - intros r [Hin|Hin]%elem_of_app.
    + destruct (Hr r Hin) as [? Hm]. split; [done|]. apply remembers_insert; [done|lia].
    + apply list_elem_of_singleton in Hin as ->. split; [simpl; lia|]. left. exists now. simpl.
      by rewrite lookup_insert_eq.
  - intros k' u e' c'. simpl. intros [(-> & <- & _)|[Hkk Hk']]%list_lookup_insert_Some Hu; [by destruct (Hne e' c')|].
    destruct (Hb k' u e' c' Hk' Hu) as [? Ha']. split; [done|].
    intros r [Hin|Hin]%elem_of_app; [by apply Ha'|]. apply list_elem_of_singleton in Hin as ->. intros _. by right.
  - intros i j r1 r2 Hij. simpl. rewrite !lookup_app_Some. intros [Hi|[Hi Hi']] [Hj|[Hj Hj']] Hke.
    + by apply (Hp i j).
    + apply list_lookup_singleton_Some in Hj' as [_ <-]. apply Ha; [by eapply list_elem_of_lookup_2|done].
    + apply lookup_lt_Some in Hj. lia.
    + apply list_lookup_singleton_Some in Hi' as [? _]. apply list_lookup_singleton_Some in Hj' as [? _]. lia.
Qed.
Lemma dedup_inv_handle w now k t s :
  dedup_inv w now s → s_tasks s !! k = Some t → dedup_inv w now (handle now k t s).
Proof.
  intros Hi Hk. unfold handle. destruct (t_phase t) as [|e|e c|e wh ws|e wh ws] eqn:Hp; [done|..].
  - destruct (passes_filter _ e) eqn:Hf; simpl; [destruct (recently_seen _ _ _) eqn:Hs; [|by apply dedup_inv_check]|].
    all: apply (dedup_inv_frame w now now s); try done; intros i u e' c'; by apply set_task_phase.
  - pose proof (dedup_inv_record w now k t s e c) as H. case_bool_decide.
    + apply (dedup_inv_frame w now now (move k t Waiting (recorded_at now k e c s))); [by apply H|done..|by eauto].
    + apply (H _ Hi Hk Hp (next_post_phase e _)).
  - apply (dedup_inv_frame w now now s); try done; intros i u e' c'; by apply set_task_phase.
  - apply (dedup_inv_frame w now now s); try done.
    1,2: simpl; by case_match.
    intros i u e' c'; apply set_task_phase, next_post_phase.
Qed.
Lemma am_turn_cases now k s s' t :
  s_tasks s !! k = Some t → am_turn now k s = Some s' →
  (t_phase t = Waiting ∧ take_up k t s = Some s') ∨ (t_phase t ≠ Waiting ∧ s' = handle now k t s).
Proof. intros Hk. unfold am_turn. rewrite Hk. simpl. destruct (t_running t); [|done]. destruct (t_phase t); naive_solver. Qed.
(** Taking up an event: the task waits on, has ended, or is to check an event. *)
Lemma take_up_shape k t s s' :
  t_phase t = Waiting → take_up k t s = Some s' →
  ∃ t', s_tasks s' = <[k := t']> (s_tasks s) ∧ s_manager s' = s_manager s ∧ s_recorded s' = s_recorded s ∧
    s_posted s' = s_posted s ∧
    ((t_phase t' = Waiting ∧ s_taken s' = s_taken s) ∨
     ∃ e, t_phase t' = Checking e ∧ s_taken s' = s_taken s ++ [(k, e)] ∧ t_told t = false).
Proof.
  intros Hp. unfold take_up. destruct (t_told t).
  { intros [= <-]. eexists. split_and!; [done..|]. by left. }
  destruct (recv _ _) as [[[e|n|] rx]|]; simpl; intros [= <-]; eexists; split_and!; try done.
  - right. by exists e.
  - by left.
  - by left.
Qed.
Lemma dedup_inv_step w now s v vs :
  dedup_inv w now s → clock_from now (v :: vs) → ∃ now', dedup_inv w now' (am_apply s v) ∧ clock_from now' vs.
Proof.
  intros Hi Hc. destruct v as [e| | |t k|t]; simpl in Hc.
  - exists now. split; [|done]. eapply dedup_inv_frame; [done..|]. by eauto.
  - exists now. split; [|done]. destruct (tell_frame (shutdown_tx s) s) as (_ & Em & _ & Er & _).
    apply (dedup_inv_frame w now now s); simpl; rewrite ?Em, ?Er; try done.
    intros k t' e c. rewrite lookup_app_Some. intros [Hk|[_ Hk]] Hp.
    + pose proof (tell_phase (shutdown_tx s) s k) as E. rewrite Hk in E. simpl in E.
      destruct (s_tasks s !! k) as [u|]; [|done]. injection E as E. exists u. by rewrite <-E.
    + apply list_lookup_singleton_Some in Hk as [_ <-]. done.
  - exists now. split; [|done]. destruct (tell_frame (shutdown_tx s) s) as (_ & Em & _ & Er & _).
    apply (dedup_inv_frame w now now s); simpl; rewrite ?Em, ?Er; try done.
    intros k t' e c Hk Hp. pose proof (tell_phase (shutdown_tx s) s k) as E. simpl in Hk. rewrite Hk in E. simpl in E.
    destruct (s_tasks s !! k) as [u|]; [|done]. injection E as E. exists u. by rewrite <-E.
  - destruct Hc as [Hle Hc]. exists t. split; [|done]. pose proof (dedup_inv_later w now t s Hi Hle) as Ht. simpl.
    destruct (am_turn t k s) as [s'|] eqn:E; [|done]. simpl.
    destruct (s_tasks s !! k) as [u|] eqn:Hk; [|unfold am_turn in E; by rewrite Hk in E].
    destruct (am_turn_cases t k s s' u Hk E) as [[Hp Hu]|[_ ->]]; [|by apply dedup_inv_handle].
    destruct (take_up_shape k u s s' Hp Hu) as (t' & Et & Em & Er & _ & Hp').
    apply (dedup_inv_frame w t t s); [done|lia|done|by rewrite Em|by rewrite Em|].
    intros i x e c. rewrite Et. apply (set_task_phase k t' s). intros e' c'. by destruct Hp' as [[-> _]|(? & -> & _)].
  - destruct Hc as [Hle Hc]. exists t. split; [|done]. pose proof (dedup_inv_later w now t s Hi Hle) as [Hw Hr Hb Hp].
    split; [done| |done|done]. intros r Hin. destruct (Hr r Hin) as [[? ?] Hm]. split; [done|].
    apply (remembers_op to_rfc3339 debug_event (deliver t) _ _ t (s_manager s) (OpCleanup t)); [done|done|simpl; lia].
Qed.
Lemma dedup_inv_exec w now vs s : dedup_inv w now s → clock_from now vs → ∃ now', dedup_inv w now' (am_exec vs s).
Proof.
  revert now s. induction vs as [|v vs IH]; intros now s Hi Hc; [by exists now|].
  destruct (dedup_inv_step w now s v vs Hi Hc) as (now' & Hi' & Hc'). exact (IH _ _ Hi' Hc').
Qed.
Lemma dedup_init b m now : dedup_inv (dedup_window m) now (am_init b m).
Proof. split; [done|by intros r Hr%elem_of_nil|done|done]. Qed.

(** ** What each task records and posts *)

Definition taken_by (k : nat) (s : am_system) : list ShimEvent :=
  omap (λ x, if bool_decide (x.1 = k) then Some x.2 else None) (s_taken s).
Definition recorded_by (k : nat) (s : am_system) : list ShimEvent :=
  omap (λ r, if bool_decide (r_task r = k) then Some (r_event r) else None) (s_recorded s).
Definition posted_by (k : nat) (s : am_system) : list (ShimEvent * AlertManagerWebhook) :=
  omap (λ p, if bool_decide (p_task p = k) then Some (p_event p, p_webhook p) else None) (s_posted s).
Definition posts_of (m : AlertManager) (e : ShimEvent) : list (ShimEvent * AlertManagerWebhook) := pair e <$> takers m e.
(** What the task has still to record, and to post *)
Definition to_record (p : phase) : list ShimEvent :=
  match p with Checking e | Recording e _ => [e] | _ => [] end.
Definition to_post (p : phase) : list (ShimEvent * AlertManagerWebhook) :=
  match p with Posting e w ws => pair e <$> w :: ws | Awaiting e _ ws => pair e <$> ws | _ => [] end.
Definition phase_of (k : nat) (s : am_system) : phase := default Waiting (t_phase <$> s_tasks s !! k).

Record log_inv (m : AlertManager) (s : am_system) : Prop := {
  lg_webhooks : webhooks (s_manager s) = webhooks m;
  lg_recorded : ∀ k, recorded_by k s ++ to_record (phase_of k s) `sublist_of` taken_by k s;
  lg_posted : ∀ k, posted_by k s ++ to_post (phase_of k s) = recorded_by k s ≫= posts_of m
}.
Lemma to_post_next e ws : to_post (next_post e ws) = pair e <$> ws.
Proof. by destruct ws. Qed.
Lemma to_record_next e ws : to_record (next_post e ws) = [].
Proof. by destruct ws. Qed.
Lemma log_inv_same m s s' :
  log_inv m s → webhooks (s_manager s') = webhooks (s_manager s) → s_recorded s' = s_recorded s →
  s_taken s' = s_taken s → s_posted s' = s_posted s → (∀ k, phase_of k s' = phase_of k s) → log_inv m s'.
Proof.
  intros [Hw Hr Hp] Ew Er Et Ep Eph. split; [congruence| |].
  all: unfold recorded_by, taken_by, posted_by in *; intros k; by rewrite Er, ?Et, ?Ep, Eph.
Qed.
(** One task moved on: the obligations are those of its own log. *)
Lemma log_inv_moved m s s' k t p :
  log_inv m s → s_tasks s !! k = Some t → s_tasks s' !! k = Some p → (∀ i, i ≠ k → s_tasks s' !! i = s_tasks s !! i) →
  webhooks (s_manager s') = webhooks (s_manager s) →
  (∀ i, i ≠ k → recorded_by i s' = recorded_by i s ∧ taken_by i s' = taken_by i s ∧ posted_by i s' = posted_by i s) →
  (recorded_by k s ++ to_record (t_phase t) `sublist_of` taken_by k s →
   recorded_by k s' ++ to_record (t_phase p) `sublist_of` taken_by k s') →
  (posted_by k s ++ to_post (t_phase t) = recorded_by k s ≫= posts_of m →
   posted_by k s' ++ to_post (t_phase p) = recorded_by k s' ≫= posts_of m) →
  log_inv m s'.
Proof.
  intros [Hw Hr Hp] Hk Hk' Hne Ew Hi H1 H2. split; [congruence| |]; intros i; destruct (decide (i = k)) as [->|Hik].
  1,3: specialize (Hr k); specialize (Hp k); unfold phase_of in *; rewrite Hk in *; rewrite Hk'; by auto.
  all: destruct (Hi i Hik) as (-> & E2 & E3); specialize (Hr i); specialize (Hp i);
    unfold phase_of in *; by rewrite ?E2, ?E3, Hne.
Qed.
Lemma bool_decide_ne (i k : nat) : i ≠ k → bool_decide (k = i) = false.
Proof. intros. by apply bool_decide_eq_false_2. Qed.
(** What a trace adds for the task that makes the step, and for another *)
Ltac own_log := unfold recorded_by, taken_by, posted_by; simpl; rewrite ?omap_app; simpl; rewrite ?bool_decide_eq_true_2 by done.
Ltac other_log := let i := fresh "i" in let Hne := fresh "Hne" in intros i Hne; unfold recorded_by, taken_by, posted_by; simpl; rewrite ?omap_app; simpl;
  rewrite ?(bool_decide_ne i) by done; rewrite ?app_nil_r.
Lemma log_inv_handle now m k t s :
  log_inv m s → s_tasks s !! k = Some t → log_inv m (handle now k t s).
Proof.
  intros Hi Hk. pose proof (lg_webhooks _ _ Hi) as Hw. pose proof (lookup_lt_Some _ _ _ Hk) as Hlt.
  assert (takers (s_manager s) = takers m) as Htk by (unfold takers; by rewrite Hw).
  destruct (t_phase t) as [|e|e c|e w ws|e w ws] eqn:Hp; unfold handle; rewrite Hp; [done|..].
  - case_match; (eapply (log_inv_moved m s _ k t); [done|done|by apply list_lookup_insert_eq|
      intros; by apply list_lookup_insert_ne|done|done|..]); rewrite Hp; own_log; try done.
    intros Hsub. rewrite app_nil_r. etransitivity; [|exact Hsub]. by apply sublist_inserts_r.
  - rewrite Htk. case_bool_decide as Hn; (eapply (log_inv_moved m s _ k t); [done|done|by apply list_lookup_insert_eq|
      intros; by apply list_lookup_insert_ne|done|by other_log|..]); rewrite Hp; own_log; rewrite ?to_record_next, ?to_post_next, ?app_nil_r.
    + done.
    + intros ->. rewrite bind_app. simpl. unfold posts_of at 3. by rewrite Hn, !app_nil_r.
    + done.
    + intros ->. rewrite bind_app. simpl. by rewrite !app_nil_r.
  - eapply (log_inv_moved m s _ k t); [done|done|by apply list_lookup_insert_eq|
      intros; by apply list_lookup_insert_ne|done|by other_log|..]; rewrite Hp; own_log; [done|].
    intros <-. by rewrite <-app_assoc.
  - eapply (log_inv_moved m s _ k t); [done|done|by apply list_lookup_insert_eq|
      intros; by apply list_lookup_insert_ne| |done|..]; [simpl; by case_match|..];
      rewrite Hp; own_log; by rewrite ?to_record_next, ?to_post_next.
Qed.
Lemma log_inv_take m k t s s' :
  log_inv m s → s_tasks s !! k = Some t → t_phase t = Waiting → take_up k t s = Some s' → log_inv m s'.
Proof.
  intros Hi Hk Hp Hu. destruct (take_up_shape k t s s' Hp Hu) as (t' & Et & Em & Er & Ep & Hc).
  pose proof (lookup_lt_Some _ _ _ Hk) as Hlt.
  eapply (log_inv_moved m s _ k t t'); [done|done|rewrite Et; by apply list_lookup_insert_eq|
    intros; rewrite Et; by apply list_lookup_insert_ne|by rewrite Em|..];
    unfold recorded_by, taken_by, posted_by; rewrite ?Er, ?Ep, ?Hp.
  - intros i Hik. split_and!; [done| |done]. destruct Hc as [[_ ->]|(e & _ & -> & _)]; [done|].
    rewrite omap_app. simpl. by rewrite bool_decide_ne, app_nil_r.
  - destruct Hc as [[-> ->]|(e & -> & -> & _)]; [done|]. rewrite omap_app. simpl. rewrite bool_decide_eq_true_2 by done.
    rewrite app_nil_r. intros. by apply sublist_app.
  - by destruct Hc as [[-> _]|(e & -> & _ & _)].
Qed.
Lemma phase_of_tell k i s : phase_of i (tell k s) = phase_of i s.
Proof. unfold phase_of. by rewrite tell_phase. Qed.
Lemma phase_snoc i (l : list task) t :
  t_phase t = Waiting → default Waiting (t_phase <$> (l ++ [t]) !! i) = default Waiting (t_phase <$> l !! i).
Proof.
  intros Ht. destruct (decide (i < length l)%nat); [by rewrite lookup_app_l|].
  rewrite lookup_app_r, (lookup_ge_None_2 l) by lia. by destruct (i - length l)%nat.
Qed.
Lemma log_inv_step m s v : log_inv m s → log_inv m (am_apply s v).
Proof.
  intros Hi. destruct v as [e| | |now k|now]; simpl.
  - by apply (log_inv_same m s).
  - destruct (tell_frame (shutdown_tx s) s) as (_ & Em & Et & Er & Ep & El).
    apply (log_inv_same m s); simpl; [done|by rewrite Em|done..|]. intros i.
    transitivity (phase_of i (tell (shutdown_tx s) s)); [|apply phase_of_tell].
    by apply (phase_snoc i (s_tasks (tell (shutdown_tx s) s))).
  - destruct (tell_frame (shutdown_tx s) s) as (_ & Em & Et & Er & Ep & El).
    apply (log_inv_same m s); simpl; [done|by rewrite Em|done..|]. intros i. apply (phase_of_tell (shutdown_tx s) i).
  - destruct (am_turn now k s) as [s'|] eqn:E; [|done]. simpl.
    destruct (s_tasks s !! k) as [t|] eqn:Hk; [|unfold am_turn in E; by rewrite Hk in E].
    destruct (am_turn_cases now k s s' t Hk E) as [[Hp Hu]|[_ ->]]; [by eapply log_inv_take|by apply log_inv_handle].
  - by apply (log_inv_same m s).
Qed.
Lemma log_inv_exec m vs s : log_inv m s → log_inv m (am_exec vs s).
Proof. revert s. induction vs as [|v vs IH]; intros s Hi; [done|]. by apply IH, log_inv_step. Qed.

(** C31. However often the manager is started and stopped and whatever is published and
    cleaned up, with the turns of its tasks interleaved at every await and between the two
    locks of the deduplication, and the clock not going back: the events taken up are ones
    published since, in order and each at most once; at most one task is listening; each
    task records events it took, in order and each at most once, and posts each of them
    once to every webhook that takes it, in order (those still to come included).  Two
    recordings of the same key are at least the deduplication window apart, or they are of
    different tasks and the check of the later was made not after the earlier.  The second
    case is real: a task that was stopped inside an event goes on with it, and the next
    start's task may pass the same check before it records. *)
Theorem alert_loop_dedups b m vs now :
  clock_from now vs →
  let s := am_exec vs (am_init b m) in
  (∃ new, sent (tx (s_bus s)) = sent (tx b) ++ new ∧ (s_taken s).*2 `sublist_of` new) ∧
  (∀ k k' t t', s_tasks s !! k = Some t → s_tasks s !! k' = Some t' → listening t = true → listening t' = true → k = k') ∧
  (∀ k, recorded_by k s ++ to_record (phase_of k s) `sublist_of` taken_by k s ∧
        posted_by k s ++ to_post (phase_of k s) = recorded_by k s ≫= posts_of m) ∧
  (∀ i j r1 r2, (i < j)%nat → s_recorded s !! i = Some r1 → s_recorded s !! j = Some r2 →
     dedup_key (r_event r1) = dedup_key (r_event r2) →
     dedup_window m ≤ r_checked r2 - r_at r1 ∨ (r_checked r2 ≤ r_at r1 ∧ r_task r1 ≠ r_task r2)).
Proof.
  intros Hc. cbv zeta. destruct (am_inv_exec _ vs _ (am_init_inv b m)) as (new & Hs & Hsub & Ht).
  destruct (dedup_inv_exec _ now vs _ (dedup_init b m now) Hc) as (now' & [_ _ _ Hp]).
  assert (log_inv m (am_init b m)) as [_ Hr Hps]%(log_inv_exec m vs) by (split; [done|constructor|done]).
  split_and!; [by exists new| |by auto|exact Hp]. intros k k' t t' Hk Hk' Hl Hl'.
  destruct (proj2 (Ht k t Hk) Hl) as [E _]. destruct (proj2 (Ht k' t' Hk') Hl') as [E' _]. congruence.
Qed.

(** ** Alone, a task does what [process_event] says *)

Definition turns (n : nat) (now : Z) (k : nat) (s : am_system) : am_system := am_exec (replicate n (EvTurn now k)) s.
Lemma turns_handle n now k s t :
  s_tasks s !! k = Some t → t_running t = true → t_phase t ≠ Waiting →
  turns (S n) now k s = turns n now k (handle now k t s).
Proof. intros Hk Hr Hp. unfold turns. simpl. unfold am_turn. rewrite Hk. simpl. rewrite Hr. by destruct (t_phase t). Qed.
(** The loop over the webhooks: two turns each *)
Lemma turns_post now k ws : ∀ s t e,
  s_tasks s !! k = Some t → t_running t = true → t_phase t = next_post e ws →
  let s' := turns (2 * length ws) now k s in
  phase_of k s' = Waiting ∧
  s_manager s' = forward_all (deliver now) (s_manager s) (event_to_alert to_rfc3339 debug_event e) ws ∧
  s_posted s' = s_posted s ++ (mkPosting now k e <$> ws).
Proof.
  induction ws as [|w ws IH]; intros s t e Hk Hr Hp.
  { unfold turns, phase_of. simpl. by rewrite Hk, app_nil_r. }
  pose proof (lookup_lt_Some _ _ _ Hk) as Hlt.
  replace (2 * length (w :: ws))%nat with (S (S (2 * length ws)))%nat by (simpl; lia).
  rewrite (turns_handle _ now k s t) by (done || by rewrite Hp). unfold handle at 1. rewrite Hp. simpl next_post. cbv iota.
  set (s1 := (move _ _ _ _) <| s_posted ::= _ |>). set (t1 := t <| t_phase := Awaiting e w ws |>).
  assert (s_tasks s1 !! k = Some t1) as Hk1 by by apply list_lookup_insert_eq.
  rewrite (turns_handle _ now k s1 t1) by done. unfold handle at 1. cbv [t1]. simpl t_phase. cbv iota.
  set (s2 := (move _ _ _ _) <| s_manager := _ |>).
  destruct (IH s2 (t <| t_phase := next_post e ws |>) e) as (H1 & H2 & H3).
  - apply list_lookup_insert_eq. simpl. by rewrite length_insert.
  - done.
  - done.
  - split_and!; [exact H1|exact H2|]. etransitivity; [exact H3|]. simpl. by rewrite <-app_assoc.
Qed.
(** From the check on, uninterrupted and with the clock standing still *)
Theorem turns_process_event now k s t e :
  s_tasks s !! k = Some t → t_running t = true → t_phase t = Checking e →
  let '(m, ws) := process_event to_rfc3339 debug_event (deliver now) now (s_manager s) e in
  ∃ n, let s' := turns n now k s in
  phase_of k s' = Waiting ∧ s_manager s' = m ∧ s_posted s' = s_posted s ++ (mkPosting now k e <$> ws).
Proof.
  intros Hk Hr Hp. pose proof (lookup_lt_Some _ _ _ Hk) as Hlt.
  unfold process_event. fold (recently_seen now (s_manager s) (dedup_key e)).
  destruct (passes_filter (s_manager s) e && negb (recently_seen now (s_manager s) (dedup_key e))) eqn:Hf.
  2:{ assert (∃ n, let s' := turns n now k s in phase_of k s' = Waiting ∧ s_manager s' = drop_alert (s_manager s) ∧
        s_posted s' = s_posted s ++ []) as Hd.
      { exists 1%nat. rewrite (turns_handle 0 now k s t) by (done || by rewrite Hp). unfold handle. rewrite Hp.
        assert (negb (passes_filter (s_manager s) e) || recently_seen now (s_manager s) (dedup_key e) = true) as ->
          by (destruct (passes_filter _ _), (recently_seen _ _ _); done).
        unfold turns, phase_of. simpl. rewrite list_lookup_insert_eq, app_nil_r by done. done. }
      unfold passes_filter in Hf. destruct (is_alertable e); [|exact Hd]. simpl in *.
      destruct (_ <? _); [exact Hd|]. simpl in *. destruct (recently_seen _ _ _); [exact Hd|done]. }
  apply andb_prop in Hf as [Hpf Hs%negb_true_iff]. pose proof Hpf as Hpf'. unfold passes_filter in Hpf'.
  apply andb_prop in Hpf' as [-> Hsev%negb_true_iff]. rewrite Hsev, Hs. simpl.
  set (m1 := (s_manager s) <| dedup_cache ::= <[dedup_key e := now]> |>).
  set (s1 := move k t (Recording e now) s). set (t1 := t <| t_phase := Recording e now |>).
  assert (turns 1 now k s = s1) as E1.
  { rewrite (turns_handle 0 now k s t) by (done || by rewrite Hp). unfold handle. by rewrite Hp, Hpf, Hs. }
  assert (s_tasks s1 !! k = Some t1) as Hk1 by by apply list_lookup_insert_eq.
  assert (∀ n, turns (S (S n)) now k s = turns n now k (handle now k t1 s1)) as E2.
  { intros n. rewrite <-(turns_handle n now k s1 t1 Hk1 Hr ltac:(discriminate)), <-E1. reflexivity. }
  set (s2 := s1 <| s_manager := m1 |> <| s_recorded ::= λ l, l ++ [mkRecording k e now now] |>).
  assert (handle now k t1 s1 = if bool_decide (takers m1 e = []) then (move k t1 Waiting s2) <| s_manager ::= drop_alert |>
    else move k t1 (next_post e (takers m1 e)) s2) as E3 by done.
  assert (∀ u, <[k:=u]> (s_tasks s2) !! k = Some u) as Hk2
    by (intros u; apply list_lookup_insert_eq; simpl; by rewrite length_insert).
  match goal with |- context [bool_decide (?l = [])] => change l with (takers m1 e) end.
  destruct (bool_decide (takers m1 e = [])).
  - exists 2%nat. rewrite E2, E3. split_and!; [|done|by rewrite app_nil_r].
    exact (f_equal (λ o, default Waiting (t_phase <$> o)) (Hk2 (t1 <| t_phase := Waiting |>))).
  - exists (S (S (2 * length (takers m1 e)))). rewrite E2, E3.
    exact (turns_post now k (takers m1 e) (move k t1 (next_post e (takers m1 e)) s2) _ e (Hk2 (t1 <| t_phase := next_post e (takers m1 e) |>)) Hr eq_refl).
Qed.

(** ** After a stop *)

Definition is_start (v : am_event) : bool := match v with EvStart => true | _ => false end.
Definition silent (s : am_system) : Prop := ∀ k t, s_tasks s !! k = Some t → listening t = false.
Lemma silent_tell k s : silent s → silent (tell k s).
Proof.
  intros Hs k' t. unfold tell. destruct k as [k|]; [|apply Hs]. simpl. destruct (decide (k' = k)) as [->|].
  - rewrite list_lookup_alter_eq. destruct (s_tasks s !! k); [|done]. intros [= <-]. unfold listening. simpl. by rewrite andb_false_r.
  - rewrite list_lookup_alter_ne by done. apply Hs.
Qed.
Lemma silent_set k t t' s : silent s → s_tasks s !! k = Some t → listening t' = false → silent (set_task k t' s).
Proof. intros Hs Hk Hl i u [(-> & <- & _)|[_ Hi]]%list_lookup_insert_Some; [done|by apply (Hs i)]. Qed.
Lemma posted_by_handle now k t s i : i ≠ k → posted_by i (handle now k t s) = posted_by i s.
Proof.
  intros Hi. unfold handle, posted_by. destruct (t_phase t) as [|e|e c|e w ws|e w ws]; [done|..].
  - by case_match.
  - by case_bool_decide.
  - simpl. rewrite omap_app. simpl. by rewrite bool_decide_ne, app_nil_r by congruence.
  - done.
Qed.
Lemma phase_of_insert k t' s s' i :
  s_tasks s' = <[k := t']> (s_tasks s) → i ≠ k → phase_of i s' = phase_of i s.
Proof. intros Et Hi. unfold phase_of. by rewrite Et, list_lookup_insert_ne. Qed.
(** A turn when no task listens: nothing is taken up, and a task that is in no event
    stays so. *)
Lemma silent_turn now k s s' :
  silent s → am_turn now k s = Some s' →
  silent s' ∧ s_taken s' = s_taken s ∧
  ∀ i, phase_of i s = Waiting → phase_of i s' = Waiting ∧ posted_by i s' = posted_by i s.
Proof.
  intros Hs E. destruct (s_tasks s !! k) as [t|] eqn:Hk; [|unfold am_turn in E; by rewrite Hk in E].
  pose proof (Hs k t Hk) as Hl. pose proof (lookup_lt_Some _ _ _ Hk) as Hlt.
  assert (t_running t = true) as Hrun by (unfold am_turn in E; rewrite Hk in E; simpl in E; by destruct (t_running t)).
  destruct (am_turn_cases now k s s' t Hk E) as [[Hp Hu]|[Hp ->]].
  - unfold take_up in Hu. unfold listening in Hl. rewrite Hrun in Hl. simpl in Hl.
    destruct (t_told t); [|done]. injection Hu as <-. split_and!; [by apply (silent_set k t)|done|].
    intros i Hi. split; [|done]. destruct (decide (i = k)) as [->|]; [|by rewrite (phase_of_insert k _ s) by done].
    unfold phase_of. simpl. by rewrite list_lookup_insert_eq.
  - destruct (handle_shape now k t s Hp) as (p & E1 & _ & _ & E4). split_and!; [|done|].
    + intros i u. rewrite E1. by apply (silent_set k t (t <| t_phase := p |>) s).
    + intros i Hi. assert (i ≠ k) as Hik by (intros ->; unfold phase_of in Hi; by rewrite Hk in Hi).
      by rewrite (phase_of_insert k _ s _ i E1 Hik), posted_by_handle.
Qed.
Lemma silent_step s v :
  silent s → is_start v = false →
  silent (am_apply s v) ∧ s_taken (am_apply s v) = s_taken s ∧
  ∀ i, phase_of i s = Waiting → phase_of i (am_apply s v) = Waiting ∧ posted_by i (am_apply s v) = posted_by i s.
Proof.
  intros Hs Hv. destruct v as [e| | |now k|now]; [done|done| | |done].
  - destruct (tell_frame (shutdown_tx s) s) as (_ & _ & Et & _ & Ep & _). simpl. split_and!; [|done|].
    + exact (silent_tell _ s Hs).
    + intros i Hi. split; [|unfold posted_by; simpl; by rewrite Ep]. rewrite <-Hi. apply (phase_of_tell (shutdown_tx s) i).
  - simpl. destruct (am_turn now k s) as [s'|] eqn:E; [by eapply silent_turn|done].
Qed.
(** Once stopped, nothing more is taken up until the next start, also of what was
    published before and not yet handled, and only a task that was inside an event
    goes on posting. *)
Theorem stopped_is_silent b m vs ws :
  Forall (λ v, is_start v = false) ws →
  let s := am_exec vs (am_init b m) in
  let s' := am_exec ws (am_stop s) in
  s_taken s' = s_taken s ∧ ∀ k, phase_of k s = Waiting → posted_by k s' = posted_by k s.
Proof.
  intros Hws. cbv zeta. destruct (am_inv_exec _ vs _ (am_init_inv b m)) as (new & _ & _ & Ht).
  set (s := am_exec vs _) in *. destruct (tell_frame (shutdown_tx s) s) as (_ & _ & Et & _ & Ep & _).
  assert (silent (am_stop s)) as Hs by (intros k t Hk; by eapply (tasks_inv_tell s)).
  assert (s_taken (am_stop s) = s_taken s) as <- by exact Et.
  assert (∀ k, phase_of k s = Waiting → phase_of k (am_stop s) = Waiting ∧ posted_by k (am_stop s) = posted_by k s) as Hp.
  { intros k Hk. split; [rewrite <-Hk; apply (phase_of_tell (shutdown_tx s) k)|unfold posted_by; simpl; by rewrite Ep]. }
  clearbody s. clear Ht Et Ep. revert Hs Hp. generalize (am_stop s). induction Hws as [|v ws Hv _ IH]; intros s' Hs Hp.
  { split; [done|]. intros k Hk. by apply Hp. }
  destruct (silent_step s' v Hs Hv) as (Hs' & Et & Hw). simpl. destruct (IH (am_apply s' v) Hs') as [E1 E2].
  - intros k Hk. destruct (Hp k Hk) as [H1 <-]. by apply Hw.
  - by rewrite E1.
Qed.

(** A webhook that answers with an error counts as served. *)
Lemma refused_is_forwarded `{HashOrder} to_json http w p body code :
  to_json p = Some body →
  http (wh_url w) (("Content-Type", "application/json") :: hash_iter (wh_headers w)) body = Some code →
  send_webhook to_json http w p = true.
Proof. unfold send_webhook. intros -> ->. by apply bool_decide_eq_true. Qed.
End alert_loop.

(** ** Runs *)

Section alert_loop_runs.
#[local] Instance alert_loop_external : External := demo_external.
#[local] Instance alert_loop_channel : Broadcast ShimEvent := log_broadcast ShimEvent.
Definition demo_loop (vs : list am_event) : am_system :=
  am_exec demo_rfc demo_debug (λ _, demo_deliver) vs (am_init new_bus demo_manager).
Definition demo_turns (n : nat) (now : Z) (k : nat) : list am_event := replicate n (EvTurn now k).
(** A restart loses what the first task had not taken up. *)
Example demo_loop_restart :
  let s := demo_loop ([EvStart; EvPublish (failed_backup Error)] ++ demo_turns 9 0 0
             ++ [EvPublish (failed_backup Critical); EvStart] ++ demo_turns 2 1 0 ++ demo_turns 2 1 1
             ++ [EvPublish (failed_backup Warning)] ++ demo_turns 9 2 1 ++ demo_turns 2 2 0) in
  (λ p, severity p.2) <$> s_taken s = [Error; Warning] ∧ t_running <$> s_tasks s = [false; true].
Proof. vm_compute. done. Qed.
(** The first task is stopped between the check and the recording; the second start's
    task passes the same check: both post the same alert at once. *)
Definition demo_race : list am_event :=
  [EvStart; EvPublish (failed_backup Critical); EvTurn 0 0; EvTurn 0 0; EvStop; EvStart; EvPublish (failed_backup Critical)]
  ++ demo_turns 4 0 1 ++ demo_turns 2 0 0.
Example demo_race_posts_twice :
  (λ p, (p_at p, p_task p, dedup_key (p_event p), wh_name (p_webhook p))) <$> s_posted (demo_loop demo_race)
  = [(0, 1%nat, "backup-shim:backup_failed:CRITICAL", "pager"); (0, 0%nat, "backup-shim:backup_failed:CRITICAL", "pager")].
Proof. vm_compute. done. Qed.
Lemma alert_loop_dedups_witness :
  let s := demo_loop demo_race in
  length (s_recorded s) = 2%nat ∧
  ∀ r1 r2, s_recorded s !! 0%nat = Some r1 → s_recorded s !! 1%nat = Some r2 →
  dedup_key (r_event r1) = dedup_key (r_event r2) →
  dedup_window demo_manager ≤ r_checked r2 - r_at r1 ∨ (r_checked r2 ≤ r_at r1 ∧ r_task r1 ≠ r_task r2).
Proof.
  intros s. split; [vm_compute; done|]. intros r1 r2.
  destruct (alert_loop_dedups demo_rfc demo_debug (λ _, demo_deliver) new_bus demo_manager demo_race 0) as (_ & _ & _ & H).
  - vm_compute. intuition congruence.
  - apply H. lia.
Defined.
Lemma stopped_is_silent_witness :
  let vs := [EvStart; EvPublish (failed_backup Error)] in
  s_taken (am_exec demo_rfc demo_debug (λ _, demo_deliver) (demo_turns 2 0 0) (am_stop (demo_loop vs))) = s_taken (demo_loop vs).
Proof.
  intros vs. assert (Forall (λ v, is_start v = false) (demo_turns 2 0 0)) as H by (repeat constructor).
  exact (proj1 (stopped_is_silent demo_rfc demo_debug (λ _, demo_deliver) new_bus demo_manager vs _ H)).
Defined.
End alert_loop_runs.
