(* ===== verification/AlertingShim.v ===== *)
(** * The alerting shim ([alerting-shim/src/lib.rs])

    Routing of alerts to webhooks by severity, deduplication, retries and the
    backoff of failing endpoints.  HTTP deliveries are arguments; [Instant]s are
    nanoseconds on the monotonic clock. *)

From S2P Require Import Prelude.

(** [Severity] (of this shim), its order, [parse] and [Display] *)
Inductive Severity := Info | Warning | Critical.
#[export] Instance Severity_eq_dec : EqDecision Severity.
Proof. solve_decision. Defined.
Definition severity_index (s : Severity) : Z :=
  match s with Info => 0 | Warning => 1 | Critical => 2 end.
Definition severity_parse (s : string) : result string Severity :=
  let l := to_lowercase s in
  if bool_decide (l = "info") then Ok Info
  else if bool_decide (l = "warning") || bool_decide (l = "warn") then Ok Warning
  else if bool_decide (l = "critical") || bool_decide (l = "fatal") || bool_decide (l = "error")
  then Ok Critical
  else Err ("Unknown severity: " +:+ l).
Definition severity_display (s : Severity) : string :=
  match s with Info => "info" | Warning => "warning" | Critical => "critical" end.

(** [WebhookConfig] and [accepts] *)
Record WebhookConfig := mkWebhookConfig {
  wh_name : string;
  wh_url : string;
  wh_channel : string;
  wh_min_severity : string;
  wh_headers : gmap string string
}.
Definition accepts (w : WebhookConfig) (s : Severity) : bool :=
  let min := match severity_parse (wh_min_severity w) with Ok m => m | Err _ => Info end in
  severity_index min <=? severity_index s.

(** [Alert], [EndpointState] *)
Record Alert := mkAlert {
  alert_id : string;
  title : string;
  message : string;
  alert_severity : Severity;
  alert_source : string;
  labels : gmap string string;
  alert_timestamp : Z
}.
Record EndpointState := mkEndpoint {
  consecutive_failures : Z;
  last_attempt : option Z;
  backoff_until : option Z
}.

(** [dedup_key] *)
Definition dedup_key (a : Alert) : string :=
  alert_source a +:+ ":" +:+ title a +:+ ":" +:+ severity_display (alert_severity a).

(** [AlertingShim], less its shutdown channel; [has_client]: [init] has built the
    HTTP client.  [backoff_base] and [backoff_max] are whole seconds. *)
Record AlertingShim := mkAlertingShim {
  webhooks : list WebhookConfig;
  dedup_window : Z;
  backoff_base : Z;
  backoff_max : Z;
  alerts_sent : Z;
  alerts_failed : Z;
  alerts_deduplicated : Z;
  dedup_cache : gmap string Z;
  endpoint_states : gmap string EndpointState;
  has_client : bool
}.
#[export] Instance AlertingShim_settable : Settable AlertingShim := λ s,
  mkAlertingShim (webhooks s) (dedup_window s) (backoff_base s) (backoff_max s) (alerts_sent s)
    (alerts_failed s) (alerts_deduplicated s) (dedup_cache s) (endpoint_states s) (has_client s).

(** [AlertingShim::new]; [parse_webhooks] is [serde_json::from_str]. *)
Definition new_alerting (parse_webhooks : string → option (list WebhookConfig))
    (env : environment) : AlertingShim :=
  {| webhooks := default [] (env !! "ALERTING_WEBHOOKS" ≫= parse_webhooks);
     dedup_window := env_parse env "ALERTING_DEDUP_WINDOW" parse_u64 300 * 10 ^ 9;
     backoff_base := env_parse env "ALERTING_BACKOFF_BASE" parse_u64 30;
     backoff_max := env_parse env "ALERTING_BACKOFF_MAX" parse_u64 3600;
     alerts_sent := 0; alerts_failed := 0; alerts_deduplicated := 0;
     dedup_cache := ∅; endpoint_states := ∅; has_client := false |}.

(** [init]; [client_ok]: the HTTP client can be built. *)
Definition init (client_ok : bool) (s : AlertingShim) : result string unit * AlertingShim :=
  if client_ok then (Ok tt, s <| has_client := true |>)
  else (Err "Failed to build HTTP client", s).

(** [is_duplicate], [record_alert], [clear_dedup_cache] *)
Definition is_duplicate (now : Z) (a : Alert) (s : AlertingShim) : bool :=
  match dedup_cache s !! dedup_key a with
  | Some last_seen => saturating_sub now last_seen <? dedup_window s
  | None => false
  end.
Definition record_alert (now : Z) (a : Alert) (s : AlertingShim) : AlertingShim :=
  s <| dedup_cache ::= <[dedup_key a := now]> |>.
Definition clear_dedup_cache (s : AlertingShim) : AlertingShim := s <| dedup_cache := ∅ |>.

(** The body of the cleaner task *)
Definition clean_dedup_cache (now : Z) (s : AlertingShim) : AlertingShim :=
  s <| dedup_cache ::= filter (λ kt, saturating_sub now kt.2 < dedup_window s) |>.

(** [calculate_backoff], in seconds *)
Definition calculate_backoff (s : AlertingShim) (failures : Z) : Z :=
  Z.min (mul64 (backoff_base s) (Z.min (2 ^ 64 - 1) (2 ^ Z.min failures 10))) (backoff_max s).

(** [is_in_backoff] *)
Definition is_in_backoff (now : Z) (n : string) (s : AlertingShim) : bool :=
  match endpoint_states s !! n ≫= backoff_until with
  | Some until => now <? until
  | None => false
  end.

(** [Instant + Duration]: panics ([None]) when the seconds leave an [i64]. *)
Definition instant_add (now secs : Z) : option Z :=
  if now + secs * 10 ^ 9 <? 2 ^ 63 * 10 ^ 9 then Some (now + secs * 10 ^ 9) else None.

(** [record_success] *)
Definition record_success (now : Z) (n : string) (s : AlertingShim) : AlertingShim :=
  s <| endpoint_states ::= <[n := mkEndpoint 0 (Some now) None]> |>.

(** [record_failure]; [now'] is the second reading of the clock.  [None]: the
    addition panicked. *)
Definition record_failure (now now' : Z) (n : string) (s : AlertingShim) : option AlertingShim :=
  let failures :=
    add32 (match endpoint_states s !! n with Some e => consecutive_failures e | None => 0 end) 1 in
  until ← instant_add now' (calculate_backoff s failures);
  Some (s <| endpoint_states ::= <[n := mkEndpoint failures (Some now) (Some until)]> |>).

(** [route] *)
Definition route (a : Alert) (s : AlertingShim) : list WebhookConfig :=
  filter (λ w, accepts w (alert_severity a) = true) (webhooks s).

(** The retry loop for one webhook: whether an attempt succeeded, and the number
    of posts.  There are [WEBHOOK_RETRY_COUNT + 1] attempts. *)
Definition WEBHOOK_RETRY_COUNT : nat := 2.
Fixpoint send_attempts (deliver : nat → bool) (fuel attempt : nat) : bool * nat :=
  match fuel with
  | O => (false, attempt)
  | S fuel => if deliver attempt then (true, S attempt) else send_attempts deliver fuel (S attempt)
  end.
Definition send_with_retries (deliver : nat → bool) : bool * nat :=
  send_attempts deliver (S WEBHOOK_RETRY_COUNT) 0.

(** What follows the retry loop: the counters and the endpoint's record *)
Definition record_outcome (success : bool) (t : Z * Z) (n : string) (s : AlertingShim)
    : option AlertingShim :=
  if success
  then Some (record_success t.1 n (s <| alerts_sent ::= λ c, add64 c 1 |>))
  else record_failure t.1 t.2 n (s <| alerts_failed ::= λ c, add64 c 1 |>).

(** A webhook that was posted to, and how often *)
Abbreviation posting := (WebhookConfig * nat)%type.

(** The loop over the target names: [deliver k] are the outcomes of the posts for
    the [k]-th, [clock k] the readings of the clock when it is done.  [None]: a
    panic. *)
Fixpoint deliver_all (deliver : nat → nat → bool) (clock : nat → Z * Z) (names : list string)
    (k : nat) (s : AlertingShim) : list posting * option AlertingShim :=
  match names with
  | [] => ([], Some s)
  | n :: rest =>
      match List.find (λ w, bool_decide (wh_name w = n)) (webhooks s) with
      | None => deliver_all deliver clock rest (S k) s
      | Some w =>
          let '(success, posts) := send_with_retries (deliver k) in
          match record_outcome success (clock k) n s with
          | None => ([(w, posts)], None)
          | Some s' =>
              let '(ps, s'') := deliver_all deliver clock rest (S k) s' in ((w, posts) :: ps, s'')
          end
      end
  end.
(** Without a client, every target counts as sent. *)
Fixpoint pretend_all (clock : nat → Z * Z) (names : list string) (k : nat) (s : AlertingShim)
    : AlertingShim :=
  match names with
  | [] => s
  | n :: rest =>
      pretend_all clock rest (S k)
        (record_success (clock k).1 n (s <| alerts_sent ::= λ c, add64 c 1 |>))
  end.

(** [process_alert]: the answer with the state ([None]: a panic), and the posts.
    [now] and [now'] are the readings of [is_duplicate] and [record_alert]. *)
Definition process_alert (deliver : nat → nat → bool) (clock : nat → Z * Z) (now now' : Z)
    (a : Alert) (s : AlertingShim) : list posting * option (Z * AlertingShim) :=
  if is_duplicate now a s
  then ([], Some (0, s <| alerts_deduplicated ::= λ c, add64 c 1 |>))
  else
    let s := record_alert now' a s in
    let target_names := wh_name <$> route a s in
    let count := wrap 32 (Z.of_nat (length target_names)) in
    if has_client s
    then let '(ps, s) := deliver_all deliver clock target_names 0 s in (ps, (λ s, (count, s)) <$> s)
    else ([], Some (count, pretend_all clock target_names 0 s)).

(** [metrics] *)
Definition alerting_metrics (s : AlertingShim) : list (string * f64) :=
  [("alerting_sent_total", f64_of_Z (alerts_sent s));
   ("alerting_failed_total", f64_of_Z (alerts_failed s));
   ("alerting_deduplicated_total", f64_of_Z (alerts_deduplicated s))].

(** ** Lemmas *)

Lemma send_with_retries_spec d :
  let '(ok, n) := send_with_retries d in
  (1 ≤ n ≤ 3)%nat ∧ (∀ i, (S i < n)%nat → d i = false) ∧
  (if ok then d (n - 1)%nat = true else n = 3%nat ∧ d 2%nat = false).
Proof.
  unfold send_with_retries, WEBHOOK_RETRY_COUNT. simpl.
  destruct (d 0%nat) eqn:E0; [|destruct (d 1%nat) eqn:E1; [|destruct (d 2%nat) eqn:E2]];
    (split; [lia|]); (split; [|done]); intros i Hi;
    destruct i as [|[|[|i]]]; (done || lia).
Qed.

(** The webhook a target name is resolved to: the first of that name *)
Definition first_named (s : AlertingShim) (w : WebhookConfig) : WebhookConfig :=
  default w (List.find (λ w', bool_decide (wh_name w' = wh_name w)) (webhooks s)).

Lemma first_named_found s w :
  w ∈ webhooks s →
  List.find (λ w', bool_decide (wh_name w' = wh_name w)) (webhooks s) = Some (first_named s w).
Proof.
  intros Hin. unfold first_named. destruct (List.find _ _) eqn:Hf; [done|].
  apply list_elem_of_In in Hin. apply (List.find_none _ _ Hf) in Hin.
  by rewrite bool_decide_eq_true_2 in Hin.
Qed.

Definition failures_of (s : AlertingShim) (n : string) : Z :=
  match endpoint_states s !! n with Some e => consecutive_failures e | None => 0 end.
(** The record of an endpoint after a delivery *)
Definition endpoint_after (s : AlertingShim) (n : string) (ok : bool) (t : Z * Z) : EndpointState :=
  if ok then mkEndpoint 0 (Some t.1) None
  else let f := add32 (failures_of s n) 1 in
       mkEndpoint f (Some t.1) (Some (t.2 + calculate_backoff s f * 10 ^ 9)).
(** How many of the deliveries from the [k]-th on, [m] of them, succeed or not *)
Definition count_outcomes (ok : bool) (deliver : nat → nat → bool) (k m : nat) : Z :=
  Z.of_nat (length (filter (λ i, (send_with_retries (deliver i)).1 = ok) (seq k m))).

(** One target is served. *)
Definition served (deliver : nat → nat → bool) (clock : nat → Z * Z) (k : nat) (n : string)
    (s : AlertingShim) : AlertingShim :=
  let ok := (send_with_retries (deliver k)).1 in
  s <| endpoint_states ::= <[n := endpoint_after s n ok (clock k)]> |>
    <| alerts_sent ::= λ c, if ok then add64 c 1 else c |>
    <| alerts_failed ::= λ c, if ok then c else add64 c 1 |>.
Fixpoint serve_all (deliver : nat → nat → bool) (clock : nat → Z * Z) (k : nat)
    (names : list string) (s : AlertingShim) : AlertingShim :=
  match names with
  | [] => s
  | n :: rest => serve_all deliver clock (S k) rest (served deliver clock k n s)
  end.

Lemma record_outcome_served deliver clock k n s :
  (clock k).2 + backoff_max s * 10 ^ 9 < 2 ^ 63 * 10 ^ 9 →
  record_outcome (send_with_retries (deliver k)).1 (clock k) n s = Some (served deliver clock k n s).
Proof.
  intros Hclock. unfold record_outcome, served. destruct (send_with_retries (deliver k)) as [[] ?]; [done|].
  simpl. unfold record_failure, instant_add. simpl. fold (failures_of s n).
  match goal with |- context [?a <? ?b] => destruct (Z.ltb_spec a b) as [|Hge] end; [done|].
  unfold calculate_backoff in Hge. simpl in Hge. lia.
Qed.

Lemma deliver_all_serves deliver clock ws k s :
  (∀ i, (clock i).2 + backoff_max s * 10 ^ 9 < 2 ^ 63 * 10 ^ 9) →
  (∀ w, w ∈ ws → w ∈ webhooks s) →
  deliver_all deliver clock (wh_name <$> ws) k s =
  (imap (λ i w, (first_named s w, (send_with_retries (deliver (k + i)%nat)).2)) ws,
   Some (serve_all deliver clock k (wh_name <$> ws) s)).
Proof.
  revert k s. induction ws as [|w ws IH]; intros k s Hclock Hin; csimpl; [done|].
  rewrite first_named_found by (apply Hin; constructor). rewrite Nat.add_0_r.
  pose proof (record_outcome_served deliver clock k (wh_name w) s (Hclock k)) as Hout.
  destruct (send_with_retries (deliver k)) as [ok n]. simpl in Hout |- *. rewrite Hout.
  rewrite IH; [|done|intros w' Hw'; apply Hin; by constructor].
  f_equal. f_equal. apply imap_ext. intros i w' _. simpl. by rewrite Nat.add_succ_r.
Qed.

Lemma serve_all_frame deliver clock k names s :
  dedup_cache (serve_all deliver clock k names s) = dedup_cache s ∧
  ∀ n, n ∉ names → endpoint_states (serve_all deliver clock k names s) !! n = endpoint_states s !! n.
Proof.
  revert k s. induction names as [|m names IH]; intros k s; simpl; [done|].
  destruct (IH (S k) (served deliver clock k m s)) as [-> Hst]. split; [done|].
  intros n [Hne Hn]%not_elem_of_cons. rewrite Hst by done. simpl. by rewrite lookup_insert_ne by done.
Qed.
Lemma serve_all_counts deliver clock k names s :
  in_u 64 (alerts_sent s) → in_u 64 (alerts_failed s) →
  let s' := serve_all deliver clock k names s in
  alerts_sent s' = add64 (alerts_sent s) (count_outcomes true deliver k (length names)) ∧
  alerts_failed s' = add64 (alerts_failed s) (count_outcomes false deliver k (length names)).
Proof.
  revert k s. induction names as [|m names IH]; intros k s Hs Hf; simpl.
  { unfold count_outcomes. simpl. by rewrite !add64_0_r. }
  destruct (IH (S k) (served deliver clock k m s)) as [-> ->]; unfold served; simpl;
    [by destruct (send_with_retries (deliver k)) as [[] ?]; [apply add64_range|]..|
     by destruct (send_with_retries (deliver k)) as [[] ?]; [|apply add64_range]|].
  unfold count_outcomes. simpl. rewrite !filter_cons.
  destruct (send_with_retries (deliver k)) as [[] ?]; csimpl; rewrite ?add64_assoc_l; (split; [f_equal|f_equal]);
    lia.
Qed.
Lemma failures_of_served deliver clock k m n s :
  m ≠ n → failures_of (served deliver clock k m s) n = failures_of s n.
Proof. intros Hne. unfold failures_of, served. simpl. by rewrite lookup_insert_ne. Qed.
Lemma serve_all_endpoints deliver clock k names s i n :
  NoDup names → names !! i = Some n →
  endpoint_states (serve_all deliver clock k names s) !! n =
  Some (endpoint_after s n (send_with_retries (deliver (k + i)%nat)).1 (clock (k + i)%nat)).
Proof.
  intros Hnd. revert k s i. induction Hnd as [|m names Hm Hnd IH]; intros k s i Hi; [done|].
  destruct i as [|i]; simplify_eq/=.
  - rewrite (proj2 (serve_all_frame _ _ _ _ _)) by done. simpl. by rewrite lookup_insert_eq, Nat.add_0_r.
  - rewrite (IH _ _ i Hi), Nat.add_succ_r. 
    assert (m ≠ n) by (intros ->; apply Hm; by apply list_elem_of_lookup_2 in Hi).
    unfold endpoint_after. by rewrite failures_of_served by done.
Qed.

(** What [process_alert] does with an alert that is no duplicate: every
    webhook that accepts the severity is posted to (by way of the first webhook of
    its name) until a post succeeds, at least once and at most three times; each
    counts as sent or failed; the answer is their number; the alert is remembered;
    and an endpoint's record is reset by a success and gains a failure, with a
    new backoff, otherwise.  Nothing here asks [is_in_backoff]: an endpoint whose
    backoff runs is posted to, three times over, like any other. *)
Theorem process_alert_outcome s a deliver clock now now' :
  has_client s = true → is_duplicate now a s = false →
  in_u 64 (alerts_sent s) → in_u 64 (alerts_failed s) →
  (∀ k, (clock k).2 + backoff_max s * 10 ^ 9 < 2 ^ 63 * 10 ^ 9) →
  let posts := imap (λ k w, (first_named s w, (send_with_retries (deliver k)).2)) (route a s) in
  let m := length (route a s) in
  ∃ s', process_alert deliver clock now now' a s = (posts, Some (wrap 32 (Z.of_nat m), s')) ∧
    Forall (λ p, (1 ≤ p.2 ≤ 3)%nat) posts ∧
    dedup_cache s' = <[dedup_key a := now']> (dedup_cache s) ∧
    alerts_sent s' = add64 (alerts_sent s) (count_outcomes true deliver 0 m) ∧
    alerts_failed s' = add64 (alerts_failed s) (count_outcomes false deliver 0 m) ∧
    (NoDup (wh_name <$> route a s) → ∀ k w, route a s !! k = Some w →
     endpoint_states s' !! wh_name w =
     Some (endpoint_after s (wh_name w) (send_with_retries (deliver k)).1 (clock k))).
Proof.
  intros Hc Hdup Hs Hf Hclock posts m. unfold process_alert. rewrite Hdup.
  set (s1 := record_alert now' a s).
  assert (has_client s1 = true) as -> by done. change (route a s1) with (route a s).
  rewrite deliver_all_serves; [|done|intros w [_ Hw]%list_elem_of_filter; exact Hw].
  eexists. split; [simpl; by rewrite length_fmap|].
  destruct (serve_all_frame deliver clock 0 (wh_name <$> route a s) s1) as [Hd _].
  destruct (serve_all_counts deliver clock 0 (wh_name <$> route a s) s1 Hs Hf) as [H1 H2].
  rewrite length_fmap in H1, H2. split_and!; [|done..|].
  - apply Forall_lookup. intros i [w n]. unfold posts. rewrite list_lookup_imap.
    intros (w' & _ & E)%fmap_Some. pose proof (send_with_retries_spec (deliver i)) as Hsp.
    destruct (send_with_retries (deliver i)) as [ok n']. simpl in *. simplify_eq. by destruct Hsp.
  - intros Hnd k w Hw. apply (serve_all_endpoints deliver clock 0 _ s1 k (wh_name w) Hnd).
    by rewrite list_lookup_fmap, Hw.
Qed.

(** ** Concrete runs *)

(** A shim with one webhook that never answers and is in backoff until the end of
    the hour *)
Definition dead_endpoint : AlertingShim :=
  {| webhooks := [mkWebhookConfig "pager" "http://pager" "ops" "warning" ∅]; dedup_window := 300 * 10 ^ 9;
     backoff_base := 30; backoff_max := 3600; alerts_sent := 0; alerts_failed := 7;
     alerts_deduplicated := 0; dedup_cache := ∅;
     endpoint_states := {["pager" := mkEndpoint 7 (Some 0) (Some (3600 * 10 ^ 9))]};
     has_client := true |}.
Definition disk_full : Alert := mkAlert "1" "disk" "full" Critical "db" ∅ 0.

Lemma process_alert_outcome_witness :
  is_in_backoff (60 * 10 ^ 9) "pager" dead_endpoint = true ∧
  (snd <$> (process_alert (λ _ _, false) (λ _, (60 * 10 ^ 9, 60 * 10 ^ 9)) (60 * 10 ^ 9) (60 * 10 ^ 9)
              disk_full dead_endpoint).1) = [3%nat].
Proof.
  split; [vm_compute; reflexivity|].
  destruct (process_alert_outcome dead_endpoint disk_full (λ _ _, false) (λ _, (60 * 10 ^ 9, 60 * 10 ^ 9))
    (60 * 10 ^ 9) (60 * 10 ^ 9)) as (s' & E & _).
  - reflexivity.
  - reflexivity.
  - split; vm_compute; congruence.
  - split; vm_compute; congruence.
  - intros _. vm_compute. reflexivity.
  - rewrite E. vm_compute. reflexivity.
Defined.
