(* ===== verification/Sharding.v ===== *)
(** * Shard routing ([sharding-shim/src/lib.rs])

    Hash (consistent hashing ring), range and directory routing of a key to a
    shard. *)

From S2P Require Import Prelude.

(** [ShardingStrategy], [Display] and [FromStr] *)
Inductive ShardingStrategy := Hash | Range | Directory.
#[export] Instance ShardingStrategy_eq_dec : EqDecision ShardingStrategy.
Proof. solve_decision. Defined.

Definition strategy_display (s : ShardingStrategy) : string :=
  match s with Hash => "hash" | Range => "range" | Directory => "directory" end.
Definition strategy_from_str (s : string) : result string ShardingStrategy :=
  let l := to_lowercase s in
  if bool_decide (l = "hash") then Ok Hash
  else if bool_decide (l = "range") then Ok Range
  else if bool_decide (l = "directory") then Ok Directory
  else Err ("Unknown sharding strategy: " +:+ s).

(** [ShardMapping] *)
Record ShardMapping := mkShardMapping {
  shard_id : Z;
  address : string;
  range_start : option Z;
  range_end : option Z;
  healthy : bool
}.
#[export] Instance ShardMapping_settable : Settable ShardMapping := λ s,
  mkShardMapping (shard_id s) (address s) (range_start s) (range_end s) (healthy s).

(** [HashRingPoint] *)
Record HashRingPoint := mkPoint { pt_hash : Z; pt_shard : Z }.

(** [ShardingShim], less its shutdown channel *)
Record ShardingShim := mkShardingShim {
  strategy : ShardingStrategy;
  shard_key : string;
  shard_count : Z;
  addresses : list string;
  vnodes : Z;
  shards : gmap Z ShardMapping;
  hash_ring : list HashRingPoint;
  directory : gmap string Z;
  queries_routed : Z;
  queries_missed : Z
}.
#[export] Instance ShardingShim_settable : Settable ShardingShim := λ s,
  mkShardingShim (strategy s) (shard_key s) (shard_count s) (addresses s) (vnodes s)
    (shards s) (hash_ring s) (directory s) (queries_routed s) (queries_missed s).

(** [hash_key]: 64-bit FNV-1a *)
Fixpoint fnv1a (hash : Z) (key : string) : Z :=
  match key with
  | EmptyString => hash
  | String byte rest =>
      fnv1a (mul64 (Z.lxor hash (Z.of_N (N_of_ascii byte))) 0x100000001b3) rest
  end.
Definition hash_key (key : string) : Z := fnv1a 0xcbf29ce484222325 key.

(** The virtual nodes of one shard *)
Definition vnode_key (addr : string) (i : nat) : string :=
  addr +:+ ":vnode:" +:+ pretty (N.of_nat i).
Definition shard_points (vn : Z) (sid : Z) (s : ShardMapping) : list HashRingPoint :=
  (λ i, mkPoint (hash_key (vnode_key (address s) i)) sid) <$> seq 0 (Z.to_nat vn).

Section sharding.
Context `{HO : HashOrder} `{BS : BinarySearch}.

(** [build_hash_ring] *)
Definition build_hash_ring (s : ShardingShim) : ShardingShim :=
  s <| hash_ring :=
    sort_by_key pt_hash
      (concat ((λ kv, shard_points (vnodes s) kv.1 kv.2) <$> hash_iter (shards s))) |>.

(** The registration loop of [new]: shard [i] is the [i]-th address. *)
Fixpoint register_shards (i : nat) (addrs : list string) (m : gmap Z ShardMapping)
    : gmap Z ShardMapping :=
  match addrs with
  | [] => m
  | addr :: rest =>
      let sid := wrap 32 (Z.of_nat i) in
      register_shards (S i) rest
        (<[sid := {| shard_id := sid; address := addr; range_start := None;
                     range_end := None; healthy := true |}]> m)
  end.

(** The fields [ShardingShim::new] fills in from the environment *)
Definition sharding_addresses (env : environment) : list string :=
  trim <$> filter (λ a, a ≠ "") (split_on ","%char (env_or env "SHARDING_ADDRESSES" "")).
Definition sharding_fields (env : environment) : ShardingShim :=
  {| strategy := match strategy_from_str (env_or env "SHARDING_STRATEGY" "hash") with
                 | Ok s => s
                 | Err _ => Hash
                 end;
     shard_key := env_or env "SHARDING_KEY" "";
     shard_count := env_parse env "SHARDING_COUNT" parse_u32 4;
     addresses := sharding_addresses env;
     vnodes := env_parse env "SHARDING_VNODES" parse_usize 150;
     shards := register_shards 0 (sharding_addresses env) ∅;
     hash_ring := [];
     directory := ∅;
     queries_routed := 0;
     queries_missed := 0 |}.

(** [ShardingShim::new] *)
Definition new_sharding (env : environment) : ShardingShim :=
  build_hash_ring (sharding_fields env).

(** [route_hash] *)
Definition route_hash (s : ShardingShim) (key : string) : result string (Z * string) :=
  let hash := hash_key key in
  if bool_decide (hash_ring s = []) then Err "No shards available in hash ring"
  else
    let idx := match binary_search pt_hash (hash_ring s) hash with
               | Ok i => i
               | Err i => (i `mod` length (hash_ring s))%nat
               end in
    match hash_ring s !! idx with
    | None => Err "index out of bounds"
    | Some point =>
        match shards s !! pt_shard point with
        | None => Err ("Shard " +:+ pretty (pt_shard point) +:+ " not found")
        | Some shard =>
            if negb (healthy shard)
            then Err ("Shard " +:+ pretty (pt_shard point) +:+ " is unhealthy")
            else Ok (shard_id shard, address shard)
        end
    end.

(** The loop body of [route_range]: is [val] in the range of a healthy shard? *)
Definition in_range (val : Z) (shard : ShardMapping) : bool :=
  healthy shard &&
  match range_start shard, range_end shard with
  | Some start, Some stop => (start <=? val) && (val <? stop)
  | _, _ => false
  end.

(** [route_range] *)
Definition route_range (s : ShardingShim) (key : string) : result string (Z * string) :=
  match parse_i64 key with
  | None => Err ("Range strategy requires numeric keys, got: " +:+ key)
  | Some val =>
      match List.find (in_range val) (hash_values (shards s)) with
      | Some shard => Ok (shard_id shard, address shard)
      | None => Err ("No shard found for range value: " +:+ pretty val)
      end
  end.

(** [route_directory] *)
Definition route_directory (s : ShardingShim) (key : string) : result string (Z * string) :=
  match sid ← directory s !! key; shard ← shards s !! sid;
        if healthy shard then Some (shard_id shard, address shard) else None with
  | Some r => Ok r
  | None => Err ("No mapping found for key: " +:+ key)
  end.

(** [route] *)
Definition route (s : ShardingShim) (key : string)
    : result string (Z * string) * ShardingShim :=
  let r := match strategy s with
           | Hash => route_hash s key
           | Range => route_range s key
           | Directory => route_directory s key
           end in
  match r with
  | Ok _ => (r, s <| queries_routed ::= λ n, add64 n 1 |>)
  | Err _ => (r, s)
  end.

(** [set_range] *)
Definition set_range (s : ShardingShim) (sid start stop : Z)
    : result string unit * ShardingShim :=
  match shards s !! sid with
  | Some shard =>
      (Ok tt, s <| shards ::= <[sid := shard <| range_start := Some start |>
                                            <| range_end := Some stop |>]> |>)
  | None => (Err ("Shard " +:+ pretty sid +:+ " not found"), s)
  end.

(** [add_directory_mapping] *)
Definition add_directory_mapping (s : ShardingShim) (key : string) (sid : Z) : ShardingShim :=
  s <| directory ::= <[key := sid]> |>.

(** [set_shard_health] *)
Definition set_shard_health (s : ShardingShim) (sid : Z) (h : bool) : bool * ShardingShim :=
  match shards s !! sid with
  | Some shard => (true, s <| shards ::= <[sid := shard <| healthy := h |>]> |>)
  | None => (false, s)
  end.

(** [get_shard], [healthy_shards], [hit_rate] *)
Definition get_shard (s : ShardingShim) (sid : Z) : option ShardMapping := shards s !! sid.
Definition healthy_shards (s : ShardingShim) : list Z :=
  shard_id <$> filter (λ sh, healthy sh = true) (hash_values (shards s)).
Definition hit_rate (s : ShardingShim) : f64 :=
  let total := add64 (queries_routed s) (queries_missed s) in
  if total =? 0 then f64_of_Z 0
  else f64_div (f64_of_Z (queries_routed s)) (f64_of_Z total).

(** The operations that change a shim *)
Inductive sharding_op :=
| OpRoute (key : string)
| OpSetRange (sid start stop : Z)
| OpAddDirectory (key : string) (sid : Z)
| OpSetHealth (sid : Z) (h : bool).

(** ... and the outcome of the routings among them *)
Definition sharding_step (s : ShardingShim) (o : sharding_op)
    : option (result string (Z * string)) * ShardingShim :=
  match o with
  | OpRoute key => let '(r, s) := route s key in (Some r, s)
  | OpSetRange sid a b => (None, (set_range s sid a b).2)
  | OpAddDirectory key sid => (None, add_directory_mapping s key sid)
  | OpSetHealth sid h => (None, (set_shard_health s sid h).2)
  end.
Fixpoint sharding_run (s : ShardingShim) (os : list sharding_op)
    : list (result string (Z * string)) * ShardingShim :=
  match os with
  | [] => ([], s)
  | o :: rest =>
      let '(r, s) := sharding_step s o in
      let '(rs, s) := sharding_run s rest in
      (option_list r ++ rs, s)
  end.

(** ** Specification of the ring *)

(** The point that owns hash [h]: the next one clockwise, the first of the ring
    when there is none. *)
Definition ring_owner (ring : list HashRingPoint) (h : Z) (p : HashRingPoint) : Prop :=
  p ∈ ring ∧
  ((h ≤ pt_hash p ∧ ∀ q, q ∈ ring → h ≤ pt_hash q → pt_hash p ≤ pt_hash q) ∨
   ((∀ q, q ∈ ring → pt_hash q < h) ∧ ∀ q, q ∈ ring → pt_hash p ≤ pt_hash q)).

(** [p] is a virtual node of a registered shard. *)
Definition is_vnode (s : ShardingShim) (p : HashRingPoint) : Prop :=
  ∃ sh i, shards s !! pt_shard p = Some sh ∧ (i < Z.to_nat (vnodes s))%nat ∧
          pt_hash p = hash_key (vnode_key (address sh) i).

Record sharding_inv (s : ShardingShim) : Prop := {
  inv_sorted : sorted_by pt_hash (hash_ring s);
  inv_ring : ∀ p, p ∈ hash_ring s ↔ is_vnode s p;
  inv_ids : ∀ sid sh, shards s !! sid = Some sh → shard_id sh = sid;
  inv_missed : queries_missed s = 0
}.

(** ** Lemmas *)

Implicit Types (s : ShardingShim).

Lemma register_shards_lookup i addrs m sid :
  Z.of_nat i + Z.of_nat (length addrs) ≤ 2 ^ 32 →
  register_shards i addrs m !! sid =
  if decide (Z.of_nat i ≤ sid < Z.of_nat i + Z.of_nat (length addrs))
  then (λ addr, mkShardMapping sid addr None None true) <$> addrs !! Z.to_nat (sid - Z.of_nat i)
  else m !! sid.
Proof.
  revert i m. induction addrs as [|a r IH]; intros i m Hlen; simpl in *.
  { by rewrite decide_False by lia. }
  rewrite IH by lia. rewrite wrap_small by (unfold in_u; lia).
  destruct (decide (sid = Z.of_nat i)) as [->|Hne].
  - rewrite decide_False, decide_True by lia. rewrite lookup_insert_eq, Z.sub_diag. done.
  - rewrite lookup_insert_ne by done.
    destruct (decide (Z.of_nat i ≤ sid < Z.of_nat i + Z.of_nat (S (length r)))).
    + rewrite decide_True by lia.
      replace (Z.to_nat (sid - Z.of_nat i)) with (S (Z.to_nat (sid - Z.of_nat (S i)))) by lia. done.
    + by rewrite decide_False by lia.
Qed.

Lemma register_shards_ids i addrs m :
  (∀ sid sh, m !! sid = Some sh → shard_id sh = sid) →
  ∀ sid sh, register_shards i addrs m !! sid = Some sh → shard_id sh = sid.
Proof.
  revert i m. induction addrs as [|a r IH]; intros i m Hm sid sh; simpl; [apply Hm|].
  apply IH. intros sid' sh'. rewrite lookup_insert. case_decide; [intros; by simplify_eq/=|apply Hm].
Qed.

Lemma elem_of_build s p : p ∈ hash_ring (build_hash_ring s) ↔ is_vnode s p.
Proof.
  unfold build_hash_ring, is_vnode. simpl. rewrite (sort_by_key_perm pt_hash).
  rewrite list_elem_of_In, in_concat. split.
  - intros (pts & Hpts%list_elem_of_In & Hp%list_elem_of_In).
    apply list_elem_of_fmap in Hpts as ([sid sh] & -> & Hin%elem_of_hash_iter).
    apply list_elem_of_fmap in Hp as (i & -> & Hi%elem_of_seq). exists sh, i. simpl. lia || eauto with lia.
  - intros (sh & i & Hsh & Hi & Hh). exists (shard_points (vnodes s) (pt_shard p) sh).
    rewrite <-!list_elem_of_In. split.
    + apply list_elem_of_fmap. exists (pt_shard p, sh). by rewrite elem_of_hash_iter.
    + apply list_elem_of_fmap. exists i. rewrite elem_of_seq. split; [|lia].
      destruct p; simpl in *. by subst.
Qed.

Lemma sharding_inv_new env : sharding_inv (new_sharding env).
Proof.
  split; [apply sort_by_key_sorted|intros p; exact (elem_of_build (sharding_fields env) p)| |done].
  apply register_shards_ids. intros sid sh. by rewrite lookup_empty.
Qed.

(** Operations on a registered shard that keep its id and address keep the invariant. *)
Lemma sharding_inv_update s sid sh sh' :
  shards s !! sid = Some sh → shard_id sh' = shard_id sh → address sh' = address sh →
  sharding_inv s → sharding_inv (s <| shards ::= <[sid := sh']> |>).
Proof.
  intros Hsh Hid Ha [Hs Hr Hi Hm]. split; simpl; try done.
  - intros p. rewrite Hr. unfold is_vnode; simpl. split; intros (sh1 & i & H1 & H2 & H3).
    + destruct (decide (pt_shard p = sid)) as [<-|Hne].
      * rewrite lookup_insert_eq. exists sh', i. simplify_eq. by rewrite Ha.
      * rewrite lookup_insert_ne by done. eauto.
    + destruct (decide (pt_shard p = sid)) as [<-|Hne].
      * rewrite lookup_insert_eq in H1. simplify_eq. exists sh, i. by rewrite <-Ha.
      * rewrite lookup_insert_ne in H1 by done. eauto.
  - intros sid' sh1. rewrite lookup_insert. case_decide; [|apply Hi].
    intros; simplify_eq. rewrite Hid. by apply Hi.
Qed.

Lemma route_state s key :
  (route s key).2 =
  if is_ok (route s key).1 then s <| queries_routed ::= λ n, add64 n 1 |> else s.
Proof. unfold route. by destruct (match strategy s with Hash => _ | Range => _ | Directory => _ end). Qed.

Lemma sharding_inv_step s o : sharding_inv s → sharding_inv (sharding_step s o).2.
Proof.
  intros Hinv. destruct o as [key|sid a b|key sid|sid h]; simpl.
  - pose proof (route_state s key) as Hroute. destruct (route s key) as [r s']. simpl in *.
    destruct Hinv, r; subst s'; by split.
  - unfold set_range. destruct (shards s !! sid) as [sh|] eqn:Hsh; simpl; [|done].
    by eapply sharding_inv_update.
  - by destruct Hinv; split.
  - unfold set_shard_health. destruct (shards s !! sid) as [sh|] eqn:Hsh; simpl; [|done].
    by eapply sharding_inv_update.
Qed.

Lemma sharding_inv_run s os : sharding_inv s → sharding_inv (sharding_run s os).2.
Proof.
  revert s. induction os as [|o os IH]; intros s Hinv; simpl; [done|].
  pose proof (sharding_inv_step s o Hinv) as Hstep.
  destruct (sharding_step s o) as [r s1]. specialize (IH s1 Hstep).
  by destruct (sharding_run s1 os).
Qed.

(** The index computed by [route_hash] is that of the owner. *)
Lemma search_owner ring h :
  sorted_by pt_hash ring → ring ≠ [] →
  ∃ p, ring !! match binary_search pt_hash ring h with
               | Ok i => i | Err i => (i `mod` length ring)%nat end = Some p ∧
       ring_owner ring h p.
Proof.
  intros Hs Hne. destruct (binary_search pt_hash ring h) as [i|i] eqn:Hb.
  - destruct (binary_search_ok _ _ _ _ _ Hs Hb) as (p & Hp & <-). exists p. split; [done|].
    split; [by eapply list_elem_of_lookup_2|]. left. split; [lia|done].
  - destruct (binary_search_err _ _ _ _ _ Hs Hb) as [Hle Hall].
    assert (0 < length ring)%nat as Hpos by (destruct ring; [done|simpl; lia]).
    destruct (decide (i = length ring)) as [->|Hlt].
    + rewrite Nat.Div0.mod_same. destruct ring as [|p r]; [done|]. exists p. split; [done|].
      split; [by constructor|]. right. split.
      * intros q [j Hj]%list_elem_of_lookup. apply (Hall j q Hj). by apply lookup_lt_Some in Hj.
      * intros q [j Hj]%list_elem_of_lookup.
        by apply (sorted_by_lookup pt_hash (p :: r) 0 j p q Hs ltac:(lia)).
    + rewrite Nat.mod_small by lia.
      destruct (lookup_lt_is_Some_2 ring i ltac:(lia)) as [p Hp]. exists p. split; [done|].
      split; [by eapply list_elem_of_lookup_2|]. left.
      destruct (Hall i p Hp) as [_ Hge]. specialize (Hge ltac:(lia)). split; [lia|].
      intros q [j Hj]%list_elem_of_lookup Hq. destruct (Hall j q Hj) as [Hlo _].
      destruct (decide (j < i)%nat); [specialize (Hlo ltac:(lia)); lia|].
      by apply (sorted_by_lookup pt_hash ring i j p q Hs ltac:(lia)).
Qed.

(** [route_hash] under the invariant *)
Lemma route_hash_cases s key :
  sharding_inv s →
  (hash_ring s = [] ∧ route_hash s key = Err "No shards available in hash ring") ∨
  ∃ p sh, ring_owner (hash_ring s) (hash_key key) p ∧ shards s !! pt_shard p = Some sh ∧
          route_hash s key =
          if healthy sh then Ok (pt_shard p, address sh)
          else Err ("Shard " +:+ pretty (pt_shard p) +:+ " is unhealthy").
Proof.
  intros Hinv. unfold route_hash. case_bool_decide as Hne; [by left|right].
  destruct (search_owner (hash_ring s) (hash_key key) (inv_sorted _ Hinv) Hne) as (p & -> & Hp).
  destruct (proj1 (inv_ring _ Hinv p) (proj1 Hp)) as (sh & i & Hsh & _).
  exists p, sh. rewrite Hsh, (inv_ids _ Hinv _ _ Hsh). by destruct (healthy sh).
Qed.

(** C39.  Consistent hashing finds the right shard: on a shim built from any
    environment and after any operations, the ring holds exactly the virtual
    nodes of the registered shards, and [route_hash] answers with the shard of
    the next virtual node clockwise from the key's hash (wrapping to the first)
    when that shard is healthy, with the "unhealthy" error when it is not, and
    with "no shards" exactly when there is no virtual node; it never reports a
    missing shard. *)
Theorem route_hash_owner env os key :
  let s := (sharding_run (new_sharding env) os).2 in
  (∀ p, p ∈ hash_ring s ↔ is_vnode s p) ∧
  match route_hash s key with
  | Ok (sid, addr) =>
      ∃ p sh, ring_owner (hash_ring s) (hash_key key) p ∧ pt_shard p = sid ∧
              shards s !! sid = Some sh ∧ address sh = addr ∧ healthy sh = true
  | Err msg =>
      (hash_ring s = [] ∧ msg = "No shards available in hash ring") ∨
      ∃ p sh, ring_owner (hash_ring s) (hash_key key) p ∧
              shards s !! pt_shard p = Some sh ∧ healthy sh = false ∧
              msg = "Shard " +:+ pretty (pt_shard p) +:+ " is unhealthy"
  end.
Proof.
  intros s. assert (sharding_inv s) as Hinv by apply sharding_inv_run, sharding_inv_new.
  split; [apply (inv_ring _ Hinv)|].
  destruct (route_hash_cases s key Hinv) as [[Hne ->]|(p & sh & Hp & Hsh & ->)]; [by left|].
  destruct (healthy sh) eqn:Hh; [|right]; exists p, sh; done.
Qed.

(** *** Stability of the ring *)

Definition hash_inj (ring : list HashRingPoint) : Prop :=
  ∀ p q, p ∈ ring → q ∈ ring → pt_hash p = pt_hash q → p = q.

Lemma ring_owner_unique ring h p q :
  hash_inj ring → ring_owner ring h p → ring_owner ring h q → p = q.
Proof.
  intros Hinj [Hp [[Hph Hpm]|[Hpa Hpm]]] [Hq [[Hqh Hqm]|[Hqa Hqm]]]; apply Hinj; try done.
  - specialize (Hpm q Hq Hqh). specialize (Hqm p Hp Hph). lia.
  - specialize (Hqa p Hp). lia.
  - specialize (Hpa q Hq). lia.
  - specialize (Hpm q Hq). specialize (Hqm p Hp). lia.
Qed.

Lemma ring_owner_subset ring ring' h p :
  ring_owner ring' h p → p ∈ ring → ring ⊆ ring' → ring_owner ring h p.
Proof. intros [_ Hp] Hin Hsub. split; [done|]. destruct Hp as [[? Hm]|[Ha Hm]]; [left|right]; eauto 10. Qed.

Lemma new_sharding_lookup env sid :
  Z.of_nat (length (sharding_addresses env)) ≤ 2 ^ 32 →
  shards (new_sharding env) !! sid =
  if decide (0 ≤ sid < Z.of_nat (length (sharding_addresses env)))
  then (λ addr, mkShardMapping sid addr None None true) <$>
         sharding_addresses env !! Z.to_nat sid
  else None.
Proof.
  intros Hlen. change (shards _) with (register_shards 0 (sharding_addresses env) ∅).
  rewrite register_shards_lookup by (simpl; lia). simpl. by rewrite lookup_empty, Z.sub_0_r.
Qed.

(** The second configuration of the theorem below, against the first. *)
Section added_shard.
Context (env env' : environment) (a : string).
Context (Haddr : sharding_addresses env' = sharding_addresses env ++ [a]).
Context (Hvn : vnodes (new_sharding env') = vnodes (new_sharding env)).
Context (Hlen : Z.of_nat (length (sharding_addresses env')) ≤ 2 ^ 32).
Let n : Z := Z.of_nat (length (sharding_addresses env)).

Lemma added_shard_lookup sid :
  shards (new_sharding env') !! sid =
  if decide (sid = n) then Some (mkShardMapping n a None None true)
  else shards (new_sharding env) !! sid.
Proof.
  assert (length (sharding_addresses env') = S (length (sharding_addresses env))) as Hlen'
    by (rewrite Haddr, length_app; simpl; lia).
  rewrite !new_sharding_lookup by lia. rewrite Hlen', Haddr. unfold n.
  destruct (decide (sid = Z.of_nat (length (sharding_addresses env)))) as [->|Hne].
  - rewrite decide_True by lia. rewrite lookup_app_r by lia. by rewrite Nat2Z.id, Nat.sub_diag.
  - destruct (decide (0 ≤ sid < Z.of_nat (length (sharding_addresses env)))).
    + rewrite decide_True by lia. by rewrite lookup_app_l by lia.
    + by rewrite decide_False by lia.
Qed.

Lemma old_shard_lookup : shards (new_sharding env) !! n = None.
Proof.
  pose proof (length_app (sharding_addresses env) [a]) as Hl. rewrite <-Haddr in Hl.
  unfold n. by rewrite new_sharding_lookup, decide_False by lia.
Qed.

Lemma added_shard_ring p :
  p ∈ hash_ring (new_sharding env) ↔ p ∈ hash_ring (new_sharding env') ∧ pt_shard p ≠ n.
Proof.
  rewrite (inv_ring _ (sharding_inv_new env)), (inv_ring _ (sharding_inv_new env')).
  unfold is_vnode. rewrite Hvn, added_shard_lookup. case_decide as Hd; [|tauto].
  rewrite Hd, old_shard_lookup. split; [by intros (? & ? & ? & _)|by intros [_ []]].
Qed.
End added_shard.

(** Adding a shard moves keys only to it: take two configurations with the
    same number of virtual nodes, the second with one more address at the end.
    If no two virtual nodes of the larger ring have the same hash, every key is
    either routed by both to the same shard and address, or by the second to the
    new shard. *)
Theorem added_shard_only_attracts env env' a key :
  sharding_addresses env' = sharding_addresses env ++ [a] →
  vnodes (new_sharding env') = vnodes (new_sharding env) →
  Z.of_nat (length (sharding_addresses env')) ≤ 2 ^ 32 →
  NoDup (pt_hash <$> hash_ring (new_sharding env')) →
  hash_ring (new_sharding env) ≠ [] →
  route_hash (new_sharding env') key = route_hash (new_sharding env) key ∨
  route_hash (new_sharding env') key = Ok (Z.of_nat (length (sharding_addresses env)), a).
Proof.
  intros Haddr Hvn Hlen Hnd Hne.
  pose proof (added_shard_ring env env' a Haddr Hvn Hlen) as Hring.
  pose proof (added_shard_lookup env env' a Haddr Hlen) as Hlookup.
  set (n := Z.of_nat (length (sharding_addresses env))) in *.
  assert (hash_inj (hash_ring (new_sharding env))) as Hinj.
  { intros p q [Hp _]%Hring [Hq _]%Hring. by apply (NoDup_fmap_inj_in pt_hash _ p q Hnd). }
  destruct (route_hash_cases _ key (sharding_inv_new env)) as [[? _]|(p & sh & Hp & Hsh & ->)]; [done|].
  destruct (route_hash_cases _ key (sharding_inv_new env')) as [[Hnil _]|(p' & sh' & Hp' & Hsh' & ->)].
  { exfalso. destruct Hp as [[Hin _]%Hring _]. rewrite Hnil in Hin. by apply elem_of_nil in Hin. }
  rewrite Hlookup in Hsh'. case_decide as Hd; [right; injection Hsh' as <-; by rewrite Hd|left].
  assert (p' = p) as ->; [|by rewrite Hsh in Hsh'; injection Hsh' as <-].
  eapply (ring_owner_unique _ _ _ _ Hinj); [|done].
  eapply (ring_owner_subset _ _ _ _ Hp'); [apply Hring; split; [apply Hp'|done]|].
  by intros q [Hq _]%Hring.
Qed.

(** ** Range routing and counters *)

(** The first shard found is one whose range holds the value. *)
Lemma route_range_cases s key val :
  parse_i64 key = Some val →
  (∃ sid sh, shards s !! sid = Some sh ∧ in_range val sh = true ∧
             route_range s key = Ok (shard_id sh, address sh)) ∨
  (∀ sid sh, shards s !! sid = Some sh → in_range val sh = false) ∧
  route_range s key = Err ("No shard found for range value: " +:+ pretty val).
Proof.
  intros Hval. unfold route_range. rewrite Hval.
  destruct (List.find _ _) as [sh|] eqn:Hf; [left|right].
  - apply find_some in Hf as [Hin%list_elem_of_In Hr].
    apply list_elem_of_fmap in Hin as ([sid sh'] & -> & Hin%elem_of_hash_iter). eauto.
  - split; [|done]. intros sid sh Hsh. apply (find_none _ _ Hf), list_elem_of_In.
    apply list_elem_of_fmap. exists (sid, sh). by rewrite elem_of_hash_iter.
Qed.

Lemma sharding_run_routed s os rs s' :
  sharding_run s os = (rs, s') → in_u 64 (queries_routed s) →
  queries_routed s' =
    add64 (queries_routed s) (Z.of_nat (length (filter (λ r, is_ok r = true) rs))).
Proof.
  revert s rs. induction os as [|o os IH]; intros s rs Hrun Hu; simpl in Hrun.
  { simplify_eq. by rewrite add64_0_r. }
  destruct (sharding_step s o) as [r s1] eqn:Ho.
  destruct (sharding_run s1 os) as [rs1 s2] eqn:Hos. simplify_eq.
  assert (r = None ∧ queries_routed s1 = queries_routed s ∨
          ∃ res, r = Some res ∧ queries_routed s1 =
            if is_ok res then add64 (queries_routed s) 1 else queries_routed s) as Hs1.
  { destruct o as [key|sid x y|key sid|sid h]; simpl in Ho.
    - pose proof (route_state s key) as Hst. destruct (route s key) as [res s3]. simplify_eq/=.
      right. exists res. by destruct (is_ok res).
    - left. unfold set_range in Ho. by case_match; simplify_eq/=.
    - left. by simplify_eq/=.
    - left. unfold set_shard_health in Ho. by case_match; simplify_eq/=. }
  destruct Hs1 as [[-> Hq]|(res & -> & Hq)]; simpl.
  - rewrite <-Hq. apply (IH _ _ Hos). by rewrite Hq.
  - rewrite (IH _ _ Hos) by (rewrite Hq; destruct (is_ok res); [apply add64_range|done]).
    rewrite Hq, filter_cons. destruct (is_ok res); simpl; [|done].
    rewrite add64_assoc_l. f_equal. lia.
Qed.

(** The hit rate cannot fall: no operation ever counts a miss, so after any
    run that begins with [new] the routed counter is the number of successful
    routings (modulo 2^64), the missed counter is still 0 whatever number of
    routings failed, and the reported hit rate is 0.0 or the quotient of the
    routed counter by itself. *)
Theorem misses_never_counted env os rs s :
  sharding_run (new_sharding env) os = (rs, s) →
  queries_missed s = 0 ∧
  queries_routed s = wrap 64 (Z.of_nat (length (filter (λ r, is_ok r = true) rs))) ∧
  hit_rate s = if queries_routed s =? 0 then f64_of_Z 0
               else f64_div (f64_of_Z (queries_routed s)) (f64_of_Z (queries_routed s)).
Proof.
  intros Hrun.
  pose proof (sharding_inv_run _ os (sharding_inv_new env)) as Hinv. rewrite Hrun in Hinv.
  pose proof (inv_missed _ Hinv) as Hm. simpl in Hm.
  pose proof (sharding_run_routed _ _ _ _ Hrun) as Hq. simpl in Hq.
  specialize (Hq ltac:(unfold in_u; lia)). unfold add64 in Hq. rewrite Z.add_0_l in Hq. split_and!; [done..|].
  unfold hit_rate. rewrite Hm, add64_0_r; [done|]. rewrite Hq. by apply wrap_range.
Qed.

End sharding.

(** Range routing does not depend on the iteration order of the map when
    the ranges of the healthy shards do not overlap; it answers with a healthy
    shard whose half-open range holds the value, and fails exactly when the key
    is no 64-bit integer or no range holds it. *)
Theorem route_range_order_free (O1 O2 : HashOrder) s key :
  (∀ v sid1 sh1 sid2 sh2, shards s !! sid1 = Some sh1 → shards s !! sid2 = Some sh2 →
     in_range v sh1 = true → in_range v sh2 = true → sh1 = sh2) →
  @route_range O1 s key = @route_range O2 s key ∧
  (is_ok (@route_range O1 s key) = true ↔
   ∃ v sid sh, parse_i64 key = Some v ∧ shards s !! sid = Some sh ∧ in_range v sh = true).
Proof.
  intros Hdisj. destruct (parse_i64 key) as [v|] eqn:Hv.
  - destruct (@route_range_cases O1 s key v Hv) as [(i1 & s1 & H1 & R1 & E1)|[N1 E1]],
      (@route_range_cases O2 s key v Hv) as [(i2 & s2 & H2 & R2 & E2)|[N2 E2]];
      rewrite E1, E2.
    + rewrite (Hdisj v i1 s1 i2 s2) by done. split; [done|]. simpl. split; [by eauto 10|done].
    + by rewrite (N2 _ _ H1) in R1.
    + by rewrite (N1 _ _ H2) in R2.
    + split; [done|]. simpl. split; [done|]. intros (v' & i & sh & [= <-] & Hsh & Hr).
      by rewrite (N1 _ _ Hsh) in Hr.
  - unfold route_range. rewrite Hv. split; [done|]. simpl. by split; [|intros (?&?&?&?&_)].
Qed.

(** ** Concrete runs *)

Section sharding_runs.
#[local] Instance sharding_order : HashOrder := canonical_order.
#[local] Instance sharding_search : BinarySearch := linear_search.

Definition two_shards : environment :=
  {["SHARDING_ADDRESSES" := "db1:5432,db2:5432"; "SHARDING_VNODES" := "3"]}.
Definition three_shards : environment :=
  {["SHARDING_ADDRESSES" := "db1:5432,db2:5432,db3:5432"; "SHARDING_VNODES" := "3"]}.

Lemma added_shard_only_attracts_witness :
  route_hash (new_sharding three_shards) "user:42" = route_hash (new_sharding two_shards) "user:42" ∨
  route_hash (new_sharding three_shards) "user:42" = Ok (2, "db3:5432").
Proof.
  refine (added_shard_only_attracts two_shards three_shards "db3:5432" "user:42" _ _ _ _ _).
  - vm_compute. reflexivity.
  - vm_compute. reflexivity.
  - vm_compute. discriminate.
  - apply (bool_decide_unpack _). vm_compute. exact I.
  - vm_compute. discriminate.
Defined.

Lemma misses_never_counted_witness :
  queries_missed (sharding_run (new_sharding ∅) [OpRoute "user:42"]).2 = 0.
Proof.
  exact (proj1 (misses_never_counted ∅ [OpRoute "user:42"] _ _ (surjective_pairing _))).
Defined.

Definition ranged : ShardingShim :=
  (new_sharding ∅) <| shards := {[1 := mkShardMapping 1 "db1" (Some 0) (Some 10) true;
                                   2 := mkShardMapping 2 "db2" (Some 10) (Some 20) true]} |>.

Lemma route_range_order_free_witness :
  @route_range canonical_order ranged "12" = @route_range reversed_order ranged "12".
Proof.
  refine (proj1 (route_range_order_free canonical_order reversed_order ranged "12" _)).
  intros v i1 s1 i2 s2 H1 H2 R1 R2. unfold ranged in H1, H2. simpl in H1, H2.
  apply lookup_insert_Some in H1 as [[<- <-]|[_ [<- <-]%lookup_singleton_Some]],
    H2 as [[<- <-]|[_ [<- <-]%lookup_singleton_Some]]; try reflexivity;
    unfold in_range in R1, R2; simpl in R1, R2; bool_prop; lia.
Defined.
End sharding_runs.
