(* ===== verification/Cache.v ===== *)
(** * The in-process cache ([cache-shim/src/lib.rs])

    A map with an expiry per entry, bounded in bytes and in entries, evicting
    by recency, frequency or age.  Every operation runs under the write lock, so
    an execution is a sequence of whole operations. *)

From S2P Require Import Prelude.

Abbreviation bytes := (list Byte.byte).

(** [CacheEntry] *)
Record CacheEntry := mkCacheEntry {
  entry_key : string;
  value : bytes;
  entry_size : Z;
  created_at : Z;
  expires_at : Z;
  last_accessed : Z;
  access_count : Z
}.
#[export] Instance CacheEntry_settable : Settable CacheEntry := λ e,
  mkCacheEntry (entry_key e) (value e) (entry_size e) (created_at e) (expires_at e)
    (last_accessed e) (access_count e).

(** [EvictionStrategy] *)
Inductive EvictionStrategy := Lru | Lfu | Fifo.
#[export] Instance EvictionStrategy_eq_dec : EqDecision EvictionStrategy.
Proof. solve_decision. Defined.

Definition eviction_display (s : EvictionStrategy) : string :=
  match s with Lru => "lru" | Lfu => "lfu" | Fifo => "fifo" end.
Definition eviction_from_str (s : string) : result string EvictionStrategy :=
  let l := to_lowercase s in
  if bool_decide (l = "lru") then Ok Lru
  else if bool_decide (l = "lfu") then Ok Lfu
  else if bool_decide (l = "fifo") then Ok Fifo
  else Err ("Unknown eviction strategy: " +:+ s).

(** [CacheInner] and [CacheInner::new] *)
Record CacheInner := mkCacheInner {
  entries : gmap string CacheEntry;
  access_order : list string;
  insert_order : list string;
  hits : Z;
  misses : Z;
  evictions : Z;
  size_bytes : Z
}.
#[export] Instance CacheInner_settable : Settable CacheInner := λ i,
  mkCacheInner (entries i) (access_order i) (insert_order i) (hits i) (misses i)
    (evictions i) (size_bytes i).
Definition new_inner : CacheInner :=
  {| entries := ∅; access_order := []; insert_order := []; hits := 0; misses := 0;
     evictions := 0; size_bytes := 0 |}.

(** The configuration half of [CacheShim], and [CacheShim::new] *)
Record CacheShim := mkCacheShim {
  ttl_secs : Z;
  max_size : Z;
  max_entries : Z;
  cache_strategy : EvictionStrategy;
  prefix : string;
  sweep_interval_secs : Z
}.
Definition new_cache (env : environment) : CacheShim :=
  {| ttl_secs := env_parse env "CACHE_TTL" parse_u64 300;
     max_entries := env_parse env "CACHE_MAX_ENTRIES" parse_usize 10000;
     max_size := env_parse env "CACHE_MAX_SIZE" parse_u64 1073741824;
     cache_strategy := match eviction_from_str (env_or env "CACHE_STRATEGY" "lru") with
                       | Ok s => s
                       | Err _ => Lru
                       end;
     prefix := env_or env "CACHE_PREFIX" "shim:";
     sweep_interval_secs := env_parse env "CACHE_SWEEP_INTERVAL" parse_u64 60 |}.

(** How a call of [set] ends: an eviction loop that does not end and a panic of
    the date arithmetic are outcomes of their own. *)
Inductive set_outcome := Returned (b : bool) | Panicked | Diverged.

Definition entry_count (i : CacheInner) : Z := Z.of_nat (size (entries i)).
Definition value_len (v : bytes) : Z := Z.of_nat (length v).

Section cache.
Context `{HO : HashOrder} `{CH : Chrono} (c : CacheShim).
Implicit Types (i : CacheInner) (k key : string) (e : CacheEntry).

(** [full_key] *)
Definition full_key (key : string) : string := prefix c +:+ key.

(** Dropping an entry: the map, the byte count and both orders *)
Definition remove_entry (k : string) (i : CacheInner) : CacheInner :=
  match entries i !! k with
  | Some e =>
      i <| entries ::= delete k |>
        <| size_bytes ::= λ n, sub64 n (entry_size e) |>
        <| access_order ::= retain_ne k |>
        <| insert_order ::= retain_ne k |>
  | None => i
  end.

(** [get], with the two readings of the clock *)
Definition get (key : string) (now now' : Z) (i : CacheInner) : option bytes * CacheInner :=
  let k := full_key key in
  match entries i !! k with
  | None => (None, i <| misses ::= λ n, add64 n 1 |>)
  | Some e =>
      if expires_at e <? now
      then (None, (remove_entry k i) <| misses ::= λ n, add64 n 1 |>)
      else (Some (value e),
            i <| entries ::= <[k := e <| last_accessed := now' |>
                                       <| access_count ::= λ n, add64 n 1 |>]> |>
              <| access_order ::= λ l, retain_ne k l ++ [k] |>
              <| hits ::= λ n, add64 n 1 |>)
  end.

(** The victim of [evict_one_inner] *)
Definition victim_key (i : CacheInner) : option string :=
  match cache_strategy c with
  | Lru => head (access_order i)
  | Fifo => head (insert_order i)
  | Lfu => fst <$> min_by_key (λ kv, access_count kv.2) (hash_iter (entries i))
  end.

(** [evict_one_inner] *)
Definition evict_one_inner (i : CacheInner) : bool * CacheInner :=
  if bool_decide (entries i = ∅) then (false, i)
  else match victim_key i with
       | Some k =>
           (true, match entries i !! k with
                  | Some e => (remove_entry k i) <| evictions ::= λ n, add64 n 1 |>
                  | None => i
                  end)
       | None => (false, i)
       end.

(** [while over(inner) { if !evict_one_inner(inner) { break } }]; [None] when
    the fuel runs out. *)
Fixpoint evict_while (over : CacheInner → bool) (fuel : nat) (i : CacheInner)
    : option CacheInner :=
  if over i then
    match fuel with
    | O => None
    | S fuel => let '(evicted, i) := evict_one_inner i in
                if evicted then evict_while over fuel i else Some i
    end
  else Some i.

Definition over_size (i : CacheInner) : bool := max_size c <? size_bytes i.
Definition over_count (i : CacheInner) : bool := max_entries c <=? entry_count i.

(** [set]; the fuel of each loop is one more than the number of entries. *)
Definition set_entry (key : string) (v : bytes) (now : Z) (i : CacheInner)
    : set_outcome * CacheInner :=
  let k := full_key key in
  let value_size := value_len v in
  if max_size c <? value_size then (Returned false, i)
  else
    let i := remove_entry k i in
    let i := i <| size_bytes ::= λ n, add64 n value_size |> in
    match evict_while over_size (S (size (entries i))) i with
    | None => (Diverged, i)
    | Some i =>
        match evict_while over_count (S (size (entries i))) i with
        | None => (Diverged, i)
        | Some i =>
            match plus_seconds now (as_i64 (ttl_secs c)) with
            | None => (Panicked, i)
            | Some deadline =>
                (Returned true,
                 i <| entries ::= <[k := {| entry_key := key; value := v;
                                            entry_size := value_size; created_at := now;
                                            expires_at := deadline; last_accessed := now;
                                            access_count := 0 |}]> |>
                   <| access_order ::= λ l, l ++ [k] |>
                   <| insert_order ::= λ l, l ++ [k] |>)
            end
        end
    end.

(** [invalidate] *)
Definition invalidate (key : string) (i : CacheInner) : bool * CacheInner :=
  let k := full_key key in
  match entries i !! k with
  | Some _ => (true, remove_entry k i)
  | None => (false, i)
  end.

Definition remove_entries (ks : list string) (i : CacheInner) : CacheInner :=
  foldl (flip remove_entry) i ks.

(** [invalidate_prefix] *)
Definition invalidate_prefix (p : string) (i : CacheInner) : Z * CacheInner :=
  let full_prefix := prefix c +:+ p in
  let ks := filter (λ k, starts_with k full_prefix = true) (hash_keys (entries i)) in
  (Z.of_nat (length ks), remove_entries ks i).

(** The keys [purge_expired] and [sweep_expired] collect *)
Definition expired_keys (now : Z) (i : CacheInner) : list string :=
  fst <$> filter (λ kv, (expires_at kv.2 <? now) = true) (hash_iter (entries i)).

(** [purge_expired] *)
Definition purge_expired (now : Z) (i : CacheInner) : Z * CacheInner :=
  let i' := remove_entries (expired_keys now i) i in
  (entry_count i - entry_count i', i').

(** [sweep_expired], the background task's body *)
Definition sweep_expired (now : Z) (i : CacheInner) : CacheInner :=
  remove_entries (expired_keys now i) i.

(** [clear] *)
Definition clear (i : CacheInner) : CacheInner :=
  i <| entries := ∅ |> <| access_order := [] |> <| insert_order := [] |>
    <| size_bytes := 0 |>.

(** [exists] *)
Definition exists_key (key : string) (now : Z) (i : CacheInner) : bool :=
  match entries i !! full_key key with
  | Some e => now <=? expires_at e
  | None => false
  end.

(** [hit_rate] *)
Definition cache_hit_rate (i : CacheInner) : f64 :=
  let total := add64 (hits i) (misses i) in
  if total =? 0 then f64_of_Z 0 else f64_div (f64_of_Z (hits i)) (f64_of_Z total).

(** [metrics] *)
Definition cache_metrics (i : CacheInner) : list (string * f64) :=
  [("cache_hits_total", f64_of_Z (hits i)); ("cache_misses_total", f64_of_Z (misses i));
   ("cache_evictions_total", f64_of_Z (evictions i));
   ("cache_size_bytes", f64_of_Z (size_bytes i)); ("cache_entries", f64_of_Z (entry_count i));
   ("cache_hit_rate", cache_hit_rate i)].

(** An execution: calls and sweeps in the order in which they take the lock *)
Inductive cache_op :=
| CGet (key : string) (now now' : Z)
| CSet (key : string) (v : bytes) (now : Z)
| CInvalidate (key : string)
| CInvalidatePrefix (p : string)
| CPurge (now : Z)
| CSweep (now : Z)
| CClear
| CExists (key : string) (now : Z).
Inductive cache_out :=
| RGet (v : option bytes)
| RSet (r : set_outcome)
| RBool (b : bool)
| RCount (n : Z)
| RUnit.
Definition cache_step (i : CacheInner) (o : cache_op) : cache_out * CacheInner :=
  match o with
  | CGet key now now' => let '(v, i) := get key now now' i in (RGet v, i)
  | CSet key v now => let '(r, i) := set_entry key v now i in (RSet r, i)
  | CInvalidate key => let '(b, i) := invalidate key i in (RBool b, i)
  | CInvalidatePrefix p => let '(n, i) := invalidate_prefix p i in (RCount n, i)
  | CPurge now => let '(n, i) := purge_expired now i in (RCount n, i)
  | CSweep now => (RUnit, sweep_expired now i)
  | CClear => (RUnit, clear i)
  | CExists key now => (RBool (exists_key key now i), i)
  end.
Fixpoint cache_run (i : CacheInner) (os : list cache_op)
    : list (cache_op * cache_out) * CacheInner :=
  match os with
  | [] => ([], i)
  | o :: rest =>
      let '(r, i) := cache_step i o in
      let '(rs, i) := cache_run i rest in
      ((o, r) :: rs, i)
  end.

(** ** Invariant *)

Definition total_size (m : gmap string CacheEntry) : Z :=
  sum_list_Z (λ kv, entry_size kv.2) (map_to_list m).

(** Both orders enumerate the keys once each, and the byte count is the sum of
    the entries' sizes plus the [extra] bytes reserved for the value being set. *)
Record cache_core (extra : Z) (i : CacheInner) : Prop := {
  core_access_nodup : NoDup (access_order i);
  core_access : ∀ k, k ∈ access_order i ↔ is_Some (entries i !! k);
  core_insert_nodup : NoDup (insert_order i);
  core_insert : ∀ k, k ∈ insert_order i ↔ is_Some (entries i !! k);
  core_sizes : ∀ k e, entries i !! k = Some e → entry_size e = value_len (value e);
  core_size : size_bytes i = total_size (entries i) + extra;
  core_u : 0 ≤ extra ∧ in_u 64 (size_bytes i)
}.

Record cache_inv (i : CacheInner) : Prop := {
  inv_core : cache_core 0 i;
  inv_size : size_bytes i ≤ max_size c;
  inv_count : entry_count i ≤ Z.max 1 (max_entries c)
}.

Lemma total_size_delete m k e :
  m !! k = Some e → total_size m = entry_size e + total_size (delete k m).
Proof. intros Hk. unfold total_size. by rewrite <-(map_to_list_delete m k e Hk). Qed.
Lemma total_size_insert m k e :
  m !! k = None → total_size (<[k:=e]> m) = entry_size e + total_size m.
Proof. intros Hk. unfold total_size. by rewrite map_to_list_insert. Qed.
Lemma core_total_nonneg extra i : cache_core extra i → 0 ≤ total_size (entries i).
Proof.
  intros Hc. apply sum_list_Z_nonneg. intros [k e] Hin%elem_of_map_to_list. simpl.
  rewrite (core_sizes _ _ Hc k e Hin). unfold value_len. lia.
Qed.

(** The keys of the map in some order, as a permutation of the orders kept. *)
Lemma order_perm (m : gmap string CacheEntry) l :
  NoDup l → (∀ k, k ∈ l ↔ is_Some (m !! k)) → l ≡ₚ (map_to_list m).*1.
Proof.
  intros Hnd Hl. apply NoDup_Permutation; [done|apply NoDup_fst_map_to_list|].
  intros k. rewrite Hl, list_elem_of_fmap. split.
  - intros [e He]. exists (k, e). by rewrite elem_of_map_to_list.
  - intros ([k' e] & -> & Hin%elem_of_map_to_list). eauto.
Qed.

Lemma remove_entry_entries k i : entries (remove_entry k i) = delete k (entries i).
Proof.
  unfold remove_entry. destruct (entries i !! k) eqn:Hk; simpl; [done|]. by rewrite delete_id.
Qed.
Lemma remove_entry_orders extra k i :
  cache_core extra i →
  access_order (remove_entry k i) = retain_ne k (access_order i) ∧
  insert_order (remove_entry k i) = retain_ne k (insert_order i).
Proof.
  intros Hc. unfold remove_entry. destruct (entries i !! k) eqn:Hk; simpl; [done|].
  assert (k ∉ access_order i) by (rewrite (core_access _ _ Hc), Hk; by intros []).
  assert (k ∉ insert_order i) by (rewrite (core_insert _ _ Hc), Hk; by intros []).
  by rewrite !retain_ne_notin by done.
Qed.
Lemma remove_entry_core extra k i :
  cache_core extra i →
  cache_core extra (remove_entry k i) ∧ size_bytes (remove_entry k i) ≤ size_bytes i.
Proof.
  intros Hc. pose proof Hc as [Han Ha Hin Hi Hsz Hs [Hx Hu]].
  destruct (remove_entry_orders extra k i Hc) as [Hoa Hoi].
  pose proof (core_total_nonneg _ _ Hc).
  assert (size_bytes (remove_entry k i) = total_size (delete k (entries i)) + extra ∧
          size_bytes (remove_entry k i) ≤ size_bytes i ∧
          in_u 64 (size_bytes (remove_entry k i))) as (Hs' & Hle & Hu').
  { unfold remove_entry. destruct (entries i !! k) as [e|] eqn:Hk; simpl.
    - pose proof (total_size_delete _ k e Hk). pose proof (Hsz _ _ Hk) as Hl. unfold value_len in Hl.
      assert (0 ≤ total_size (delete k (entries i))).
      { apply sum_list_Z_nonneg. intros [k' e'] [_ Hin']%elem_of_map_to_list%lookup_delete_Some. simpl.
        rewrite (Hsz k' e' Hin'). unfold value_len. lia. }
      unfold in_u in *. u_small. lia.
    - rewrite delete_id by done. done || lia. }
  split; [|done]. split; rewrite ?remove_entry_entries, ?Hoa, ?Hoi; auto with evergreen.
  - intros k'. rewrite elem_of_retain_ne, Ha, lookup_delete_is_Some. intuition congruence.
  - intros k'. rewrite elem_of_retain_ne, Hi, lookup_delete_is_Some. intuition congruence.
  - intros k' e' [_ He']%lookup_delete_Some. eauto.
Qed.

(** The fields the counters are in do not matter to the invariant. *)
Lemma cache_core_ext extra i j :
  entries j = entries i → access_order j = access_order i → insert_order j = insert_order i →
  size_bytes j = size_bytes i → cache_core extra i → cache_core extra j.
Proof. intros E1 E2 E3 E4 []. split; rewrite ?E1, ?E2, ?E3, ?E4; auto. Qed.

(** ** Eviction *)

(** The state after one eviction *)
Definition evicted (k : string) (i : CacheInner) : CacheInner :=
  (remove_entry k i) <| evictions ::= λ n, add64 n 1 |>.

Lemma evicted_core extra k i :
  cache_core extra i → cache_core extra (evicted k i) ∧ size_bytes (evicted k i) ≤ size_bytes i.
Proof.
  intros [Hc Hle]%(remove_entry_core extra k). split; [|done].
  by apply (cache_core_ext _ (remove_entry k i)).
Qed.

(** The order a strategy consults, when it consults one *)
Definition eviction_order (i : CacheInner) : list string :=
  match cache_strategy c with Fifo => insert_order i | _ => access_order i end.
Lemma eviction_order_core extra i :
  cache_core extra i →
  NoDup (eviction_order i) ∧ ∀ k, k ∈ eviction_order i ↔ is_Some (entries i !! k).
Proof. intros []. unfold eviction_order. by destruct (cache_strategy c). Qed.

(** Some entry is the victim whenever there is one: the least used with [Lfu],
    the front of the order otherwise. *)
Lemma evict_one_spec extra i :
  cache_core extra i → entries i ≠ ∅ →
  ∃ k e, entries i !! k = Some e ∧ victim_key i = Some k ∧ evict_one_inner i = (true, evicted k i) ∧
    match cache_strategy c with
    | Lfu => ∀ k' e', entries i !! k' = Some e' → access_count e ≤ access_count e'
    | _ => head (eviction_order i) = Some k
    end.
Proof.
  intros Hc Hne. unfold evict_one_inner. rewrite bool_decide_eq_false_2 by done.
  assert (∃ k e, entries i !! k = Some e ∧ victim_key i = Some k ∧
    match cache_strategy c with
    | Lfu => ∀ k' e', entries i !! k' = Some e' → access_count e ≤ access_count e'
    | _ => head (eviction_order i) = Some k
    end) as (k & e & Hk & Hvk & Hv); [|exists k, e; by rewrite Hvk, Hk].
  unfold victim_key. destruct (cache_strategy c) eqn:Hst.
  1, 3: destruct (eviction_order_core _ _ Hc) as [_ Ho];
    unfold eviction_order in *; rewrite Hst in *;
    destruct (map_choose _ Hne) as (k & e & He);
    assert (k ∈ (_ : list string)) as Hin by (apply Ho; eauto);
    match type of Hin with _ ∈ ?l => destruct l as [|k0 r] eqn:Hl end;
    [by apply elem_of_nil in Hin|];
    assert (is_Some (entries i !! k0)) as [e0 He0] by (apply Ho; constructor);
    by exists k0, e0.
  destruct (min_by_key_is_Some (λ kv : string * CacheEntry, access_count kv.2)
              (hash_iter (entries i))) as [[k e] Hm].
  { intros Hnil. by apply Hne, hash_iter_nil. }
  exists k, e. rewrite Hm. split_and!; [|done|].
  - apply elem_of_hash_iter. by apply min_by_key_elem in Hm.
  - intros k' e' He'. apply (min_by_key_le _ _ _ Hm (k', e')). by apply elem_of_hash_iter.
Qed.

Lemma evicted_size k e i :
  entries i !! k = Some e → size (entries i) = S (size (entries (evicted k i))).
Proof.
  intros Hk. simpl. rewrite remove_entry_entries, map_size_delete, Hk.
  assert (size (entries i) ≠ 0%nat); [|lia].
  intros E%map_size_empty_inv. rewrite E in Hk. by rewrite lookup_empty in Hk.
Qed.

(** Any property every eviction keeps holds at the end of a loop, which ends
    within as many rounds as there are entries. *)
Lemma evict_while_spec over extra (P : CacheInner → Prop) fuel i :
  cache_core extra i → P i → (size (entries i) < fuel)%nat →
  (∀ i k e, cache_core extra i → P i → over i = true → entries i !! k = Some e →
            victim_key i = Some k → P (evicted k i)) →
  ∃ i', evict_while over fuel i = Some i' ∧ cache_core extra i' ∧ P i' ∧
        (over i' = false ∨ entries i' = ∅) ∧ (over i = false → i' = i).
Proof.
  intros Hc HP Hf Hstep. revert i Hc HP Hf. induction fuel as [|f IH]; intros i Hc HP Hf.
  - lia.
  - simpl. destruct (over i) eqn:Ho; [|by exists i; auto 10].
    destruct (decide (entries i = ∅)) as [He|Hne].
    { unfold evict_one_inner. rewrite bool_decide_eq_true_2 by done. exists i. auto 10. }
    destruct (evict_one_spec _ _ Hc Hne) as (k & e & Hk & Hv & Hev & _). rewrite Hev.
    pose proof (evicted_size _ _ _ Hk) as Hsz.
    destruct (IH (evicted k i) (proj1 (evicted_core _ _ _ Hc)) ltac:(eauto) ltac:(lia))
      as (i' & ? & ? & ? & ? & _). by exists i'.
Qed.

(** ** [set] *)

(** The state in which the loops of [set] start *)
Definition set_reserved (k : string) (v : bytes) (i : CacheInner) : CacheInner :=
  (remove_entry k i) <| size_bytes ::= λ n, add64 n (value_len v) |>.
(** ... and the insertion that ends it *)
Definition set_inserted (key : string) (v : bytes) (now deadline : Z) (i : CacheInner)
    : CacheInner :=
  i <| entries ::= <[full_key key := mkCacheEntry key v (value_len v) now deadline now 0]> |>
    <| access_order ::= λ l, l ++ [full_key key] |>
    <| insert_order ::= λ l, l ++ [full_key key] |>.

Lemma set_reserved_core k v i :
  max_size c < 2 ^ 63 → cache_inv i → value_len v ≤ max_size c →
  cache_core (value_len v) (set_reserved k v i) ∧ entries (set_reserved k v i) !! k = None.
Proof.
  intros Hmax [Hc Hs _] Hv. destruct (remove_entry_core 0 k i Hc) as [Hc' Hle].
  split; [|simpl; rewrite remove_entry_entries; apply lookup_delete_eq].
  destruct Hc' as [? ? ? ? ? Hsz [_ Hu]].
  assert (0 ≤ value_len v) by (unfold value_len; lia).
  split; try done; unfold in_u in *; simpl; u_small; lia.
Qed.

(** What [set] does with a value that fits: the loops end, in a state that has
    room, and whatever the evictions preserve holds of it. *)
Lemma set_entry_spec (P : CacheInner → Prop) key v now i :
  max_size c < 2 ^ 63 → cache_inv i → value_len v ≤ max_size c →
  P (set_reserved (full_key key) v i) →
  (∀ j k e, cache_core (value_len v) j → P j → over_size j = true ∨ over_count j = true →
            entries j !! k = Some e → victim_key j = Some k → P (evicted k j)) →
  ∃ j, cache_core (value_len v) j ∧ P j ∧ entries j !! full_key key = None ∧
       entries j ⊆ entries i ∧ size_bytes j ≤ max_size c ∧
       (entry_count j < max_entries c ∨ entries j = ∅) ∧
       set_entry key v now i =
         match plus_seconds now (as_i64 (ttl_secs c)) with
         | Some deadline => (Returned true, set_inserted key v now deadline j)
         | None => (Panicked, j)
         end.
Proof.
  intros Hmax Hinv Hv HP Hstep.
  destruct (set_reserved_core (full_key key) v i Hmax Hinv Hv) as [Hc0 Hk0].
  set (k := full_key key) in *. set (i0 := set_reserved k v i) in *.
  pose (Q j := P j ∧ entries j ⊆ entries i0).
  assert (∀ over, (∀ j, over j = true → over_size j = true ∨ over_count j = true) →
    ∀ j k e, cache_core (value_len v) j → Q j → over j = true → entries j !! k = Some e →
             victim_key j = Some k → Q (evicted k j)) as HQ.
  { intros over Hover j k' e Hc [HPj Hsub] Ho Hk' Hvk. split; [eauto|].
    simpl. rewrite remove_entry_entries. etrans; [apply delete_subseteq|done]. }
  destruct (evict_while_spec over_size (value_len v) Q (S (size (entries i0))) i0 Hc0)
    as (i1 & E1 & Hc1 & HQ1 & Hend1 & _); [split; done|lia|apply HQ; auto|].
  destruct (evict_while_spec over_count (value_len v)
              (λ j, Q j ∧ size_bytes j ≤ max_size c) (S (size (entries i1))) i1 Hc1)
    as (i2 & E2 & Hc2 & [[HP2 Hsub2] Hs2] & Hend2 & _).
  - split; [done|]. destruct Hend1 as [Hend1|He1].
    + unfold over_size in Hend1. by bool_prop.
    + pose proof (core_size _ _ Hc1) as Hs. rewrite He1 in Hs. unfold total_size in Hs.
      rewrite map_to_list_empty in Hs. simpl in Hs. lia.
  - lia.
  - intros j k' e Hcj [HQj Hsj] Ho Hk' Hvk.
    split; [apply (HQ over_count) with (e := e); auto|].
    destruct (evicted_core _ k' _ Hcj) as [_ Hle]. lia.
  - exists i2. split_and!; try done.
    + apply eq_None_not_Some. intros [e He]. apply (lookup_weaken _ _ _ _ He) in Hsub2.
      congruence.
    + etrans; [exact Hsub2|]. unfold i0. simpl. rewrite remove_entry_entries.
      apply delete_subseteq.
    + destruct Hend2 as [Hend2|]; [left|by right]. unfold over_count in Hend2. by bool_prop.
    + unfold set_entry. fold k. rewrite (proj2 (Z.ltb_ge _ _)) by done.
      fold (set_reserved k v i). fold i0. rewrite E1, E2. by destruct (plus_seconds _ _).
Qed.

Lemma set_inserted_inv key v now deadline j :
  cache_core (value_len v) j → entries j !! full_key key = None →
  size_bytes j ≤ max_size c → (entry_count j < max_entries c ∨ entries j = ∅) →
  cache_inv (set_inserted key v now deadline j).
Proof.
  intros [Han Ha Hin Hi Hsz Hs [Hx Hu]] Hk Hm Hcount.
  assert (full_key key ∉ access_order j) by (rewrite Ha, Hk; by intros []).
  assert (full_key key ∉ insert_order j) by (rewrite Hi, Hk; by intros []).
  split; [split; simpl|done|].
  - apply NoDup_app. split_and!; [done| |apply NoDup_singleton].
    intros k' Hk' ->%list_elem_of_singleton. done.
  - intros k'. rewrite elem_of_app, list_elem_of_singleton, Ha, lookup_insert_is_Some.
    destruct (decide (full_key key = k')); intuition congruence.
  - apply NoDup_app. split_and!; [done| |apply NoDup_singleton].
    intros k' Hk' ->%list_elem_of_singleton. done.
  - intros k'. rewrite elem_of_app, list_elem_of_singleton, Hi, lookup_insert_is_Some.
    destruct (decide (full_key key = k')); intuition congruence.
  - intros k' e' [[<- <-]|[_ He']]%lookup_insert_Some; [done|eauto].
  - rewrite total_size_insert by done. simpl. lia.
  - split; [lia|done].
  - unfold entry_count in *. simpl. rewrite map_size_insert_None by done.
    destruct Hcount as [?|He]; [lia|]. rewrite He, map_size_empty. lia.
Qed.

Lemma set_entry_inv key v now i :
  max_size c < 2 ^ 63 → is_Some (plus_seconds now (as_i64 (ttl_secs c))) → cache_inv i →
  (set_entry key v now i).1 = Returned (value_len v <=? max_size c) ∧
  cache_inv (set_entry key v now i).2.
Proof.
  intros Hmax [d Hd] Hinv. destruct (Z.leb_spec (value_len v) (max_size c)) as [Hv|Hv].
  - destruct (set_entry_spec (λ _, True) key v now i) as (j & Hc & _ & Hk & _ & Hs & Hn & ->);
      [done..|]. rewrite Hd. split; [done|]. by apply set_inserted_inv.
  - unfold set_entry. rewrite (proj2 (Z.ltb_lt _ _)) by done. done.
Qed.

(** ** The other operations *)

Lemma cache_inv_ext i j :
  entries j = entries i → access_order j = access_order i → insert_order j = insert_order i →
  size_bytes j = size_bytes i → cache_inv i → cache_inv j.
Proof.
  intros E1 E2 E3 E4 [Hc Hs Hn]. split; [by apply (cache_core_ext _ i)|by rewrite E4|].
  unfold entry_count. by rewrite E1.
Qed.

Lemma remove_entry_inv k i : cache_inv i → cache_inv (remove_entry k i).
Proof.
  intros [Hc Hs Hn]. destruct (remove_entry_core 0 k i Hc) as [Hc' Hle].
  split; [done|lia|]. unfold entry_count in *. rewrite remove_entry_entries.
  rewrite map_size_delete. destruct (entries i !! k); unfold id; lia.
Qed.

Lemma remove_entries_lookup ks i k :
  entries (remove_entries ks i) !! k = if decide (k ∈ ks) then None else entries i !! k.
Proof.
  revert i. induction ks as [|k' ks IH]; intros i; simpl; [done|].
  rewrite IH. unfold flip. rewrite remove_entry_entries.
  destruct (decide (k ∈ ks)) as [Hin|Hin].
  - by rewrite decide_True by by constructor.
  - destruct (decide (k = k')) as [->|Hne].
    + rewrite decide_True by constructor. apply lookup_delete_eq.
    + rewrite decide_False by (rewrite elem_of_cons; tauto). by apply lookup_delete_ne.
Qed.
Lemma remove_entries_inv ks i : cache_inv i → cache_inv (remove_entries ks i).
Proof.
  revert i. induction ks as [|k ks IH]; intros i Hi; [done|]. by apply IH, remove_entry_inv.
Qed.

Lemma get_inv key now now' i : cache_inv i → cache_inv (get key now now' i).2.
Proof.
  intros Hinv. unfold get. destruct (entries i !! full_key key) as [e|] eqn:Hk;
    [destruct (expires_at e <? now)|].
  - by apply (cache_inv_ext (remove_entry (full_key key) i)), remove_entry_inv.
  - simpl. destruct Hinv as [[Han Ha Hin Hi Hsz Hs Hu] Hm Hn].
    assert (∀ k', is_Some (<[full_key key := e <| last_accessed := now' |>
      <| access_count ::= λ n, add64 n 1 |>]> (entries i) !! k') ↔ is_Some (entries i !! k')) as Hdom.
    { intros k'. rewrite lookup_insert_is_Some.
      destruct (decide (full_key key = k')) as [<-|];
        [rewrite Hk; split; [eauto|by left]|intuition congruence]. }
    split; [split; simpl; auto with evergreen| |]; simpl.
    + intros k'. rewrite Hdom, <-Ha, elem_of_app, list_elem_of_singleton, elem_of_retain_ne.
      assert (full_key key ∈ access_order i) by (apply Ha; eauto).
      destruct (decide (k' = full_key key)) as [->|]; tauto.
    + intros k'. by rewrite Hdom.
    + intros k' e' [[<- <-]|[_ He']]%lookup_insert_Some; [by apply (Hsz _ _ Hk)|eauto].
    + rewrite Hs. rewrite (total_size_delete _ _ _ Hk), <-insert_delete_eq.
      rewrite total_size_insert by apply lookup_delete_eq. done.
    + done.
    + unfold entry_count in *. simpl. by rewrite map_size_insert_Some by eauto.
  - by apply (cache_inv_ext i).
Qed.

Lemma cache_inv_empty h m ev :
  0 ≤ max_size c → cache_inv (mkCacheInner ∅ [] [] h m ev 0).
Proof.
  intros Hm. split; [split; simpl|done|unfold entry_count; simpl; rewrite map_size_empty; lia].
  1, 3: apply NoDup_nil_2.
  1, 2: intros k; rewrite lookup_empty; split; [by intros ?%elem_of_nil|by intros []].
  - intros k e. by rewrite lookup_empty.
  - unfold total_size. by rewrite map_to_list_empty.
  - split; [lia|unfold in_u; lia].
Qed.

Lemma cache_step_inv i o :
  0 ≤ max_size c < 2 ^ 63 →
  (∀ key v now, o = CSet key v now → is_Some (plus_seconds now (as_i64 (ttl_secs c)))) →
  cache_inv i → cache_inv (cache_step i o).2.
Proof.
  intros [H0 Hmax] Hd Hinv. destruct o as [key now now'|key v now|key|p|now|now| |key now]; simpl.
  - pose proof (get_inv key now now' i Hinv) as Hg. by destruct (get key now now' i).
  - destruct (set_entry_inv key v now i Hmax (Hd _ _ _ eq_refl) Hinv) as [_ Hs].
    by destruct (set_entry key v now i).
  - unfold invalidate. destruct (entries i !! full_key key); [by apply remove_entry_inv|done].
  - by apply remove_entries_inv.
  - by apply remove_entries_inv.
  - by apply remove_entries_inv.
  - by apply cache_inv_empty.
  - done.
Qed.

Lemma cache_run_inv os i :
  0 ≤ max_size c < 2 ^ 63 →
  (∀ key v now, CSet key v now ∈ os → is_Some (plus_seconds now (as_i64 (ttl_secs c)))) →
  cache_inv i → cache_inv (cache_run i os).2.
Proof.
  intros Hmax. revert i. induction os as [|o os IH]; intros i Hd Hi; simpl; [done|].
  assert (cache_inv (cache_step i o).2) as H1.
  { apply cache_step_inv; [done| |done]. intros key v now ->. apply (Hd key v now). constructor. }
  destruct (cache_step i o) as [r i1]. specialize (IH i1). destruct (cache_run i1 os).
  simpl in *. apply IH; [|done]. intros. eapply Hd. by constructor.
Qed.

(** ** The theorems *)

(** C3.  From an empty cache and for every sequence of operations, as long as no
    deadline overflows the calendar: each [set] returns (its eviction loops end),
    and it accepts the value exactly when it is no larger than the limit; at the
    end both orders enumerate the keys of the map once each, the byte counter is
    the sum of the sizes of the stored values (it never wraps) and within
    [max_size], and there are at most [max_entries] entries, or one when that
    limit is 0.  (The limit is below 2^63 bytes.) *)
Theorem cache_run_invariant os tr i :
  0 ≤ max_size c < 2 ^ 63 →
  (∀ key v now, CSet key v now ∈ os → is_Some (plus_seconds now (as_i64 (ttl_secs c)))) →
  cache_run new_inner os = (tr, i) →
  cache_inv i ∧
  ∀ key v now r, (CSet key v now, r) ∈ tr → r = RSet (Returned (value_len v <=? max_size c)).
Proof.
  intros Hmax. pose proof (cache_inv_empty 0 0 0 (proj1 Hmax)) as H0. fold new_inner in H0.
  revert H0. generalize new_inner. intros i0 H0 Hd Hrun. split.
  { pose proof (cache_run_inv os i0 Hmax Hd H0) as Hi. by rewrite Hrun in Hi. }
  revert i0 tr H0 Hd Hrun. induction os as [|o os IH]; intros i0 tr H0 Hd Hrun; simpl in Hrun.
  { simplify_eq. by intros ? ? ? ? ?%elem_of_nil. }
  assert (∀ key v now, o = CSet key v now → is_Some (plus_seconds now (as_i64 (ttl_secs c)))) as Hdo.
  { intros key v now ->. apply (Hd key v now). constructor. }
  pose proof (cache_step_inv i0 o Hmax Hdo H0) as H1.
  destruct (cache_step i0 o) as [r i1] eqn:Ho. simpl in H1.
  destruct (cache_run i1 os) as [tr1 i2] eqn:Hos. simplify_eq.
  intros key v now r' [[= <- <-]|Hin]%elem_of_cons.
  - destruct (set_entry_inv key v now i0 (proj2 Hmax) (Hdo _ _ _ eq_refl) H0) as [Hr _].
    simpl in Ho. destruct (set_entry key v now i0). simplify_eq/=. done.
  - apply (IH i1 tr1 H1 ltac:(intros; eapply Hd; by constructor) Hos _ _ _ _ Hin).
Qed.

(** *** The order in which entries go *)

(** The longest suffix that fits; the last candidate is the empty one. *)
Fixpoint longest_fitting (fits : list string → bool) (l : list string) : list string :=
  match l with
  | [] => []
  | _ :: r => if fits l then l else longest_fitting fits r
  end.

(** Do the entries [ks] of the map leave room for one more value? *)
Definition leaves_room (m : gmap string CacheEntry) (v : bytes) (ks : list string) : bool :=
  (sum_list_Z (λ k, default 0 (entry_size <$> m !! k)) ks + value_len v <=? max_size c) &&
  (Z.of_nat (length ks) <? max_entries c).

Lemma order_total m ks :
  NoDup ks → (∀ k, k ∈ ks ↔ is_Some (m !! k)) →
  sum_list_Z (λ k, default 0 (entry_size <$> m !! k)) ks = total_size m ∧ length ks = size m.
Proof.
  intros Hnd Hks. pose proof (order_perm m ks Hnd Hks) as HP. rewrite HP. split.
  - assert (∀ l : list (string * CacheEntry), (∀ kv, kv ∈ l → m !! kv.1 = Some kv.2) →
      sum_list_Z (λ k, default 0 (entry_size <$> m !! k)) l.*1 =
      sum_list_Z (λ kv, entry_size kv.2) l) as Hl.
    { induction l as [|[k e] l IH]; intros Hin; simpl; [done|].
      pose proof (Hin (k, e) ltac:(constructor)) as He. simpl in He. rewrite He. simpl. f_equal. apply IH. intros. apply Hin.
      by constructor. }
    apply Hl. by intros [k e] ?%elem_of_map_to_list.
  - by rewrite length_fmap, length_map_to_list.
Qed.

Lemma sum_default_subseteq (m m' : gmap string CacheEntry) ks :
  m' ⊆ m → (∀ k, k ∈ ks → is_Some (m' !! k)) →
  sum_list_Z (λ k, default 0 (entry_size <$> m !! k)) ks =
  sum_list_Z (λ k, default 0 (entry_size <$> m' !! k)) ks.
Proof.
  intros Hsub. induction ks as [|k ks IH]; intros Hks; simpl; [done|].
  destruct (Hks k) as [e He]; [constructor|].
  rewrite He, (lookup_weaken _ _ _ _ He Hsub). f_equal. apply IH. intros. apply Hks. by constructor.
Qed.

Lemma leaves_room_core m v j :
  cache_core (value_len v) j → entries j ⊆ m →
  leaves_room m v (eviction_order j) =
  negb (over_size j) && negb (over_count j).
Proof.
  intros Hc Hsub. destruct (eviction_order_core _ _ Hc) as [Hnd Ho].
  destruct (order_total (entries j) _ Hnd Ho) as [Hsum Hlen].
  unfold leaves_room. rewrite (sum_default_subseteq m (entries j)) by (done || by intros; apply Ho).
  rewrite Hsum, Hlen. unfold over_size, over_count, entry_count.
  rewrite (core_size _ _ Hc), <-Z.leb_antisym, <-Z.ltb_antisym. done.
Qed.

Lemma eviction_order_evicted extra k j :
  cache_core extra j → head (eviction_order j) = Some k →
  eviction_order j = k :: eviction_order (evicted k j).
Proof.
  intros Hc Hh. destruct (eviction_order_core _ _ Hc) as [Hnd _].
  assert (eviction_order (evicted k j) = retain_ne k (eviction_order j)) as ->.
  { destruct (remove_entry_orders _ k j Hc) as [Ha Hi].
    unfold eviction_order. by destruct (cache_strategy c). }
  destruct (eviction_order j) as [|k0 r]; simpl in Hh; [done|]. simplify_eq.
  apply NoDup_cons in Hnd as [Hk Hnd]. unfold retain_ne. rewrite filter_cons_False by tauto.
  f_equal. symmetry. by apply retain_ne_notin.
Qed.

(** C10.  With the [Lru] and [Fifo] strategies a [set] that is accepted evicts in
    order and no more than it must: the keys that stay are the longest suffix of
    the recency (insertion) order that leaves room for the value, in bytes and in
    entries; the new key becomes the last; a surviving entry is unchanged.  (On a cache
    that keeps its invariant, with a limit below 2^63 bytes.) *)
Theorem set_keeps_longest_suffix key v now i i' :
  max_size c < 2 ^ 63 → cache_inv i → cache_strategy c ≠ Lfu →
  set_entry key v now i = (Returned true, i') →
  let k := full_key key in
  let kept := longest_fitting (leaves_room (entries i) v) (retain_ne k (eviction_order i)) in
  eviction_order i' = kept ++ [k] ∧
  value <$> entries i' !! k = Some v ∧
  ∀ k', k' ≠ k → entries i' !! k' = if decide (k' ∈ kept) then entries i !! k' else None.
Proof.
  intros Hmax Hinv Hlfu Hset k kept.
  assert (value_len v ≤ max_size c) as Hv.
  { unfold set_entry in Hset. destruct (Z.ltb_spec (max_size c) (value_len v)); [|done].
    by simplify_eq. }
  destruct (set_entry_spec (λ j, entries j ⊆ entries i ∧
              longest_fitting (leaves_room (entries i) v) (eviction_order j) = kept) key v now i)
    as (j & Hc & [Hsub Hkept] & Hk & _ & Hs & Hn & E); [done..| | |].
  - split; simpl; [rewrite remove_entry_entries; apply delete_subseteq|].
    unfold kept. f_equal. destruct (remove_entry_orders _ k i (inv_core _ Hinv)) as [Ha Hi].
    unfold eviction_order. simpl. by destruct (cache_strategy c).
  - intros j k' e Hcj [Hsub Hkept] Hover Hk' Hvk. split.
    { simpl. rewrite remove_entry_entries. etrans; [apply delete_subseteq|done]. }
    rewrite <-Hkept. rewrite (eviction_order_evicted (value_len v) k' j Hcj).
    + simpl. rewrite <-(eviction_order_evicted (value_len v) k' j Hcj).
      * rewrite (leaves_room_core _ v j) by done. destruct Hover as [-> | ->]; simpl; [done|].
        by rewrite andb_false_r.
      * unfold victim_key, eviction_order in *. by destruct (cache_strategy c).
    + unfold victim_key, eviction_order in *. by destruct (cache_strategy c).
  - assert (eviction_order j = kept) as Hj.
    { rewrite <-Hkept. destruct Hn as [Hn|He].
      - pose proof (leaves_room_core (entries i) v j Hc Hsub) as Hroom.
        unfold over_size, over_count in Hroom.
        rewrite (proj2 (Z.ltb_ge _ _) Hs), (proj2 (Z.leb_gt _ _) Hn) in Hroom. simpl in Hroom.
        destruct (eviction_order j); simpl; [done|]. by rewrite Hroom.
      - destruct (eviction_order_core _ _ Hc) as [_ Ho].
        destruct (eviction_order j) as [|k0 r]; [done|].
        destruct (proj1 (Ho k0)) as [e Hk0]; [constructor|]. by rewrite He, lookup_empty in Hk0. }
    rewrite Hset in E. destruct (plus_seconds _ _) as [d|]; [|done]. simplify_eq.
    split_and!.
    + rewrite <-Hj. unfold eviction_order. simpl. by destruct (cache_strategy c).
    + simpl. by rewrite lookup_insert_eq.
    + intros k' Hne. simpl. rewrite lookup_insert_ne by done. rewrite <-Hj.
      destruct (eviction_order_core _ _ Hc) as [_ Ho]. case_decide as Hd.
      * apply Ho in Hd as [e He]. by rewrite He, (lookup_weaken _ _ _ _ He Hsub).
      * apply eq_None_not_Some. by rewrite <-Ho.
Qed.

(** With [Lfu], no entry that stays has been read less often than one that went. *)
Definition frequency_respected (before after : gmap string CacheEntry) : Prop :=
  ∀ k e k' e', before !! k = Some e → after !! k = None → after !! k' = Some e' →
               access_count e ≤ access_count e'.

(** With the [Lfu] strategy a [set] that is accepted evicts least-used
    entries: every entry that is evicted has been read at most as often as every
    entry that stays, whatever order the map is iterated in; entries that stay
    are unchanged. *)
Theorem set_evicts_least_used key v now i i' :
  max_size c < 2 ^ 63 → cache_inv i → cache_strategy c = Lfu →
  set_entry key v now i = (Returned true, i') →
  let k := full_key key in
  delete k (entries i') ⊆ delete k (entries i) ∧
  frequency_respected (delete k (entries i)) (delete k (entries i')) ∧
  value <$> entries i' !! k = Some v.
Proof.
  intros Hmax Hinv Hlfu Hset k.
  assert (value_len v ≤ max_size c) as Hv.
  { unfold set_entry in Hset. destruct (Z.ltb_spec (max_size c) (value_len v)); [|done].
    by simplify_eq. }
  destruct (set_entry_spec (λ j, entries j ⊆ delete k (entries i) ∧
              frequency_respected (delete k (entries i)) (entries j)) key v now i)
    as (j & Hc & [Hsub Hfreq] & Hk & _ & _ & _ & E); [done..| | |].
  - simpl. rewrite remove_entry_entries. split; [done|]. intros k1 e1 k2 e2 H1 H2 _.
    fold k in H2. congruence.
  - intros j k' e Hcj [Hsub Hfreq] _ Hk' Hvk. simpl. rewrite remove_entry_entries.
    split; [etrans; [apply delete_subseteq|done]|].
    intros k1 e1 k2 e2 Hk1 Hgone [Hne Hk2]%lookup_delete_Some.
    destruct (decide (k' = k1)) as [<-|Hne1].
    + rewrite (lookup_weaken _ _ _ _ Hk' Hsub) in Hk1. simplify_eq.
      assert (entries j ≠ ∅) as Hnj by (intros Ej; by rewrite Ej, lookup_empty in Hk').
      destruct (evict_one_spec _ _ Hcj Hnj) as (k0 & e0 & Hk0 & Hvk0 & _ & Hmin).
      rewrite Hlfu in Hmin. rewrite Hvk in Hvk0. simplify_eq. eauto.
    + rewrite lookup_delete_ne in Hgone by done. eauto.
  - rewrite Hset in E. destruct (plus_seconds _ _) as [d|]; [|done]. simplify_eq.
    fold k in Hk |- *. simpl. fold k. rewrite delete_insert_id by done. split_and!; try done.
    by rewrite lookup_insert_eq.
Qed.

(** *** A cache is a partial view of a store *)

(** The abstract store: every accepted write with its deadline.  Reading,
    expiring and evicting do not change it. *)
Abbreviation store := (gmap string (bytes * Z)).
Definition store_step (st : store) (o : cache_op) (r : cache_out) : store :=
  match o, r with
  | CSet key v now, RSet (Returned true) =>
      match plus_seconds now (as_i64 (ttl_secs c)) with
      | Some d => <[full_key key := (v, d)]> st
      | None => st
      end
  | CInvalidate key, _ => delete (full_key key) st
  | CInvalidatePrefix p, _ => filter (λ kv, starts_with kv.1 (prefix c +:+ p) = false) st
  | CClear, _ => ∅
  | _, _ => st
  end.
(** What a client may conclude from an answer *)
Definition answer_ok (st : store) (o : cache_op) (r : cache_out) : Prop :=
  match o, r with
  | CGet key now _, RGet (Some v) => ∃ d, st !! full_key key = Some (v, d) ∧ now ≤ d
  | CExists key now, RBool true => ∃ v d, st !! full_key key = Some (v, d) ∧ now ≤ d
  | CInvalidate key, RBool true => is_Some (st !! full_key key)
  | _, _ => True
  end.
Fixpoint trace_ok (st : store) (tr : list (cache_op * cache_out)) : Prop :=
  match tr with
  | [] => True
  | (o, r) :: rest => answer_ok st o r ∧ trace_ok (store_step st o r) rest
  end.

Definition views (m : gmap string CacheEntry) (st : store) : Prop :=
  ∀ k e, m !! k = Some e → st !! k = Some (value e, expires_at e).

Lemma views_subseteq m m' st : m' ⊆ m → views m st → views m' st.
Proof. intros Hsub Hv k e He. apply Hv. by apply (lookup_weaken _ _ _ _ He). Qed.

Lemma evict_one_subseteq i : entries (evict_one_inner i).2 ⊆ entries i.
Proof.
  unfold evict_one_inner. case_bool_decide; [done|]. destruct (victim_key i) as [k|]; [|done].
  simpl. destruct (entries i !! k); [|done]. simpl. rewrite remove_entry_entries.
  apply delete_subseteq.
Qed.
Lemma evict_while_subseteq over fuel i i' :
  evict_while over fuel i = Some i' → entries i' ⊆ entries i.
Proof.
  revert i. induction fuel as [|f IH]; intros i; simpl; (destruct (over i); [|by intros [= ->]]);
    [done|].
  pose proof (evict_one_subseteq i) as Hsub. destruct (evict_one_inner i) as [b i1]. simpl in Hsub.
  destruct b; [intros ?%IH; by etrans|intros [= <-]; done].
Qed.
Lemma set_entry_entries key v now i :
  match (set_entry key v now i).1 with
  | Returned true => ∃ d j, plus_seconds now (as_i64 (ttl_secs c)) = Some d ∧
      entries j ⊆ entries i ∧ (set_entry key v now i).2 = set_inserted key v now d j
  | _ => entries (set_entry key v now i).2 ⊆ entries i
  end.
Proof.
  unfold set_entry. destruct (max_size c <? value_len v); [by simpl|].
  fold (set_reserved (full_key key) v i).
  assert (entries (set_reserved (full_key key) v i) ⊆ entries i) as H0.
  { simpl. rewrite remove_entry_entries. apply delete_subseteq. }
  generalize dependent (set_reserved (full_key key) v i). intros i0 H0.
  destruct (evict_while over_size (S (size (entries i0))) i0) as [i1|] eqn:E1; [|by simpl].
  apply evict_while_subseteq in E1.
  destruct (evict_while over_count (S (size (entries i1))) i1) as [i2|] eqn:E2;
    [|simpl; by etrans].
  apply evict_while_subseteq in E2.
  assert (entries i2 ⊆ entries i) by (etrans; [exact E2|by etrans]).
  destruct (plus_seconds _ _) as [d|]; simpl; [by exists d, i2|done].
Qed.

Lemma get_views key now now' i st :
  views (entries i) st →
  views (entries (get key now now' i).2) st ∧
  answer_ok st (CGet key now now') (RGet (get key now now' i).1).
Proof.
  intros Hv. unfold get. destruct (entries i !! full_key key) as [e|] eqn:Hk; [|done].
  pose proof (Hv _ _ Hk) as Hst. destruct (Z.ltb_spec (expires_at e) now); simpl.
  - split; [|done]. apply (views_subseteq (entries i)); [|done].
    rewrite remove_entry_entries. apply delete_subseteq.
  - split; [|eauto]. intros k' e' [[<- <-]|[_ He']]%lookup_insert_Some; [done|eauto].
Qed.
Lemma remove_entries_views ks i st st' :
  views (entries i) st → (∀ k, k ∉ ks → is_Some (entries i !! k) → st' !! k = st !! k) →
  views (entries (remove_entries ks i)) st'.
Proof.
  intros Hv Hst k e. rewrite remove_entries_lookup. case_decide as Hin; [done|].
  intros He. rewrite Hst by eauto. eauto.
Qed.

Lemma cache_step_views i o st :
  views (entries i) st →
  answer_ok st o (cache_step i o).1 ∧
  views (entries (cache_step i o).2) (store_step st o (cache_step i o).1).
Proof.
  intros Hv. destruct o as [key now now'|key v now|key|p|now|now| |key now]; simpl.
  - destruct (get_views key now now' i st Hv). by destruct (get key now now' i).
  - pose proof (set_entry_entries key v now i) as Hs. destruct (set_entry key v now i) as [r j].
    simpl in *. split; [done|]. destruct r as [[]| |]; simpl; try by eapply views_subseteq.
    destruct Hs as (d & j' & -> & Hsub & ->). simpl.
    intros k e [[<- <-]|[Hne He]]%lookup_insert_Some; [by rewrite lookup_insert_eq|].
    rewrite lookup_insert_ne by done. by apply Hv, (lookup_weaken _ _ _ _ He).
  - unfold invalidate. destruct (entries i !! full_key key) as [e|] eqn:Hk; simpl; split; try done.
    + rewrite (Hv _ _ Hk). eauto.
    + rewrite remove_entry_entries. intros k' e' [Hne He']%lookup_delete_Some.
      rewrite lookup_delete_ne by done. eauto.
    + intros k' e' He'. rewrite lookup_delete_ne by congruence. eauto.
  - split; [done|]. apply (remove_entries_views _ _ _ _ Hv). intros k Hk [e He].
    apply option_eq. intros x. rewrite map_lookup_filter_Some. split; [tauto|].
    intros Hx. split; [done|]. simpl. apply not_true_is_false. intros Hp. apply Hk.
    apply list_elem_of_filter. split; [done|]. apply elem_of_hash_keys. eauto.
  - split; [done|]. by apply (remove_entries_views _ _ _ _ Hv).
  - split; [done|]. by apply (remove_entries_views _ _ _ _ Hv).
  - split; [done|]. intros k e. by rewrite lookup_empty.
  - split; [|done]. unfold exists_key. destruct (entries i !! full_key key) as [e|] eqn:Hk; [|done].
    destruct (Z.leb_spec now (expires_at e)); [|done]. eauto.
Qed.

(** C4.  A hit is never stale: along every sequence of operations from an empty
    cache, whatever is evicted or swept in between, [get] answers only with the
    value of the last accepted [set] of that key that no [invalidate],
    [invalidate_prefix] or [clear] came after, and not past its deadline; the same
    store backs the answers of [exists] and [invalidate]. *)
Theorem cache_refines_store os tr i :
  cache_run new_inner os = (tr, i) → trace_ok ∅ tr.
Proof.
  assert (views (entries new_inner) ∅) as Hv by (intros k e; simpl; by rewrite lookup_empty).
  revert Hv. generalize new_inner (∅ : store). intros i0 st. revert i0 st tr.
  induction os as [|o os IH]; intros i0 st tr Hv Hrun; simpl in Hrun; [by simplify_eq|].
  destruct (cache_step_views i0 o st Hv) as [Ha Hv1].
  destruct (cache_step i0 o) as [r i1]. destruct (cache_run i1 os) as [tr1 i2] eqn:Hos.
  simplify_eq. simpl in *. split; [done|]. by apply (IH i1).
Qed.

(** The bulk removals are exact: [purge_expired] and the background sweep
    leave the same state, without precisely the entries whose deadline is past;
    [invalidate_prefix] leaves precisely the entries without the prefix; both
    calls return the number of entries they dropped. *)
Theorem bulk_removals_exact i now p :
  cache_inv i →
  let '(n, i1) := purge_expired now i in
  let '(m, i2) := invalidate_prefix p i in
  sweep_expired now i = i1 ∧
  entries i1 = filter (λ kv, now ≤ expires_at kv.2) (entries i) ∧
  n = entry_count i - entry_count i1 ∧
  entries i2 = filter (λ kv, starts_with kv.1 (prefix c +:+ p) = false) (entries i) ∧
  m = entry_count i - entry_count i2 ∧
  cache_inv i1 ∧ cache_inv i2.
Proof.
  intros Hinv. simpl. split_and!; try done; try by apply remove_entries_inv.
  - unfold expired_keys. apply map_eq. intros k. rewrite remove_entries_lookup.
    apply option_eq. intros e. rewrite map_lookup_filter_Some. simpl.
    case_decide as Hin.
    + apply list_elem_of_fmap in Hin as ([k' e'] & -> & Hin).
      apply list_elem_of_filter in Hin as [Hlt%Z.ltb_lt Hin%elem_of_hash_iter]. simpl in *.
      split; [done|]. intros [He Hle]. simplify_eq. lia.
    + split; [|tauto]. intros He. split; [done|]. apply Z.nlt_ge. intros Hlt. apply Hin.
      apply list_elem_of_fmap. exists (k, e). split; [done|].
      apply list_elem_of_filter. rewrite elem_of_hash_iter. simpl. by rewrite Z.ltb_lt.
  - apply map_eq. intros k. rewrite remove_entries_lookup. apply option_eq. intros e.
    rewrite map_lookup_filter_Some. simpl. case_decide as Hin;
      rewrite list_elem_of_filter, elem_of_hash_keys in Hin.
    + destruct Hin as [Hp _]. split; [done|]. intros [_ Hp']. congruence.
    + split; [|tauto]. intros He. split; [done|]. apply not_true_is_false. naive_solver.
  - unfold entry_count.
    set (ks := filter _ _).
    assert (NoDup ks) as Hnd by apply NoDup_filter, NoDup_hash_keys.
    assert (∀ k, k ∈ ks → is_Some (entries i !! k)) as Hks.
    { intros k [_ Hk%elem_of_hash_keys]%list_elem_of_filter. done. }
    clearbody ks. clear Hinv. revert i Hks. induction Hnd as [|k ks Hk Hnd IH]; intros i Hks; simpl; [lia|].
    rewrite Nat2Z.inj_succ. unfold flip. rewrite <-Z.add_1_l.
    destruct (Hks k) as [e He]; [constructor|].
    rewrite (IH (remove_entry k i)).
    + rewrite remove_entry_entries, map_size_delete, He.
      assert (size (entries i) ≠ 0%nat) by (rewrite map_size_non_empty_iff; by intros E; rewrite E, lookup_empty in He).
      lia.
    + intros k' Hk'. rewrite remove_entry_entries, lookup_delete_ne by congruence.
      apply Hks. by constructor.
Qed.
End cache.

(** ** Concrete runs *)

Section cache_runs.
#[local] Instance cache_order : HashOrder := canonical_order.
#[local] Instance cache_chrono : Chrono := demo_chrono.

Definition small_cache (strategy : EvictionStrategy) : CacheShim :=
  {| ttl_secs := 300; max_size := 6; max_entries := 2; cache_strategy := strategy;
     prefix := "shim:"; sweep_interval_secs := 60 |}.
Definition three_bytes : bytes := [Byte.x01; Byte.x02; Byte.x03].
Definition fill_cache : list cache_op :=
  [CSet "a" three_bytes 0; CSet "b" three_bytes 1; CGet "a" 2 2].
Definition filled (strategy : EvictionStrategy) : CacheInner :=
  (cache_run (small_cache strategy) new_inner fill_cache).2.

Lemma small_cache_limit strategy : 0 ≤ max_size (small_cache strategy) < 2 ^ 63.
Proof. simpl. lia. Qed.
Lemma fill_cache_dates strategy key v now :
  CSet key v now ∈ fill_cache →
  is_Some (plus_seconds now (as_i64 (ttl_secs (small_cache strategy)))).
Proof.
  unfold fill_cache. rewrite !elem_of_cons. intros [[=]|[[=]|[[=]|Hin]]]; subst.
  - exists (300 * 10 ^ 9). reflexivity.
  - exists (1 + 300 * 10 ^ 9). reflexivity.
  - by apply elem_of_nil in Hin.
Qed.
Lemma cache_inv_filled strategy : cache_inv (small_cache strategy) (filled strategy).
Proof.
  pose proof (small_cache_limit strategy) as Hl.
  apply cache_run_inv; [done|apply fill_cache_dates|]. by apply cache_inv_empty.
Qed.

Lemma cache_run_invariant_witness :
  cache_inv (small_cache Lru) (filled Lru) ∧
  ∀ key v now r,
    (CSet key v now, r) ∈ (cache_run (small_cache Lru) new_inner fill_cache).1 →
    r = RSet (Returned (value_len v <=? 6)).
Proof.
  exact (cache_run_invariant (small_cache Lru) fill_cache _ _ (small_cache_limit Lru)
           (fill_cache_dates Lru) (surjective_pairing _)).
Defined.

Lemma cache_refines_store_witness :
  trace_ok (small_cache Lru) ∅ (cache_run (small_cache Lru) new_inner fill_cache).1.
Proof. exact (cache_refines_store (small_cache Lru) fill_cache _ _ (surjective_pairing _)). Defined.

Lemma set_keeps_longest_suffix_witness :
  eviction_order (small_cache Lru) (set_entry (small_cache Lru) "c" three_bytes 3 (filled Lru)).2 =
  ["shim:a"; "shim:c"].
Proof.
  etransitivity.
  - refine (proj1 (set_keeps_longest_suffix (small_cache Lru) "c" three_bytes 3 (filled Lru) _
                     (proj2 (small_cache_limit Lru)) (cache_inv_filled Lru) _ _));
      [discriminate|vm_compute; reflexivity].
  - vm_compute. reflexivity.
Defined.

Lemma set_evicts_least_used_witness :
  frequency_respected (delete "shim:c" (entries (filled Lfu)))
    (delete "shim:c" (entries (set_entry (small_cache Lfu) "c" three_bytes 3 (filled Lfu)).2)).
Proof.
  refine (proj1 (proj2 (set_evicts_least_used (small_cache Lfu) "c" three_bytes 3 (filled Lfu) _
                          (proj2 (small_cache_limit Lfu)) (cache_inv_filled Lfu) _ _)));
    [done|vm_compute; reflexivity].
Defined.

Lemma bulk_removals_exact_witness :
  sweep_expired (400 * 10 ^ 9) (filled Fifo) = (purge_expired (400 * 10 ^ 9) (filled Fifo)).2.
Proof.
  exact (proj1 (bulk_removals_exact (small_cache Fifo) (filled Fifo) (400 * 10 ^ 9) "a"
                  (cache_inv_filled Fifo))).
Defined.
End cache_runs.
