(* ===== verification/Queue.v ===== *)
(** * The job queue ([queue-shim/src/lib.rs])

    A FIFO of pending jobs, the running jobs, and a dead-letter queue, all behind
    one mutex; jobs move either through the calls [dequeue], [complete_job] and
    [fail_job], or through the worker tasks [start] spawns.  The calls are
    sequential functions here, split where the code releases the lock, and
    [sys_step] interleaves them. *)

From S2P Require Import Prelude.

(** [JobStatus] *)
Inductive JobStatus := Pending | Running | Completed | Failed | Retrying | Dead.

(** [Job] *)
Record Job := mkJob {
  job_id : string;
  job_name : string;
  payload : list Byte.byte;
  status : JobStatus;
  attempts : Z;
  job_max_retries : Z;
  job_created_at : string;
  started_at : option string;
  last_error : option string
}.
#[export] Instance Job_settable : Settable Job := λ j,
  mkJob (job_id j) (job_name j) (payload j) (status j) (attempts j) (job_max_retries j)
    (job_created_at j) (started_at j) (last_error j).

(** [ArchivedJob] *)
Record ArchivedJob := mkArchived { archived : Job; reason : string }.

(** [QueueShim] with its [QueueInner] in place, less handler and shutdown channel *)
Record QueueShim := mkQueueShim {
  max_workers : Z;
  max_retries : Z;
  retry_base_secs : Z;
  retry_max_secs : Z;
  job_timeout_secs : Z;
  jobs_enqueued : Z;
  jobs_processed : Z;
  jobs_failed : Z;
  jobs_retried : Z;
  jobs_dead : Z;
  pending : list Job;
  running_jobs : list Job;
  dead_letter_queue : list ArchivedJob;
  active : bool
}.
#[export] Instance QueueShim_settable : Settable QueueShim := λ q,
  mkQueueShim (max_workers q) (max_retries q) (retry_base_secs q) (retry_max_secs q)
    (job_timeout_secs q) (jobs_enqueued q) (jobs_processed q) (jobs_failed q)
    (jobs_retried q) (jobs_dead q) (pending q) (running_jobs q) (dead_letter_queue q)
    (active q).

(** [QueueShim::new] *)
Definition new_queue (env : environment) : QueueShim :=
  {| max_workers := env_parse env "QUEUE_MAX_WORKERS" parse_u32 4;
     max_retries := env_parse env "QUEUE_MAX_RETRIES" parse_u32 3;
     retry_base_secs := env_parse env "QUEUE_RETRY_BASE_SECS" parse_u64 5;
     retry_max_secs := env_parse env "QUEUE_RETRY_MAX_SECS" parse_u64 300;
     job_timeout_secs := env_parse env "QUEUE_JOB_TIMEOUT_SECS" parse_u64 300;
     jobs_enqueued := 0; jobs_processed := 0; jobs_failed := 0; jobs_retried := 0;
     jobs_dead := 0; pending := []; running_jobs := []; dead_letter_queue := [];
     active := false |}.

(** [running_jobs.iter().position(|j| j.id == id)] and the [remove] after it *)
Definition take_running (id : string) (jobs : list Job) : option (Job * list Job) :=
  i ← position (λ j, bool_decide (job_id j = id)) jobs;
  j ← jobs !! i;
  Some (j, remove_at i jobs).

(** [retry_delay], in seconds *)
Definition retry_delay (q : QueueShim) (attempt : Z) : Z :=
  let delay_secs := mul64 (retry_base_secs q) (saturating_pow2_u32 (Z.min attempt 31)) in
  Z.min delay_secs (retry_max_secs q).

Section queue.
Context `{RFC : Rfc3339}.
Implicit Types (q : QueueShim) (j : Job).

(** [enqueue]; the id is the UUID drawn *)
Definition enqueue (name : string) (pl : list Byte.byte) (id : string) (now : Z) q : QueueShim :=
  let job := {| job_id := id; job_name := name; payload := pl; status := Pending;
                attempts := 0; job_max_retries := max_retries q;
                job_created_at := to_rfc3339 now; started_at := None; last_error := None |} in
  q <| pending ::= λ l, l ++ [job] |> <| jobs_enqueued ::= λ n, add64 n 1 |>.

Definition mark_running (now : Z) j : Job :=
  j <| status := Running |> <| started_at := Some (to_rfc3339 now) |>.

(** [dequeue] *)
Definition dequeue (now : Z) q : option Job * QueueShim :=
  if Z.of_nat (length (running_jobs q)) <? max_workers q then
    match pending q with
    | job :: rest =>
        let job := mark_running now job in
        (Some job, q <| pending := rest |> <| running_jobs ::= λ l, l ++ [job] |>)
    | [] => (None, q)
    end
  else (None, q).

(** [complete_job] *)
Definition complete_job (id : string) q : result string Job * QueueShim :=
  match take_running id (running_jobs q) with
  | Some (job, rest) =>
      (Ok job, q <| running_jobs := rest |> <| jobs_processed ::= λ n, add64 n 1 |>)
  | None => (Err ("Job " +:+ id +:+ " not found in running state"), q)
  end.

(** [fail_job] up to the point where it releases the lock: a job to put back
    after a delay, or a final outcome. *)
Inductive fail_outcome :=
| FailSleeping (job : Job) (delay : Z)
| FailDone (r : result string JobStatus).
Definition fail_job_begin (id error : string) q : fail_outcome * QueueShim :=
  match take_running id (running_jobs q) with
  | Some (job, rest) =>
      let q := q <| running_jobs := rest |> in
      let job := job <| attempts ::= λ n, add32 n 1 |> <| last_error := Some error |> in
      if attempts job <=? job_max_retries job then
        let job := job <| status := Retrying |> in
        (FailSleeping job (retry_delay q (sub32 (attempts job) 1)),
         q <| jobs_retried ::= λ n, add64 n 1 |>)
      else
        let job := job <| status := Dead |> in
        (FailDone (Ok Dead),
         q <| dead_letter_queue ::= λ l, l ++
                [mkArchived job ("Exceeded " +:+ pretty (max_retries q) +:+ " retries: " +:+ error)] |>
           <| jobs_failed ::= λ n, add64 n 1 |> <| jobs_dead ::= λ n, add64 n 1 |>)
  | None => (FailDone (Err ("Job " +:+ id +:+ " not found in running state")), q)
  end.
(** ... and after the delay *)
Definition fail_job_resume (job : Job) q : JobStatus * QueueShim :=
  let job := job <| status := Pending |> <| started_at := None |> in
  (Retrying, q <| pending ::= λ l, l ++ [job] |>).

(** [queue_depth], [dlq_length], [drain_dlq], [running_count], [pending_count] *)
Definition queue_depth q : Z :=
  add64 (Z.of_nat (length (pending q))) (Z.of_nat (length (running_jobs q))).
Definition dlq_length q : nat := length (dead_letter_queue q).
Definition drain_dlq q : list ArchivedJob * QueueShim :=
  (dead_letter_queue q, q <| dead_letter_queue := [] |>).
Definition running_count q : nat := length (running_jobs q).
Definition pending_count q : nat := length (pending q).

(** ** The worker tasks ([spawn_workers]) *)

(** [elapsed.num_seconds() as u64 > job_timeout_secs] for a stored start time;
    [false] when there is none or it does not parse. *)
Definition timed_out (timeout now : Z) (started : option string) : bool :=
  match started ≫= parse_from_rfc3339 with
  | Some t => timeout <? as_u64 (num_seconds_between now t)
  | None => false
  end.

(** The dequeue block of the loop: a job to process, or nothing (an empty queue,
    or a job that timed out while pending and went to the dead-letter queue). *)
Definition worker_pop (now now' : Z) q : option Job * QueueShim :=
  match pending q with
  | [] => (None, q)
  | job :: rest =>
      let q := q <| pending := rest |> in
      if timed_out (job_timeout_secs q) now (started_at job) then
        let job := job <| status := Dead |> <| last_error := Some "Job timed out in queue" |> in
        (None, q <| dead_letter_queue ::= λ l, l ++
                      [mkArchived job "Timed out waiting for processing"] |>
                 <| jobs_dead ::= λ n, add64 n 1 |>)
      else
        let job := mark_running now' job in
        (Some job, q <| running_jobs ::= λ l, l ++ [job] |>)
  end.

Definition remove_running (id : string) q : QueueShim :=
  match take_running id (running_jobs q) with
  | Some (_, rest) => q <| running_jobs := rest |>
  | None => q
  end.

(** The [if timed_out { .. }] block *)
Definition worker_timeout (job : Job) q : QueueShim :=
  let q := remove_running (job_id job) q in
  let job := job <| status := Dead |> <| last_error := Some "Job execution timed out" |> in
  q <| dead_letter_queue ::= λ l, l ++ [mkArchived job "Execution timed out"] |>
    <| jobs_dead ::= λ n, add64 n 1 |>.

(** What follows the handler's answer *)
Definition worker_done (job : Job) (r : result string unit) q : QueueShim :=
  let q := remove_running (job_id job) q in
  match r with
  | Ok _ => q <| jobs_processed ::= λ n, add64 n 1 |>
  | Err e =>
      let job := job <| attempts ::= λ n, add32 n 1 |> <| last_error := Some e |> in
      if attempts job <=? max_retries q then
        let job := job <| status := Pending |> <| started_at := None |> in
        q <| jobs_retried ::= λ n, add64 n 1 |> <| pending ::= λ l, l ++ [job] |>
      else
        let job := job <| status := Dead |> in
        q <| dead_letter_queue ::= λ l, l ++ [mkArchived job ("Exceeded retries: " +:+ e)] |>
          <| jobs_failed ::= λ n, add64 n 1 |> <| jobs_dead ::= λ n, add64 n 1 |>
  end.

(** [start] and [stop]: the flag they keep *)
Definition start_queue q : QueueShim := q <| active := true |>.
Definition stop_queue q : QueueShim := q <| active := false |>.

(** [metrics] *)
Definition queue_metrics q : list (string * f64) :=
  [("queue_enqueued_total", f64_of_Z (jobs_enqueued q));
   ("queue_processed_total", f64_of_Z (jobs_processed q));
   ("queue_failed_total", f64_of_Z (jobs_failed q));
   ("queue_retried_total", f64_of_Z (jobs_retried q));
   ("queue_dead_total", f64_of_Z (jobs_dead q))].

(** ** The system: calls and workers, interleaved *)

(** What a worker task holds between two acquisitions of the lock *)
Inductive worker := WIdle | WPopped (job : Job) | WHandling (job : Job).
Definition held (w : worker) : list Job :=
  match w with WIdle => [] | WPopped j | WHandling j => [j] end.

(** The shim, the call of [fail_job] that is sleeping (the calls borrow the shim
    mutably, so there is at most one call at a time), the workers, and the
    history: ids enqueued, jobs completed, jobs drained. *)
Record QueueSys := mkSys {
  shim : QueueShim;
  sleeping : option Job;
  workers : list worker;
  enqueued : list string;
  completed : list Job;
  drained : list Job
}.
#[export] Instance QueueSys_settable : Settable QueueSys := λ s,
  mkSys (shim s) (sleeping s) (workers s) (enqueued s) (completed s) (drained s).

(** [spawn_workers]: nothing without a handler *)
Definition spawn_workers (has_handler : bool) q : list worker :=
  if has_handler then replicate (Z.to_nat (max_workers q)) WIdle else [].
Definition new_sys (env : environment) (has_handler : bool) : QueueSys :=
  let q := start_queue (new_queue env) in
  mkSys q None (spawn_workers has_handler q) [] [] [].

Inductive queue_event :=
| EEnqueue (name : string) (pl : list Byte.byte) (id : string) (now : Z)
| EDequeue (now : Z)
| EComplete (id : string)
| EFail (id error : string)
| EFailResume
| EDrain
| EPop (w : nat) (now now' : Z)
| ECheck (w : nat) (now : Z)
| EHandled (w : nat) (r : result string unit).

Definition sys_step (s : QueueSys) (ev : queue_event) : option QueueSys :=
  let q := shim s in
  match ev, sleeping s with
  | EEnqueue name pl id now, None =>
      Some (s <| shim := enqueue name pl id now q |> <| enqueued ::= λ l, l ++ [id] |>)
  | EDequeue now, None => Some (s <| shim := (dequeue now q).2 |>)
  | EComplete id, None =>
      let '(r, q) := complete_job id q in
      Some (s <| shim := q |>
              <| completed ::= λ l, match r with Ok j => l ++ [j] | Err _ => l end |>)
  | EFail id error, None =>
      let '(r, q) := fail_job_begin id error q in
      Some (s <| shim := q |>
              <| sleeping := match r with FailSleeping j _ => Some j | _ => None end |>)
  | EFailResume, Some j =>
      Some (s <| shim := (fail_job_resume j q).2 |> <| sleeping := None |>)
  | EDrain, None =>
      let '(l, q) := drain_dlq q in
      Some (s <| shim := q |> <| drained ::= λ l0, l0 ++ (archived <$> l) |>)
  | EPop w now now', _ =>
      match workers s !! w with
      | Some WIdle =>
          let '(j, q) := worker_pop now now' q in
          Some (s <| shim := q |>
                  <| workers ::= <[w := match j with Some j => WPopped j | None => WIdle end]> |>)
      | _ => None
      end
  | ECheck w now, _ =>
      match workers s !! w with
      | Some (WPopped j) =>
          if timed_out (job_timeout_secs q) now (started_at j)
          then Some (s <| shim := worker_timeout j q |> <| workers ::= <[w := WIdle]> |>)
          else Some (s <| workers ::= <[w := WHandling j]> |>)
      | _ => None
      end
  | EHandled w r, _ =>
      match workers s !! w with
      | Some (WHandling j) =>
          Some (s <| shim := worker_done j r q |> <| workers ::= <[w := WIdle]> |>
                  <| completed ::= λ l, if is_ok r then l ++ [j] else l |>)
      | _ => None
      end
  | _, _ => None
  end.
Fixpoint sys_run (s : QueueSys) (evs : list queue_event) : option QueueSys :=
  match evs with
  | [] => Some s
  | ev :: rest => s ← sys_step s ev; sys_run s rest
  end.

(** ** Lemmas *)

Definition ids (l : list Job) : list string := job_id <$> l.

Lemma take_running_Some id l j rest :
  take_running id l = Some (j, rest) → job_id j = id ∧ l ≡ₚ j :: rest.
Proof.
  unfold take_running. destruct (position _ l) as [i|] eqn:Hp; simpl; [|done].
  apply position_Some in Hp as (j' & Hj & Hid & HP). rewrite Hj. simpl. intros [= <- <-].
  split; [by bool_prop|done].
Qed.
Lemma take_running_None id l : take_running id l = None → id ∉ ids l.
Proof.
  unfold take_running. destruct (position _ l) as [i|] eqn:Hp; simpl.
  - apply position_Some in Hp as (j' & Hj & _). by rewrite Hj.
  - intros _. apply position_None in Hp. intros (j & -> & Hj)%list_elem_of_fmap.
    rewrite Forall_forall in Hp. specialize (Hp j Hj). by bool_prop.
Qed.
Lemma take_running_ids id l j rest :
  take_running id l = Some (j, rest) → ids l ≡ₚ id :: ids rest.
Proof. unfold ids. intros [<- ->]%take_running_Some. done. Qed.
Lemma take_running_subset id l j rest (P : Job → Prop) :
  take_running id l = Some (j, rest) → Forall P l → P j ∧ Forall P rest.
Proof. intros [_ HP]%take_running_Some. rewrite HP. by rewrite Forall_cons. Qed.
Lemma take_running_length id l j rest :
  take_running id l = Some (j, rest) → length l = S (length rest).
Proof. intros [_ HP]%take_running_Some. by rewrite HP. Qed.

Lemma remove_running_ids id q :
  id ∈ ids (running_jobs q) →
  ids (running_jobs q) ≡ₚ id :: ids (running_jobs (remove_running id q)).
Proof.
  intros Hin. unfold remove_running. destruct (take_running _ _) as [[j rest]|] eqn:Ht.
  - by apply take_running_ids in Ht.
  - by apply take_running_None in Ht.
Qed.
Lemma remove_running_others id q :
  pending (remove_running id q) = pending q ∧
  dead_letter_queue (remove_running id q) = dead_letter_queue q ∧
  jobs_enqueued (remove_running id q) = jobs_enqueued q ∧
  jobs_processed (remove_running id q) = jobs_processed q ∧
  jobs_dead (remove_running id q) = jobs_dead q ∧
  max_retries (remove_running id q) = max_retries q ∧
  max_workers (remove_running id q) = max_workers q.
Proof. unfold remove_running. by destruct (take_running _ _) as [[j rest]|]. Qed.

(** What the workers hold *)
Definition all_held (ws : list worker) : list Job := concat (held <$> ws).
Lemma all_held_insert ws w x y :
  ws !! w = Some y → ids (all_held (<[w:=x]> ws)) ++ ids (held y) ≡ₚ
                     ids (all_held ws) ++ ids (held x).
Proof.
  intros Hw. pose proof (lookup_lt_Some _ _ _ Hw) as Hlt.
  rewrite <-(take_drop_middle ws w y Hw) at 2. rewrite insert_take_drop by done.
  unfold all_held, ids. rewrite !fmap_app, !concat_app, !fmap_app. simpl.
  rewrite !fmap_app. solve_Permutation.
Qed.
Lemma length_all_held ws : (length (all_held ws) ≤ length ws)%nat.
Proof.
  unfold all_held. induction ws as [|w ws IH]; csimpl; [lia|]. rewrite length_app.
  destruct w; csimpl; lia.
Qed.

(** ** Conservation of jobs *)

(** Every place a job can be *)
Definition all_ids (s : QueueSys) : list string :=
  ids (pending (shim s)) ++ ids (running_jobs (shim s)) ++ ids (option_list (sleeping s)) ++
  ids (archived <$> dead_letter_queue (shim s)) ++ ids (completed s) ++ ids (drained s).

Record counters_ok (s : QueueSys) : Prop := {
  count_enqueued : jobs_enqueued (shim s) = wrap 64 (Z.of_nat (length (enqueued s)));
  count_processed : jobs_processed (shim s) = wrap 64 (Z.of_nat (length (completed s)));
  count_dead : jobs_dead (shim s) =
    wrap 64 (Z.of_nat (length (dead_letter_queue (shim s)) + length (drained s)))
}.

Lemma wrap_succ n : add64 (wrap 64 n) 1 = wrap 64 (n + 1).
Proof. unfold add64, wrap. by rewrite Zplus_mod_idemp_l. Qed.

(** One rule per way a step can go: what the invariants below are proved by cases
    on. *)
Definition to_dlq (j : Job) (why : string) q : QueueShim :=
  q <| dead_letter_queue ::= λ l, l ++ [mkArchived j why] |> <| jobs_dead ::= λ n, add64 n 1 |>.
Definition to_pending (j : Job) q : QueueShim :=
  q <| pending ::= λ l, l ++ [j <| status := Pending |> <| started_at := None |>] |>.
Definition failed_once (error : string) j : Job :=
  j <| attempts ::= λ n, add32 n 1 |> <| last_error := Some error |>.

Inductive moves (s : QueueSys) : queue_event → QueueSys → Prop :=
| mv_nothing ev : moves s ev s
| mv_enqueue name pl id now :
    sleeping s = None →
    moves s (EEnqueue name pl id now)
      (s <| shim := enqueue name pl id now (shim s) |> <| enqueued ::= λ l, l ++ [id] |>)
| mv_dequeue now j rest :
    sleeping s = None → pending (shim s) = j :: rest →
    Z.of_nat (length (running_jobs (shim s))) < max_workers (shim s) →
    moves s (EDequeue now)
      (s <| shim := (shim s) <| pending := rest |>
                      <| running_jobs ::= λ l, l ++ [mark_running now j] |> |>)
| mv_complete id j rest :
    sleeping s = None → take_running id (running_jobs (shim s)) = Some (j, rest) →
    moves s (EComplete id)
      (s <| shim := (shim s) <| running_jobs := rest |> <| jobs_processed ::= λ n, add64 n 1 |> |>
         <| completed ::= λ l, l ++ [j] |>)
| mv_fail_retry id error j rest :
    sleeping s = None → take_running id (running_jobs (shim s)) = Some (j, rest) →
    attempts (failed_once error j) ≤ job_max_retries j →
    moves s (EFail id error)
      (s <| shim := (shim s) <| running_jobs := rest |> <| jobs_retried ::= λ n, add64 n 1 |> |>
         <| sleeping := Some ((failed_once error j) <| status := Retrying |>) |>)
| mv_fail_dead id error j rest why :
    sleeping s = None → take_running id (running_jobs (shim s)) = Some (j, rest) →
    job_max_retries j < attempts (failed_once error j) → starts_with why "Exceeded" = true →
    moves s (EFail id error)
      (s <| shim := (to_dlq ((failed_once error j) <| status := Dead |>) why
                       ((shim s) <| running_jobs := rest |>))
                    <| jobs_failed ::= λ n, add64 n 1 |> |>
         <| sleeping := None |>)
| mv_resume j :
    sleeping s = Some j →
    moves s EFailResume (s <| shim := to_pending j (shim s) |> <| sleeping := None |>)
| mv_drain :
    sleeping s = None →
    moves s EDrain
      (s <| shim := (shim s) <| dead_letter_queue := [] |> |>
         <| drained ::= λ l, l ++ (archived <$> dead_letter_queue (shim s)) |>)
| mv_pop_dead w now now' j rest :
    pending (shim s) = j :: rest → timed_out (job_timeout_secs (shim s)) now (started_at j) = true →
    moves s (EPop w now now')
      (s <| shim := to_dlq (j <| status := Dead |> <| last_error := Some "Job timed out in queue" |>)
                      "Timed out waiting for processing" ((shim s) <| pending := rest |>) |>)
| mv_pop w now now' j rest :
    pending (shim s) = j :: rest → workers s !! w = Some WIdle →
    moves s (EPop w now now')
      (s <| shim := (shim s) <| pending := rest |>
                      <| running_jobs ::= λ l, l ++ [mark_running now' j] |> |>
         <| workers ::= <[w := WPopped (mark_running now' j)]> |>)
| mv_check_dead w now j :
    workers s !! w = Some (WPopped j) →
    moves s (ECheck w now)
      (s <| shim := to_dlq (j <| status := Dead |> <| last_error := Some "Job execution timed out" |>)
                      "Execution timed out" (remove_running (job_id j) (shim s)) |>
         <| workers ::= <[w := WIdle]> |>)
| mv_check w now j :
    workers s !! w = Some (WPopped j) →
    moves s (ECheck w now) (s <| workers ::= <[w := WHandling j]> |>)
| mv_handled_ok w j :
    workers s !! w = Some (WHandling j) →
    moves s (EHandled w (Ok tt))
      (s <| shim := (remove_running (job_id j) (shim s)) <| jobs_processed ::= λ n, add64 n 1 |> |>
         <| workers ::= <[w := WIdle]> |> <| completed ::= λ l, l ++ [j] |>)
| mv_handled_retry w j e :
    workers s !! w = Some (WHandling j) → attempts (failed_once e j) ≤ max_retries (shim s) →
    moves s (EHandled w (Err e))
      (s <| shim := to_pending (failed_once e j)
                      ((remove_running (job_id j) (shim s)) <| jobs_retried ::= λ n, add64 n 1 |>) |>
         <| workers ::= <[w := WIdle]> |>)
| mv_handled_dead w j e why :
    workers s !! w = Some (WHandling j) → max_retries (shim s) < attempts (failed_once e j) →
    starts_with why "Exceeded" = true →
    moves s (EHandled w (Err e))
      (s <| shim := (to_dlq ((failed_once e j) <| status := Dead |>) why
                       (remove_running (job_id j) (shim s))) <| jobs_failed ::= λ n, add64 n 1 |> |>
         <| workers ::= <[w := WIdle]> |>).

Lemma sys_eta s : mkSys (shim s) (sleeping s) (workers s) (enqueued s) (completed s) (drained s) = s.
Proof. by destruct s. Qed.
Lemma remove_running_retries id q : max_retries (remove_running id q) = max_retries q.
Proof. unfold remove_running. by destruct (take_running _ _) as [[]|]. Qed.

Lemma sys_step_moves s ev s' : sys_step s ev = Some s' → moves s ev s'.
Proof.
  unfold sys_step. destruct ev as [name pl id now|now|id|id error| | |w now now'|w now|w r].
  1-6: destruct (sleeping s) as [js|] eqn:Hs; simpl; try done.
  - intros [= <-]. by apply mv_enqueue.
  - intros [= <-]. unfold dequeue. destruct (Z.ltb_spec (Z.of_nat (length (running_jobs (shim s)))) (max_workers (shim s)));
      [destruct (pending (shim s)) eqn:Hp|]; simpl; rewrite ?sys_eta, <- ?Hs, ?sys_eta; try apply mv_nothing.
    by eapply mv_dequeue.
  - unfold complete_job. destruct (take_running _ _) as [[j rest]|] eqn:Ht; simpl; intros [= <-].
    + by eapply mv_complete.
    + rewrite ?sys_eta; try (rewrite <-Hs, sys_eta); apply mv_nothing.
  - unfold fail_job_begin. destruct (take_running _ _) as [[j rest]|] eqn:Ht; simpl.
    + destruct (Z.leb_spec (add32 (attempts j) 1) (job_max_retries j)); intros [= <-].
      * by eapply (mv_fail_retry s id error j rest).
      * by eapply (mv_fail_dead s id error j rest).
    + intros [= <-]. rewrite ?sys_eta; try (rewrite <-Hs, sys_eta); apply mv_nothing.
  - intros [= <-]. by apply mv_resume.
  - intros [= <-]. by apply mv_drain.
  - destruct (workers s !! w) as [[]|] eqn:Hw; try done. unfold worker_pop.
    destruct (pending (shim s)) as [|j rest] eqn:Hp; simpl; [|destruct (timed_out _ _ _) eqn:Ht];
      intros [= <-].
    + rewrite list_insert_id by done. rewrite sys_eta. apply mv_nothing.
    + rewrite list_insert_id by done. by eapply (mv_pop_dead s w now now' j rest).
    + by eapply (mv_pop s w now now' j rest).
  - destruct (workers s !! w) as [[]|] eqn:Hw; try done.
    destruct (timed_out _ _ _); intros [= <-]; [by eapply mv_check_dead|by apply mv_check].
  - destruct (workers s !! w) as [[]|] eqn:Hw; try done. destruct r as [[]|e]; intros [= <-].
    + by apply mv_handled_ok.
    + unfold worker_done. simpl. pose proof (remove_running_retries (job_id job) (shim s)) as Hr.
      destruct (Z.leb_spec (add32 (attempts job) 1)
                  (max_retries (remove_running (job_id job) (shim s)))) as [Hle|Hlt].
      * apply (mv_handled_retry s w job e Hw). by rewrite <-Hr.
      * eapply (mv_handled_dead s w job e _ Hw); [by rewrite <-Hr|done].
Qed.

Lemma sys_step_counters s ev s' : sys_step s ev = Some s' → counters_ok s → counters_ok s'.
Proof.
  intros Hm%sys_step_moves [He Hp Hd]. destruct Hm; simpl.
  all: try match goal with
       | |- context [remove_running ?id ?q] =>
           destruct (remove_running_others id q) as (?&Hdl&Hen&Hpr&Hde&_)
       end.
  all: split; simpl; rewrite ?length_app, ?length_fmap, ?Hdl, ?Hen, ?Hpr, ?Hde, ?He, ?Hp, ?Hd,
    ?wrap_succ; simpl; try done; f_equal; lia.
Qed.

Lemma sys_run_invariant (P : QueueSys → Prop) (okev : queue_event → bool) evs s s' :
  (∀ s ev s', sys_step s ev = Some s' → okev ev = true → P s → P s') →
  sys_run s evs = Some s' → Forall (λ ev, okev ev = true) evs → P s → P s'.
Proof.
  intros Hstep. revert s. induction evs as [|ev evs IH]; intros s Hrun Hok Hs; simpl in Hrun.
  { by simplify_eq. }
  apply bind_Some in Hrun as (s1 & H1 & Hrun). apply Forall_cons in Hok as [? ?]. eauto.
Qed.

(** *** Where the jobs are *)

Definition by_workers (ev : queue_event) : bool :=
  match ev with EEnqueue _ _ _ _ | EDrain | EPop _ _ _ | ECheck _ _ | EHandled _ _ => true | _ => false end.
Definition by_calls (ev : queue_event) : bool :=
  match ev with EPop _ _ _ | ECheck _ _ | EHandled _ _ => false | _ => true end.

Definition conserved (s : QueueSys) : Prop := all_ids s ≡ₚ enqueued s.
Definition held_running (s : QueueSys) : Prop :=
  ids (running_jobs (shim s)) ≡ₚ ids (all_held (workers s)).

Ltac ids_norm :=
  unfold all_ids, ids in *; simpl in *;
  repeat rewrite ?fmap_app, ?fmap_cons, ?fmap_nil in *; simpl in *.

(** A rearrangement of the places only *)
Lemma conserved_perm s s' :
  enqueued s' = enqueued s → all_ids s' ≡ₚ all_ids s → conserved s → conserved s'.
Proof. intros He Ha Hc. unfold conserved. by rewrite He, Ha. Qed.

Lemma conserved_enqueue s name pl id now :
  conserved s →
  conserved (s <| shim := enqueue name pl id now (shim s) |> <| enqueued ::= λ l, l ++ [id] |>).
Proof.
  intros Hc. match goal with |- conserved ?s' => set (s1 := s') end. unfold conserved.
  assert (enqueued s1 = enqueued s ++ [id]) as -> by done.
  assert (all_ids s1 ≡ₚ all_ids s ++ [id]) as ->; [|unfold conserved in Hc; by rewrite Hc].
  unfold s1. ids_norm. solve_Permutation.
Qed.

Lemma sys_step_calls_conserved s ev s' :
  sys_step s ev = Some s' → by_calls ev = true → conserved s → conserved s'.
Proof.
  intros Hm%sys_step_moves Hev. destruct Hm; try done.
  - apply conserved_enqueue.
  - apply conserved_perm; [done|]. unfold all_ids. simpl. rewrite H0. ids_norm. solve_Permutation.
  - apply conserved_perm; [done|]. unfold all_ids. simpl. rewrite (take_running_ids _ _ _ _ H0).
    apply take_running_Some in H0 as [<- _]. ids_norm. solve_Permutation.
  - apply conserved_perm; [done|]. unfold all_ids. rewrite (take_running_ids _ _ _ _ H0), H.
    apply take_running_Some in H0 as [<- _]. ids_norm. solve_Permutation.
  - apply conserved_perm; [done|]. unfold all_ids. rewrite (take_running_ids _ _ _ _ H0), H.
    apply take_running_Some in H0 as [<- _]. ids_norm. solve_Permutation.
  - apply conserved_perm; [done|]. unfold all_ids. rewrite H. ids_norm. solve_Permutation.
  - apply conserved_perm; [done|]. ids_norm. solve_Permutation.
Qed.

(** A worker gives up the job it holds, which is among the running ones. *)
Lemma release_held s w y j :
  workers s !! w = Some y → held y = [j] → held_running s →
  ids (running_jobs (shim s)) ≡ₚ
    job_id j :: ids (running_jobs (remove_running (job_id j) (shim s))) ∧
  ids (running_jobs (remove_running (job_id j) (shim s))) ≡ₚ
    ids (all_held (<[w := WIdle]> (workers s))).
Proof.
  intros Hw Hy Hr. pose proof (all_held_insert _ _ WIdle _ Hw) as Hh.
  rewrite Hy in Hh. change (ids (held WIdle)) with (@nil string) in Hh. rewrite app_nil_r in Hh.
  unfold held_running in Hr.
  assert (job_id j ∈ ids (running_jobs (shim s))) as Hin.
  { rewrite Hr, <-Hh. simpl. set_solver. }
  apply remove_running_ids in Hin. split; [done|].
  apply (Permutation_cons_inv (a := job_id j)). rewrite <-Hin, Hr, <-Hh. simpl.
  by rewrite <-Permutation_cons_append.
Qed.

Lemma sys_step_workers_conserved s ev s' :
  sys_step s ev = Some s' → by_workers ev = true →
  conserved s ∧ held_running s → conserved s' ∧ held_running s'.
Proof.
  intros Hm%sys_step_moves Hev [Hc Hr]. destruct Hm; try done.
  - split; [by apply conserved_enqueue|done].
  - split; [|done]. apply (conserved_perm s); [done| |done]. ids_norm. solve_Permutation.
  - split; [|done]. apply (conserved_perm s); [done| |done].
    unfold all_ids. simpl. rewrite H. ids_norm. solve_Permutation.
  - split.
    + apply (conserved_perm s); [done| |done]. unfold all_ids. simpl. rewrite H. ids_norm.
      solve_Permutation.
    + unfold held_running in *. simpl.
      pose proof (all_held_insert _ _ (WPopped (mark_running now' j)) _ H0) as Hh.
      change (ids (held WIdle)) with (@nil string) in Hh. rewrite app_nil_r in Hh.
      unfold ids in *. rewrite Hh, fmap_app, Hr. done.
  - destruct (release_held s w _ j H eq_refl Hr) as [Hj Hr']. split; [|done].
    destruct (remove_running_others (job_id j) (shim s)) as (Ep & Ed & _).
    apply (conserved_perm s); [done| |done]. unfold all_ids. simpl.
    rewrite Hj, Ep, Ed. ids_norm. solve_Permutation.
  - split; [done|]. unfold held_running in *. simpl. rewrite Hr.
    pose proof (all_held_insert _ _ (WHandling j) _ H) as Hh. simpl in Hh.
    by apply Permutation_app_inv_r in Hh.
  - destruct (release_held s w _ j H eq_refl Hr) as [Hj Hr']. split; [|done].
    destruct (remove_running_others (job_id j) (shim s)) as (Ep & Ed & _).
    apply (conserved_perm s); [done| |done]. unfold all_ids. simpl.
    rewrite Hj, Ep, Ed. ids_norm. solve_Permutation.
  - destruct (release_held s w _ j H eq_refl Hr) as [Hj Hr']. split; [|done].
    destruct (remove_running_others (job_id j) (shim s)) as (Ep & Ed & _).
    apply (conserved_perm s); [done| |done]. unfold all_ids. simpl.
    rewrite Hj, Ep, Ed. ids_norm. solve_Permutation.
  - destruct (release_held s w _ j H eq_refl Hr) as [Hj Hr']. split; [|done].
    destruct (remove_running_others (job_id j) (shim s)) as (Ep & Ed & _).
    apply (conserved_perm s); [done| |done]. unfold all_ids. simpl.
    rewrite Hj, Ep, Ed. ids_norm. solve_Permutation.
Qed.

(** *** How many run *)

Definition running_bounded (s : QueueSys) : Prop :=
  Z.of_nat (length (running_jobs (shim s))) ≤ Z.max 0 (max_workers (shim s)).

Lemma sys_step_max_workers s ev s' :
  sys_step s ev = Some s' →
  max_workers (shim s') = max_workers (shim s) ∧ length (workers s') = length (workers s).
Proof.
  intros Hm%sys_step_moves. destruct Hm; simpl; rewrite ?length_insert; try done.
  all: split; [|done].
  all: match goal with |- context [remove_running ?id ?q] =>
         destruct (remove_running_others id q) as (?&?&?&?&?&?&E) end; exact E.
Qed.
Lemma sys_step_calls_bounded s ev s' :
  sys_step s ev = Some s' → by_calls ev = true → running_bounded s → running_bounded s'.
Proof.
  unfold running_bounded. intros Hm%sys_step_moves Hev. destruct Hm; simpl; try done.
  2-4: apply take_running_length in H0; lia.
  intros _. rewrite length_app. simpl. lia.
Qed.
Lemma held_running_bounded s :
  held_running s → length (workers s) = Z.to_nat (max_workers (shim s)) → running_bounded s.
Proof.
  intros Hr Hl. unfold held_running, running_bounded, ids in *.
  apply Permutation_length in Hr. rewrite !length_fmap in Hr.
  pose proof (length_all_held (workers s)). lia.
Qed.

(** *** What is recorded in a job *)

Definition job_ok (R : Z) (j : Job) : Prop := 0 ≤ attempts j ≤ R ∧ job_max_retries j = R.
Definition pending_ok (R : Z) (j : Job) : Prop :=
  job_ok R j ∧ status j = Pending ∧ started_at j = None.
Definition dead_ok (R : Z) (a : ArchivedJob) : Prop :=
  status (archived a) = Dead ∧
  (starts_with (reason a) "Exceeded" = true ∧ attempts (archived a) = R + 1 ∨
   reason a = "Execution timed out" ∧ attempts (archived a) ≤ R).

Record tidy (R : Z) (s : QueueSys) : Prop := {
  tidy_retries : max_retries (shim s) = R;
  tidy_pending : Forall (pending_ok R) (pending (shim s));
  tidy_running : Forall (job_ok R) (running_jobs (shim s));
  tidy_sleeping : Forall (job_ok R) (option_list (sleeping s));
  tidy_held : Forall (λ w, Forall (job_ok R) (held w)) (workers s);
  tidy_dead : Forall (dead_ok R) (dead_letter_queue (shim s))
}.

Lemma remove_running_ok R id q :
  Forall (job_ok R) (running_jobs q) → Forall (job_ok R) (running_jobs (remove_running id q)).
Proof.
  intros Hr. unfold remove_running. destruct (take_running _ _) as [[j rest]|] eqn:Ht; [|done].
  by destruct (take_running_subset _ _ _ _ _ Ht Hr).
Qed.
Lemma failed_once_attempts R error j :
  R < 2 ^ 32 - 1 → job_ok R j → attempts (failed_once error j) = attempts j + 1.
Proof. intros HR [Hj _]. simpl. u_small. done. Qed.

Lemma sys_step_tidy R s ev s' :
  0 ≤ R < 2 ^ 32 - 1 → sys_step s ev = Some s' → tidy R s → tidy R s'.
Proof.
  intros HR Hm%sys_step_moves [HmR Hp Hr Hs Hh Hd].
  assert (∀ w wk, workers s !! w = Some wk → Forall (job_ok R) (held wk)) as Hwk.
  { intros w wk Hw. rewrite Forall_lookup in Hh. eauto. }
  destruct Hm; try match goal with
    | |- context [remove_running ?id ?q] =>
        pose proof (remove_running_ok R id q Hr) as Hrr;
        destruct (remove_running_others id q) as (Ep&Ed&_&_&_&Er&_)
    | H : take_running _ _ = Some _ |- _ => destruct (take_running_subset _ _ _ _ _ H Hr) as [Hj Hrest]
    | H : pending _ = _ :: _ |- _ => rewrite H in Hp; apply Forall_cons in Hp as [[Hj [Hst Hnone]] Hp]
    end; try match goal with
    | H : workers _ !! _ = Some (_ ?j) |- _ => pose proof (Hwk _ _ H) as Hj; simpl in Hj;
        rewrite Forall_singleton in Hj
    | H : sleeping _ = Some ?j |- _ => rewrite H in Hs; simpl in Hs;
        pose proof Hs as Hj; rewrite Forall_singleton in Hj
    end; try match goal with
    | |- context [failed_once ?e ?j] => pose proof (failed_once_attempts R e j (proj2 HR) Hj) as Ha
    end.
  all: try (pose proof Hj as [Hj1 Hj2]).
  all: try (exfalso; rewrite Hnone in *; done).
  all: split; simpl; rewrite ?Ep, ?Ed, ?Er; try done.
  all: repeat first [apply Forall_app; split|apply Forall_cons; split|apply Forall_nil; done
                    |apply Forall_insert]; try done.
  all: unfold pending_ok, dead_ok, job_ok; simpl in *; split_and!; try done; try lia.
  all: first [left; split; [done|lia]|right; split; [done|lia]].
Qed.

Lemma tidy_new env h :
  0 ≤ max_retries (new_queue env) → tidy (max_retries (new_queue env)) (new_sys env h).
Proof.
  intros HR. split; simpl; try by constructor.
  unfold spawn_workers. destruct h; [|constructor]. apply Forall_replicate. constructor.
Qed.

(** ** The theorems *)

(** C1.  No job is lost and none appears: in every interleaving in which jobs are
    moved only by the worker tasks, or only by the calls [dequeue],
    [complete_job] and [fail_job], the ids ever enqueued are, each as often as it
    was enqueued, the ids of the jobs that are pending, running, waiting out a
    retry delay, dead, completed or drained from the dead-letter queue; the
    counters agree with these places (modulo 2^64); and never more than
    [max_workers] jobs run. *)
Theorem no_job_lost env h evs s :
  sys_run (new_sys env h) evs = Some s →
  Forall (λ ev, by_workers ev = true) evs ∨ Forall (λ ev, by_calls ev = true) evs →
  conserved s ∧ counters_ok s ∧ running_bounded s.
Proof.
  intros Hrun Hmode.
  assert (counters_ok s).
  { apply (sys_run_invariant counters_ok (λ _, true) evs (new_sys env h)); [|done| |by split].
    - eauto using sys_step_counters.
    - by apply Forall_forall. }
  assert (conserved (new_sys env h)) as H0 by constructor.
  assert (running_bounded (new_sys env h)) as Hb0 by (unfold running_bounded; simpl; lia).
  destruct Hmode as [Hmode|Hmode].
  - assert (all_held (workers (new_sys env h)) = []) as Hh.
    { simpl. unfold spawn_workers. destruct h; [|done]. unfold all_held. simpl.
      induction (Z.to_nat _) as [|n IH]; [done|exact IH]. }
    assert (held_running (new_sys env h)) as Hr0 by (unfold held_running; by rewrite Hh).
    destruct (sys_run_invariant (λ s, conserved s ∧ held_running s) by_workers evs (new_sys env h) s)
      as [Hc Hr]; [eauto using sys_step_workers_conserved|done..|]. split_and!; [done..|].
    destruct h.
    + apply held_running_bounded; [done|].
      apply (sys_run_invariant (λ s, length (workers s) = Z.to_nat (max_workers (shim s)))
               (λ _, true) evs (new_sys env true)); [|done| |].
      * intros s1 ev s2 Hs _ Hl. apply sys_step_max_workers in Hs as [-> ->]. done.
      * by apply Forall_forall.
      * simpl. by rewrite length_replicate.
    + assert (workers s = []) as Hw.
      { apply length_zero_iff_nil.
        apply (sys_run_invariant (λ s, length (workers s) = 0%nat)
                 (λ _, true) evs (new_sys env false)); [|done| |done].
        - intros s1 ev s2 Hs _ Hl. apply sys_step_max_workers in Hs as [_ ->]. done.
        - by apply Forall_forall. }
      unfold held_running in Hr. rewrite Hw in Hr. simpl in Hr.
      apply Permutation_length in Hr. unfold ids, running_bounded in *.
      rewrite length_fmap in Hr. simpl in Hr. lia.
  - split_and!; [|done|].
    + apply (sys_run_invariant conserved by_calls evs (new_sys env h)); [|done..].
      eauto using sys_step_calls_conserved.
    + apply (sys_run_invariant running_bounded by_calls evs (new_sys env h)); [|done..].
      eauto using sys_step_calls_bounded.
Qed.

(** The record a job carries, in every interleaving of calls and workers:
    a pending job has status [Pending], no start time and at most [max_retries]
    failed attempts; so do the running ones count; a job is in the dead-letter
    queue either because it failed exactly [max_retries + 1] times or because its
    execution timed out with no more than [max_retries] failures.  In particular
    the branch of the worker for a job that timed out while pending is never
    taken: a pending job never has a start time to compare with. *)
Theorem jobs_well_recorded env h evs s :
  0 ≤ max_retries (new_queue env) < 2 ^ 32 - 1 →
  sys_run (new_sys env h) evs = Some s →
  tidy (max_retries (new_queue env)) s ∧
  ∀ now now' q', worker_pop now now' (shim s) = (None, q') → pending (shim s) = [] ∧ q' = shim s.
Proof.
  intros HR Hrun.
  assert (tidy (max_retries (new_queue env)) s) as Ht.
  { apply (sys_run_invariant _ (λ _, true) evs (new_sys env h)); [|done| |apply tidy_new, HR].
    - intros s1 ev s2 Hs _. by apply (sys_step_tidy _ _ _ _ HR Hs).
    - by apply Forall_forall. }
  split; [done|]. intros now now' q'. unfold worker_pop.
  pose proof (tidy_pending _ _ Ht) as Hp. destruct (pending (shim s)) as [|j rest].
  { by intros [= <-]. }
  apply Forall_cons in Hp as [(_ & _ & Hn) _]. rewrite Hn. done.
Qed.

(** The calls and the workers do not mix: one job is enqueued, a worker is
    processing it, and a caller reports it with [complete_job]; when the handler
    answers the job counts as processed a second time.  If the caller reports a
    failure instead and the handler fails too, the job is queued twice. *)
Theorem calls_and_workers_duplicate now :
  let env := ∅ : environment in
  let start := [EEnqueue "n" [] "id" now; EPop 0 now now; ECheck 0 now] in
  (∃ s, sys_run (new_sys env true) (start ++ [EComplete "id"; EHandled 0 (Ok tt)]) = Some s ∧
        jobs_enqueued (shim s) = 1 ∧ jobs_processed (shim s) = 2) ∧
  (∃ s, sys_run (new_sys env true)
          (start ++ [EFail "id" "e"; EHandled 0 (Err "e"); EFailResume]) = Some s ∧
        enqueued s = ["id"] ∧ ids (pending (shim s)) = ["id"; "id"]).
Proof.
  assert (new_sys ∅ true = mkSys (mkQueueShim 4 3 5 300 300 0 0 0 0 0 [] [] [] true) None
            (replicate 4 WIdle) [] [] []) as E by reflexivity.
  assert (timed_out 300 now (Some (to_rfc3339 now)) = false) as Ht.
  { unfold timed_out. simpl. rewrite parse_to_rfc3339. unfold num_seconds_between.
    rewrite Z.sub_diag. reflexivity. }
  intros env start. unfold env, start. rewrite E. split; eexists.
  all: split; [cbn; rewrite Ht; reflexivity|split; reflexivity].
Qed.

(** The delay of [fail_job] is the doubling backoff capped at
    [retry_max_secs], and grows with the attempt, for a base below 2^33 seconds;
    for a larger base the product wraps and a retry may come at once. *)
Theorem retry_delay_backoff q a b :
  0 ≤ retry_base_secs q < 2 ^ 33 → 0 ≤ a ≤ b →
  retry_delay q a = Z.min (retry_base_secs q * 2 ^ Z.min a 31) (retry_max_secs q) ∧
  retry_delay q a ≤ retry_delay q b ≤ retry_max_secs q ∧
  retry_delay (q <| retry_base_secs := 2 ^ 63 |>) 1 ≤ 0.
Proof.
  intros Hb Hab.
  assert (∀ n, 0 ≤ n → retry_delay q n =
            Z.min (retry_base_secs q * 2 ^ Z.min n 31) (retry_max_secs q)) as Hd.
  { intros n Hn. unfold retry_delay, saturating_pow2_u32.
    assert (2 ^ Z.min n 31 ≤ 2 ^ 31) by (apply Z.pow_le_mono_r; lia).
    assert (0 < 2 ^ Z.min n 31) by (apply Z.pow_pos_nonneg; lia).
    rewrite (Z.min_r (2 ^ 32 - 1)) by lia. rewrite mul64_small; [done|]. unfold in_u. nia. }
  rewrite !Hd by lia. split_and!; [done| |lia|].
  - assert (2 ^ Z.min a 31 ≤ 2 ^ Z.min b 31) by (apply Z.pow_le_mono_r; lia). nia.
  - unfold retry_delay. simpl. change (mul64 _ _) with 0. lia.
Qed.

(** The worker's timeout test, for a job that started at [t]: it is true when
    at least one whole second more than the limit has passed since, and also when
    the clock now reads a second or more before [t]: the negative difference is
    cast to an unsigned number.  Otherwise it is false. *)
Theorem timed_out_spec timeout now t :
  0 ≤ timeout < 2 ^ 63 → Z.abs (now - t) < 2 ^ 63 * 10 ^ 9 →
  timed_out timeout now (Some (to_rfc3339 t)) = true ↔
  (timeout + 1) * 10 ^ 9 ≤ now - t ∨ now - t ≤ - 10 ^ 9.
Proof.
  intros HT Hd. unfold timed_out. simpl. rewrite parse_to_rfc3339, Z.ltb_lt.
  unfold as_u64, num_seconds_between.
  destruct (Z.le_gt_cases 0 (now - t)) as [Hp|Hn].
  - rewrite Z.quot_div_nonneg by lia.
    pose proof (Z.div_mod (now - t) (10 ^ 9) ltac:(lia)).
    pose proof (Z.mod_pos_bound (now - t) (10 ^ 9) ltac:(lia)).
    rewrite wrap_small by (unfold in_u; nia). lia.
  - assert (Z.quot (now - t) (10 ^ 9) = - ((t - now) / 10 ^ 9)) as ->.
    { replace (now - t) with (- (t - now)) by lia.
      rewrite Z.quot_opp_l, Z.quot_div_nonneg by lia. done. }
    pose proof (Z.div_mod (t - now) (10 ^ 9) ltac:(lia)).
    pose proof (Z.mod_pos_bound (t - now) (10 ^ 9) ltac:(lia)).
    destruct (Z.eq_dec ((t - now) / 10 ^ 9) 0) as [Hz|Hz].
    + rewrite Hz. change (wrap 64 (- 0)) with 0. lia.
    + unfold wrap. rewrite Z.mod_opp_l_nz, Z.mod_small; nia || (rewrite ?Z.mod_small; nia).
Qed.
End queue.

(** ** Concrete runs *)

Section queue_runs.
#[local] Instance queue_rfc : Rfc3339 := demo_rfc3339.

(** A job that fails at first and then succeeds, and one that a worker holds *)
Definition two_jobs : list queue_event :=
  [EEnqueue "mail" [] "j1" 0; EEnqueue "bill" [] "j2" 1; EPop 0 2 2; ECheck 0 2;
   EHandled 0 (Err "refused"); EPop 1 3 3; EPop 2 4 4; ECheck 2 4; EHandled 2 (Ok tt)].
Definition two_jobs_sys : QueueSys :=
  default (new_sys ∅ true) (sys_run (new_sys ∅ true) two_jobs).

Lemma two_jobs_run : sys_run (new_sys ∅ true) two_jobs = Some two_jobs_sys.
Proof. vm_compute. reflexivity. Qed.

Lemma no_job_lost_witness :
  conserved two_jobs_sys ∧ counters_ok two_jobs_sys ∧ running_bounded two_jobs_sys.
Proof.
  refine (no_job_lost ∅ true two_jobs two_jobs_sys two_jobs_run (or_introl _)).
  repeat constructor.
Defined.

Lemma jobs_well_recorded_witness : tidy 3 two_jobs_sys.
Proof.
  refine (proj1 (jobs_well_recorded ∅ true two_jobs two_jobs_sys _ two_jobs_run)).
  split; vm_compute; congruence.
Defined.

Lemma retry_delay_backoff_witness :
  retry_delay (new_queue ∅) 3 = 40 ∧ retry_delay (new_queue ∅) 3 ≤ retry_delay (new_queue ∅) 9.
Proof.
  destruct (retry_delay_backoff (new_queue ∅) 3 9) as (E & [Hle _] & _).
  - split; vm_compute; congruence.
  - lia.
  - split; [rewrite E; reflexivity|exact Hle].
Defined.

Lemma timed_out_spec_witness :
  timed_out 300 (302 * 10 ^ 9) (Some (to_rfc3339 (10 ^ 9))) = true ∧
  timed_out 300 0 (Some (to_rfc3339 (10 ^ 9))) = true.
Proof.
  split.
  - refine (proj2 (timed_out_spec 300 (302 * 10 ^ 9) (10 ^ 9) _ _) _); lia.
  - refine (proj2 (timed_out_spec 300 0 (10 ^ 9) _ _) _); lia.
Defined.
End queue_runs.
