(* ===== verification/Scheduler.v ===== *)
(** * The task scheduler ([scheduler-shim/src/lib.rs])

    Tasks with cron schedules: the state kept per task, and the background loop
    that waits for the earliest fire time and runs a task with its retries. *)

From S2P Require Import Prelude.

(** [TaskState] *)
Inductive TaskState := TaskPending | TaskRunning | TaskSuccess | TaskFailed.

(** [RetryConfig] and its default *)
Record RetryConfig := mkRetryConfig {
  max_retries : Z;
  base_delay_secs : Z;
  max_delay_secs : Z
}.
Definition default_retry : RetryConfig := mkRetryConfig 3 5 300.

(** [ScheduledTask] *)
Record ScheduledTask := mkTask {
  name : string;
  schedule : string;
  command : string;
  args : list string;
  enabled : bool;
  timeout_secs : Z;
  retry : RetryConfig
}.

(** [TaskRuntime] *)
Record TaskRuntime := mkRuntime {
  state : TaskState;
  last_run : option Z;
  last_success : option Z;
  last_failure : option Z;
  consecutive_failures : Z;
  next_run : option Z
}.
#[export] Instance TaskRuntime_settable : Settable TaskRuntime := λ r,
  mkRuntime (state r) (last_run r) (last_success r) (last_failure r)
    (consecutive_failures r) (next_run r).

(** The [cron] crate: parsing an expression, and the first instant after [now] at
    which a schedule fires ([upcoming(Utc).next()]). *)
Class Cron := {
  Schedule : Type;
  schedule_from_str : string → result string Schedule;
  upcoming : Schedule → Z → option Z;
  upcoming_later s now t : upcoming s now = Some t → now < t;
  upcoming_mono s a b t : a ≤ b → upcoming s b = Some t → ∃ t', upcoming s a = Some t' ∧ t' ≤ t
}.
(** Schedules that fire at every multiple of a number of nanoseconds *)
Definition demo_from_str (s : string) : result string positive :=
  match parse_u64 s with Some (Zpos p) => Ok p | _ => Err "Invalid expression" end.
Program Definition demo_cron : Cron :=
  {| Schedule := positive;
     schedule_from_str := demo_from_str;
     upcoming p now := Some ((now / Zpos p + 1) * Zpos p) |}.
Next Obligation.
  intros p now t. simpl. intros [= <-].
  pose proof (Z.mod_pos_bound now (Zpos p) ltac:(lia)).
  pose proof (Z.div_mod now (Zpos p) ltac:(lia)). lia.
Qed.
Next Obligation.
  intros p a b t Hab. simpl. intros [= <-]. eexists. split; [done|].
  pose proof (Z.div_le_mono a b (Zpos p) ltac:(lia) Hab). nia.
Qed.

Section scheduler.
Context `{CR : Cron}.
(** [serde_json::from_str::<Vec<ScheduledTask>>] *)
Context (parse_tasks : string → option (list ScheduledTask)).

(** [SchedulerShim], less handler and shutdown channel *)
Record SchedulerShim := mkScheduler {
  tasks : list ScheduledTask;
  schedules : gmap string Schedule;
  runtime : gmap string TaskRuntime;
  timezone : string;
  tasks_executed : Z;
  tasks_failed : Z;
  tasks_retried : Z;
  running : bool
}.
#[local] Instance SchedulerShim_settable : Settable SchedulerShim := λ s,
  mkScheduler (tasks s) (schedules s) (runtime s) (timezone s) (tasks_executed s)
    (tasks_failed s) (tasks_retried s) (running s).

(** [load_tasks] *)
Definition load_tasks (env : environment) : list ScheduledTask :=
  filter (λ t, enabled t = true) (default [] (env !! "SCHEDULER_TASKS" ≫= parse_tasks)).

(** [parse_schedules]: collected into a map, a later task of the same name wins *)
Definition parse_schedules (ts : list ScheduledTask) : gmap string Schedule :=
  foldl (λ m t, match schedule_from_str (schedule t) with
                | Ok s => <[name t := s]> m
                | Err _ => m
                end) ∅ ts.

Definition next_of (scheds : gmap string Schedule) (now : Z) (n : string) : option Z :=
  scheds !! n ≫= λ s, upcoming s now.

(** [SchedulerShim::new] *)
Definition new_scheduler (env : environment) (now : Z) : SchedulerShim :=
  let ts := load_tasks env in
  let scheds := parse_schedules ts in
  {| tasks := ts;
     schedules := scheds;
     runtime := foldl (λ m t, <[name t := mkRuntime TaskPending None None None 0
                                            (next_of scheds now (name t))]> m) ∅ ts;
     timezone := env_or env "SCHEDULER_TIMEZONE" "UTC";
     tasks_executed := 0; tasks_failed := 0; tasks_retried := 0;
     running := false |}.

(** [retry_delay] in seconds; [r] is the [f32] drawn, widened *)
Definition retry_delay (attempt : Z) (c : RetryConfig) (r : f64) : Z :=
  let delay_secs := mul64 (base_delay_secs c) (saturating_pow2_u32 (Z.min attempt 31)) in
  let capped := Z.min delay_secs (max_delay_secs c) in
  let jitter := f64_to_u64 (f64_mul (f64_mul (f64_of_Z capped) (f64_div (f64_of_Z 1) (f64_of_Z 2))) r) in
  add64 capped jitter.

(** [task_state], [next_run] *)
Definition task_state (s : SchedulerShim) (n : string) : option TaskState :=
  state <$> runtime s !! n.
Definition task_next_run (s : SchedulerShim) (n : string) : option Z :=
  runtime s !! n ≫= next_run.

(** The runtime record after a run, as [update_task_state] and the loop write it *)
Definition mark_success (next : option Z) (now : Z) (r : TaskRuntime) : TaskRuntime :=
  r <| state := TaskSuccess |> <| last_success := Some now |>
    <| consecutive_failures := 0 |> <| next_run := next |>.
Definition mark_failed (next : option Z) (now : Z) (r : TaskRuntime) : TaskRuntime :=
  r <| state := TaskFailed |> <| last_failure := Some now |>
    <| consecutive_failures ::= λ n, add32 n 1 |> <| next_run := next |>.
Definition mark_running (now : Z) (r : TaskRuntime) : TaskRuntime :=
  r <| state := TaskRunning |> <| last_run := Some now |>.

(** [update_task_state] *)
Definition update_task_state (n : string) (st : TaskState) (now : Z) (s : SchedulerShim)
    : SchedulerShim :=
  match runtime s !! n with
  | None => s
  | Some rt =>
      let next := next_of (schedules s) now n in
      match st with
      | TaskSuccess =>
          s <| runtime ::= <[n := mark_success next now rt]> |>
            <| tasks_executed ::= λ k, add64 k 1 |>
      | TaskFailed =>
          s <| runtime ::= <[n := mark_failed next now rt]> |>
            <| tasks_failed ::= λ k, add64 k 1 |>
      | TaskRunning => s <| runtime ::= <[n := mark_running now rt]> |>
      | TaskPending => s <| runtime ::= <[n := rt <| state := TaskPending |>]> |>
      end
  end.

(** [validate_schedules] *)
Definition validate_schedules (s : SchedulerShim) : list (string * string) :=
  omap (λ t, match schedule_from_str (schedule t) with
             | Err e => Some (name t, e)
             | Ok _ => None
             end) (tasks s).

(** [list_tasks] *)
Definition list_tasks (s : SchedulerShim) : list (string * string * TaskRuntime) :=
  omap (λ t, rt ← runtime s !! name t; Some (name t, schedule t, rt)) (tasks s).

(** [start] and [stop]: the flag they keep *)
Definition start_scheduler (s : SchedulerShim) : SchedulerShim := s <| running := true |>.
Definition stop_scheduler (s : SchedulerShim) : SchedulerShim := s <| running := false |>.

(** [metrics] *)
Definition scheduler_metrics (s : SchedulerShim) : list (string * f64) :=
  [("scheduler_tasks_total", f64_of_Z (Z.of_nat (length (tasks s))));
   ("scheduler_tasks_executed", f64_of_Z (tasks_executed s));
   ("scheduler_tasks_failed", f64_of_Z (tasks_failed s));
   ("scheduler_tasks_retried", f64_of_Z (tasks_retried s))].

(** ** The background loop ([spawn_scheduler_loop])

    It works on clones of the schedules and the runtime map and on counters of
    its own. *)
Record LoopState := mkLoop {
  loop_runtime : gmap string TaskRuntime;
  executed : Z;
  failed : Z;
  retried : Z
}.
#[local] Instance LoopState_settable : Settable LoopState := λ l,
  mkLoop (loop_runtime l) (executed l) (failed l) (retried l).

Definition new_loop (s : SchedulerShim) : LoopState := mkLoop (runtime s) 0 0 0.

(** [valid_tasks] *)
Definition valid_tasks (s : SchedulerShim) : list ScheduledTask :=
  filter (λ t, is_Some (schedules s !! name t)) (tasks s).

(** The search for the next task to fire.  Each look at a task reads the clock anew:
    [clock i] is the reading for the task at the place [i]. *)
Definition earlier (scheds : gmap string Schedule) (now : Z)
    (earliest : option (Z * string)) (t : ScheduledTask) : option (Z * string) :=
  match next_of scheds now (name t) with
  | None => earliest
  | Some time =>
      match earliest with
      | Some (e, _) => if time <? e then Some (time, name t) else earliest
      | None => Some (time, name t)
      end
  end.
Fixpoint search_from (scheds : gmap string Schedule) (clock : nat → Z) (i : nat)
    (earliest : option (Z * string)) (ts : list ScheduledTask) : option (Z * string) :=
  match ts with
  | [] => earliest
  | t :: ts => search_from scheds clock (S i) (earlier scheds (clock i) earliest t) ts
  end.
Definition find_earliest (scheds : gmap string Schedule) (ts : list ScheduledTask) (clock : nat → Z)
    : option (Z * string) :=
  search_from scheds clock 0 None ts.

(** The configuration the loop runs under that name *)
Definition task_config (ts : list ScheduledTask) (n : string) : option ScheduledTask :=
  List.find (λ t, bool_decide (name t = n)) ts.

(** The retry loop from attempt [k] on, [fuel] attempts left: [handler k] is the
    answer of attempt [k], [shutdown k] whether the shutdown signal wins the
    race against the delay before it.  [None]: the task returned. *)
Fixpoint attempt_loop (handler : Z → result string unit) (shutdown : Z → bool)
    (fuel : nat) (k : Z) (last_error : option string) (l : LoopState)
    : option (option string) * Z * LoopState :=
  match fuel with
  | O => (Some last_error, k, l)
  | S fuel =>
      let l := if 0 <? k then l <| retried ::= λ n, add64 n 1 |> else l in
      if (0 <? k) && shutdown k then (None, k, l)
      else match handler k with
           | Ok _ => (Some None, k + 1, l)
           | Err e => attempt_loop handler shutdown fuel (k + 1) (Some e) l
           end
  end.

(** From the fire time to the end of the iteration: the state, and the number of
    handler calls; [None] in front when the loop has ended. *)
Definition run_task (scheds : gmap string Schedule) (t : ScheduledTask)
    (handler : Z → result string unit) (shutdown : Z → bool) (now now' : Z) (l : LoopState)
    : option unit * Z * LoopState :=
  let n := name t in
  let l := l <| loop_runtime ::= alter (mark_running now) n |> in
  let max_attempts := add32 (max_retries (retry t)) 1 in
  match attempt_loop handler shutdown (Z.to_nat max_attempts) 0 None l with
  | (None, calls, l) => (None, calls, l)
  | (Some last_error, calls, l) =>
      match loop_runtime l !! n with
      | None => (Some tt, calls, l)
      | Some _ =>
          let next := next_of scheds now' n in
          match last_error with
          | None =>
              (Some tt, calls, l <| loop_runtime ::= alter (mark_success next now') n |>
                                 <| executed ::= λ k, add64 k 1 |>)
          | Some _ =>
              (Some tt, calls, l <| loop_runtime ::= alter (mark_failed next now') n |>
                                 <| failed ::= λ k, add64 k 1 |>)
          end
      end
  end.

(** ** Lemmas *)

Lemma parse_schedules_lookup ts n s :
  parse_schedules ts !! n = Some s → ∃ t, t ∈ ts ∧ name t = n ∧ schedule_from_str (schedule t) = Ok s.
Proof.
  unfold parse_schedules.
  assert (∀ m : gmap string Schedule, (∀ n s, m !! n = Some s → ∃ t, t ∈ ts ∧ name t = n ∧ schedule_from_str (schedule t) = Ok s) →
    ∀ ts', ts' ⊆ ts → ∀ n s,
    foldl (λ m t, match schedule_from_str (schedule t) with
                  | Ok s => <[name t := s]> m | Err _ => m end) m ts' !! n = Some s →
    ∃ t, t ∈ ts ∧ name t = n ∧ schedule_from_str (schedule t) = Ok s) as Hgen.
  { intros m Hm ts'. revert m Hm. induction ts' as [|t r IH]; intros m Hm Hsub; simpl; [done|].
    apply IH; [|set_solver]. destruct (schedule_from_str (schedule t)) as [sc|] eqn:Ht; [|done].
    intros n' s' [[<- <-]|[_ H]]%lookup_insert_Some; [|eauto].
    exists t. split_and!; [set_solver|done..]. }
  apply (Hgen ∅); [|done]. intros ? ?. by rewrite lookup_empty.
Qed.

Lemma search_from_gen scheds clock ts : ∀ i acc,
  match search_from scheds clock i acc ts with
  | Some (t, n) =>
      (acc = Some (t, n) ∨ ∃ j k, ts !! j = Some k ∧ name k = n ∧ next_of scheds (clock (i + j)%nat) n = Some t) ∧
      (∀ j k t', ts !! j = Some k → next_of scheds (clock (i + j)%nat) (name k) = Some t' → t ≤ t') ∧
      (∀ t' n', acc = Some (t', n') → t ≤ t')
  | None => acc = None ∧ ∀ j k, ts !! j = Some k → next_of scheds (clock (i + j)%nat) (name k) = None
  end.
Proof.
  induction ts as [|k ts IH]; intros i acc; simpl.
  { destruct acc as [[t n]|].
    - split_and!; [by left|done|]. intros t' n' [= <- <-]. lia.
    - by split. }
  specialize (IH (S i) (earlier scheds (clock i) acc k)).
  assert (∀ e, earlier scheds (clock i) acc k = Some e →
    acc = Some e ∨ e.2 = name k ∧ next_of scheds (clock i) (name k) = Some e.1) as Hsrc.
  { intros e. unfold earlier. destruct (next_of scheds (clock i) (name k)) as [tm|]; [|by left].
    destruct acc as [[t0 n0]|]; [destruct (tm <? t0)|]; intros [= <-]; auto. }
  assert (∀ t' n' , acc = Some (t', n') → ∃ t1 n1, earlier scheds (clock i) acc k = Some (t1, n1) ∧ t1 ≤ t') as Hle1.
  { intros t' n' ->. unfold earlier. destruct (next_of scheds (clock i) (name k)) as [tm|]; [|by eauto using Z.le_refl].
    destruct (Z.ltb_spec tm t'); eexists _, _; (split; [done|lia]). }
  assert (∀ t', next_of scheds (clock i) (name k) = Some t' →
    ∃ t1 n1, earlier scheds (clock i) acc k = Some (t1, n1) ∧ t1 ≤ t') as Hle2.
  { intros t' Ht. unfold earlier. rewrite Ht. destruct acc as [[t0 n0]|]; [destruct (Z.ltb_spec t' t0)|];
      eexists _, _; (split; [done|lia]). }
  assert (∀ j, S i + j = i + S j)%nat as Hj by lia.
  destruct (search_from _ _ _ _ ts) as [[t n]|].
  - destruct IH as (Hin & Hall & Hacc). split_and!.
    + destruct Hin as [He|(j & k' & Hk' & ? & ?)]; [|right; exists (S j), k'; by rewrite <-Hj].
      apply Hsrc in He as [?|[Hn Ht]]; [by left|right]. simpl in *. subst n. exists 0%nat, k. by rewrite Nat.add_0_r.
    + intros [|j] k' t' Hk' Ht'; [|rewrite <-Hj in Ht'; by eauto]. injection Hk' as ->. rewrite Nat.add_0_r in Ht'.
      destruct (Hle2 _ Ht') as (t1 & n1 & H1 & ?). specialize (Hacc _ _ H1). lia.
    + intros t' n' Ha. destruct (Hle1 _ _ Ha) as (t1 & n1 & H1 & ?). specialize (Hacc _ _ H1). lia.
  - destruct IH as [He Hall]. split.
    + destruct acc as [[t0 n0]|]; [|done]. destruct (Hle1 _ _ eq_refl) as (? & ? & H1 & _). congruence.
    + intros [|j] k' Hk'; [|rewrite <-Hj; by eauto]. injection Hk' as ->. rewrite Nat.add_0_r.
      destruct (next_of scheds (clock i) (name k')) as [t'|]; [|done].
      destruct (Hle2 _ eq_refl) as (? & ? & H1 & _). congruence.
Qed.
(** What the search finds, over the readings of the clock *)
Lemma find_earliest_gen scheds ts clock :
  match find_earliest scheds ts clock with
  | Some (t, n) =>
      (∃ j k, ts !! j = Some k ∧ name k = n ∧ next_of scheds (clock j) n = Some t) ∧
      (∀ j k t', ts !! j = Some k → next_of scheds (clock j) (name k) = Some t' → t ≤ t')
  | None => ∀ j k, ts !! j = Some k → next_of scheds (clock j) (name k) = None
  end.
Proof.
  pose proof (search_from_gen scheds clock ts 0 None) as H. unfold find_earliest. simpl in H.
  destruct (search_from _ _ _ _ _) as [[t n]|]; [|by destruct H].
  destruct H as ([|?] & ? & _); [done|]. by split.
Qed.

(** The loop waits for the right task: what it picks lies behind a reading of the clock,
    no valid task fires earlier by its own reading, and it picks nothing only when no task
    fires again.  The configuration it then runs is the first loaded task of that name, and
    a task of that name is enabled in the configuration file and has a valid cron
    expression that the fire time comes from. *)
Theorem scheduler_picks_earliest env now0 clock :
  let s := new_scheduler env now0 in
  match find_earliest (schedules s) (valid_tasks s) clock with
  | Some (t, n) =>
      (∀ j k t', valid_tasks s !! j = Some k → next_of (schedules s) (clock j) (name k) = Some t' → t ≤ t') ∧
      (∃ k, task_config (valid_tasks s) n = Some k ∧ name k = n ∧ enabled k = true) ∧
      (∃ j k sc, k ∈ tasks s ∧ name k = n ∧ enabled k = true ∧
               schedule_from_str (schedule k) = Ok sc ∧ upcoming sc (clock j) = Some t ∧ clock j < t)
  | None => ∀ j k, valid_tasks s !! j = Some k → next_of (schedules s) (clock j) (name k) = None
  end.
Proof.
  intros s. pose proof (find_earliest_gen (schedules s) (valid_tasks s) clock) as H.
  assert (∀ k, k ∈ tasks s → enabled k = true) as Hen.
  { by intros k [? _]%list_elem_of_filter. }
  assert (∀ k, k ∈ valid_tasks s → k ∈ tasks s) as Hvt by (by intros k [_ ?]%list_elem_of_filter).
  destruct (find_earliest _ _ _) as [[t n]|]; [|done].
  destruct H as ((j & k & Hk%list_elem_of_lookup_2 & Hn & Ht) & Hall). subst n.
  unfold next_of in Ht. apply bind_Some in Ht as (sc & Hsc & Hup).
  split_and!; [done| |].
  - unfold task_config. destruct (List.find _ _) as [k'|] eqn:Hf.
    + apply find_some in Hf as [Hin Hb]. apply list_elem_of_In in Hin. exists k'. bool_prop. eauto.
    + exfalso. apply list_elem_of_In in Hk. by apply (find_none _ _ Hf) in Hk; bool_prop.
  - destruct (parse_schedules_lookup _ _ _ Hsc) as (k' & Hk' & Hn' & Hs').
    exists j, k', sc. split_and!; try done; [by apply Hen|by eapply upcoming_later].
Qed.

(** What the retry loop does when no shutdown comes *)
Lemma attempt_loop_spec h sd fuel k e l :
  0 ≤ k → (∀ i, sd i = false) →
  ∃ r k' l', attempt_loop h sd fuel k e l = (Some r, k', l') ∧ k ≤ k' ∧
    loop_runtime l' = loop_runtime l ∧ executed l' = executed l ∧ failed l' = failed l ∧
    (in_u 64 (retried l) → retried l' = add64 (retried l) (k' - Z.min k' (Z.max 1 k))) ∧
    ((∃ u, k < k' ∧ k' ≤ k + Z.of_nat fuel ∧ h (k' - 1) = Ok u ∧ r = None ∧
           ∀ i, k ≤ i < k' - 1 → is_ok (h i) = false) ∨
     (k' = k + Z.of_nat fuel ∧ (∀ i, k ≤ i < k' → is_ok (h i) = false) ∧
      if decide (fuel = 0%nat) then r = e else is_Some r)).
Proof.
  intros Hk Hsd. revert k e l Hk. induction fuel as [|f IH]; intros k e l Hk; simpl.
  { exists e, k, l. split; [done|]. split; [lia|]. do 3 (split; [done|]). split.
    - intros Hu. replace (k - Z.min k (Z.max 1 k)) with 0 by lia. by rewrite add64_0_r.
    - right. split_and!; [lia|lia|done]. }
  rewrite Hsd, andb_false_r.
  set (l1 := if 0 <? k then _ else l).
  assert (loop_runtime l1 = loop_runtime l ∧ executed l1 = executed l ∧ failed l1 = failed l ∧
    (in_u 64 (retried l) → in_u 64 (retried l1) ∧
     retried l1 = add64 (retried l) (if 0 <? k then 1 else 0))) as (E1 & E2 & E3 & E4).
  { unfold l1. destruct (0 <? k); simpl; split_and!; try done; intros Hu.
    - split; [apply add64_range|done].
    - split; [done|by rewrite add64_0_r]. }
  destruct (h k) as [u|err] eqn:Hh.
  - exists None, (k + 1), l1. split; [done|]. split; [lia|]. do 3 (split; [done|]). split.
    + intros Hu. destruct (E4 Hu) as [_ ->]. f_equal. destruct (Z.ltb_spec 0 k); lia.
    + left. exists u. replace (k + 1 - 1) with k by lia. split_and!; [lia|lia|done|done|]. lia.
  - destruct (IH (k + 1) (Some err) l1) as (r & k' & l' & Hr & Hle & F1 & F2 & F3 & F4 & Hcase); [lia|].
    exists r, k', l'. rewrite Hr. split; [done|]. split; [lia|]. do 3 (split; [congruence|]). split.
    + intros Hu. destruct (E4 Hu) as [Hu1 Hr1]. rewrite F4, Hr1, add64_assoc_l by done. f_equal.
      destruct (Z.ltb_spec 0 k); lia.
    + destruct Hcase as [(u & ? & ? & ? & ? & Hall)|(-> & Hall & Hr')]; [left|right].
      * exists u. split_and!; try done; [lia..|]. intros i Hi.
        destruct (Z.eq_dec i k) as [->|]; [by rewrite Hh|]. apply Hall. lia.
      * split_and!; [lia| |].
        -- intros i Hi. destruct (Z.eq_dec i k) as [->|]; [by rewrite Hh|]. apply Hall. lia.
        -- case_decide; [subst r; simpl; eauto|done].
Qed.

(** What one firing of a known task does, when no shutdown comes in between:
    the handler is called until it first succeeds and at most [max_retries + 1]
    times; each call after the first counts as a retry; the task ends in
    [Success], with no consecutive failures, when a call succeeded, and in [Failed],
    with one more, when all of them failed.  With [max_retries = u32::MAX] the number
    of attempts wraps to 0: the handler is never called and the task is recorded as
    a success. *)
Theorem run_task_outcome scheds t h sd now now' l rt :
  in_u 32 (max_retries (retry t)) → in_u 64 (retried l) → (∀ i, sd i = false) →
  loop_runtime l !! name t = Some rt →
  ∃ calls l' rt',
    run_task scheds t h sd now now' l = (Some tt, calls, l') ∧
    loop_runtime l' = <[name t := rt']> (loop_runtime l) ∧ last_run rt' = Some now ∧
    0 ≤ calls ≤ max_retries (retry t) + 1 ∧
    retried l' = add64 (retried l) (Z.max 0 (calls - 1)) ∧
    (∀ i, 0 ≤ i < calls - 1 → is_ok (h i) = false) ∧
    (if decide (max_retries (retry t) = 2 ^ 32 - 1) then calls = 0 ∧ state rt' = TaskSuccess
     else 1 ≤ calls ∧
       if is_ok (h (calls - 1))
       then state rt' = TaskSuccess ∧ consecutive_failures rt' = 0 ∧
            executed l' = add64 (executed l) 1
       else state rt' = TaskFailed ∧ calls = max_retries (retry t) + 1 ∧
            consecutive_failures rt' = add32 (consecutive_failures rt) 1 ∧
            failed l' = add64 (failed l) 1).
Proof.
  intros Hm Hu Hsd Hrt. unfold run_task.
  set (l1 := l <| loop_runtime ::= alter (mark_running now) (name t) |>).
  destruct (attempt_loop_spec h sd (Z.to_nat (add32 (max_retries (retry t)) 1)) 0 None l1)
    as (r & k & l2 & Hr & Hle & E1 & E2 & E3 & E4 & Hcase); [lia|done|]. rewrite Hr.
  assert (loop_runtime l2 !! name t = Some (mark_running now rt)) as Hl2.
  { rewrite E1. simpl. by rewrite lookup_alter_eq, Hrt. }
  rewrite Hl2. specialize (E4 Hu). replace (k - Z.min k (Z.max 1 0)) with (Z.max 0 (k - 1)) in E4 by lia.
  assert (∀ f, alter f (name t) (loop_runtime l2) = <[name t := f (mark_running now rt)]> (loop_runtime l)) as Halt.
  { intros f. apply map_eq. intros n. rewrite E1. simpl. destruct (decide (n = name t)) as [->|Hne].
    - by rewrite lookup_insert_eq, !lookup_alter_eq, Hrt.
    - by rewrite lookup_insert_ne, !lookup_alter_ne by done. }
  destruct (decide (max_retries (retry t) = 2 ^ 32 - 1)) as [Hmax|Hmax].
  - rewrite Hmax in Hcase. change (Z.to_nat (add32 _ 1)) with 0%nat in Hcase.
    destruct Hcase as [(u & ? & ? & _)|(-> & _ & ->)]; [lia|].
    eexists _, _, _. split_and!; [done|simpl; apply Halt|done|lia|unfold in_u in Hm; lia|done|lia|done|done].
  - assert (add32 (max_retries (retry t)) 1 = max_retries (retry t) + 1) as Ha
      by (u_small; unfold in_u in *; lia).
    rewrite Ha in Hcase. unfold in_u in Hm.
    destruct Hcase as [(u & ? & ? & Hk & -> & Hall)|(-> & Hall & Hsome)].
    + eexists _, _, _. split_and!;
        [done|simpl; apply Halt|done|lia|lia|done|intros; apply Hall; lia|lia|]. rewrite Hk. simpl. by rewrite E2.
    + rewrite decide_False in Hsome by lia. destruct Hsome as [e ->].
      eexists _, _, _. split_and!;
        [done|simpl; apply Halt|done|lia|lia|done|intros; apply Hall; lia|lia|].
      rewrite Hall by lia. split_and!; [done|lia|done|simpl; by rewrite E3].
Qed.
End scheduler.

(** ** Concrete runs *)

Section scheduler_runs.
#[local] Instance scheduler_cron : Cron := demo_cron.

Definition nightly : ScheduledTask :=
  mkTask "nightly" "86400000000000" "vacuum" [] true 60 default_retry.
Definition one_task (_ : string) : option (list ScheduledTask) := Some [nightly].
Definition one_task_loop : LoopState :=
  new_loop (new_scheduler one_task {["SCHEDULER_TASKS" := "[..]"]} 0).
(** The handler fails twice, then succeeds. *)
Definition third_time_lucky (k : Z) : result string unit :=
  if k <? 2 then Err "busy" else Ok tt.

Lemma run_task_outcome_witness :
  ∃ calls l' rt',
    run_task ∅ nightly third_time_lucky (λ _, false) 5 6 one_task_loop = (Some tt, calls, l') ∧
    loop_runtime l' !! "nightly" = Some rt' ∧ calls ≤ 4.
Proof.
  destruct (run_task_outcome ∅ nightly third_time_lucky (λ _, false) 5 6 one_task_loop
              (mkRuntime TaskPending None None None 0 (Some 86400000000000)))
    as (calls & l' & rt' & Hrun & Hrt & _ & Hc & _).
  - split; vm_compute; congruence.
  - split; vm_compute; congruence.
  - reflexivity.
  - vm_compute. reflexivity.
  - exists calls, l', rt'. split; [exact Hrun|]. rewrite Hrt. split.
    + apply lookup_insert_eq.
    + exact (proj2 Hc).
Defined.
End scheduler_runs.
