(* ===== verification/SchedulerLoop.v ===== *)
(** * The loop of the task scheduler ([scheduler-shim/src/lib.rs], [spawn_scheduler_loop])

    The waiting around the search and the run of [Scheduler.v]: a turn of the loop searches
    the next task, sleeps until its time and a random delay, and runs it.  Instants are
    nanoseconds; the clock, the random numbers and the shutdown signal are inputs. *)

From S2P Require Import Prelude Scheduler.

Section scheduler_loop.
Context `{CR : Cron} (parse_tasks : string → option (list ScheduledTask)).

Definition second : Z := 10 ^ 9.
Definition MAX_JITTER_SECS : Z := 60.
(** [fastrand::u64(0..n)], from a number that is drawn *)
Definition fastrand (draw n : Z) : Z := draw mod n.
Definition jitter_offset (draw : Z) : Z := fastrand draw MAX_JITTER_SECS.
(** The delay behind a sleep of [d] nanoseconds, in seconds *)
Definition jitter_bound (d : Z) : Z := Z.min MAX_JITTER_SECS (d / second / 4).
Definition turn_jitter (draw d : Z) : Z := fastrand draw (jitter_bound d + 1).

(** What a turn meets: the readings of the clock by the search, the look at the clock, the number
    drawn, how late the sleep wakes up, whether the shutdown comes first, the answers of
    the handler, the shutdown during the retries, the instant of the end *)
Record turn_input := mkTurn {
  i_search : nat → Z;
  i_now : Z;
  i_draw : Z;
  i_late : Z;
  i_shutdown : bool;
  i_handler : Z → result string unit;
  i_retry_shutdown : Z → bool;
  i_end : Z
}.
(** A task that was started: its name, the time it was to fire, the time it was started,
    and how often the handler was called *)
Record started := mkStarted { st_name : string; st_fire : Z; st_at : Z; st_calls : Z }.
Definition start_time (i : turn_input) (fire : Z) : Z :=
  if i_now i <? fire then fire + turn_jitter (i_draw i) (fire - i_now i) * second + Z.max 0 (i_late i)
  else i_now i + Z.max 0 (i_late i).
(** A turn: whether the loop goes on, what was started, the state *)
Definition loop_turn (scheds : gmap string Schedule) (ts : list ScheduledTask) (i : turn_input) (l : LoopState)
    : bool * option started * LoopState :=
  match find_earliest scheds ts (i_search i) with
  | None => (negb (i_shutdown i), None, l)
  | Some (fire, n) =>
      if (i_now i <? fire) && i_shutdown i then (false, None, l)
      else match task_config ts n with
           | None => (true, None, l)
           | Some t =>
               let at_ := start_time i fire in
               match run_task scheds t (i_handler i) (i_retry_shutdown i) at_ (i_end i) l with
               | (r, calls, l) => (match r with Some _ => true | None => false end, Some (mkStarted n fire at_ calls), l)
               end
           end
  end.
Fixpoint loop_run (scheds : gmap string Schedule) (ts : list ScheduledTask) (is_ : list turn_input) (l : LoopState)
    : bool * list started * LoopState :=
  match is_ with
  | [] => (true, [], l)
  | i :: is_ =>
      match loop_turn scheds ts i l with
      | (true, s, l) => let '(b, ss, l) := loop_run scheds ts is_ l in (b, option_list s ++ ss, l)
      | (false, s, l) => (false, option_list s, l)
      end
  end.
(** [spawn_scheduler_loop]: no loop without a handler or without a task whose schedule is
    valid; the loop has its own copy of the runtime records. *)
Definition spawn_scheduler_loop (has_handler : bool) (s : SchedulerShim) (is_ : list turn_input) : option (bool * list started * LoopState) :=
  if has_handler then
    if bool_decide (valid_tasks s = []) then None else Some (loop_run (schedules s) (valid_tasks s) is_ (new_loop s))
  else None.

(** ** When a task starts *)

Lemma jitter_range draw d : 0 ≤ d → 0 ≤ turn_jitter draw d ≤ jitter_bound d.
Proof.
  intros Hd. unfold turn_jitter, fastrand. assert (0 ≤ jitter_bound d) as Hb.
  { unfold jitter_bound, MAX_JITTER_SECS, second. apply Z.min_glb; [lia|]. apply Z.div_pos; [|lia]. apply Z.div_pos; lia. }
  pose proof (Z.mod_pos_bound draw (jitter_bound d + 1) ltac:(lia)). lia.
Qed.
(** One turn: what it starts was picked by the search, is not early, and late by at most
    the jitter and the lateness of the clock. *)
Definition in_time (scheds : gmap string Schedule) (i : turn_input) (s : started) : Prop :=
  (∃ j, next_of scheds (i_search i j) (st_name s) = Some (st_fire s)) ∧ st_fire s ≤ st_at s ∧
  st_at s ≤ Z.max (i_now i) (st_fire s) + MAX_JITTER_SECS * second + Z.max 0 (i_late i).
Lemma loop_turn_in_time scheds ts i l b s l' : loop_turn scheds ts i l = (b, Some s, l') → in_time scheds i s.
Proof.
  unfold loop_turn. pose proof (find_earliest_gen scheds ts (i_search i)) as H.
  destruct (find_earliest _ _ _) as [[fire n]|]; [|done].
  destruct H as ((j & k & _ & Hk & Hn) & _). destruct ((i_now i <? fire) && _); [done|].
  destruct (task_config ts n) as [t|]; [|done]. destruct (run_task _ _ _ _ _ _ _) as [[r calls] l1].
  intros [= _ <- _]. split; [by exists j|]. simpl. unfold start_time. change second with 1000000000. unfold MAX_JITTER_SECS.
  destruct (Z.ltb_spec (i_now i) fire); [|lia].
  destruct (jitter_range (i_draw i) (fire - i_now i) ltac:(lia)) as [H1 H2].
  unfold jitter_bound, MAX_JITTER_SECS in H2. lia.
Qed.
(** No task starts early: whatever the clock, the random numbers and the tasks do, each
    task the loop starts has a schedule that fires at the time the loop waited for, is
    started no earlier than that, and no later than a minute of jitter and the lateness of
    the wake-up after it or after the loop looked at the clock. *)
Theorem never_early scheds ts is_ : ∀ l b ss l',
  loop_run scheds ts is_ l = (b, ss, l') → Forall (λ s, ∃ i, i ∈ is_ ∧ in_time scheds i s) ss.
Proof.
  induction is_ as [|i is_ IH]; intros l b ss l'; simpl; [intros [= <- <- <-]; constructor|].
  destruct (loop_turn scheds ts i l) as [[[] s] l1] eqn:E.
  - destruct (loop_run scheds ts is_ l1) as [[b2 ss2] l2] eqn:E2. intros [= <- <- <-]. apply Forall_app. split.
    + destruct s as [s|]; constructor; [|constructor]. exists i. split; [constructor|by eapply loop_turn_in_time].
    + eapply Forall_impl; [by eapply IH|]. intros s' (j & Hj & H). exists j. by split; [constructor|].
  - intros [= <- <- <-]. destruct s as [s|]; constructor; [|constructor]. exists i. split; [constructor|by eapply loop_turn_in_time].
Qed.

(** ** A task that never starts *)

(** What was found so far is not [m], and fires no later than [m] will from now on. *)
Definition ahead_of (scheds : gmap string Schedule) (clock : nat → Z) (m : string) (i : nat) (acc : option (Z * string)) : Prop :=
  (∀ a c, acc = Some (a, c) → c ≠ m) ∧
  ∀ j t, (i ≤ j)%nat → next_of scheds (clock j) m = Some t → ∃ a c, acc = Some (a, c) ∧ a ≤ t.
Lemma ahead_of_step scheds clock m i acc k :
  ahead_of scheds clock m i acc → ahead_of scheds clock m (S i) (earlier scheds (clock i) acc k).
Proof.
  intros [H1 H2]. unfold earlier. destruct (next_of scheds (clock i) (name k)) as [t|] eqn:E.
  2:{ split; [done|]. intros j t Hj. by apply H2; lia. }
  assert (name k = m → ∃ a c, acc = Some (a, c) ∧ a ≤ t) as Hm by (intros Ek; rewrite Ek in E; by apply (H2 i)).
  destruct acc as [[a c]|].
  - destruct (Z.ltb_spec t a).
    + split; [intros ? ? [= <- <-] Ek; destruct (Hm Ek) as (? & ? & [= <- <-] & ?); lia|].
      intros j t' Hj Ht'. destruct (H2 j t' ltac:(lia) Ht') as (? & ? & [= <- <-] & ?). exists t, (name k). split; [done|lia].
    + split; [done|]. intros j t' Hj. by apply H2; lia.
  - split; [intros ? ? [= <- <-] Ek; by destruct (Hm Ek) as (? & ? & ? & ?)|].
    intros j t' Hj Ht'. by destruct (H2 j t' ltac:(lia) Ht') as (? & ? & ? & ?).
Qed.
Lemma ahead_of_search scheds clock m ts : ∀ i acc tm c,
  ahead_of scheds clock m i acc → search_from scheds clock i acc ts = Some (tm, c) → c ≠ m.
Proof.
  induction ts as [|k ts IH]; intros i acc tm c Ha; simpl; [apply Ha|]. by apply IH, ahead_of_step.
Qed.
Lemma search_from_app scheds clock ts ts' : ∀ i acc,
  search_from scheds clock i acc (ts ++ ts') = search_from scheds clock (i + length ts) (search_from scheds clock i acc ts) ts'.
Proof. induction ts as [|t ts IH]; intros i acc; simpl; [by rewrite Nat.add_0_r|]. by rewrite IH, Nat.add_succ_r. Qed.
(** A task behind one with the same schedule is not picked, as the clock goes on. *)
Lemma find_earliest_shadowed scheds m pre k post clock tm c :
  scheds !! name k = scheds !! m → name k ≠ m → Forall (λ t, name t ≠ m) pre →
  (∀ i j, (i ≤ j)%nat → clock i ≤ clock j) →
  find_earliest scheds (pre ++ k :: post) clock = Some (tm, c) → c ≠ m.
Proof.
  intros Hs Hnm Hpre Hc. unfold find_earliest. rewrite search_from_app. simpl.
  pose proof (search_from_gen scheds clock pre 0 None) as Hg. set (acc := search_from _ _ _ _ pre) in *.
  set (i := length pre). apply ahead_of_search. split.
  - assert (∀ a d, acc = Some (a, d) → d ≠ m) as Hacc.
    { intros a d E. rewrite E in Hg. destruct Hg as ([|(j & x & Hx & <- & _)] & _); [done|].
      by apply (Forall_lookup_1 _ _ _ _ Hpre Hx). }
    intros a d. unfold earlier. destruct (next_of _ _ _); [|apply Hacc].
    destruct acc as [[a' d']|]; [destruct (_ <? _); [|apply Hacc]|]; by intros [= _ <-].
  - intros j t Hj Ht. unfold next_of in *. rewrite <-Hs in Ht. unfold earlier, next_of.
    destruct (scheds !! name k) as [sc|]; [|done]. simpl in *.
    destruct (upcoming_mono sc (clock i) (clock j) t) as (t' & -> & Hle); [apply Hc; lia|done|].
    destruct acc as [[a d]|]; [destruct (Z.ltb_spec t' a)|]; eexists _, _; (split; [done|lia]).
Qed.
(** C33. Of two tasks with the same schedule only the first ever runs: the loop picks one
    task for each fire time, the one loaded first, and by the time it has run the other's
    next fire time is again one that it shares with the first.  Each search reads the clock
    once per task; within a search it does not go back, and a later reading never has an
    earlier next occurrence.  Nothing is assumed of the handlers, the delays, the shutdown
    or the time between turns. *)
Theorem same_schedule_starves scheds pre k post m is_ l :
  scheds !! name k = scheds !! m → name k ≠ m → Forall (λ t, name t ≠ m) pre →
  Forall (λ i, ∀ a b, (a ≤ b)%nat → i_search i a ≤ i_search i b) is_ →
  Forall (λ s, st_name s ≠ m) (loop_run scheds (pre ++ k :: post) is_ l).1.2.
Proof.
  intros Hsame Hne Hpre Hclock.
  assert (∀ i l b s l', (∀ x y, (x ≤ y)%nat → i_search i x ≤ i_search i y) →
    loop_turn scheds (pre ++ k :: post) i l = (b, Some s, l') → st_name s ≠ m) as Hturn.
  { intros i l1 b s l2 Hc. unfold loop_turn. destruct (find_earliest _ _ _) as [[fire n]|] eqn:E; [|done].
    destruct ((i_now i <? fire) && _); [done|]. destruct (task_config _ n); [|done].
    destruct (run_task _ _ _ _ _ _ _) as [[r calls] l3]. intros [= _ <- _]. simpl.
    by eapply (find_earliest_shadowed scheds m pre k post). }
  revert l. induction Hclock as [|i is_ Hi _ IH]; intros l; simpl; [constructor|].
  destruct (loop_turn scheds _ i l) as [[[] s] l1] eqn:E.
  - specialize (IH l1). destruct (loop_run scheds _ is_ l1) as [[b2 ss2] l2]. simpl in *. apply Forall_app. split; [|done].
    destruct s as [s|]; constructor; [by eapply Hturn|constructor].
  - simpl. destruct s as [s|]; constructor; [by eapply Hturn|constructor].
Qed.
End scheduler_loop.

(** ** Runs *)

Section scheduler_loop_runs.
#[local] Instance scheduler_loop_cron : Cron := demo_cron.
Definition hourly (n : string) : ScheduledTask := mkTask n "3600000000000" "vacuum" [] true 60 default_retry.
Definition two_hourly : SchedulerShim :=
  new_scheduler (λ _, Some [hourly "a"; hourly "b"]) {["SCHEDULER_TASKS" := "[..]"]} 0.
Definition hour_turn (h : Z) : turn_input :=
  mkTurn (λ i, h * 3600 * second + Z.of_nat i) (h * 3600 * second) 70 5 false (λ _, Ok tt) (λ _, false) ((h + 1) * 3600 * second + 90 * second).
Example demo_hours :
  match spawn_scheduler_loop true two_hourly (hour_turn <$> [0; 1; 2]) with
  | Some (b, ss, l) => b = true ∧ st_name <$> ss = ["a"; "a"; "a"] ∧ st_at <$> ss = (λ h, (h * 3600 + 9) * second + 5) <$> [1; 2; 3] ∧
                       executed l = 3 ∧ state <$> loop_runtime l !! "b" = Some TaskPending
  | None => False
  end.
Proof. vm_compute. done. Qed.
Lemma never_early_witness :
  let r := loop_run (schedules two_hourly) (valid_tasks two_hourly) [hour_turn 0] (new_loop two_hourly) in
  r.1.2 = [mkStarted "a" (3600 * second) (3609 * second + 5) 1] ∧ Forall (λ s, ∃ i, i ∈ [hour_turn 0] ∧ in_time (schedules two_hourly) i s) r.1.2.
Proof.
  split; [vm_compute; reflexivity|].
  destruct (loop_run (schedules two_hourly) (valid_tasks two_hourly) [hour_turn 0] (new_loop two_hourly)) as [[b ss] l'] eqn:E.
  exact (never_early (schedules two_hourly) (valid_tasks two_hourly) [hour_turn 0] (new_loop two_hourly) b ss l' E).
Defined.
Lemma same_schedule_starves_witness :
  Forall (λ s, st_name s ≠ "b") (loop_run (schedules two_hourly) [hourly "a"; hourly "b"] (hour_turn <$> [0; 1; 2]) (new_loop two_hourly)).1.2.
Proof.
  assert (schedules two_hourly !! name (hourly "a") = schedules two_hourly !! "b") as H1 by (vm_compute; reflexivity).
  assert (name (hourly "a") ≠ "b") as H2 by done.
  assert (Forall (λ i, ∀ a b, (a ≤ b)%nat → i_search i a ≤ i_search i b) (hour_turn <$> [0; 1; 2])) as Hc
    by (repeat constructor; simpl; lia).
  exact (same_schedule_starves (schedules two_hourly) [] (hourly "a") [hourly "b"] "b" (hour_turn <$> [0; 1; 2]) (new_loop two_hourly)
           H1 H2 (Forall_nil_2 _) Hc).
Defined.
End scheduler_loop_runs.
