(* ===== verification/Proxy.v ===== *)
(** * The proxy ([proxy-shim/src/lib.rs])

    Circuit breaker, stale-response cache, path routing, token bucket and weighted
    round-robin.  Every method takes the write lock of the state once, so each is
    one atomic step; instants are nanoseconds of the monotonic clock. *)

From S2P Require Import Prelude.

(** [HandleRequestResult] *)
Inductive HandleRequestResult :=
| Allowed
| Rejected
| ServedFromCache (data : list Byte.byte).

(** [CircuitState] and its [Display] *)
Inductive CircuitState := Closed | Open | HalfOpen.
#[export] Instance CircuitState_eq_dec : EqDecision CircuitState.
Proof. solve_decision. Defined.
Definition circuit_display (s : CircuitState) : string :=
  match s with Closed => "closed" | Open => "open" | HalfOpen => "half_open" end.

(** [PoolStats], [RouteRule], [RateLimitConfig], [BackendEntry] *)
Record PoolStats := mkPoolStats { pool_active : Z; pool_idle : Z; pool_total : Z; pool_waiters : Z }.
Record RouteRule := mkRouteRule {
  path_prefix : string; rule_target : string; rule_weight : Z; rule_healthy : bool }.
Record RateLimitConfig := mkRateLimit {
  max_requests_per_sec : Z; limit_burst : Z; window_secs : Z }.
Record BackendEntry := mkBackend { addr : string; weight : Z; healthy : bool }.

(** [TokenBucket], [TokenBucket::new], [refill], [try_consume] *)
Record TokenBucket := mkBucket { tokens : f64; last_refill : Z; rate : f64; burst : f64 }.
Definition new_bucket (r : f64) (b now : Z) : TokenBucket :=
  mkBucket (f64_of_Z b) now r (f64_of_Z b).
Definition refill (now : Z) (b : TokenBucket) : TokenBucket :=
  let elapsed := as_secs_f64 (saturating_sub now (last_refill b)) in
  mkBucket (f64_min (f64_add (tokens b) (f64_mul elapsed (rate b))) (burst b)) now (rate b) (burst b).
Definition try_consume (now : Z) (b : TokenBucket) : bool * TokenBucket :=
  let b := refill now b in
  if f64_ge (tokens b) (f64_of_Z 1)
  then (true, mkBucket (f64_sub (tokens b) (f64_of_Z 1)) (last_refill b) (rate b) (burst b))
  else (false, b).

(** [ProxyState] *)
Record ProxyState := mkProxy {
  listen : string;
  target : string;
  max_connections : Z;
  min_idle : Z;
  max_lifetime_secs : Z;
  idle_timeout_secs : Z;
  connect_timeout : Z;
  retry_attempts : Z;
  retry_base_ms : Z;
  circuit_threshold : Z;
  circuit_reset_secs : Z;
  circuit_state : CircuitState;
  circuit_failures : Z;
  open_since : option Z;
  half_open_inflight : bool;
  connections_active : Z;
  connections_total : Z;
  requests_total : Z;
  requests_retried : Z;
  requests_circuit_broken : Z;
  route_rules : list RouteRule;
  rate_limit : option RateLimitConfig;
  token_bucket : option TokenBucket;
  backends : list BackendEntry;
  rr_index : Z;
  graceful_degradation_enabled : bool;
  stale_cache : gmap string (list Byte.byte);
  stale_responses : Z
}.
#[export] Instance ProxyState_settable : Settable ProxyState := λ s,
  mkProxy (listen s) (target s) (max_connections s) (min_idle s) (max_lifetime_secs s)
    (idle_timeout_secs s) (connect_timeout s) (retry_attempts s) (retry_base_ms s)
    (circuit_threshold s) (circuit_reset_secs s) (circuit_state s) (circuit_failures s)
    (open_since s) (half_open_inflight s) (connections_active s) (connections_total s)
    (requests_total s) (requests_retried s) (requests_circuit_broken s) (route_rules s)
    (rate_limit s) (token_bucket s) (backends s) (rr_index s)
    (graceful_degradation_enabled s) (stale_cache s) (stale_responses s).

(** [ProxyShim::new] *)
Definition new_proxy (env : environment) : ProxyState :=
  {| listen := env_or env "PROXY_LISTEN" "0.0.0.0:5432";
     target := env_or env "PROXY_TARGET" "127.0.0.1:5432";
     max_connections := env_parse env "PROXY_MAX_CONNECTIONS" parse_u32 20;
     min_idle := env_parse env "PROXY_MIN_IDLE" parse_u32 5;
     max_lifetime_secs := env_parse env "PROXY_MAX_LIFETIME_SECS" parse_u64 1800;
     idle_timeout_secs := env_parse env "PROXY_IDLE_TIMEOUT_SECS" parse_u64 600;
     connect_timeout := env_parse env "PROXY_CONNECT_TIMEOUT" parse_u64 5;
     retry_attempts := env_parse env "PROXY_RETRY_ATTEMPTS" parse_u32 3;
     retry_base_ms := env_parse env "PROXY_RETRY_BASE_MS" parse_u64 100;
     circuit_threshold := env_parse env "PROXY_CIRCUIT_THRESHOLD" parse_u32 5;
     circuit_reset_secs := env_parse env "PROXY_CIRCUIT_RESET_SECS" parse_u64 30;
     circuit_state := Closed;
     circuit_failures := 0;
     open_since := None;
     half_open_inflight := false;
     connections_active := 0;
     connections_total := 0;
     requests_total := 0;
     requests_retried := 0;
     requests_circuit_broken := 0;
     route_rules := [];
     rate_limit := None;
     token_bucket := None;
     backends := [];
     rr_index := 0;
     graceful_degradation_enabled :=
       match env !! "PROXY_GRACEFUL_DEGRADATION" with
       | Some s => bool_decide (s = "true") || bool_decide (s = "1")
       | None => false
       end;
     stale_cache := ∅;
     stale_responses := 0 |}.

(** ** Circuit breaker *)

(** [opened_at.elapsed() >= Duration::from_secs(state.circuit_reset_secs)] *)
Definition reset_elapsed (now : Z) (s : ProxyState) : bool :=
  match open_since s with
  | Some opened_at => circuit_reset_secs s * 10 ^ 9 <=? saturating_sub now opened_at
  | None => false
  end.

(** [check_circuit] *)
Definition check_circuit (now : Z) (s : ProxyState) : bool * ProxyState :=
  match circuit_state s with
  | Open =>
      if reset_elapsed now s
      then (true, s <| circuit_state := HalfOpen |> <| half_open_inflight := true |>)
      else (false, s)
  | HalfOpen =>
      if half_open_inflight s then (false, s) else (true, s <| half_open_inflight := true |>)
  | Closed => (true, s)
  end.

(** [record_success] *)
Definition record_success (s : ProxyState) : ProxyState :=
  let s := s <| circuit_failures := 0 |> in
  match circuit_state s with
  | HalfOpen => s <| circuit_state := Closed |> <| open_since := None |>
                  <| half_open_inflight := false |>
  | _ => s
  end.

(** [record_failure] *)
Definition record_failure (now : Z) (s : ProxyState) : ProxyState :=
  let s := s <| circuit_failures ::= λ n, add32 n 1 |> in
  match circuit_state s with
  | HalfOpen => s <| circuit_state := Open |> <| open_since := Some now |>
                  <| half_open_inflight := false |>
  | _ => if circuit_threshold s <=? circuit_failures s
         then s <| circuit_state := Open |> <| open_since := Some now |>
         else s
  end.

(** The counters of a request that goes through *)
Definition count_connection (s : ProxyState) : ProxyState :=
  s <| connections_total ::= λ n, add64 n 1 |>
    <| connections_active ::= λ n, add64 (saturating_sub n 1) 1 |>.
Definition count_broken (s : ProxyState) : ProxyState :=
  s <| requests_circuit_broken ::= λ n, add64 n 1 |>.

(** [handle_request] *)
Definition handle_request (now : Z) (s : ProxyState) : bool * ProxyState :=
  let s := s <| requests_total ::= λ n, add64 n 1 |> in
  let s := match circuit_state s with
           | Open => if reset_elapsed now s
                     then s <| circuit_state := HalfOpen |> <| half_open_inflight := true |>
                     else s
           | _ => s
           end in
  match circuit_state s, half_open_inflight s with
  | Open, _ => (false, count_broken s)
  | HalfOpen, true => (false, count_broken s)
  | HalfOpen, false => (true, count_connection (s <| half_open_inflight := true |>))
  | Closed, _ => (true, count_connection s)
  end.

(** [handle_request_with_degradation] *)
Definition handle_request_with_degradation (request_key : string) (now : Z) (s : ProxyState)
    : HandleRequestResult * ProxyState :=
  let s := s <| requests_total ::= λ n, add64 n 1 |> in
  let cached := match circuit_state s with
                | Open => if graceful_degradation_enabled s then stale_cache s !! request_key else None
                | _ => None
                end in
  match cached with
  | Some data => (ServedFromCache data, s <| stale_responses ::= λ n, add64 n 1 |>)
  | None =>
      let s := match circuit_state s with
               | Open => if reset_elapsed now s
                         then s <| circuit_state := HalfOpen |> <| half_open_inflight := false |>
                         else s
               | _ => s
               end in
      match circuit_state s with
      | Open => (Rejected, count_broken s)
      | HalfOpen =>
          if half_open_inflight s then (Rejected, count_broken s)
          else (Allowed, count_connection (s <| half_open_inflight := true |>))
      | Closed => (Allowed, count_connection s)
      end
  end.

(** [record_failure_static], the TCP proxy's *)
Definition record_failure_static (s : ProxyState) : ProxyState :=
  s <| circuit_failures ::= λ n, add32 n 1 |>.

(** [cache_response], [get_cached_response], [is_graceful_degradation_enabled],
    [stale_responses_total] *)
Definition cache_response (request_key : string) (response : list Byte.byte) (s : ProxyState)
    : ProxyState := s <| stale_cache ::= <[request_key := response]> |>.
Definition get_cached_response (request_key : string) (s : ProxyState) : option (list Byte.byte) :=
  stale_cache s !! request_key.
Definition is_graceful_degradation_enabled (s : ProxyState) : bool := graceful_degradation_enabled s.
Definition stale_responses_total (s : ProxyState) : Z := stale_responses s.

(** [retry_delay_ms]; [delay_for_attempt initial max attempt] is the [loop_retry]
    crate's delay in milliseconds for multiplier 2.0 and no jitter. *)
Definition retry_delay_ms (delay_for_attempt : Z → Z → Z → Z) (attempt : Z) (s : ProxyState) : Z :=
  if attempt =? 0 then 0
  else delay_for_attempt (retry_base_ms s)
         (mul64 (retry_base_ms s) (wrap 64 (2 ^ retry_attempts s))) (sub32 attempt 1).

(** ** Routing, rate limit, backends *)

(** [add_route_rule], [route] *)
Definition add_route_rule (rule : RouteRule) (s : ProxyState) : ProxyState :=
  s <| route_rules ::= λ l, l ++ [rule] |>.
Definition route (path : string) (s : ProxyState) : option string :=
  rule_target <$> List.find (λ r, rule_healthy r && starts_with path (path_prefix r)) (route_rules s).

(** [set_rate_limit], [check_rate_limit] *)
Definition set_rate_limit (config : RateLimitConfig) (now : Z) (s : ProxyState) : ProxyState :=
  s <| token_bucket :=
         Some (new_bucket (f64_of_Z (max_requests_per_sec config)) (limit_burst config) now) |>
    <| rate_limit := Some config |>.
Definition check_rate_limit (now : Z) (s : ProxyState) : bool * ProxyState :=
  match token_bucket s with
  | None => (true, s)
  | Some b => let '(r, b) := try_consume now b in (r, s <| token_bucket := Some b |>)
  end.

(** [register_backend], [set_backend_health] *)
Definition register_backend (a : string) (w : Z) (h : bool) (s : ProxyState) : ProxyState :=
  s <| backends ::= λ l, l ++ [mkBackend a w h] |>.
Definition set_backend_health (a : string) (h : bool) (s : ProxyState) : ProxyState :=
  match position (λ b, bool_decide (addr b = a)) (backends s) with
  | Some i => s <| backends ::= alter (λ b, mkBackend (addr b) (weight b) h) i |>
  | None => s
  end.

(** [healthy]: the indices and weights of the healthy backends *)
Definition healthy_backends (bs : list BackendEntry) : list (nat * Z) :=
  (λ ib, (ib.1, weight ib.2)) <$> filter (λ ib, healthy ib.2 = true) (imap (λ i b, (i, b)) bs).
(** The [for] loop: the backend whose share of the wheel holds [remaining] *)
Fixpoint pick_backend (l : list (nat * Z)) (remaining : Z) : option nat :=
  match l with
  | [] => None
  | (idx, w) :: r => if remaining <? w then Some idx else pick_backend r (sub32 remaining w)
  end.

(** [select_backend]; indexing is partial, [None] inside is the panic of an index
    out of range *)
Definition select_backend (s : ProxyState) : option string * ProxyState :=
  let hs := healthy_backends (backends s) in
  match hs with
  | [] => (None, s)
  | (first, _) :: _ =>
      let total_weight := wrap 32 (sum_list_Z snd hs) in
      if total_weight =? 0 then (None, s)
      else
        let idx := default first (pick_backend hs (wrap 32 (rr_index s) mod total_weight)) in
        (addr <$> backends s !! idx, s <| rr_index ::= λ r, add64 r 1 mod total_weight |>)
  end.

(** [select_backend_static], with the list of addresses taken when the TCP proxy
    started *)
Definition select_backend_static (snapshot : list string) (s : ProxyState)
    : option string * ProxyState :=
  match snapshot with
  | [] => (None, s)
  | _ =>
      let hs := healthy_backends (backends s) in
      match hs with
      | [] => (None, s)
      | (first, _) :: _ =>
          let total_weight := wrap 32 (sum_list_Z snd hs) in
          if total_weight =? 0 then (None, s)
          else
            let idx := default first (pick_backend hs (wrap 32 (rr_index s) mod total_weight)) in
            (addr <$> backends s !! idx, s <| rr_index ::= λ r, add64 r 1 mod total_weight |>)
      end
  end.

(** [pool_stats], [metrics] *)
Definition pool_stats (s : ProxyState) : PoolStats :=
  mkPoolStats (connections_active s) (saturating_sub (connections_total s) (connections_active s))
    (connections_total s) 0.
Definition proxy_metrics (s : ProxyState) : list (string * f64) :=
  [("proxy_connections_active", f64_of_Z (connections_active s));
   ("proxy_connections_total", f64_of_Z (connections_total s));
   ("proxy_requests_total", f64_of_Z (requests_total s));
   ("proxy_requests_retried", f64_of_Z (requests_retried s));
   ("proxy_requests_circuit_broken", f64_of_Z (requests_circuit_broken s));
   ("proxy_circuit_state", f64_of_Z (match circuit_state s with Closed => 0 | Open => 1 | HalfOpen => 2 end));
   ("proxy_circuit_failures", f64_of_Z (circuit_failures s));
   ("proxy_stale_responses_total", f64_of_Z (stale_responses s))].

(** ** Executions *)

(** The calls that take part in the circuit breaker, and what they answer *)
Inductive circuit_op :=
| OpCheck (now : Z)
| OpHandle (now : Z)
| OpDegraded (key : string) (now : Z)
| OpSuccess
| OpFailure (now : Z)
| OpTcpFailure.
Definition circuit_step (s : ProxyState) (o : circuit_op) : option HandleRequestResult * ProxyState :=
  let answer (b : bool) := Some (if b then Allowed else Rejected) in
  match o with
  | OpCheck now => let '(b, s) := check_circuit now s in (answer b, s)
  | OpHandle now => let '(b, s) := handle_request now s in (answer b, s)
  | OpDegraded key now => let '(r, s) := handle_request_with_degradation key now s in (Some r, s)
  | OpSuccess => (None, record_success s)
  | OpFailure now => (None, record_failure now s)
  | OpTcpFailure => (None, record_failure_static s)
  end.
Fixpoint circuit_run (s : ProxyState) (os : list circuit_op)
    : list (option HandleRequestResult) * ProxyState :=
  match os with
  | [] => ([], s)
  | o :: rest =>
      let '(r, s) := circuit_step s o in
      let '(rs, s) := circuit_run s rest in (r :: rs, s)
  end.

(** [n] calls of [select_backend] in a row *)
Fixpoint select_times (n : nat) (s : ProxyState) : list (option string) * ProxyState :=
  match n with
  | O => ([], s)
  | S n => let '(a, s) := select_backend s in
           let '(l, s) := select_times n s in (a :: l, s)
  end.

(** ** The circuit breaker against its specification *)

(** The machine the code promises: closed with a number of consecutive failures,
    open since some instant, or with one probe out. *)
Inductive breaker := BClosed (failures : Z) | BOpen (failures since : Z) | BProbe (failures : Z).

Section breaker.
Context (threshold reset : Z) (cached : string → option (list Byte.byte)).

Definition ask (now : Z) (b : breaker) : HandleRequestResult * breaker :=
  match b with
  | BClosed _ => (Allowed, b)
  | BOpen f since => if reset * 10 ^ 9 <=? saturating_sub now since then (Allowed, BProbe f) else (Rejected, b)
  | BProbe _ => (Rejected, b)
  end.
Definition breaker_step (b : breaker) (o : circuit_op) : option HandleRequestResult * breaker :=
  match o with
  | OpDegraded key now =>
      match b, cached key with
      | BOpen _ _, Some data => (Some (ServedFromCache data), b)
      | _, _ => let '(r, b) := ask now b in (Some r, b)
      end
  | OpCheck now | OpHandle now => let '(r, b) := ask now b in (Some r, b)
  | OpSuccess => (None, match b with BOpen _ since => BOpen 0 since | _ => BClosed 0 end)
  | OpFailure now =>
      (None, match b with
             | BClosed f => if threshold <=? add32 f 1 then BOpen (add32 f 1) now else BClosed (add32 f 1)
             | BOpen f since => BOpen (add32 f 1) (if threshold <=? add32 f 1 then now else since)
             | BProbe f => BOpen (add32 f 1) now
             end)
  | OpTcpFailure => (None, b)
  end.
Fixpoint breaker_run (b : breaker) (os : list circuit_op)
    : list (option HandleRequestResult) * breaker :=
  match os with
  | [] => ([], b)
  | o :: rest =>
      let '(r, b) := breaker_step b o in let '(rs, b) := breaker_run b rest in (r :: rs, b)
  end.
End breaker.

(** The state that implements a breaker *)
Definition implements (s : ProxyState) (b : breaker) : Prop :=
  match b with
  | BClosed f => circuit_state s = Closed ∧ circuit_failures s = f ∧ half_open_inflight s = false
  | BOpen f since => circuit_state s = Open ∧ circuit_failures s = f ∧
                     half_open_inflight s = false ∧ open_since s = Some since
  | BProbe f => circuit_state s = HalfOpen ∧ circuit_failures s = f ∧ half_open_inflight s = true
  end.

(** The calls of the breaker's interface: neither [handle_request] nor the TCP
    proxy's failures *)
Definition breaker_op (o : circuit_op) : bool :=
  match o with OpHandle _ | OpTcpFailure => false | _ => true end.

(** What the calls of the breaker leave alone *)
Definition same_config (s s' : ProxyState) : Prop :=
  circuit_threshold s' = circuit_threshold s ∧ circuit_reset_secs s' = circuit_reset_secs s ∧
  graceful_degradation_enabled s' = graceful_degradation_enabled s ∧ stale_cache s' = stale_cache s.
Definition cached_of (s : ProxyState) (key : string) : option (list Byte.byte) :=
  if graceful_degradation_enabled s then stale_cache s !! key else None.

Lemma reset_elapsed_some now s since :
  open_since s = Some since →
  reset_elapsed now s = (circuit_reset_secs s * 10 ^ 9 <=? saturating_sub now since).
Proof. unfold reset_elapsed. by intros ->. Qed.

Lemma circuit_step_implements s b o :
  implements s b → breaker_op o = true →
  let '(r, s') := circuit_step s o in
  let '(r', b') := breaker_step (circuit_threshold s) (circuit_reset_secs s) (cached_of s) b o in
  r = r' ∧ implements s' b' ∧ same_config s s'.
Proof.
  intros Hb Ho. destruct b as [f|f since|f]; simpl in Hb.
  - destruct Hb as (Hst & <- & Hin). destruct o; try done; simpl.
    + unfold check_circuit. by rewrite Hst.
    + unfold handle_request_with_degradation. simpl. by rewrite Hst.
    + unfold record_success. simpl. by rewrite Hst.
    + unfold record_failure. simpl. rewrite Hst. by destruct (_ <=? _).
  - destruct Hb as (Hst & <- & Hin & Hsince). pose proof (reset_elapsed_some) as Hre.
    destruct o; try done; simpl.
    + unfold check_circuit. rewrite Hst, (Hre _ _ _ Hsince). by destruct (_ <=? _).
    + unfold handle_request_with_degradation, cached_of. simpl. rewrite Hst.
      destruct (if graceful_degradation_enabled s then _ else _); simpl; [done|].
      rewrite ?Hst, (Hre _ _ since) by done. simpl. by destruct (_ <=? _); simpl; rewrite ?Hst.
    + unfold record_success. simpl. by rewrite Hst.
    + unfold record_failure. simpl. rewrite Hst. by destruct (_ <=? _).
  - destruct Hb as (Hst & <- & Hin). destruct o; try done; simpl.
    + unfold check_circuit. by rewrite Hst, Hin.
    + unfold handle_request_with_degradation. simpl. by rewrite !Hst, Hin.
    + unfold record_success. simpl. by rewrite Hst.
    + unfold record_failure. simpl. by rewrite Hst.
Qed.

Lemma circuit_run_implements s b os :
  implements s b → Forall (λ o, breaker_op o = true) os →
  let '(rs, s') := circuit_run s os in
  let '(rs', b') := breaker_run (circuit_threshold s) (circuit_reset_secs s) (cached_of s) b os in
  rs = rs' ∧ implements s' b' ∧ same_config s s'.
Proof.
  intros Hb Hos. revert s b Hb. induction Hos as [|o os Ho Hos IH]; intros s b Hb; simpl; [done|].
  pose proof (circuit_step_implements s b o Hb Ho) as Hstep.
  destruct (circuit_step s o) as [r s1], (breaker_step _ _ _ b o) as [r' b1].
  destruct Hstep as (-> & Hb1 & Hc). pose proof Hc as (E1 & E2 & E3 & E4). specialize (IH s1 b1 Hb1).
  assert (cached_of s1 = cached_of s) as Ec by (unfold cached_of; by rewrite E3, E4).
  rewrite E1, E2, Ec in IH.
  destruct (circuit_run s1 os) as [rs s2], (breaker_run _ _ _ b1 os) as [rs' b2].
  destruct IH as (-> & ? & (F1 & F2 & F3 & F4)). split_and!; [done..|].
  unfold same_config. by rewrite F1, F2, F3, F4.
Qed.
(** C2.  The circuit breaker implements its specification: along every sequence of
    [check_circuit], [handle_request_with_degradation], [record_success] and
    [record_failure], every answer is the one of the abstract machine, and the
    fields keep representing its state; a probe is out exactly in [HalfOpen]. *)
Theorem circuit_refines_breaker s b os :
  implements s b → Forall (λ o, breaker_op o = true) os →
  let '(rs, s') := circuit_run s os in
  let '(rs', b') := breaker_run (circuit_threshold s) (circuit_reset_secs s) (cached_of s) b os in
  rs = rs' ∧ implements s' b' ∧ same_config s s'.
Proof. apply circuit_run_implements. Qed.

Definition is_failure (o : circuit_op) : bool := match o with OpFailure _ => true | _ => false end.
Definition is_ask (o : circuit_op) : bool :=
  match o with OpCheck _ | OpDegraded _ _ => true | _ => false end.
Definition failures_in (os : list circuit_op) : Z :=
  Z.of_nat (length (filter (λ o, is_failure o = true) os)).
Definition is_allowed (r : option HandleRequestResult) : bool :=
  match r with Some Allowed => true | _ => false end.
Definition allowed_in (rs : list (option HandleRequestResult)) : nat :=
  length (filter (λ r, is_allowed r = true) rs).

(** The circuit opens exactly at the threshold: with requests and failures in
    any order and no success in between, a closed circuit lets every request
    through while fewer than [circuit_threshold] consecutive failures are recorded,
    and the failure that reaches the threshold opens it at that instant. *)
Theorem circuit_opens_at_threshold s f os now :
  implements s (BClosed f) → 0 ≤ f → in_u 32 (circuit_threshold s) →
  Forall (λ o, (is_failure o || is_ask o) = true) os →
  f + failures_in os < circuit_threshold s →
  let '(rs, s') := circuit_run s os in
  implements s' (BClosed (f + failures_in os)) ∧
  Forall (λ r, r = None ∨ r = Some Allowed) rs ∧
  (f + failures_in os + 1 = circuit_threshold s →
   implements (record_failure now s') (BOpen (circuit_threshold s) now)).
Proof.
  intros Hb Hf Ht Hos. revert s f Hb Hf Ht. induction Hos as [|o os Ho Hos IH]; intros s f Hb Hf Ht Hlt; simpl.
  - unfold failures_in in *. simpl in *. rewrite Z.add_0_r in *. split; [done|]. split; [constructor|].
    intros Heq. pose proof (circuit_step_implements s (BClosed f) (OpFailure now) Hb eq_refl) as Hst.
    simpl in Hst. revert Hst. rewrite add32_small by (unfold in_u in *; lia).
    rewrite (proj2 (Z.leb_le _ _)) by lia. rewrite Heq. intros (_ & Hst & _). exact Hst.
  - assert (breaker_op o = true) as Hbo by (destruct o; simpl in *; done).
    pose proof (circuit_step_implements s _ o Hb Hbo) as Hst.
    assert (failures_in (o :: os) = (if is_failure o then 1 else 0) + failures_in os) as Hfi.
    { unfold failures_in. rewrite filter_cons. destruct (is_failure o); simpl; lia. }
    rewrite Hfi in *. assert (0 ≤ failures_in os) by (unfold failures_in; lia).
    destruct (circuit_step s o) as [r s1] eqn:Es. simpl.
    assert (implements s1 (BClosed (f + if is_failure o then 1 else 0)) ∧
            (r = None ∨ r = Some Allowed) ∧ circuit_threshold s1 = circuit_threshold s) as (Hb1 & Hr & Et).
    { destruct o; try done; simpl in Hst.
      - rewrite Z.add_0_r. destruct Hst as (-> & ? & ? & _). auto.
      - rewrite Z.add_0_r. destruct (cached_of s key); destruct Hst as (-> & ? & ? & _); auto.
      - simpl in Hlt. rewrite add32_small in Hst by (unfold in_u in *; lia).
        rewrite (proj2 (Z.leb_gt _ _)) in Hst by lia. destruct Hst as (-> & ? & ? & _). auto. }
    specialize (IH s1 _ Hb1). rewrite Et in IH.
    destruct (circuit_run s1 os) as [rs s2].
    destruct IH as (? & ? & ?); [by destruct (is_failure o); lia|done|lia|].
    rewrite <-!Z.add_assoc in *. split; [done|]. split; [by constructor|done].
Qed.

(** An open circuit lets at most one request through before the next success
    or failure is recorded: among any requests by way of [check_circuit] and
    [handle_request_with_degradation], whatever the clock reads, at most one is
    allowed, and none before the reset period is over. *)
Theorem open_circuit_single_probe s f since os :
  implements s (BOpen f since) → Forall (λ o, is_ask o = true) os →
  let '(rs, s') := circuit_run s os in
  (allowed_in rs ≤ 1)%nat ∧
  ((∀ o now, o ∈ os → (o = OpCheck now ∨ ∃ key, o = OpDegraded key now) →
      saturating_sub now since < circuit_reset_secs s * 10 ^ 9) →
   allowed_in rs = 0%nat ∧ implements s' (BOpen f since)).
Proof.
  intros Hb Hos.
  assert (Forall (λ o, breaker_op o = true) os) as Hbo by (eapply Forall_impl; [exact Hos|]; by intros []).
  pose proof (circuit_run_implements s _ os Hb Hbo) as Href.
  set (T := circuit_threshold s) in *. set (R := circuit_reset_secs s) in *. set (C := cached_of s) in *.
  destruct (circuit_run s os) as [rs s'].
  assert (∀ f', allowed_in (breaker_run T R C (BProbe f') os).1 = 0%nat) as Hprobe.
  { intros f'. clear Href Hbo. induction Hos as [|o os' Ho Hos' IH]; [done|]. simpl.
    destruct o; try done; simpl; [|destruct (C key)]; destruct (breaker_run T R C (BProbe f') os'); done. }
  clear Hbo Hb. destruct (breaker_run T R C (BOpen f since) os) as [rs' b'] eqn:Hrun.
  destruct Href as (-> & Hs' & _).
  assert ((allowed_in rs' ≤ 1)%nat ∧
    ((∀ o now, o ∈ os → (o = OpCheck now ∨ ∃ key, o = OpDegraded key now) →
        saturating_sub now since < R * 10 ^ 9) → allowed_in rs' = 0%nat ∧ b' = BOpen f since)) as [? Hnone].
  { clear Hs'. revert rs' b' Hrun Hprobe. induction Hos as [|o os Ho Hos IH]; intros rs' b' Hrun Hprobe; cbn [breaker_run] in Hrun.
    { simplify_eq. split; [unfold allowed_in; simpl; lia|done]. }
    assert (∀ f', allowed_in (breaker_run T R C (BProbe f') os).1 = 0%nat) as Hp'.
    { intros f'. specialize (Hprobe f'). destruct o; try done; simpl in Hprobe;
        [|destruct (C key)]; destruct (breaker_run T R C (BProbe f') os); done. }
    destruct (breaker_run T R C (BOpen f since) os) as [rs1 b1] eqn:H1.
    destruct (IH _ _ eq_refl Hp') as [Hle Hno].
    assert (∀ now, o = OpCheck now ∨ (∃ key, o = OpDegraded key now) →
      (let '(r, b) := ask R now (BOpen f since) in
       let '(rs, b) := breaker_run T R C b os in (Some r :: rs, b)) = (rs', b') →
      (allowed_in rs' ≤ 1)%nat ∧
      ((∀ o' now, o' ∈ o :: os → (o' = OpCheck now ∨ ∃ key, o' = OpDegraded key now) →
          saturating_sub now since < R * 10 ^ 9) → allowed_in rs' = 0%nat ∧ b' = BOpen f since)) as Hask.
    { intros now Hnow. simpl. destruct (Z.leb_spec (R * 10 ^ 9) (saturating_sub now since)) as [Hge|Hlt].
      - specialize (Hp' f). destruct (breaker_run T R C (BProbe f) os) as [rs2 b2]. intros [= <- <-].
        unfold allowed_in in *. simpl in *. rewrite Hp'. split; [lia|]. intros Hall.
        specialize (Hall o now ltac:(constructor) Hnow). lia.
      - rewrite H1. intros [= <- <-]. split; [done|]. intros Hall. apply Hno.
        intros o' now' Hin. apply Hall. by constructor. }
    destruct o as [now| |key now| | |]; try done; cbn [breaker_step] in Hrun.
    - apply (Hask now); [by left|]. by destruct (ask R now (BOpen f since)).
    - destruct (C key) as [data|]; [|apply (Hask now); [eauto|]; by destruct (ask R now (BOpen f since))].
      rewrite H1 in Hrun. simplify_eq. split; [done|]. intros Hall. apply Hno.
      intros o' now' Hin. apply Hall. by constructor. }
  split; [done|]. intros Hall. destruct (Hnone Hall) as [? ->]. split; [done|exact Hs'].
Qed.

Definition is_request (o : circuit_op) : bool :=
  match o with OpCheck _ | OpHandle _ | OpDegraded _ _ => true | _ => false end.

Lemma half_open_rejects s os :
  circuit_state s = HalfOpen → half_open_inflight s = true →
  Forall (λ o, is_request o = true) os →
  Forall (λ r, r = Some Rejected) (circuit_run s os).1.
Proof.
  intros Hst Hin Hos. revert s Hst Hin.
  induction Hos as [|o os Ho Hos IH]; intros s Hst Hin; simpl; [constructor|].
  assert ((circuit_step s o).1 = Some Rejected ∧ circuit_state (circuit_step s o).2 = HalfOpen ∧
          half_open_inflight (circuit_step s o).2 = true) as (Hr & Hst1 & Hin1).
  { destruct o; try done; simpl; unfold check_circuit, handle_request,
      handle_request_with_degradation; simpl; by rewrite ?Hst, ?Hst, ?Hin. }
  destruct (circuit_step s o) as [r s1]. specialize (IH s1 Hst1 Hin1).
  destruct (circuit_run s1 os) as [rs s2]. by constructor.
Qed.

(** C40.  A circuit that is served by [handle_request] does not recover: from an
    open circuit every call of it is rejected, however much time passes; and once
    one such call has come after the reset period, every later request, by way of
    any of the three methods, is rejected too (until somebody records an outcome
    of a request that was never let through): the call that moves the circuit to
    half-open takes the probe for itself and is then turned away. *)
Theorem handle_request_never_recovers s now os :
  circuit_state s = Open → Forall (λ o, is_request o = true) os →
  Forall (λ o, ∃ t, o = OpHandle t) os ∨ reset_elapsed now s = true →
  Forall (λ r, r = Some Rejected) (circuit_run s (OpHandle now :: os)).1.
Proof.
  intros Hst Hos Hcase.
  assert (∀ t s, circuit_state s = Open → (circuit_step s (OpHandle t)).1 = Some Rejected ∧
    if reset_elapsed t s
    then circuit_state (circuit_step s (OpHandle t)).2 = HalfOpen ∧
         half_open_inflight (circuit_step s (OpHandle t)).2 = true
    else circuit_state (circuit_step s (OpHandle t)).2 = Open) as Hhandle.
  { intros t s0 H0. simpl. unfold handle_request. simpl. rewrite H0.
    unfold reset_elapsed. simpl. by destruct (open_since s0); [destruct (_ <=? _)|]; simpl; rewrite ?H0. }
  assert (Forall (λ o, ∃ t, o = OpHandle t) os → ∀ s now, circuit_state s = Open →
          Forall (λ r, r = Some Rejected) (circuit_run s (OpHandle now :: os)).1) as Hall.
  { clear Hcase Hst. intros Hh. induction Hh as [|o os [t ->] Hh IH]; intros s0 now0 H0.
    - destruct (Hhandle now0 s0 H0) as [Hr _]. cbn [circuit_run].
      destruct (circuit_step s0 _). by constructor.
    - destruct (Hhandle now0 s0 H0) as [Hr Hs]. apply Forall_cons in Hos as [_ Hos].
      cbn [circuit_run]. destruct (circuit_step s0 (OpHandle now0)) as [r s1]. simpl in Hr, Hs. subst r.
      destruct (reset_elapsed now0 s0).
      + destruct Hs as [Hs1 Hs2].
        pose proof (half_open_rejects s1 (OpHandle t :: os) Hs1 Hs2) as Hrej.
        cbn [circuit_run] in Hrej. destruct (circuit_step s1 _) as [r2 s2], (circuit_run s2 os).
        constructor; [done|]. apply Hrej. by constructor.
      + pose proof (IH Hos s1 t Hs) as Hrej. cbn [circuit_run] in Hrej.
        destruct (circuit_step s1 _) as [r2 s2], (circuit_run s2 os). by constructor. }
  destruct Hcase as [Hh|Hre]; [by apply Hall|].
  destruct (Hhandle now s Hst) as [Hr Hs]. rewrite Hre in Hs. destruct Hs as [Hs1 Hs2].
  cbn [circuit_run]. destruct (circuit_step s _) as [r s1].
  pose proof (half_open_rejects s1 os Hs1 Hs2 Hos) as Hrej.
  destruct (circuit_run s1 os). by constructor.
Qed.

(** ** Weighted round-robin *)

(** The wheel: each healthy backend in as many slots as its weight *)
Definition wheel {A} (l : list (A * Z)) : list A :=
  concat ((λ iw, replicate (Z.to_nat iw.2) iw.1) <$> l).

Lemma length_wheel {A} (l : list (A * Z)) :
  Forall (λ iw, 0 ≤ iw.2) l → Z.of_nat (length (wheel l)) = sum_list_Z snd l.
Proof.
  unfold wheel. induction 1 as [|[a w] l Hw Hl IH]; [done|]. csimpl in *.
  rewrite length_app, length_replicate. lia.
Qed.

Lemma pick_backend_wheel l r :
  Forall (λ iw, in_u 32 iw.2) l → 0 ≤ r < sum_list_Z snd l → r < 2 ^ 32 →
  pick_backend l r = wheel l !! Z.to_nat r.
Proof.
  intros Hl. revert r. unfold wheel. induction Hl as [|[i w] l Hw Hl IH]; intros r Hr H32; csimpl in *; [lia|].
  unfold in_u in Hw.
  destruct (Z.ltb_spec r w) as [Hlt|Hge].
  - rewrite lookup_app_l by (rewrite length_replicate; lia).
    by rewrite lookup_replicate_2 by lia.
  - rewrite sub32_small by (unfold in_u; lia).
    rewrite lookup_app_r by (rewrite length_replicate; lia). rewrite length_replicate, IH by lia.
    f_equal. lia.
Qed.

(** A full turn from any slot visits every slot once. *)
Lemma wheel_turn {A} (w : list A) (r : nat) :
  omap (λ k, w !! ((r + k) mod length w)%nat) (seq 0 (length w)) ≡ₚ w.
Proof.
  destruct (decide (w = [])) as [->|Hne]; [done|].
  assert (length w ≠ 0%nat) as Hn by (by intros ?%length_zero_iff_nil).
  set (n := length w) in *. set (s := (r mod n)%nat).
  assert (s < n)%nat as Hs by (by apply Nat.mod_upper_bound).
  assert (∀ k, ((r + k) mod n = (s + k) mod n)%nat) as Hmod.
  { intros k. unfold s. by rewrite Nat.Div0.add_mod_idemp_l. }
  replace (seq 0 n) with (seq 0 (n - s) ++ seq (0 + (n - s)) s)
    by (rewrite <-seq_app; f_equal; lia).
  rewrite omap_app.
  assert (omap (λ k, w !! ((r + k) mod n)%nat) (seq 0 (n - s)) = drop s w) as ->.
  { assert (∀ a m, (s + a + m ≤ n)%nat →
      omap (λ k, w !! ((r + k) mod n)%nat) (seq a m) = take m (drop (s + a) w)) as Hgen.
    { intros a m. revert a. induction m as [|m IH]; intros a Ham; [done|]. csimpl.
      rewrite Hmod, Nat.mod_small by lia.
      destruct (lookup_lt_is_Some_2 w (s + a)) as [x Hx]; [fold n; lia|].
      rewrite Hx, IH by lia. rewrite (drop_S _ _ _ Hx). csimpl.
      by replace (s + S a)%nat with (S (s + a)) by lia. }
    rewrite Hgen by lia. by rewrite Nat.add_0_r, take_ge by (rewrite length_drop; fold n; lia). }
  assert (omap (λ k, w !! ((r + k) mod n)%nat) (seq (0 + (n - s)) s) = take s w) as ->.
  { assert (∀ a m, (a + m ≤ s)%nat →
      omap (λ k, w !! ((r + k) mod n)%nat) (seq (n - s + a) m) = take m (drop a w)) as Hgen.
    { intros a m. revert a. induction m as [|m IH]; intros a Ham; [done|]. csimpl.
      rewrite Hmod. replace (s + (n - s + a))%nat with (a + 1 * n)%nat by lia.
      rewrite Nat.Div0.mod_add, Nat.mod_small by lia.
      destruct (lookup_lt_is_Some_2 w a) as [x Hx]; [fold n; lia|].
      rewrite Hx. replace (S (n - s + a)) with (n - s + S a)%nat by lia. rewrite IH by lia.
      by rewrite (drop_S _ _ _ Hx). }
    specialize (Hgen 0%nat s). rewrite Nat.add_0_r in Hgen. simpl. rewrite Hgen by lia. done. }
  by rewrite Permutation_app_comm, take_drop.
Qed.

(** The backends as the wheel sees them *)
Definition served (bs : list BackendEntry) : list (string * Z) :=
  (λ b, (addr b, weight b)) <$> filter (λ b, healthy b = true) bs.

Lemma healthy_backends_served bs :
  snd <$> healthy_backends bs = snd <$> served bs ∧
  (λ i, addr <$> bs !! i) <$> wheel (healthy_backends bs) = Some <$> wheel (served bs).
Proof.
  assert (∀ n pre bs', bs = pre ++ bs' → length pre = n →
    let hs := (λ ib : nat * BackendEntry, (ib.1, weight ib.2)) <$>
                filter (λ ib, healthy ib.2 = true) (imap (λ i b, (n + i, b)%nat) bs') in
    snd <$> hs = snd <$> served bs' ∧
    (λ i, addr <$> bs !! i) <$> wheel hs = Some <$> wheel (served bs')) as Hgen.
  { intros n pre bs'. revert n pre. induction bs' as [|b bs' IH]; intros n pre Hbs Hn; [done|].
    destruct (IH (S n) (pre ++ [b])) as [IH1 IH2];
      [by rewrite <-app_assoc|rewrite length_app; simpl; lia|].
    assert (imap (λ i b0, (n + i, b0)%nat) (b :: bs') =
            (n, b) :: imap (λ i b0, (S n + i, b0)%nat) bs') as ->.
    { rewrite imap_cons. f_equal; [by rewrite Nat.add_0_r|]. apply imap_ext. intros i x _. simpl.
      f_equal. lia. }
    unfold served. rewrite !filter_cons. simpl. fold (served bs'). destruct (healthy b); [|done].
    csimpl. split; [by f_equal|]. unfold wheel in *. csimpl. rewrite !fmap_app. f_equal; [|done].
    rewrite !fmap_replicate. f_equal. rewrite Hbs, lookup_app_r, Hn, Nat.sub_diag by lia. done. }
  destruct (Hgen 0%nat [] bs eq_refl eq_refl) as [H1 H2]. by split.
Qed.

Lemma sum_snd {A} (l : list (A * Z)) : sum_list_Z snd l = sum_list_Z id (snd <$> l).
Proof. induction l as [|x l IH]; csimpl; [done|]. by rewrite IH. Qed.

Lemma weights_ok bs :
  Forall (λ b, in_u 32 (weight b)) bs →
  Forall (λ iw, in_u 32 iw.2) (healthy_backends bs) ∧
  sum_list_Z snd (healthy_backends bs) = sum_list_Z snd (served bs).
Proof.
  intros Hw. destruct (healthy_backends_served bs) as [Hs _]. split.
  - apply Forall_forall. intros [i w] Hin. apply list_elem_of_fmap in Hin as ([j b] & [= -> ->] & Hin).
    apply list_elem_of_filter in Hin as [_ Hin]. apply elem_of_lookup_imap in Hin as (k & b' & [= _ <-] & Hb).
    rewrite Forall_lookup in Hw. simpl. eauto.
  - by rewrite !sum_snd, Hs.
Qed.

(** One selection: the slot the index points at, and the index moves on. *)
Lemma select_backend_slot s :
  Forall (λ b, in_u 32 (weight b)) (backends s) →
  let W := sum_list_Z snd (served (backends s)) in
  0 < W < 2 ^ 32 → in_u 32 (rr_index s) →
  Some <$> wheel (served (backends s)) !! Z.to_nat (rr_index s mod W) = Some (select_backend s).1 ∧
  (select_backend s).2 = s <| rr_index := (rr_index s + 1) mod W |>.
Proof.
  intros Hw W HW Hr. destruct (weights_ok _ Hw) as [Hhw Hsum].
  destruct (healthy_backends_served (backends s)) as [_ Haddr].
  unfold select_backend. fold W in Hsum.
  pose proof (pick_backend_wheel _ (rr_index s mod W) Hhw) as Hpick. rewrite Hsum in Hpick.
  pose proof (Z.mod_pos_bound (rr_index s) W ltac:(lia)).
  destruct (healthy_backends (backends s)) as [|[first w] hs] eqn:Hhs; [simpl in Hsum; lia|].
  rewrite Hsum, !wrap_small by (done || unfold in_u; lia).
  rewrite (proj2 (Z.eqb_neq _ _)) by lia. rewrite Hpick by lia. simpl.
  rewrite add64_small by (unfold in_u in *; lia). split; [|done].
  assert (length (wheel ((first, w) :: hs)) = Z.to_nat W) as Hlen.
  { rewrite <-Hsum, <-length_wheel, Nat2Z.id; [done|].
    eapply Forall_impl; [exact Hhw|]. intros ? []; done. }
  destruct (lookup_lt_is_Some_2 (wheel ((first, w) :: hs)) (Z.to_nat (rr_index s mod W))) as [i Hi]; [lia|].
  rewrite Hi. simpl.
  assert ((Some <$> wheel (served (backends s))) !! Z.to_nat (rr_index s mod W) =
          Some (addr <$> backends s !! i)) as Hl.
  { rewrite <-Haddr, list_lookup_fmap, Hi. done. }
  rewrite list_lookup_fmap in Hl. exact Hl.
Qed.

(** C9.  Weighted round-robin is fair: with [W] the sum of the weights of the
    healthy backends, any [W] selections in a row, from wherever the index stands,
    choose every healthy backend exactly as often as its weight says and no other.
    (Weights are 32-bit, and their sum is positive and below 2^32.) *)
Theorem round_robin_fair s :
  Forall (λ b, in_u 32 (weight b)) (backends s) →
  let W := sum_list_Z snd (served (backends s)) in
  0 < W < 2 ^ 32 → in_u 32 (rr_index s) →
  (select_times (Z.to_nat W) s).1 ≡ₚ Some <$> wheel (served (backends s)).
Proof.
  intros Hw W HW Hr. set (wl := wheel (served (backends s))).
  assert (length wl = Z.to_nat W) as Hlen.
  { assert (Forall (λ iw, 0 ≤ iw.2) (served (backends s))) as Hs.
    { apply Forall_forall. intros ? Hin. apply list_elem_of_fmap in Hin as (b & -> & Hin).
      apply list_elem_of_filter in Hin as [_ Hin]. rewrite Forall_forall in Hw. by destruct (Hw b Hin). }
    pose proof (length_wheel _ Hs) as Hl. fold W wl in Hl. lia. }
  assert (∀ n k s', backends s' = backends s →
    rr_index s' mod W = (rr_index s + Z.of_nat k) mod W → in_u 32 (rr_index s') →
    (select_times n s').1 =
    omap (λ j, Some <$> wl !! ((Z.to_nat (rr_index s) + j) mod length wl)%nat) (seq k n)) as Hrun.
  { intros n. induction n as [|n IH]; intros k s' Hb Hk Hr'; [done|].
    destruct (select_backend_slot s') as [Hs1 Hs2]; rewrite ?Hb; try done.
    rewrite Hb in Hs1, Hs2. fold W wl in Hs1, Hs2. cbn [select_times seq].
    pose proof (Z.mod_pos_bound (rr_index s' + 1) W ltac:(lia)).
    destruct (select_backend s') as [a s1]. cbn [fst snd] in Hs1, Hs2.
    assert (backends s1 = backends s ∧ rr_index s1 = (rr_index s' + 1) mod W) as [Hb1 Hr1]
      by (by rewrite Hs2).
    specialize (IH (S k) s1 Hb1). rewrite Hr1 in IH.
    destruct (select_times n s1) as [l s2]. cbn [fst] in *. clear Hs2. csimpl.
    assert (((Z.to_nat (rr_index s) + k) mod length wl)%nat = Z.to_nat (rr_index s' mod W)) as ->.
    { rewrite Hk, Hlen. unfold in_u in Hr.
      rewrite <-(Z2Nat.id (rr_index s)) at 2 by lia. rewrite <-Nat2Z.inj_add.
      rewrite <-(Z2Nat.id W) at 2 by lia. rewrite <-Nat2Z.inj_mod, Nat2Z.id. done. }
    rewrite Hs1. f_equal. apply IH; [|unfold in_u; lia].
    rewrite Z.mod_mod, Nat2Z.inj_succ, <-Z.add_1_r, Z.add_assoc by lia.
    rewrite <-Z.add_mod_idemp_l, Hk, Z.add_mod_idemp_l by lia. done. }
  rewrite (Hrun _ 0%nat s) by (done || by rewrite Z.add_0_r).
  pose proof (wheel_turn wl (Z.to_nat (rr_index s))) as Hturn. rewrite <-Hturn, <-Hlen.
  assert (∀ l, omap (λ j, Some <$> wl !! ((Z.to_nat (rr_index s) + j) mod length wl)%nat) l =
    Some <$> omap (λ j, wl !! ((Z.to_nat (rr_index s) + j) mod length wl)%nat) l) as ->; [|done].
  induction l as [|j l IH]; csimpl; [done|]. destruct (wl !! _); csimpl; by rewrite IH.
Qed.

(** ** Concrete runs *)

(** A proxy whose circuit has been open since instant 0, and one that is closed *)
Definition closed_proxy : ProxyState := new_proxy ∅.
Definition open_proxy : ProxyState :=
  closed_proxy <| circuit_state := Open |> <| circuit_failures := 5 |> <| open_since := Some 0 |>.
Definition late : Z := 31 * 10 ^ 9.

Lemma circuit_refines_breaker_witness :
  (circuit_run open_proxy [OpCheck late; OpCheck late; OpSuccess; OpDegraded "k" late]).1 =
  [Some Allowed; Some Rejected; None; Some Allowed].
Proof.
  pose proof (circuit_refines_breaker open_proxy (BOpen 5 0)
    [OpCheck late; OpCheck late; OpSuccess; OpDegraded "k" late]) as H.
  destruct (circuit_run _ _) as [rs s']. refine (proj1 (H _ _)).
  - repeat split.
  - repeat constructor.
Defined.

Lemma circuit_opens_at_threshold_witness :
  let s := (circuit_run closed_proxy [OpFailure 1; OpFailure 2; OpCheck 3; OpFailure 4; OpFailure 5]).2 in
  circuit_state s = Closed ∧ circuit_state (record_failure 6 s) = Open.
Proof.
  pose proof (circuit_opens_at_threshold closed_proxy 0
    [OpFailure 1; OpFailure 2; OpCheck 3; OpFailure 4; OpFailure 5] 6) as H.
  destruct (circuit_run _ _) as [rs s']. destruct H as (H1 & _ & H2).
  - repeat split.
  - lia.
  - split; vm_compute; congruence.
  - repeat constructor.
  - reflexivity.
  - simpl. split; [apply H1|apply H2; reflexivity].
Defined.

Lemma open_circuit_single_probe_witness :
  (allowed_in (circuit_run open_proxy [OpCheck 5; OpCheck late; OpDegraded "k" late]).1 ≤ 1)%nat.
Proof.
  pose proof (open_circuit_single_probe open_proxy 5 0
    [OpCheck 5; OpCheck late; OpDegraded "k" late]) as H.
  destruct (circuit_run _ _) as [rs s']. refine (proj1 (H _ _)).
  - repeat split.
  - repeat constructor.
Defined.

Lemma handle_request_never_recovers_witness :
  Forall (λ r, r = Some Rejected)
    (circuit_run open_proxy [OpHandle late; OpHandle (2 * late); OpCheck (3 * late)]).1.
Proof.
  apply (handle_request_never_recovers open_proxy late [OpHandle (2 * late); OpCheck (3 * late)]).
  - reflexivity.
  - repeat constructor.
  - right. reflexivity.
Defined.

Definition three_backends : ProxyState :=
  register_backend "c" 1 true (register_backend "b" 5 false
    (register_backend "a" 2 true closed_proxy)).

Lemma round_robin_fair_witness :
  (select_times 3 three_backends).1 ≡ₚ [Some "a"; Some "a"; Some "c"].
Proof.
  refine (round_robin_fair three_backends _ _ _).
  - repeat constructor; vm_compute; congruence.
  - split; vm_compute; congruence.
  - split; vm_compute; congruence.
Defined.
