(* ===== verification/ProxyTcp.v ===== *)
(** * The TCP proxy ([proxy-shim/src/lib.rs], [start_tcp_proxy])

    The accept loop and the task of each connection, over the state of [Proxy.v].  The
    tasks take the lock of the state once to choose a backend and once to record a failure,
    so a run is a sequence of such moments.  Sockets are inputs: whether a connection
    comes, whether the backend answers in time.  The copying of bytes is not modelled. *)

From S2P Require Import Prelude Proxy.

(** A connection: accepted, with the time to connect in milliseconds; its backend
    chosen; piped; over *)
Inductive connection :=
| Accepted (timeout_ms : Z)
| Chosen (backend : string) (timeout_ms : Z)
| Piped (backend : string)
| Ended.
(** The state, whether the loop accepts, the connections, the choices in the order they
    were made, and how many backends did not answer *)
Record tcp_proxy := mkTcp {
  px : ProxyState;
  accepting : bool;
  connections : list connection;
  chosen : list (option string);
  refused : nat
}.
#[export] Instance tcp_proxy_settable : Settable tcp_proxy := λ s,
  mkTcp (px s) (accepting s) (connections s) (chosen s) (refused s).
Definition tcp_start (p : ProxyState) : tcp_proxy := mkTcp p true [] [] 0.
(** The addresses are taken once, when the proxy starts. *)
Definition tcp_snapshot (p : ProxyState) : list string := addr <$> backends p.

Inductive tcp_event :=
| TcpAccept
| TcpAcceptError
| TcpSelect (k : nat)
| TcpConnect (k : nat) (ok : bool).
Definition tcp_select (snapshot : list string) (k : nat) (timeout_ms : Z) (s : tcp_proxy) : tcp_proxy :=
  let '(b, p) := select_backend_static snapshot (px s) in
  s <| px := p |> <| chosen ::= λ l, l ++ [b] |>
    <| connections ::= <[k := match b with Some b => Chosen b timeout_ms | None => Ended end]> |>.
Definition tcp_connect (k : nat) (b : string) (ok : bool) (s : tcp_proxy) : tcp_proxy :=
  if ok then s <| connections ::= <[k := Piped b]> |>
  else s <| px ::= record_failure_static |> <| refused ::= S |> <| connections ::= <[k := Ended]> |>.
Definition tcp_apply (snapshot : list string) (s : tcp_proxy) (v : tcp_event) : tcp_proxy :=
  match v with
  | TcpAccept =>
      if accepting s then s <| connections ::= λ l, l ++ [Accepted (mul64 (connect_timeout (px s)) 1000)] |> else s
  | TcpAcceptError => s <| accepting := false |>
  | TcpSelect k => match connections s !! k with Some (Accepted t) => tcp_select snapshot k t s | _ => s end
  | TcpConnect k ok => match connections s !! k with Some (Chosen b _) => tcp_connect k b ok s | _ => s end
  end.
Definition tcp_run (vs : list tcp_event) (p : ProxyState) : tcp_proxy := foldl (tcp_apply (tcp_snapshot p)) (tcp_start p) vs.

(** ** Failures do not matter *)

(** [n] choices in a row *)
Fixpoint choose_times (snapshot : list string) (n : nat) (p : ProxyState) : list (option string) * ProxyState :=
  match n with
  | O => ([], p)
  | S n => let '(l, p) := choose_times snapshot n p in
           let '(b, p) := select_backend_static snapshot p in (l ++ [b], p)
  end.
Definition with_failures (n : nat) (p : ProxyState) : ProxyState := p <| circuit_failures ::= Nat.iter n (λ f, add32 f 1) |>.

Lemma choice_with_failures sn n p :
  select_backend_static sn (with_failures n p) =
  ((select_backend_static sn p).1, with_failures n (select_backend_static sn p).2).
Proof. unfold select_backend_static, with_failures. simpl. by repeat case_match. Qed.
Lemma failure_with_failures n p : record_failure_static (with_failures n p) = with_failures (S n) p.
Proof. done. Qed.
(** A choice moves the index of the round robin and nothing else. *)
Lemma choice_frame sn p : ∃ i, (select_backend_static sn p).2 = p <| rr_index := i |>.
Proof.
  unfold select_backend_static. assert (∃ i, p = p <| rr_index := i |>) as Hp by (exists (rr_index p); by destruct p).
  repeat case_match; simpl; eauto.
Qed.
Lemma choose_times_frame sn n p : ∃ i, (choose_times sn n p).2 = p <| rr_index := i |>.
Proof.
  induction n as [|n [i IH]]; simpl; [exists (rr_index p); by destruct p|].
  destruct (choose_times sn n p) as [l p1]. simpl in IH. subst p1. destruct (choice_frame sn (p <| rr_index := i |>)) as [j E].
  destruct (select_backend_static _ _) as [b p2]. simpl in *. subst p2. by exists j.
Qed.
Definition tcp_inv (sn : list string) (p : ProxyState) (s : tcp_proxy) : Prop :=
  chosen s = (choose_times sn (length (chosen s)) p).1 ∧
  px s = with_failures (refused s) (choose_times sn (length (chosen s)) p).2.
Lemma tcp_inv_step sn p s v : tcp_inv sn p s → tcp_inv sn p (tcp_apply sn s v).
Proof.
  intros [Hc Hp]. destruct v as [| |k|k ok]; simpl; [by destruct (accepting s)|done| |].
  - destruct (connections s !! k) as [[t| | |]|]; [|done..]. unfold tcp_select. rewrite Hp, choice_with_failures. split.
    + simpl. rewrite length_app, Nat.add_1_r. simpl. rewrite Hc at 1.
      destruct (choose_times sn _ p) as [l p1]. simpl. by destruct (select_backend_static sn p1).
    + simpl. rewrite length_app, Nat.add_1_r. simpl. destruct (choose_times sn _ p) as [l p1]. simpl.
      by destruct (select_backend_static sn p1).
  - destruct (connections s !! k) as [[|b t| |]|]; [done| |done..]. unfold tcp_connect. destruct ok; [done|].
    split; [done|]. simpl. by rewrite Hp.
Qed.
(** C26.The TCP proxy is blind to failures.  However its connections interleave, and
    whichever backends do not answer, the backends are chosen in the same order as if all
    did, so that one that is down keeps its share; and of the proxy's state only the
    position of the round robin and the number of failures change: the circuit stays as
    it is, however many failures there are, and nothing is counted as a connection or a
    request. *)
Theorem tcp_blind vs p :
  let s := tcp_run vs p in
  chosen s = (choose_times (tcp_snapshot p) (length (chosen s)) p).1 ∧
  ∃ i, px s = p <| rr_index := i |> <| circuit_failures ::= Nat.iter (refused s) (λ f, add32 f 1) |>.
Proof.
  cbv zeta. assert (tcp_inv (tcp_snapshot p) p (tcp_run vs p)) as [Hc Hp].
  { unfold tcp_run. generalize (tcp_snapshot p). intros sn. assert (tcp_inv sn p (tcp_start p)) as H by (split; [done|by destruct p]).
    revert H. generalize (tcp_start p). induction vs as [|v vs IH]; intros s H; [exact H|]. by apply IH, tcp_inv_step. }
  split; [exact Hc|]. destruct (choose_times_frame (tcp_snapshot p) (length (chosen (tcp_run vs p))) p) as [i E].
  exists i. rewrite Hp, E. done.
Qed.
(** With no backend when the proxy starts, none is ever chosen, also when some are
    registered later. *)
Lemma empty_snapshot n p : (choose_times [] n p).1 = replicate n None.
Proof.
  induction n as [|n IH]; [done|]. simpl. destruct (choose_times [] n p) as [l p1]. simpl in *.
  rewrite IH. by rewrite <-replicate_cons_app.
Qed.
(** A time to connect of [2^61] seconds or more is cut. *)
Lemma connect_timeout_wraps p : connect_timeout p = 2 ^ 61 →
  connections (tcp_run [TcpAccept] p) = [Accepted 0].
Proof. simpl. by intros ->. Qed.

(** ** Runs *)

Definition two_backends : ProxyState := register_backend "b" 1 true (register_backend "a" 1 true closed_proxy).
(** Six failures, over the threshold of five, and the circuit is still closed. *)
Definition tcp_down : list tcp_event :=
  replicate 6 TcpAccept ++ (TcpSelect <$> seq 0 6) ++ ((λ k, TcpConnect k false) <$> seq 0 6).
Example demo_tcp_down :
  let s := tcp_run tcp_down two_backends in
  circuit_failures (px s) = 6 ∧ circuit_threshold (px s) = 5 ∧ circuit_state (px s) = Closed ∧
  chosen s = [Some "a"; Some "b"; Some "a"; Some "b"; Some "a"; Some "b"] ∧ connections s = replicate 6 Ended.
Proof. vm_compute. done. Qed.
Example demo_tcp_stop :
  connections (tcp_run [TcpAccept; TcpAcceptError; TcpAccept; TcpSelect 0; TcpConnect 0 true] two_backends) = [Piped "a"].
Proof. vm_compute. done. Qed.
