(* ===== verification/Failover.v ===== *)
(** * Automatic failover ([failover-shim/src/lib.rs], the single-cluster half)

    The monitoring loop of [FailoverShim] for its three connectors, and the two
    stand-alone monitors.  What a tick does to the outside (events on the bus,
    webhook posts) is a list of effects; what it learns from outside (TCP
    connections, the output of [psql], the sentinel's answer, whether a promotion
    command succeeds) is its input. *)

From S2P Require Import Prelude Config Events.

(** [FailoverConnector], [FailoverState] *)
Inductive FailoverConnector := Tcp | Patroni | RedisSentinel.
Inductive FailoverState := Healthy | Suspect | FailingOver | FailedOver | Recovering | Recovered.
#[export] Instance FailoverState_eq_dec : EqDecision FailoverState.
Proof. solve_decision. Defined.

(** [PatroniCheckResult], [RedisSentinelCheckResult] *)
Inductive PatroniCheckResult :=
| PatroniHealthy (in_recovery : bool) (max_lag_secs : f64)
| PatroniUnreachable.
Inductive RedisSentinelCheckResult :=
| MasterInfo (ip port : string)
| SentinelUnreachable.

(** [parse_replication_lag] *)
Definition parse_replication_lag (lag_str : string) : option f64 :=
  if bool_decide (lag_str = "") || bool_decide (lag_str = "NULL") then None else parse_f64 lag_str.

(** [SharedState]: the state is stored as its code, as in the atomic. *)
Record SharedState := mkShared {
  consecutive_failures : Z;
  failover_count : Z;
  state_code : Z;
  current_primary : string
}.
#[export] Instance SharedState_settable : Settable SharedState := λ s,
  mkShared (consecutive_failures s) (failover_count s) (state_code s) (current_primary s).
Definition new_shared : SharedState := mkShared 0 0 0 "".
Definition state (s : SharedState) : FailoverState :=
  match state_code s with
  | 0 => Healthy | 1 => Suspect | 2 => FailingOver | 3 => FailedOver
  | 4 => Recovering | 5 => Recovered | _ => Healthy
  end.
Definition code_of (st : FailoverState) : Z :=
  match st with
  | Healthy => 0 | Suspect => 1 | FailingOver => 2 | FailedOver => 3
  | Recovering => 4 | Recovered => 5
  end.
Definition set_state (st : FailoverState) (s : SharedState) : SharedState :=
  s <| state_code := code_of st |>.

(** [FailoverShim], less bus handle and shutdown channel *)
Record FailoverShim := mkFailover {
  primary : string;
  replica : string;
  check_interval_secs : Z;
  failure_threshold : Z;
  webhook : option string;
  db_type : string;
  connector : FailoverConnector;
  db_host : string;
  db_port : string;
  db_user : string;
  db_password : string;
  db_name : string;
  lag_threshold_secs : f64;
  redis_sentinel_url : string;
  redis_sentinel_master : string;
  shared : SharedState;
  has_bus : bool
}.
#[export] Instance FailoverShim_settable : Settable FailoverShim := λ f,
  mkFailover (primary f) (replica f) (check_interval_secs f) (failure_threshold f) (webhook f)
    (db_type f) (connector f) (db_host f) (db_port f) (db_user f) (db_password f) (db_name f)
    (lag_threshold_secs f) (redis_sentinel_url f) (redis_sentinel_master f) (shared f) (has_bus f).

(** [FailoverShim::new] *)
Definition new_failover (env : environment) : FailoverShim :=
  let c := env_or env "FAILOVER_CONNECTOR" "tcp" in
  {| primary := env_or env "FAILOVER_PRIMARY" "127.0.0.1:5432";
     replica := env_or env "FAILOVER_REPLICA" "127.0.0.1:5433";
     check_interval_secs :=
       env_parse env "FAILOVER_CHECK_INTERVAL_SECS" parse_u64
         (env_parse env "FAILOVER_CHECK_INTERVAL" parse_u64 5);
     failure_threshold := env_parse env "FAILOVER_FAILURE_THRESHOLD" parse_u32 3;
     webhook := env !! "FAILOVER_WEBHOOK";
     db_type := env_or env "FAILOVER_DB_TYPE" "postgres";
     connector := if bool_decide (c = "patroni") then Patroni
                  else if bool_decide (c = "redis-sentinel") then RedisSentinel else Tcp;
     db_host := env_or env "FAILOVER_DB_HOST" "127.0.0.1";
     db_port := env_or env "FAILOVER_DB_PORT" "5432";
     db_user := env_or env "FAILOVER_DB_USER" "postgres";
     db_password := env_or env "FAILOVER_DB_PASSWORD" "";
     db_name := env_or env "FAILOVER_DB_NAME" "postgres";
     lag_threshold_secs := env_parse env "FAILOVER_LAG_THRESHOLD_SECS" parse_f64 (f64_of_Z 30);
     redis_sentinel_url := env_or env "REDIS_SENTINEL_URL" "redis://localhost:26379";
     redis_sentinel_master := env_or env "REDIS_SENTINEL_MASTER" "mymaster";
     shared := new_shared;
     has_bus := false |}.

(** [init]; [errors] are the messages of the fields under [failover.] when
    validation is enabled. *)
Definition init (errors : list string) (config : option FailoverConfig) (f : FailoverShim)
    : result string unit * FailoverShim :=
  match errors with
  | e :: es => (Err ("failover config validation failed: " +:+
                       foldl (λ acc x, acc +:+ "; " +:+ x) e es), f)
  | [] =>
      let f := match config with
               | Some fc =>
                   f <| primary := fc_primary fc |> <| replica := fc_replica fc |>
                     <| check_interval_secs := fc_check_interval_secs fc |>
                     <| failure_threshold := fc_failure_threshold fc |>
                     <| webhook := fc_webhook fc |> <| db_type := fc_db_type fc |>
               | None => f
               end in
      (Ok tt, f <| shared ::= λ s, s <| current_primary := primary f |> |>)
  end.

Section failover.
Context `{EX : External}.

Inductive effect :=
| Emit (ev : EventType) (sev : Severity)
| Post (url text : string).

Definition emit_if (bus : bool) (ev : EventType) (sev : Severity) : list effect :=
  if bus then [Emit ev sev] else [].
Definition post_if (url : option string) (text : string) : list effect :=
  match url with Some u => [Post u text] | None => [] end.

(** How [trigger_failover] promotes: a custom command, the sentinel, or
    [patronictl], whose failure falls back to promotion in memory *)
Definition promotion_result (env : environment) (cmd_ok sentinel_ok : bool) : bool :=
  match env !! "FAILOVER_PROMOTE_CMD" with
  | Some _ => cmd_ok
  | None => match env !! "REDIS_SENTINEL_MASTER" with
            | Some _ => sentinel_ok
            | None => true
            end
  end.

(** [trigger_failover] *)
Definition trigger_failover (bus : bool) (hook : option string) (old_primary new_primary : string)
    (promoted : bool) (s : SharedState) : list effect * SharedState :=
  let s := set_state FailingOver s in
  let effects :=
    post_if hook ("FAILOVER " +:+ (if promoted then "SUCCEEDED" else "FAILED") +:+ ": " +:+
                  old_primary +:+ " failed, promoting " +:+ new_primary) ++
    emit_if bus (FailoverTriggered old_primary new_primary) Error in
  if promoted then
    let s := s <| current_primary := new_primary |> <| failover_count ::= λ n, add64 n 1 |> in
    let s := set_state FailedOver s in
    (effects, s <| consecutive_failures := 0 |>)
  else (effects, set_state FailingOver s).

(** The failing branch shared by the three connectors: count, then fail over at
    the threshold or become suspect *)
Definition on_failure (f : FailoverShim) (cur : string) (promoted : bool) (s : SharedState)
    : list effect * SharedState :=
  let failures := add32 (consecutive_failures s) 1 in
  let s := s <| consecutive_failures := failures |> in
  if failure_threshold f <=? failures
  then trigger_failover (has_bus f) (webhook f) cur (replica f) promoted s
  else ([], set_state Suspect s).

(** What the loop's task keeps between ticks *)
Record LoopState := mkLoop {
  consecutive_primary_healthy : Z;
  last_known_primary : option string;
  last_recovery_state : option bool;
  last_known_master : option string
}.
Definition new_loop : LoopState := mkLoop 0 None None None.
#[local] Instance LoopState_settable : Settable LoopState := λ l,
  mkLoop (consecutive_primary_healthy l) (last_known_primary l) (last_recovery_state l)
    (last_known_master l).

(** [handle_check_result]; [original_up] is the second [check_database] *)
Definition handle_check_result (f : FailoverShim) (cur : string)
    (healthy original_up promoted : bool) (healthy_count : Z) (s : SharedState)
    : list effect * Z * SharedState :=
  let original_primary := primary f in
  if healthy then
    let s := s <| consecutive_failures := 0 |> in
    if bool_decide (state s = FailedOver) && bool_decide (cur ≠ original_primary) then
      let healthy_count := add32 healthy_count 1 in
      if (10 <=? healthy_count) && original_up then
        (post_if (webhook f) ("FAILOVER SHIM: Failing back to original primary " +:+ original_primary) ++
         emit_if (has_bus f) (FailoverCompleted original_primary) Notice,
         0, set_state Recovered (s <| current_primary := original_primary |>))
      else ([], healthy_count, s)
    else if bool_decide (state s = Suspect) || bool_decide (state s = FailingOver)
    then ([], 0, set_state Healthy s)
    else ([], 0, s)
  else
    let '(effects, s) := on_failure f cur promoted s in (effects, 0, s).

(** [patroni_check]; [psql] is the outcome of a query, run by the client program *)
Definition patroni_check (psql : string → result string string) : PatroniCheckResult :=
  match psql "SELECT pg_is_in_recovery()" with
  | Ok output =>
      let in_recovery := bool_decide (trim output = "t") in
      let max_lag :=
        if in_recovery then f64_of_Z 0
        else match psql "SELECT COALESCE(EXTRACT(EPOCH FROM replay_lag)::float, 0) FROM pg_stat_replication" with
             | Ok out =>
                 foldl (λ m line,
                   let trimmed := trim line in
                   if bool_decide (trimmed = "") || bool_decide (trimmed = "NULL") then m
                   else match parse_f64 trimmed with
                        | Some lag => if f64_gt lag m then lag else m
                        | None => m
                        end) (f64_of_Z 0) (split_on (ascii_of_N 10) out)
             | Err _ => f64_of_Z 0
             end in
      PatroniHealthy in_recovery max_lag
  | Err _ => PatroniUnreachable
  end.

(** [(secs * 1000.0) as u64] *)
Definition ms_of_secs (secs : f64) : Z := f64_to_u64 (f64_mul secs (f64_of_Z 1000)).
Definition lag_warning (bus : bool) (lag threshold : f64) : list effect :=
  if f64_gt lag threshold
  then emit_if bus (ReplicationLagWarning (ms_of_secs lag) (ms_of_secs threshold)) Warning
  else [].

(** The Patroni arm of the loop *)
Definition patroni_tick (f : FailoverShim) (cur : string) (r : PatroniCheckResult)
    (promoted : bool) (l : LoopState) (s : SharedState) : list effect * LoopState * SharedState :=
  match r with
  | PatroniHealthy in_recovery max_lag =>
      let s := s <| consecutive_failures := 0 |> in
      let role :=
        match last_recovery_state l with
        | Some prev =>
            if Bool.eqb prev in_recovery then []
            else emit_if (has_bus f)
                   (FailoverTriggered cur (if in_recovery then replica f else db_host f)) Notice
        | None => []
        end in
      let cur_role_host := if in_recovery then replica f else db_host f in
      let '(change, s) :=
        match last_known_primary l with
        | Some prev =>
            if bool_decide (prev = cur_role_host) then ([], s)
            else (emit_if (has_bus f) (FailoverCompleted cur_role_host) Notice,
                  s <| failover_count ::= λ n, add64 n 1 |>)
        | None => ([], s)
        end in
      (role ++ lag_warning (has_bus f) max_lag (lag_threshold_secs f) ++ change,
       l <| last_recovery_state := Some in_recovery |> <| last_known_primary := Some cur_role_host |>
         <| consecutive_primary_healthy := 0 |>,
       set_state Healthy s)
  | PatroniUnreachable =>
      let '(effects, s) := on_failure f cur promoted s in
      (effects, l <| consecutive_primary_healthy := 0 |>, s)
  end.

(** The Redis Sentinel arm of the loop *)
Definition sentinel_tick (f : FailoverShim) (cur : string) (r : RedisSentinelCheckResult)
    (promoted : bool) (l : LoopState) (s : SharedState) : list effect * LoopState * SharedState :=
  match r with
  | MasterInfo ip port =>
      let s := s <| consecutive_failures := 0 |> in
      let master_addr := ip +:+ ":" +:+ port in
      let '(change, s) :=
        match last_known_master l with
        | Some prev =>
            if bool_decide (prev = master_addr) then ([], s)
            else (emit_if (has_bus f) (FailoverCompleted master_addr) Notice,
                  s <| failover_count ::= λ n, add64 n 1 |>)
        | None => ([], s)
        end in
      (change, l <| last_known_master := Some master_addr |> <| consecutive_primary_healthy := 0 |>,
       set_state Healthy s)
  | SentinelUnreachable =>
      let '(effects, s) := on_failure f cur promoted s in
      (effects, l <| consecutive_primary_healthy := 0 |>, s)
  end.

(** What a tick learns: the check of the connector in use, whether the original
    primary answers, and whether a promotion would succeed *)
Record TickInput := mkTick {
  in_tcp : bool;
  in_patroni : PatroniCheckResult;
  in_sentinel : RedisSentinelCheckResult;
  in_original_up : bool;
  in_promoted : bool
}.

(** One tick of the loop [start] spawns *)
Definition tick (f : FailoverShim) (i : TickInput) (l : LoopState) (s : SharedState)
    : list effect * LoopState * SharedState :=
  let cur := current_primary s in
  match connector f with
  | Tcp =>
      let '(effects, n, s) :=
        handle_check_result f cur (in_tcp i) (in_original_up i) (in_promoted i)
          (consecutive_primary_healthy l) s in
      (effects, l <| consecutive_primary_healthy := n |>, s)
  | Patroni => patroni_tick f cur (in_patroni i) (in_promoted i) l s
  | RedisSentinel => sentinel_tick f cur (in_sentinel i) (in_promoted i) l s
  end.
Fixpoint ticks (f : FailoverShim) (ins : list TickInput) (l : LoopState) (s : SharedState)
    : list (list effect) * LoopState * SharedState :=
  match ins with
  | [] => ([], l, s)
  | i :: rest =>
      let '(e, l, s) := tick f i l s in
      let '(es, l, s) := ticks f rest l s in (e :: es, l, s)
  end.

(** [start], up to the spawn: the state after the first check *)
Definition start_check (reachable : bool) (s : SharedState) : SharedState :=
  if reachable then set_state Healthy s else s.

(** [metrics] *)
Definition failover_metrics (f : FailoverShim) : list (string * f64) :=
  [("failover_state", f64_of_Z (code_of (state (shared f))));
   ("failover_events_total", f64_of_Z (failover_count (shared f)));
   ("failover_consecutive_failures", f64_of_Z (consecutive_failures (shared f)))].

(** ** The stand-alone monitors *)

(** [PatroniMonitor] and [from_env] *)
Record PatroniMonitor := mkPatroniMonitor {
  pm_host : string; pm_port : string; pm_user : string; pm_password : string; pm_name : string;
  pm_interval_secs : Z; pm_lag_threshold : f64; pm_bus : bool }.
Definition patroni_from_env (env : environment) : PatroniMonitor :=
  mkPatroniMonitor (env_or env "FAILOVER_DB_HOST" "localhost") (env_or env "FAILOVER_DB_PORT" "5432")
    (env_or env "FAILOVER_DB_USER" "postgres") (env_or env "FAILOVER_DB_PASSWORD" "")
    (env_or env "FAILOVER_DB_NAME" "postgres")
    (env_parse env "FAILOVER_CHECK_INTERVAL_SECS" parse_u64 10)
    (env_parse env "FAILOVER_LAG_THRESHOLD_SECS" parse_f64 (f64_of_Z 30)) false.

(** One tick of [PatroniMonitor::start_loop] *)
Definition patroni_monitor_tick (m : PatroniMonitor) (r : PatroniCheckResult) (last : option bool)
    : list effect * option bool :=
  match r with
  | PatroniHealthy in_recovery max_lag =>
      let role :=
        match last with
        | Some prev =>
            if Bool.eqb prev in_recovery then []
            else emit_if (pm_bus m)
                   (FailoverTriggered (pm_host m) (if in_recovery then "replica" else pm_host m)) Notice
        | None => []
        end in
      (role ++ lag_warning (pm_bus m) max_lag (pm_lag_threshold m), Some in_recovery)
  | PatroniUnreachable =>
      (emit_if (pm_bus m) (FailoverTriggered (pm_host m) "unknown") Error, last)
  end.

(** [RedisSentinelMonitor] and [from_env] *)
Record RedisSentinelMonitor := mkSentinelMonitor {
  sm_url : string; sm_master : string; sm_interval_secs : Z; sm_bus : bool }.
Definition sentinel_from_env (env : environment) : RedisSentinelMonitor :=
  mkSentinelMonitor (env_or env "REDIS_SENTINEL_URL" "redis://localhost:26379")
    (env_or env "REDIS_SENTINEL_MASTER" "mymaster")
    (env_parse env "FAILOVER_CHECK_INTERVAL_SECS" parse_u64 5) false.

(** One tick of [RedisSentinelMonitor::start_loop] *)
Definition sentinel_monitor_tick (m : RedisSentinelMonitor) (r : RedisSentinelCheckResult)
    (last : option string) : list effect * option string :=
  match r with
  | MasterInfo ip port =>
      let master_addr := ip +:+ ":" +:+ port in
      (match last with
       | Some prev => if bool_decide (prev = master_addr) then []
                      else emit_if (sm_bus m) (FailoverCompleted master_addr) Notice
       | None => []
       end, Some master_addr)
  | SentinelUnreachable => ([], last)
  end.

(** ** Lemmas *)

Lemma state_set_state st s : state (set_state st s) = st.
Proof. by destruct st. Qed.

(** Did the check of the connector in use fail? *)
Definition down (f : FailoverShim) (i : TickInput) : bool :=
  match connector f with
  | Tcp => negb (in_tcp i)
  | Patroni => match in_patroni i with PatroniUnreachable => true | _ => false end
  | RedisSentinel => match in_sentinel i with SentinelUnreachable => true | _ => false end
  end.
(** A failover is announced: the event at severity [Error].  That at [Notice] is Patroni's
    report that the role of a host changed, with which the shim fails nothing over. *)
Definition is_failover (x : effect) : bool :=
  match x with Emit (FailoverTriggered _ _) Error => true | _ => false end.
Definition announced (e : list effect) : Prop := existsb is_failover e = true.

Lemma not_announced_notice ev b hook text :
  ¬ announced (post_if hook text ++ emit_if b ev Notice).
Proof.
  destruct hook, b, ev; done.
Qed.
Lemma trigger_announced hook o n p s : announced (trigger_failover true hook o n p s).1.
Proof.
  unfold announced, trigger_failover. destruct p, hook; done.
Qed.

(** A failing check *)
Lemma tick_down f i l s :
  down f i = true →
  let '(e, _, s') := tick f i l s in
  let failures := add32 (consecutive_failures s) 1 in
  if failure_threshold f <=? failures
  then (e, s') = trigger_failover (has_bus f) (webhook f) (current_primary s) (replica f)
                   (in_promoted i) (s <| consecutive_failures := failures |>)
  else e = [] ∧ s' = set_state Suspect (s <| consecutive_failures := failures |>).
Proof.
  intros Hd. unfold tick, down in *.
  destruct (connector f); [|destruct (in_patroni i)|destruct (in_sentinel i)]; try done;
    unfold handle_check_result, patroni_tick, sentinel_tick, on_failure.
  1: destruct (in_tcp i); [done|].
  all: destruct (_ <=? _); [destruct (trigger_failover _ _ _ _ _ _)|]; done.
Qed.

(** A check that succeeds *)
Lemma tick_up f i l s :
  down f i = false →
  let '(e, _, s') := tick f i l s in
  ¬ announced e ∧ consecutive_failures s' = 0 ∧
  (current_primary s' = current_primary s ∨ current_primary s' = primary f).
Proof.
  intros Hd. unfold tick, down in *. destruct (connector f).
  - unfold handle_check_result. cbv zeta. destruct (in_tcp i); [|done].
    destruct (bool_decide _ && bool_decide _);
      [destruct (_ && in_original_up i)|destruct (bool_decide _ || _)]; simpl; split_and!;
      try done; auto.
    apply not_announced_notice.
  - destruct (in_patroni i) as [r lag|]; [|done]. unfold patroni_tick.
    assert (∀ o, ¬ announced ((match last_recovery_state l with
       | Some prev => if Bool.eqb prev r then [] else emit_if (has_bus f) (FailoverTriggered (current_primary s) o) Notice
       | None => [] end) ++ lag_warning (has_bus f) lag (lag_threshold_secs f) ++
       (if has_bus f then [Emit (FailoverCompleted (if r then replica f else db_host f)) Notice] else [])) ∧
       ¬ announced ((match last_recovery_state l with
       | Some prev => if Bool.eqb prev r then [] else emit_if (has_bus f) (FailoverTriggered (current_primary s) o) Notice
       | None => [] end) ++ lag_warning (has_bus f) lag (lag_threshold_secs f) ++ [])) as Hna.
    { intros o. unfold lag_warning, emit_if.
      by destruct (has_bus f), (last_recovery_state l) as [prev|], (f64_gt _ _);
        try destruct (Bool.eqb _ _). }
    destruct (last_known_primary l) as [prev|]; [destruct (bool_decide _)|]; simpl; split_and!; try done;
      try apply Hna; auto.
  - destruct (in_sentinel i) as [ip port|]; [|done]. unfold sentinel_tick.
    destruct (last_known_master l) as [prev|]; [destruct (bool_decide _)|]; simpl; split_and!; try done;
      auto.
    apply (not_announced_notice _ _ None "").
Qed.

(** The loop, up to a tick *)
Lemma ticks_app f a b l s :
  ticks f (a ++ b) l s =
  let '(ea, l, s) := ticks f a l s in let '(eb, l, s) := ticks f b l s in (ea ++ eb, l, s).
Proof.
  revert l s. induction a as [|i a IH]; intros l s; simpl.
  { by destruct (ticks f b l s) as [[? ?] ?]. }
  destruct (tick f i l s) as [[e l1] s1]. rewrite IH.
  destruct (ticks f a l1 s1) as [[ea l2] s2]. by destruct (ticks f b l2 s2) as [[? ?] ?].
Qed.
Lemma length_ticks f ins l s : length (ticks f ins l s).1.1 = length ins.
Proof.
  revert l s. induction ins as [|i ins IH]; intros l s; simpl; [done|].
  destruct (tick f i l s) as [[e l1] s1]. specialize (IH l1 s1).
  destruct (ticks f ins l1 s1) as [[? ?] ?]. simpl in *. by rewrite IH.
Qed.
Lemma ticks_lookup f ins l s k i :
  ins !! k = Some i →
  let '(_, l1, s1) := ticks f (take k ins) l s in
  (ticks f ins l s).1.1 !! k = Some (tick f i l1 s1).1.1 ∧
  ticks f (take (S k) ins) l s =
    let '(es, _, _) := ticks f (take k ins) l s in
    (es ++ [(tick f i l1 s1).1.1], (tick f i l1 s1).1.2, (tick f i l1 s1).2).
Proof.
  intros Hk. rewrite (take_S_r _ _ _ Hk). pose proof (take_drop_middle _ _ _ Hk) as Hins.
  assert (ticks f ins l s = ticks f (take k ins ++ i :: drop (S k) ins) l s) as -> by (by rewrite Hins).
  rewrite !ticks_app. pose proof (length_ticks f (take k ins) l s) as Hlen.
  destruct (ticks f (take k ins) l s) as [[es l1] s1]. simpl in *.
  destruct (tick f i l1 s1) as [[e l2] s2]. split; [|done].
  destruct (ticks f (drop (S k) ins) l2 s2) as [[? ?] ?]. simpl.
  rewrite lookup_app_r by (rewrite Hlen, length_take; lia).
  rewrite Hlen, length_take_le by (apply lookup_lt_Some in Hk; lia). by rewrite Nat.sub_diag.
Qed.

(** The last [consecutive_failures] checks all failed. *)
Lemma failures_are_recent f ins l s :
  consecutive_failures s = 0 → Z.of_nat (length ins) < 2 ^ 32 →
  let '(_, _, s') := ticks f ins l s in
  0 ≤ consecutive_failures s' ≤ Z.of_nat (length ins) ∧
  ∀ j i, ins !! j = Some i → Z.of_nat (length ins) - consecutive_failures s' ≤ Z.of_nat j →
         down f i = true.
Proof.
  intros H0. induction ins as [|i ins IH] using rev_ind; intros Hlen; simpl.
  { split; [lia|]. intros j i Hj. by rewrite lookup_nil in Hj. }
  rewrite length_app in *. simpl in Hlen |- *. rewrite ticks_app. specialize (IH ltac:(lia)).
  destruct (ticks f ins l s) as [[es l1] s1]. destruct IH as [Hb Hr].
  assert (let '(_, _, s2) := tick f i l1 s1 in consecutive_failures s2 = 0 ∨
     down f i = true ∧ consecutive_failures s2 = consecutive_failures s1 + 1) as Hs2.
  { destruct (down f i) eqn:Hd.
    - pose proof (tick_down f i l1 s1 Hd) as Ht. destruct (tick f i l1 s1) as [[e l2] s2].
      simpl in Ht. rewrite add32_small in Ht by (unfold in_u; lia).
      destruct (_ <=? _); [|right; by destruct Ht as [_ ->]].
      unfold trigger_failover in Ht. destruct (in_promoted i); simplify_eq/=; auto.
    - pose proof (tick_up f i l1 s1 Hd) as Ht. destruct (tick f i l1 s1) as [[e l2] s2].
      left. apply Ht. }
  simpl. destruct (tick f i l1 s1) as [[e l2] s2].
  destruct Hs2 as [->|[Hd ->]]; (split; [lia|]); intros j x Hj Hle.
  - apply lookup_lt_Some in Hj. rewrite length_app in Hj. simpl in Hj. lia.
  - apply lookup_app_Some in Hj as [Hj|[Hge Hj]]; [apply (Hr j); [done|lia]|].
    by destruct (j - length ins)%nat as [|m]; simplify_eq/=.
Qed.

(** The current primary is always one of the two configured addresses. *)
Lemma tick_primary f i l s :
  current_primary (tick f i l s).2 ∈ [current_primary s; primary f; replica f].
Proof.
  destruct (down f i) eqn:Hd.
  - pose proof (tick_down f i l s Hd) as Ht. destruct (tick f i l s) as [[e l'] s'].
    simpl in *. destruct (_ <=? _).
    + unfold trigger_failover in Ht. destruct (in_promoted i); simplify_eq/=; set_solver.
    + destruct Ht as [_ ->]. simpl. set_solver.
  - pose proof (tick_up f i l s Hd) as Ht. destruct (tick f i l s) as [[e l'] s'].
    simpl. destruct Ht as (_ & _ & [-> | ->]); set_solver.
Qed.
Lemma ticks_primary f ins l s :
  current_primary s ∈ [primary f; replica f] →
  current_primary (ticks f ins l s).2 ∈ [primary f; replica f].
Proof.
  revert l s. induction ins as [|i ins IH]; intros l s Hs; simpl; [done|].
  pose proof (tick_primary f i l s) as Ht. destruct (tick f i l s) as [[e l1] s1].
  specialize (IH l1 s1). destruct (ticks f ins l1 s1) as [[? ?] s2]. simpl in *.
  apply IH. by apply elem_of_cons in Ht as [-> | Ht].
Qed.

(** Along failing checks that announce nothing, the counter goes up. *)
Lemma quiet_failures_count f ins l s :
  has_bus f = true → Z.of_nat (length ins) + consecutive_failures s < 2 ^ 32 →
  0 ≤ consecutive_failures s →
  Forall (λ i, down f i = true) ins → Forall (λ e, ¬ announced e) (ticks f ins l s).1.1 →
  consecutive_failures (ticks f ins l s).2 = consecutive_failures s + Z.of_nat (length ins) ∧
  (ins ≠ [] → consecutive_failures (ticks f ins l s).2 < failure_threshold f).
Proof.
  intros Hbus. revert l s. induction ins as [|i ins IH]; intros l s Hlen H0 Hd Hq; simpl; [by split; [lia|]|].
  apply Forall_cons in Hd as [Hi Hd]. pose proof (tick_down f i l s Hi) as Ht.
  simpl in Hlen, Hq. destruct (tick f i l s) as [[e l1] s1]. specialize (IH l1 s1).
  destruct (ticks f ins l1 s1) as [[es l2] s2] eqn:Hts. simpl in *.
  apply Forall_cons in Hq as [He Hq].
  rewrite add32_small in Ht by (unfold in_u; lia).
  destruct (Z.leb_spec (failure_threshold f) (consecutive_failures s + 1)) as [Hge|Hlt].
  { exfalso. apply He. rewrite Hbus in Ht.
    pose proof (trigger_announced (webhook f) (current_primary s) (replica f) (in_promoted i)
                  (s <| consecutive_failures := consecutive_failures s + 1 |>)) as Ha.
    simpl in Ha. rewrite <-Ht in Ha. exact Ha. }
  destruct Ht as [-> ->]. simpl in IH. destruct IH as [IH1 IH2]; [lia|lia|done|done|].
  split; [lia|]. intros _. destruct ins as [|i' ins'].
  - simpl in Hts. simplify_eq/=. lia.
  - by apply IH2.
Qed.

(** A tick that announces a failover ends a run of failing checks. *)
Lemma announced_after_failures f ins l s k e :
  Z.of_nat (length ins) < 2 ^ 32 → consecutive_failures s = 0 →
  (ticks f ins l s).1.1 !! k = Some e → announced e →
  failure_threshold f ≤ Z.of_nat k + 1 ∧
  ∀ j i, (j ≤ k)%nat → Z.of_nat k - failure_threshold f < Z.of_nat j → ins !! j = Some i →
         down f i = true.
Proof.
  intros Hlen H0 He Han.
  assert (k < length ins)%nat as Hk by (rewrite <-(length_ticks f ins l s); by eapply lookup_lt_Some).
  destruct (lookup_lt_is_Some_2 ins k Hk) as [i Hi]. pose proof (ticks_lookup f ins l s k i Hi) as Hlook.
  pose proof (failures_are_recent f (take k ins) l s H0) as Hrec.
  rewrite length_take_le in Hrec by lia. specialize (Hrec ltac:(lia)).
  destruct (ticks f (take k ins) l s) as [[ek lk] sk]. destruct Hlook as [He' _], Hrec as [Hb Hr].
  assert (e = (tick f i lk sk).1.1) as -> by congruence.
  assert (down f i = true ∧ failure_threshold f ≤ consecutive_failures sk + 1) as [Hd Hge].
  { destruct (down f i) eqn:Hd.
    - pose proof (tick_down f i lk sk Hd) as Ht. destruct (tick f i lk sk) as [[e2 l2] s2].
      cbv zeta in Ht. rewrite add32_small in Ht by (unfold in_u; lia).
      destruct (Z.leb_spec (failure_threshold f) (consecutive_failures sk + 1)); [done|].
      by destruct Ht as [-> _].
    - pose proof (tick_up f i lk sk Hd) as Ht. destruct (tick f i lk sk) as [[e2 l2] s2].
      simpl in Han. tauto. }
  split; [lia|]. intros j x Hjk Hj Hx. destruct (decide (j = k)) as [->|]; [congruence|].
  apply (Hr j); [by rewrite lookup_take_lt by lia|lia].
Qed.

(** A run of failing checks as long as the threshold announces one. *)
Lemma failures_announce f w l s :
  has_bus f = true → 1 ≤ failure_threshold f → 0 ≤ consecutive_failures s →
  Z.of_nat (length w) = failure_threshold f →
  Z.of_nat (length w) + consecutive_failures s < 2 ^ 32 → Forall (λ i, down f i = true) w →
  ∃ k e, (k < length w)%nat ∧ (ticks f w l s).1.1 !! k = Some e ∧ announced e.
Proof.
  intros Hbus HT H0 Hw Hlen Hd.
  destruct (decide (Exists (λ e, existsb is_failover e = true) (ticks f w l s).1.1)) as [Hq|Hq].
  - apply list.Exists_exists in Hq as (e & He & Hna). apply list_elem_of_lookup in He as [k Hk].
    exists k, e. pose proof (lookup_lt_Some _ _ _ Hk) as Hlt. by rewrite length_ticks in Hlt.
  - exfalso. apply Forall_Exists_neg in Hq.
    destruct (quiet_failures_count f w l s Hbus Hlen H0 Hd Hq) as [Hc Hlt].
    rewrite Hc in Hlt. assert (w ≠ []) as Hne by (intros ->; simpl in Hw; lia).
    specialize (Hlt Hne). lia.
Qed.

(** The effects of a window of ticks, within those of the run *)
Lemma ticks_window f ins l s a n k e :
  let '(_, la, sa) := ticks f (take a ins) l s in
  (a + n ≤ length ins)%nat → (k < n)%nat →
  (ticks f (take n (drop a ins)) la sa).1.1 !! k = Some e →
  (ticks f ins l s).1.1 !! (a + k)%nat = Some e.
Proof.
  pose proof (length_ticks f (take a ins) l s) as Hla.
  assert (ticks f ins l s = ticks f (take a ins ++ take n (drop a ins) ++ drop n (drop a ins)) l s) as ->
    by (by rewrite !take_drop).
  rewrite !ticks_app. destruct (ticks f (take a ins) l s) as [[ea la] sa]. intros Han Hk.
  rewrite ticks_app. destruct (ticks f (take n (drop a ins)) la sa) as [[ew lw] sw].
  destruct (ticks f (drop n (drop a ins)) lw sw) as [[ed ld] sd]. simpl in *. intros He.
  rewrite length_take_le in Hla by lia. rewrite lookup_app_r by lia.
  rewrite Hla. replace (a + k - a)%nat with k by lia. by apply lookup_app_l_Some.
Qed.

(** C5.  Failover happens at the threshold of consecutive failures, for each of
    the three connectors: a tick that announces a failover ends a run of at least
    [failure_threshold] failing checks; whenever [failure_threshold] checks in a
    row fail, one of them announces a failover; and the current primary is always
    the configured primary or the replica.  (To announce is to emit the event at
    severity [Error]; at [Notice] it only reports a change of roles under Patroni.  There
    is a bus to announce on, the threshold is not 0, the loop begins with no failures and
    the configured primary, and makes fewer than 2^32 ticks.) *)
Theorem failover_at_threshold f ins l s :
  has_bus f = true → 1 ≤ failure_threshold f → Z.of_nat (length ins) < 2 ^ 32 →
  consecutive_failures s = 0 → current_primary s = primary f →
  let '(es, _, s') := ticks f ins l s in
  (∀ k e, es !! k = Some e → announced e →
     failure_threshold f ≤ Z.of_nat k + 1 ∧
     ∀ j i, (j ≤ k)%nat → Z.of_nat k - failure_threshold f < Z.of_nat j → ins !! j = Some i →
            down f i = true) ∧
  (∀ a, (a + Z.to_nat (failure_threshold f) ≤ length ins)%nat →
     Forall (λ i, down f i = true) (take (Z.to_nat (failure_threshold f)) (drop a ins)) →
     ∃ k e, (a ≤ k < a + Z.to_nat (failure_threshold f))%nat ∧ es !! k = Some e ∧ announced e) ∧
  (current_primary s' = primary f ∨ current_primary s' = replica f).
Proof.
  intros Hbus HT Hlen H0 Hcp. pose proof (ticks_primary f ins l s) as Hprim.
  pose proof (λ k e, announced_after_failures f ins l s k e Hlen H0) as Hsafe.
  pose proof (λ a, ticks_window f ins l s a (Z.to_nat (failure_threshold f))) as Hwin.
  destruct (ticks f ins l s) as [[es l'] s'] eqn:Hrun. simpl in *. split_and!; [by apply Hsafe| |].
  - intros a Ha Hall. specialize (Hwin a).
    pose proof (failures_are_recent f (take a ins) l s H0) as Hrec.
    rewrite length_take_le in Hrec by lia. specialize (Hrec ltac:(lia)).
    destruct (ticks f (take a ins) l s) as [[ea la] sa]. destruct Hrec as [Hb _].
    assert (length (take (Z.to_nat (failure_threshold f)) (drop a ins)) =
            Z.to_nat (failure_threshold f)) as Hw by (rewrite length_take_le; [done|rewrite length_drop; lia]).
    destruct (failures_announce f (take (Z.to_nat (failure_threshold f)) (drop a ins)) la sa)
      as (k & e & Hk & He & Hna); try done; try lia.
    exists (a + k)%nat, e. split; [lia|]. split; [|done]. apply Hwin; [done|lia|done].
  - rewrite Hcp in Hprim. specialize (Hprim ltac:(constructor)).
    apply elem_of_cons in Hprim as [?|?%list_elem_of_singleton]; auto.
Qed.

(** ** Failback (the TCP connector) *)

(** What a tick of healthy checks does while the replica serves *)
Lemma tick_failed_over f i l s :
  connector f = Tcp → in_tcp i = true → state s = FailedOver → current_primary s ≠ primary f →
  let n := add32 (consecutive_primary_healthy l) 1 in
  let '(_, l', s') := tick f i l s in
  if (10 <=? n) && in_original_up i
  then state s' = Recovered ∧ current_primary s' = primary f ∧ consecutive_primary_healthy l' = 0
  else state s' = FailedOver ∧ current_primary s' = current_primary s ∧
       consecutive_primary_healthy l' = n.
Proof.
  intros Hc Hi Hst Hne. unfold tick, handle_check_result. rewrite Hc, Hi.
  change (state (s <| consecutive_failures := 0 |>)) with (state s).
  rewrite Hst, bool_decide_eq_true_2, bool_decide_eq_true_2 by done. simpl.
  by destruct (_ && _).
Qed.

(** Failback comes after ten healthy checks of the promoted replica: while
    every check succeeds after a failover, the replica keeps serving as long as
    fewer than ten checks have been counted or the original primary does not
    answer, and the first check from the tenth on at which it does answer hands the
    service back to it. *)
Theorem failback_after_ten f ins i l s :
  connector f = Tcp → state s = FailedOver → current_primary s ≠ primary f →
  consecutive_primary_healthy l = 0 → Z.of_nat (length ins) < 2 ^ 32 - 1 →
  Forall (λ i, in_tcp i = true) (ins ++ [i]) →
  (∀ k j, (9 ≤ k)%nat → ins !! k = Some j → in_original_up j = false) →
  let '(_, l1, s1) := ticks f ins l s in
  let '(_, l2, s2) := tick f i l1 s1 in
  state s1 = FailedOver ∧ current_primary s1 = current_primary s ∧
  if bool_decide (9 ≤ length ins)%nat && in_original_up i
  then state s2 = Recovered ∧ current_primary s2 = primary f
  else state s2 = FailedOver ∧ current_primary s2 = current_primary s.
Proof.
  intros Hc Hst Hne H0 Hlen Hup Horig. apply Forall_app in Hup as [Hup Hi]. rewrite Forall_singleton in Hi.
  assert (let '(_, l1, s1) := ticks f ins l s in state s1 = FailedOver ∧
    current_primary s1 = current_primary s ∧
    consecutive_primary_healthy l1 = Z.of_nat (length ins)) as Hrun.
  { clear Hi. induction ins as [|j ins IH] using rev_ind; [done|].
    rewrite length_app in *. simpl in Hlen |- *. rewrite ticks_app.
    apply Forall_app in Hup as [Hup Hj]. rewrite Forall_singleton in Hj.
    assert (∀ k j, (9 ≤ k)%nat → ins !! k = Some j → in_original_up j = false) as Ho.
    { intros k j' Hk Hkj. apply (Horig k); [done|]. by apply lookup_app_l_Some. }
    specialize (IH ltac:(lia) Hup Ho).
    destruct (ticks f ins l s) as [[es l1] s1]. destruct IH as (Hst1 & Hcp1 & Hn1). simpl.
    pose proof (tick_failed_over f j l1 s1 Hc Hj Hst1) as Ht. rewrite Hcp1, Hn1 in Ht. specialize (Ht Hne). cbv zeta in Ht.
    rewrite add32_small in Ht by (unfold in_u; lia).
    destruct (tick f j l1 s1) as [[e l2] s2].
    destruct ((10 <=? _) && _) eqn:E.
    - exfalso. bool_prop. assert (in_original_up j = false); [|congruence].
      apply (Horig (length ins)); [lia|]. by rewrite lookup_app_r, Nat.sub_diag by lia.
    - destruct Ht as (? & ? & ->). split_and!; [done..|lia]. }
  destruct (ticks f ins l s) as [[es l1] s1]. destruct Hrun as (Hst1 & Hcp1 & Hn1).
  pose proof (tick_failed_over f i l1 s1 Hc Hi Hst1) as Ht. rewrite Hcp1, Hn1 in Ht. specialize (Ht Hne). cbv zeta in Ht.
  rewrite add32_small in Ht by (unfold in_u; lia).
  destruct (tick f i l1 s1) as [[e l2] s2]. split_and!; [done..|].
  destruct (decide (9 ≤ length ins)%nat) as [Hge|Hlt].
  - rewrite bool_decide_eq_true_2 by done. rewrite (proj2 (Z.leb_le _ _)) in Ht by lia.
    simpl in *. by destruct (in_original_up i); destruct Ht as (? & ? & ?).
  - rewrite bool_decide_eq_false_2 by done. rewrite (proj2 (Z.leb_gt _ _)) in Ht by lia.
    simpl in *. by destruct Ht as (? & ? & ?).
Qed.

(** One failed check after a failover disables the failback: with a threshold
    above one, the state goes to [Suspect] and back to [Healthy] with the replica
    still serving, and from then on no number of healthy checks, of the replica or
    of the original primary, changes the current primary. *)
Theorem blip_disables_failback f blip ins l s :
  connector f = Tcp → 2 ≤ failure_threshold f → state s = FailedOver →
  consecutive_failures s = 0 → current_primary s ≠ primary f → in_tcp blip = false →
  Forall (λ i, in_tcp i = true) ins → ins ≠ [] →
  let '(_, _, s') := ticks f (blip :: ins) l s in
  state s' = Healthy ∧ current_primary s' = current_primary s.
Proof.
  intros Hc HT Hst H0 Hne Hb Hup Hnil.
  assert (∀ l s, state s ≠ FailedOver →
    let '(_, l', s') := ticks f ins l s in
    (state s = Healthy ∨ (state s = Suspect ∧ ins ≠ [])) →
    state s' = Healthy ∧ current_primary s' = current_primary s) as Hhealthy.
  { clear Hnil. induction Hup as [|i ins Hi Hup IH]; intros l0 s0 Hs0; simpl.
    { intros [?|[_ ?]]; done. }
    assert (tick f i l0 s0 = ([], l0 <| consecutive_primary_healthy := 0 |>,
      if bool_decide (state s0 = Suspect) || bool_decide (state s0 = FailingOver)
      then set_state Healthy (s0 <| consecutive_failures := 0 |>)
      else s0 <| consecutive_failures := 0 |>)) as ->.
    { unfold tick, handle_check_result. rewrite Hc, Hi.
      change (state (s0 <| consecutive_failures := 0 |>)) with (state s0).
      rewrite (bool_decide_eq_false_2 (state s0 = FailedOver)) by done. simpl.
      by destruct (bool_decide _ || _). }
    match goal with |- context [ticks f ins ?l ?x] => set (s1 := x); specialize (IH l s1) end.
    destruct (ticks f ins _ s1) as [[es l2] s2]. intros Hcase.
    assert (state s1 = Healthy ∧ current_primary s1 = current_primary s0) as [H1 <-].
    { unfold s1. destruct Hcase as [Hh|[Hh _]]; rewrite Hh; done. }
    apply IH; [by rewrite H1|by left]. }
  simpl. pose proof (tick_down f blip l s) as Ht. unfold down in Ht. rewrite Hc, Hb in Ht.
  specialize (Ht eq_refl). destruct (tick f blip l s) as [[e l1] s1]. cbv zeta in Ht.
  rewrite H0 in Ht. change (add32 0 1) with 1 in Ht.
  rewrite (proj2 (Z.leb_gt _ _)) in Ht by lia. destruct Ht as [_ ->].
  specialize (Hhealthy l1 (set_state Suspect (s <| consecutive_failures := 1 |>))).
  destruct (ticks f ins l1 _) as [[es l2] s2]. apply Hhealthy; [done|by right].
Qed.
End failover.

(** ** Concrete runs *)

Section failover_runs.
#[local] Instance failover_external : External := demo_external.

Definition up_tick : TickInput := mkTick true PatroniUnreachable SentinelUnreachable true true.
Definition down_tick : TickInput := mkTick false PatroniUnreachable SentinelUnreachable false true.
Definition demo_shim : FailoverShim := (new_failover ∅) <| has_bus := true |>.
Definition fresh : SharedState := new_shared <| current_primary := primary demo_shim |>.
(** After a failover: the replica serves. *)
Definition failed_over : SharedState := mkShared 0 1 (code_of FailedOver) (replica demo_shim).

Lemma failover_at_threshold_witness :
  let '(es, _, s) := ticks demo_shim [up_tick; down_tick; down_tick; down_tick] new_loop fresh in
  (∃ k e, (1 ≤ k < 4)%nat ∧ es !! k = Some e ∧ announced e) ∧
  (current_primary s = primary demo_shim ∨ current_primary s = replica demo_shim).
Proof.
  pose proof (failover_at_threshold demo_shim [up_tick; down_tick; down_tick; down_tick] new_loop fresh) as H.
  destruct (ticks _ _ _ _) as [[es l] s]. destruct H as (_ & H2 & H3).
  - reflexivity.
  - vm_compute. congruence.
  - vm_compute. congruence.
  - reflexivity.
  - reflexivity.
  - split; [|exact H3]. apply (H2 1%nat); [vm_compute; lia|]. repeat constructor.
Defined.

Lemma failback_after_ten_witness :
  current_primary (ticks demo_shim (replicate 10 up_tick) new_loop failed_over).2 = primary demo_shim.
Proof.
  pose proof (failback_after_ten demo_shim (replicate 9 up_tick) up_tick new_loop failed_over) as H.
  change (replicate 10 up_tick) with (replicate 9 up_tick ++ [up_tick]).
  rewrite ticks_app. destruct (ticks _ (replicate 9 up_tick) _ _) as [[es l1] s1]. simpl.
  destruct (tick demo_shim up_tick l1 s1) as [[e l2] s2]. simpl.
  destruct H as (_ & _ & H).
  - reflexivity.
  - reflexivity.
  - vm_compute. congruence.
  - reflexivity.
  - vm_compute. congruence.
  - repeat constructor.
  - intros k j Hk Hj. apply lookup_lt_Some in Hj. rewrite length_replicate in Hj. lia.
  - exact (proj2 H).
Defined.

Lemma blip_disables_failback_witness :
  current_primary (ticks demo_shim (down_tick :: replicate 20 up_tick) new_loop failed_over).2 =
  replica demo_shim.
Proof.
  pose proof (blip_disables_failback demo_shim down_tick (replicate 20 up_tick) new_loop failed_over) as H.
  destruct (ticks _ _ _ _) as [[es l] s]. refine (proj2 (H _ _ _ _ _ _ _ _)).
  - reflexivity.
  - vm_compute. congruence.
  - reflexivity.
  - reflexivity.
  - vm_compute. congruence.
  - reflexivity.
  - repeat constructor.
  - discriminate.
Defined.
End failover_runs.
