(* ===== verification/FailoverIo.v ===== *)
(** * The checks of the failover shim ([failover-shim/src/lib.rs])

    The connection test, the [psql] command and the Sentinel query that give the inputs of
    a tick of [Failover.v], over the network, child processes and the Redis client, which
    are inputs; the TCP loop with its own checks; the stand-alone monitors. *)

From S2P Require Import Prelude Text Net Commands Events Failover.

(** [FailoverEvent] *)
Record FailoverEvent := mkFailoverEvent { fe_event : string; old_primary : string; new_primary : string; fe_timestamp : string; fe_reason : string }.

(** ** [check_database]

    [connect]: whether a connection is made within three seconds. *)
Definition check_database (connect : SocketAddr → bool) (addr : string) : bool :=
  match parse_socket_addr addr with None => false | Some a => connect a end.

(** ** [run_psql] *)

Definition psql_command (host port user password dbname query : string) : Command :=
  mkCommand "psql" ["-h"; host; "-p"; port; "-U"; user; "-d"; dbname; "-t"; "-A"; "-F"; "|"; "-c"; query]
    (if bool_decide (password = "") then [] else [("PGPASSWORD", password)]).
Definition run_psql (run : runner) (host port user password dbname query : string) : result string string :=
  match run (psql_command host port user password dbname query) with
  | Err e => Err ("Failed to execute psql: " +:+ e)
  | Ok out => if exit_ok out then Ok (trim (stdout out)) else Err ("psql error: " +:+ trim (stderr out))
  end.
(** [patroni_check], with its commands; a third query, on the start of the server, is made
    and not looked at. *)
Definition patroni_check_of (run : runner) (f : FailoverShim) : PatroniCheckResult :=
  patroni_check (run_psql run (db_host f) (db_port f) (db_user f) (db_password f) (db_name f)).

(** ** [redis_sentinel_check]

    Whether the URL is one, whether a connection is made, and the answer to
    [SENTINEL get-master-addr-by-name]. *)
Definition redis_sentinel_check (opened connected : bool) (query : string → option (string * Z)) (master_name : string)
    : RedisSentinelCheckResult :=
  if opened then
    if connected then
      match query master_name with
      | Some (ip, port) => MasterInfo ip (pretty (Z.to_N port))
      | None => SentinelUnreachable
      end
    else SentinelUnreachable
  else SentinelUnreachable.

(** ** The monitors *)

Definition new_patroni_monitor (host port user password name : string) (interval : Z) (lag : f64) : PatroniMonitor :=
  mkPatroniMonitor host port user password name interval lag false.
Definition patroni_monitor_set_bus (m : PatroniMonitor) : PatroniMonitor :=
  mkPatroniMonitor (pm_host m) (pm_port m) (pm_user m) (pm_password m) (pm_name m) (pm_interval_secs m) (pm_lag_threshold m) true.
Definition patroni_monitor_check (run : runner) (m : PatroniMonitor) : PatroniCheckResult :=
  patroni_check (run_psql run (pm_host m) (pm_port m) (pm_user m) (pm_password m) (pm_name m)).
Definition new_sentinel_monitor (url master : string) (interval : Z) : RedisSentinelMonitor :=
  mkSentinelMonitor url master interval false.
Definition sentinel_monitor_set_bus (m : RedisSentinelMonitor) : RedisSentinelMonitor :=
  mkSentinelMonitor (sm_url m) (sm_master m) (sm_interval_secs m) true.
Definition sentinel_monitor_check (opened connected : bool) (query : string → option (string * Z)) (m : RedisSentinelMonitor)
    : RedisSentinelCheckResult := redis_sentinel_check opened connected query (sm_master m).

(** A check of the recovery state says a replica exactly when the first query answers [t];
    a client program that cannot be run, or that fails, says unreachable. *)
Lemma patroni_check_unreachable run f :
  patroni_check_of run f = PatroniUnreachable ↔
  ∀ out, run (psql_command (db_host f) (db_port f) (db_user f) (db_password f) (db_name f) "SELECT pg_is_in_recovery()") = Ok out →
    exit_ok out = false.
Proof.
  unfold patroni_check_of, patroni_check. unfold run_psql at 1. destruct (run _) as [out|e]; [|split; [by intros|done]].
  destruct (exit_ok out) eqn:E; split; try done.
  - intros H. specialize (H out eq_refl). congruence.
  - intros _ out' [= <-]. done.
Qed.

(** ** The TCP loop with its own checks *)

Section tcp.
Context `{EX : External}.

(** A tick on a network, with the outcome of a promotion *)
Definition tcp_input (connect : SocketAddr → bool) (promoted : bool) (f : FailoverShim) (s : SharedState) : TickInput :=
  mkTick (check_database connect (current_primary s)) PatroniUnreachable SentinelUnreachable
    (check_database connect (primary f)) promoted.
Fixpoint tcp_ticks (f : FailoverShim) (net : list ((SocketAddr → bool) * bool)) (l : LoopState) (s : SharedState)
    : list (list effect) * LoopState * SharedState :=
  match net with
  | [] => ([], l, s)
  | (connect, promoted) :: net =>
      let '(e, l, s) := tick f (tcp_input connect promoted f s) l s in
      let '(es, l, s) := tcp_ticks f net l s in (e :: es, l, s)
  end.
(** One tick while the primary has no address *)
Lemma named_tick f connect promoted l s :
  connector f = Tcp → parse_socket_addr (primary f) = None → current_primary s = primary f →
  ∃ l', tick f (tcp_input connect promoted f s) l s =
    (let '(e, s') := on_failure f (primary f) promoted s in (e, l', s')).
Proof.
  intros Hc Hp Hs. unfold tick, tcp_input. rewrite Hc. simpl. unfold check_database at 1. rewrite Hs, Hp. unfold handle_check_result.
  destruct (on_failure f (primary f) promoted s) as [e s']. eauto.
Qed.
Lemma named_suspects f net : ∀ l s,
  connector f = Tcp → parse_socket_addr (primary f) = None → current_primary s = primary f → 0 ≤ consecutive_failures s →
  consecutive_failures s + Z.of_nat (length net) < failure_threshold f → failure_threshold f < 2 ^ 32 →
  ∃ l' s', tcp_ticks f net l s = (replicate (length net) [], l', s') ∧ current_primary s' = primary f ∧
    consecutive_failures s' = consecutive_failures s + Z.of_nat (length net).
Proof.
  induction net as [|[connect promoted] net IH]; intros l s Hc Hp Hs H0 Hlt H32; simpl.
  { exists l, s. rewrite Z.add_0_r. done. }
  simpl in Hlt. destruct (named_tick f connect promoted l s Hc Hp Hs) as [l1 ->]. unfold on_failure.
  rewrite add32_small by (unfold in_u; lia). cbv zeta. rewrite (proj2 (Z.leb_gt _ _)) by lia.
  destruct (IH l1 (set_state Suspect (s <| consecutive_failures := consecutive_failures s + 1 |>))) as (l' & s' & E & E1 & E2);
    [done|done|done|simpl; lia|simpl; lia|done|].
  rewrite E. exists l', s'. split; [done|]. split; [done|]. rewrite E2. simpl. lia.
Qed.
(** The replica, once it is the primary, remains it: the original primary is never seen up,
    and a failover from the replica goes to the replica. *)
Lemma tcp_ticks_replica f later : ∀ l s,
  connector f = Tcp → parse_socket_addr (primary f) = None → current_primary s = replica f →
  current_primary (tcp_ticks f later l s).2 = replica f.
Proof.
  induction later as [|[connect promoted] later IH]; intros l s Hc Hp Hs; [done|]. simpl.
  assert (current_primary (tick f (tcp_input connect promoted f s) l s).2 = replica f) as Ht.
  { unfold tick, tcp_input, handle_check_result, on_failure, trigger_failover. rewrite Hc. simpl.
    unfold check_database at 2. rewrite Hp, andb_false_r. by repeat case_match; simplify_eq/=. }
  destruct (tick f _ l s) as [[e l1] s1]. simpl in Ht. specialize (IH l1 s1 Hc Hp Ht).
  by destruct (tcp_ticks f later l1 s1) as [[es l2] s2].
Qed.
(** C24. A primary that is given by name is failed over, however well it is: with the TCP
    connector, a bus to announce on, and a primary that is not an IP address and a port,
    the loop announces a failover at the check number [failure_threshold] and not
    before, on every network, also one on which every connection succeeds; when the
    promotion fails the primary stays the current one and the failover is not over; when
    it succeeds the replica is the primary, and remains it on whatever network follows. *)
Theorem named_primary_fails_over f net connect promoted l s :
  connector f = Tcp → has_bus f = true → parse_socket_addr (primary f) = None →
  1 ≤ failure_threshold f < 2 ^ 32 → consecutive_failures s = 0 → current_primary s = primary f →
  Z.of_nat (length net) + 1 = failure_threshold f →
  ∃ e l' s', tcp_ticks f (net ++ [(connect, promoted)]) l s = (replicate (length net) [] ++ [e], l', s') ∧ announced e ∧
    current_primary s' = (if promoted then replica f else primary f) ∧
    state s' = (if promoted then FailedOver else FailingOver) ∧
    (promoted = true → ∀ later, current_primary (tcp_ticks f later l' s').2 = replica f).
Proof.
  intros Hc Hb Hp HT H0 Hs Hn.
  destruct (named_suspects f net l s) as (l1 & s1 & E & E1 & E2); [done|done|done|lia|lia|lia|].
  assert (∀ net l s, tcp_ticks f (net ++ [(connect, promoted)]) l s =
    let '(es, l1, s1) := tcp_ticks f net l s in
    let '(e, l2, s2) := tick f (tcp_input connect promoted f s1) l1 s1 in (es ++ [e], l2, s2)) as Happ.
  { clear. induction net as [|[c p] net IH]; intros l s; simpl; [by destruct (tick _ _ l s) as [[]]|].
    destruct (tick f _ l s) as [[e0 l0] s0]. rewrite IH. destruct (tcp_ticks f net l0 s0) as [[es l1] s1].
    by destruct (tick f _ l1 s1) as [[]]. }
  rewrite Happ, E. destruct (named_tick f connect promoted l1 s1 Hc Hp E1) as [l2 ->]. unfold on_failure.
  rewrite E2, H0, add32_small by (unfold in_u; lia). cbv zeta. rewrite (proj2 (Z.leb_le _ _)) by lia.
  unfold trigger_failover. rewrite Hb. destruct promoted.
  - eexists _, _, _. split; [done|]. split_and!; [|done|done|by intros _ later; apply tcp_ticks_replica].
    unfold announced. by destruct (webhook f).
  - eexists _, _, _. split; [done|]. split_and!; [|done..]. unfold announced. by destruct (webhook f).
Qed.
End tcp.

(** ** Runs *)

Section failover_io_runs.
#[local] Instance failover_io_external : External := demo_external.
Example demo_connection_test :
  check_database (λ _, true) "10.0.0.1:5432" = true ∧ check_database (λ _, true) "db-primary:5432" = false ∧
  check_database (λ _, true) "" = false.
Proof. vm_compute. done. Qed.
Example demo_psql :
  let run c := if bool_decide (program c = "psql" ∧ envs c = [("PGPASSWORD", "s")]) then Ok (mkOutput true (" t" +:+ String newline "") "") else Err "no" in
  run_psql run "h" "5432" "u" "s" "d" "SELECT 1" = Ok "t" ∧ run_psql run "h" "5432" "u" "" "d" "SELECT 1" = Err "Failed to execute psql: no".
Proof. vm_compute. done. Qed.
Definition named_shim : FailoverShim := (new_failover {[ "FAILOVER_PRIMARY" := "db-primary:5432"; "FAILOVER_REPLICA" := "db-replica:5432" ]}) <| has_bus := true |>.
Definition named_start : SharedState := new_shared <| current_primary := primary named_shim |>.
Lemma named_primary_fails_over_witness :
  ∃ e l' s', tcp_ticks named_shim [(λ _, true, true); (λ _, true, true); (λ _, true, true)] new_loop named_start = ([[]; []; e], l', s') ∧
    current_primary s' = "db-replica:5432".
Proof.
  assert (parse_socket_addr (primary named_shim) = None) as H1 by (vm_compute; reflexivity).
  assert (1 ≤ failure_threshold named_shim < 2 ^ 32) as H2 by (split; vm_compute; congruence).
  assert (Z.of_nat (length [(λ _ : SocketAddr, true, true); (λ _, true, true)]) + 1 = failure_threshold named_shim) as H3 by (vm_compute; reflexivity).
  destruct (named_primary_fails_over named_shim [(λ _, true, true); (λ _, true, true)] (λ _, true) true new_loop named_start
              eq_refl eq_refl H1 H2 eq_refl eq_refl H3) as (e & l' & s' & E & _ & Hp & _).
  exists e, l', s'. split; [exact E|exact Hp].
Defined.
End failover_io_runs.
