(* ===== verification/MultiCluster.v ===== *)
(** * Failover between clusters ([failover-shim/src/lib.rs], the second half)

    [MultiClusterMonitor]: the health of several clusters, the choice of a cluster
    to promote, and the background loop, which works on a snapshot of its own. *)

From S2P Require Import Prelude Events Failover.

(** [ClusterStatus] and [as_f64] *)
Inductive ClusterStatus := ClHealthy | Degraded | ClFailed | Unknown.
#[export] Instance ClusterStatus_eq_dec : EqDecision ClusterStatus.
Proof. solve_decision. Defined.
Definition status_as_f64 (s : ClusterStatus) : f64 :=
  f64_of_Z (match s with ClHealthy => 0 | Degraded => 1 | ClFailed => 2 | Unknown => 3 end).

(** [MultiClusterFailoverStrategy] and its [Display] *)
Inductive Strategy := Sequential | LatencyBased | WeightedRandom.
Definition strategy_display (s : Strategy) : string :=
  match s with Sequential => "sequential" | LatencyBased => "latency" | WeightedRandom => "weighted" end.

(** [ClusterHealth] and [ClusterHealth::new] *)
Record ClusterHealth := mkCluster {
  name : string;
  endpoints : list string;
  status : ClusterStatus;
  last_check : Z;
  replication_lag_ms : option Z;
  latency_ms : option Z;
  cl_failures : Z
}.
#[export] Instance ClusterHealth_settable : Settable ClusterHealth := λ c,
  mkCluster (name c) (endpoints c) (status c) (last_check c) (replication_lag_ms c)
    (latency_ms c) (cl_failures c).
Definition new_cluster (n : string) (eps : list string) (now : Z) : ClusterHealth :=
  mkCluster n eps Unknown now None None 0.

(** [MultiClusterMonitor], less bus handle and shutdown channel *)
Record MultiClusterMonitor := mkMonitor {
  clusters : gmap string ClusterHealth;
  primary_cluster : string;
  failover_strategy : Strategy;
  cross_cluster_check_interval_secs : Z;
  mc_threshold : Z;
  mc_webhook : option string;
  mc_bus : bool;
  promotions_total : Z;
  mc_current_primary : string
}.
#[export] Instance MultiClusterMonitor_settable : Settable MultiClusterMonitor := λ m,
  mkMonitor (clusters m) (primary_cluster m) (failover_strategy m)
    (cross_cluster_check_interval_secs m) (mc_threshold m) (mc_webhook m) (mc_bus m)
    (promotions_total m) (mc_current_primary m).

(** [parse_clusters]: [name:host:port] triples; a name that comes again adds an
    endpoint to its cluster. *)
Definition parse_triple (now : Z) (m : gmap string ClusterHealth) (triple : string)
    : gmap string ClusterHealth :=
  let triple := trim triple in
  if bool_decide (triple = "") then m
  else match split_on ":"%char triple with
       | n :: host :: port :: _ =>
           let endpoint := host +:+ ":" +:+ port in
           let c := default (new_cluster n [] now) (m !! n) in
           <[n := c <| endpoints ::= λ l, l ++ [endpoint] |>]> m
       | _ => m
       end.
Definition parse_clusters (spec : string) (now : Z) : gmap string ClusterHealth :=
  foldl (parse_triple now) ∅ (split_on ","%char spec).

Section multi_cluster.
Context `{EX : External} `{HO : HashOrder}.

(** [from_env] and [new] *)
Definition from_env (env : environment) (now : Z) : MultiClusterMonitor :=
  let cs := parse_clusters (env_or env "FAILOVER_CLUSTERS" "") now in
  let s := env_or env "FAILOVER_STRATEGY" "sequential" in
  {| clusters := cs;
     primary_cluster :=
       env_or env "FAILOVER_PRIMARY" (default "primary" (head (hash_keys cs)));
     failover_strategy := if bool_decide (s = "latency") then LatencyBased
                          else if bool_decide (s = "weighted") then WeightedRandom
                          else Sequential;
     cross_cluster_check_interval_secs := env_parse env "FAILOVER_CROSS_CHECK_SECS" parse_u64 10;
     mc_threshold := env_parse env "FAILOVER_FAILURE_THRESHOLD" parse_u32 3;
     mc_webhook := env !! "FAILOVER_WEBHOOK";
     mc_bus := false;
     promotions_total := 0;
     mc_current_primary := "" |}.
Definition set_bus (m : MultiClusterMonitor) : MultiClusterMonitor := m <| mc_bus := true |>.
Definition new_monitor (cs : gmap string ClusterHealth) (p : string) (s : Strategy)
    (interval threshold : Z) (hook : option string) : MultiClusterMonitor :=
  mkMonitor cs p s interval threshold hook false 0 p.

(** ** One round of checks *)

(** The endpoints that answered; [probe k] is the outcome for the [k]-th: whether a
    connection was made, and the milliseconds it took *)
Definition reached (probe : nat → bool * Z) (eps : list string) : list nat :=
  filter (λ k, (probe k).1 = true) (seq 0 (length eps)).

(** The body of [check_all_clusters]'s loop for one cluster *)
Definition check_cluster (threshold : Z) (probe : nat → bool * Z) (now : Z) (c : ClusterHealth)
    : ClusterHealth :=
  let total := wrap 32 (Z.of_nat (length (endpoints c))) in
  let reachable := wrap 32 (Z.of_nat (length (reached probe (endpoints c)))) in
  let total_latency := wrap 64 (sum_list_Z (λ k, (probe k).2) (reached probe (endpoints c))) in
  let c := c <| last_check := now |>
             <| latency_ms := if 0 <? reachable then Some (total_latency / reachable) else None |> in
  if reachable =? total then c <| status := ClHealthy |> <| cl_failures := 0 |>
  else if 0 <? reachable then c <| status := Degraded |> <| cl_failures := 0 |>
  else
    let failures := add32 (cl_failures c) 1 in
    c <| cl_failures := failures |>
      <| status := if threshold <=? failures then ClFailed else Degraded |>.

(** [check_all_clusters]: each entry is updated on its own, so the order in which
    [values_mut] visits them does not show. *)
Definition check_all_clusters (probe : string → nat → bool * Z) (now : string → Z)
    (m : MultiClusterMonitor) : MultiClusterMonitor :=
  m <| clusters ::= map_imap (λ n c, Some (check_cluster (mc_threshold m) (probe n) (now n) c)) |>.

(** ** Choosing a cluster *)

Definition candidates (m : MultiClusterMonitor) : list (string * ClusterHealth) :=
  filter (λ nc, nc.1 ≠ primary_cluster m ∧ status nc.2 = ClHealthy) (hash_iter (clusters m)).

(** The cumulative search of the weighted strategies *)
Fixpoint weighted_pick (target cumulative : f64) (scored : list (string * f64)) : option string :=
  match scored with
  | [] => None
  | (n, score) :: r =>
      let cumulative := f64_add cumulative score in
      if f64_le target cumulative then Some n else weighted_pick target cumulative r
  end.
Definition last_name {A} (l : list (string * A)) : option string := fst <$> last l.
Definition sum_f64 (l : list f64) : f64 := foldl f64_add (f64_of_Z 0) l.
(** [(rng_val as f64 % (total_score * 1e9)) / 1e9] *)
Definition weighted_target (rng_val : Z) (total : f64) : f64 :=
  f64_div (f64_rem (f64_of_Z rng_val) (f64_mul total (f64_of_Z (10 ^ 9)))) (f64_of_Z (10 ^ 9)).
Definition latency_score (default_ms : Z) (lat : option Z) : f64 :=
  f64_div (f64_of_Z 1) (f64_add (f64_of_Z (default default_ms lat)) (f64_of_Z 1)).
Definition status_factor (s : ClusterStatus) : f64 :=
  match s with
  | ClHealthy => f64_of_Z 1
  | Degraded => f64_div (f64_of_Z 1) (f64_of_Z 2)
  | ClFailed => f64_of_Z 0
  | Unknown => f64_div (f64_of_Z 1) (f64_of_Z 4)
  end.

(** [select_failover_target]; [rng_val] is the hash of the clock *)
Definition select_failover_target (rng_val : Z) (m : MultiClusterMonitor) : option string :=
  let cs := candidates m in
  match cs with
  | [] => None
  | _ =>
      match failover_strategy m with
      | Sequential => fst <$> head cs
      | LatencyBased => fst <$> min_by_key (λ nc, default (2 ^ 64 - 1) (latency_ms nc.2)) cs
      | WeightedRandom =>
          let scored := (λ nc, (nc.1, f64_mul (latency_score 1000 (latency_ms nc.2))
                                        (status_factor (status nc.2)))) <$> cs in
          let total_score := sum_f64 (snd <$> scored) in
          if f64_le total_score (f64_of_Z 0) then None
          else match weighted_pick (weighted_target rng_val total_score) (f64_of_Z 0) scored with
               | Some n => Some n
               | None => last_name scored
               end
      end
  end.

(** The events and the post of a promotion *)
Definition promotion_effects (bus : bool) (hook : option string) (old_primary new_primary : string)
    : list effect :=
  emit_if bus (FailoverTriggered ("cluster:" +:+ old_primary) ("cluster:" +:+ new_primary)) Error ++
  emit_if bus (FailoverCompleted ("cluster:" +:+ new_primary)) Notice ++
  post_if hook ("MULTI-CLUSTER FAILOVER: Promoted cluster '" +:+ new_primary +:+
                "' to primary (was '" +:+ old_primary +:+ "')").

(** [promote_secondary] *)
Definition promote_secondary (rng_val : Z) (m : MultiClusterMonitor)
    : option string * list effect * MultiClusterMonitor :=
  match select_failover_target rng_val m with
  | None => (None, [], m)
  | Some target =>
      (Some target, promotion_effects (mc_bus m) (mc_webhook m) (primary_cluster m) target,
       m <| primary_cluster := target |> <| mc_current_primary := target |>
         <| promotions_total ::= λ n, add64 n 1 |>)
  end.

(** [metrics] *)
Definition monitor_metrics (m : MultiClusterMonitor) : list (string * f64) :=
  concat ((λ c, ("failover_cluster_status", status_as_f64 (status c)) ::
                match latency_ms c with
                | Some l => [("failover_cluster_latency_ms", f64_of_Z l)]
                | None => []
                end) <$> hash_values (clusters m)) ++
  [("failover_promotions_total", f64_of_Z (promotions_total m))].

(** ** The background loop ([start_loop]) *)

(** The snapshot: the clusters by name, with their endpoints *)
Definition cluster_endpoints (m : MultiClusterMonitor) : list (string * list string) :=
  omap (λ n, (λ c, (n, endpoints c)) <$> clusters m !! n)
    (merge_sort String.le (hash_keys (clusters m))).

(** What the task keeps; its table of latencies is never written, so it is the
    constant [None]. *)
Record LoopState := mkLoop {
  loop_primary : string;
  cluster_status : gmap string ClusterStatus;
  cluster_failures : gmap string Z
}.
#[local] Instance LoopState_settable : Settable LoopState := λ l,
  mkLoop (loop_primary l) (cluster_status l) (cluster_failures l).
Definition cluster_latency (n : string) : option Z := None.

Definition new_loop (m : MultiClusterMonitor) : LoopState :=
  let eps := cluster_endpoints m in
  {| loop_primary := primary_cluster m;
     cluster_status := list_to_map ((λ ne, (ne.1, Unknown)) <$> eps);
     cluster_failures := list_to_map ((λ ne, (ne.1, 0)) <$> eps) |}.

(** The loop body for one cluster *)
Definition loop_check (threshold : Z) (probe : nat → bool) (n : string) (eps : list string)
    (l : LoopState) : LoopState :=
  let total := wrap 32 (Z.of_nat (length eps)) in
  let reachable := wrap 32 (Z.of_nat (length (filter (λ k, probe k = true) (seq 0 (length eps))))) in
  let '(new_status, l) :=
    if reachable =? total then (ClHealthy, l)
    else if 0 <? reachable then (Degraded, l)
    else
      let failures := add32 (default 0 (cluster_failures l !! n)) 1 in
      (if threshold <=? failures then ClFailed else Degraded,
       l <| cluster_failures ::= <[n := failures]> |>) in
  let l := if 0 <? reachable then l <| cluster_failures ::= <[n := 0]> |> else l in
  l <| cluster_status ::= <[n := new_status]> |>.

(** The candidates, in the order of the snapshot *)
Definition loop_candidates (eps : list (string * list string)) (l : LoopState) : list string :=
  filter (λ n, n ≠ loop_primary l ∧ cluster_status l !! n = Some ClHealthy) eps.*1.

(** The choice among them *)
Definition loop_select (s : Strategy) (rng_val : Z) (cs : list string) : option string :=
  match s with
  | Sequential => head cs
  | LatencyBased => min_by_key (λ n, default (2 ^ 64 - 1) (cluster_latency n)) cs
  | WeightedRandom =>
      let scored := (λ n, (n, latency_score 1000 (cluster_latency n))) <$> cs in
      match weighted_pick (weighted_target rng_val (sum_f64 (snd <$> scored))) (f64_of_Z 0) scored with
      | Some n => Some n
      | None => last_name scored
      end
  end.

(** One tick *)
Definition loop_tick (m : MultiClusterMonitor) (eps : list (string * list string))
    (probe : string → nat → bool) (rng_val : Z) (l : LoopState) : list effect * LoopState :=
  let l := foldl (λ l ne, loop_check (mc_threshold m) (probe ne.1) ne.1 ne.2 l) l eps in
  if bool_decide (default Unknown (cluster_status l !! loop_primary l) = ClFailed) then
    match loop_candidates eps l with
    | [] => ([], l)
    | cs =>
        match loop_select (failover_strategy m) rng_val cs with
        | Some promoted =>
            (promotion_effects (mc_bus m) (mc_webhook m) (loop_primary l) promoted,
             l <| loop_primary := promoted |>)
        | None => ([], l)
        end
    end
  else ([], l).
Fixpoint loop_ticks (m : MultiClusterMonitor) (eps : list (string * list string))
    (rounds : list ((string → nat → bool) * Z)) (l : LoopState) : list (list effect) * LoopState :=
  match rounds with
  | [] => ([], l)
  | (probe, rng) :: rest =>
      let '(e, l) := loop_tick m eps probe rng l in
      let '(es, l) := loop_ticks m eps rest l in (e :: es, l)
  end.

(** ** Lemmas *)

Lemma elem_of_candidates m n c :
  (n, c) ∈ candidates m ↔ clusters m !! n = Some c ∧ n ≠ primary_cluster m ∧ status c = ClHealthy.
Proof.
  unfold candidates. rewrite list_elem_of_filter, elem_of_hash_iter. simpl. tauto.
Qed.

Lemma weighted_pick_elem target cum scored n :
  weighted_pick target cum scored = Some n → n ∈ scored.*1.
Proof.
  revert cum. induction scored as [|[n' s] r IH]; intros cum; simpl; [done|].
  destruct (f64_le _ _); [intros [= ->]; constructor|]. intros ?%IH. by constructor.
Qed.
Lemma last_name_elem {A} (l : list (string * A)) n : last_name l = Some n → n ∈ l.*1.
Proof.
  unfold last_name. intros (x & Hl & ->)%fmap_Some. apply list_elem_of_fmap. exists x.
  split; [done|]. apply last_Some in Hl as [l' ->]. set_solver.
Qed.
Lemma weighted_choice_elem t scored (n : string) :
  match weighted_pick t (f64_of_Z 0) scored with
  | Some n => Some n
  | None => last_name scored
  end = Some n → n ∈ scored.*1.
Proof.
  destruct (weighted_pick _ _ _) as [n'|] eqn:Hp; [intros [= ->]; by eapply weighted_pick_elem|].
  apply last_name_elem.
Qed.

(** The cluster that is promoted: whatever the strategy, the clock and the
    iteration order of the map, [promote_secondary] promotes only a cluster that
    is known, different from the current primary and healthy at the last check,
    and records it as the primary, counting one promotion; with [LatencyBased] no
    other such cluster has a lower latency; and with [Sequential] and [LatencyBased]
    it does nothing only when there is no such cluster. *)
Theorem promotion_sound rng m :
  match promote_secondary rng m with
  | (Some n, _, m') =>
      (∃ c, clusters m !! n = Some c ∧ n ≠ primary_cluster m ∧ status c = ClHealthy ∧
        (failover_strategy m = LatencyBased → ∀ n' c', clusters m !! n' = Some c' →
           n' ≠ primary_cluster m → status c' = ClHealthy →
           default (2 ^ 64 - 1) (latency_ms c) ≤ default (2 ^ 64 - 1) (latency_ms c'))) ∧
      primary_cluster m' = n ∧ mc_current_primary m' = n ∧ clusters m' = clusters m ∧
      promotions_total m' = add64 (promotions_total m) 1
  | (None, e, m') =>
      m' = m ∧ e = [] ∧
      (failover_strategy m ≠ WeightedRandom → ∀ n c, clusters m !! n = Some c →
         n ≠ primary_cluster m → status c ≠ ClHealthy)
  end.
Proof.
  unfold promote_secondary, select_failover_target.
  pose proof (elem_of_candidates m) as Hc. destruct (candidates m) as [|[n0 c0] cs] eqn:Hcs.
  { split_and!; try done. intros _ n c Hn Hne Hst. by apply (not_elem_of_nil (n, c)), Hc. }
  assert (∀ n, n ∈ ((n0, c0) :: cs).*1 → ∃ c, clusters m !! n = Some c ∧ n ≠ primary_cluster m ∧
            status c = ClHealthy) as Hin.
  { intros n ([n' c] & -> & Hn)%list_elem_of_fmap. exists c. by apply Hc. }
  destruct (failover_strategy m) eqn:Hs.
  - simpl. split_and!; try done. destruct (Hin n0) as (c & ? & ? & ?); [constructor|]. by exists c.
  - destruct (min_by_key_is_Some (λ nc : string * ClusterHealth,
      default (2 ^ 64 - 1) (latency_ms nc.2)) ((n0, c0) :: cs)) as [[n c] Hmin]; [done|].
    rewrite Hmin. simpl. split_and!; try done. exists c.
    pose proof (min_by_key_elem _ _ _ Hmin) as He. apply Hc in He as (? & ? & ?). split_and!; try done.
    intros _ n' c' Hn' Hne' Hst'. apply (min_by_key_le _ _ _ Hmin (n', c')). by apply Hc.
  - destruct (f64_le _ _); [done|].
    match goal with |- context [weighted_pick ?t ?z ?l] => set (scored := l); set (tgt := t) end.
    pose proof (weighted_choice_elem tgt scored) as Hel.
    destruct (match weighted_pick _ _ _ with Some n => Some n | None => _ end) as [n|]; [|done].
    specialize (Hel n eq_refl). split_and!; try done.
    destruct (Hin n) as (c & ? & ? & ?); [|by exists c].
    apply list_elem_of_fmap in Hel as ([n' sc] & -> & Hsc). unfold scored in Hsc.
    apply list_elem_of_fmap in Hsc as ([n'' c''] & [= -> _] & Hsc). apply list_elem_of_fmap.
    by exists (n'', c'').
Qed.

(** *** The loop *)

Definition all_down (probe : nat → bool) (eps : list string) : Prop :=
  eps ≠ [] ∧ ∀ k, (k < length eps)%nat → probe k = false.
Definition all_up (probe : nat → bool) (eps : list string) : Prop :=
  ∀ k, (k < length eps)%nat → probe k = true.

Lemma length_filter_extremes {A} (p : A → bool) (l : list A) :
  let r := length (filter (λ x, p x = true) l) in
  (r ≤ length l)%nat ∧ (r = length l ↔ Forall (λ x, p x = true) l) ∧
  (r = 0%nat ↔ Forall (λ x, p x = false) l).
Proof.
  induction l as [|x l (Hle & Hall & Hnone)]; simpl; [done|].
  rewrite filter_cons, !Forall_cons. destruct (p x) eqn:Hp; simpl.
  - split; [lia|]. rewrite <-Hall. split; [lia|]. split; [lia|by intros [? _]].
  - split; [lia|]. rewrite <-Hnone. split; [|tauto]. split; [lia|by intros [? _]].
Qed.
Lemma count_reached (probe : nat → bool) (eps : list string) :
  let r := length (filter (λ k, probe k = true) (seq 0 (length eps))) in
  (r ≤ length eps)%nat ∧ (r = length eps ↔ all_up probe eps) ∧
  (r = 0%nat ∧ eps ≠ [] ↔ all_down probe eps).
Proof.
  destruct (length_filter_extremes probe (seq 0 (length eps))) as (Hle & Hall & Hnone).
  rewrite length_seq in Hle, Hall. simpl. rewrite Hall, Hnone, !Forall_forall. split; [done|].
  unfold all_up, all_down. split.
  - split; intros Hup k Hk; apply Hup; [apply elem_of_seq; lia|]. apply elem_of_seq in Hk. lia.
  - split; intros [H1 H2]; split; try done; intros k Hk; [apply H1, elem_of_seq; lia|].
    apply elem_of_seq in Hk. apply H2. lia.
Qed.

(** What one check of the loop does to the cluster it is about, ... *)
Lemma loop_check_self T probe n eps l :
  Z.of_nat (length eps) < 2 ^ 32 →
  let l' := loop_check T probe n eps l in
  let f := default 0 (cluster_failures l !! n) in
  let f' := default 0 (cluster_failures l' !! n) in
  loop_primary l' = loop_primary l ∧
  (cluster_status l' !! n = Some ClHealthy ↔ all_up probe eps) ∧
  (f' = f ∧ eps = [] ∨ f' = 0 ∨ all_down probe eps ∧ f' = add32 f 1) ∧
  (cluster_status l' !! n = Some ClFailed → all_down probe eps ∧ T ≤ f').
Proof.
  intros Hlen. destruct (count_reached probe eps) as (Hle & Hall & Hnone).
  unfold loop_check. set (r := length (filter _ (seq 0 (length eps)))) in *.
  rewrite !wrap_small by (unfold in_u; lia).
  destruct (Z.eqb_spec (Z.of_nat r) (Z.of_nat (length eps))) as [Heq|Hne].
  - assert (all_up probe eps) as Hup by (apply Hall; lia).
    destruct (Z.ltb_spec 0 (Z.of_nat r)); simpl; rewrite !lookup_insert_eq; simpl.
    + split_and!; try done. auto.
    + split_and!; try done. left. split; [done|]. apply length_zero_iff_nil. lia.
  - assert (¬ all_up probe eps) as Hup by (rewrite <-Hall; lia).
    destruct (Z.ltb_spec 0 (Z.of_nat r)); simpl.
    + rewrite !lookup_insert_eq. split_and!; try done. auto.
    + assert (all_down probe eps) as Hd.
      { apply Hnone. split; [lia|]. intros ->. simpl in *. lia. }
      rewrite !lookup_insert_eq. simpl. split_and!; try done.
      * by destruct (_ <=? _).
      * auto.
      * destruct (Z.leb_spec T (add32 (default 0 (cluster_failures l !! n)) 1)); done.
Qed.
(** ... and to the others *)
Lemma loop_check_other T probe n eps l n' :
  n' ≠ n →
  let l' := loop_check T probe n eps l in
  loop_primary l' = loop_primary l ∧ cluster_status l' !! n' = cluster_status l !! n' ∧
  cluster_failures l' !! n' = cluster_failures l !! n'.
Proof.
  intros Hne. unfold loop_check. cbv zeta.
  set (r := wrap 32 (Z.of_nat (length (filter _ _)))). set (t := wrap 32 (Z.of_nat (length eps))).
  destruct (r =? t); [|destruct (0 <? r) eqn:E]; rewrite ?E; destruct (0 <? r); simpl;
    rewrite ?lookup_insert_ne by done; done.
Qed.

(** One round over the whole snapshot *)
Lemma loop_round T probe eps l n es :
  NoDup eps.*1 → (n, es) ∈ eps → Z.of_nat (length es) < 2 ^ 32 →
  let l' := foldl (λ l ne, loop_check T (probe ne.1) ne.1 ne.2 l) l eps in
  let f := default 0 (cluster_failures l !! n) in
  let f' := default 0 (cluster_failures l' !! n) in
  loop_primary l' = loop_primary l ∧
  (cluster_status l' !! n = Some ClHealthy ↔ all_up (probe n) es) ∧
  (f' = f ∧ es = [] ∨ f' = 0 ∨ all_down (probe n) es ∧ f' = add32 f 1) ∧
  (cluster_status l' !! n = Some ClFailed → all_down (probe n) es ∧ T ≤ f').
Proof.
  assert (∀ eps l n', n' ∉ eps.*1 →
    let l' := foldl (λ l ne, loop_check T (probe ne.1) ne.1 ne.2 l) l eps in
    loop_primary l' = loop_primary l ∧ cluster_status l' !! n' = cluster_status l !! n' ∧
    cluster_failures l' !! n' = cluster_failures l !! n') as Hother.
  { clear. intros eps. induction eps as [|[n es] eps IH]; intros l n' Hn'; simpl; [done|].
    apply not_elem_of_cons in Hn' as [Hne Hn'].
    destruct (loop_check_other T (probe n) n es l n' Hne) as (E1 & E2 & E3).
    destruct (IH (loop_check T (probe n) n es l) n' Hn') as (F1 & F2 & F3).
    simpl in *. by rewrite F1, F2, F3, E1, E2, E3. }
  revert l. induction eps as [|[n0 es0] eps IH]; intros l Hnd Hin Hlen; [by apply elem_of_nil in Hin|].
  simpl in Hnd. apply NoDup_cons in Hnd as [Hn0 Hnd]. simpl.
  apply elem_of_cons in Hin as [[= <- <-]|Hin].
  - destruct (Hother eps (loop_check T (probe n) n es l) n Hn0) as (-> & -> & ->).
    by apply loop_check_self.
  - assert (n ≠ n0) as Hne.
    { intros ->. apply Hn0, list_elem_of_fmap. by exists (n0, es). }
    destruct (loop_check_other T (probe n0) n0 es0 l n Hne) as (E1 & E2 & E3).
    specialize (IH (loop_check T (probe n0) n0 es0 l) Hnd Hin Hlen). simpl in *.
    by rewrite E1, E3 in IH.
Qed.

Lemma loop_ticks_app m eps a b l :
  loop_ticks m eps (a ++ b) l =
  let '(ea, l) := loop_ticks m eps a l in let '(eb, l) := loop_ticks m eps b l in (ea ++ eb, l).
Proof.
  revert l. induction a as [|[probe rng] a IH]; intros l; simpl.
  { by destruct (loop_ticks m eps b l). }
  destruct (loop_tick m eps probe rng l) as [e l1]. rewrite IH.
  destruct (loop_ticks m eps a l1) as [ea l2]. by destruct (loop_ticks m eps b l2).
Qed.
Lemma loop_tick_failures m eps probe rng l :
  cluster_failures (loop_tick m eps probe rng l).2 =
  cluster_failures (foldl (λ l ne, loop_check (mc_threshold m) (probe ne.1) ne.1 ne.2 l) l eps).
Proof.
  unfold loop_tick. destruct (bool_decide _); [|done].
  destruct (loop_candidates _ _); [done|]. by destruct (loop_select _ _ _).
Qed.

(** In the last [cluster_failures] rounds no endpoint of the cluster answered. *)
Lemma loop_failures_recent m eps rounds l n es :
  NoDup eps.*1 → (n, es) ∈ eps → es ≠ [] → Z.of_nat (length es) < 2 ^ 32 →
  Z.of_nat (length rounds) < 2 ^ 32 → default 0 (cluster_failures l !! n) = 0 →
  let f := default 0 (cluster_failures (loop_ticks m eps rounds l).2 !! n) in
  0 ≤ f ≤ Z.of_nat (length rounds) ∧
  ∀ j r, rounds !! j = Some r → Z.of_nat (length rounds) - f ≤ Z.of_nat j → all_down (r.1 n) es.
Proof.
  intros Hnd Hin Hne Hes. induction rounds as [|[probe rng] rounds IH] using rev_ind; intros Hlen H0; simpl.
  { rewrite H0. split; [lia|]. intros j r Hj. by rewrite lookup_nil in Hj. }
  rewrite length_app in *. simpl in Hlen |- *. specialize (IH ltac:(lia) H0). rewrite loop_ticks_app.
  destruct (loop_ticks m eps rounds l) as [es1 l1]. destruct IH as [Hb Hr]. simpl.
  pose proof (loop_tick_failures m eps probe rng l1) as Hf.
  destruct (loop_tick m eps probe rng l1) as [e l2]. simpl in *. rewrite Hf.
  destruct (loop_round (mc_threshold m) probe eps l1 n es Hnd Hin Hes) as (_ & _ & Hcase & _).
  destruct Hcase as [[_ ->]|[->|[Hd ->]]]; [done| |].
  - split; [lia|]. intros j r Hj Hle. apply lookup_lt_Some in Hj. rewrite length_app in Hj. simpl in Hj. lia.
  - rewrite add32_small by (unfold in_u; lia). split; [lia|]. intros j r Hj Hle.
    apply lookup_app_Some in Hj as [Hj|[Hge Hj]]; [apply (Hr j); [done|lia]|].
    by destruct (j - length rounds)%nat as [|k]; simplify_eq/=.
Qed.

Lemma loop_round_other T probe eps l n :
  n ∉ eps.*1 →
  cluster_status (foldl (λ l ne, loop_check T (probe ne.1) ne.1 ne.2 l) l eps) !! n =
  cluster_status l !! n.
Proof.
  revert l. induction eps as [|[n0 es0] eps IH]; intros l Hn; simpl; [done|].
  apply not_elem_of_cons in Hn as [Hne Hn]. rewrite IH by done.
  by destruct (loop_check_other T (probe n0) n0 es0 l n Hne) as (_ & -> & _).
Qed.
Lemma loop_ticks_other m eps rounds l n :
  n ∉ eps.*1 → cluster_status (loop_ticks m eps rounds l).2 !! n = cluster_status l !! n.
Proof.
  intros Hn. revert l. induction rounds as [|[probe rng] rounds IH]; intros l; simpl; [done|].
  assert (cluster_status (loop_tick m eps probe rng l).2 !! n = cluster_status l !! n) as Ht.
  { rewrite <-(loop_round_other (mc_threshold m) probe eps l n Hn).
    unfold loop_tick. destruct (bool_decide _); [|done].
    destruct (loop_candidates _ _); [done|]. by destruct (loop_select _ _ _). }
  destruct (loop_tick m eps probe rng l) as [e l1]. specialize (IH l1).
  destruct (loop_ticks m eps rounds l1) as [es l2]. simpl in *. congruence.
Qed.

(** The snapshot lists each cluster once, in the order of the names. *)
Lemma cluster_endpoints_names m :
  (cluster_endpoints m).*1 = merge_sort String.le (hash_keys (clusters m)).
Proof.
  unfold cluster_endpoints.
  assert (∀ n, n ∈ merge_sort String.le (hash_keys (clusters m)) → is_Some (clusters m !! n)) as Hk.
  { intros n. rewrite (merge_sort_Permutation String.le). apply elem_of_hash_keys. }
  induction (merge_sort _ _) as [|n l IH]; csimpl; [done|].
  destruct (Hk n) as [c Hc]; [constructor|]. rewrite Hc. csimpl. f_equal. apply IH.
  intros n' Hn'. apply Hk. by constructor.
Qed.
Lemma cluster_endpoints_NoDup m : NoDup (cluster_endpoints m).*1.
Proof.
  rewrite cluster_endpoints_names, (merge_sort_Permutation String.le). apply NoDup_hash_keys.
Qed.
Lemma cluster_endpoints_sorted m : StronglySorted String.le (cluster_endpoints m).*1.
Proof. rewrite cluster_endpoints_names. apply StronglySorted_merge_sort; apply _. Qed.

Lemma head_filter_least (P : string → Prop) `{∀ n, Decision (P n)} l q q' :
  StronglySorted String.le l → head (filter P l) = Some q → q' ∈ l → P q' → String.le q q'.
Proof.
  induction 1 as [|n l Hs IH Hn]; [done|]. rewrite filter_cons. destruct (decide (P n)) as [Hp|Hp].
  - intros [= ->] [->|Hin]%elem_of_cons HP; [done|]. rewrite Forall_forall in Hn. by apply Hn.
  - intros Hh [->|Hin]%elem_of_cons HP; [done|]. by apply IH.
Qed.

Lemma loop_select_elem s rng cs q : loop_select s rng cs = Some q → q ∈ cs.
Proof.
  destruct s; simpl.
  - destruct cs; [done|]. intros [= ->]. constructor.
  - apply min_by_key_elem.
  - intros Hq%weighted_choice_elem. by rewrite <-list_fmap_compose, list_fmap_id in Hq.
Qed.
(** No latency is ever recorded, so the choice by latency is the first candidate. *)
Lemma loop_select_first s rng cs : s ≠ WeightedRandom → loop_select s rng cs = head cs.
Proof.
  destruct s; try done. intros _. simpl. destruct cs as [|n cs]; [done|]. simpl.
  by destruct (min_by_key _ cs).
Qed.

Lemma loop_round_primary T probe eps l :
  loop_primary (foldl (λ l ne, loop_check T (probe ne.1) ne.1 ne.2 l) l eps) = loop_primary l.
Proof.
  revert l. induction eps as [|[n es] eps IH]; intros l; simpl; [done|]. rewrite IH.
  unfold loop_check. cbv zeta.
  set (r := wrap 32 (Z.of_nat (length (filter _ _)))). set (t := wrap 32 (Z.of_nat (length es))).
  destruct (r =? t); [|destruct (0 <? r) eqn:E]; rewrite ?E; by destruct (0 <? r).
Qed.

(** A tick that changes the primary found it failed, and took a candidate. *)
Lemma loop_tick_promotes m eps probe rng l :
  let l2 := foldl (λ l ne, loop_check (mc_threshold m) (probe ne.1) ne.1 ne.2 l) l eps in
  let q := loop_primary (loop_tick m eps probe rng l).2 in
  loop_primary l ≠ q →
  cluster_status l2 !! loop_primary l = Some ClFailed ∧
  loop_select (failover_strategy m) rng (loop_candidates eps l2) = Some q.
Proof.
  unfold loop_tick. pose proof (loop_round_primary (mc_threshold m) probe eps l) as Hp.
  set (l2 := foldl _ l eps) in *. simpl. case_bool_decide as Hfail; [|simpl; congruence].
  intros Hpq. split.
  - rewrite <-Hp. by destruct (cluster_status l2 !! loop_primary l2); simplify_eq/=.
  - destruct (loop_candidates eps l2); [simpl in Hpq; congruence|].
    destruct (loop_select _ _ _); [done|simpl in Hpq; congruence].
Qed.

(** What the loop starts from *)
Lemma new_loop_spec m n :
  default 0 (cluster_failures (new_loop m) !! n) = 0 ∧
  (n ∉ (cluster_endpoints m).*1 → cluster_status (new_loop m) !! n = None).
Proof.
  split; simpl.
  - destruct (list_to_map _ !! n) as [z|] eqn:Hz; [|done].
    apply elem_of_list_to_map_2, list_elem_of_fmap in Hz as (? & [= _ ->] & _). done.
  - intros Hn. apply not_elem_of_list_to_map_1. by rewrite <-list_fmap_compose.
Qed.

(** C6.  The background loop promotes only when it must, and to a sound target:
    when a tick changes the primary from [p] to [q], no endpoint of [p] answered in
    this round and in the [mc_threshold - 1] rounds before it; every endpoint of
    [q] answered in this round; and with [Sequential], but also with
    [LatencyBased], [q] is the first by name of the clusters that answered
    completely.  That is not what the strategies are documented to do: [Sequential] is to
    follow the order of the configuration, which is lost because the clusters are kept in
    a map and sorted by name, and [LatencyBased] is to take the lowest latency, which the
    loop never measures.  (For fewer than 2^32 - 1 rounds from the start of the loop, fewer
    than 2^32 endpoints in a cluster, and a threshold that is not 0.) *)
Theorem loop_promotes_on_failure m rounds probe rng :
  let eps := cluster_endpoints m in
  (∀ n es, (n, es) ∈ eps → Z.of_nat (length es) < 2 ^ 32) →
  Z.of_nat (length rounds) < 2 ^ 32 - 1 → 1 ≤ mc_threshold m →
  let p := loop_primary (loop_ticks m eps rounds (new_loop m)).2 in
  let q := loop_primary (loop_ticks m eps (rounds ++ [(probe, rng)]) (new_loop m)).2 in
  p ≠ q →
  (∃ es, (p, es) ∈ eps ∧ mc_threshold m ≤ Z.of_nat (length rounds) + 1 ∧
     ∀ j r, (rounds ++ [(probe, rng)]) !! j = Some r →
            Z.of_nat (length rounds) + 1 - mc_threshold m ≤ Z.of_nat j → all_down (r.1 p) es) ∧
  (∃ es, (q, es) ∈ eps ∧ all_up (probe q) es ∧
     (failover_strategy m ≠ WeightedRandom →
      ∀ n es', (n, es') ∈ eps → n ≠ p → all_up (probe n) es' → String.le q n)).
Proof.
  intros eps Hlen Hrounds HT p q Hpq.
  pose proof (cluster_endpoints_NoDup m) as Hnd. fold eps in Hnd.
  pose proof (λ n Hn, loop_ticks_other m eps rounds (new_loop m) n Hn) as Hother.
  pose proof (loop_ticks_app m eps rounds [(probe, rng)] (new_loop m)) as Happ.
  pose proof (λ n es Hin Hne, loop_failures_recent m eps (rounds ++ [(probe, rng)]) (new_loop m) n es
    Hnd Hin Hne (Hlen n es Hin)) as Hrec.
  unfold p, q in *. clear p q. rewrite Happ in *.
  destruct (loop_ticks m eps rounds (new_loop m)) as [e1 l1]. simpl in *.
  pose proof (loop_tick_promotes m eps probe rng l1) as Hprom.
  pose proof (loop_tick_failures m eps probe rng l1) as Htf.
  destruct (loop_tick m eps probe rng l1) as [e3 l3]. simpl in *.
  pose proof (loop_round_primary (mc_threshold m) probe eps l1) as Hp.
  pose proof (λ n es Hin, loop_round (mc_threshold m) probe eps l1 n es Hnd Hin (Hlen n es Hin)) as Hround.
  pose proof (loop_round_other (mc_threshold m) probe eps l1) as Hro.
  set (l2 := foldl _ l1 eps) in *. destruct (Hprom Hpq) as [Hst Hsel].
  assert (loop_primary l1 ∈ eps.*1) as ([p es] & Hpe & Hin)%list_elem_of_fmap.
  { apply dec_stable. intros Hn. rewrite Hro, Hother in Hst by done.
    by rewrite (proj2 (new_loop_spec m _)) in Hst. }
  simpl in Hpe. rewrite Hpe in *. split.
  - destruct (Hround p es Hin) as (_ & _ & _ & Hdown). destruct (Hdown Hst) as [Hd HTf].
    exists es. split; [done|]. rewrite length_app in Hrec. simpl in Hrec.
    destruct (Hrec p es Hin (proj1 Hd) ltac:(lia) (proj1 (new_loop_spec m p))) as [Hb Hr].
    rewrite Htf in Hb, Hr. split; [lia|]. intros j r Hj Hle. apply (Hr j r Hj). lia.
  - pose proof (loop_select_elem _ _ _ _ Hsel) as Hq. unfold loop_candidates in Hq.
    apply list_elem_of_filter in Hq as [[Hqp Hqs] ([q' es'] & Hqe & Hq)%list_elem_of_fmap].
    simpl in Hqe. rewrite Hqe in *. exists es'.
    split; [done|]. split; [by apply (Hround q' es' Hq)|]. intros Hstr n es'' Hn Hnp Hup.
    rewrite loop_select_first in Hsel by done.
    apply (head_filter_least _ _ _ _ (cluster_endpoints_sorted m) Hsel).
    + apply list_elem_of_fmap. by exists (n, es'').
    + split; [by rewrite Hp|]. by apply (Hround n es'' Hn).
Qed.
End multi_cluster.

(** ** Concrete runs *)

Section multi_cluster_runs.
#[local] Instance cluster_external : External := demo_external.
#[local] Instance cluster_order : HashOrder := canonical_order.

Definition two_clusters : MultiClusterMonitor :=
  new_monitor (parse_clusters "east:h1:5432,west:h2:5432" 0) "east" LatencyBased 10 3 None.
(** East is down, west answers. *)
Definition east_down : (string → nat → bool) * Z := (λ n _, bool_decide (n = "west"), 0).

Lemma loop_promotes_on_failure_witness :
  let q := loop_primary (loop_ticks two_clusters (cluster_endpoints two_clusters)
             (replicate 3 east_down) (new_loop two_clusters)).2 in
  ∃ es, (q, es) ∈ cluster_endpoints two_clusters ∧ all_up (east_down.1 q) es.
Proof.
  destruct (loop_promotes_on_failure two_clusters (replicate 2 east_down) east_down.1 0)
    as (_ & es & H1 & H2 & _).
  - intros n es Hin. change (cluster_endpoints two_clusters) with
      [("east", ["h1:5432"]); ("west", ["h2:5432"])] in Hin.
    rewrite !elem_of_cons in Hin. destruct Hin as [[= -> ->]|[[= -> ->]|Hin]]; [done|done|].
    by apply elem_of_nil in Hin.
  - done.
  - done.
  - vm_compute. discriminate.
  - exists es. split; [exact H1|exact H2].
Defined.
End multi_cluster_runs.
