(* ===== verification/RateLimit.v ===== *)
(** * The sliding-window rate limiter ([management-api/src/rate_limiter.rs])

    The instants of the accepted requests of the last minute, behind a mutex.  The
    clock is read with the lock held, so the readings of successive calls do not
    decrease. *)

From S2P Require Import Prelude.

(** [RateLimiterInner] *)
Record RateLimiter := mkLimiter {
  timestamps : list Z;
  max_requests : Z;
  window : Z
}.
#[export] Instance RateLimiter_settable : Settable RateLimiter := λ r,
  mkLimiter (timestamps r) (max_requests r) (window r).

(** [RateLimiter::new] *)
Definition new_limiter (max_requests_per_minute : Z) : RateLimiter :=
  mkLimiter [] max_requests_per_minute (60 * 10 ^ 9).

(** The [while let] loop: expired entries leave from the front. *)
Fixpoint drop_expired (w now : Z) (l : list Z) : list Z :=
  match l with
  | [] => []
  | front :: rest => if w <? saturating_sub now front then drop_expired w now rest else l
  end.

(** [allow] *)
Definition allow (now : Z) (r : RateLimiter) : bool * RateLimiter :=
  let r := r <| timestamps ::= drop_expired (window r) now |> in
  if max_requests r <=? Z.of_nat (length (timestamps r)) then (false, r)
  else (true, r <| timestamps ::= λ l, l ++ [now] |>).

(** [rate_limit_from_env] *)
Definition rate_limit_from_env (env : environment) : Z :=
  env_parse env "MGMT_RATE_LIMIT_RPM" parse_usize 60.

(** [RateLimitService::call]: a request that is not allowed is answered with
    [RESOURCE_EXHAUSTED] and does not reach the inner service. *)
Definition service_call {A} (inner : A) (now : Z) (r : RateLimiter) : result string A * RateLimiter :=
  let '(ok, r) := allow now r in
  (if ok then Ok inner else Err "rate limit exceeded", r).

(** Calls at the given instants *)
Fixpoint allow_all (nows : list Z) (r : RateLimiter) : list bool * RateLimiter :=
  match nows with
  | [] => ([], r)
  | now :: rest =>
      let '(b, r) := allow now r in
      let '(bs, r) := allow_all rest r in (b :: bs, r)
  end.

(** ** Specification: the log of everything accepted so far decides. *)

Definition in_window (w now : Z) (log : list Z) : Z :=
  Z.of_nat (length (filter (λ t, now - t ≤ w) log)).
Fixpoint window_spec (w limit : Z) (log : list Z) (nows : list Z) : list bool * list Z :=
  match nows with
  | [] => ([], log)
  | now :: rest =>
      let b := in_window w now log <? limit in
      let '(bs, log) := window_spec w limit (if b then log ++ [now] else log) rest in
      (b :: bs, log)
  end.

(** ** Lemmas *)

Lemma drop_expired_filter w now l :
  StronglySorted Z.le l → Forall (λ t, t ≤ now) l →
  drop_expired w now l = filter (λ t, now - t ≤ w) l.
Proof.
  induction 1 as [|t l Hs IH Ht]; intros Hle; simpl; [done|].
  apply Forall_cons in Hle as [Htn Hle]. unfold saturating_sub.
  rewrite Z.max_r by lia. destruct (Z.ltb_spec w (now - t)).
  - rewrite filter_cons_False by lia. by apply IH.
  - symmetry. apply filter_all. constructor; [lia|]. eapply Forall_impl; [exact Ht|]. simpl. lia.
Qed.
Lemma filter_later w last now (l : list Z) :
  last ≤ now → filter (λ t, now - t ≤ w) (filter (λ t, last - t ≤ w) l) = filter (λ t, now - t ≤ w) l.
Proof.
  intros Hle. induction l as [|t l IH]; [done|]. rewrite !filter_cons.
  destruct (decide (last - t ≤ w)); [rewrite filter_cons; by case_decide; rewrite IH|].
  by rewrite (decide_False (P := now - t ≤ w)) by lia.
Qed.
Lemma filter_sorted (P : Z → Prop) `{∀ x, Decision (P x)} (l : list Z) :
  StronglySorted Z.le l → StronglySorted Z.le (filter P l).
Proof.
  induction 1 as [|t l Hs IH Ht]; [constructor|]. rewrite filter_cons. destruct (decide (P t)); [|done].
  constructor; [done|]. apply Forall_forall. intros x [_ Hx]%list_elem_of_filter.
  rewrite Forall_forall in Ht. by apply Ht.
Qed.
Lemma sorted_snoc l x : StronglySorted Z.le l → Forall (λ t, t ≤ x) l → StronglySorted Z.le (l ++ [x]).
Proof.
  induction 1 as [|t l Hs IH Ht]; intros Hx; simpl; [by repeat constructor|].
  apply Forall_cons in Hx as [Hxt Hx]. constructor; [by apply IH|].
  apply Forall_app. split; [done|]. by constructor.
Qed.

(** The limiter after a call at [last]: the part of the log still in the window *)
Definition represents (r : RateLimiter) (last : Z) (log : list Z) : Prop :=
  timestamps r = filter (λ t, last - t ≤ window r) log ∧
  StronglySorted Z.le log ∧ Forall (λ t, t ≤ last) log.

Lemma allow_represents r last log now :
  represents r last log → last ≤ now → 0 ≤ window r →
  let b := in_window (window r) now log <? max_requests r in
  let '(b', r') := allow now r in
  b' = b ∧ represents r' now (if b then log ++ [now] else log) ∧
  window r' = window r ∧ max_requests r' = max_requests r.
Proof.
  intros (Hts & Hs & Hle) Hnow Hw. unfold allow, in_window. simpl.
  assert (drop_expired (window r) now (timestamps r) = filter (λ t, now - t ≤ window r) log) as ->.
  { rewrite Hts, drop_expired_filter; [by apply filter_later|by apply filter_sorted|].
    apply Forall_forall. intros t [_ Ht]%list_elem_of_filter. rewrite Forall_forall in Hle.
    specialize (Hle t Ht). lia. }
  assert (Forall (λ t, t ≤ now) log) as Hlen by (eapply Forall_impl; [exact Hle|]; simpl; lia).
  rewrite Z.ltb_antisym. destruct (_ <=? _) eqn:E; simpl; [done|].
  split_and!; try done. split_and!; simpl.
  - rewrite filter_app, (filter_cons_True _ now) by lia. done.
  - by apply sorted_snoc.
  - apply Forall_app. split; [done|]. by constructor.
Qed.

(** Every window of the log is within the limit. *)
Definition log_bounded (w limit : Z) (log : list Z) : Prop :=
  ∀ a, Z.of_nat (length (filter (λ t, a ≤ t ≤ a + w) log)) ≤ limit.

Lemma length_filter_mono (P Q : Z → Prop) `{∀ x, Decision (P x), ∀ x, Decision (Q x)} (l : list Z) :
  (∀ x, x ∈ l → P x → Q x) → (length (filter P l) ≤ length (filter Q l))%nat.
Proof.
  induction l as [|x l IH]; intros HPQ; [done|]. rewrite !filter_cons.
  assert (length (filter P l) ≤ length (filter Q l))%nat by (apply IH; intros y Hy; apply HPQ; by constructor).
  destruct (decide (P x)) as [HP|]; [rewrite decide_True by (apply HPQ; [constructor|done]); simpl; lia|].
  destruct (decide (Q x)); simpl; lia.
Qed.
Lemma log_bounded_snoc w limit log now :
  log_bounded w limit log → in_window w now log < limit → Forall (λ t, t ≤ now) log →
  log_bounded w limit (log ++ [now]).
Proof.
  intros Hb Hin Hle a. specialize (Hb a). rewrite filter_app, length_app, filter_cons.
  destruct (decide (a ≤ now ≤ a + w)); simpl; [|lia]. unfold in_window in Hin.
  pose proof (length_filter_mono (λ t, a ≤ t ≤ a + w) (λ t, now - t ≤ w) log) as Hm.
  specialize (Hm ltac:(intros; simpl in *; lia)). lia.
Qed.

(** C8.  The limiter is the sliding window it promises: for calls whose clock
    readings do not decrease, each answer is the one of the specification that
    keeps the whole history: a request is accepted exactly when fewer than
    [max_requests] requests were accepted in the minute that ends now; and no
    closed interval of a minute, wherever it starts, holds more than
    [max_requests] accepted requests. *)
Theorem allow_is_sliding_window limit nows :
  0 ≤ limit → StronglySorted Z.le nows →
  let '(bs, log) := window_spec (60 * 10 ^ 9) limit [] nows in
  (allow_all nows (new_limiter limit)).1 = bs ∧ log_bounded (60 * 10 ^ 9) limit log ∧
  log = fst <$> filter (λ nb, nb.2 = true) (zip nows bs).
Proof.
  intros Hlim Hnows. change (60 * 10 ^ 9) with (window (new_limiter limit)).
  assert (∀ r last log, represents r last log → 0 ≤ window r → Forall (λ t, last ≤ t) nows →
    log_bounded (window r) (max_requests r) log →
    let '(bs, log') := window_spec (window r) (max_requests r) log nows in
    (allow_all nows r).1 = bs ∧ log_bounded (window r) (max_requests r) log' ∧
    log' = log ++ (fst <$> filter (λ nb, nb.2 = true) (zip nows bs))) as Hgen.
  { clear Hlim. induction Hnows as [|now nows Hs IH Hnow]; intros r last log Hr Hw Hlast Hb; simpl.
    { by rewrite app_nil_r. }
    apply Forall_cons in Hlast as [Hlast _].
    pose proof (allow_represents r last log now Hr Hlast Hw) as Ha.
    destruct (allow now r) as [b r1]. destruct Ha as (-> & Hr1 & Ew & Em).
    specialize (IH r1 now _ Hr1). rewrite Ew, Em in IH.
    set (b := in_window (window r) now log <? max_requests r) in *.
    assert (log_bounded (window r) (max_requests r) (if b then log ++ [now] else log)) as Hb1.
    { unfold b. destruct (Z.ltb_spec (in_window (window r) now log) (max_requests r)); [|done].
      apply log_bounded_snoc; [done..|]. destruct Hr as (_ & _ & Hle).
      eapply Forall_impl; [exact Hle|]. simpl. lia. }
    specialize (IH Hw Hnow Hb1).
    destruct (window_spec _ _ (if b then _ else _) nows) as [bs log'], (allow_all nows r1) as [bs' r2].
    simpl in *. destruct IH as (-> & ? & ->). split_and!; [done..|]. rewrite filter_cons. simpl.
    destruct b; simpl; [by rewrite <-app_assoc|done]. }
  destruct nows as [|now nows]; [by split_and!; [|intros a; simpl; lia|]|].
  apply (Hgen (new_limiter limit) now []).
  - split_and!; [done|constructor|constructor].
  - simpl. lia.
  - apply StronglySorted_inv in Hnows as [_ Hn]. by constructor.
  - intros a. simpl. lia.
Qed.

(** ** Concrete runs *)

Lemma allow_is_sliding_window_witness :
  (allow_all [0; 10 * 10 ^ 9; 20 * 10 ^ 9; 61 * 10 ^ 9] (new_limiter 2)).1 =
  [true; true; false; true].
Proof.
  refine (proj1 (allow_is_sliding_window 2 [0; 10 * 10 ^ 9; 20 * 10 ^ 9; 61 * 10 ^ 9] _ _)).
  - lia.
  - repeat constructor; lia.
Defined.
