(* ===== verification/Migration.v ===== *)
(** * Schema migrations ([migration-shim/src/lib.rs])

    The lock file that keeps two processes from migrating at once (as a sequence
    of file operations that can interleave), the records of applied migrations,
    dry runs, rollback, the scan of the migration directory and the start of the
    shim.  The database is the class [SqlDb]; file operations may fail. *)

From S2P Require Import Prelude Text Config.

(** ** The lock file *)

(** [LockInfo] and its JSON form *)
Record LockInfo := mkLockInfo { pid : Z; hostname : string; created_at : string }.
Class LockJson := {
  lock_to_json : LockInfo → string;
  lock_from_json : string → option LockInfo;
  lock_from_to i : lock_from_json (lock_to_json i) = Some i;
  lock_from_empty : lock_from_json "" = None
}.

(** [MigrationLock], [new] and [with_stale_threshold] *)
Record MigrationLock := mkLock { lock_path : string; stale_threshold_secs : Z }.
Definition new_lock (migration_dir : string) : MigrationLock :=
  mkLock (path_join migration_dir ".migration.lock") 3600.
Definition with_stale_threshold (migration_dir : string) (secs : Z) : MigrationLock :=
  mkLock (path_join migration_dir ".migration.lock") secs.

(** What is at [lock_path] *)
Inductive LockFile := NoFile | Unreadable | Content (c : string).
Definition is_locked (f : LockFile) : bool := match f with NoFile => false | _ => true end.

(** The answers of the file system to [remove_file], [create_new] and [write]:
    an error text, if they fail for a reason of its own. *)
Record FsAnswers := mkFs {
  on_remove : option string;
  on_create : option string;
  on_write : option string
}.
Definition fs_ok : FsAnswers := mkFs None None None.
Definition fs_remove (fs : FsAnswers) (f : LockFile) : result string unit * LockFile :=
  match f, on_remove fs with
  | NoFile, _ => (Err "No such file or directory (os error 2)", f)
  | _, Some e => (Err e, f)
  | _, None => (Ok tt, NoFile)
  end.
Definition fs_create_new (fs : FsAnswers) (f : LockFile) : result string unit * LockFile :=
  match f, on_create fs with
  | NoFile, None => (Ok tt, Content "")
  | NoFile, Some e => (Err e, f)
  | _, _ => (Err "File exists (os error 17)", f)
  end.
Definition fs_write (fs : FsAnswers) (c : string) (f : LockFile) : result string unit * LockFile :=
  match on_write fs with None => (Ok tt, Content c) | Some e => (Err e, f) end.

Section lock.
Context `{RF : Rfc3339} `{LJ : LockJson}.

(** [is_stale]; the age is cast to [u64], so a lock from the future is stale. *)
Definition is_stale (l : MigrationLock) (now : Z) (f : LockFile) : bool :=
  match f with
  | Content c =>
      match lock_from_json c with
      | Some info =>
          match parse_from_rfc3339 (created_at info) with
          | Some created => stale_threshold_secs l <? as_u64 (num_seconds_between now created)
          | None => true
          end
      | None => true
      end
  | _ => true
  end.

Definition held_message (f : LockFile) : string :=
  "Migration lock already held by another process: " +:+
  match f with Content c => c | _ => "<unreadable>" end.
Definition lock_content (who : Z * string) (now : Z) : string :=
  lock_to_json (mkLockInfo who.1 who.2 (to_rfc3339 now)).

(** The end of [acquire_lock]: serialise, create, write *)
Definition create_lock (fs : FsAnswers) (who : Z * string) (now : Z) (f : LockFile)
    : result string unit * LockFile :=
  match fs_create_new fs f with
  | (Err e, f) => (Err ("Failed to create lock file: " +:+ e), f)
  | (Ok _, f) =>
      match fs_write fs (lock_content who now) f with
      | (Err e, f) => (Err ("Failed to write lock file: " +:+ e), f)
      | (Ok _, f) => (Ok tt, f)
      end
  end.

(** [acquire_lock], run without interference; [who] is the process id and the
    host name. *)
Definition acquire_lock (l : MigrationLock) (fs : FsAnswers) (who : Z * string) (now : Z)
    (f : LockFile) : result string unit * LockFile :=
  if is_locked f then
    if is_stale l now f then
      match fs_remove fs f with
      | (Err e, f) => (Err ("Failed to remove stale lock: " +:+ e), f)
      | (Ok _, f) => create_lock fs who now f
      end
    else (Err (held_message f), f)
  else create_lock fs who now f.

(** [release_lock] *)
Definition release_lock (fs : FsAnswers) (f : LockFile) : result string unit * LockFile :=
  if is_locked f then
    match fs_remove fs f with
    | (Err e, f) => (Err ("Failed to remove lock file: " +:+ e), f)
    | (Ok _, f) => (Ok tt, f)
    end
  else (Ok tt, f).

(** *** The same code, one file operation at a time

    Between two operations another process may run. *)
Inductive LockPc :=
| AtExists
| AtIsStale
| AtRemove
| AtReadHolder
| AtCreate
| AtWrite (c : string)
| Holding
| Refused (e : string).
#[export] Instance LockPc_eq_dec : EqDecision LockPc.
Proof. solve_decision. Defined.

Definition lock_step (l : MigrationLock) (fs : FsAnswers) (who : Z * string) (now : Z)
    (pc : LockPc) (f : LockFile) : LockPc * LockFile :=
  match pc with
  | AtExists => (if is_locked f then AtIsStale else AtCreate, f)
  | AtIsStale => (if is_stale l now f then AtRemove else AtReadHolder, f)
  | AtRemove =>
      match fs_remove fs f with
      | (Err e, f) => (Refused ("Failed to remove stale lock: " +:+ e), f)
      | (Ok _, f) => (AtCreate, f)
      end
  | AtReadHolder => (Refused (held_message f), f)
  | AtCreate =>
      match fs_create_new fs f with
      | (Err e, f) => (Refused ("Failed to create lock file: " +:+ e), f)
      | (Ok _, f) => (AtWrite (lock_content who now), f)
      end
  | AtWrite c =>
      match fs_write fs c f with
      | (Err e, f) => (Refused ("Failed to write lock file: " +:+ e), f)
      | (Ok _, f) => (Holding, f)
      end
  | Holding | Refused _ => (pc, f)
  end.

Fixpoint lock_steps (n : nat) (l : MigrationLock) (fs : FsAnswers) (who : Z * string) (now : Z)
    (pc : LockPc) (f : LockFile) : LockPc * LockFile :=
  match n with
  | O => (pc, f)
  | S n => let '(pc, f) := lock_step l fs who now pc f in lock_steps n l fs who now pc f
  end.
Definition pc_of (r : result string unit) : LockPc :=
  match r with Ok _ => Holding | Err e => Refused e end.

(** Two processes in one directory: a schedule of steps, each with the process
    that takes it and the time it sees. *)
Record TwoProcs := mkTwo { pc_a : LockPc; pc_b : LockPc; file : LockFile }.
Definition two_step (l : MigrationLock) (fs : FsAnswers) (t : bool * Z) (s : TwoProcs) : TwoProcs :=
  if t.1
  then let '(pc, f) := lock_step l fs (1, "a") t.2 (pc_a s) (file s) in mkTwo pc (pc_b s) f
  else let '(pc, f) := lock_step l fs (2, "b") t.2 (pc_b s) (file s) in mkTwo (pc_a s) pc f.
Definition two_run (l : MigrationLock) (fs : FsAnswers) (sched : list (bool * Z)) (s : TwoProcs)
    : TwoProcs := foldl (λ s t, two_step l fs t s) s sched.

#[local] Arguments is_stale : simpl never.

(** Five steps are enough: [acquire_lock] is what the steps do when nobody
    interferes. *)
Lemma acquire_lock_steps l fs who now f :
  lock_steps 5 l fs who now AtExists f
  = (pc_of (acquire_lock l fs who now f).1, (acquire_lock l fs who now f).2).
Proof.
  unfold acquire_lock, create_lock. cbn [lock_steps lock_step].
  destruct f as [| |c]; simpl.
  - destruct (on_create fs); simpl; [done|].
    unfold fs_write. by destruct (on_write fs).
  - destruct (on_remove fs); simpl; [done|].
    destruct (on_create fs); simpl; [done|].
    unfold fs_write. by destruct (on_write fs).
  - destruct (is_stale l now (Content c)); simpl; [|done].
    destruct (on_remove fs); simpl; [done|].
    destruct (on_create fs); simpl; [done|].
    unfold fs_write. by destruct (on_write fs).
Qed.

Lemma age_as_u64 now t :
  t ≤ now → num_seconds_between now t < 2 ^ 64 →
  as_u64 (num_seconds_between now t) = num_seconds_between now t.
Proof.
  intros. apply wrap_small. split; [|done]. unfold num_seconds_between. apply Z.quot_pos; lia.
Qed.
Lemma is_stale_content l who t now :
  is_stale l now (Content (lock_content who t))
  = (stale_threshold_secs l <? as_u64 (num_seconds_between now t)).
Proof.
  unfold is_stale, lock_content. rewrite lock_from_to. simpl. by rewrite parse_to_rfc3339.
Qed.
Lemma create_lock_ok who now : create_lock fs_ok who now NoFile = (Ok tt, Content (lock_content who now)).
Proof. done. Qed.

(** Alone, the lock holds for [stale_threshold_secs]: it is taken when free,
    refused unchanged while the holder's age is within the threshold, and taken
    over afterwards; releasing frees it. *)
Theorem lock_excludes l who1 who2 t now :
  t ≤ now → num_seconds_between now t < 2 ^ 64 →
  let f := (acquire_lock l fs_ok who1 t NoFile).2 in
  (acquire_lock l fs_ok who1 t NoFile).1 = Ok tt ∧
  (num_seconds_between now t ≤ stale_threshold_secs l →
   acquire_lock l fs_ok who2 now f = (Err (held_message f), f)) ∧
  (stale_threshold_secs l < num_seconds_between now t →
   acquire_lock l fs_ok who2 now f = (Ok tt, Content (lock_content who2 now))) ∧
  release_lock fs_ok f = (Ok tt, NoFile).
Proof.
  intros Hle Hlt f. subst f. split; [done|].
  change ((acquire_lock l fs_ok who1 t NoFile).2) with (Content (lock_content who1 t)).
  pose proof (age_as_u64 now t Hle Hlt) as E.
  split_and!; [..|done]; intros H; unfold acquire_lock; cbn [is_locked];
    rewrite is_stale_content, E.
  - by rewrite (proj2 (Z.ltb_ge _ _)).
  - by rewrite (proj2 (Z.ltb_lt _ _)).
Qed.

(** C16. Two processes that start in a directory without a lock file can both end
    up holding the lock, whatever the threshold and however short the time: the
    file is empty between its creation and the write, and an empty file counts as
    stale, so the second process removes it and creates its own. *)
Theorem lock_race_two_holders l now :
  ∃ sched, Forall (λ t, t.2 = now) sched ∧
    let s := two_run l fs_ok sched (mkTwo AtExists AtExists NoFile) in
    pc_a s = Holding ∧ pc_b s = Holding.
Proof.
  exists ((λ b, (b, now)) <$>
    [true; true; false; false; false; false; false; true]).
  split; [repeat constructor|].
  cbn. unfold is_stale. rewrite lock_from_empty. done.
Qed.
End lock.

(** ** Migrations and their records *)

Record MigrationRecord := mkRecord {
  rec_version : Z;
  rec_name : string;
  applied_at : string;
  rec_checksum : string
}.
Record Migration := mkMigration {
  version : Z;
  mig_name : string;
  up_sql : string;
  down_sql : option string;
  checksum : string
}.
Record DryRunResult := mkDryRun {
  dry_version : Z;
  dry_name : string;
  would_apply : bool;
  reason : string;
  checksum_valid : bool;
  sql_size_bytes : Z;
  has_down_migration : bool
}.
#[export] Instance DryRunResult_settable : Settable DryRunResult := λ d,
  mkDryRun (dry_version d) (dry_name d) (would_apply d) (reason d) (checksum_valid d)
    (sql_size_bytes d) (has_down_migration d).

Inductive MigrationError :=
| VersionConflict (existing incoming : Z)
| ChecksumMismatch (v : Z) (expected actual : string)
| MissingDownMigration (v : Z)
| InvalidVersion (v : string)
| OutOfOrder (expected got : Z).
Definition error_display (e : MigrationError) : string :=
  match e with
  | VersionConflict x i => "Version conflict: existing=" +:+ pretty x +:+ ", incoming=" +:+ pretty i
  | ChecksumMismatch v x a =>
      "Checksum mismatch at v" +:+ pretty v +:+ ": expected=" +:+ x +:+ ", actual=" +:+ a
  | MissingDownMigration v => "Missing down migration for version " +:+ pretty v
  | InvalidVersion v => "Invalid version: " +:+ v
  | OutOfOrder x g => "Out of order migration: expected v" +:+ pretty x +:+ ", got v" +:+ pretty g
  end.

(** [MigrationShim], less its shutdown channel *)
Record MigrationShim := mkShim {
  dir : string;
  database : string;
  db_host : string;
  db_port : Z;
  db_user : string;
  db_password : string;
  db_url : option string;
  auto_migrate : bool;
  db_type : string;
  current_version : Z;
  migrations_applied : Z;
  migrations_rolled_back : Z;
  last_migration : option Z;
  applied_records : gmap Z MigrationRecord;
  pending_migrations : list Migration
}.
#[export] Instance MigrationShim_settable : Settable MigrationShim := λ s,
  mkShim (dir s) (database s) (db_host s) (db_port s) (db_user s) (db_password s) (db_url s)
    (auto_migrate s) (db_type s) (current_version s) (migrations_applied s)
    (migrations_rolled_back s) (last_migration s) (applied_records s) (pending_migrations s).

Definition new_migration (env : environment) : MigrationShim :=
  {| dir := env_or env "MIGRATION_DIR" "/migrations";
     database := env_or env "MIGRATION_DATABASE" "";
     db_host := env_or env "MIGRATION_DB_HOST" "127.0.0.1";
     db_port := env_parse env "MIGRATION_DB_PORT" (parse_unsigned (2 ^ 16 - 1)) 5432;
     db_user := env_or env "MIGRATION_DB_USER" "postgres";
     db_password := env_or env "MIGRATION_DB_PASSWORD" "";
     db_url := env !! "MIGRATION_DB_URL";
     auto_migrate := match env !! "MIGRATION_AUTO_MIGRATE" with
                     | Some v => bool_decide (v = "true") || bool_decide (v = "1")
                     | None => false
                     end;
     db_type := env_or env "MIGRATION_DB_TYPE" "postgres";
     current_version := 0;
     migrations_applied := 0;
     migrations_rolled_back := 0;
     last_migration := None;
     applied_records := ∅;
     pending_migrations := [] |}.

Definition has_db (s : MigrationShim) : bool :=
  negb (bool_decide (db_host s = "")) && negb (bool_decide (database s = "")).
Definition connection_string (s : MigrationShim) : string :=
  match db_url s with
  | Some url => url
  | None =>
      (if bool_decide (db_type s = "mysql") then "mysql://" else "postgres://") +:+
      db_user s +:+ ":" +:+ db_password s +:+ "@" +:+ db_host s +:+ ":" +:+ pretty (db_port s) +:+
      "/" +:+ database s
  end.

(** [compute_checksum]: FNV-1a, as sixteen hexadecimal digits *)
Fixpoint checksum_fold (hash : Z) (sql : string) : Z :=
  match sql with
  | EmptyString => hash
  | String byte rest =>
      checksum_fold (mul64 (Z.lxor hash (Z.of_N (N_of_ascii byte))) 0x100000001b3) rest
  end.
Definition compute_checksum (sql : string) : string :=
  fixed_hex 16 (checksum_fold 0xcbf29ce484222325 sql).

(** [parse_version], [parse_name] *)
Definition trim_sql (filename : string) : string :=
  trim_end_matches ".down.sql" (trim_end_matches ".up.sql" filename).
Definition parse_version (filename : string) : result MigrationError Z :=
  let v := (splitn2 "_" (trim_sql filename)).1 in
  match parse_u32 v with Some n => Ok n | None => Err (InvalidVersion v) end.
Definition parse_name (filename : string) : string :=
  default "" (splitn2 "_" (trim_sql filename)).2.

(** [validate_version_sequence] *)
Fixpoint validate_version_sequence (migrations : list Migration) : result MigrationError unit :=
  match migrations with
  | m0 :: ((m1 :: _) as rest) =>
      let expected := add32 (version m0) 1 in
      if version m1 =? expected then validate_version_sequence rest
      else Err (OutOfOrder expected (version m1))
  | _ => Ok tt
  end.

(** [verify_checksum] *)
Definition verify_checksum (s : MigrationShim) (v : Z) (c : string) : result MigrationError unit :=
  match applied_records s !! v with
  | Some r => if bool_decide (rec_checksum r = c) then Ok tt
              else Err (ChecksumMismatch v (rec_checksum r) c)
  | None => Ok tt
  end.

Section migrations.
Context `{RF : Rfc3339}.

(** The checks at the top of [apply_migration] and [apply_migration_db] *)
Definition check_applicable (m : Migration) (s : MigrationShim) : result MigrationError unit :=
  if bool_decide (is_Some (applied_records s !! version m))
  then Err (VersionConflict (version m) (version m))
  else
    let expected_version := add32 (current_version s) 1 in
    if negb (version m =? expected_version) && (0 <? current_version s)
    then Err (OutOfOrder expected_version (version m))
    else verify_checksum s (version m) (checksum m).

(** The record, and the bookkeeping at the end; [t] and [t'] are the two
    readings of the clock. *)
Definition record_of (t : Z) (m : Migration) : MigrationRecord :=
  mkRecord (version m) (mig_name m) (to_rfc3339 t) (checksum m).
Definition mark_applied (t t' : Z) (m : Migration) (s : MigrationShim) : MigrationShim :=
  s <| applied_records ::= <[version m := record_of t m]> |>
    <| current_version := version m |>
    <| migrations_applied ::= λ n, add64 n 1 |>
    <| last_migration := Some t' |>.

(** [apply_migration] *)
Definition apply_migration (t t' : Z) (m : Migration) (s : MigrationShim)
    : result MigrationError unit * MigrationShim :=
  match check_applicable m s with
  | Err e => (Err e, s)
  | Ok _ => (Ok tt, mark_applied t t' m s)
  end.

(** [dry_run_migration], [dry_run_all_pending] *)
Definition dry_run_migration (m : Migration) (s : MigrationShim)
    : result MigrationError DryRunResult :=
  let r := {| dry_version := version m; dry_name := mig_name m; would_apply := true;
              reason := ""; checksum_valid := false;
              sql_size_bytes := Z.of_nat (String.length (up_sql m));
              has_down_migration := bool_decide (is_Some (down_sql m)) |} in
  match applied_records s !! version m with
  | Some rec =>
      Ok (r <| would_apply := false |>
            <| reason := "Migration v" +:+ pretty (version m) +:+ " already applied at "
                         +:+ applied_at rec |>)
  | None =>
      let expected_version := add32 (current_version s) 1 in
      if negb (version m =? expected_version) && (0 <? current_version s)
      then Ok (r <| would_apply := false |>
                 <| reason := "Out of order: expected v" +:+ pretty expected_version
                              +:+ ", got v" +:+ pretty (version m) |>)
      else
        match verify_checksum s (version m) (checksum m) with
        | Err e => Ok (r <| would_apply := false |>
                         <| reason := "Checksum validation failed: " +:+ error_display e |>)
        | Ok _ =>
            let r := r <| checksum_valid := true |> in
            if bool_decide (trim (up_sql m) = "")
            then Ok (r <| would_apply := false |> <| reason := "Migration SQL is empty" |>)
            else Ok (r <| reason := "Migration would be applied successfully" |>)
        end
  end.
Definition dry_run_all_pending (s : MigrationShim) : list DryRunResult :=
  omap (λ m, match dry_run_migration m s with Ok r => Some r | Err _ => None end)
    (pending_migrations s).

(** [rollback_last] *)
Definition forget_version (v : Z) (s : MigrationShim) : result MigrationError MigrationRecord * MigrationShim :=
  match applied_records s !! v with
  | None => (Err (MissingDownMigration v), s)
  | Some record =>
      let s := s <| applied_records ::= delete v |> in
      (Ok record,
       s <| current_version := default 0 (last_key (applied_records s)) |>
         <| migrations_rolled_back ::= λ n, add64 n 1 |>)
  end.
Definition rollback_last (s : MigrationShim) : result MigrationError MigrationRecord * MigrationShim :=
  if current_version s =? 0 then (Err (MissingDownMigration 0), s)
  else forget_version (current_version s) s.

(** [pending], [applied], [is_up_to_date], [register_migration] *)
Definition pending (s : MigrationShim) : list Migration :=
  filter (λ m, applied_records s !! version m = None) (pending_migrations s).
Definition applied (s : MigrationShim) : list MigrationRecord :=
  sort_by_key rec_version (btree_values (applied_records s)).
Definition is_up_to_date (s : MigrationShim) : bool := bool_decide (pending s = []).
Definition register_migration (m : Migration) (s : MigrationShim) : MigrationShim :=
  s <| pending_migrations ::= λ l, sort_by_key version (l ++ [m]) |>.

(** ** With a database

    Every answer is the database's: it may refuse, and may have changed when it
    does. *)
Class SqlDb := {
  Db : Type;
  db_create_table : Db → result string unit * Db;
  db_execute : string → Db → result string unit * Db;
  db_insert : Z → string → string → string → Db → result string unit * Db;
  db_delete : Z → Db → result string unit * Db
}.
Context `{DB : SqlDb}.

Definition ensure_migrations_table (s : MigrationShim) (d : Db) : result string unit * Db :=
  if has_db s then db_create_table d else (Ok tt, d).
Definition execute_sql (sql : string) (s : MigrationShim) (d : Db) : result string unit * Db :=
  if has_db s then db_execute sql d else (Ok tt, d).
Definition insert_migration_record (r : MigrationRecord) (s : MigrationShim) (d : Db)
    : result string unit * Db :=
  if has_db s
  then db_insert (as_i32 (rec_version r)) (rec_name r) (rec_checksum r) (applied_at r) d
  else (Ok tt, d).
Definition delete_migration_record (v : Z) (s : MigrationShim) (d : Db) : result string unit * Db :=
  if has_db s then db_delete (as_i32 v) d else (Ok tt, d).

(** [apply_migration_db] *)
Definition apply_migration_db (t t' : Z) (m : Migration) (s : MigrationShim) (d : Db)
    : result MigrationError unit * MigrationShim * Db :=
  match check_applicable m s with
  | Err e => (Err e, s, d)
  | Ok _ =>
      match (if has_db s then execute_sql (up_sql m) s d else (Ok tt, d)) with
      | (Err _, d) => (Err (VersionConflict (version m) (version m)), s, d)
      | (Ok _, d) =>
          let d := if has_db s then (insert_migration_record (record_of t m) s d).2 else d in
          (Ok tt, mark_applied t t' m s, d)
      end
  end.

(** [rollback_last_db] *)
Definition rollback_last_db (down : option string) (s : MigrationShim) (d : Db)
    : result MigrationError MigrationRecord * MigrationShim * Db :=
  if current_version s =? 0 then (Err (MissingDownMigration 0), s, d)
  else
    let v := current_version s in
    let executed := match down with
                    | Some sql => if has_db s then execute_sql sql s d else (Ok tt, d)
                    | None => (Ok tt, d)
                    end in
    match executed with
    | (Err _, d) => (Err (MissingDownMigration v), s, d)
    | (Ok _, d) =>
        let d := if has_db s then (delete_migration_record v s d).2 else d in
        let '(r, s) := forget_version v s in (r, s, d)
    end.

(** ** The migration directory *)

(** What [read_dir] yields: names that are valid UTF-8, in any order *)
Inductive DirListing :=
| DirMissing
| DirFails (e : string)
| DirEntries (names : list string).

(** [scan_migrations]: the version, the name and the file *)
Definition scanned_file (name : string) : option (Z * string * string) :=
  if ends_with name ".up.sql" then
    let '(v, rest) := splitn2 "_" name in
    match parse_u32 v with
    | Some n => Some (n, trim_end_matches ".up.sql" (default "" rest), name)
    | None => None
    end
  else None.
Definition file_version (f : Z * string * string) : Z := f.1.1.
Definition scan_migrations (l : DirListing) : result string (list (Z * string * string)) :=
  match l with
  | DirMissing => Ok []
  | DirFails e => Err e
  | DirEntries names => Ok (sort_by_key file_version (omap scanned_file names))
  end.
(** [read_migration]; [read] is [read_to_string]. *)
Definition read_migration (read : string → result string string) (path : string)
    : result string string :=
  match read path with
  | Ok sql => Ok sql
  | Err e => Err ("Failed to read migration " +:+ path +:+ ": " +:+ e)
  end.

(** [start]: the loop over the files; [clock i] are the readings for the [i]-th.
    A migration that fails is only logged, a file that cannot be read ends it. *)
Definition file_migration (f : Z * string * string) (sql : string) : Migration :=
  mkMigration (file_version f) f.1.2 sql None (compute_checksum sql).
Fixpoint apply_files (clock : nat → Z * Z) (read : string → result string string) (i : nat)
    (files : list (Z * string * string)) (s : MigrationShim) (d : Db)
    : result string unit * MigrationShim * Db :=
  match files with
  | [] => (Ok tt, s, d)
  | f :: rest =>
      match read_migration read f.2 with
      | Err e => (Err e, s, d)
      | Ok sql =>
          let '(_, s, d) :=
            apply_migration_db (clock i).1 (clock i).2 (file_migration f sql) s d in
          apply_files clock read (S i) rest s d
      end
  end.

Context `{LJ : LockJson}.

Definition start (fs : FsAnswers) (who : Z * string) (now : Z) (clock : nat → Z * Z)
    (listing : DirListing) (read : string → result string string)
    (s : MigrationShim) (d : Db) (lf : LockFile)
    : result string unit * MigrationShim * Db * LockFile :=
  let d := (ensure_migrations_table s d).2 in
  if auto_migrate s then
    match acquire_lock (new_lock (dir s)) fs who now lf with
    | (Err e, lf) => (Err e, s, d, lf)
    | (Ok _, lf) =>
        match scan_migrations listing with
        | Err e => (Err e, s, d, lf)
        | Ok files =>
            match apply_files clock read 0 files s d with
            | (Err e, s, d) => (Err e, s, d, lf)
            | (Ok _, s, d) => (Ok tt, s, d, (release_lock fs lf).2)
            end
        end
    end
  else (Ok tt, s, d, lf).
End migrations.

(** [init]; [errors] is what [config.validate()] returns, and [migration] the
    section of the configuration *)
Definition join (sep : string) (l : list string) : string := String.concat sep l.
Definition init (validation_enabled : bool) (errors : list ConfigValidationError)
    (migration : option MigrationConfig) (s : MigrationShim) : result string unit * MigrationShim :=
  let mine := filter (λ e, starts_with (field e) "migration." = true) errors in
  if validation_enabled && negb (bool_decide (mine = []))
  then (Err ("migration config validation failed: " +:+ join "; " (Config.error_display <$> mine)), s)
  else
    (Ok tt,
     match migration with
     | Some c =>
         s <| dir := cfg_dir c |> <| database := cfg_database c |>
           <| auto_migrate := cfg_auto_migrate c |> <| db_host := cfg_db_host c |>
           <| db_port := cfg_db_port c |> <| db_user := cfg_db_user c |>
           <| db_password := cfg_db_password c |> <| db_type := cfg_db_type c |>
     | None => s
     end).

Definition migration_metrics (s : MigrationShim) : list (string * f64) :=
  [("migration_current_version", f64_of_Z (current_version s));
   ("migration_applied_total", f64_of_Z (migrations_applied s));
   ("migration_rolled_back_total", f64_of_Z (migrations_rolled_back s));
   ("migration_pending_total", f64_of_Z (Z.of_nat (length (pending s))))] ++
  match last_migration s with
  | Some t => [("migration_last_success_timestamp", f64_of_Z (t / 10 ^ 9))]
  | None => []
  end.

(** ** Several databases

    [TargetIo]: how the driver and the file system answer for one target;
    [Some e] is an error, and [reconnect] is the second connection, made for each
    file. *)
Record MigrationTarget := mkTarget {
  target_name : string;
  target_db_type : string;
  target_db_url : string;
  migration_dir : list string
}.
Record TargetIo := mkTargetIo {
  io_connect : option string;
  io_read : string → result string string;
  io_reconnect : string → bool;
  io_execute : string → string → option string;
  io_elapsed_ms : Z
}.
Record TargetMigrationResult := mkTargetResult {
  res_name : string;
  success : bool;
  res_applied : Z;
  errors : list string;
  duration_ms : Z
}.

(** One file of [migrate_target] *)
Definition migrate_file (io : TargetIo) (path : string) (acc : Z * list string) : Z * list string :=
  let '(n, errs) := acc in
  match io_read io path with
  | Ok sql =>
      if io_reconnect io path then
        match io_execute io path sql with
        | Some e => (n, errs ++ [path +:+ ": " +:+ e])
        | None => (add32 n 1, errs)
        end
      else acc
  | Err e => (n, errs ++ ["Failed to read " +:+ path +:+ ": " +:+ e])
  end.
Definition migrate_target (io : TargetIo) (t : MigrationTarget) : TargetMigrationResult :=
  let '(n, errs) :=
    if bool_decide (target_db_type t = "postgres") || bool_decide (target_db_type t = "mysql") then
      match io_connect io with
      | None => foldl (λ acc p, migrate_file io p acc) (0, []) (migration_dir t)
      | Some e => (0, ["Connection failed: " +:+ e])
      end
    else (0, ["Unsupported database type: " +:+ target_db_type t]) in
  mkTargetResult (target_name t) (bool_decide (errs = [])) n errs (io_elapsed_ms io).
(** [orchestrate_multi_db] *)
Definition orchestrate_multi_db (targets : list (MigrationTarget * TargetIo))
    : bool * list TargetMigrationResult :=
  let results := (λ t, migrate_target t.2 t.1) <$> targets in
  (forallb success results, results).

(** ** Laws *)

Lemma last_key_insert {V} (m : gmap Z V) k v :
  (∀ k', is_Some (m !! k') → k' ≤ k) → last_key (<[k:=v]> m) = Some k.
Proof.
  intros Hmax. apply last_key_spec. rewrite lookup_insert_eq. split; [done|].
  intros k' Hk'. destruct (decide (k' = k)) as [->|Hne]; [done|].
  rewrite lookup_insert_ne in Hk' by done. by apply Hmax.
Qed.
Lemma last_key_max {V} (m : gmap Z V) k :
  is_Some (m !! k) → is_Some (last_key m) ∧ k ≤ default 0 (last_key m).
Proof.
  intros Hk. destruct (last_key m) as [x|] eqn:E.
  - apply last_key_spec in E as [_ Hmax]. split; [done|]. by apply Hmax.
  - apply last_key_None in E as ->. rewrite lookup_empty in Hk. by destruct Hk.
Qed.
Lemma last_key_elem {V} (m : gmap Z V) :
  m ≠ ∅ → is_Some (m !! default 0 (last_key m)).
Proof.
  intros Hm. destruct (last_key m) as [x|] eqn:E.
  - by apply last_key_spec in E as [? _].
  - by apply last_key_None in E.
Qed.

(** The records are keyed by their version, the current version is the highest
    one, and the positive versions have no gap. *)
Record versions_ok (s : MigrationShim) : Prop := {
  vo_keys : ∀ k r, applied_records s !! k = Some r → rec_version r = k ∧ 0 ≤ k < 2 ^ 32 - 1;
  vo_current : current_version s = default 0 (last_key (applied_records s));
  vo_contiguous : ∀ k j, 0 < k → is_Some (applied_records s !! k) → k ≤ j ≤ current_version s →
                  is_Some (applied_records s !! j)
}.

Section migration_laws.
Context `{RF : Rfc3339} `{DB : SqlDb} `{LJ : LockJson}.
Implicit Types (s : MigrationShim) (m : Migration).

Lemma versions_ok_new env : versions_ok (new_migration env).
Proof.
  split; simpl.
  - intros k r Hk. by rewrite lookup_empty in Hk.
  - done.
  - intros k j _ Hk. rewrite lookup_empty in Hk. by destruct Hk.
Qed.
Lemma versions_ok_le s k : versions_ok s → is_Some (applied_records s !! k) → k ≤ current_version s.
Proof. intros Hs Hk. rewrite (vo_current s Hs). by apply last_key_max. Qed.
Lemma versions_ok_current_bound s : versions_ok s → 0 ≤ current_version s < 2 ^ 32 - 1.
Proof.
  intros Hs. rewrite (vo_current s Hs).
  destruct (decide (applied_records s = ∅)) as [E|E].
  - rewrite E. assert (last_key (∅ : gmap Z MigrationRecord) = None) as ->
      by by apply last_key_None. done.
  - destruct (last_key_elem _ E) as [r Hr]. apply (vo_keys s Hs _ _ Hr).
Qed.

(** What the checks accept *)
Lemma check_applicable_ok m s :
  versions_ok s →
  check_applicable m s = Ok tt ↔
  applied_records s !! version m = None ∧
  (version m = current_version s + 1 ∨ current_version s = 0).
Proof.
  intros Hs. pose proof (versions_ok_current_bound s Hs). unfold check_applicable, verify_checksum.
  case_bool_decide as Happ.
  - split; [done|]. intros [E _]. rewrite E in Happ. by destruct Happ.
  - apply eq_None_not_Some in Happ. rewrite Happ, add32_small by (unfold in_u; lia).
    destruct (Z.eqb_spec (version m) (current_version s + 1)) as [E|E]; simpl; [tauto|].
    destruct (Z.ltb_spec 0 (current_version s)); simpl.
    + split; [done|]. lia.
    + split; [|done]. intros _. split; [done|]. lia.
Qed.
Lemma check_applicable_unit m s r : check_applicable m s = Ok r → check_applicable m s = Ok tt.
Proof. by destruct r. Qed.

Lemma versions_ok_mark t t' m s :
  0 ≤ version m < 2 ^ 32 - 1 → versions_ok s → check_applicable m s = Ok tt →
  versions_ok (mark_applied t t' m s).
Proof.
  intros Hm Hs Hc. pose proof (versions_ok_current_bound s Hs).
  apply check_applicable_ok in Hc as [Hnew Hver]; [|done].
  assert (∀ k, is_Some (applied_records s !! k) → k ≤ version m) as Hmax.
  { intros k Hk. pose proof (versions_ok_le s k Hs Hk). lia. }
  split; simpl.
  - intros k r. rewrite lookup_insert_Some. intros [[<- <-]|[_ Hk]]; [done|].
    by apply (vo_keys s Hs).
  - by rewrite last_key_insert.
  - intros k j Hk Hin Hj. destruct (decide (j = version m)) as [->|Hne].
    { by rewrite lookup_insert_eq. }
    rewrite lookup_insert_ne by done.
    destruct (decide (k = version m)) as [->|Hk']; [lia|]. rewrite lookup_insert_ne in Hin by done.
    pose proof (versions_ok_le s k Hs Hin). apply (vo_contiguous s Hs k); [done..|lia].
Qed.

Lemma versions_ok_forget s :
  versions_ok s → versions_ok (forget_version (current_version s) s).2.
Proof.
  intros Hs. pose proof (versions_ok_current_bound s Hs) as Hb. unfold forget_version.
  destruct (applied_records s !! current_version s) as [r|] eqn:E; [|done].
  assert (∀ k, is_Some (delete (current_version s) (applied_records s) !! k) →
    is_Some (applied_records s !! k) ∧ k < current_version s) as Hlt.
  { intros k Hk. destruct (decide (k = current_version s)) as [->|Hne].
    { rewrite lookup_delete_eq in Hk. by destruct Hk. }
    rewrite lookup_delete_ne in Hk by done. split; [done|].
    pose proof (versions_ok_le s k Hs Hk). lia. }
  split; simpl.
  - intros k r' Hk. apply (vo_keys s Hs). rewrite lookup_delete_Some in Hk. tauto.
  - done.
  - intros k j Hk Hin Hj. destruct (Hlt k Hin) as [Hin' ?].
    assert (j < current_version s) as Hjc.
    { destruct (last_key_max _ _ Hin) as [[x Hx] _]. rewrite Hx in Hj. simpl in Hj.
      apply last_key_spec in Hx as [Hx _]. destruct (Hlt x Hx). lia. }
    rewrite lookup_delete_ne by lia. apply (vo_contiguous s Hs k); [done..|lia].
Qed.

(** Any sequence of the calls that change the shim, on memory and on a database *)
Inductive MigrationOp :=
| OpInit (validation_enabled : bool) (errors : list ConfigValidationError) (c : option MigrationConfig)
| OpStart (fs : FsAnswers) (who : Z * string) (now : Z) (clock : nat → Z * Z) (listing : DirListing)
    (read : string → result string string) (lf : LockFile)
| OpApply (t t' : Z) (m : Migration)
| OpRollback
| OpApplyDb (t t' : Z) (m : Migration)
| OpRollbackDb (down : option string)
| OpRegister (m : Migration).
Definition op_step (o : MigrationOp) (sd : MigrationShim * Db) : MigrationShim * Db :=
  let '(s, d) := sd in
  match o with
  | OpInit v errs c => ((init v errs c s).2, d)
  | OpStart fs who now clock listing read lf =>
      let '(_, s, d, _) := start fs who now clock listing read s d lf in (s, d)
  | OpApply t t' m => ((apply_migration t t' m s).2, d)
  | OpRollback => ((rollback_last s).2, d)
  | OpApplyDb t t' m => let '(_, s, d) := apply_migration_db t t' m s d in (s, d)
  | OpRollbackDb down => let '(_, s, d) := rollback_last_db down s d in (s, d)
  | OpRegister m => (register_migration m s, d)
  end.
Definition op_run (os : list MigrationOp) (sd : MigrationShim * Db) : MigrationShim * Db :=
  foldl (λ sd o, op_step o sd) sd os.
(** The versions are below the largest one: after that the successor wraps. *)
Definition listed (l : DirListing) : list (Z * string * string) :=
  match scan_migrations l with Ok files => files | Err _ => [] end.
Definition op_bounded (o : MigrationOp) : Prop :=
  match o with
  | OpApply _ _ m | OpApplyDb _ _ m => 0 ≤ version m < 2 ^ 32 - 1
  | OpStart _ _ _ _ listing _ _ => Forall (λ f, 0 ≤ file_version f < 2 ^ 32 - 1) (listed listing)
  | _ => True
  end.

Lemma versions_ok_apply t t' m s :
  0 ≤ version m < 2 ^ 32 - 1 → versions_ok s → versions_ok (apply_migration t t' m s).2.
Proof.
  intros Hm Hs. unfold apply_migration. destruct (check_applicable m s) as [[]|e] eqn:E; [|done].
  by apply versions_ok_mark.
Qed.
Lemma versions_ok_apply_db t t' m s d :
  0 ≤ version m < 2 ^ 32 - 1 → versions_ok s → versions_ok (apply_migration_db t t' m s d).1.2.
Proof.
  intros Hm Hs. unfold apply_migration_db. destruct (check_applicable m s) as [[]|e] eqn:E; [|done].
  destruct (if has_db s then _ else _) as [[[]|e] d']; [|done]. by apply versions_ok_mark.
Qed.
Lemma versions_ok_rollback_db down s d : versions_ok s → versions_ok (rollback_last_db down s d).1.2.
Proof.
  intros Hs. unfold rollback_last_db. case_match; [done|].
  destruct (match down with Some _ => _ | None => _ end) as [[?|?] d']; [|done].
  pose proof (versions_ok_forget s Hs) as Hf. by destruct (forget_version _ _) as [r s'].
Qed.
Lemma versions_ok_files clock read i files s d :
  Forall (λ f, 0 ≤ file_version f < 2 ^ 32 - 1) files → versions_ok s →
  versions_ok (apply_files clock read i files s d).1.2.
Proof.
  intros Hf. revert i s d. induction Hf as [|f files Hv _ IH]; intros i s d Hs; [done|]. simpl.
  destruct (read_migration read f.2) as [sql|e]; [|done].
  pose proof (versions_ok_apply_db (clock i).1 (clock i).2 (file_migration f sql) s d Hv Hs) as Ha.
  destruct (apply_migration_db _ _ _ _ _) as [[r s'] d']. by apply IH.
Qed.
Lemma versions_ok_start fs who now clock listing read s d lf :
  Forall (λ f, 0 ≤ file_version f < 2 ^ 32 - 1) (listed listing) → versions_ok s →
  versions_ok (start fs who now clock listing read s d lf).1.1.2.
Proof.
  intros Hf Hs. unfold start. destruct (auto_migrate s); [|done].
  destruct (acquire_lock _ _ _ _ _) as [[?|?] lf']; [|done].
  unfold listed in Hf. destruct (scan_migrations listing) as [files|e]; [|done].
  pose proof (versions_ok_files clock read 0 files s (ensure_migrations_table s d).2 Hf Hs) as Hr.
  by destruct (apply_files _ _ _ _ _ _) as [[[?|?] s'] d'].
Qed.
Lemma versions_ok_step o sd : op_bounded o → versions_ok sd.1 → versions_ok (op_step o sd).1.
Proof.
  destruct sd as [s d]. intros Ho Hs. destruct o as [v errs c|fs who now clock listing read lf|t t' m| |t t' m|down|m]; simpl in *.
  - unfold init. case_match; [done|]. destruct c; [|done]. by destruct Hs; split.
  - pose proof (versions_ok_start fs who now clock listing read s d lf Ho Hs). by destruct (start _ _ _ _ _ _ _ _ _) as [[[? ?] ?] ?].
  - by apply versions_ok_apply.
  - unfold rollback_last. case_match; [done|]. by apply versions_ok_forget.
  - pose proof (versions_ok_apply_db t t' m s d Ho Hs). by destruct (apply_migration_db _ _ _ _ _) as [[? ?] ?].
  - pose proof (versions_ok_rollback_db down s d Hs). by destruct (rollback_last_db _ _ _) as [[? ?] ?].
  - by destruct Hs; split.
Qed.
Lemma versions_ok_run os sd : Forall op_bounded os → versions_ok sd.1 → versions_ok (op_run os sd).1.
Proof.
  intros Hos. revert sd. induction Hos as [|o os Ho Hos IH]; intros sd Hs; [done|].
  by apply IH, versions_ok_step.
Qed.

(** C14. Whatever sequence of initialisations, starts over a directory, applications and
    rollbacks - in memory or against a database that may refuse any statement - and
    registrations a fresh shim goes through, as long as no migration has the largest
    version there is (2^32 - 1, whose successor wraps to 0): every record is filed under
    its own version, the current version is the highest one applied (0 if there is
    none), and the positive versions applied form an interval, so that a migration is
    never skipped between two applied ones. *)
Theorem versions_contiguous env d os :
  Forall op_bounded os → versions_ok (op_run os (new_migration env, d)).1.
Proof. intros Hos. apply versions_ok_run; [done|]. apply versions_ok_new. Qed.

(** The bound is needed: on a fresh shim the version 2^32 - 1 is accepted, and after it
    0, which becomes the current version. *)
Lemma largest_version_wraps env t m1 m2 :
  version m1 = 2 ^ 32 - 1 → version m2 = 0 →
  let s := (apply_migration t t m2 (apply_migration t t m1 (new_migration env)).2).2 in
  current_version s = 0 ∧ is_Some (applied_records s !! (2 ^ 32 - 1)).
Proof.
  intros H1 H2. destruct m1, m2. simpl in *. subst. unfold apply_migration, check_applicable, verify_checksum, mark_applied. simpl.
  split; [done|by eexists].
Qed.

(** Rolling back undoes an application: the record comes back, and the
    records and the current version are what they were before. *)
Theorem rollback_undoes_apply t t' m s s' :
  versions_ok s → 0 < version m → apply_migration t t' m s = (Ok tt, s') →
  (rollback_last s').1 = Ok (record_of t m) ∧
  applied_records (rollback_last s').2 = applied_records s ∧
  current_version (rollback_last s').2 = current_version s.
Proof.
  intros Hs Hm E. unfold apply_migration in E.
  destruct (check_applicable m s) as [[]|e] eqn:Ec; [|done]. injection E as <-.
  apply check_applicable_ok in Ec as [Hnew _]; [|done].
  unfold rollback_last, forget_version. simpl.
  rewrite (proj2 (Z.eqb_neq _ _)) by lia. rewrite lookup_insert_eq. simpl.
  rewrite delete_insert_eq, delete_id by done. by rewrite <-(vo_current s Hs).
Qed.

(** The dry run of a migration always answers, and what it predicts is what
    [apply_migration] does, except that empty SQL is refused by the dry run
    only. *)
Theorem dry_run_predicts t t' m s :
  ∃ r, dry_run_migration m s = Ok r ∧
    would_apply r = is_ok (apply_migration t t' m s).1 && negb (bool_decide (trim (up_sql m) = "")).
Proof.
  unfold dry_run_migration, apply_migration, check_applicable.
  destruct (applied_records s !! version m) as [rec|] eqn:E.
  { eexists. split; [done|]. by rewrite (bool_decide_eq_true_2 (is_Some (Some rec))). }
  rewrite (bool_decide_eq_false_2 (is_Some None)) by (intros [? ?]; done).
  destruct (negb _ && _); [eexists; done|].
  unfold verify_checksum. rewrite E. simpl.
  destruct (bool_decide (trim (up_sql m) = "")); eexists; done.
Qed.
Lemma dry_run_all_length s : length (dry_run_all_pending s) = length (pending_migrations s).
Proof.
  unfold dry_run_all_pending. induction (pending_migrations s) as [|m l IH]; [done|]. csimpl.
  destruct (dry_run_predicts 0 0 m s) as (r & -> & _). csimpl. by rewrite IH.
Qed.

(** With no database configured, [apply_migration_db] is [apply_migration] and
    [rollback_last_db] is [rollback_last]. *)
Lemma apply_db_no_db t t' m s d :
  has_db s = false →
  apply_migration_db t t' m s d = (apply_migration t t' m s, d).
Proof.
  intros E. unfold apply_migration_db, apply_migration. rewrite E.
  by destruct (check_applicable m s).
Qed.
Lemma rollback_db_no_db down s d :
  has_db s = false → rollback_last_db down s d = (rollback_last s, d).
Proof.
  intros E. unfold rollback_last_db, rollback_last. rewrite E.
  destruct (current_version s =? 0); [done|].
  by destruct down; destruct (forget_version (current_version s) s).
Qed.

(** Against a database the shim records a migration exactly when its SQL was
    executed; when the SQL fails the shim is unchanged and the failure is
    reported as a version conflict of the migration with itself. *)
Lemma apply_db_outcome t t' m s d :
  check_applicable m s = Ok tt → has_db s = true →
  let '(r, s', _) := apply_migration_db t t' m s d in
  match (db_execute (up_sql m) d).1 with
  | Ok _ => r = Ok tt ∧ s' = mark_applied t t' m s
  | Err _ => r = Err (VersionConflict (version m) (version m)) ∧ s' = s
  end.
Proof.
  intros Hc Hdb. unfold apply_migration_db, execute_sql. rewrite Hc, Hdb.
  by destruct (db_execute (up_sql m) d) as [[[]|e] d'].
Qed.

(** [ChecksumMismatch] cannot come out of an application. *)
Lemma no_checksum_mismatch m s v x a : check_applicable m s ≠ Err (ChecksumMismatch v x a).
Proof.
  unfold check_applicable, verify_checksum. case_bool_decide as E; [done|].
  apply eq_None_not_Some in E. rewrite E. by case_match.
Qed.
(** *** The start of the shim *)

(** The text of a file that can be read *)
Definition sql_of (read : string → result string string) (f : Z * string * string) : string :=
  match read f.2 with Ok sql => sql | Err _ => "" end.
Definition readable (read : string → result string string) (f : Z * string * string) : bool :=
  is_ok (read f.2).

(** The database executes whatever it is given. *)
Definition db_willing : Prop := ∀ sql d, (db_execute sql d).1 = Ok tt.

Lemma apply_db_willing t t' m s d :
  db_willing → check_applicable m s = Ok tt →
  ∃ d', apply_migration_db t t' m s d = (Ok tt, mark_applied t t' m s, d').
Proof.
  intros Hw Hc. destruct (has_db s) eqn:Hdb.
  - pose proof (apply_db_outcome t t' m s d Hc Hdb) as H.
    destruct (apply_migration_db t t' m s d) as [[r s'] d']. rewrite Hw in H.
    destruct H as [-> ->]. by exists d'.
  - rewrite apply_db_no_db by done. unfold apply_migration. rewrite Hc. by exists d.
Qed.

Lemma apply_files_contiguous clock read i files s d n :
  db_willing → versions_ok s → Forall (λ f, readable read f = true) files →
  file_version <$> files = seqZ (current_version s + 1) n →
  0 ≤ n → current_version s + n < 2 ^ 32 - 1 →
  ∃ s1 d1, apply_files clock read i files s d = (Ok tt, s1, d1) ∧
    versions_ok s1 ∧ current_version s1 = current_version s + n ∧
    (∀ k, k ≤ current_version s → applied_records s1 !! k = applied_records s !! k) ∧
    (∀ f, f ∈ files → ∃ r, applied_records s1 !! file_version f = Some r ∧
       rec_name r = f.1.2 ∧ rec_checksum r = compute_checksum (sql_of read f)).
Proof.
  intros Hw. revert i s d n. induction files as [|f files IH]; intros i s d n Hs Hread Hv Hn0 Hn.
  { csimpl in Hv. assert (n = 0) as ->.
    { apply (f_equal length) in Hv. rewrite length_seqZ in Hv. simpl in Hv. lia. }
    exists s, d. split_and!; [done|done|lia|done|]. intros f Hf. by apply elem_of_nil in Hf. }
  apply Forall_cons in Hread as [Hf Hread]. csimpl in Hv.
  assert (0 < n) as Hpos.
  { apply (f_equal length) in Hv. rewrite length_seqZ in Hv. simpl in Hv. lia. }
  rewrite seqZ_cons in Hv by done. injection Hv as Hv0 Hv.
  pose proof (versions_ok_current_bound s Hs) as Hb.
  simpl. unfold read_migration, readable in *. destruct (read f.2) as [sql|e] eqn:Er; [|done].
  set (m := file_migration f sql).
  assert (version m = current_version s + 1) as Hvm by exact Hv0.
  assert (check_applicable m s = Ok tt) as Hc.
  { apply check_applicable_ok; [done|]. split; [|by left].
    destruct (applied_records s !! version m) eqn:E; [|done].
    pose proof (versions_ok_le s (version m) Hs (mk_is_Some _ _ E)). lia. }
  destruct (apply_db_willing (clock i).1 (clock i).2 m s d Hw Hc) as [d1 ->].
  set (s1 := mark_applied (clock i).1 (clock i).2 m s).
  assert (versions_ok s1) as Hs1 by (apply versions_ok_mark; [lia|done..]).
  assert (current_version s1 = current_version s + 1) as Hc1 by exact Hvm.
  destruct (IH (S i) s1 d1 (n - 1)) as (s2 & d2 & E & Hs2 & Hcur & Hold & Hnew);
    [done|done| |lia|lia|].
  { rewrite Hv, Hc1. f_equal; lia. }
  exists s2, d2. split_and!; [done|done|lia| |].
  - intros k Hk. rewrite Hold by lia. simpl. by rewrite lookup_insert_ne by lia.
  - intros f' [->|Hf']%elem_of_cons; [|by apply Hnew].
    exists (record_of (clock i).1 m). change (file_version f) with (version m).
    rewrite Hold by lia. simpl. rewrite lookup_insert_eq. unfold sql_of. by rewrite Er.
Qed.

(** A fresh shim that starts over a directory with the migrations 1 to n, in
    whatever order the directory lists them, applies exactly these in order and
    releases the lock: afterwards the current version is n and each record
    carries the name and the checksum of its file.  (The database, if one is
    configured, accepts the SQL.) *)
Theorem start_migrates_directory who now clock names files read s d n :
  db_willing → versions_ok s → current_version s = 0 → auto_migrate s = true →
  omap scanned_file names ≡ₚ files → file_version <$> files = seqZ 1 n →
  0 ≤ n < 2 ^ 32 - 1 → Forall (λ f, readable read f = true) files →
  ∃ s1 d1, start fs_ok who now clock (DirEntries names) read s d NoFile = (Ok tt, s1, d1, NoFile) ∧
    versions_ok s1 ∧ current_version s1 = n ∧
    ∀ f, f ∈ files → ∃ r, applied_records s1 !! file_version f = Some r ∧
      rec_name r = f.1.2 ∧ rec_checksum r = compute_checksum (sql_of read f).
Proof.
  intros Hw Hs Hcur Hauto HP Hv Hn Hread. unfold start. rewrite Hauto. simpl.
  rewrite (sort_by_key_unique file_version _ files HP);
    [|by apply sorted_by_fmap; rewrite Hv; apply seqZ_sorted_by|rewrite Hv; apply NoDup_seqZ].
  destruct (apply_files_contiguous clock read 0 files s (ensure_migrations_table s d).2 n)
    as (s1 & d1 & -> & Hs1 & Hc1 & _ & Hnew); [done..| |lia|lia|].
  { by rewrite Hcur. }
  exists s1, d1. split_and!; [done|done|lia|done].
Qed.

Lemma apply_files_unreadable clock read i files s d :
  Exists (λ f, readable read f = false) files →
  ∃ e s1 d1, apply_files clock read i files s d = (Err e, s1, d1).
Proof.
  intros H. revert i s d. induction H as [f files Hf|f files Hf IH]; intros i s d; simpl;
    unfold read_migration, readable in *.
  - destruct (read f.2); [done|]. eauto.
  - destruct (read f.2); [|eauto].
    destruct (apply_migration_db _ _ _ _ _) as [[r s1] d1]. apply IH.
Qed.

(** One unreadable migration file leaves the lock behind: the start fails with
    the lock still held, and every later start is refused until the lock is an hour
    old. *)
Theorem unreadable_file_keeps_lock who1 who2 t1 t2 clock1 clock2 names read1 listing2 read2
    s1 d1 s2 d2 :
  auto_migrate s1 = true → auto_migrate s2 = true →
  Exists (λ f, readable read1 f = false) (omap scanned_file names) →
  t1 ≤ t2 → num_seconds_between t2 t1 ≤ 3600 →
  ∃ e s3 d3 lf,
    start fs_ok who1 t1 clock1 (DirEntries names) read1 s1 d1 NoFile = (Err e, s3, d3, lf) ∧
    ∃ d4, start fs_ok who2 t2 clock2 listing2 read2 s2 d2 lf = (Err (held_message lf), s2, d4, lf).
Proof.
  intros Ha1 Ha2 Hex Hle Hage. unfold start at 1. rewrite Ha1. simpl.
  destruct (apply_files_unreadable clock1 read1 0 (sort_by_key file_version (omap scanned_file names))
    s1 (ensure_migrations_table s1 d1).2) as (e & s3 & d3 & ->).
  { by rewrite sort_by_key_perm. }
  exists e, s3, d3, (Content (lock_content who1 t1)). split; [done|].
  unfold start. rewrite Ha2. unfold acquire_lock. cbn [is_locked]. rewrite is_stale_content.
  rewrite age_as_u64 by lia. simpl. rewrite (proj2 (Z.ltb_ge _ _)) by done. eauto.
Qed.
End migration_laws.

(** *** File names *)

(** The name of a migration file determines its version and its name: what is
    printed as zeros, the version, an underscore and the name is parsed back,
    from the up and from the down file. *)
Theorem filename_roundtrip k v name :
  0 ≤ v < 2 ^ 32 → ends_with name ".up.sql" = false → ends_with name ".down.sql" = false →
  let stem := (zeros k +:+ pretty (Z.to_N v)) +:+ "_" +:+ name in
  parse_version (stem +:+ ".up.sql") = Ok v ∧ parse_name (stem +:+ ".up.sql") = name ∧
  parse_version (stem +:+ ".down.sql") = Ok v ∧ parse_name (stem +:+ ".down.sql") = name.
Proof.
  intros Hv Hup Hdown stem.
  set (num := zeros k +:+ pretty (Z.to_N v)) in *.
  assert (digits_value 0 num = Some v) as Hnum.
  { unfold num. rewrite digits_value_zeros, digits_value_pretty. f_equal. lia. }
  assert (num ≠ "") as Hne.
  { unfold num. destruct k; [apply pretty_N_ne|done]. }
  assert (splitn2 "_" stem = (num, Some name)) as Hsplit.
  { apply splitn2_app. eapply digits_avoid; done. }
  assert (ends_with stem ".up.sql" = false ∧ ends_with stem ".down.sql" = false) as [Hsu Hsd].
  { unfold stem. change ("_" +:+ name) with (String "_" name).
    split; by rewrite ends_with_barrier. }
  assert (trim_sql (stem +:+ ".up.sql") = stem ∧ trim_sql (stem +:+ ".down.sql") = stem) as [Eu Ed].
  { unfold trim_sql. split.
    - rewrite trim_end_matches_app by done.
      by rewrite (trim_end_matches_none ".up.sql"), trim_end_matches_none.
    - rewrite (trim_end_matches_none ".up.sql") by (rewrite ends_with_app; [done|simpl; lia]).
      rewrite trim_end_matches_app by done. by rewrite trim_end_matches_none. }
  unfold parse_version, parse_name. rewrite Eu, Ed, Hsplit. simpl.
  unfold parse_u32. rewrite (parse_unsigned_digits _ num v) by (done || lia). done.
Qed.

(** *** The sequence check *)

Lemma validate_version_sequence_ok ms :
  validate_version_sequence ms = Ok tt ↔
  ∀ i m0 m1, ms !! i = Some m0 → ms !! S i = Some m1 → version m1 = add32 (version m0) 1.
Proof.
  induction ms as [|m0 [|m1 rest] IH]; simpl.
  - by split.
  - by split.
  - destruct (Z.eqb_spec (version m1) (add32 (version m0) 1)) as [E|E].
    + rewrite IH. split.
      * intros H [|i] a b Ha Hb; simpl in *; simplify_eq; [done|]. by apply (H i).
      * intros H i a b Ha Hb. by apply (H (S i)).
    + split; [done|]. intros H. exfalso. by apply E, (H 0%nat).
Qed.

(** *** Several databases *)

(** A target counts as migrated when no error was recorded... *)
Lemma migrate_target_success io t :
  success (migrate_target io t) = true ↔ errors (migrate_target io t) = [].
Proof.
  unfold migrate_target. destruct (if bool_decide _ || _ then _ else _) as [n errs]. simpl.
  by rewrite bool_decide_eq_true.
Qed.
Lemma orchestrate_success targets :
  (orchestrate_multi_db targets).1 = true ↔
  Forall (λ t, errors (migrate_target t.2 t.1) = []) targets.
Proof.
  unfold orchestrate_multi_db. cbn [fst]. rewrite forallb_forall, Forall_forall. split.
  - intros H t Ht. apply migrate_target_success, H, list_elem_of_In, list_elem_of_fmap. eauto.
  - intros H x (t & -> & Ht)%list_elem_of_In%list_elem_of_fmap. by apply migrate_target_success, H.
Qed.
(** ... so a target whose connection drops after the first one counts as migrated
    with no file executed. *)
Theorem dropped_connection_succeeds io t :
  target_db_type t = "postgres" → io_connect io = None →
  (∀ p, io_reconnect io p = false) → (∀ p, is_ok (io_read io p) = true) →
  success (migrate_target io t) = true ∧ res_applied (migrate_target io t) = 0.
Proof.
  intros Ht Hc Hr Hread. unfold migrate_target. rewrite Hc, bool_decide_eq_true_2 by done. simpl.
  assert (foldl (λ acc p, migrate_file io p acc) (0, []) (migration_dir t) = (0, [])) as ->; [|done].
  induction (migration_dir t) as [|p l IH]; [done|]. simpl. specialize (Hread p).
  destruct (io_read io p); [|done]. by rewrite Hr.
Qed.

(** ** Runs *)
Section migration_runs.
#[local] Instance demo_rfc3339_i : Rfc3339 := decimal_rfc3339.
Definition demo_decode (s : string) : option LockInfo :=
  match s with
  | EmptyString => None
  | String _ r =>
      match digits_value 0 r with
      | Some (Zpos p) => (λ x : Z * string * string, mkLockInfo x.1.1 x.1.2 x.2) <$> decode p
      | _ => None
      end
  end.
#[local] Program Instance demo_lock_json : LockJson :=
  {| lock_to_json i := String "{" (pretty (Npos (encode (pid i, hostname i, created_at i))));
     lock_from_json := demo_decode |}.
Next Obligation.
  intros [p h c]. unfold demo_decode. rewrite digits_value_pretty.
  simpl Z.of_N. cbv iota beta. by rewrite decode_encode.
Qed.
Next Obligation. done. Qed.

(** A database that remembers the statements it has executed *)
#[local] Instance log_db : SqlDb :=
  {| Db := list string;
     db_create_table d := (Ok tt, d);
     db_execute sql d := (Ok tt, d ++ [sql]);
     db_insert _ _ _ _ d := (Ok tt, d);
     db_delete _ d := (Ok tt, d) |}.

Definition demo_shim : MigrationShim :=
  new_migration {[ "MIGRATION_AUTO_MIGRATE" := "true"; "MIGRATION_DATABASE" := "app" ]}.
Definition demo_read (p : string) : result string string := Ok ("-- " +:+ p).
Definition demo_names : list string :=
  ["002_mail.up.sql"; "readme.md"; "001_users.down.sql"; "001_users.up.sql"].

Example demo_checksum : compute_checksum "" = "cbf29ce484222325".
Proof. reflexivity. Qed.
Example demo_start :
  let '(r, s, d, lf) := start fs_ok (1, "h") 0 (λ _, (0, 0)) (DirEntries demo_names) demo_read
    demo_shim [] NoFile in
  r = Ok tt ∧ current_version s = 2 ∧ lf = NoFile ∧
  d = ["-- 001_users.up.sql"; "-- 002_mail.up.sql"].
Proof. vm_compute. done. Qed.

Definition demo_m (v : Z) : Migration := mkMigration v "m" "SELECT 1" None "c".
Lemma versions_contiguous_witness :
  versions_ok (op_run [OpInit false [] None; OpApply 0 0 (demo_m 3); OpApply 0 0 (demo_m 5); OpApplyDb 0 0 (demo_m 4);
    OpRollback; OpRollbackDb None; OpStart fs_ok (1, "h") 0 (λ _, (0, 0)) (DirEntries demo_names) demo_read NoFile]
    (demo_shim, [])).1.
Proof.
  apply (versions_contiguous (DB := log_db) {[ "MIGRATION_AUTO_MIGRATE" := "true"; "MIGRATION_DATABASE" := "app" ]}).
  do 6 (apply Forall_cons; split; [vm_compute; done|]). apply Forall_cons; split; [|done].
  change (Forall (λ f, 0 ≤ file_version f < 2 ^ 32 - 1) (listed (DirEntries demo_names))).
  assert (listed (DirEntries demo_names) = [(1, "users", "001_users.up.sql"); (2, "mail", "002_mail.up.sql")]) as ->
    by (vm_compute; reflexivity).
  constructor; [cbv; split; [discriminate|reflexivity]|]. constructor; [cbv; split; [discriminate|reflexivity]|]. constructor.
Defined.
Lemma rollback_undoes_apply_witness :
  let s := new_migration ∅ in
  let s' := (apply_migration 0 0 (demo_m 1) s).2 in
  applied_records s' ≠ applied_records s ∧
  applied_records (rollback_last s').2 = applied_records s.
Proof.
  split; [vm_compute; congruence|].
  apply (rollback_undoes_apply 0 0 (demo_m 1) (new_migration ∅));
    [apply versions_ok_new|done|vm_compute; done].
Defined.
Lemma start_migrates_directory_witness :
  ∃ s1 d1, start fs_ok (1, "h") 0 (λ _, (0, 0)) (DirEntries demo_names) demo_read
    demo_shim [] NoFile = (Ok tt, s1, d1, NoFile) ∧ versions_ok s1 ∧ current_version s1 = 2 ∧
    ∀ f, f ∈ [(1, "users", "001_users.up.sql"); (2, "mail", "002_mail.up.sql")] →
      ∃ r, applied_records s1 !! file_version f = Some r ∧ rec_name r = f.1.2 ∧
        rec_checksum r = compute_checksum (sql_of demo_read f).
Proof.
  apply start_migrates_directory; [done|apply versions_ok_new|done|done| | |lia|].
  - change (omap scanned_file demo_names) with
      [(2, "mail", "002_mail.up.sql"); (1, "users", "001_users.up.sql")].
    apply Permutation_swap.
  - reflexivity.
  - repeat constructor.
Defined.
Lemma unreadable_file_keeps_lock_witness :
  let read := λ _, Err "denied" in
  ∃ e s3 d3 lf,
    start fs_ok (1, "h") 0 (λ _, (0, 0)) (DirEntries demo_names) read demo_shim [] NoFile
      = (Err e, s3, d3, lf) ∧
    ∃ d4, start fs_ok (2, "h") (3600 * 10 ^ 9) (λ _, (0, 0)) (DirEntries []) demo_read demo_shim [] lf
      = (Err (held_message lf), demo_shim, d4, lf).
Proof.
  apply unreadable_file_keeps_lock; [done|done| |lia|].
  - by left.
  - vm_compute. congruence.
Defined.
Lemma filename_roundtrip_witness : parse_version "007_add_email_index.up.sql" = Ok 7.
Proof. by apply (filename_roundtrip 2 7 "add_email_index"). Defined.
Lemma dropped_connection_succeeds_witness :
  success (migrate_target (mkTargetIo None (λ _, Ok "x") (λ _, false) (λ _ _, None) 0)
    (mkTarget "t" "postgres" "u" ["a.sql"])) = true.
Proof.
  apply (dropped_connection_succeeds (mkTargetIo None (λ _, Ok "x") (λ _, false) (λ _ _, None) 0)
    (mkTarget "t" "postgres" "u" ["a.sql"])); done.
Defined.
Lemma lock_excludes_witness :
  let f := (acquire_lock (new_lock "/m") fs_ok (1, "h") 0 NoFile).2 in
  acquire_lock (new_lock "/m") fs_ok (2, "h") (10 ^ 9) f = (Err (held_message f), f).
Proof.
  apply (lock_excludes (new_lock "/m") (1, "h") (2, "h") 0 (10 ^ 9)); [lia| |];
    vm_compute; congruence.
Defined.
End migration_runs.
