(* ===== verification/Auth.v ===== *)
(** * Authentication ([auth-shim/src/lib.rs])

    Tokens and API keys verified against HMAC tags, password hashes, lockout after
    failed logins, roles.  HMAC-SHA256 is the class [HmacSha256]; identifiers and
    salts are arguments; a byte string is a [string]. *)

From S2P Require Import Prelude Text.

(** ** Hexadecimal *)

(** Slicing a [str] panics inside a character: a byte 10xxxxxx continues one. *)
Definition continues (s : string) : bool :=
  match s with
  | EmptyString => false
  | String b _ => let n := N_of_ascii b in ((128 <=? n) && (n <? 192))%N
  end.
(** [hex_decode]: [None] is a panic, [Some None] is [None]. *)
Fixpoint hex_pairs (s : string) : option (option string) :=
  match s with
  | String a (String b rest) =>
      if continues rest then None
      else match from_hex 255 (String a (String b "")) with
           | None => Some None
           | Some n =>
               match hex_pairs rest with
               | Some (Some r) => Some (Some (String (ascii_of_N (Z.to_N n)) r))
               | o => o
               end
           end
  | _ => Some (Some "")
  end.
Definition hex_decode (s : string) : option (option string) :=
  if Nat.even (String.length s) then hex_pairs s else Some None.

(** [hex_decode] inverts [hex_encode], on every byte string. *)
Lemma hex_decode_encode data : hex_decode (hex_encode data) = Some (Some data).
Proof.
  assert (Nat.even (String.length (hex_encode data)) = true ∧ continues (hex_encode data) = false ∧
    hex_pairs (hex_encode data) = Some (Some data)) as (He & _ & Hp).
  { induction data as [|b data (He & Hc & Hp)]; [done|].
    set (n := Z.of_N (N_of_ascii b)).
    assert (0 ≤ n < 256) as Hn.
    { unfold n. destruct b as [[][][][][][][][]]; vm_compute; split; congruence. }
    change (hex_encode (String b data)) with
      (String (hex_digit (n / 16 ^ 1 mod 16)) (String (hex_digit (n / 16 ^ 0 mod 16))
         (hex_encode data))).
    split_and!; [exact He| |].
    - assert (0 ≤ n / 16 ^ 1 mod 16 < 16) as Hd by (apply Z.mod_pos_bound; lia).
      generalize dependent (n / 16 ^ 1 mod 16). intros d Hd. simpl.
      assert (d = 0 ∨ d = 1 ∨ d = 2 ∨ d = 3 ∨ d = 4 ∨ d = 5 ∨ d = 6 ∨ d = 7 ∨ d = 8 ∨ d = 9 ∨
        d = 10 ∨ d = 11 ∨ d = 12 ∨ d = 13 ∨ d = 14 ∨ d = 15) by lia. by destruct_or!; subst.
    - cbn [hex_pairs]. rewrite Hc, Hp.
      change (String (hex_digit (n / 16 ^ 1 mod 16)) (String (hex_digit (n / 16 ^ 0 mod 16)) ""))
        with (fixed_hex 2 n).
      rewrite from_hex_fixed by (simpl; lia). unfold n. rewrite N2Z.id. by rewrite ascii_N_embedding. }
  unfold hex_decode. by rewrite He.
Qed.

(** The decoder accepts more than digits, and panics on text that is not ASCII. *)
Example hex_decode_plus : hex_decode "+f" = Some (Some (String "015" "")).
Proof. reflexivity. Qed.
Lemma hex_decode_panics a b c d :
  continues (String c (String d "")) = true →
  hex_decode (String a (String b (String c (String d "")))) = None.
Proof. intros H. unfold hex_decode. cbn [Nat.even String.length hex_pairs]. by rewrite H. Qed.

(** ** Roles *)

Inductive Role := Admin | ReadWrite | ReadOnly | Denied.
#[export] Instance Role_eq_dec : EqDecision Role.
Proof. solve_decision. Defined.
Definition role_display (r : Role) : string :=
  match r with
  | Admin => "admin" | ReadWrite => "readwrite" | ReadOnly => "readonly" | Denied => "denied"
  end.
Definition role_from_str (s : string) : result string Role :=
  let l := to_lowercase s in
  if bool_decide (l = "admin") then Ok Admin
  else if bool_decide (l = "readwrite") || bool_decide (l = "rw") then Ok ReadWrite
  else if bool_decide (l = "readonly") || bool_decide (l = "ro") then Ok ReadOnly
  else if bool_decide (l = "denied") then Ok Denied
  else Err ("Unknown role: " +:+ s).
Lemma role_roundtrip r : role_from_str (role_display r) = Ok r.
Proof. by destruct r. Qed.

(** ** The shim *)

Record ApiKey := mkApiKey {
  key_id : string;
  key_name : string;
  key_hash : string;
  key_role : Role;
  key_created_at : string;
  last_used : option string;
  revoked : bool
}.
#[export] Instance ApiKey_settable : Settable ApiKey := λ k,
  mkApiKey (key_id k) (key_name k) (key_hash k) (key_role k) (key_created_at k) (last_used k)
    (revoked k).
Record AuthResult := mkAuthResult {
  authenticated : bool;
  user : option string;
  role : option Role;
  reason : option string
}.
Record StoredToken := mkStoredToken {
  token_hash : string;
  tok_user : string;
  tok_role : Role;
  issued_at : string;
  expires_at : string;
  source_ip : option string
}.

(** [AuthShim], less its shutdown channel *)
Record AuthShim := mkAuthShim {
  method : string;
  ldap_url : option string;
  ldap_base : option string;
  oauth_issuer : option string;
  oauth_audience : option string;
  token_expiry_secs : Z;
  max_failed_logins : Z;
  lockout_secs : Z;
  auth_success : Z;
  auth_failure : Z;
  tokens : gmap string StoredToken;
  api_keys : gmap string ApiKey;
  failed_attempts : gmap string Z;
  locked_users : gmap string Z;
  hmac_key : string
}.
#[export] Instance AuthShim_settable : Settable AuthShim := λ s,
  mkAuthShim (method s) (ldap_url s) (ldap_base s) (oauth_issuer s) (oauth_audience s)
    (token_expiry_secs s) (max_failed_logins s) (lockout_secs s) (auth_success s) (auth_failure s)
    (tokens s) (api_keys s) (failed_attempts s) (locked_users s) (hmac_key s).

(** [AuthShim::new]; [uuid] is the random key used when none is configured, and
    the result is [None] when decoding the configured one panics. *)
Definition new_auth (uuid : string) (env : environment) : option AuthShim :=
  key ← match env !! "AUTH_HMAC_KEY" with
        | Some k => default uuid <$> hex_decode k
        | None => Some uuid
        end;
  Some {| method := env_or env "AUTH_METHOD" "password";
          ldap_url := env !! "AUTH_LDAP_URL";
          ldap_base := env !! "AUTH_LDAP_BASE";
          oauth_issuer := env !! "AUTH_OAUTH_ISSUER";
          oauth_audience := env !! "AUTH_OAUTH_AUDIENCE";
          token_expiry_secs := env_parse env "AUTH_TOKEN_EXPIRY_SECS" parse_u64 3600;
          max_failed_logins := env_parse env "AUTH_MAX_FAILED_LOGINS" parse_u32 5;
          lockout_secs := env_parse env "AUTH_LOCKOUT_SECS" parse_u64 300;
          auth_success := 0;
          auth_failure := 0;
          tokens := ∅;
          api_keys := ∅;
          failed_attempts := ∅;
          locked_users := ∅;
          hmac_key := key |}.

(** HMAC-SHA256: the tag of some data under a key; [None] is an error of
    [new_from_slice], which takes keys of any size. *)
Class HmacSha256 := {
  mac_tag : string → string → option string;
  mac_tag_some key data : is_Some (mac_tag key data)
}.

Section auth.
Context `{HM : HmacSha256} `{RF : Rfc3339} `{CH : Chrono}.

(** [hmac_hash]; the [expect] cannot fail ([mac_tag_some]). *)
Definition hmac_hash (s : AuthShim) (data : string) : string :=
  hex_encode (default "" (mac_tag (hmac_key s) data)).
(** [verify_slice] *)
Definition mac_verify (key data tag : string) : option bool :=
  (λ t, bool_decide (t = tag)) <$> mac_tag key data.

(** [create_token]; [id] and [secret] are fresh UUIDs.  [None]: the expiry is no
    date. *)
Definition create_token (id secret : string) (now : Z) (u : string) (r : Role)
    (ip : option string) (s : AuthShim) : option (string * AuthShim) :=
  let token_value := id +:+ "." +:+ secret in
  expires ← plus_seconds now (as_i64 (token_expiry_secs s));
  let stored := mkStoredToken (hmac_hash s token_value) u r (to_rfc3339 now)
                  (to_rfc3339 expires) ip in
  Some (token_value, s <| tokens ::= <[id := stored]> |>).

(** The refusals share their shape. *)
Definition refuse (u : option string) (r : option Role) (why : string) (s : AuthShim)
    : AuthResult * AuthShim :=
  (mkAuthResult false u r (Some why), s <| auth_failure ::= λ n, add64 n 1 |>).
Definition accept (u : string) (r : Role) (s : AuthShim) : AuthResult * AuthShim :=
  (mkAuthResult true (Some u) (Some r) None, s <| auth_success ::= λ n, add64 n 1 |>).

(** What follows the verification of the tag in [validate_token] *)
Definition check_stored (now : Z) (stored : StoredToken) (s : AuthShim) : AuthResult * AuthShim :=
  let expires := default now (parse_from_rfc3339 (expires_at stored)) in
  if expires <? now then refuse (Some (tok_user stored)) None "Token expired" s
  else if bool_decide (tok_role stored = Denied)
  then refuse (Some (tok_user stored)) (Some Denied) "User role is denied" s
  else accept (tok_user stored) (tok_role stored) s.

(** [validate_token]; [None]: a panic of [hex_decode]. *)
Definition validate_token (now : Z) (token : string) (s : AuthShim)
    : option (AuthResult * AuthShim) :=
  match splitn2 "." token with
  | (_, None) => Some (refuse None None "Invalid token format" s)
  | (id, Some _) =>
      match tokens s !! id with
      | None => Some (refuse None None "Token not found" s)
      | Some stored =>
          expected ← hex_decode (token_hash stored);
          Some match expected with
               | None => refuse None None "Internal error" s
               | Some expected_hash =>
                   match mac_verify (hmac_key s) token expected_hash with
                   | None => refuse None None "Internal error" s
                   | Some false => refuse None None "Token verification failed" s
                   | Some true => check_stored now stored s
                   end
               end
      end
  end.

(** [revoke_token] *)
Definition revoke_token (id : string) (s : AuthShim) : bool * AuthShim :=
  (bool_decide (is_Some (tokens s !! id)), s <| tokens ::= delete id |>).

(** [register_api_key], [hash_api_key], [validate_api_key], [revoke_api_key] *)
Definition register_api_key (k : ApiKey) (s : AuthShim) : AuthShim :=
  s <| api_keys ::= <[key_id k := k]> |>.
Definition hash_api_key (key : string) (s : AuthShim) : string := hmac_hash s key.
Definition validate_api_key (id provided : string) (s : AuthShim)
    : option (AuthResult * AuthShim) :=
  match api_keys s !! id with
  | None => Some (refuse None None "API key not found" s)
  | Some key =>
      if revoked key then Some (refuse None None "API key revoked" s)
      else
        expected ← hex_decode (key_hash key);
        Some match expected with
             | None => refuse None None "Invalid key hash" s
             | Some expected_hash =>
                 match mac_verify (hmac_key s) provided expected_hash with
                 | None => refuse None None "Internal error" s
                 | Some false => refuse None None "API key verification failed" s
                 | Some true => accept (key_name key) (key_role key) s
                 end
             end
  end.
Definition revoke_api_key (id : string) (s : AuthShim) : bool * AuthShim :=
  match api_keys s !! id with
  | Some key => (true, s <| api_keys ::= <[id := key <| revoked := true |>]> |>)
  | None => (false, s)
  end.

(** [hash_password], with its salt; [verify_password] ([None]: a panic) *)
Definition hash_password (salt password : string) : string :=
  hex_encode salt +:+ ":" +:+ hex_encode (default "" (mac_tag salt password)).
Definition verify_password (password stored : string) : option bool :=
  match splitn2 ":" stored with
  | (_, None) => Some false
  | (salt_hex, Some hash_hex) =>
      salt ← hex_decode salt_hex;
      match salt with
      | None => Some false
      | Some salt =>
          expected ← hex_decode hash_hex;
          Some match expected with
               | None => false
               | Some expected => default false (mac_verify salt password expected)
               end
      end
  end.

(** [record_failed_login], [is_locked_out], [clear_failed_attempts], [failed_count] *)
Definition record_failed_login (now : Z) (u : string) (s : AuthShim) : bool * AuthShim :=
  let attempts := add32 (default 0 (failed_attempts s !! u)) 1 in
  let s := s <| failed_attempts ::= <[u := attempts]> |> in
  if max_failed_logins s <=? attempts then (true, s <| locked_users ::= <[u := now]> |>)
  else (false, s).
Definition is_locked_out (now : Z) (u : string) (s : AuthShim) : bool :=
  match locked_users s !! u with
  | Some locked_at => num_seconds_between now locked_at <? as_i64 (lockout_secs s)
  | None => false
  end.
Definition clear_failed_attempts (u : string) (s : AuthShim) : AuthShim :=
  s <| failed_attempts ::= delete u |> <| locked_users ::= delete u |>.
Definition failed_count (u : string) (s : AuthShim) : Z := default 0 (failed_attempts s !! u).

(** [check_permission] *)
Definition check_permission (r required : Role) : bool :=
  match r, required with
  | Admin, _ => true
  | ReadWrite, (ReadWrite | ReadOnly) => true
  | ReadOnly, ReadOnly => true
  | _, _ => false
  end.

Definition auth_metrics (s : AuthShim) : list (string * f64) :=
  [("auth_success_total", f64_of_Z (auth_success s));
   ("auth_failure_total", f64_of_Z (auth_failure s));
   ("auth_active_tokens", f64_of_Z (Z.of_nat (size (tokens s))));
   ("auth_api_keys_total", f64_of_Z (Z.of_nat (size (api_keys s))));
   ("auth_locked_users", f64_of_Z (Z.of_nat (size (locked_users s))))].

(** ** Tokens *)

Lemma mac_tag_default key data : mac_tag key data = Some (default "" (mac_tag key data)).
Proof. destruct (mac_tag_some key data) as [t E]. by rewrite E. Qed.
Lemma mac_verify_spec key data tag :
  mac_verify key data tag = Some (bool_decide (default "" (mac_tag key data) = tag)).
Proof. unfold mac_verify. by rewrite mac_tag_default. Qed.

(** Validation of a token whose record holds the tag of an issued token *)
Lemma validate_issued now id secret token0 stored s :
  avoids "." id = true → tokens s !! id = Some stored → token_hash stored = hmac_hash s token0 →
  validate_token now (id +:+ "." +:+ secret) s
  = Some (if bool_decide (mac_tag (hmac_key s) (id +:+ "." +:+ secret) = mac_tag (hmac_key s) token0)
          then check_stored now stored s else refuse None None "Token verification failed" s).
Proof.
  intros Hid Hs Hh. unfold validate_token.
  change (id +:+ "." +:+ secret) with (id +:+ String "." secret).
  rewrite splitn2_app, Hs, Hh by done. unfold hmac_hash.
  set (tag := default "" (mac_tag (hmac_key s) token0)).
  assert (hex_decode (hex_encode tag) = Some (Some tag)) as -> by apply hex_decode_encode.
  simpl. unfold mac_verify, tag.
  destruct (mac_tag_some (hmac_key s) token0) as [t0 ->].
  destruct (mac_tag_some (hmac_key s) (id +:+ String "." secret)) as [t1 ->]. simpl.
  repeat case_bool_decide; simplify_eq; done.
Qed.

(** ** The abstract token service

    A grant is what [create_token] promised: the token's text, for whom, and until
    when.  Sequences of calls give and withdraw grants; everything else leaves
    them alone. *)
Record Grant := mkGrant {
  g_token : string;
  g_user : string;
  g_role : Role;
  g_expires : Z
}.
Inductive AuthOp :=
| OpCreate (id secret : string) (now : Z) (u : string) (r : Role) (ip : option string)
| OpValidate (now : Z) (token : string)
| OpRevoke (id : string)
| OpRegisterKey (k : ApiKey)
| OpValidateKey (id provided : string)
| OpRevokeKey (id : string)
| OpFailedLogin (now : Z) (u : string)
| OpClear (u : string).
Definition auth_step (o : AuthOp) (s : AuthShim) : option AuthShim :=
  match o with
  | OpCreate id secret now u r ip => snd <$> create_token id secret now u r ip s
  | OpValidate now token => snd <$> validate_token now token s
  | OpRevoke id => Some (revoke_token id s).2
  | OpRegisterKey k => Some (register_api_key k s)
  | OpValidateKey id p => snd <$> validate_api_key id p s
  | OpRevokeKey id => Some (revoke_api_key id s).2
  | OpFailedLogin now u => Some (record_failed_login now u s).2
  | OpClear u => Some (clear_failed_attempts u s)
  end.
Fixpoint auth_run (os : list AuthOp) (s : AuthShim) : option AuthShim :=
  match os with [] => Some s | o :: os => auth_step o s ≫= auth_run os end.
Definition grant_step (secs : Z) (o : AuthOp) (g : gmap string Grant) : gmap string Grant :=
  match o with
  | OpCreate id secret now u r _ =>
      <[id := mkGrant (id +:+ "." +:+ secret) u r (now + as_i64 secs * 10 ^ 9)]> g
  | OpRevoke id => delete id g
  | _ => g
  end.
Definition grants (secs : Z) (os : list AuthOp) (g : gmap string Grant) : gmap string Grant :=
  foldl (λ g o, grant_step secs o g) g os.

(** The stored tokens implement the grants. *)
Definition stores (key : string) (st : StoredToken) (g : Grant) : Prop :=
  token_hash st = hex_encode (default "" (mac_tag key (g_token g))) ∧
  tok_user st = g_user g ∧ tok_role st = g_role g ∧ expires_at st = to_rfc3339 (g_expires g).
Record implements (s : AuthShim) (key : string) (secs : Z) (g : gmap string Grant) : Prop := {
  im_key : hmac_key s = key;
  im_secs : token_expiry_secs s = secs;
  im_tokens : map_relation (λ _ st gr, stores key st gr) (λ _ _, False) (λ _ _, False) (tokens s) g
}.

Lemma implements_same s s' key secs g :
  hmac_key s' = hmac_key s → token_expiry_secs s' = token_expiry_secs s → tokens s' = tokens s →
  implements s key secs g → implements s' key secs g.
Proof. intros Hk He Ht [???]. split; [congruence..|by rewrite Ht]. Qed.

Lemma refuse_frame u r why s :
  hmac_key (refuse u r why s).2 = hmac_key s ∧ tokens (refuse u r why s).2 = tokens s ∧
  token_expiry_secs (refuse u r why s).2 = token_expiry_secs s.
Proof. done. Qed.
Lemma check_stored_frame now st s :
  hmac_key (check_stored now st s).2 = hmac_key s ∧ tokens (check_stored now st s).2 = tokens s ∧
  token_expiry_secs (check_stored now st s).2 = token_expiry_secs s.
Proof. unfold check_stored. by repeat case_match. Qed.
Lemma validate_token_frame now token s r s' :
  validate_token now token s = Some (r, s') →
  hmac_key s' = hmac_key s ∧ tokens s' = tokens s ∧ token_expiry_secs s' = token_expiry_secs s.
Proof.
  unfold validate_token, refuse. destruct (splitn2 "." token) as [id [rest|]]; [|intros; simplify_eq/=; done].
  destruct (tokens s !! id) as [st|]; [|intros; simplify_eq/=; done].
  destruct (hex_decode (token_hash st)) as [[h|]|]; simpl; [|intros; simplify_eq/=; done|done].
  destruct (mac_verify _ _ _) as [[]|]; intros [= E]; [|simplify_eq/=; done..].
  change r with (r, s').1. change s' with (r, s').2. rewrite <-E. apply check_stored_frame.
Qed.
Lemma validate_api_key_frame id p s r s' :
  validate_api_key id p s = Some (r, s') →
  hmac_key s' = hmac_key s ∧ tokens s' = tokens s ∧ token_expiry_secs s' = token_expiry_secs s.
Proof.
  unfold validate_api_key, refuse, accept. destruct (api_keys s !! id) as [k|]; [|intros; simplify_eq/=; done].
  destruct (revoked k); [intros; simplify_eq/=; done|].
  destruct (hex_decode (key_hash k)) as [[h|]|]; simpl; [|intros; simplify_eq/=; done|done].
  destruct (mac_verify _ _ _) as [[]|]; intros; simplify_eq/=; done.
Qed.

Lemma implements_step o s s' key secs g :
  auth_step o s = Some s' → implements s key secs g → implements s' key secs (grant_step secs o g).
Proof.
  intros E Hi. destruct o as [id secret now u r ip|now token|id|k|id p|id|now u|u]; simpl in E |- *.
  - unfold create_token in E. destruct Hi as [Hk He Ht]. rewrite He in E.
    destruct (plus_seconds now (as_i64 secs)) as [t|] eqn:Et; [|done]. simplify_eq/=.
    apply plus_seconds_ok in Et as ->. split; [done|done|]. simpl.
    intros i. destruct (decide (i = id)) as [->|Hne].
    + rewrite !lookup_insert_eq. simpl. unfold stores, hmac_hash. done.
    + rewrite !lookup_insert_ne by done. apply Ht.
  - apply fmap_Some in E as ([r s1] & E & ->). apply validate_token_frame in E as (? & ? & ?).
    by apply (implements_same s).
  - simplify_eq/=. destruct Hi as [Hk He Ht]. split; [done|done|]. simpl.
    intros i. destruct (decide (i = id)) as [->|Hne].
    + by rewrite !lookup_delete_eq.
    + rewrite !lookup_delete_ne by done. apply Ht.
  - simplify_eq/=. by apply (implements_same s).
  - apply fmap_Some in E as ([r s1] & E & ->). apply validate_api_key_frame in E as (? & ? & ?).
    by apply (implements_same s).
  - simplify_eq/=. unfold revoke_api_key. destruct (api_keys s !! id); by apply (implements_same s).
  - simplify_eq/=. unfold record_failed_login. case_match; by apply (implements_same s).
  - simplify_eq/=. by apply (implements_same s).
Qed.
Lemma implements_run os s s' key secs g :
  auth_run os s = Some s' → implements s key secs g → implements s' key secs (grants secs os g).
Proof.
  revert s g. induction os as [|o os IH]; intros s g E Hi; simpl in *; [by simplify_eq|].
  apply bind_Some in E as (s1 & E1 & E). eapply IH; [done|]. by eapply implements_step.
Qed.

Lemma check_stored_accepts (tag_ok : bool) now st g s u r :
  tok_user st = g_user g → tok_role st = g_role g → expires_at st = to_rfc3339 (g_expires g) →
  let res := (if tag_ok then check_stored now st s
              else refuse None None "Token verification failed" s).1 in
  (authenticated res = true ∧ user res = Some u ∧ role res = Some r) ↔
  tag_ok = true ∧ now ≤ g_expires g ∧ u = g_user g ∧ r = g_role g ∧ r ≠ Denied.
Proof.
  intros Hu Hr Hx res. subst res. destruct tag_ok; [|by split; intros [? _]].
  unfold check_stored. rewrite Hx, parse_to_rfc3339, Hu, Hr. simpl.
  destruct (Z.ltb_spec (g_expires g) now) as [Hl|Hl]; simpl.
  { split; [by intros [? _]|]. intros (_ & ? & _). lia. }
  case_bool_decide as Hd; simpl.
  { split; [by intros [? _]|]. intros (_ & _ & _ & -> & ?). done. }
  split.
  - intros (_ & ? & ?). simplify_eq. by split_and!.
  - by intros (_ & _ & -> & -> & _).
Qed.

(** C17. The token service implements its abstract specification.  After any calls,
    a token is accepted exactly when its part before the first dot names a grant
    that was not revoked or replaced, its tag is the tag of the text that grant was
    given for, the grant has not expired and its role is not [Denied]; the answer
    then names the granted user and role.  Validation never panics. *)
Theorem tokens_implement_grants s0 os s now token :
  tokens s0 = ∅ → auth_run os s0 = Some s →
  ∃ res s', validate_token now token s = Some (res, s') ∧
    ∀ u r, (authenticated res = true ∧ user res = Some u ∧ role res = Some r) ↔
      ∃ id rest g, token = id +:+ "." +:+ rest ∧ avoids "." id = true ∧
        grants (token_expiry_secs s0) os ∅ !! id = Some g ∧
        mac_tag (hmac_key s0) token = mac_tag (hmac_key s0) (g_token g) ∧
        now ≤ g_expires g ∧ u = g_user g ∧ r = g_role g ∧ r ≠ Denied.
Proof.
  intros Hempty Hrun.
  assert (implements s (hmac_key s0) (token_expiry_secs s0) (grants (token_expiry_secs s0) os ∅))
    as [Hk He Ht].
  { eapply implements_run; [done|]. split; [done|done|]. rewrite Hempty.
    intros i. by rewrite !lookup_empty. }
  destruct (splitn2 "." token) as [id o] eqn:Es.
  destruct (splitn2_inv _ _ _ _ Es) as [Hid Htok].
  assert (∀ id' rest, token = id' +:+ "." +:+ rest → avoids "." id' = true →
    id' = id ∧ o = Some rest) as Huniq.
  { intros id' rest -> Hid'. change (id' +:+ "." +:+ rest) with (id' +:+ String "." rest) in Es.
    rewrite splitn2_app in Es by done. by simplify_eq. }
  specialize (Ht id). destruct o as [rest|].
  - destruct (tokens s !! id) as [st|] eqn:Est, (grants _ _ _ !! id) as [g|] eqn:Eg; try done.
    + destruct Ht as (Hh & Hu & Hr & Hx). subst token.
      change (id +:+ String "." rest) with (id +:+ "." +:+ rest) in *.
      eexists _, _. split; [rewrite (validate_issued now id rest (g_token g) st s), Hk;
        [apply (f_equal Some), surjective_pairing|done|done|unfold hmac_hash; by rewrite Hk]|].
      intros u r. cbn [fst]. rewrite (check_stored_accepts _ now st g s u r) by done.
      rewrite bool_decide_eq_true. split.
      * intros (? & ? & ? & ? & ?). exists id, rest, g. by split_and!.
      * intros (id' & rest' & g' & Ht' & Ha & Hg & Hm & ?).
        destruct (Huniq _ _ Ht' Ha) as [-> _]. rewrite Eg in Hg. by simplify_eq.
    + unfold validate_token. rewrite Es, Est. eexists _, _. split; [done|].
      intros u r. split; [by intros [? _]|]. intros (id' & rest' & g & Ht' & Ha & Hg & _).
      destruct (Huniq _ _ Ht' Ha) as [-> _]. congruence.
  - unfold validate_token. rewrite Es. eexists _, _. split; [done|].
    intros u r. split; [by intros [? _]|]. intros (id' & rest' & g & Ht' & Ha & _).
    by destruct (Huniq _ _ Ht' Ha) as [_ ?].
Qed.

(** Every validation moves exactly one of the two counters. *)
Lemma validate_token_counts now token s res s' :
  validate_token now token s = Some (res, s') →
  if authenticated res
  then auth_success s' = add64 (auth_success s) 1 ∧ auth_failure s' = auth_failure s
  else auth_success s' = auth_success s ∧ auth_failure s' = add64 (auth_failure s) 1.
Proof.
  assert (∀ u r why, let x := refuse u r why s in if authenticated x.1
    then auth_success x.2 = add64 (auth_success s) 1 ∧ auth_failure x.2 = auth_failure s
    else auth_success x.2 = auth_success s ∧ auth_failure x.2 = add64 (auth_failure s) 1) as Hr by done.
  unfold validate_token. destruct (splitn2 "." token) as [id [rest|]]; [|intros [= <- <-]; done].
  destruct (tokens s !! id) as [st|]; [|intros [= <- <-]; done].
  destruct (hex_decode (token_hash st)) as [[h|]|]; simpl; [|intros [= <- <-]; done|done].
  destruct (mac_verify _ _ _) as [[]|]; [|intros [= <- <-]; done..].
  unfold check_stored. case_match; [intros [= <- <-]; done|].
  case_bool_decide; intros [= <- <-]; done.
Qed.

(** The lockout is not consulted: whoever is locked out still validates. *)
Lemma validate_ignores_lockout now token s f l :
  (fst <$> validate_token now token (s <| failed_attempts := f |> <| locked_users := l |>))
  = (fst <$> validate_token now token s).
Proof.
  unfold validate_token. simpl. destruct (splitn2 "." token) as [id [rest|]]; [|done].
  destruct (tokens s !! id) as [st|]; [|done].
  destruct (hex_decode (token_hash st)) as [[h|]|]; simpl; [|done..].
  destruct (mac_verify _ _ _) as [[]|]; [|done..].
  unfold check_stored. case_match; [done|]. by case_bool_decide.
Qed.

(** ** Passwords *)

Lemma hex_encode_avoids c data : hex_value c = None → avoids c (hex_encode data) = true.
Proof.
  intros Hc. induction data as [|b data IH]; [done|]. cbn [hex_encode].
  unfold avoids in *. rewrite str_all_app, IH, andb_true_r. cbn [fixed_hex str_all].
  assert (∀ n, hex_digit (n mod 16) ≠ c) as Hne.
  { intros n E. pose proof (hex_value_digit (n mod 16)) as H. rewrite E, Hc in H.
    specialize (H ltac:(apply Z.mod_pos_bound; lia)). done. }
  by rewrite !bool_decide_eq_false_2.
Qed.

(** [verify_password] accepts, for a stored hash, exactly the passwords with the
    same tag under its salt: in particular the password that was hashed.  It never
    panics on what [hash_password] has produced. *)
Theorem password_roundtrip salt password other :
  verify_password password (hash_password salt password) = Some true ∧
  verify_password other (hash_password salt password)
  = Some (bool_decide (mac_tag salt other = mac_tag salt password)).
Proof.
  assert (∀ p, verify_password p (hash_password salt password)
    = Some (bool_decide (mac_tag salt p = mac_tag salt password))) as H.
  { intros p. unfold verify_password, hash_password.
    set (t := default "" (mac_tag salt password)).
    change (hex_encode salt +:+ ":" +:+ hex_encode t) with
      (hex_encode salt +:+ String ":" (hex_encode t)).
    rewrite splitn2_app by by apply hex_encode_avoids. rewrite hex_decode_encode. simpl.
    rewrite hex_decode_encode. simpl. unfold mac_verify, t.
    destruct (mac_tag_some salt password) as [x ->], (mac_tag_some salt p) as [y ->]. simpl.
    f_equal. by repeat case_bool_decide; simplify_eq. }
  split; [rewrite H; by rewrite bool_decide_eq_true_2|apply H].
Qed.

(** ** Lockout *)

(** The number of failures a user has accumulated after [n] of them in a row *)
Definition fail_times (ts : list Z) (u : string) (s : AuthShim) : AuthShim :=
  foldl (λ s t, (record_failed_login t u s).2) s ts.
Lemma record_failed_login_frame now u s :
  max_failed_logins (record_failed_login now u s).2 = max_failed_logins s ∧
  lockout_secs (record_failed_login now u s).2 = lockout_secs s ∧
  failed_attempts (record_failed_login now u s).2
  = <[u := add32 (default 0 (failed_attempts s !! u)) 1]> (failed_attempts s).
Proof. unfold record_failed_login. by case_match. Qed.
Lemma fail_times_spec ts u s :
  0 ≤ failed_count u s → failed_count u s + Z.of_nat (length ts) < 2 ^ 32 →
  failed_count u (fail_times ts u s) = failed_count u s + Z.of_nat (length ts) ∧
  max_failed_logins (fail_times ts u s) = max_failed_logins s ∧
  lockout_secs (fail_times ts u s) = lockout_secs s.
Proof.
  revert s. induction ts as [|t ts IH]; intros s H0 Hl; simpl in *; [split; [lia|done]|].
  destruct (record_failed_login_frame t u s) as (Hm & Hs & Hf).
  assert (failed_count u (record_failed_login t u s).2 = failed_count u s + 1) as Hc.
  { unfold failed_count. rewrite Hf, lookup_insert_eq. simpl. fold (failed_count u s).
    apply add32_small. unfold in_u. lia. }
  destruct (IH (record_failed_login t u s).2) as (E & Em & Es); [lia..|].
  unfold fail_times in *. rewrite E, Em, Es, Hc. split; [lia|done].
Qed.

Lemma fail_times_free ts u s :
  0 ≤ failed_count u s → failed_count u s + Z.of_nat (length ts) < 2 ^ 32 →
  failed_count u s + Z.of_nat (length ts) < max_failed_logins s → locked_users s !! u = None →
  locked_users (fail_times ts u s) !! u = None.
Proof.
  revert s. induction ts as [|x ts IH]; intros s H0 Hb Hl Hf; [done|]. simpl in *.
  destruct (record_failed_login_frame x u s) as (Hm & _ & Hfa).
  assert (add32 (failed_count u s) 1 = failed_count u s + 1) as Ha
    by (apply add32_small; unfold in_u; lia).
  assert (failed_count u (record_failed_login x u s).2 = failed_count u s + 1) as Hc.
  { unfold failed_count at 1. rewrite Hfa, lookup_insert_eq. simpl. exact Ha. }
  apply IH; rewrite ?Hc, ?Hm; [lia..|].
  unfold record_failed_login. fold (failed_count u s). rewrite Ha. simpl.
  by rewrite (proj2 (Z.leb_gt _ _)) by lia.
Qed.

(** Lockout.  A user with no record is locked out by the failure that brings
    the count to the maximum and by none before; the lockout then lasts for its
    duration and ends.  But the count survives it: one failure after the end locks
    the user out again, until [clear_failed_attempts]. *)
Theorem lockout_at_maximum ts t u s later :
  failed_count u s = 0 → locked_users s !! u = None →
  1 ≤ max_failed_logins s → Z.of_nat (length ts) + 1 < 2 ^ 32 - 1 → 0 ≤ lockout_secs s < 2 ^ 63 →
  (record_failed_login t u (fail_times ts u s)).1
    = (max_failed_logins s <=? Z.of_nat (length ts) + 1) ∧
  (max_failed_logins s = Z.of_nat (length ts) + 1 →
   let locked := (record_failed_login t u (fail_times ts u s)).2 in
   is_locked_out t u (fail_times ts u s) = false ∧
   (∀ now, is_locked_out now u locked = (num_seconds_between now t <? lockout_secs s)) ∧
   (record_failed_login later u locked).1 = true ∧
   is_locked_out later u (clear_failed_attempts u locked) = false).
Proof.
  intros H0 Hnone Hmax Hlen Hls.
  destruct (fail_times_spec ts u s) as (Hc & Hm & Hl); [lia..|].
  rewrite H0, Z.add_0_l in Hc. unfold failed_count in Hc.
  assert (add32 (Z.of_nat (length ts)) 1 = Z.of_nat (length ts) + 1) as Ha
    by (apply add32_small; unfold in_u; lia).
  split; [unfold record_failed_login; rewrite Hc, Ha; simpl; rewrite Hm; by case_match|].
  intros Hn locked.
  assert (locked_users (fail_times ts u s) !! u = None) as Hfree
    by (apply fail_times_free; [lia..|done]).
  assert (locked_users locked = <[u := t]> (locked_users (fail_times ts u s)) ∧
    failed_attempts locked = <[u := Z.of_nat (length ts) + 1]> (failed_attempts (fail_times ts u s)) ∧
    max_failed_logins locked = max_failed_logins s ∧ lockout_secs locked = lockout_secs s)
    as (Hlu & Hfa & Hml & Hll).
  { unfold locked, record_failed_login. rewrite Hc, Ha. simpl. rewrite Hm.
    rewrite (proj2 (Z.leb_le _ _)) by lia. simpl. done. }
  split_and!.
  - unfold is_locked_out. by rewrite Hfree.
  - intros now. unfold is_locked_out. rewrite Hlu, lookup_insert_eq, Hll. unfold as_i64.
    by rewrite (proj2 (Z.ltb_lt (lockout_secs s) _)) by lia.
  - unfold record_failed_login. rewrite Hfa, lookup_insert_eq. simpl. rewrite Hml.
    rewrite add32_small by (unfold in_u; lia). by rewrite (proj2 (Z.leb_le _ _)) by lia.
  - unfold is_locked_out, clear_failed_attempts. simpl. by rewrite lookup_delete_eq.
Qed.
End auth.

(** ** Permissions *)

Definition rank (r : Role) : Z :=
  match r with Admin => 3 | ReadWrite => 2 | ReadOnly => 1 | Denied => 0 end.
(** A role grants what ranks no higher; only [Admin] grants what is denied. *)
Lemma check_permission_spec r q :
  check_permission r q
  = bool_decide (r = Admin) || (negb (bool_decide (q = Denied)) && (rank q <=? rank r)).
Proof. by destruct r, q. Qed.

(** ** Runs *)
Section auth_runs.
#[local] Instance demo_rfc3339_i : Rfc3339 := decimal_rfc3339.
#[local] Instance demo_chrono_i : Chrono := demo_chrono.
(** A keyed checksum in the place of HMAC-SHA256 *)
#[local] Program Instance demo_mac : HmacSha256 := {| mac_tag key data := Some (key +:+ data) |}.
Next Obligation. done. Qed.

Definition demo_auth : AuthShim := default (mkAuthShim "" None None None None 0 0 0 0 0 ∅ ∅ ∅ ∅ "")
  (new_auth "0123456789abcdef" {[ "AUTH_HMAC_KEY" := "00ff"; "AUTH_MAX_FAILED_LOGINS" := "2" ]}).

Example demo_token :
  let s := (λ x : string * AuthShim, x.2) <$> create_token "id" "secret" 0 "ann" ReadOnly None demo_auth in
  let r := λ t tok, s ≫= λ s, (λ x : AuthResult * AuthShim, (authenticated x.1, user x.1)) <$>
                                validate_token t tok s in
  r 0 "id.secret" = Some (true, Some "ann") ∧ r 0 "id.other" = Some (false, None) ∧
  r (3601 * 10 ^ 9) "id.secret" = Some (false, Some "ann") ∧ r 0 "idsecret" = Some (false, None).
Proof. vm_compute. done. Qed.

Lemma tokens_implement_grants_witness :
  ∃ s res s', auth_run [OpCreate "id" "secret" 0 "ann" ReadOnly None] demo_auth = Some s ∧
    validate_token 0 "id.secret" s = Some (res, s') ∧ authenticated res = true ∧
    user res = Some "ann" ∧ role res = Some ReadOnly.
Proof.
  destruct (auth_run [OpCreate "id" "secret" 0 "ann" ReadOnly None] demo_auth) as [s|] eqn:E;
    [|exfalso; revert E; vm_compute; congruence].
  destruct (tokens_implement_grants demo_auth _ s 0 "id.secret" eq_refl E) as (res & s' & Hv & Ha).
  exists s, res, s'. split; [done|]. split; [done|]. apply (Ha "ann" ReadOnly).
  exists "id", "secret", (mkGrant "id.secret" "ann" ReadOnly (3600 * 10 ^ 9)).
  split_and!; try done; vm_compute; congruence.
Defined.
Lemma lockout_at_maximum_witness :
  (record_failed_login 5 "bob" (fail_times [3] "bob" demo_auth)).1 = true ∧
  is_locked_out 4 "bob" (fail_times [3] "bob" demo_auth) = false.
Proof.
  split.
  - destruct (lockout_at_maximum [3] 5 "bob" demo_auth 0) as [-> _]; try done; vm_compute; split; congruence.
  - vm_compute. done.
Defined.
End auth_runs.
