(* ===== verification/Shutdown.v ===== *)
(** * Graceful shutdown ([shim-core/src/shutdown.rs])

    The shutdown sequences for PostgreSQL, Redis and other processes, the drain of
    in-flight operations, and the shutdown of a child by strategy.  The operating
    system (signals, sleeping, the clock) is the class [Os]. *)

From S2P Require Import Prelude.

(** [DatabaseType] and its [Display] *)
Inductive DatabaseType := Postgres | Redis | Generic.
#[export] Instance DatabaseType_eq_dec : EqDecision DatabaseType.
Proof. solve_decision. Defined.
Definition database_type_display (d : DatabaseType) : string :=
  match d with Postgres => "postgres" | Redis => "redis" | Generic => "generic" end.

(** [ShutdownStrategy], [Display], [FromStr], [from_env], the two timeouts and
    [to_database_type] *)
Inductive ShutdownStrategy := PostgresGraceful | RedisGraceful | GenericGraceful.
#[export] Instance ShutdownStrategy_eq_dec : EqDecision ShutdownStrategy.
Proof. solve_decision. Defined.
Definition strategy_display (s : ShutdownStrategy) : string :=
  match s with
  | PostgresGraceful => "postgres" | RedisGraceful => "redis" | GenericGraceful => "generic"
  end.
Definition strategy_from_str (s : string) : ShutdownStrategy :=
  let l := to_lowercase s in
  if bool_decide (l = "postgres") || bool_decide (l = "postgresql") || bool_decide (l = "pg")
  then PostgresGraceful
  else if bool_decide (l = "redis") then RedisGraceful
  else GenericGraceful.
Definition strategy_from_env (env : environment) : ShutdownStrategy :=
  strategy_from_str (env_or env "SHUTDOWN_STRATEGY" "generic").
Definition default_timeout (env : environment) : Z :=
  env_parse env "SHUTDOWN_TIMEOUT_SECS" parse_u64 30.
Definition drain_timeout (env : environment) : Z :=
  env_parse env "SHIM_DRAIN_TIMEOUT_SECS" parse_u64 30.
Definition to_database_type (s : ShutdownStrategy) : DatabaseType :=
  match s with
  | PostgresGraceful => Postgres | RedisGraceful => Redis | GenericGraceful => Generic
  end.

Lemma strategy_roundtrip s : strategy_from_str (strategy_display s) = s.
Proof. by destruct s. Qed.

(** [ShutdownResult] *)
Record ShutdownResult := mkShutdownResult {
  clean_exit : bool;
  res_db_type : DatabaseType;
  duration_ms : Z;
  signals_sent : Z;
  operations_completed : Z;
  operations_total : Z;
  log : list string
}.

(** ** The operating system

    [kill] is [signal::kill] with a signal, [alive] is [kill] with none, [reap] is
    [Child::kill]; a sleep lasts at least as long as asked.  Times are
    milliseconds; [max_instant] is the last one an [Instant] can hold. *)
Inductive Signal := SIGTERM | SIGKILL.
Class Os := {
  World : Type;
  kill : Z → Signal → World → result string unit * World;
  alive : Z → World → bool;
  reap : Z → World → World;
  sleep : Z → World → World;
  clock : World → Z;
  max_instant : Z;
  clock_sleep d w : 0 ≤ d → clock w + d ≤ clock (sleep d w)
}.

Section shutdown.
Context `{OS : Os}.
Implicit Types w : World.

Definition is_process_alive (pid : Z) (w : World) : bool := alive (as_i32 pid) w.

(** What tokio's [sleep] and [timeout] make of a duration: where the clock and the
    duration together overflow an [Instant], they take thirty years instead. *)
Definition FAR_FUTURE : Z := 86400 * 365 * 30 * 1000.
Definition wait_ms (d : Z) (w : World) : Z :=
  if clock w + d <=? max_instant then d else Z.min d FAR_FUTURE.
Definition nap (d : Z) (w : World) : World := sleep (wait_ms d w) w.

(** [timeout(.., async { while is_process_alive(pid) { sleep(100ms) } })]: whether
    the loop ended before the deadline.  The timeout polls the loop first, so a
    sleep that ends with the deadline is followed by one more test.  [None] is out
    of fuel. *)
Fixpoint poll_until (fuel : nat) (deadline pid : Z) (w : World) : option (bool * World) :=
  if is_process_alive pid w then
    match fuel with
    | O => None
    | S fuel =>
        if deadline - clock w <? 100
        then Some (false, sleep (Z.max 0 (deadline - clock w)) w)
        else poll_until fuel deadline pid (sleep 100 w)
    end
  else Some (true, w).
Definition wait_exit (secs pid : Z) (w : World) : option (bool * World) :=
  poll_until (S (Z.to_nat (secs * 10))) (clock w + wait_ms (secs * 1000) w) pid w.

(** The results share their shape. *)
Definition finish (start : Z) (d : DatabaseType) (clean : bool) (signals : Z) (l : list string)
    (w : World) : ShutdownResult * World :=
  (mkShutdownResult clean d (clock w - start) signals 0 0 l, w).
Definition sigterm_failed (e : string) : string :=
  "  SIGTERM failed: " +:+ e +:+ " (process may already be dead)".

(** [PostgresShutdown::shutdown] *)
Definition postgres_shutdown (pid timeout_secs : Z) (w : World) : option (ShutdownResult * World) :=
  let start := clock w in
  let log := ["[1/4] Sending SIGTERM to PID " +:+ pretty pid] in
  match kill (as_i32 pid) SIGTERM w with
  | (Err e, w) => Some (finish start Postgres false 0 (log ++ [sigterm_failed e]) w)
  | (Ok _, w) =>
      let step := timeout_secs / 4 in
      let log := log ++ ["[2/4] Waiting for queries to finish (up to " +:+ pretty step +:+ "s)"] in
      let w := nap (step * 1000) w in
      if is_process_alive pid w then
        let log := log ++ ["[3/4] Process still running, waiting for checkpoint"] in
        let w := nap (step * 1000) w in
        '(log, w) ←
          (if is_process_alive pid w then
             '(_, w') ← wait_exit (timeout_secs / 2) pid w;
             Some (log ++ ["[4/4] Process still running after " +:+ pretty (mul64 step 2)
                           +:+ "s, waiting for final exit"], w')
           else Some (log, w));
        let clean := negb (is_process_alive pid w) in
        Some (finish start Postgres clean 1
          (log ++ [if clean then "[4/4] Process exited cleanly"
                   else "[4/4] Process did not exit gracefully"]) w)
      else Some (finish start Postgres true 1
             (log ++ ["[3/4] Process exited cleanly after SIGTERM"]) w)
  end.

(** [RedisShutdown::shutdown] *)
Definition redis_shutdown (pid timeout_secs : Z) (w : World) : option (ShutdownResult * World) :=
  let start := clock w in
  let log := ["[1/3] Sending SIGTERM to PID " +:+ pretty pid] in
  match kill (as_i32 pid) SIGTERM w with
  | (Err e, w) => Some (finish start Redis false 0 (log ++ [sigterm_failed e]) w)
  | (Ok _, w) =>
      let step := timeout_secs / 3 in
      let log := log ++ ["[2/3] Waiting for RDB save/fork completion (up to " +:+ pretty step
                         +:+ "s)"] in
      let w := nap (step * 1000) w in
      if is_process_alive pid w then
        let log := log ++ ["[3/3] Process still running, waiting for fork completion"] in
        '(_, w) ← wait_exit (mul64 timeout_secs 2 / 3) pid w;
        let clean := negb (is_process_alive pid w) in
        Some (finish start Redis clean 1
          (log ++ [if clean then "[3/3] Process exited cleanly"
                   else "[3/3] Process did not exit gracefully"]) w)
      else Some (finish start Redis true 1
             (log ++ ["[3/3] Process exited cleanly after SIGTERM"]) w)
  end.

(** [signal::kill(pid, SIGKILL)] where only success is counted *)
Definition sigkill (pid signals : Z) (w : World) : Z * World :=
  match kill (as_i32 pid) SIGKILL w with
  | (Ok _, w) => (signals + 1, w)
  | (Err _, w) => (signals, w)
  end.

(** [GenericShutdown::shutdown] *)
Definition generic_shutdown (pid timeout_secs : Z) (w : World) : option (ShutdownResult * World) :=
  let start := clock w in
  let log := ["[1/3] Sending SIGTERM to PID " +:+ pretty pid] in
  match kill (as_i32 pid) SIGTERM w with
  | (Err e, w) => Some (finish start Generic false 0 (log ++ [sigterm_failed e]) w)
  | (Ok _, w) =>
      let log := log ++ ["[2/3] Waiting " +:+ pretty timeout_secs +:+ "s for graceful exit"] in
      '(_, w) ← wait_exit timeout_secs pid w;
      if is_process_alive pid w then
        let log := log ++ ["[3/3] Process still running, sending SIGKILL"] in
        let '(signals, w) := sigkill pid 1 w in
        let w := sleep 500 w in
        let clean := negb (is_process_alive pid w) in
        Some (finish start Generic false signals
          (log ++ [if clean then "[3/3] Process killed by SIGKILL"
                   else "[3/3] Process did not respond to SIGKILL"]) w)
      else Some (finish start Generic true 1
             (log ++ ["[3/3] Process exited cleanly after SIGTERM"]) w)
  end.

(** The handlers: [shutdown_handler] and their [description]s *)
Definition shutdown_handler (d : DatabaseType) : Z → Z → World → option (ShutdownResult * World) :=
  match d with
  | Postgres => postgres_shutdown
  | Redis => redis_shutdown
  | Generic => generic_shutdown
  end.
Definition description (d : DatabaseType) : string :=
  match d with
  | Postgres => "PostgreSQL: SIGTERM -> smart shutdown -> wait for queries -> checkpoint -> exit"
  | Redis => "Redis: SIGTERM -> save RDB -> wait for fork -> exit"
  | Generic => "Generic: SIGTERM -> wait timeout -> SIGKILL"
  end.

(** ** [ShutdownManager] *)

Record ShutdownManager := mkManager {
  handler : DatabaseType;
  timeout_secs : Z;
  initiated : bool;
  drain_timeout_secs : Z;
  in_flight_total : Z;
  in_flight_completed : Z
}.
#[export] Instance ShutdownManager_settable : Settable ShutdownManager := λ m,
  mkManager (handler m) (timeout_secs m) (initiated m) (drain_timeout_secs m)
    (in_flight_total m) (in_flight_completed m).
Definition new_manager (env : environment) (d : DatabaseType) (secs : Z) : ShutdownManager :=
  mkManager d secs false (drain_timeout env) 0 0.
(** [fetch_add] on an [AtomicUsize] wraps. *)
Definition operation_started (m : ShutdownManager) : ShutdownManager :=
  m <| in_flight_total ::= λ n, add64 n 1 |>.
Definition operation_completed (m : ShutdownManager) : ShutdownManager :=
  m <| in_flight_completed ::= λ n, add64 n 1 |>.
Definition in_flight_count (m : ShutdownManager) : Z :=
  saturating_sub (in_flight_total m) (in_flight_completed m).

(** What other threads do to the counters *)
Inductive InFlightOp := Started | Completed.
#[local] Instance InFlightOp_eq_dec : EqDecision InFlightOp.
Proof. solve_decision. Defined.
Definition op_apply (o : InFlightOp) (m : ShutdownManager) : ShutdownManager :=
  match o with Started => operation_started m | Completed => operation_completed m end.
Definition ops_apply (os : list InFlightOp) (m : ShutdownManager) : ShutdownManager :=
  foldl (λ m o, op_apply o m) m os.

(** The drain loop; [during i] is what happens in the [i]-th sleep. *)
Fixpoint drain (fuel i : nat) (during : nat → list InFlightOp) (deadline : Z)
    (m : ShutdownManager) (w : World) : option (ShutdownManager * World) :=
  if in_flight_total m <=? in_flight_completed m then Some (m, w)
  else
    match fuel with
    | O => None
    | S fuel =>
        if deadline - clock w <? 100
        then Some (ops_apply (during i) m, sleep (Z.max 0 (deadline - clock w)) w)
        else drain fuel (S i) during deadline (ops_apply (during i) m) (sleep 100 w)
    end.
(** [shutdown].  The deadline of the drain is the sum of an [Instant] and a [Duration],
    which panics ([None]) where it overflows. *)
Definition manager_shutdown (during : nat → list InFlightOp) (pid : Z) (m : ShutdownManager)
    (w : World) : option (ShutdownResult * ShutdownManager * World) :=
  let m := m <| initiated := true |> in
  '(m, w) ←
    (if 0 <? in_flight_count m
     then if clock w + drain_timeout_secs m * 1000 <=? max_instant
          then drain (S (Z.to_nat (drain_timeout_secs m * 10))) 0 during
                 (clock w + drain_timeout_secs m * 1000) m w
          else None
     else Some (m, w));
  '(r, w) ← shutdown_handler (handler m) pid (timeout_secs m) w;
  Some (r, m, w).

(** ** [graceful_shutdown] of a child

    [pid] is [child.id()]. *)
Definition wait_secs (s : ShutdownStrategy) (timeout : Z) : Z :=
  match s with
  | PostgresGraceful | RedisGraceful => mul64 timeout 80 / 100
  | GenericGraceful => timeout
  end.
Definition wait_line (s : ShutdownStrategy) (timeout : Z) : string :=
  match s with
  | PostgresGraceful => "[2] Waiting for Postgres smart shutdown (up to "
                        +:+ pretty (wait_secs s timeout) +:+ "s)"
  | RedisGraceful => "[2] Waiting for Redis RDB save (up to "
                     +:+ pretty (wait_secs s timeout) +:+ "s)"
  | GenericGraceful => "[2] Waiting " +:+ pretty timeout +:+ "s for graceful exit"
  end.
Definition graceful_shutdown (s : ShutdownStrategy) (child_id : option Z) (timeout : Z) (w : World)
    : option (result string ShutdownResult * World) :=
  let pid := default 0 child_id in
  let d := to_database_type s in
  let ok (x : ShutdownResult * World) : result string ShutdownResult * World := (Ok x.1, x.2) in
  if pid =? 0 then Some (Err "child process has no valid PID", w)
  else
    let start := clock w in
    let log := ["[1] Sending SIGTERM to PID " +:+ pretty pid +:+ " (" +:+ strategy_display s +:+ ")"] in
    match kill (as_i32 pid) SIGTERM w with
    | (Err e, w) => Some (ok (finish start d false 0 (log ++ ["  SIGTERM failed: " +:+ e]) w))
    | (Ok _, w) =>
        let log := log ++ [wait_line s timeout] in
        '(in_time, w) ← wait_exit (wait_secs s timeout) pid w;
        if negb (is_process_alive pid w)
        then Some (ok (finish start d true 1 (log ++ ["[3] Process exited gracefully"]) w))
        else if (in_time : bool)
        then Some (ok (finish start d true 1 (log ++ ["[3] Process exited during wait period"]) w))
        else
          let log := log ++ ["[3] Timeout reached, sending SIGKILL"] in
          let '(signals, w) := sigkill pid 1 w in
          let w := sleep 500 (reap (as_i32 pid) w) in
          let clean := negb (is_process_alive pid w) in
          Some (ok (finish start d clean signals
            (log ++ [if clean then "[3] Process killed by SIGKILL"
                     else "[3] Process did not respond to SIGKILL"]) w))
    end.

(** ** Termination *)

Lemma wait_ms_bounds d w : 0 ≤ d → 0 ≤ wait_ms d w ≤ d.
Proof. unfold wait_ms, FAR_FUTURE. case_match; lia. Qed.

Lemma poll_until_returns fuel deadline pid w :
  deadline - clock w < Z.of_nat fuel * 100 → (0 < fuel)%nat →
  ∃ b w', poll_until fuel deadline pid w = Some (b, w') ∧
    (b = true → is_process_alive pid w' = false).
Proof.
  revert w. induction fuel as [|fuel IH]; intros w Hf Hpos; [lia|]. simpl.
  destruct (is_process_alive pid w) eqn:Ea; [|eauto].
  destruct (Z.ltb_spec (deadline - clock w) 100) as [Hl|Hl]; [by eexists _, _|].
  pose proof (clock_sleep 100 w ltac:(lia)). apply IH; lia.
Qed.
Lemma wait_exit_returns secs pid w :
  0 ≤ secs → ∃ b w', wait_exit secs pid w = Some (b, w') ∧
    (b = true → is_process_alive pid w' = false).
Proof. intros. pose proof (wait_ms_bounds (secs * 1000) w). apply poll_until_returns; lia. Qed.

Lemma drain_returns fuel i during deadline m w :
  deadline - clock w < Z.of_nat fuel * 100 → (0 < fuel)%nat →
  is_Some (drain fuel i during deadline m w).
Proof.
  revert i m w. induction fuel as [|fuel IH]; intros i m w Hf Hpos; [lia|]. simpl.
  destruct (_ <=? _); [done|].
  destruct (Z.ltb_spec (deadline - clock w) 100) as [Hl|Hl]; [done|].
  pose proof (clock_sleep 100 w ltac:(lia)). apply IH; lia.
Qed.
Lemma drain_handler fuel i during deadline m w m' w' :
  drain fuel i during deadline m w = Some (m', w') →
  handler m' = handler m ∧ timeout_secs m' = timeout_secs m.
Proof.
  assert (∀ os m, handler (ops_apply os m) = handler m ∧
    timeout_secs (ops_apply os m) = timeout_secs m) as Hops.
  { intros os. induction os as [|[] os IH]; intros m0; [done|..]; simpl;
      [destruct (IH (operation_started m0))|destruct (IH (operation_completed m0))]; done. }
  revert i m w. induction fuel as [|fuel IH]; intros i m w E; simpl in E.
  - destruct (_ <=? _); by simplify_eq.
  - destruct (_ <=? _); [by simplify_eq|]. destruct (_ <? _).
    + simplify_eq. apply Hops.
    + destruct (Hops (during i) m) as [<- <-]. by eapply IH.
Qed.

Lemma handler_returns d pid secs w :
  0 ≤ secs → in_u 64 secs →
  ∃ r w', shutdown_handler d pid secs w = Some (r, w') ∧ res_db_type r = d ∧
    (clean_exit r = true → is_process_alive pid w' = false).
Proof.
  intros Hs Hu. destruct d; simpl.
  - unfold postgres_shutdown. destruct (kill (as_i32 pid) SIGTERM w) as [[[]|e] w1]; [|by eexists _, _].
    set (w2 := nap _ w1). destruct (is_process_alive pid w2) eqn:Ea; [|by eexists _, _].
    set (w3 := nap _ w2). destruct (is_process_alive pid w3) eqn:Eb; simpl.
    + destruct (wait_exit_returns (secs / 2) pid w3) as (b & w4 & -> & _);
        [apply Z.div_pos; lia|]. simpl.
      eexists _, _. split_and!; [done|done|]. simpl. apply negb_true_iff.
    + eexists _, _. split_and!; [done|done|]. simpl. done.
  - unfold redis_shutdown. destruct (kill (as_i32 pid) SIGTERM w) as [[[]|e] w1]; [|by eexists _, _].
    set (w2 := nap _ w1). destruct (is_process_alive pid w2) eqn:Ea; [|by eexists _, _].
    destruct (wait_exit_returns (mul64 secs 2 / 3) pid w2) as (b & w4 & -> & _).
    { apply Z.div_pos; [|lia]. apply wrap_range. lia. }
    simpl. eexists _, _. split_and!; [done|done|]. simpl. apply negb_true_iff.
  - unfold generic_shutdown. destruct (kill (as_i32 pid) SIGTERM w) as [[[]|e] w1]; [|by eexists _, _].
    destruct (wait_exit_returns secs pid w1) as (b & w2 & -> & _); [done|]. simpl.
    destruct (is_process_alive pid w2) eqn:Ea; [|by eexists _, _].
    destruct (sigkill pid 1 w2) as [n w3]. by eexists _, _.
Qed.

(** The manager's deadline can be represented, or it does not need one. *)
Definition drain_fits (m : ShutdownManager) (w : World) : bool :=
  (in_flight_count m <=? 0) || (clock w + drain_timeout_secs m * 1000 <=? max_instant).


(** ** A process that ignores SIGTERM

    [Immune w]: the process runs, whatever time passes and however often it is
    asked to terminate; SIGKILL ends it for good. *)
Section stubborn.
Context (pid : Z) (Immune Dead : World → Prop).
Context (immune_alive : ∀ w, Immune w → is_process_alive pid w = true).
Context (immune_sleep : ∀ d w, 0 ≤ d → Immune w → Immune (sleep d w)).
Context (immune_term : ∀ w, Immune w →
  ∃ w', kill (as_i32 pid) SIGTERM w = (Ok tt, w') ∧ Immune w').
Context (immune_kill : ∀ w, Immune w →
  ∃ w', kill (as_i32 pid) SIGKILL w = (Ok tt, w') ∧ Dead w').
Context (dead_alive : ∀ w, Dead w → is_process_alive pid w = false).
Context (dead_sleep : ∀ d w, 0 ≤ d → Dead w → Dead (sleep d w)).
Context (dead_reap : ∀ w, Dead w → Dead (reap (as_i32 pid) w)).

Lemma immune_poll fuel deadline w :
  deadline - clock w < Z.of_nat fuel * 100 → (0 < fuel)%nat → Immune w →
  ∃ w', poll_until fuel deadline pid w = Some (false, w') ∧ Immune w'.
Proof.
  revert w. induction fuel as [|fuel IH]; intros w Hf Hpos Hi; [lia|]. simpl.
  rewrite immune_alive by done.
  destruct (Z.ltb_spec (deadline - clock w) 100) as [Hl|Hl].
  - eexists. split; [done|]. apply immune_sleep; [lia|done].
  - pose proof (clock_sleep 100 w ltac:(lia)). apply IH; [lia|lia|]. apply immune_sleep; [lia|done].
Qed.
Lemma immune_wait secs w :
  0 ≤ secs → Immune w → ∃ w', wait_exit secs pid w = Some (false, w') ∧ Immune w'.
Proof. intros. pose proof (wait_ms_bounds (secs * 1000) w). apply immune_poll; [lia|lia|done]. Qed.
Lemma immune_nap d w : 0 ≤ d → Immune w → Immune (nap d w).
Proof. intros. apply immune_sleep; [by apply wait_ms_bounds|done]. Qed.
#[local] Hint Resolve immune_nap : core.
Lemma immune_sigkill w :
  Immune w → ∃ w', sigkill pid 1 w = (2, w') ∧ Dead w'.
Proof. intros Hi. unfold sigkill. destruct (immune_kill w Hi) as (w' & -> & ?). eauto. Qed.

Lemma handlers_give_up d secs w :
  in_u 64 secs → Immune w → d = Postgres ∨ d = Redis →
  ∃ r w', shutdown_handler d pid secs w = Some (r, w') ∧
    clean_exit r = false ∧ signals_sent r = 1 ∧ Immune w'.
Proof.
  intros Hu Hi Hd. destruct (immune_term w Hi) as (w1 & Ek & Hi1). unfold in_u in Hu.
  assert (0 ≤ secs / 4 * 1000) by (pose proof (Z.div_pos secs 4); lia).
  assert (0 ≤ secs / 3 * 1000) by (pose proof (Z.div_pos secs 3); lia). assert (0 ≤ 500) by lia.
  destruct Hd as [->| ->]; simpl.
  - unfold postgres_shutdown. rewrite Ek, !immune_alive by auto.
    destruct (immune_wait (secs / 2) (nap (secs / 4 * 1000) (nap (secs / 4 * 1000) w1)))
      as (w2 & -> & Hi2); [apply Z.div_pos; lia|auto|]. simpl.
    rewrite immune_alive by done. by eexists _, _.
  - unfold redis_shutdown. rewrite Ek, immune_alive by auto.
    destruct (immune_wait (mul64 secs 2 / 3) (nap (secs / 3 * 1000) w1)) as (w2 & -> & Hi2);
      [apply Z.div_pos; [apply wrap_range|]; lia|auto|]. simpl.
    rewrite immune_alive by done. by eexists _, _.
Qed.
Lemma generic_escalates secs w :
  in_u 64 secs → Immune w →
  ∃ r w', shutdown_handler Generic pid secs w = Some (r, w') ∧
    clean_exit r = false ∧ signals_sent r = 2 ∧ Dead w'.
Proof.
  intros Hu Hi. destruct (immune_term w Hi) as (w1 & Ek & Hi1). unfold in_u in Hu.
  simpl. unfold generic_shutdown. rewrite Ek.
  destruct (immune_wait secs w1) as (w2 & -> & Hi2); [lia|done|]. simpl.
  rewrite immune_alive by done. destruct (immune_sigkill w2 Hi2) as (w3 & -> & Hd).
  assert (0 ≤ 500) by lia. eexists _, _. split_and!; [done|done|done|]. auto.
Qed.
Lemma graceful_escalates secs s w :
  in_u 64 secs → 0 < pid → Immune w →
  ∃ r w', graceful_shutdown s (Some pid) secs w = Some (Ok r, w') ∧
    clean_exit r = true ∧ signals_sent r = 2 ∧ Dead w'.
Proof.
  intros Hu Hpid Hi. destruct (immune_term w Hi) as (w1 & Ek & Hi1). unfold in_u in Hu.
  unfold graceful_shutdown. simpl. rewrite (proj2 (Z.eqb_neq pid 0)), Ek by lia.
  destruct (immune_wait (wait_secs s secs) w1) as (w2 & -> & Hi2); [|done|].
  { destruct s; simpl; [apply Z.div_pos; [apply wrap_range|]; lia..|lia]. }
  simpl. rewrite immune_alive by done. simpl.
  destruct (immune_sigkill w2 Hi2) as (w3 & -> & Hd). assert (0 ≤ 500) by lia.
  eexists _, _. split_and!; [done| |done|auto]. simpl. by rewrite dead_alive by auto.
Qed.

(** Escalation.  Faced with a process that ignores SIGTERM, the PostgreSQL and
    the Redis handler give up and leave it running; the generic handler kills it and
    reports an unclean exit; the shutdown of a child kills it under every strategy
    and reports a clean exit, although it needed SIGKILL. *)
Theorem stubborn_process secs s w :
  in_u 64 secs → 0 < pid → Immune w →
  (∀ d, d = Postgres ∨ d = Redis →
     ∃ r w', shutdown_handler d pid secs w = Some (r, w') ∧
       clean_exit r = false ∧ signals_sent r = 1 ∧ Immune w') ∧
  (∃ r w', shutdown_handler Generic pid secs w = Some (r, w') ∧
     clean_exit r = false ∧ signals_sent r = 2 ∧ Dead w') ∧
  (∃ r w', graceful_shutdown s (Some pid) secs w = Some (Ok r, w') ∧
     clean_exit r = true ∧ signals_sent r = 2 ∧ Dead w').
Proof.
  intros Hu Hpid Hi. split_and!; eauto using handlers_give_up, generic_escalates, graceful_escalates.
Qed.
End stubborn.

(** ** How long it takes

    [late] bounds, for the run that is looked at, by how much a sleep takes longer than
    asked, and how long a signal takes. *)
Section timing.
Context (late : Z) (late_pos : 0 ≤ late).
Context (sleep_late : ∀ d w, 0 ≤ d → clock (sleep d w) ≤ clock w + d + late).
Context (kill_late : ∀ p sg w, clock w ≤ clock (kill p sg w).2 ≤ clock w + late).

Lemma nap_time d w : 0 ≤ d → clock w ≤ clock (nap d w) ≤ clock w + d + late.
Proof.
  intros Hd. unfold nap. pose proof (wait_ms_bounds d w Hd).
  pose proof (sleep_late (wait_ms d w) w ltac:(lia)). pose proof (clock_sleep (wait_ms d w) w ltac:(lia)). lia.
Qed.
(** The deadline does not move: only the last sleep of a loop, and the end of the
    timeout, add to it. *)
Lemma poll_until_time fuel deadline pid w b w' :
  poll_until fuel deadline pid w = Some (b, w') →
  clock w ≤ clock w' ≤ Z.max (clock w) (deadline + late) + late.
Proof.
  revert w. induction fuel as [|fuel IH]; intros w E; simpl in E.
  - destruct (is_process_alive pid w); simplify_eq. lia.
  - destruct (is_process_alive pid w); [|simplify_eq; lia].
    destruct (Z.ltb_spec (deadline - clock w) 100) as [Hl|Hl].
    + simplify_eq. pose proof (sleep_late (Z.max 0 (deadline - clock w)) w ltac:(lia)).
      pose proof (clock_sleep (Z.max 0 (deadline - clock w)) w ltac:(lia)). lia.
    + pose proof (sleep_late 100 w ltac:(lia)). pose proof (clock_sleep 100 w ltac:(lia)). apply IH in E. lia.
Qed.
Lemma wait_exit_time secs pid w b w' :
  0 ≤ secs → wait_exit secs pid w = Some (b, w') →
  clock w ≤ clock w' ≤ clock w + secs * 1000 + 2 * late.
Proof. intros Hs E. pose proof (wait_ms_bounds (secs * 1000) w). apply poll_until_time in E. lia. Qed.

Definition kill_grace (d : DatabaseType) : Z := match d with Generic => 500 | _ => 0 end.

(** C37. A handler keeps to its timeout as far as the timer does.  If no sleep takes more
    than [late] longer than asked and no signal longer than [late], then its steps
    together take at most the timeout, the half second that follows a SIGKILL, and five
    times [late] - however often it polls, because the deadline of the polling stands
    fixed; a clean exit is reported without that half second.  (The timeout is below
    2^63 seconds: the Redis handler doubles it.) *)
Theorem handler_in_time d pid secs w r w' :
  0 ≤ secs < 2 ^ 63 → shutdown_handler d pid secs w = Some (r, w') →
  duration_ms r ≤ secs * 1000 + kill_grace d + 5 * late ∧
  (clean_exit r = true → duration_ms r ≤ secs * 1000 + 5 * late).
Proof.
  intros Hs E. pose proof (kill_late (as_i32 pid) SIGTERM w) as Hk.
  assert (∀ n k, 0 ≤ n → 0 < k → 0 ≤ n / k ∧ k * (n / k) ≤ n) as Hdiv
    by (intros n k ??; split; [by apply Z.div_pos|by apply Z.mul_div_le]).
  pose proof (Hdiv secs 4). pose proof (Hdiv secs 2). pose proof (Hdiv secs 3).
  pose proof (Hdiv (secs * 2) 3). clear Hdiv.
  destruct d; simpl in E.
  - unfold postgres_shutdown, finish in E. destruct (kill (as_i32 pid) SIGTERM w) as [[[]|e] w1]; simpl in Hk;
      [|simplify_eq/=; lia].
    pose proof (nap_time (secs / 4 * 1000) w1 ltac:(lia)).
    set (w2 := nap _ w1) in *. destruct (is_process_alive pid w2); [|simplify_eq/=; lia].
    pose proof (nap_time (secs / 4 * 1000) w2 ltac:(lia)).
    set (w3 := nap _ w2) in *. destruct (is_process_alive pid w3); [|simplify_eq/=; lia].
    destruct (wait_exit (secs / 2) pid w3) as [[b w4]|] eqn:Ew; [|done].
    apply wait_exit_time in Ew; [|lia]. simplify_eq/=. lia.
  - unfold redis_shutdown, finish in E. destruct (kill (as_i32 pid) SIGTERM w) as [[[]|e] w1]; simpl in Hk;
      [|simplify_eq/=; lia].
    pose proof (nap_time (secs / 3 * 1000) w1 ltac:(lia)).
    set (w2 := nap _ w1) in *. destruct (is_process_alive pid w2); [|simplify_eq/=; lia].
    rewrite mul64_small in E by (unfold in_u; lia).
    destruct (wait_exit (secs * 2 / 3) pid w2) as [[b w3]|] eqn:Ew; [|done].
    apply wait_exit_time in Ew; [|lia]. simplify_eq/=. lia.
  - unfold generic_shutdown, finish in E. destruct (kill (as_i32 pid) SIGTERM w) as [[[]|e] w1]; simpl in Hk;
      [|simplify_eq/=; lia].
    destruct (wait_exit secs pid w1) as [[b w2]|] eqn:Ew; [|done].
    apply wait_exit_time in Ew; [|lia]. simpl in E.
    destruct (is_process_alive pid w2); [|simplify_eq/=; lia].
    unfold sigkill in E. pose proof (kill_late (as_i32 pid) SIGKILL w2) as Hk2.
    destruct (kill (as_i32 pid) SIGKILL w2) as [[[]|e] w3]; simpl in Hk2;
      pose proof (sleep_late 500 w3 ltac:(lia)); simplify_eq/=; split; [lia|done|lia|done].
Qed.
End timing.

(** ** In-flight operations *)

Definition started_in (os : list InFlightOp) : Z :=
  Z.of_nat (length (filter (λ o, o = Started) os)).
Definition completed_in (os : list InFlightOp) : Z :=
  Z.of_nat (length (filter (λ o, o = Completed) os)).

Lemma ops_apply_counts os m :
  0 ≤ in_flight_total m → 0 ≤ in_flight_completed m →
  in_flight_total m + Z.of_nat (length os) < 2 ^ 64 →
  in_flight_completed m + Z.of_nat (length os) < 2 ^ 64 →
  in_flight_total (ops_apply os m) = in_flight_total m + started_in os ∧
  in_flight_completed (ops_apply os m) = in_flight_completed m + completed_in os.
Proof.
  unfold started_in, completed_in. revert m.
  induction os as [|o os IH]; intros m Ht Hc Hb1 Hb2; simpl in *; [lia|].
  destruct o; rewrite !filter_cons; repeat case_decide; try done; simpl.
  - destruct (IH (operation_started m)) as [-> ->]; simpl; u_small; lia.
  - destruct (IH (operation_completed m)) as [-> ->]; simpl; u_small; lia.
Qed.
(** The manager counts the operations that have started and not completed. *)
Lemma in_flight_after_ops env d secs os :
  completed_in os ≤ started_in os → Z.of_nat (length os) < 2 ^ 64 →
  in_flight_count (ops_apply os (new_manager env d secs)) = started_in os - completed_in os.
Proof.
  intros Hle Hlen.
  destruct (ops_apply_counts os (new_manager env d secs)) as [Et Ec]; simpl; [lia..|].
  unfold in_flight_count, saturating_sub. rewrite Et, Ec. simpl. lia.
Qed.
End shutdown.

(** ** Runs *)
Section shutdown_runs.
(** One process: it dies [delay] milliseconds after SIGTERM, or never. *)
Record Proc := mkProc { t : Z; delay : option Z; dies_at : option Z }.
#[local] Instance proc_os : Os :=
  {| World := Proc;
     kill _ sg w :=
       (Ok tt, match sg, delay w with
               | SIGKILL, _ => mkProc (t w) (delay w) (Some (t w))
               | SIGTERM, Some d => mkProc (t w) (delay w) (Some (t w + d))
               | SIGTERM, None => w
               end);
     alive _ w := match dies_at w with Some x => t w <? x | None => true end;
     reap _ w := w;
     sleep d w := mkProc (t w + d) (delay w) (dies_at w);
     clock := t;
     max_instant := 2 ^ 63 * 1000;
     clock_sleep d w _ := Z.le_refl (t w + d) |}.

Example demo_quick : (λ x : ShutdownResult * Proc, (clean_exit x.1, duration_ms x.1))
  <$> shutdown_handler Generic 42 10 (mkProc 0 (Some 250) None) = Some (true, 300).
Proof. reflexivity. Qed.
Example demo_slow : (λ x : ShutdownResult * Proc, (clean_exit x.1, duration_ms x.1))
  <$> shutdown_handler Redis 42 9 (mkProc 0 (Some 9001) None) = Some (false, 9000).
Proof. reflexivity. Qed.

(** A drain timeout of 2^64 - 1 seconds with an operation in flight panics. *)
Definition endless_drain : ShutdownManager :=
  operation_started (new_manager {["SHIM_DRAIN_TIMEOUT_SECS" := "18446744073709551615"]} Redis 10).
Lemma stubborn_process_witness :
  let w := mkProc 0 None None in
  ∃ r w', graceful_shutdown PostgresGraceful (Some 42) 10 w = Some (Ok r, w') ∧
    clean_exit r = true ∧ signals_sent r = 2 ∧ is_process_alive 42 w' = false.
Proof.
  apply (stubborn_process (OS := proc_os) 42 (λ w, delay w = None ∧ dies_at w = None)
    (λ w, is_process_alive 42 w = false)); try done.
  - intros [? ? ?] [? ?]; simpl in *; by subst.
  - intros [? ? ?] [Hd Hx]; simpl in *. subst. by eexists.
  - intros [? ? ?] [Hd Hx]; simpl in *. eexists. split; [done|]. apply Z.ltb_irrefl.
  - intros d [x ? [y|]] Hd; unfold is_process_alive; simpl; [|done].
    rewrite !Z.ltb_ge. lia.
Defined.
(** The timer is three milliseconds late, and so are signals. *)
#[local] Instance late_os : Os :=
  {| World := Proc;
     kill p sg w := let '(r, w) := kill (Os := proc_os) p sg w in (r, mkProc (t w + 3) (delay w) (dies_at w));
     alive := alive (Os := proc_os);
     reap _ w := w;
     sleep d w := mkProc (t w + d + 3) (delay w) (dies_at w);
     clock := t;
     max_instant := 2 ^ 63 * 1000;
     clock_sleep d w _ := ltac:(simpl; lia) |}.
Lemma late_kill p sg (w : Proc) : t w ≤ clock (kill (Os := late_os) p sg w).2 ≤ t w + 3.
Proof. destruct sg; simpl; [destruct (delay w)|]; simpl; lia. Qed.
Lemma handler_in_time_witness :
  ∃ r w', shutdown_handler (OS := late_os) Redis 42 9 (mkProc 0 (Some 9001) None) = Some (r, w') ∧
    duration_ms r ≤ 9015.
Proof.
  destruct (shutdown_handler (OS := late_os) Redis 42 9 (mkProc 0 (Some 9001) None)) as [[r w']|] eqn:E;
    [|exfalso; revert E; vm_compute; congruence].
  exists r, w'. split; [done|].
  destruct (handler_in_time (OS := late_os) 3 ltac:(lia) (λ d w _, Z.le_refl (t w + d + 3)) late_kill
    Redis 42 9 _ r w' ltac:(lia) E) as [H _]. exact H.
Defined.
End shutdown_runs.
