(* ===== verification/Tenant.v ===== *)
(** * Tenant isolation ([shim-core/src/tenant.rs])

    Quotas per tenant: memory, CPU and a token bucket for requests, with an audit
    log.  The syntax of tenant ids is [validkit]'s ([TenantIdSlug]).  [ck i] is the
    [i]-th reading of the monotonic clock in a call, [wall] the wall clock. *)

From S2P Require Import Prelude Config.

(** [TokenBucket] and its operations *)
Record TokenBucket := mkBucket {
  tokens : f64;
  max_tokens : f64;
  refill_rate : f64;
  last_refill : Z
}.
#[export] Instance TokenBucket_settable : Settable TokenBucket := λ b,
  mkBucket (tokens b) (max_tokens b) (refill_rate b) (last_refill b).
Definition new_bucket (max rate : f64) (now : Z) : TokenBucket := mkBucket max max rate now.
Definition refill (now : Z) (b : TokenBucket) : TokenBucket :=
  let elapsed := as_secs_f64 (saturating_sub now (last_refill b)) in
  b <| tokens := f64_min (f64_add (tokens b) (f64_mul elapsed (refill_rate b))) (max_tokens b) |>
    <| last_refill := now |>.
Definition try_consume (now : Z) (b : TokenBucket) : bool * TokenBucket :=
  let b := refill now b in
  if f64_ge (tokens b) (f64_of_Z 1)
  then (true, b <| tokens ::= λ t, f64_sub t (f64_of_Z 1) |>)
  else (false, b).
Definition reset_bucket (now : Z) (b : TokenBucket) : TokenBucket :=
  b <| tokens := max_tokens b |> <| last_refill := now |>.

(** [CpuTimeTracker] and its operations *)
Record CpuTimeTracker := mkCpuTime {
  total_cpu_ms : f64;
  window_start : option Z;
  max_cpu_ms : option f64
}.
#[export] Instance CpuTimeTracker_settable : Settable CpuTimeTracker := λ c,
  mkCpuTime (total_cpu_ms c) (window_start c) (max_cpu_ms c).
Definition new_cpu_time : CpuTimeTracker := mkCpuTime (f64_of_Z 0) None None.
Definition start_window (now : Z) (c : CpuTimeTracker) : CpuTimeTracker :=
  c <| window_start := Some now |>.
Definition end_window (now : Z) (c : CpuTimeTracker) : f64 * CpuTimeTracker :=
  match window_start c with
  | Some start =>
      let elapsed := f64_mul (as_secs_f64 (saturating_sub now start)) (f64_of_Z 1000) in
      (elapsed, c <| window_start := None |> <| total_cpu_ms ::= λ t, f64_add t elapsed |>)
  | None => (f64_of_Z 0, c)
  end.
Definition is_over_budget (c : CpuTimeTracker) : bool :=
  match max_cpu_ms c with Some max => f64_gt (total_cpu_ms c) max | None => false end.
Definition reset_cpu_time (c : CpuTimeTracker) : CpuTimeTracker :=
  c <| total_cpu_ms := f64_of_Z 0 |> <| window_start := None |>.

(** [TenantUsage] and its [Default] *)
Record TenantUsage := mkUsage {
  memory_bytes : Z;
  cpu_percent : f64;
  requests_count : Z;
  last_reset : Z;
  token_bucket : option TokenBucket;
  cpu_time : CpuTimeTracker;
  rejected_count : Z
}.
#[export] Instance TenantUsage_settable : Settable TenantUsage := λ u,
  mkUsage (memory_bytes u) (cpu_percent u) (requests_count u) (last_reset u) (token_bucket u)
    (cpu_time u) (rejected_count u).
Definition default_usage (now : Z) : TenantUsage :=
  mkUsage 0 (f64_of_Z 0) 0 now None new_cpu_time 0.

Inductive TenantQuotaResult := Allowed | RateLimited | MemoryExceeded | CpuExceeded.
#[export] Instance TenantQuotaResult_eq_dec : EqDecision TenantQuotaResult.
Proof. solve_decision. Defined.
Record AuditEntry := mkAudit {
  timestamp : string;
  audit_tenant : string;
  action : string;
  allowed : bool
}.

(** [classify_rate], [check_cpu_and_rate]: the result, whether a token is to be
    taken, and the new usage *)
Definition classify_rate (u : TenantUsage) (c : TenantConfig) : TenantQuotaResult * bool :=
  match token_bucket u with
  | Some _ => (Allowed, true)
  | None =>
      match max_requests_per_sec c with
      | Some max_rps => if max_rps <? requests_count u then (RateLimited, false) else (Allowed, false)
      | None => (Allowed, false)
      end
  end.
Definition reject (u : TenantUsage) : TenantUsage := u <| rejected_count ::= λ n, add64 n 1 |>.
Definition check_cpu_and_rate (u : TenantUsage) (c : TenantConfig)
    : TenantQuotaResult * bool * TenantUsage :=
  if f64_gt (cpu_percent u) (default f64_max_value (max_cpu_percent c)) || is_over_budget (cpu_time u)
  then (CpuExceeded, false, reject u)
  else (classify_rate u c, u).

(** [TenantIsolator] *)
Record TenantIsolator := mkIsolator {
  configs : gmap string TenantConfig;
  usage : gmap string TenantUsage;
  global_enabled : bool;
  audit_log : list AuditEntry;
  max_audit_entries : Z
}.
#[export] Instance TenantIsolator_settable : Settable TenantIsolator := λ t,
  mkIsolator (configs t) (usage t) (global_enabled t) (audit_log t) (max_audit_entries t).
Definition new_isolator : TenantIsolator := mkIsolator ∅ ∅ false [] 10000.
Definition set_max_audit_entries (max : Z) (t : TenantIsolator) : TenantIsolator :=
  t <| max_audit_entries := max |>.

(** The bucket of a tenant with a rate limit *)
Definition bucket_for (max_rps now : Z) : TokenBucket :=
  new_bucket (f64_of_Z max_rps) (f64_of_Z max_rps) now.

Section tenant.
Context `{HO : HashOrder} `{RF : Rfc3339}.
(** [validkit::TenantIdSlug::try_from(id).is_ok()] *)
Context (TenantIdSlug : string → bool).

(** [validate_tenant_id], [is_valid_tenant_id] and the text of the error *)
Definition validate_tenant_id (id : string) : result string unit :=
  if TenantIdSlug id then Ok tt else Err id.
Definition invalid_tenant_id_display (id : string) : string :=
  "invalid tenant ID '" +:+ id +:+ "': must be 3-64 ASCII alphanumeric/hyphen characters".

(** [from_config]; [ck i] is read for the [i]-th tenant. *)
Fixpoint add_tenants (i : nat) (ck : nat → Z) (ts : list TenantConfig)
    (acc : gmap string TenantConfig * gmap string TenantUsage)
    : result string (gmap string TenantConfig * gmap string TenantUsage) :=
  match ts with
  | [] => Ok acc
  | c :: rest =>
      if TenantIdSlug (tenant_id c) then
        let u := (default_usage (ck i)) <| token_bucket :=
                   (λ r, bucket_for r (ck i)) <$> max_requests_per_sec c |> in
        add_tenants (S i) ck rest (<[tenant_id c := c]> acc.1, <[tenant_id c := u]> acc.2)
      else Err (tenant_id c)
  end.
Definition from_config (ck : nat → Z) (ts : list TenantConfig) : result string TenantIsolator :=
  match add_tenants 0 ck ts (∅, ∅) with
  | Ok (cs, us) => Ok (mkIsolator cs us (negb (bool_decide (ts = []))) [] 10000)
  | Err e => Err e
  end.

(** [record_audit_entry]; [None]: [remove(0)] panics on an empty log. *)
Definition record_audit_entry (wall : Z) (id act : string) (ok : bool) (t : TenantIsolator)
    : option TenantIsolator :=
  let entry := mkAudit (to_rfc3339 wall) id act ok in
  if max_audit_entries t <=? Z.of_nat (length (audit_log t)) then
    match audit_log t with
    | [] => None
    | _ :: rest => Some (t <| audit_log := rest ++ [entry] |>)
    end
  else Some (t <| audit_log ::= λ l, l ++ [entry] |>).

(** [usage.entry(id).or_default()], then an update *)
Definition with_usage (now : Z) (id : string) (f : TenantUsage → TenantUsage) (t : TenantIsolator)
    : TenantIsolator :=
  t <| usage ::= λ m, <[id := f (default (default_usage now) (m !! id))]> m |>.

(** [register_tenant], [remove_tenant] *)
Definition register_tenant (ck : nat → Z) (wall : Z) (c : TenantConfig) (t : TenantIsolator)
    : option (result string unit * TenantIsolator) :=
  if TenantIdSlug (tenant_id c) then
    let t := t <| configs ::= <[tenant_id c := c]> |> <| global_enabled := true |> in
    let t := match max_requests_per_sec c with
             | Some r => with_usage (ck 0%nat) (tenant_id c)
                           (λ u, u <| token_bucket := Some (bucket_for r (ck 1%nat)) |>) t
             | None => t
             end in
    t ← record_audit_entry wall (tenant_id c) "register" true t;
    Some (Ok tt, t)
  else Some (Err (tenant_id c), t).
Definition remove_tenant (wall : Z) (id : string) (t : TenantIsolator)
    : option (bool * TenantIsolator) :=
  let removed := bool_decide (is_Some (configs t !! id)) in
  let t := t <| usage ::= delete id |> <| configs ::= delete id |> in
  if removed then
    t ← record_audit_entry wall id "remove" true t;
    Some (true, t)
  else Some (false, t).

(** [record_memory], [record_cpu], [record_request], the CPU windows *)
Definition record_memory (now : Z) (id : string) (bytes : Z) : TenantIsolator → TenantIsolator :=
  with_usage now id (λ u, u <| memory_bytes := bytes |>).
Definition record_cpu (now : Z) (id : string) (p : f64) : TenantIsolator → TenantIsolator :=
  with_usage now id (λ u, u <| cpu_percent := p |>).
Definition record_request (now : Z) (id : string) : TenantIsolator → TenantIsolator :=
  with_usage now id (λ u, u <| requests_count ::= λ n, add64 n 1 |>).
Definition start_cpu_window (now : Z) (id : string) : TenantIsolator → TenantIsolator :=
  with_usage now id (λ u, u <| cpu_time ::= start_window now |>).
Definition end_cpu_window (now : Z) (id : string) (t : TenantIsolator) : f64 * TenantIsolator :=
  (default (f64_of_Z 0)
     ((λ u, (end_window now (cpu_time u)).1) <$> usage t !! id),
   with_usage now id (λ u, u <| cpu_time ::= λ c, (end_window now c).2 |>) t).

(** The reset of a period that has elapsed ([ck i], [ck (i+1)], [ck (i+2)]) *)
Definition reset_period (ck : nat → Z) (i : nat) (period : Z) (u : TenantUsage) : TenantUsage :=
  if period <=? saturating_sub (ck i) (last_reset u) / 10 ^ 9 then
    u <| requests_count := 0 |> <| last_reset := ck (S i) |>
      <| token_bucket ::= fmap (reset_bucket (ck (S (S i)))) |>
  else u.
(** [check_and_reset] *)
Definition check_and_reset (ck : nat → Z) (id : string) (t : TenantIsolator) : TenantIsolator :=
  let period := default 1 (reset_period_secs <$> configs t !! id) in
  t <| usage ::= alter (reset_period ck 0 period) id |>.

(** The part of [check_quota_hardened] that works on one tenant's usage: make sure
    that there is a bucket, reset, check memory, then CPU, then take a token. *)
Definition ensure_bucket (now : Z) (c : TenantConfig) (u : TenantUsage) : TenantUsage :=
  match token_bucket u, max_requests_per_sec c with
  | None, Some r => u <| token_bucket := Some (bucket_for r now) |>
  | _, _ => u
  end.
Definition classify_usage (c : TenantConfig) (u : TenantUsage) : TenantQuotaResult * bool * TenantUsage :=
  match max_memory_bytes c with
  | Some max_mem =>
      if max_mem <? memory_bytes u then (MemoryExceeded, false, reject u)
      else check_cpu_and_rate u c
  | None => check_cpu_and_rate u c
  end.
Definition consume_token (now : Z) (u : TenantUsage) : bool * TenantUsage :=
  match token_bucket u with
  | Some b =>
      let '(ok, b) := try_consume now b in
      let u := u <| token_bucket := Some b |> in
      if ok then (true, u) else (false, reject u)
  | None => (true, u)
  end.
Definition check_usage (ck : nat → Z) (c : TenantConfig) (u : TenantUsage)
    : TenantQuotaResult * TenantUsage :=
  let u := reset_period ck 2 (reset_period_secs c) (ensure_bucket (ck 1%nat) c u) in
  let '(res, needs_token, u) := classify_usage c u in
  if needs_token : bool then
    let '(ok, u) := consume_token (ck 5%nat) u in
    (if ok then res else RateLimited, u)
  else (res, u).

(** [check_quota_hardened], [check_quota] *)
Definition check_quota_hardened (ck : nat → Z) (wall : Z) (id : string) (t : TenantIsolator)
    : option (TenantQuotaResult * TenantIsolator) :=
  if negb (global_enabled t) then Some (Allowed, t)
  else
    match configs t !! id with
    | None => Some (Allowed, t)
    | Some c =>
        let u := default (default_usage (ck 0%nat)) (usage t !! id) in
        let '(res, u) := check_usage ck c u in
        t ← record_audit_entry wall id "quota_check" (bool_decide (res = Allowed))
              (t <| usage ::= <[id := u]> |>);
        Some (res, t)
    end.
Definition check_quota (ck : nat → Z) (wall : Z) (id : string) (t : TenantIsolator)
    : option (bool * TenantIsolator) :=
  '(res, t) ← check_quota_hardened ck wall id t;
  Some (bool_decide (res = Allowed), t).

(** [is_feature_allowed] *)
Definition is_feature_allowed (id feature : string) (t : TenantIsolator) : bool :=
  match configs t !! id with
  | Some c => bool_decide (feature ∈ allowed_features c)
  | None => true
  end.

(** [metrics], [shim_metrics] *)
Record TenantMetrics := mkTenantMetrics {
  tm_tenant_id : string;
  tm_memory_bytes : Z;
  tm_cpu_percent : f64;
  tm_requests_count : Z;
  memory_limit_reached : bool;
  cpu_limit_reached : bool;
  rate_limit_reached : bool;
  tm_rejected_count : Z;
  tm_total_cpu_ms : f64
}.
Definition tenant_metrics (now : Z) (t : TenantIsolator) : list TenantMetrics :=
  (λ c : TenantConfig,
     let u := default (default_usage now) (usage t !! tenant_id c) in
     {| tm_tenant_id := tenant_id c;
        tm_memory_bytes := memory_bytes u;
        tm_cpu_percent := cpu_percent u;
        tm_requests_count := requests_count u;
        memory_limit_reached :=
          match max_memory_bytes c with Some max => max <? memory_bytes u | None => false end;
        cpu_limit_reached :=
          match max_cpu_percent c with Some max => f64_gt (cpu_percent u) max | None => false end;
        rate_limit_reached :=
          match token_bucket u with
          | Some b => f64_lt (tokens b) (f64_of_Z 1)
          | None => match max_requests_per_sec c with
                    | Some max => max <? requests_count u
                    | None => false
                    end
          end;
        tm_rejected_count := rejected_count u;
        tm_total_cpu_ms := total_cpu_ms (cpu_time u) |}) <$> hash_values (configs t).
Definition f64_of_bool (b : bool) : f64 := f64_of_Z (if b then 1 else 0).
Definition shim_metrics (now : Z) (t : TenantIsolator) : list (string * f64 * string) :=
  concat ((λ tm : TenantMetrics,
    (λ kv : string * f64, (kv.1, kv.2, tm_tenant_id tm)) <$>
      [("tenant_memory_bytes", f64_of_Z (tm_memory_bytes tm));
       ("tenant_cpu_percent", tm_cpu_percent tm);
       ("tenant_requests_count", f64_of_Z (tm_requests_count tm));
       ("tenant_memory_limit_reached", f64_of_bool (memory_limit_reached tm));
       ("tenant_cpu_limit_reached", f64_of_bool (cpu_limit_reached tm));
       ("tenant_rate_limit_reached", f64_of_bool (rate_limit_reached tm));
       ("tenant_rejected_count", f64_of_Z (tm_rejected_count tm));
       ("tenant_total_cpu_ms", tm_total_cpu_ms tm)]) <$> tenant_metrics now t).

(** ** The audit log *)

Lemma record_audit_frame wall id act ok t t' :
  record_audit_entry wall id act ok t = Some t' →
  configs t' = configs t ∧ usage t' = usage t ∧ global_enabled t' = global_enabled t ∧
  max_audit_entries t' = max_audit_entries t.
Proof. unfold record_audit_entry. repeat case_match; intros; simplify_eq/=; done. Qed.
(** The newest entry is at the end, and the log grows only below its maximum. *)
Lemma record_audit_spec wall id act ok t t' :
  record_audit_entry wall id act ok t = Some t' →
  last (audit_log t') = Some (mkAudit (to_rfc3339 wall) id act ok) ∧
  Z.of_nat (length (audit_log t'))
    = Z.min (Z.of_nat (length (audit_log t)) + 1)
        (Z.max (max_audit_entries t) (Z.of_nat (length (audit_log t)))).
Proof.
  unfold record_audit_entry.
  destruct (Z.leb_spec (max_audit_entries t) (Z.of_nat (length (audit_log t)))) as [Hl|Hl].
  - destruct (audit_log t) as [|e l] eqn:E; [done|]. intros. simplify_eq/=.
    rewrite last_snoc, length_app. simpl in *. split; [done|]. lia.
  - intros. simplify_eq/=. rewrite last_snoc, length_app. simpl. split; [done|]. lia.
Qed.
Lemma record_audit_panics wall id act ok t :
  record_audit_entry wall id act ok t = None ↔ audit_log t = [] ∧ max_audit_entries t ≤ 0.
Proof.
  unfold record_audit_entry.
  destruct (Z.leb_spec (max_audit_entries t) (Z.of_nat (length (audit_log t)))) as [Hl|Hl];
    destruct (audit_log t); simpl in *; split; try done; intros []; try done; lia.
Qed.

(** ** The decision *)

Lemma reset_period_frame ck i p u :
  memory_bytes (reset_period ck i p u) = memory_bytes u ∧
  cpu_percent (reset_period ck i p u) = cpu_percent u ∧
  cpu_time (reset_period ck i p u) = cpu_time u ∧
  rejected_count (reset_period ck i p u) = rejected_count u ∧
  (is_Some (token_bucket (reset_period ck i p u)) ↔ is_Some (token_bucket u)).
Proof. unfold reset_period. case_match; [|done]. simpl. by rewrite fmap_is_Some. Qed.
Lemma ensure_bucket_frame now c u :
  memory_bytes (ensure_bucket now c u) = memory_bytes u ∧
  cpu_percent (ensure_bucket now c u) = cpu_percent u ∧
  cpu_time (ensure_bucket now c u) = cpu_time u ∧
  rejected_count (ensure_bucket now c u) = rejected_count u ∧
  (is_Some (token_bucket (ensure_bucket now c u)) ↔
   is_Some (token_bucket u) ∨ is_Some (max_requests_per_sec c)).
Proof.
  unfold ensure_bucket. destruct (token_bucket u) eqn:Eb, (max_requests_per_sec c) eqn:Em; simpl;
    rewrite ?Eb; (split_and!; [done..|]); split; try (intros; by eauto).
  intros [[? ?]|[? ?]]; done.
Qed.

(** The bucket the check works with: the tenant's own, or a new one, full again if
    the period is over *)
Definition effective (ck : nat → Z) (c : TenantConfig) (u : TenantUsage) : TenantUsage :=
  reset_period ck 2 (reset_period_secs c) (ensure_bucket (ck 1%nat) c u).

Definition over_memory (c : TenantConfig) (u : TenantUsage) : bool :=
  match max_memory_bytes c with Some m => m <? memory_bytes u | None => false end.
Definition over_cpu (c : TenantConfig) (u : TenantUsage) : bool :=
  f64_gt (cpu_percent u) (default f64_max_value (max_cpu_percent c)) || is_over_budget (cpu_time u).
(** The decision, in order of precedence *)
Definition quota_table (ck : nat → Z) (c : TenantConfig) (u : TenantUsage) : TenantQuotaResult :=
  if over_memory c u then MemoryExceeded
  else if over_cpu c u then CpuExceeded
  else match token_bucket (effective ck c u) with
       | Some b => if (try_consume (ck 5%nat) b).1 then Allowed else RateLimited
       | None => Allowed
       end.

Lemma effective_frame ck c u :
  over_memory c (effective ck c u) = over_memory c u ∧
  over_cpu c (effective ck c u) = over_cpu c u ∧
  rejected_count (effective ck c u) = rejected_count u ∧
  (token_bucket (effective ck c u) = None → max_requests_per_sec c = None).
Proof.
  destruct (ensure_bucket_frame (ck 1%nat) c u) as (Em & Ep & Ec & Er & Eb).
  destruct (reset_period_frame ck 2 (reset_period_secs c) (ensure_bucket (ck 1%nat) c u))
    as (Em' & Ep' & Ec' & Er' & Eb').
  unfold effective, over_memory, over_cpu. rewrite Em', Ep', Ec', Er', Em, Ep, Ec, Er.
  split_and!; [done..|]. intros Hn. destruct (max_requests_per_sec c) eqn:E; [|done].
  rewrite Hn in Eb'. assert (is_Some (@None TokenBucket)) as [? ?]; [|done].
  apply Eb', Eb. right. eauto.
Qed.

Lemma classify_usage_spec c u :
  (token_bucket u = None → max_requests_per_sec c = None) →
  classify_usage c u =
    if over_memory c u then (MemoryExceeded, false, reject u)
    else if over_cpu c u then (CpuExceeded, false, reject u)
    else (Allowed, bool_decide (is_Some (token_bucket u)), u).
Proof.
  intros Hb. unfold classify_usage, over_memory, check_cpu_and_rate.
  fold (over_cpu c u).
  assert (classify_rate u c = (Allowed, bool_decide (is_Some (token_bucket u)))) as ->.
  { unfold classify_rate. destruct (token_bucket u); [by rewrite bool_decide_eq_true_2|].
    by rewrite Hb. }
  destruct (max_memory_bytes c); [|by destruct (over_cpu c u)].
  destruct (_ <? _); [done|]. by destruct (over_cpu c u).
Qed.

Lemma check_usage_spec ck c u :
  (check_usage ck c u).1 = quota_table ck c u ∧
  rejected_count (check_usage ck c u).2
    = (if decide (quota_table ck c u = Allowed) then rejected_count u
       else add64 (rejected_count u) 1) ∧
  token_bucket (check_usage ck c u).2
    = (if over_memory c u || over_cpu c u then token_bucket (effective ck c u)
       else (λ b, (try_consume (ck 5%nat) b).2) <$> token_bucket (effective ck c u)).
Proof.
  destruct (effective_frame ck c u) as (Em & Ec & Er & Eb).
  unfold check_usage. fold (effective ck c u). rewrite classify_usage_spec by done.
  rewrite Em, Ec. unfold quota_table.
  destruct (over_memory c u); simpl; [by rewrite Er|].
  destruct (over_cpu c u); simpl; [by rewrite Er|].
  destruct (token_bucket (effective ck c u)) as [b|] eqn:E; simpl; [|by rewrite E].
  unfold consume_token. rewrite E. destruct (try_consume (ck 5%nat) b) as [[] b']; simpl; by rewrite Er.
Qed.

(** The order of the quotas.  For an enabled, configured tenant the check answers
    [MemoryExceeded] when the memory is over its limit; otherwise [CpuExceeded] when
    the CPU is over its limit or its time budget; otherwise [RateLimited] exactly when
    the tenant's bucket has no token; otherwise [Allowed].  Tokens are taken only when
    memory and CPU are in order, a rejection is counted once, an answer is logged
    once. *)
Theorem quota_decision ck wall id c t res t' :
  global_enabled t = true → configs t !! id = Some c →
  check_quota_hardened ck wall id t = Some (res, t') →
  let u := default (default_usage (ck 0%nat)) (usage t !! id) in
  res = quota_table ck c u ∧
  (∃ u', usage t' !! id = Some u' ∧
     rejected_count u' = (if decide (res = Allowed) then rejected_count u
                          else add64 (rejected_count u) 1) ∧
     token_bucket u' = (if over_memory c u || over_cpu c u then token_bucket (effective ck c u)
                        else (λ b, (try_consume (ck 5%nat) b).2) <$> token_bucket (effective ck c u))) ∧
  last (audit_log t') = Some (mkAudit (to_rfc3339 wall) id "quota_check" (bool_decide (res = Allowed))).
Proof.
  intros Hg Hc E u. unfold check_quota_hardened in E.
  rewrite Hg, Hc in E. simpl in E. fold u in E.
  destruct (check_usage_spec ck c u) as (Hres & Hrej & Htok).
  destruct (check_usage ck c u) as [r u']. simpl in *.
  apply bind_Some in E as (t1 & Ha & E). simplify_eq.
  pose proof (record_audit_frame _ _ _ _ _ _ Ha) as (_ & Hus & _).
  apply record_audit_spec in Ha as [Hlast _].
  split; [done|]. split; [|exact Hlast].
  exists u'. rewrite Hus. simpl. by rewrite lookup_insert_eq.
Qed.

(** The requests counted by [record_request] never limit anything: the counter is
    consulted only where there is no bucket, and then there is no limit. *)
Lemma requests_never_limit ck c u n :
  (check_usage ck c (u <| requests_count := n |>)).1 = (check_usage ck c u).1.
Proof.
  rewrite !(proj1 (check_usage_spec ck c _)). unfold quota_table.
  assert (token_bucket (effective ck c (u <| requests_count := n |>)) = token_bucket (effective ck c u))
    as ->; [|done].
  unfold effective, ensure_bucket, reset_period. simpl.
  destruct (token_bucket u) eqn:E, (max_requests_per_sec c); simpl; destruct (_ <=? _); simpl; by rewrite ?E.
Qed.

(** ** Isolation *)

Inductive TenantOp :=
| OpRegister (ck : nat → Z) (wall : Z) (c : TenantConfig)
| OpRemove (wall : Z) (id : string)
| OpMemory (now : Z) (id : string) (bytes : Z)
| OpCpu (now : Z) (id : string) (p : f64)
| OpRequest (now : Z) (id : string)
| OpReset (ck : nat → Z) (id : string)
| OpStartWindow (now : Z) (id : string)
| OpEndWindow (now : Z) (id : string)
| OpCheck (ck : nat → Z) (wall : Z) (id : string).
Definition op_tenant (o : TenantOp) : string :=
  match o with
  | OpRegister _ _ c => tenant_id c
  | OpRemove _ id | OpMemory _ id _ | OpCpu _ id _ | OpRequest _ id | OpReset _ id
  | OpStartWindow _ id | OpEndWindow _ id | OpCheck _ _ id => id
  end.
Definition tenant_step (o : TenantOp) (t : TenantIsolator) : option TenantIsolator :=
  match o with
  | OpRegister ck wall c => snd <$> register_tenant ck wall c t
  | OpRemove wall id => snd <$> remove_tenant wall id t
  | OpMemory now id bytes => Some (record_memory now id bytes t)
  | OpCpu now id p => Some (record_cpu now id p t)
  | OpRequest now id => Some (record_request now id t)
  | OpReset ck id => Some (check_and_reset ck id t)
  | OpStartWindow now id => Some (start_cpu_window now id t)
  | OpEndWindow now id => Some (end_cpu_window now id t).2
  | OpCheck ck wall id => snd <$> check_quota_hardened ck wall id t
  end.
Fixpoint tenant_run (os : list TenantOp) (t : TenantIsolator) : option TenantIsolator :=
  match os with [] => Some t | o :: os => tenant_step o t ≫= tenant_run os end.

(** What one tenant sees *)
Definition same_for (id : string) (t t' : TenantIsolator) : Prop :=
  configs t' !! id = configs t !! id ∧ usage t' !! id = usage t !! id.
Lemma same_for_insert id id' f now t : id' ≠ id → same_for id t (with_usage now id' f t).
Proof. intros. split; [done|]. simpl. by rewrite lookup_insert_ne. Qed.

(** Isolators without a tenant are disabled, and only they. *)
Definition enabled_ok (t : TenantIsolator) : Prop := configs t ≠ ∅ → global_enabled t = true.

Lemma tenant_step_frame o t t' id :
  tenant_step o t = Some t' → op_tenant o ≠ id → same_for id t t'.
Proof.
  intros E Hne.
  destruct o as [ck wall c|wall i|now i b|now i p|now i|ck i|now i|now i|ck wall i]; simpl in *;
    try (simplify_eq; by apply same_for_insert).
  - apply fmap_Some in E as ([r t1] & E & ->). unfold register_tenant in E.
    destruct (TenantIdSlug (tenant_id c)); [|by simplify_eq].
    apply bind_Some in E as (t2 & Ha & E). simplify_eq/=.
    apply record_audit_frame in Ha as (Hc & Hu & _). unfold same_for. rewrite Hc, Hu.
    destruct (max_requests_per_sec c); simpl; by rewrite ?lookup_insert_ne.
  - apply fmap_Some in E as ([r t1] & E & ->). unfold remove_tenant in E. case_match.
    + apply bind_Some in E as (t2 & Ha & E). simplify_eq/=.
      apply record_audit_frame in Ha as (Hc & Hu & _). unfold same_for. rewrite Hc, Hu. simpl.
      by rewrite !lookup_delete_ne.
    + simplify_eq/=. split; simpl; by rewrite lookup_delete_ne.
  - simplify_eq. split; [done|]. simpl. by rewrite lookup_alter_ne.
  - apply fmap_Some in E as ([r t1] & E & ->). unfold check_quota_hardened in E.
    destruct (negb (global_enabled t)); [by simplify_eq|].
    destruct (configs t !! i) as [c|]; [|by simplify_eq].
    destruct (check_usage ck c _) as [res u].
    apply bind_Some in E as (t2 & Ha & E). simplify_eq/=.
    apply record_audit_frame in Ha as (Hc & Hu & _). unfold same_for. rewrite Hc, Hu. simpl.
    by rewrite lookup_insert_ne.
Qed.
Lemma tenant_step_enabled o t t' : tenant_step o t = Some t' → enabled_ok t → enabled_ok t'.
Proof.
  unfold enabled_ok. intros E Ht.
  destruct o as [ck wall c|wall i|now i b|now i p|now i|ck i|now i|now i|ck wall i]; simpl in *;
    try by simplify_eq.
  - apply fmap_Some in E as ([r t1] & E & ->). unfold register_tenant in E.
    destruct (TenantIdSlug (tenant_id c)); [|by simplify_eq].
    apply bind_Some in E as (t2 & Ha & E). simplify_eq/=.
    apply record_audit_frame in Ha as (_ & _ & Hg & _). rewrite Hg.
    by destruct (max_requests_per_sec c).
  - apply fmap_Some in E as ([r t1] & E & ->). unfold remove_tenant in E.
    assert (∀ m : gmap string TenantConfig, delete i m ≠ ∅ → m ≠ ∅) as Hd.
    { intros m H ->. by rewrite delete_empty in H. }
    case_match.
    + apply bind_Some in E as (t2 & Ha & E). simplify_eq/=.
      apply record_audit_frame in Ha as (Hc & _ & Hg & _). rewrite Hc, Hg. simpl. eauto.
    + simplify_eq/=. eauto.
  - apply fmap_Some in E as ([r t1] & E & ->). unfold check_quota_hardened in E.
    destruct (negb (global_enabled t)); [by simplify_eq|].
    destruct (configs t !! i) as [c|]; [|by simplify_eq].
    destruct (check_usage ck c _) as [res u].
    apply bind_Some in E as (t2 & Ha & E). simplify_eq/=.
    apply record_audit_frame in Ha as (Hc & _ & Hg & _). by rewrite Hc, Hg.
Qed.

Lemma check_same_for ck wall id t t' r1 r2 t1 t2 :
  enabled_ok t → enabled_ok t' → same_for id t t' →
  check_quota_hardened ck wall id t = Some (r1, t1) →
  check_quota_hardened ck wall id t' = Some (r2, t2) → r1 = r2 ∧ same_for id t1 t2.
Proof.
  intros Ht Ht' [Hc Hu] E1 E2. unfold check_quota_hardened in *. rewrite Hc, Hu in E2.
  destruct (configs t !! id) as [c|] eqn:Ec.
  - assert (global_enabled t = true ∧ global_enabled t' = true) as [Hg Hg'].
    { split; [apply Ht|apply Ht']; intros E; [rewrite E in Ec|rewrite E in Hc];
        by rewrite lookup_empty in *. }
    rewrite Hg in E1. rewrite Hg' in E2. simpl in *.
    destruct (check_usage ck c _) as [res u].
    apply bind_Some in E1 as (s1 & Ha1 & E1). apply bind_Some in E2 as (s2 & Ha2 & E2).
    simplify_eq. split; [done|].
    apply record_audit_frame in Ha1 as (Hc1 & Hu1 & _). apply record_audit_frame in Ha2 as (Hc2 & Hu2 & _).
    unfold same_for. rewrite Hc1, Hu1, Hc2, Hu2. simpl. rewrite !lookup_insert_eq. split; [|done].
    congruence.
  - repeat case_match; simplify_eq; (split; [done|]); split; congruence.
Qed.

(** C20. Isolation.  Whatever is done on behalf of other tenants - registering,
    removing, recording, exhausting quotas - the configuration and the usage of a
    tenant stay the same, and so does the answer its next quota check gets, and the
    state that check leaves for it. *)
Theorem tenants_isolated os t t' id :
  enabled_ok t → tenant_run os t = Some t' → Forall (λ o, op_tenant o ≠ id) os →
  same_for id t t' ∧
  ∀ ck wall r1 r2 t1 t2,
    check_quota_hardened ck wall id t = Some (r1, t1) →
    check_quota_hardened ck wall id t' = Some (r2, t2) → r1 = r2 ∧ same_for id t1 t2.
Proof.
  intros Ht E Hos.
  assert (enabled_ok t' ∧ same_for id t t') as [Ht' Hsame].
  { revert t Ht E. induction Hos as [|o os Ho Hos IH]; intros t Ht E; simpl in E; [by simplify_eq|].
    apply bind_Some in E as (t1 & E1 & E).
    destruct (IH t1) as [? [Hc Hu]]; [by eapply tenant_step_enabled|done|].
    apply (tenant_step_frame _ _ _ id) in E1 as [Hc1 Hu1]; [|done].
    split; [done|]. split; congruence. }
  split; [done|]. intros ck wall r1 r2 t1 t2. by apply check_same_for.
Qed.

(** ** Buckets never hold more than their capacity. *)
Definition bucket_ok (b : TokenBucket) : Prop :=
  f64_is_nan (max_tokens b) = false ∧ f64_le (tokens b) (max_tokens b) = true.
Lemma bucket_for_ok r now : bucket_ok (bucket_for r now).
Proof.
  split; [apply f64_of_Z_not_nan|]. apply f64_le_refl, f64_of_Z_not_nan.
Qed.
Lemma refill_ok now b : f64_is_nan (max_tokens b) = false → bucket_ok (refill now b).
Proof. intros H. split; [done|]. simpl. by apply f64_min_le_r. Qed.
Lemma reset_bucket_ok now b : f64_is_nan (max_tokens b) = false → bucket_ok (reset_bucket now b).
Proof.
  intros H. split; [done|]. by apply f64_le_refl.
Qed.
(** A refused request leaves a bucket within its capacity. *)
Lemma try_consume_refused now b :
  f64_is_nan (max_tokens b) = false → (try_consume now b).1 = false → bucket_ok (try_consume now b).2.
Proof.
  intros H. unfold try_consume. case_match; [done|]. intros _. by apply refill_ok.
Qed.
End tenant.

(** ** Runs *)
Section tenant_runs.
#[local] Instance demo_order : HashOrder := canonical_order.
#[local] Instance demo_rfc3339_i : Rfc3339 := demo_rfc3339.
Definition any_slug (s : string) : bool := negb (bool_decide (s = "")).

Definition demo_tenant (id : string) (rps : Z) : TenantConfig :=
  mkTenant id (Some 1000) None (Some rps) ["backup"] no_quota 60.
Definition demo_isolator : TenantIsolator :=
  match from_config any_slug (λ _, 0) [demo_tenant "acme" 2; demo_tenant "bulk" 1] with
  | Ok t => t
  | Err _ => new_isolator
  end.
Definition answers (n : nat) (id : string) (t : TenantIsolator) : list TenantQuotaResult :=
  (fix go n t :=
     match n with
     | O => []
     | S n => match check_quota_hardened (λ _, 1000) 0 id t with
              | Some (r, t) => r :: go n t
              | None => []
              end
     end) n t.
Example demo_burst : answers 4 "acme" demo_isolator = [Allowed; Allowed; RateLimited; RateLimited].
Proof. vm_compute. done. Qed.
Example demo_unknown : answers 2 "nobody" demo_isolator = [Allowed; Allowed].
Proof. vm_compute. done. Qed.

Lemma quota_decision_witness :
  ∃ t', check_quota_hardened (λ _, 1000) 0 "acme" (record_memory 0 "acme" 2000 demo_isolator)
        = Some (MemoryExceeded, t') ∧
    quota_table (λ _, 1000) (demo_tenant "acme" 2)
      (default (default_usage 0) (usage (record_memory 0 "acme" 2000 demo_isolator) !! "acme"))
    = MemoryExceeded.
Proof.
  destruct (check_quota_hardened (λ _, 1000) 0 "acme" (record_memory 0 "acme" 2000 demo_isolator))
    as [[res t']|] eqn:E; [|exfalso; revert E; vm_compute; congruence].
  destruct (quota_decision (λ _, 1000) 0 "acme" (demo_tenant "acme" 2)
    (record_memory 0 "acme" 2000 demo_isolator) res t' eq_refl eq_refl E)
    as [Hr _].
  exists t'. split; [|vm_compute; done]. rewrite Hr. f_equal.
Defined.
Lemma tenants_isolated_witness :
  ∃ t', tenant_run any_slug [OpMemory 0 "bulk" 9999; OpCheck (λ _, 1000) 0 "bulk"; OpRemove 0 "bulk"]
          demo_isolator = Some t' ∧ same_for "acme" demo_isolator t'.
Proof.
  destruct (tenant_run any_slug [OpMemory 0 "bulk" 9999; OpCheck (λ _, 1000) 0 "bulk"; OpRemove 0 "bulk"]
    demo_isolator) as [t'|] eqn:E; [|exfalso; revert E; vm_compute; congruence].
  exists t'. split; [done|].
  refine (proj1 (tenants_isolated any_slug _ demo_isolator t' "acme" _ E _)).
  - intros _. reflexivity.
  - repeat constructor; simpl; congruence.
Defined.
End tenant_runs.
