(* ===== verification/TenantWire.v ===== *)
(** * Writing and reading the usage of a tenant ([shim-core/src/tenant.rs])

    The hand-written [Serialize] and [Deserialize] of [TenantUsage], between the record and
    the fields that a format writes and reads; the text of a format is foreign. *)

From S2P Require Import Prelude Tenant.

(** A value of a field; reading an integer refuses a float *)
Inductive field_value := FU64 (z : Z) | FF64 (x : f64) | FNone.
Definition as_u64_field (v : field_value) : result string Z :=
  match v with FU64 z => Ok z | _ => Err "expected u64" end.
Definition as_f64_field (v : field_value) : result string f64 :=
  match v with FF64 x => Ok x | FU64 z => Ok (f64_of_Z z) | FNone => Err "expected f64" end.
Abbreviation fields := (list (string * field_value)).

(** [Serialize] *)
Definition serialize_usage (u : TenantUsage) : fields :=
  [("memory_bytes", FU64 (memory_bytes u)); ("cpu_percent", FF64 (cpu_percent u)); ("requests_count", FU64 (requests_count u));
   ("token_bucket_available", from_option (λ b, FF64 (tokens b)) FNone (token_bucket u)); ("rejected_count", FU64 (rejected_count u))].
(** [visit_map]: what the three variables hold, a field at a time; an unknown field is
    skipped, and a field that comes twice is taken the second time. *)
Record partial := mkPartial { p_memory : option Z; p_cpu : option f64; p_requests : option Z }.
#[export] Instance partial_settable : Settable partial := λ p, mkPartial (p_memory p) (p_cpu p) (p_requests p).
Definition visit_field (p : partial) (kv : string * field_value) : result string partial :=
  if bool_decide (kv.1 = "memory_bytes") then x <-? as_u64_field kv.2 ; Ok (p <| p_memory := Some x |>)
  else if bool_decide (kv.1 = "cpu_percent") then x <-? as_f64_field kv.2 ; Ok (p <| p_cpu := Some x |>)
  else if bool_decide (kv.1 = "requests_count") then x <-? as_u64_field kv.2 ; Ok (p <| p_requests := Some x |>)
  else Ok p.
Fixpoint visit_map (l : fields) (p : partial) : result string partial :=
  match l with [] => Ok p | kv :: l => p <-? visit_field p kv ; visit_map l p end.
Definition deserialize_usage (now : Z) (l : fields) : result string TenantUsage :=
  p <-? visit_map l (mkPartial None None None) ;
  Ok (mkUsage (default 0 (p_memory p)) (default (f64_of_Z 0) (p_cpu p)) (default 0 (p_requests p)) now None new_cpu_time 0).

(** What a usage is after it was written and read at [now] *)
Definition restored (now : Z) (u : TenantUsage) : TenantUsage :=
  mkUsage (memory_bytes u) (cpu_percent u) (requests_count u) now None new_cpu_time 0.

(** The fields in another order, and with others between them *)
Definition relevant (k : string) : Prop := k ∈ ["memory_bytes"; "cpu_percent"; "requests_count"].
#[export] Instance relevant_dec k : Decision (relevant k).
Proof. unfold relevant. apply _. Defined.
Lemma visit_irrelevant l : ∀ p, visit_map l p = visit_map (filter (λ kv, relevant kv.1) l) p.
Proof.
  induction l as [|kv l IH]; intros p; [done|]. rewrite filter_cons. simpl. case_decide as Hr.
  - simpl. destruct (visit_field p kv); [apply IH|done].
  - unfold visit_field. unfold relevant in Hr. rewrite !bool_decide_eq_false_2 by (intros E; apply Hr; rewrite E; set_solver). apply IH.
Qed.
Lemma visit_swap a b l p : a.1 ≠ b.1 → is_ok (visit_map (a :: b :: l) p) = true →
  visit_map (a :: b :: l) p = visit_map (b :: a :: l) p.
Proof.
  intros Hne. simpl. unfold visit_field.
  repeat case_bool_decide; simplify_eq/=; try congruence;
    repeat match goal with |- context [as_u64_field ?v] => destruct (as_u64_field v); simpl end;
    repeat match goal with |- context [as_f64_field ?v] => destruct (as_f64_field v); simpl end; done.
Qed.
Lemma visit_perm l l' : l ≡ₚ l' → NoDup (l.*1) → ∀ p, is_ok (visit_map l p) = true → visit_map l' p = visit_map l p.
Proof.
  induction 1 as [|kv l l' _ IH|a b l|l1 l2 l3 HP1 IH1 _ IH2]; intros Hd p Hok; [done| | |].
  - simpl in *. apply NoDup_cons in Hd as [_ Hd]. destruct (visit_field p kv); [by apply IH|done].
  - simpl in Hd. apply NoDup_cons in Hd as [Hd _]. symmetry. apply visit_swap; [|done].
    intros E. apply Hd. rewrite E. constructor.
  - assert (visit_map l2 p = visit_map l1 p) as E by (by apply IH1). rewrite <-E. apply IH2; [|by rewrite E].
    by rewrite <-HP1.
Qed.
(** A usage that is written and read, in any order of the fields and among any fields with
    other names, keeps its memory, its processor time and its requests, and loses the rest:
    the bucket, the processor window and the count of rejected requests start again. *)
Theorem usage_roundtrip now u l :
  filter (λ kv, relevant kv.1) l ≡ₚ filter (λ kv, relevant kv.1) (serialize_usage u) →
  deserialize_usage now l = Ok (restored now u).
Proof.
  intros HP. unfold deserialize_usage. rewrite visit_irrelevant.
  rewrite (visit_perm (filter (λ kv, relevant kv.1) (serialize_usage u))); [done|done| |done].
  apply (bool_decide_unpack _). by vm_compute.
Qed.
(** Once restored, a usage is a fixed point, save for the time of its reset. *)
Lemma restored_idem now now' u : restored now' (restored now u) = restored now' u.
Proof. done. Qed.
Lemma usage_roundtrip_witness :
  deserialize_usage 7 (reverse (serialize_usage (default_usage 0))) = Ok (default_usage 7).
Proof.
  assert (filter (λ kv, relevant kv.1) (reverse (serialize_usage (default_usage 0))) ≡ₚ
          filter (λ kv, relevant kv.1) (serialize_usage (default_usage 0))) as HP by (by rewrite reverse_Permutation).
  exact (usage_roundtrip 7 (default_usage 0) _ HP).
Defined.
Example demo_bad_usage : deserialize_usage 0 [("memory_bytes", FF64 (f64_of_Z 1))] = Err "expected u64".
Proof. done. Qed.
