(* ===== verification/Management.v ===== *)
(** * The management API ([management-api/src/{lib,validation,sanitization}.rs])

    Validation and sanitization of request fields and the four handlers.  A string
    is the list of its characters, as code points: the two files count one in
    bytes and the other in characters.  The rate limiter in front of the handlers
    is in [RateLimit.v]. *)

From S2P Require Import Prelude.

(** ** Characters *)

Abbreviation text := (list Z).
(** A [char]: a Unicode scalar value *)
Definition is_char (c : Z) : Prop := 0 ≤ c < 0xD800 ∨ 0xE000 ≤ c < 0x110000.
(** [len_utf8], [str::len], [is_control] (category Cc), [is_ascii_alphanumeric] *)
Definition len_utf8 (c : Z) : Z :=
  if c <? 0x80 then 1 else if c <? 0x800 then 2 else if c <? 0x10000 then 3 else 4.
Definition str_len (s : text) : Z := sum_list_Z len_utf8 s.
Definition is_control (c : Z) : bool := (c <? 0x20) || ((0x7F <=? c) && (c <=? 0x9F)).
Definition is_ascii_alphanumeric (c : Z) : bool :=
  ((48 <=? c) && (c <=? 57)) || ((65 <=? c) && (c <=? 90)) || ((97 <=? c) && (c <=? 122)).
Definition text_of (s : string) : text :=
  (λ c, Z.of_N (N_of_ascii c)) <$> String.list_ascii_of_string s.

(** ** [sanitization.rs] *)

Definition MAX_INPUT_LENGTH : nat := 1024.
Definition keeps (c : Z) : bool := negb (is_control c) || (c =? 10) || (c =? 9).
(** [sanitize_input], [sanitize_string_field] *)
Definition sanitize_input (input : text) : result text text :=
  if bool_decide (0 ∈ input) then Err (text_of "input contains null byte")
  else Ok (take MAX_INPUT_LENGTH (filter (λ c, keeps c = true) input)).
Definition sanitize_string_field (value field_name : text) : result text text :=
  match sanitize_input value with
  | Ok s => Ok s
  | Err msg => Err (field_name ++ text_of ": " ++ msg)
  end.

(** ** [validation.rs] *)

Definition MAX_STRING_LENGTH : Z := 1024.
Definition MAX_PORT : Z := 65535.
Definition is_valid_metric_name (name : text) : bool :=
  if bool_decide (name = []) || (MAX_STRING_LENGTH <? str_len name) then false
  else forallb (λ c, is_ascii_alphanumeric c || (c =? 95) || (c =? 46)) name.
Definition validate_string_field (value field_name : text) (required : bool) : result text unit :=
  if bool_decide (value = []) then
    if required then Err (field_name ++ text_of " must not be empty") else Ok tt
  else if MAX_STRING_LENGTH <? str_len value
  then Err (field_name ++ text_of " exceeds maximum length of 1024")
  else if bool_decide (0 ∈ value) then Err (field_name ++ text_of " contains null byte")
  else Ok tt.
Definition validate_port (port : Z) : result text unit :=
  if (port =? 0) || (MAX_PORT <? port)
  then Err (text_of "port must be between 1 and 65535, got " ++ text_of (pretty port))
  else Ok tt.
Definition validate_metric_name (name : text) : result text unit :=
  if is_valid_metric_name name then Ok tt
  else Err (text_of "invalid metric name: '" ++ name ++ text_of "'").

(** ** Laws of sanitization *)

Lemma str_len_chars s : Z.of_nat (length s) ≤ str_len s.
Proof.
  unfold str_len. induction s as [|c s IH]; simpl; [done|].
  assert (1 ≤ len_utf8 c) by (unfold len_utf8; repeat case_match; lia). lia.
Qed.
Lemma validate_field_ok value name :
  validate_string_field value name false = Ok tt → str_len value ≤ 1024 ∧ 0 ∉ value.
Proof.
  unfold validate_string_field. case_bool_decide as E; [subst; intros _; split; [done|set_solver]|].
  destruct (Z.ltb_spec MAX_STRING_LENGTH (str_len value)) as [Hl|Hl]; [done|].
  case_bool_decide; [done|]. intros _. done.
Qed.

(** Sanitization.  Text without NUL becomes the characters that are no control
    characters (but newline and tab), cut to 1024 of them; sanitizing twice changes
    nothing more; and what a validated field contains is never cut. *)
Theorem sanitize_spec s out :
  sanitize_input s = Ok out →
  Forall (λ c, keeps c = true) out ∧ (length out ≤ 1024)%nat ∧
  out `prefix_of` filter (λ c, keeps c = true) s ∧
  sanitize_input out = Ok out ∧
  (∀ name, validate_string_field s name false = Ok tt → out = filter (λ c, keeps c = true) s).
Proof.
  unfold sanitize_input. case_bool_decide as H0; [done|]. intros. simplify_eq.
  set (f := filter (λ c, keeps c = true) s).
  assert (Forall (λ c, keeps c = true) f) as Hf.
  { apply Forall_forall. intros c Hc%list_elem_of_filter. tauto. }
  split_and!.
  - by apply Forall_take.
  - rewrite length_take. unfold MAX_INPUT_LENGTH. lia.
  - rewrite <-(take_drop MAX_INPUT_LENGTH f) at 2. by apply prefix_app_r.
  - rewrite bool_decide_eq_false_2.
    + rewrite filter_all by by apply Forall_take. by rewrite take_take.
    + intros Hin. apply H0. assert (0 ∈ f) as Hf0.
      { rewrite <-(take_drop MAX_INPUT_LENGTH f). apply elem_of_app. by left. }
      by apply list_elem_of_filter in Hf0 as [_ ?].
  - intros name [Hl _]%validate_field_ok. apply take_ge.
    assert (length f ≤ length s)%nat by apply length_filter.
    pose proof (str_len_chars s). unfold MAX_INPUT_LENGTH. lia.
Qed.
Lemma sanitize_error s : sanitize_input s = Err (text_of "input contains null byte") ↔ 0 ∈ s.
Proof. unfold sanitize_input. case_bool_decide; done. Qed.

(** Sanitized text is not always valid: the two files measure differently. *)
Lemma sanitized_not_valid :
  let s := replicate 1024 0xE9 in
  sanitize_input s = Ok s ∧ is_ok (validate_string_field s [] true) = false.
Proof. split; vm_compute; done. Qed.

(** [validate_metric_name] accepts 1 to 1024 letters, digits, underscores, dots. *)
Lemma valid_metric_name_spec name :
  validate_metric_name name = Ok tt ↔
  1 ≤ str_len name ≤ 1024 ∧
  Forall (λ c, is_ascii_alphanumeric c || (c =? 95) || (c =? 46) = true) name.
Proof.
  unfold validate_metric_name, is_valid_metric_name. rewrite Forall_forall.
  case_bool_decide as E; simpl.
  { subst. split; [done|]. intros [[? _] _]. done. }
  destruct (Z.ltb_spec MAX_STRING_LENGTH (str_len name)) as [Hl|Hl]; simpl.
  { split; [done|]. unfold MAX_STRING_LENGTH in Hl. lia. }
  destruct (forallb _ name) eqn:Ef.
  - rewrite forallb_forall in Ef. split; [|done]. intros _. split.
    + unfold MAX_STRING_LENGTH in Hl. split; [|lia].
      pose proof (str_len_chars name). destruct name; [done|]. simpl in *. lia.
    + intros c Hc%list_elem_of_In. by apply Ef.
  - split; [done|]. intros [_ H]. exfalso.
    assert (forallb (λ c, is_ascii_alphanumeric c || (c =? 95) || (c =? 46)) name = true) as Et;
      [|congruence]. apply forallb_forall. intros c Hc%list_elem_of_In. by apply H.
Qed.
Lemma validate_port_spec p : 0 ≤ p → validate_port p = Ok tt ↔ 1 ≤ p ≤ 65535.
Proof.
  intros Hp. unfold validate_port, MAX_PORT.
  destruct (Z.eqb_spec p 0); simpl; [split; [done|lia]|].
  destruct (Z.ltb_spec 65535 p); split; [done|lia|lia|done].
Qed.

(** ** The handlers *)

Record Metric := mkMetric { metric_name : string; value : f64; metric_type : Z }.
Record CapabilityInfo := mkCapability {
  cap_name : string;
  enabled : bool;
  cap_version : string;
  dependencies : list string;
  metadata : gmap string string
}.
Record ShimState := mkState {
  start_time : Z;
  metrics : gmap string Metric;
  capabilities : list CapabilityInfo
}.
(** The requests; the three others have no fields. *)
Inductive Request := GetStatus | GetMetrics | ReloadConfig (config_path : text) | ListCapabilities.
Definition validate (r : Request) : result text unit :=
  match r with
  | ReloadConfig path => validate_string_field path (text_of "config_path") false
  | _ => Ok tt
  end.

(** [extract_peer]; [headers] are the request's metadata and [parse_ip] parses an
    [IpAddr]; [0.0.0.0] is [None]. *)
Definition extract_peer {Ip} (parse_ip : string → option Ip) (headers : gmap string string) : option Ip :=
  headers !! "x-forwarded-for" ≫= λ v, head (split_on ","%char v) ≫= λ p, parse_ip (trim p).

(** [ShimState::new]; [version] is the version of the crate, [COUNTER] and [GAUGE]
    the numbers of the generated enum. *)
Section handlers.
Context `{HO : HashOrder} (version : string) (COUNTER GAUGE HEALTHY : Z).

Definition new_state (now : Z) : ShimState :=
  {| start_time := now;
     metrics :=
       <["shim_uptime_seconds" := mkMetric "shim_uptime_seconds" (f64_of_Z 0) GAUGE]>
       (<["shim_health_status" := mkMetric "shim_health_status" (f64_of_Z 1) GAUGE]>
       (<["shim_events_published_total" :=
            mkMetric "shim_events_published_total" (f64_of_Z 0) COUNTER]> ∅));
     capabilities :=
       [mkCapability "health" true version [] {[ "critical" := "true" ]};
        mkCapability "metrics" true version ["health"] ∅] |}.

Record CapabilityStatus := mkCapStatus {
  st_name : string; st_enabled : bool; st_healthy : bool; st_last_error : string }.
Inductive Response :=
| StatusResponse (health : Z) (ver uptime_seconds : string) (caps : list CapabilityStatus)
| MetricsResponse (ms : list Metric)
| ReloadResponse (success : bool) (message : string) (warnings : list string)
| CapabilitiesResponse (caps : list CapabilityInfo).

(** What [audit.rs] logs: the operation, the peer and the path *)
Inductive AuditLine (Ip : Type) :=
| AuditGetStatus (peer : option Ip)
| AuditReloadConfig (peer : option Ip) (path : text) (success : bool).
Arguments AuditGetStatus {Ip} peer.
Arguments AuditReloadConfig {Ip} peer path success.

Context {Ip : Type} (parse_ip : string → option Ip).

(** [get_status], [get_metrics], [reload_config], [list_capabilities].  The peer is
    taken from a new, empty request. *)
Definition uptime (now : Z) (s : ShimState) : Z := saturating_sub now (start_time s) / 10 ^ 9.
Definition get_status (now : Z) (s : ShimState) : Response * list (AuditLine Ip) :=
  (StatusResponse HEALTHY version (pretty (uptime now s))
     ((λ c, mkCapStatus (cap_name c) (enabled c) true "") <$> capabilities s),
   [AuditGetStatus (extract_peer parse_ip ∅)]).
Definition get_metrics (now : Z) (s : ShimState) : Response :=
  MetricsResponse (hash_values (metrics s) ++
    [mkMetric "shim_uptime_seconds" (f64_of_Z (uptime now s)) GAUGE]).
Definition reload_config (path : text) : result text (Response * list (AuditLine Ip)) :=
  match sanitize_string_field path (text_of "config_path") with
  | Err e => Err e
  | Ok config_path =>
      Ok (ReloadResponse true "Configuration reload triggered successfully"
            (if bool_decide (config_path = [])
             then ["No config path specified, reloading current config"] else []),
          [AuditReloadConfig (extract_peer parse_ip ∅) config_path true])
  end.
Definition handle (headers : gmap string string) (now : Z) (r : Request) (s : ShimState)
    : result text (Response * list (AuditLine Ip)) :=
  match validate r with
  | Err e => Err e
  | Ok _ =>
      match r with
      | GetStatus => Ok (get_status now s)
      | GetMetrics => Ok (get_metrics now s, [])
      | ReloadConfig path => reload_config path
      | ListCapabilities => Ok (CapabilitiesResponse (capabilities s), [])
      end
  end.

(** *** The handlers *)

(** What the management API answers does not depend on its state: a valid request
    succeeds, the health is always reported as healthy and a reload as triggered; and
    the audit lines never name the peer, whatever the request's headers say. *)
Theorem handlers_constant headers now r s :
  (validate r = Ok tt → is_ok (handle headers now r s) = true) ∧
  (∀ x lines, handle headers now r s = Ok (x, lines) →
     Forall (λ l, match l with AuditGetStatus p | AuditReloadConfig p _ _ => p = None end) lines ∧
     match x with
     | StatusResponse h _ _ caps => h = HEALTHY ∧ Forall (λ c, st_healthy c = true) caps
     | ReloadResponse ok _ _ => ok = true
     | _ => True
     end).
Proof.
  split.
  - intros Hv. unfold handle. rewrite Hv. destruct r; try done.
    unfold reload_config, sanitize_string_field, sanitize_input.
    apply validate_field_ok in Hv as [_ Hn]. by rewrite bool_decide_eq_false_2.
  - intros x lines. unfold handle. destruct (validate r); [|done]. destruct r; intros E; simplify_eq.
    + split; [by repeat constructor|]. split; [done|]. apply Forall_fmap. by apply Forall_true.
    + done.
    + unfold reload_config in E. destruct (sanitize_string_field _ _); [|done]. simplify_eq.
      split; [by repeat constructor|done].
    + done.
Qed.

(** The uptime is reported twice: as it was stored, which is 0, and as it is. *)
Lemma uptime_twice now0 now :
  ∃ ms, get_metrics now (new_state now0) = MetricsResponse ms ∧
    mkMetric "shim_uptime_seconds" (f64_of_Z 0) GAUGE ∈ ms ∧
    mkMetric "shim_uptime_seconds" (f64_of_Z (uptime now (new_state now0))) GAUGE ∈ ms.
Proof.
  eexists. split; [done|]. rewrite !elem_of_app. split; [left|right; by left].
  unfold hash_values. rewrite list_elem_of_fmap.
  exists ("shim_uptime_seconds", mkMetric "shim_uptime_seconds" (f64_of_Z 0) GAUGE).
  split; [done|]. apply elem_of_hash_iter. by simpl; rewrite lookup_insert_eq.
Qed.
End handlers.

(** ** Runs *)
Lemma sanitize_spec_witness :
  let s := text_of "path" ++ [1; 10] in
  sanitize_input s = Ok (text_of "path" ++ [10]) ∧
  sanitize_input (text_of "path" ++ [10]) = Ok (text_of "path" ++ [10]).
Proof.
  intros s. assert (sanitize_input s = Ok (text_of "path" ++ [10])) as E by reflexivity.
  split; [exact E|]. apply (sanitize_spec s _ E).
Defined.
