(* ===== verification/Archival.v ===== *)
(** * Archival ([archival-shim/src/lib.rs])

    Archiving batches, retention, the storage tiers and their lifecycle.  The file
    system's answers are arguments; blob storage ([blobkit]) is not modelled beyond
    the keys. *)

From S2P Require Import Prelude Text.

(** [StorageTier] and its [Display] *)
Inductive StorageTier := Hot | Warm | Cold.
#[export] Instance StorageTier_eq_dec : EqDecision StorageTier.
Proof. solve_decision. Defined.
Definition tier_display (t : StorageTier) : string :=
  match t with Hot => "hot" | Warm => "warm" | Cold => "cold" end.

Record ArchivedRecord := mkArchived {
  id : string;
  table : string;
  original_size_bytes : Z;
  archived_size_bytes : Z;
  rec_path : string;
  archived_at : string;
  storage_tier : StorageTier;
  retention_until : string;
  compressed : bool
}.
#[export] Instance ArchivedRecord_settable : Settable ArchivedRecord := λ r,
  mkArchived (id r) (table r) (original_size_bytes r) (archived_size_bytes r) (rec_path r)
    (archived_at r) (storage_tier r) (retention_until r) (compressed r).
Record RetentionRule := mkRule {
  rule_table : string;
  rule_age_days : Z;
  rule_lifecycle_days : Z;
  rule_tier : StorageTier
}.
Record ArchivalSummary := mkSummary {
  tables_archived : gmap string Z;
  total_records : Z;
  total_bytes_saved : Z;
  summary_ratio : f64
}.

(** [ArchivalShim], less its shutdown channel *)
Record ArchivalShim := mkArchivalShim {
  schedule : string;
  tables : list string;
  age_days : Z;
  storage : string;
  bucket : string;
  compression : string;
  lifecycle_days : Z;
  hot_days : Z;
  warm_days : Z;
  cold_days : Z;
  retention_days : Z;
  archive_path : string;
  compression_ratio : f64;
  records_archived : Z;
  bytes_archived : Z;
  bytes_saved : Z;
  last_archival : option Z;
  retention_rules : gmap string RetentionRule;
  archive_log : list ArchivedRecord;
  record_counter : Z;
  s3_region : string;
  s3_endpoint : option string;
  s3_prefix : string;
  s3_force_path_style : bool;
  s3_server_side_encryption : bool
}.
#[export] Instance ArchivalShim_settable : Settable ArchivalShim := λ s,
  mkArchivalShim (schedule s) (tables s) (age_days s) (storage s) (bucket s) (compression s)
    (lifecycle_days s) (hot_days s) (warm_days s) (cold_days s) (retention_days s) (archive_path s)
    (compression_ratio s) (records_archived s) (bytes_archived s) (bytes_saved s)
    (last_archival s) (retention_rules s) (archive_log s) (record_counter s) (s3_region s)
    (s3_endpoint s) (s3_prefix s) (s3_force_path_style s) (s3_server_side_encryption s).

(** [ArchivalShim::new] *)
Definition env_flag (env : environment) (k : string) (d : bool) : bool :=
  match env !! k with
  | Some v => bool_decide (v = "true") || bool_decide (v = "1")
  | None => d
  end.
Definition ratio_of (compression : string) : f64 :=
  if bool_decide (compression = "gzip") then f64_div (f64_of_Z 3) (f64_of_Z 10)
  else if bool_decide (compression = "zstd") then f64_div (f64_of_Z 1) (f64_of_Z 4)
  else f64_of_Z 1.
Definition new_archival (env : environment) : ArchivalShim :=
  let compression := env_or env "ARCHIVAL_COMPRESSION" "zstd" in
  {| schedule := env_or env "ARCHIVAL_SCHEDULE" "0 3 * * *";
     tables := trim <$> filter (λ t, t ≠ "") (split_on ","%char (env_or env "ARCHIVAL_TABLES" ""));
     age_days := env_parse env "ARCHIVAL_AGE_DAYS" parse_u32 90;
     storage := env_or env "ARCHIVAL_STORAGE" "s3";
     bucket := env_or env "ARCHIVAL_BUCKET" "";
     compression := compression;
     lifecycle_days := env_parse env "ARCHIVAL_LIFECYCLE_DAYS" parse_u32 0;
     hot_days := env_parse env "ARCHIVAL_HOT_DAYS" parse_u32 0;
     warm_days := env_parse env "ARCHIVAL_WARM_DAYS" parse_u32 0;
     cold_days := env_parse env "ARCHIVAL_COLD_DAYS" parse_u32 0;
     retention_days := env_parse env "ARCHIVAL_RETENTION_DAYS" parse_u32 365;
     archive_path := env_or env "ARCHIVAL_ARCHIVE_PATH" "/var/lib/archival";
     compression_ratio := ratio_of compression;
     records_archived := 0;
     bytes_archived := 0;
     bytes_saved := 0;
     last_archival := None;
     retention_rules := ∅;
     archive_log := [];
     record_counter := 0;
     s3_region := env_or env "ARCHIVAL_S3_REGION" "us-east-1";
     s3_endpoint := env !! "ARCHIVAL_S3_ENDPOINT";
     s3_prefix := env_or env "ARCHIVAL_S3_PREFIX" "archives";
     s3_force_path_style := env_flag env "ARCHIVAL_S3_FORCE_PATH_STYLE" false;
     s3_server_side_encryption := env_flag env "ARCHIVAL_S3_SSE" true |}.

(** [add_retention_rule] *)
Definition add_retention_rule (r : RetentionRule) (s : ArchivalShim) : ArchivalShim :=
  s <| retention_rules ::= <[rule_table r := r]> |>.

Section archival.
Context `{RF : Rfc3339} `{CH : Chrono}.

(** The answers of the file system: an error of [create_dir_all], whether the
    source exists, and the result of the copy *)
Record BatchIo := mkIo {
  io_mkdir : option string;
  io_exists : bool;
  io_copy : result string Z
}.

Definition record_path (s : ArchivalShim) (tbl : string) : string :=
  archive_path s +:+ "/" +:+ tbl +:+ "/archive-" +:+ pretty (record_counter s) +:+ ".dat".
(** The record and the bookkeeping both branches end with; the counter is already
    increased.  [t1], [t2], [t3] are the readings of the clock, [None] a date out of
    range. *)
Definition archive_record (t1 t2 t3 : Z) (tbl : string) (count size : Z) (s : ArchivalShim)
    : option (ArchivedRecord * ArchivalShim) :=
  let archived_size := f64_to_u64 (f64_mul (f64_of_Z size) (compression_ratio s)) in
  let saved := saturating_sub size archived_size in
  let rule := retention_rules s !! tbl in
  let days := default (retention_days s) (rule_age_days <$> rule) in
  until ← plus_seconds t2 (days * 86400);
  let r := {| id := "arc-" +:+ pad_zeros 10 (record_counter s);
              table := tbl;
              original_size_bytes := size;
              archived_size_bytes := archived_size;
              rec_path := record_path s tbl;
              archived_at := to_rfc3339 t1;
              storage_tier := default Cold (rule_tier <$> rule);
              retention_until := to_rfc3339 until;
              compressed := negb (bool_decide (compression s = "none")) |} in
  Some (r, s <| records_archived ::= λ n, add64 n count |>
             <| bytes_archived ::= λ n, add64 n archived_size |>
             <| bytes_saved ::= λ n, add64 n saved |>
             <| last_archival := Some t3 |>
             <| archive_log ::= λ l, l ++ [r] |>).

(** [archive_batch]; [None] is a panic. *)
Definition archive_batch (io : BatchIo) (t1 t2 t3 : Z) (tbl : string) (count size : Z)
    (source : option string) (s : ArchivalShim)
    : option (option ArchivedRecord * ArchivalShim) :=
  match io_mkdir io with
  | Some _ => Some (None, s)
  | None =>
      let bump := s <| record_counter ::= λ n, add64 n 1 |> in
      match source with
      | Some _ =>
          if io_exists io then
            match io_copy io with
            | Ok copied =>
                '(r, s) ← archive_record t1 t2 t3 tbl count copied bump;
                Some (Some r, s)
            | Err _ => Some (None, bump)
            end
          else Some (None, s)
      | None =>
          '(r, s) ← archive_record t1 t2 t3 tbl count size bump;
          Some (Some r, s)
      end
  end.

(** [is_retention_expired], [purge_expired]; the clock is read for each record. *)
Definition is_retention_expired (now : Z) (r : ArchivedRecord) : bool :=
  match parse_from_rfc3339 (retention_until r) with
  | Some until => until <? now
  | None => false
  end.
Fixpoint purge_log (ck : nat → Z) (i : nat) (l : list ArchivedRecord) : list ArchivedRecord :=
  match l with
  | [] => []
  | r :: rest =>
      let keep := match parse_from_rfc3339 (retention_until r) with
                  | Some until => ck i <=? until
                  | None => true
                  end in
      if keep then r :: purge_log ck (S i) rest else purge_log ck (S i) rest
  end.
Definition purge_expired (ck : nat → Z) (s : ArchivalShim) : Z * ArchivalShim :=
  let l := purge_log ck 0 (archive_log s) in
  (saturating_sub (Z.of_nat (length (archive_log s))) (Z.of_nat (length l)),
   s <| archive_log := l |>).

(** [apply_lifecycle], for one record: the new tier, if it moves.  [num_days() as
    u32] truncates towards zero and wraps. *)
Definition age_in_days (now at_ : Z) : Z := wrap 32 (Z.quot (now - at_) (86400 * 10 ^ 9)).
Definition next_tier (s : ArchivalShim) (age : Z) : option StorageTier :=
  if (0 <? hot_days s) && (hot_days s <=? age) then Some Cold
  else if (0 <? warm_days s) && (warm_days s <=? age) then Some Warm
  else if (hot_days s =? 0) && (warm_days s =? 0) && (0 <? lifecycle_days s) then
    if lifecycle_days s <=? age then Some Cold
    else if lifecycle_days s / 2 <=? age then Some Warm
    else None
  else None.
Definition transition (s : ArchivalShim) (now : Z) (r : ArchivedRecord) : option StorageTier :=
  if bool_decide (storage_tier r = Hot) then
    match parse_from_rfc3339 (archived_at r) with
    | Some at_ => next_tier s (age_in_days now at_)
    | None => None
    end
  else None.
Fixpoint lifecycle_log (s : ArchivalShim) (ck : nat → Z) (i : nat) (l : list ArchivedRecord)
    : Z * list ArchivedRecord :=
  match l with
  | [] => (0, [])
  | r :: rest =>
      let '(n, rest) := lifecycle_log s ck (S i) rest in
      match transition s (ck i) r with
      | Some t => (n + 1, r <| storage_tier := t |> :: rest)
      | None => (n, r :: rest)
      end
  end.
Definition apply_lifecycle (ck : nat → Z) (s : ArchivalShim) : Z * ArchivalShim :=
  let '(n, l) := lifecycle_log s ck 0 (archive_log s) in (n, s <| archive_log := l |>).

(** [summary], [metrics] *)
Definition count_tables (l : list ArchivedRecord) : gmap string Z :=
  foldl (λ m r, <[table r := add64 (default 0 (m !! table r)) 1]> m) ∅ l.
Definition summary (s : ArchivalShim) : ArchivalSummary :=
  {| tables_archived := count_tables (archive_log s);
     total_records := Z.of_nat (length (archive_log s));
     total_bytes_saved := bytes_saved s;
     summary_ratio :=
       if 0 <? bytes_archived s
       then f64_div (f64_of_Z (bytes_archived s))
              (f64_of_Z (add64 (bytes_archived s) (bytes_saved s)))
       else f64_of_Z 1 |}.
Definition archival_metrics (s : ArchivalShim) : list (string * f64) :=
  [("archival_records_total", f64_of_Z (records_archived s));
   ("archival_bytes_total", f64_of_Z (bytes_archived s));
   ("archival_bytes_saved", f64_of_Z (bytes_saved s));
   ("archival_archive_count", f64_of_Z (Z.of_nat (length (archive_log s))))].

(** The keys of blob storage and the URI of an upload *)
Definition s3_key (s : ArchivalShim) (tbl record_id : string) : string :=
  s3_prefix s +:+ "/" +:+ tbl +:+ "/" +:+ record_id +:+ ".dat".
Definition s3_uri (s : ArchivalShim) (tbl record_id : string) : string :=
  "s3://" +:+ bucket s +:+ "/" +:+ s3_key s tbl record_id.

(** ** Identity of records *)


Inductive ArchivalOp :=
| OpRule (r : RetentionRule)
| OpArchive (io : BatchIo) (t1 t2 t3 : Z) (tbl : string) (count size : Z) (source : option string)
| OpPurge (ck : nat → Z)
| OpLifecycle (ck : nat → Z).
Definition archival_step (o : ArchivalOp) (s : ArchivalShim) : option ArchivalShim :=
  match o with
  | OpRule r => Some (add_retention_rule r s)
  | OpArchive io t1 t2 t3 tbl count size source =>
      snd <$> archive_batch io t1 t2 t3 tbl count size source s
  | OpPurge ck => Some (purge_expired ck s).2
  | OpLifecycle ck => Some (apply_lifecycle ck s).2
  end.
Fixpoint archival_run (os : list ArchivalOp) (s : ArchivalShim) : option ArchivalShim :=
  match os with [] => Some s | o :: os => archival_step o s ≫= archival_run os end.

(** The ids of the log are distinct, and each was given out by the counter. *)
Record log_ok (s : ArchivalShim) : Prop := {
  lo_nodup : NoDup (id <$> archive_log s);
  lo_numbered : ∀ r, r ∈ archive_log s →
    ∃ k, 1 ≤ k ≤ record_counter s ∧ id r = "arc-" +:+ pad_zeros 10 k
}.

Lemma purge_sublist ck i l : purge_log ck i l `sublist_of` l.
Proof.
  revert i. induction l as [|r l IH]; intros i; simpl; [done|].
  case_match; [by apply sublist_skip|by apply sublist_cons].
Qed.
Lemma lifecycle_ids s ck i l : id <$> (lifecycle_log s ck i l).2 = id <$> l.
Proof.
  revert i. induction l as [|r l IH]; intros i; [done|]. simpl.
  specialize (IH (S i)). destruct (lifecycle_log s ck (S i) l) as [n l']. simpl in IH.
  destruct (transition s (ck i) r); csimpl; by f_equal.
Qed.
Lemma log_ok_fmap s l :
  id <$> l = id <$> archive_log s → log_ok s → log_ok (s <| archive_log := l |>).
Proof.
  intros E [Hnd Hnum]. split; simpl; [by rewrite E|].
  intros r Hr. assert (id r ∈ id <$> archive_log s) as (r' & -> & Hr')%list_elem_of_fmap.
  { rewrite <-E. apply list_elem_of_fmap. eauto. }
  by apply Hnum.
Qed.

Lemma archive_record_spec t1 t2 t3 tbl count size s r s' :
  archive_record t1 t2 t3 tbl count size s = Some (r, s') →
  archive_log s' = archive_log s ++ [r] ∧ record_counter s' = record_counter s ∧
  id r = "arc-" +:+ pad_zeros 10 (record_counter s).
Proof.
  unfold archive_record. intros (until & Hu & E)%bind_Some. by simplify_eq.
Qed.
Lemma log_ok_record t1 t2 t3 tbl count size s r s' :
  let bump := s <| record_counter ::= λ n, add64 n 1 |> in
  0 ≤ record_counter s < 2 ^ 64 - 1 → log_ok s →
  archive_record t1 t2 t3 tbl count size bump = Some (r, s') →
  log_ok s' ∧ record_counter s' = record_counter s + 1.
Proof.
  intros bump Hb [Hnd Hnum] E. apply archive_record_spec in E as (El & Ec & Ei).
  assert (record_counter bump = record_counter s + 1) as Hbump by (simpl; apply add64_small; unfold in_u; lia).
  rewrite Hbump in Ec, Ei. change (archive_log bump) with (archive_log s) in El.
  split; [|done]. split; rewrite El.
  - rewrite fmap_app. apply NoDup_app. split_and!; [done| |apply NoDup_singleton].
    intros x (r' & -> & Hr')%list_elem_of_fmap Hx. csimpl in Hx. apply list_elem_of_singleton in Hx.
    destruct (Hnum r' Hr') as (k & Hk & Ek). rewrite Ek, Ei in Hx.
    apply str_app_inj_l, pad_zeros_inj in Hx; lia.
  - intros r' [Hr'|Hr']%elem_of_app.
    + destruct (Hnum r' Hr') as (k & Hk & Ek). exists k. split; [lia|done].
    + apply list_elem_of_singleton in Hr' as ->. exists (record_counter s + 1). split; [lia|done].
Qed.

Lemma log_ok_step o s s' :
  0 ≤ record_counter s < 2 ^ 64 - 1 → log_ok s → archival_step o s = Some s' →
  log_ok s' ∧ record_counter s ≤ record_counter s' ≤ record_counter s + 1.
Proof.
  intros Hb Hs E.
  assert (log_ok (s <| record_counter ::= λ n, add64 n 1 |>) ∧
    record_counter (s <| record_counter ::= λ n, add64 n 1 |>) = record_counter s + 1) as [Hbump Hc].
  { assert (add64 (record_counter s) 1 = record_counter s + 1) as Ea
      by (apply add64_small; unfold in_u; lia).
    split; [|exact Ea]. destruct Hs as [Hnd Hnum]. split; simpl; [done|].
    intros r Hr. destruct (Hnum r Hr) as (k & Hk & Ek). exists k. rewrite Ea. split; [lia|done]. }
  destruct o as [r|io t1 t2 t3 tbl count size source|ck|ck]; simpl in E.
  - simplify_eq. destruct Hs. split; [by split|]. simpl. lia.
  - apply fmap_Some in E as ([r s1] & E & ->). unfold archive_batch in E.
    destruct (io_mkdir io); [simplify_eq; split; [done|simpl; lia]|].
    destruct source.
    + destruct (io_exists io); [|simplify_eq; split; [done|simpl; lia]].
      destruct (io_copy io); [|simplify_eq; split; [done|simpl in *; lia]].
      apply bind_Some in E as ([r1 s2] & E & E2). simplify_eq.
      apply log_ok_record in E as [? Ec]; [|done..]. simpl in *. split; [done|]. lia.
    + apply bind_Some in E as ([r1 s2] & E & E2). simplify_eq.
      apply log_ok_record in E as [? Ec]; [|done..]. simpl in *. split; [done|]. lia.
  - simplify_eq. split; [|simpl; lia]. destruct Hs as [Hnd Hnum].
    pose proof (purge_sublist ck 0 (archive_log s)) as Hsub. split; simpl.
    + eapply sublist_NoDup; [exact Hnd|]. by apply fmap_sublist.
    + intros r Hr. apply Hnum. by eapply elem_of_sublist.
  - simplify_eq. unfold apply_lifecycle. pose proof (lifecycle_ids s ck 0 (archive_log s)) as E.
    destruct (lifecycle_log s ck 0 (archive_log s)) as [n l]. simpl in E |- *.
    split; [by apply log_ok_fmap|]. lia.
Qed.

(** C36. Whatever is archived, purged and moved between tiers, no two records of the
    log ever share an id, although failed copies consume numbers too.  The number in an id
    is a 64-bit counter, so this is for fewer than 2^64 - 1 operations. *)
Theorem archive_ids_unique env os s :
  Z.of_nat (length os) < 2 ^ 64 - 1 → archival_run os (new_archival env) = Some s →
  NoDup (id <$> archive_log s).
Proof.
  assert (∀ os s0 s, log_ok s0 → 0 ≤ record_counter s0 →
    record_counter s0 + Z.of_nat (length os) < 2 ^ 64 - 1 →
    archival_run os s0 = Some s → log_ok s) as H.
  { clear. induction os as [|o os IH]; intros s0 s Hs H0 Hb E; simpl in E; [by simplify_eq|].
    apply bind_Some in E as (s1 & E1 & E). simpl in Hb.
    destruct (log_ok_step o s0 s1) as [Hs1 Hc1]; [lia|done|done|].
    apply (IH s1); [done|lia|lia|done]. }
  intros Hlen E.
  assert (record_counter (new_archival env) = 0 ∧ archive_log (new_archival env) = []) as [Hc Hl] by done.
  refine (lo_nodup s (H os (new_archival env) s _ _ _ E)); rewrite ?Hc; [|lia|lia].
  split; rewrite Hl; [constructor|]. intros r Hr. by apply elem_of_nil in Hr.
Qed.

(** ** Retention *)

(** Purging removes exactly the records whose retention is over when their turn
    comes, keeps the order, and reports how many went. *)
Lemma purge_expired_spec ck s :
  (∀ i, ck i = ck 0%nat) →
  let s' := (purge_expired ck s).2 in
  archive_log s' = filter (λ r, is_retention_expired (ck 0%nat) r = false) (archive_log s) ∧
  (purge_expired ck s).1
    = Z.of_nat (length (filter (λ r, is_retention_expired (ck 0%nat) r = true) (archive_log s))).
Proof.
  intros Hck. assert (∀ i l, purge_log ck i l
    = filter (λ r, is_retention_expired (ck 0%nat) r = false) l) as H.
  { intros i l. revert i. induction l as [|r l IH]; intros i; [done|]. simpl.
    rewrite filter_cons, IH, Hck. unfold is_retention_expired.
    destruct (parse_from_rfc3339 (retention_until r)) as [u|]; [|done].
    rewrite Z.ltb_antisym. by destruct (ck 0%nat <=? u). }
  simpl. rewrite H. split; [done|]. unfold saturating_sub.
  induction (archive_log s) as [|r l IH]; [done|]. rewrite !filter_cons.
  pose proof (length_filter (λ r, is_retention_expired (ck 0%nat) r = false) l).
  destruct (is_retention_expired (ck 0%nat) r); repeat case_decide; try done; simpl in *; lia.
Qed.

(** ** Tiers *)

Definition colder (a b : StorageTier) : Prop :=
  match a, b with
  | Hot, _ | Warm, (Warm | Cold) | Cold, Cold => True
  | _, _ => False
  end.

(** One pass moves a record only to a colder tier, and only if it was hot. *)
Lemma lifecycle_lookup s ck i l :
  Forall2 (λ r r', table r' = table r ∧ colder (storage_tier r) (storage_tier r') ∧
                   (storage_tier r ≠ Hot → r' = r)) l (lifecycle_log s ck i l).2.
Proof.
  revert i. induction l as [|r l IH]; intros i; [constructor|]. simpl.
  specialize (IH (S i)). destruct (lifecycle_log s ck (S i) l) as [n l']. simpl in IH.
  destruct (transition s (ck i) r) as [t|] eqn:E; constructor; try done; simpl.
  - unfold transition in E. case_bool_decide as Hh; [|done]. rewrite Hh. by destruct t.
  - by destruct (storage_tier r).
Qed.

(** The lifecycle is not a ladder.  With both thresholds set, a record older than
    [hot_days] goes from hot to cold directly; the warm tier is reached only when
    [warm_days] is the smaller threshold; and a record that is warm (or was archived
    warm or cold) never moves again.  [cold_days] has no effect. *)
Theorem lifecycle_tiers s now r :
  0 < hot_days s → 0 < warm_days s →
  (transition s now r = Some Cold ↔
     storage_tier r = Hot ∧ ∃ at_, parse_from_rfc3339 (archived_at r) = Some at_ ∧
       hot_days s ≤ age_in_days now at_) ∧
  (transition s now r = Some Warm ↔
     storage_tier r = Hot ∧ ∃ at_, parse_from_rfc3339 (archived_at r) = Some at_ ∧
       warm_days s ≤ age_in_days now at_ < hot_days s) ∧
  transition s now r ≠ Some Hot ∧
  (storage_tier r ≠ Hot → transition s now r = None).
Proof.
  intros Hh Hw. unfold transition, next_tier.
  rewrite !(proj2 (Z.ltb_lt 0 _)) by done. rewrite (proj2 (Z.eqb_neq (hot_days s) 0)) by lia. simpl.
  case_bool_decide as Ht; [|split_and!; try done; (split; [done|by intros [? _]])].
  destruct (parse_from_rfc3339 (archived_at r)) as [a|] eqn:Ea;
    [|split_and!; try done; (split; [done|by intros [_ (? & ? & _)]])].
  destruct (Z.leb_spec (hot_days s) (age_in_days now a)) as [Hl|Hl],
    (Z.leb_spec (warm_days s) (age_in_days now a)) as [Hl'|Hl'];
    split_and!; try done; split; try done; try (intros [_ (? & ? & ?)]; simplify_eq; lia); eauto with lia.
Qed.
End archival.

(** ** Runs *)
Section archival_runs.
#[local] Instance demo_rfc3339_i : Rfc3339 := decimal_rfc3339.
#[local] Instance demo_chrono_i : Chrono := demo_chrono.
Definition demo_env : environment :=
  {[ "ARCHIVAL_HOT_DAYS" := "7"; "ARCHIVAL_WARM_DAYS" := "30" ]}.
Definition demo_archival : ArchivalShim := new_archival demo_env.
Definition demo_io : BatchIo := mkIo None true (Ok 1000).
Definition day : Z := 86400 * 10 ^ 9.
Definition demo_ops : list ArchivalOp :=
  [OpRule (mkRule "logs" 30 0 Hot); OpArchive demo_io 0 0 0 "logs" 5 0 (Some "/tmp/a");
   OpArchive (mkIo None true (Err "disk full")) 0 0 0 "logs" 5 0 (Some "/tmp/b");
   OpArchive demo_io 0 0 0 "users" 1 400 None].
Example demo_tiers :
  (λ s, ((λ r, (id r, archived_size_bytes r, storage_tier r)) <$> archive_log s,
         storage_tier <$> archive_log (apply_lifecycle (λ _, 40 * day) s).2,
         (purge_expired (λ _, 40 * day) s).1)) <$> archival_run demo_ops demo_archival
  = Some ([("arc-0000000001", 250, Hot); ("arc-0000000003", 100, Cold)], [Cold; Cold], 1).
Proof. vm_compute. done. Qed.

Lemma archive_ids_unique_witness :
  ∃ s, archival_run demo_ops demo_archival = Some s ∧ NoDup (id <$> archive_log s).
Proof.
  destruct (archival_run demo_ops demo_archival) as [s|] eqn:E; [|exfalso; revert E; vm_compute; congruence].
  exists s. split; [done|]. apply (archive_ids_unique demo_env demo_ops s); [simpl; lia|exact E].
Defined.
Definition demo_hot : ArchivedRecord := mkArchived "a" "t" 1 1 "p" (to_rfc3339 0) Hot "" true.
Lemma lifecycle_tiers_witness : transition demo_archival (40 * day) demo_hot = Some Cold.
Proof.
  apply (lifecycle_tiers demo_archival (40 * day) demo_hot); [vm_compute; done|vm_compute; done|].
  split; [done|]. exists 0. split; [vm_compute; done|]. vm_compute. congruence.
Defined.
End archival_runs.
