(* ===== verification/ArchivalStore.v ===== *)
(** * The blob store of the archival ([archival-shim/src/lib.rs])

    [build_s3_store] and the three calls on it.  The store is foreign: its checks of bucket
    names, keys and endpoints are arguments, it keeps a map from bucket and key to data, and
    an input of a call says whether it is refused. *)

From S2P Require Import Prelude Text Archival.

(** [CredentialsMode] and [S3Config] *)
Inductive CredentialsMode := DefaultChain | Static (access_key secret_key : string).
Record S3Config := mkS3Config { cfg_bucket : string; cfg_region : string; cfg_path_style : bool; cfg_endpoint : option string; cfg_credentials : CredentialsMode }.
Abbreviation Blobs := (gmap (string * string) string).

Section archival_store.
Context (bucket_error key_error url_error : string → option string) (client_error : S3Config → option string).

Definition bucket_name (s : ArchivalShim) : result string string :=
  match bucket_error (bucket s) with
  | None => Ok (bucket s)
  | Some e => Err ("invalid bucket '" +:+ bucket s +:+ "': " +:+ e)
  end.
Definition object_key (raw : string) : result string string :=
  match key_error raw with None => Ok raw | Some e => Err ("invalid object key '" +:+ raw +:+ "': " +:+ e) end.
Definition s3_credentials (env : environment) : CredentialsMode :=
  match env !! "ARCHIVAL_S3_ACCESS_KEY", env !! "ARCHIVAL_S3_SECRET_KEY" with
  | Some a, Some k => if bool_decide (a = "") || bool_decide (k = "") then DefaultChain else Static a k
  | _, _ => DefaultChain
  end.
Definition build_s3_store (env : environment) (s : ArchivalShim) : result string S3Config :=
  b <-? bucket_name s ;
  e <-? match s3_endpoint s with
        | None => Ok None
        | Some e => match url_error e with
                    | None => Ok (Some e)
                    | Some x => Err ("invalid ARCHIVAL_S3_ENDPOINT '" +:+ e +:+ "': " +:+ x)
                    end
        end ;
  let cfg := mkS3Config b (s3_region s) (s3_force_path_style s) e (s3_credentials env) in
  match client_error cfg with None => Ok cfg | Some x => Err ("failed to build S3 client: " +:+ x) end.
(** What every call does first: the bucket, the key, the store *)
Definition located (env : environment) (s : ArchivalShim) (tbl record_id : string) : result string (string * string) :=
  b <-? bucket_name s ;
  k <-? object_key (s3_key s tbl record_id) ;
  _ <-? build_s3_store env s ;
  Ok (b, k).
Definition place_text (bk : string * string) : string := bk.1 +:+ "/" +:+ bk.2.

Definition upload_to_s3 (env : environment) (refused : option string) (tbl record_id data : string) (s : ArchivalShim) (m : Blobs)
    : result string string * Blobs :=
  match located env s tbl record_id with
  | Err e => (Err e, m)
  | Ok bk =>
      match refused with
      | Some e => (Err ("blob upload failed: " +:+ place_text bk +:+ ": " +:+ e), m)
      | None => (Ok ("s3://" +:+ place_text bk), <[bk := data]> m)
      end
  end.
Definition delete_from_s3 (env : environment) (refused : option string) (tbl record_id : string) (s : ArchivalShim) (m : Blobs)
    : result string () * Blobs :=
  match located env s tbl record_id with
  | Err e => (Err e, m)
  | Ok bk =>
      match refused with
      | Some e => (Err ("blob delete failed: " +:+ place_text bk +:+ ": " +:+ e), m)
      | None => (Ok (), delete bk m)
      end
  end.
Definition missing : string := "object not found".
Definition get_from_s3 (env : environment) (refused : option string) (tbl record_id : string) (s : ArchivalShim) (m : Blobs)
    : result string string :=
  match located env s tbl record_id with
  | Err e => Err e
  | Ok bk =>
      match (match refused with Some e => Err e | None => match m !! bk with Some d => Ok d | None => Err missing end end) with
      | Ok d => Ok d
      | Err e => Err ("S3 get failed: " +:+ place_text bk +:+ ": " +:+ e)
      end
  end.

(** ** Keys *)

(** Tables without a slash in their names do not share keys. *)
Lemma s3_key_inj s t i t' i' : avoids "/" t = true → avoids "/" t' = true → s3_key s t i = s3_key s t' i' → t = t' ∧ i = i'.
Proof.
  unfold s3_key. intros Ht Ht' E. apply str_app_inj_l in E. apply (str_app_inj_l "/") in E.
  change (t +:+ String "/" (i +:+ ".dat") = t' +:+ String "/" (i' +:+ ".dat")) in E.
  apply (f_equal (splitn2 "/")) in E. rewrite !splitn2_app in E by done. injection E as -> E. split; [done|].
  apply (f_equal (strip_suffix ".dat")) in E. rewrite !strip_suffix_app in E. congruence.
Qed.
(** With a slash they may. *)
Example shared_key s : s3_key s "a/b" "c" = s3_key s "a" "b/c".
Proof. done. Qed.

Lemma located_ok env s t i b k : located env s t i = Ok (b, k) → b = bucket s ∧ k = s3_key s t i.
Proof.
  unfold located, bucket_name, object_key. destruct (bucket_error _); [done|]. simpl. destruct (key_error _); [done|]. simpl.
  destruct (build_s3_store env s); [|done]. by intros [= <- <-].
Qed.
(** What is archived in the store is what comes back: after an upload that succeeded the
    record is read back as it was given, until it is deleted; and, in tables whose names
    have no slash, an upload and a delete leave every other record of every table as it
    was. *)
Theorem s3_roundtrip env s t i data m uri m' :
  upload_to_s3 env None t i data s m = (Ok uri, m') →
  get_from_s3 env None t i s m' = Ok data ∧
  (∃ m'', delete_from_s3 env None t i s m' = (Ok (), m'') ∧ is_ok (get_from_s3 env None t i s m'') = false ∧
     ∀ t' i', avoids "/" t = true → avoids "/" t' = true → (t, i) ≠ (t', i') →
       get_from_s3 env None t' i' s m' = get_from_s3 env None t' i' s m ∧
       get_from_s3 env None t' i' s m'' = get_from_s3 env None t' i' s m).
Proof.
  unfold upload_to_s3, get_from_s3, delete_from_s3. destruct (located env s t i) as [[b k]|e] eqn:E; [|done].
  intros [= _ <-]. cbn beta iota. rewrite lookup_insert_eq. split; [done|]. eexists. split; [done|]. rewrite lookup_delete_eq. split; [done|].
  intros t' i' Ht Ht' Hne. destruct (located env s t' i') as [[b' k']|e] eqn:E'; [|done].
  apply located_ok in E as [-> ->]. apply located_ok in E' as [-> ->].
  assert ((bucket s, s3_key s t i) ≠ (bucket s, s3_key s t' i')) as Hk.
  { intros [= Hk]. destruct (s3_key_inj s t i t' i' Ht Ht' Hk). congruence. }
  by rewrite lookup_delete_ne, !lookup_insert_ne.
Qed.
End archival_store.

(** ** Runs *)

#[local] Instance archival_store_rfc3339 : Rfc3339 := decimal_rfc3339.
Definition no_error (_ : string) : option string := None.
Definition demo_s3 : ArchivalShim := new_archival {[ "ARCHIVAL_BUCKET" := "backups"; "ARCHIVAL_S3_ENDPOINT" := "http://minio:9000" ]}.
Example demo_s3_store :
  build_s3_store no_error no_error (λ _, None) {["ARCHIVAL_S3_ACCESS_KEY" := "a"]} demo_s3 =
  Ok (mkS3Config "backups" "us-east-1" false (Some "http://minio:9000") DefaultChain).
Proof. vm_compute. done. Qed.
Lemma s3_roundtrip_witness :
  let '(r, m) := upload_to_s3 no_error no_error no_error (λ _, None) ∅ None "orders" "arc-1" "rows" demo_s3 ∅ in
  is_ok r = true ∧ get_from_s3 no_error no_error no_error (λ _, None) ∅ None "orders" "arc-1" demo_s3 m = Ok "rows".
Proof.
  destruct (upload_to_s3 no_error no_error no_error (λ _, None) ∅ None "orders" "arc-1" "rows" demo_s3 ∅) as [r m] eqn:E.
  assert (is_ok r = true) as Hr by (change r with (fst (r, m)); rewrite <-E; vm_compute; reflexivity).
  split; [exact Hr|]. destruct r as [uri|e]; [|discriminate Hr].
  exact (proj1 (s3_roundtrip no_error no_error no_error (λ _, None) ∅ demo_s3 "orders" "arc-1" "rows" ∅ uri m E)).
Defined.
