(* ===== verification/Compliance.v ===== *)
(** * Compliance checks ([compliance-shim/src/lib.rs])

    The built-in CIS and STIG rules, their verification against a database, the run
    that turns checks into violations, and the report.  Answers of the database are
    arguments. *)

From S2P Require Import Prelude.

(** [Severity], its order, [Display] and [FromStr] *)
Inductive Severity := Info | Low | Medium | High | Critical.
#[export] Instance Severity_eq_dec : EqDecision Severity.
Proof. solve_decision. Defined.
Definition severity_index (s : Severity) : Z :=
  match s with Info => 0 | Low => 1 | Medium => 2 | High => 3 | Critical => 4 end.
Definition severity_ge (a b : Severity) : bool := severity_index b <=? severity_index a.
#[export] Instance Severity_countable : Countable Severity.
Proof.
  refine (inj_countable' severity_index
    (λ z, if z =? 0 then Info else if z =? 1 then Low else if z =? 2 then Medium
          else if z =? 3 then High else Critical) _).
  by intros [].
Defined.
Definition severity_display (s : Severity) : string :=
  match s with
  | Info => "info" | Low => "low" | Medium => "medium" | High => "high" | Critical => "critical"
  end.
Definition severity_from_str (s : string) : result string Severity :=
  let l := to_lowercase s in
  if bool_decide (l = "info") then Ok Info
  else if bool_decide (l = "low") then Ok Low
  else if bool_decide (l = "medium") then Ok Medium
  else if bool_decide (l = "high") then Ok High
  else if bool_decide (l = "critical") then Ok Critical
  else Err ("Unknown severity: " +:+ s).
Lemma severity_roundtrip s : severity_from_str (severity_display s) = Ok s.
Proof. by destruct s. Qed.

Record ComplianceCheck := mkCheck {
  id : string;
  description : string;
  check_benchmark : string;
  severity : Severity;
  passed : bool;
  evidence : string;
  remediation : string
}.
#[export] Instance ComplianceCheck_settable : Settable ComplianceCheck := λ c,
  mkCheck (id c) (description c) (check_benchmark c) (severity c) (passed c) (evidence c)
    (remediation c).
Record Violation := mkViolation {
  check_id : string;
  v_description : string;
  v_severity : Severity;
  detected_at : string;
  v_evidence : string;
  v_remediation : string;
  resolved : bool
}.
#[export] Instance Violation_settable : Settable Violation := λ v,
  mkViolation (check_id v) (v_description v) (v_severity v) (detected_at v) (v_evidence v)
    (v_remediation v) (resolved v).
Record ComplianceReport := mkReport {
  rep_benchmark : string;
  rep_db_type : string;
  generated_at : string;
  rep_total : Z;
  rep_passed : Z;
  rep_failed : Z;
  score : f64;
  rep_violations : list Violation
}.

(** [ComplianceShim], less its shutdown channel *)
Record ComplianceShim := mkCompliance {
  benchmark : string;
  db_type : string;
  report_format : string;
  output : string;
  min_severity : Severity;
  checks_passed : Z;
  checks_failed : Z;
  checks_total : Z;
  compliance_score : f64;
  last_check : option Z;
  violations : list Violation;
  checks : list ComplianceCheck
}.
#[export] Instance ComplianceShim_settable : Settable ComplianceShim := λ s,
  mkCompliance (benchmark s) (db_type s) (report_format s) (output s) (min_severity s)
    (checks_passed s) (checks_failed s) (checks_total s) (compliance_score s) (last_check s)
    (violations s) (checks s).
Definition new_compliance (env : environment) : ComplianceShim :=
  {| benchmark := env_or env "COMPLIANCE_BENCHMARK" "cis";
     db_type := env_or env "COMPLIANCE_DB_TYPE" "postgres";
     report_format := env_or env "COMPLIANCE_REPORT" "json";
     output := env_or env "COMPLIANCE_OUTPUT" "stdout";
     min_severity := env_parse env "COMPLIANCE_SEVERITY"
       (λ s, match severity_from_str s with Ok x => Some x | Err _ => None end) Info;
     checks_passed := 0; checks_failed := 0; checks_total := 0;
     compliance_score := f64_of_Z 0;
     last_check := None;
     violations := [];
     checks := [] |}.

(** ** The rules *)

Definition rule (s : ComplianceShim) (i desc : string) (sev : Severity) (rem : string)
    : ComplianceCheck :=
  mkCheck i desc (benchmark s) sev false "" rem.
Definition postgres_cis_rules (s : ComplianceShim) : list ComplianceCheck :=
  [rule s "CIS-POSTGRES-001" "Superuser access restricted to named admin accounts"
     Critical "Restrict superuser access. Review pg_roles for shared accounts.";
   rule s "CIS-POSTGRES-002" "Password authentication uses SCRAM-SHA-256"
     High "Set password_encryption = 'scram-sha-256' in postgresql.conf.";
   rule s "CIS-POSTGRES-003" "Log connections and disconnections enabled"
     Medium "Set log_connections = on and log_disconnections = on.";
   rule s "CIS-POSTGRES-004" "Failed login attempts are logged"
     Medium "Set log_failed_login_attempts > 0 in postgresql.conf.";
   rule s "CIS-POSTGRES-005" "SSL enabled for client connections"
     High "Set ssl = on in postgresql.conf. Update pg_hba.conf to require hostssl.";
   rule s "CIS-POSTGRES-006" "pg_hba.conf does not use trust authentication"
     Critical "Replace trust entries with scram-sha-256 or cert.";
   rule s "CIS-POSTGRES-007" "Data directory permissions are 0700"
     High "Run: chmod 0700 $(pg_config --pkglibdir)/../data";
   rule s "CIS-POSTGRES-008" "Log line prefix includes user and database"
     Medium "Set log_line_prefix = '%m [%p] %q%u@%d ' in postgresql.conf.";
   rule s "CIS-POSTGRES-009" "Statement timeout configured"
     Medium "Set statement_timeout = 60000 (60s) in postgresql.conf.";
   rule s "CIS-POSTGRES-010" "Idle-in-transaction timeout configured"
     Medium "Set idle_in_transaction_session_timeout = 60000 in postgresql.conf.";
   rule s "CIS-POSTGRES-011" "Max connections is reasonable (< 500)"
     Low "Set max_connections based on available memory. Use PgBouncer for pooling.";
   rule s "CIS-POSTGRES-012" "Shared buffers tuned for workload"
     Low "Set shared_buffers to ~25% of system RAM for dedicated servers."].
Definition mariadb_cis_rules (s : ComplianceShim) : list ComplianceCheck :=
  [rule s "CIS-MYSQL-001" "Anonymous accounts removed"
     Critical "DELETE FROM mysql.user WHERE User=''; FLUSH PRIVILEGES;";
   rule s "CIS-MYSQL-002" "Root login restricted to localhost"
     Critical "DELETE FROM mysql.user WHERE User='root' AND Host NOT IN ('localhost','127.0.0.1','::1');";
   rule s "CIS-MYSQL-003" "SHA-256 password authentication plugin"
     High "Set default_authentication_plugin = 'caching_sha2_password' in my.cnf.";
   rule s "CIS-MYSQL-004" "Local-infile disabled"
     High "Set local_infile = 0 in my.cnf.";
   rule s "CIS-MYSQL-005" "Symbolic-links disabled"
     Medium "Set symbolic-links = 0 in my.cnf.";
   rule s "CIS-MYSQL-006" "SQL mode includes strict settings"
     Medium "Set sql_mode = 'STRICT_TRANS_TABLES,ERROR_FOR_DIVISION_BY_ZERO,NO_ENGINE_SUBSTITUTION'.";
   rule s "CIS-MYSQL-007" "Audit logging enabled"
     Medium "Install and configure the audit_log plugin.";
   rule s "CIS-MYSQL-008" "Max connections is reasonable (< 500)"
     Low "Set max_connections based on available memory."].
Definition redis_stig_rules (s : ComplianceShim) : list ComplianceCheck :=
  [rule s "STIG-REDIS-001" "Redis requires authentication"
     Critical "Set requirepass in redis.conf or use ACLs.";
   rule s "STIG-REDIS-002" "Redis not bound to all interfaces"
     High "Set bind to specific interfaces: bind 127.0.0.1 <internal-ip>";
   rule s "STIG-REDIS-003" "Dangerous commands renamed"
     High "Rename FLUSHALL, FLUSHDB, DEBUG, CONFIG commands.";
   rule s "STIG-REDIS-004" "Protected mode enabled"
     High "Set protected-mode yes in redis.conf.";
   rule s "STIG-REDIS-005" "TLS configured for transit encryption"
     Medium "Configure tls-port, tls-cert-file, tls-key-file in redis.conf.";
   rule s "STIG-REDIS-006" "maxmemory configured"
     Medium "Set maxmemory to a reasonable limit based on available RAM.";
   rule s "STIG-REDIS-007" "maxmemory-policy set"
     Low "Set maxmemory-policy to allkeys-lru or volatile-lru.";
   rule s "STIG-REDIS-008" "Dangerous Lua commands restricted"
     Medium "Set lua-time-limit and restrict eval via ACLs."].
(** [generate_cis_checks] *)
Definition generate_cis_checks (s : ComplianceShim) : list ComplianceCheck :=
  if bool_decide (db_type s = "postgres") then postgres_cis_rules s
  else if bool_decide (db_type s = "mariadb") || bool_decide (db_type s = "mysql")
  then mariadb_cis_rules s
  else if bool_decide (db_type s = "redis") then redis_stig_rules s
  else [].

(** The answers of a database: a scalar of each type, or an error *)
Record Pool := mkPool {
  fetch_i64 : string → result string Z;
  fetch_string : string → result string string
}.
Definition judge {A} (r : result string A) (f : A → bool * string) : result string (bool * string) :=
  match r with Ok a => Ok (f a) | Err e => Err e end.
(** The verdict of one rule; [None] where there is no query. *)
Definition postgres_query (p : Pool) (i : string) : option (result string (bool * string)) :=
  if bool_decide (i = "CIS-POSTGRES-001") then
    Some (judge (fetch_i64 p "SELECT count(*)::int FROM pg_roles WHERE rolsuper = true AND rolname NOT IN ('postgres', 'rds_superuser')")
      (λ count, (count =? 0, pretty count +:+ " non-admin superusers")))
  else if bool_decide (i = "CIS-POSTGRES-002") then
    Some (judge (fetch_string p "SHOW password_encryption")
      (λ enc, (bool_decide (enc = "scram-sha-256"), "password_encryption = " +:+ enc)))
  else if bool_decide (i = "CIS-POSTGRES-003") then
    Some (judge (fetch_string p "SHOW log_connections")
      (λ v, (bool_decide (v = "on"), "log_connections = " +:+ v)))
  else if bool_decide (i = "CIS-POSTGRES-005") then
    Some (judge (fetch_string p "SHOW ssl") (λ v, (bool_decide (v = "on"), "ssl = " +:+ v)))
  else if bool_decide (i = "CIS-POSTGRES-011") then
    Some (judge (fetch_string p "SHOW max_connections")
      (λ v, let n := default 0 (parse_i64 v) in (n <? 500, "max_connections = " +:+ pretty n)))
  else None.
Definition mariadb_query (p : Pool) (i : string) : option (result string (bool * string)) :=
  if bool_decide (i = "CIS-MYSQL-001") then
    Some (judge (fetch_i64 p "SELECT count(*) FROM mysql.user WHERE User = ''")
      (λ c, (c =? 0, pretty c +:+ " anonymous accounts")))
  else if bool_decide (i = "CIS-MYSQL-004") then
    Some (judge (fetch_string p "SHOW VARIABLES LIKE 'local_infile'")
      (λ v, (bool_decide (v = "OFF"), "local_infile = " +:+ v)))
  else None.
(** [check_postgres_rule], [check_mariadb_rule] *)
Definition apply_verdict (r : option (result string (bool * string))) (c : ComplianceCheck)
    : ComplianceCheck :=
  match r with
  | None => c
  | Some (Ok (ok, ev)) => c <| passed := ok |> <| evidence := ev |>
  | Some (Err e) => c <| evidence := "Query failed: " +:+ e |>
  end.
Definition check_postgres_rule (p : Pool) (c : ComplianceCheck) : ComplianceCheck :=
  apply_verdict (postgres_query p (id c)) c.
Definition check_mariadb_rule (p : Pool) (c : ComplianceCheck) : ComplianceCheck :=
  apply_verdict (mariadb_query p (id c)) c.
(** [run_database_checks]; [conn] is the pool, if the connection succeeds. *)
Definition run_database_checks (conn : option Pool) (s : ComplianceShim) : list ComplianceCheck :=
  let cs := generate_cis_checks s in
  match conn with
  | None => cs
  | Some p =>
      if bool_decide (db_type s = "postgres") then check_postgres_rule p <$> cs
      else if bool_decide (db_type s = "mariadb") || bool_decide (db_type s = "mysql")
      then check_mariadb_rule p <$> cs
      else cs
  end.

(** [RuleTOML::into_check] *)
Record RuleTOML := mkToml {
  toml_id : string; toml_description : string; toml_severity : string; toml_remediation : string }.
Definition into_check (r : RuleTOML) : ComplianceCheck :=
  mkCheck (toml_id r) (toml_description r) "custom"
    (match severity_from_str (toml_severity r) with Ok s => s | Err _ => Medium end)
    false "" (toml_remediation r).
(** [load_rules_from_file]; [read] is [read_to_string], [parse] is [toml::from_str]. *)
Definition load_rules_from_file (read : string → result string string)
    (parse : string → result string (list RuleTOML)) (path : string)
    : result string (list ComplianceCheck) :=
  content <-? read path; rules <-? parse content; Ok (into_check <$> rules).

Section compliance.
Context `{RF : Rfc3339}.

Definition add_check (c : ComplianceCheck) (s : ComplianceShim) : ComplianceShim :=
  s <| checks ::= λ l, l ++ [c] |>.

(** [run_checks]; [ck i] is the clock when the [i]-th check is looked at, [now] at
    the end. *)
Definition violation_of (t : Z) (c : ComplianceCheck) : Violation :=
  mkViolation (id c) (description c) (severity c) (to_rfc3339 t) (evidence c) (remediation c) false.
Fixpoint check_loop (ck : nat → Z) (i : nat) (l : list ComplianceCheck) (s : ComplianceShim)
    : ComplianceShim :=
  match l with
  | [] => s
  | c :: rest =>
      let s :=
        if passed c then s <| checks_passed ::= λ n, add64 n 1 |>
        else if severity_ge (severity c) (min_severity s)
        then s <| checks_failed ::= λ n, add64 n 1 |>
               <| violations ::= λ vs, vs ++ [violation_of (ck i) c] |>
        else s in
      check_loop ck (S i) rest s
  end.
Definition score_of (s : ComplianceShim) : f64 :=
  if 0 <? checks_total s
  then f64_mul (f64_div (f64_of_Z (checks_passed s)) (f64_of_Z (checks_total s))) (f64_of_Z 100)
  else f64_of_Z 100.
Definition run_checks (ck : nat → Z) (now : Z) (s : ComplianceShim) : ComplianceShim :=
  let s := s <| checks_total := Z.of_nat (length (checks s)) |> <| checks_passed := 0 |>
             <| checks_failed := 0 |> <| violations := [] |> in
  let s := check_loop ck 0 (checks s) s in
  s <| compliance_score := score_of s |> <| last_check := Some now |>.

(** [violations_by_severity], [resolve_violation], [unresolved_count],
    [violation_counts], [meets_threshold], [generate_report] *)
Definition unresolved (s : ComplianceShim) : list Violation :=
  filter (λ v, resolved v = false) (violations s).
Definition violations_by_severity (m : Severity) (s : ComplianceShim) : list Violation :=
  filter (λ v, severity_ge (v_severity v) m && negb (resolved v) = true) (violations s).
Fixpoint resolve_first (i : string) (l : list Violation) : bool * list Violation :=
  match l with
  | [] => (false, [])
  | v :: rest =>
      if bool_decide (check_id v = i) then (true, v <| resolved := true |> :: rest)
      else let '(b, rest) := resolve_first i rest in (b, v :: rest)
  end.
Definition resolve_violation (i : string) (s : ComplianceShim) : bool * ComplianceShim :=
  let '(b, l) := resolve_first i (violations s) in (b, s <| violations := l |>).
Definition unresolved_count (s : ComplianceShim) : Z := Z.of_nat (length (unresolved s)).
Definition violation_counts (s : ComplianceShim) : gmap Severity Z :=
  foldl (λ m v, <[v_severity v := default 0 (m !! v_severity v) + 1]> m) ∅ (unresolved s).
Definition meets_threshold (t : f64) (s : ComplianceShim) : bool := f64_ge (compliance_score s) t.
Definition generate_report (now : Z) (s : ComplianceShim) : ComplianceReport :=
  {| rep_benchmark := benchmark s;
     rep_db_type := db_type s;
     generated_at := to_rfc3339 now;
     rep_total := Z.of_nat (length (checks s));
     rep_passed := Z.of_nat (length (filter (λ c, passed c = true) (checks s)));
     rep_failed := Z.of_nat (length (unresolved s));
     score := compliance_score s;
     rep_violations := unresolved s |}.
Definition compliance_metrics (s : ComplianceShim) : list (string * f64) :=
  [("compliance_checks_passed", f64_of_Z (checks_passed s));
   ("compliance_checks_failed", f64_of_Z (checks_failed s));
   ("compliance_score", compliance_score s);
   ("compliance_violations_total", f64_of_Z (unresolved_count s))].

(** ** A run *)

(** A failing check is reported if it is severe enough. *)
Definition reported (m : Severity) (c : ComplianceCheck) : bool :=
  negb (passed c) && severity_ge (severity c) m.
Definition count (f : ComplianceCheck → bool) (l : list ComplianceCheck) : Z :=
  Z.of_nat (length (filter (λ c, f c = true) l)).

Lemma count_cons f c l : count f (c :: l) = (if f c then 1 else 0) + count f l.
Proof. unfold count. rewrite filter_cons. destruct (f c); case_decide; simpl; lia || done. Qed.
Lemma count_le f l : 0 ≤ count f l ≤ Z.of_nat (length l).
Proof. unfold count. pose proof (length_filter (λ c, f c = true) l). lia. Qed.
Lemma count_partition m l :
  count passed l + count (reported m) l + count (λ c, negb (passed c) && negb (severity_ge (severity c) m)) l
  = Z.of_nat (length l).
Proof.
  induction l as [|c l IH]; [done|]. rewrite !count_cons. unfold reported at 1.
  destruct (passed c), (severity_ge (severity c) m); simpl; lia.
Qed.

Lemma check_loop_spec ck i l s :
  0 ≤ checks_passed s → checks_passed s + Z.of_nat (length l) < 2 ^ 64 →
  0 ≤ checks_failed s → checks_failed s + Z.of_nat (length l) < 2 ^ 64 →
  let s' := check_loop ck i l s in
  checks_passed s' = checks_passed s + count passed l ∧
  checks_failed s' = checks_failed s + count (reported (min_severity s)) l ∧
  (∃ vs, violations s' = violations s ++ vs ∧ Forall (λ v, resolved v = false) vs ∧
     check_id <$> vs = id <$> filter (λ c, reported (min_severity s) c = true) l) ∧
  checks s' = checks s ∧ checks_total s' = checks_total s ∧ min_severity s' = min_severity s.
Proof.
  revert i s. induction l as [|c l IH]; intros i s Hp Hpb Hf Hfb.
  { unfold count. simpl. split_and!; try lia; try done. exists []. by rewrite app_nil_r. }
  simpl length in *. cbv zeta. cbn [check_loop]. rewrite !count_cons.
  assert (reported (min_severity s) c = negb (passed c) && severity_ge (severity c) (min_severity s))
    as Er by done.
  destruct (passed c) eqn:Epc; simpl in Er; cbv iota.
  - destruct (IH (S i) (s <| checks_passed ::= λ n, add64 n 1 |>)) as (E1 & E2 & E3 & E4);
      [simpl; u_small; lia..|].
    rewrite E1, E2, Er, filter_cons_False by congruence. simpl.
    split_and!; [u_small; lia|lia|exact E3|apply E4..].
  - destruct (severity_ge (severity c) (min_severity s)) eqn:Esv; cbv iota.
    + destruct (IH (S i) (s <| checks_failed ::= λ n, add64 n 1 |>
        <| violations ::= λ vs, vs ++ [violation_of (ck i) c] |>)) as (E1 & E2 & (vs & E3 & Hr & Hi) & E4);
        [simpl; u_small; lia..|].
      rewrite E1, E2, Er, filter_cons_True by done.
      split_and!; [simpl; lia|simpl; u_small; lia| |apply E4..].
      exists (violation_of (ck i) c :: vs). rewrite E3. simpl. rewrite <-app_assoc.
      split_and!; [done|by constructor|]. f_equal; exact Hi.
    + destruct (IH (S i) s) as (E1 & E2 & E3 & E4); [lia..|].
      rewrite E1, E2, Er, filter_cons_False by congruence. split_and!; [lia|lia|exact E3|apply E4..].
Qed.

(** A run of the checks accounts for every check: it counts those that passed and
    those that failed at or above the minimum severity, records one unresolved
    violation for each of the latter, in order, and the rest - failed, but below the
    minimum - is in neither count, only in the total the score divides by.  What had
    been resolved before is forgotten. *)
Theorem run_checks_accounts ck now s :
  Z.of_nat (length (checks s)) < 2 ^ 64 →
  let s' := run_checks ck now s in
  checks_total s' = Z.of_nat (length (checks s)) ∧
  checks_passed s' = count passed (checks s) ∧
  checks_failed s' = count (reported (min_severity s)) (checks s) ∧
  check_id <$> violations s' = id <$> filter (λ c, reported (min_severity s) c = true) (checks s) ∧
  unresolved_count s' = checks_failed s' ∧
  checks_passed s' + checks_failed s'
    + count (λ c, negb (passed c) && negb (severity_ge (severity c) (min_severity s))) (checks s)
    = checks_total s'.
Proof.
  intros Hlen. unfold run_checks. cbv zeta.
  set (s0 := s <| checks_total := Z.of_nat (length (checks s)) |> <| checks_passed := 0 |>
               <| checks_failed := 0 |> <| violations := [] |>).
  destruct (check_loop_spec ck 0 (checks s) s0) as (Ep & Ef & (vs & Ev & Hr & Hi) & _ & Et & _);
    [simpl; lia..|].
  change (checks s0) with (checks s). set (s1 := check_loop ck 0 (checks s) s0) in *.
  simpl in Ep, Ef, Ev, Hi, Et.
  unfold unresolved_count, unresolved. simpl. rewrite Et, Ep, Ef, Ev, !Z.add_0_l.
  assert (filter (λ v, resolved v = false) vs = vs) as ->.
  { clear -Hr. induction Hr as [|v vs Hv Hr IH]; [done|]. rewrite filter_cons_True by done. by f_equal. }
  split_and!; [done..| |apply count_partition].
  apply (f_equal length) in Hi. rewrite !length_fmap in Hi. unfold count. by rewrite Hi.
Qed.

(** Resolving settles one violation, the first with this id, and reports whether
    there was one. *)
Lemma resolve_violation_spec i s :
  (resolve_violation i s).1 = bool_decide (i ∈ check_id <$> violations s) ∧
  check_id <$> violations (resolve_violation i s).2 = check_id <$> violations s.
Proof.
  unfold resolve_violation.
  assert (∀ l, (resolve_first i l).1 = bool_decide (i ∈ check_id <$> l) ∧
    check_id <$> (resolve_first i l).2 = check_id <$> l) as H.
  { induction l as [|v l [IH1 IH2]]; [done|]. simpl.
    destruct (decide (check_id v = i)) as [E|E].
    - rewrite (bool_decide_eq_true_2 (check_id v = i)) by done. split; [|done].
      rewrite bool_decide_eq_true_2; [done|]. rewrite <-E. constructor.
    - rewrite (bool_decide_eq_false_2 (check_id v = i)) by done.
      destruct (resolve_first i l) as [b l']. csimpl in *. rewrite IH2. split; [|done]. rewrite IH1.
      apply bool_decide_ext. rewrite elem_of_cons. split; [by right|]. intros [?|?]; [by subst|done]. }
  specialize (H (violations s)). destruct (resolve_first i (violations s)). exact H.
Qed.
End compliance.

(** ** What is verified *)

(** The rules with a query *)
Definition queried : list string :=
  ["CIS-POSTGRES-001"; "CIS-POSTGRES-002"; "CIS-POSTGRES-003"; "CIS-POSTGRES-005";
   "CIS-POSTGRES-011"; "CIS-MYSQL-001"; "CIS-MYSQL-004"].
Definition rule_ids (db : string) : list string :=
  id <$> generate_cis_checks (new_compliance {[ "COMPLIANCE_DB_TYPE" := db ]}).
Definition verifiable (ids : list string) : Z := Z.of_nat (length (filter (λ i, i ∈ queried) ids)).

Ltac rule_cases :=
  intros Hs; apply dec_stable; unfold queried; rewrite !not_elem_of_cons; intros Hne; destruct_and! Hne;
  rewrite !bool_decide_eq_false_2 in Hs by assumption; by destruct Hs.
Lemma postgres_query_listed p i : is_Some (postgres_query p i) → i ∈ queried.
Proof. unfold postgres_query. rule_cases. Qed.
Lemma mariadb_query_listed p i : is_Some (mariadb_query p i) → i ∈ queried.
Proof. unfold mariadb_query. rule_cases. Qed.
Lemma apply_verdict_spec q c :
  id (apply_verdict q c) = id c ∧ (passed (apply_verdict q c) = true → passed c = true ∨ is_Some q).
Proof. destruct q as [[[? ?]|?]|]; simpl; eauto. Qed.

Lemma generate_cis_checks_ids s : id <$> generate_cis_checks s = rule_ids (db_type s).
Proof.
  unfold rule_ids, generate_cis_checks. simpl.
  change (db_type (new_compliance {["COMPLIANCE_DB_TYPE" := db_type s]})) with
    (env_or {["COMPLIANCE_DB_TYPE" := db_type s]} "COMPLIANCE_DB_TYPE" "postgres").
  unfold env_or. rewrite lookup_singleton_eq. simpl.
  by repeat case_bool_decide.
Qed.
Lemma generate_cis_checks_failed s : Forall (λ c, passed c = false) (generate_cis_checks s).
Proof.
  unfold generate_cis_checks. do 2 (case_bool_decide; [repeat constructor|]). simpl.
  do 2 (case_bool_decide; [repeat constructor|]). constructor.
Qed.

(** Verification keeps the rules and passes only what it can query. *)
Lemma verdicts_spec (q : string → option (result string (bool * string))) cs :
  (∀ i, is_Some (q i) → i ∈ queried) → Forall (λ c, passed c = false) cs →
  let cs' := (λ c, apply_verdict (q (id c)) c) <$> cs in
  id <$> cs' = id <$> cs ∧ Forall (λ c, passed c = true → id c ∈ queried) cs'.
Proof.
  intros Hq Hcs. split.
  - rewrite <-list_fmap_compose. apply list_fmap_ext. intros i c _. apply apply_verdict_spec.
  - apply Forall_fmap. eapply Forall_impl; [exact Hcs|]. simpl. intros c Hc Hp.
    destruct (apply_verdict_spec (q (id c)) c) as [-> H]. apply H in Hp as [Hp|Hp]; [congruence|].
    by apply Hq.
Qed.
Lemma count_passed_le cs :
  Forall (λ c, passed c = true → id c ∈ queried) cs → count passed cs ≤ verifiable (id <$> cs).
Proof.
  unfold verifiable. induction 1 as [|c cs Hc Hcs IH]; [done|]. rewrite count_cons, fmap_cons, filter_cons.
  destruct (passed c); case_decide; simpl length in *; [lia|exfalso; by auto|lia|lia].
Qed.

(** Few rules are ever verified.  Whatever the database answers, the checks that
    come back are the rules of its type, in their order, and a rule can pass only if
    it is one of the seven with a query: at most 5 of the 12 PostgreSQL rules, 2 of
    the 8 MySQL rules and none of the 8 Redis rules are ever reported as passed. *)
Theorem few_rules_verified conn s :
  let cs := run_database_checks conn s in
  id <$> cs = rule_ids (db_type s) ∧
  Forall (λ c, passed c = true → id c ∈ queried) cs ∧
  count passed cs ≤ verifiable (rule_ids (db_type s)) ∧
  (λ db, (length (rule_ids db), verifiable (rule_ids db))) <$> ["postgres"; "mariadb"; "mysql"; "redis"]
    = [(12%nat, 5); (8%nat, 2); (8%nat, 2); (8%nat, 0)].
Proof.
  intros cs.
  enough (id <$> cs = id <$> generate_cis_checks s ∧ Forall (λ c, passed c = true → id c ∈ queried) cs)
    as [Hid Hf].
  { rewrite <-generate_cis_checks_ids, <-Hid. split_and!; [done|done|by apply count_passed_le|].
    vm_compute. done. }
  pose proof (generate_cis_checks_failed s) as Hfail.
  assert (Forall (λ c, passed c = true → id c ∈ queried) (generate_cis_checks s)) as Hnone.
  { eapply Forall_impl; [exact Hfail|]. simpl. congruence. }
  subst cs. unfold run_database_checks. destruct conn as [p|]; [|done].
  case_bool_decide; [apply (verdicts_spec (postgres_query p)); [apply postgres_query_listed|done]|].
  destruct (bool_decide _ || bool_decide _); [|done].
  apply (verdicts_spec (mariadb_query p)); [apply mariadb_query_listed|done].
Qed.

(** ** Runs *)
Section compliance_runs.
#[local] Instance demo_rfc3339_i : Rfc3339 := demo_rfc3339.
Definition demo_pool : Pool :=
  mkPool (λ _, Ok 0) (λ q, if bool_decide (q = "SHOW ssl") then Ok "on" else Err "denied").
Definition demo_compliance : ComplianceShim :=
  let s := new_compliance {[ "COMPLIANCE_SEVERITY" := "high" ]} in
  s <| checks := run_database_checks (Some demo_pool) s |>.
Example demo_checks :
  let s := run_checks (λ _, 0) 0 demo_compliance in
  (checks_total s, checks_passed s, checks_failed s) = (12, 2, 3) ∧
  check_id <$> violations s = ["CIS-POSTGRES-002"; "CIS-POSTGRES-006"; "CIS-POSTGRES-007"].
Proof. vm_compute. done. Qed.
Lemma run_checks_accounts_witness :
  unresolved_count (run_checks (λ _, 0) 0 demo_compliance)
  = checks_failed (run_checks (λ _, 0) 0 demo_compliance).
Proof. apply (run_checks_accounts (λ _, 0) 0 demo_compliance). vm_compute. done. Defined.
End compliance_runs.
