(* ===== verification/Replication.v ===== *)
(** * Replication ([replication-shim/src/lib.rs])

    The table of replicas of [ReplicationShim], promotion, the queries, and the
    health-check loop.  The loop captures the addresses when [start] spawns it and
    shares [SharedState] with the shim; connections and the output of [psql] are
    inputs of a tick. *)

From S2P Require Import Prelude Floats Config Events.

(** [ReplicationState] *)
Inductive ReplicationState := Healthy | Degraded | Broken.
#[export] Instance ReplicationState_eq_dec : EqDecision ReplicationState.
Proof. solve_decision. Defined.
Definition replication_state_display (s : ReplicationState) : string :=
  match s with Healthy => "healthy" | Degraded => "degraded" | Broken => "broken" end.

Record ReplicaStatus := mkReplica {
  addr : string;
  rstate : ReplicationState;
  lag_bytes : Z;
  lag_seconds : f64;
  last_heartbeat : string;
  connected : bool
}.
#[export] Instance ReplicaStatus_settable : Settable ReplicaStatus := λ r,
  mkReplica (addr r) (rstate r) (lag_bytes r) (lag_seconds r) (last_heartbeat r) (connected r).
Record WalPosition := mkWal {
  lsn : string;
  segment : Z;
  offset : Z;
  wal_timestamp : string
}.
Record FailoverResult := mkResult {
  old_primary : string;
  new_primary : string;
  promoted_at : string;
  success : bool;
  error : option string
}.
Record SharedState := mkShared {
  state : ReplicationState;
  replica_lag_bytes : Z;
  max_lag_seconds : f64;
  replicas_healthy : Z;
  replicas_broken : Z;
  failovers_total : Z
}.
#[export] Instance SharedState_settable : Settable SharedState := λ s,
  mkShared (state s) (replica_lag_bytes s) (max_lag_seconds s) (replicas_healthy s)
    (replicas_broken s) (failovers_total s).
Definition new_shared : SharedState := mkShared Healthy 0 (f64_of_Z 0) 0 0 0.

(** [ReplicationShim], less the shutdown channel; [bus] is whether there is one. *)
Record ReplicationShim := mkReplication {
  primary : string;
  replicas : list string;
  mode : string;
  check_secs : Z;
  db_type : string;
  slot_name : string;
  db_host : string;
  db_port : Z;
  db_user : string;
  db_password : string;
  db_name : string;
  lag_threshold_bytes : Z;
  shared : SharedState;
  replica_status : gmap string ReplicaStatus;
  wal_position : WalPosition;
  bus : bool
}.
#[export] Instance ReplicationShim_settable : Settable ReplicationShim := λ s,
  mkReplication (primary s) (replicas s) (mode s) (check_secs s) (db_type s) (slot_name s)
    (db_host s) (db_port s) (db_user s) (db_password s) (db_name s) (lag_threshold_bytes s)
    (shared s) (replica_status s) (wal_position s) (bus s).

(** The state that the counts of healthy and broken replicas stand for *)
Definition overall (total healthy broken : Z) : ReplicationState :=
  if (total =? 0) || (healthy =? total) then Healthy
  else if (0 <? broken) && (healthy =? 0) then Broken
  else Degraded.
Definition mode_threshold (m : string) : f64 :=
  if bool_decide (m = "synchronous") then f64_of_Z 1 else f64_of_Z 10.

(** [&addr.split(':')], the host and the port [psql] is called with *)
Definition host_port (a : string) : string * string :=
  let parts := split_on ":" a in
  (default "127.0.0.1" (parts !! 0%nat), default "5432" (parts !! 1%nat)).

Section replication.
Context `{EX : External} `{RF : Rfc3339} `{HO : HashOrder}.
Implicit Types (s : ReplicationShim) (a : string).

(** [ReplicationShim::new] *)
Definition new_replication (now : Z) (env : environment) : ReplicationShim :=
  {| primary := env_or env "REPLICATION_PRIMARY" "";
     replicas := trim <$> filter (λ x, x ≠ "") (split_on "," (env_or env "REPLICATION_REPLICAS" ""));
     mode := env_or env "REPLICATION_MODE" "asynchronous";
     check_secs := env_parse env "REPLICATION_CHECK_SECS" parse_u64 10;
     db_type := env_or env "REPLICATION_DB_TYPE" "postgres";
     slot_name := env_or env "REPLICATION_SLOT" "evergreen_shim";
     db_host := env_or env "REPLICATION_DB_HOST" "127.0.0.1";
     db_port := env_parse env "REPLICATION_DB_PORT" (parse_unsigned 65535) 5432;
     db_user := env_or env "REPLICATION_DB_USER" "postgres";
     db_password := env_or env "REPLICATION_DB_PASSWORD" "";
     db_name := env_or env "REPLICATION_DB_NAME" "postgres";
     lag_threshold_bytes := env_parse env "REPLICATION_LAG_THRESHOLD_BYTES" parse_u64 1048576;
     shared := new_shared;
     replica_status := ∅;
     wal_position := mkWal "0/0" 0 0 (to_rfc3339 now);
     bus := false |}.

(** ** The table of replicas *)

Definition new_replica (now : Z) a : ReplicaStatus :=
  mkReplica a Healthy 0 (f64_of_Z 0) (to_rfc3339 now) false.
Definition add_replica (now : Z) a s : ReplicationShim :=
  let s := s <| replica_status ::= <[a := new_replica now a]> |> in
  if bool_decide (a ∈ replicas s) then s else s <| replicas ::= λ l, l ++ [a] |>.

(** [update_replica_status], the entry and the table *)
Definition classify (now : Z) (bytes : Z) (secs : f64) (r : ReplicaStatus) : ReplicaStatus :=
  let r := r <| lag_bytes := bytes |> <| lag_seconds := secs |>
             <| last_heartbeat := to_rfc3339 now |> in
  if f64_gt secs (f64_of_Z 30) then r <| rstate := Broken |>
  else if f64_gt secs (f64_of_Z 10) then r <| rstate := Degraded |>
  else r <| rstate := Healthy |> <| connected := true |>.
Definition update_replica_status (now : Z) a (bytes : Z) (secs : f64) s : bool * ReplicationShim :=
  match replica_status s !! a with
  | Some r =>
      let r' := classify now bytes secs r in
      (negb (bool_decide (rstate r' = rstate r)), s <| replica_status ::= <[a := r']> |>)
  | None => (false, s)
  end.
Definition mark_replica_disconnected a s : ReplicationShim :=
  match replica_status s !! a with
  | Some r => s <| replica_status ::= <[a := r <| connected := false |> <| rstate := Broken |> ]> |>
  | None => s
  end.

(** [recalculate_state] *)
Definition count_state (st : ReplicationState) (l : list ReplicaStatus) : Z :=
  Z.of_nat (length (filter (λ r, rstate r = st) l)).
Definition recalculate_state s : ReplicationShim :=
  let l := hash_values (replica_status s) in
  let total := Z.of_nat (size (replica_status s)) in
  let healthy := count_state Healthy l in
  let broken := count_state Broken l in
  s <| shared ::= λ h,
    h <| replicas_healthy := healthy |>
      <| replicas_broken := broken |>
      <| replica_lag_bytes := foldl (λ n r, add64 n (lag_bytes r)) 0 l |>
      <| max_lag_seconds := f64_max_list (lag_seconds <$> l) |>
      <| state := overall total healthy broken |> |>.

Definition set_wal_position (now : Z) (l : string) (seg off : Z) s : ReplicationShim :=
  s <| wal_position := mkWal l seg off (to_rfc3339 now) |>.

(** [promote] *)
Definition promote (now : Z) a s : result string FailoverResult * ReplicationShim :=
  match replica_status s !! a with
  | None => (Err ("Replica " +:+ a +:+ " not found"), s)
  | Some _ =>
      let r := mkResult (primary s) a (to_rfc3339 now) true None in
      let s := s <| replica_status ::= delete a |> <| primary := a |> in
      let s := s <| shared ::= λ h, h <| failovers_total ::= λ n, add64 n 1 |> |> in
      (Ok r, recalculate_state s)
  end.

Definition replica_count s : Z := Z.of_nat (size (replica_status s)).
Definition get_replica a s : option ReplicaStatus := replica_status s !! a.
Definition all_healthy s : bool :=
  forallb (λ r, bool_decide (rstate r = Healthy)) (hash_values (replica_status s)).
Definition lag_threshold s : f64 := mode_threshold (mode s).

(** ** Queries: the answer of [psql] is an error of the spawn, or whether it
    succeeded with what it printed. *)

Record PsqlOutput := mkOutput { ok : bool; stdout : string; stderr : string }.
Definition psql : Type := string → string → result string PsqlOutput.

Definition query_wal_position (now : Z) (run : psql) s : result string WalPosition :=
  out <-? run (db_host s) (pretty (db_port s));
  if ok out then
    let parts := split_on "|" (trim (stdout out)) in
    if (length parts <? 2)%nat then Err ("Unexpected psql output: " +:+ stdout out)
    else Ok (mkWal (default "" (parts !! 0%nat)) (default 0 (parts !! 1%nat ≫= parse_u64)) 0
               (to_rfc3339 now))
  else Err ("psql WAL query failed: " +:+ stderr out).
Definition query_replica_lag (run : psql) a : result string Z :=
  let '(host, port) := host_port a in
  out <-? run host port;
  if ok out then Ok (default 0 (parse_u64 (trim (stdout out)))) else Ok 0.

(** ** Configuration and start *)

Definition init (config : option ReplicationConfig) s : ReplicationShim :=
  match config with
  | Some rc => s <| primary := rc_primary rc |> <| replicas := rc_replicas rc |>
                 <| mode := rc_mode rc |> <| check_secs := rc_check_interval_secs rc |>
                 <| db_type := rc_db_type rc |>
                 <| slot_name ::= λ n, default n (rc_slot_name rc) |>
  | None => s
  end.

(** What the spawned task captures *)
Record Loop := mkLoop {
  loop_primary : string;
  loop_replicas : list string;
  loop_threshold : f64;
  loop_lag_threshold_bytes : Z;
  loop_bus : bool
}.
Fixpoint add_replicas (ck : nat → Z) (i : nat) (l : list string) s : ReplicationShim :=
  match l with
  | [] => s
  | a :: l => add_replicas ck (S i) l (add_replica (ck i) a s)
  end.
Definition start (ck : nat → Z) s : ReplicationShim * Loop :=
  let s := add_replicas ck 0 (replicas s) s in
  (s, {| loop_primary := primary s;
         loop_replicas := hash_keys (replica_status s);
         loop_threshold := mode_threshold (mode s);
         loop_lag_threshold_bytes := lag_threshold_bytes s;
         loop_bus := bus s |}).

(** ** The loop *)

Definition lag_of (run : psql) a : f64 :=
  let '(host, port) := host_port a in
  match run host port with
  | Ok out => if ok out then default (f64_of_Z 0) (parse_f64 (trim (stdout out))) else f64_of_Z 0
  | Err _ => f64_of_Z 0
  end.
Definition approx_bytes (lag : f64) : Z := f64_to_u64 (f64_mul lag (f64_of_Z 1000000)).
Definition to_ms (secs : f64) : Z := f64_to_u64 (f64_mul secs (f64_of_Z 1000)).

Record Counts := mkCounts {
  healthy_count : Z;
  broken_count : Z;
  total_lag : Z;
  max_lag_sec : f64;
  emitted : list (EventType * Severity)
}.
#[local] Instance Counts_settable : Settable Counts := λ c,
  mkCounts (healthy_count c) (broken_count c) (total_lag c) (max_lag_sec c) (emitted c).
Definition emit_if (b : bool) (ev : EventType) (sev : Severity) : list (EventType * Severity) :=
  if b then [(ev, sev)] else [].
Definition check_replica (reach : string → bool) (run : psql) (l : Loop) (c : Counts) a : Counts :=
  if reach a then
    let lag := lag_of run a in
    let bytes := approx_bytes lag in
    let c := c <| healthy_count ::= λ n, add64 n 1 |> <| total_lag ::= λ n, add64 n bytes |>
               <| max_lag_sec ::= λ m, f64_max m lag |> in
    if loop_lag_threshold_bytes l <? bytes then
      c <| emitted ::= λ e, e ++ emit_if (loop_bus l)
             (ReplicationLagWarning (to_ms lag) (to_ms (loop_threshold l))) Warning |>
    else c
  else c <| broken_count ::= λ n, add64 n 1 |>.
Definition tick (reach : string → bool) (run : psql) (l : Loop) (h : SharedState)
    : list (EventType * Severity) * SharedState :=
  if reach (loop_primary l) then
    let c := foldl (check_replica reach run l) (mkCounts 0 0 0 (f64_of_Z 0) []) (loop_replicas l) in
    (emitted c,
     h <| replicas_healthy := healthy_count c |> <| replicas_broken := broken_count c |>
       <| replica_lag_bytes := total_lag c |> <| max_lag_seconds := max_lag_sec c |>
       <| state := overall (Z.of_nat (length (loop_replicas l))) (healthy_count c) (broken_count c) |>)
  else (emit_if (loop_bus l) (ReplicationLagWarning 0 0) Error, h <| state := Broken |>).

Definition replication_metrics s : list (string * f64) :=
  let h := shared s in
  [("replication_state", f64_of_Z (match state h with Healthy => 0 | Degraded => 1 | Broken => 2 end));
   ("replication_replicas_healthy", f64_of_Z (replicas_healthy h));
   ("replication_replicas_broken", f64_of_Z (replicas_broken h));
   ("replication_total_lag_bytes", f64_of_Z (replica_lag_bytes h));
   ("replication_max_lag_seconds", max_lag_seconds h);
   ("replication_failovers_total", f64_of_Z (failovers_total h))].

(** ** Runs: calls on the shim, and ticks of the loop on the state they share *)

Inductive ReplicationOp :=
| OpAdd (now : Z) a
| OpUpdate (now : Z) a (bytes : Z) (secs : f64)
| OpDisconnect a
| OpRecalculate
| OpWal (now : Z) (l : string) (seg off : Z)
| OpPromote (now : Z) a
| OpTick (reach : string → bool) (run : psql).
Definition op_step (l : Loop) (o : ReplicationOp) s : ReplicationShim :=
  match o with
  | OpAdd now a => add_replica now a s
  | OpUpdate now a bytes secs => (update_replica_status now a bytes secs s).2
  | OpDisconnect a => mark_replica_disconnected a s
  | OpRecalculate => recalculate_state s
  | OpWal now p seg off => set_wal_position now p seg off s
  | OpPromote now a => (promote now a s).2
  | OpTick reach run => s <| shared ::= λ h, (tick reach run l h).2 |>
  end.
Definition op_run (l : Loop) (os : list ReplicationOp) s : ReplicationShim := foldl (λ s o, op_step l o s) s os.

#[local] Arguments f64_of_Z : simpl never.
#[local] Arguments f64_max : simpl never.
#[local] Arguments to_ms : simpl never.
#[local] Arguments approx_bytes : simpl never.
#[local] Arguments lag_of : simpl never.

(** ** The table stays classified *)

(** The state of a replica and the lag last reported agree; a replica that is
    broken without lag has been disconnected. *)
Definition classified (r : ReplicaStatus) : Prop :=
  match rstate r with
  | Healthy => f64_gt (lag_seconds r) (f64_of_Z 10) = false
  | Degraded => f64_gt (lag_seconds r) (f64_of_Z 10) = true ∧ f64_gt (lag_seconds r) (f64_of_Z 30) = false
  | Broken => f64_gt (lag_seconds r) (f64_of_Z 30) = true ∨ connected r = false
  end.
Record table_ok (m : gmap string ReplicaStatus) (names : list string) : Prop := {
  table_addr a r : m !! a = Some r → addr r = a;
  table_listed a r : m !! a = Some r → a ∈ names;
  table_classified a r : m !! a = Some r → classified r
}.

Lemma table_ok_insert m names names' a r :
  table_ok m names → addr r = a → a ∈ names' → names ⊆ names' → classified r →
  table_ok (<[a := r]> m) names'.
Proof.
  intros [H1 H2 H3] Ha Hin Hsub Hc.
  split; intros b r' [[<- <-]|[? Hb]]%lookup_insert_Some; try done; eauto.
Qed.
Lemma gt_30_10 x : f64_gt x (f64_of_Z 30) = true → f64_gt x (f64_of_Z 10) = true.
Proof.
  unfold f64_gt. intros H.
  assert (f64_is_nan x = false) as Hx by (by destruct x as [|[]| |[]]).
  fold (f64_lt (f64_of_Z 30) x) in H. fold (f64_lt (f64_of_Z 10) x).
  rewrite f64_lt_le in * by (done || apply f64_of_Z_not_nan).
  apply negb_true_iff in H. apply negb_true_iff. apply not_true_iff_false. intros Hle.
  apply not_true_iff_false in H. apply H.
  eapply f64_le_trans; [exact Hle|]. reflexivity.
Qed.
Lemma classify_classified now bytes secs r : classified (classify now bytes secs r).
Proof.
  unfold classify, classified. generalize (f64_of_Z 30) (f64_of_Z 10). intros t30 t10.
  destruct (f64_gt secs t30) eqn:E; simpl; [by left|]. by destruct (f64_gt secs t10) eqn:E'; simpl.
Qed.
Lemma classify_addr now bytes secs r : addr (classify now bytes secs r) = addr r.
Proof. unfold classify. by repeat case_match. Qed.

Lemma recalculate_table s :
  replica_status (recalculate_state s) = replica_status s ∧ replicas (recalculate_state s) = replicas s ∧
  primary (recalculate_state s) = primary s.
Proof. done. Qed.
Lemma add_replica_ok now a s :
  table_ok (replica_status s) (replicas s) →
  table_ok (replica_status (add_replica now a s)) (replicas (add_replica now a s)).
Proof.
  intros H. unfold add_replica. simpl. case_bool_decide; simpl;
    (eapply table_ok_insert; [exact H|reflexivity|set_solver|set_solver|reflexivity]).
Qed.
Lemma add_replicas_ok ck i l s :
  table_ok (replica_status s) (replicas s) →
  table_ok (replica_status (add_replicas ck i l s)) (replicas (add_replicas ck i l s)).
Proof. revert i s. induction l as [|a l IH]; intros i s H; [done|]. by apply IH, add_replica_ok. Qed.
Lemma op_step_ok l o s :
  table_ok (replica_status s) (replicas s) →
  table_ok (replica_status (op_step l o s)) (replicas (op_step l o s)).
Proof.
  intros H. pose proof H as [H1 H2 H3]. destruct o as [now a|now a b x|a| | |now a|]; simpl; try done.
  - by apply add_replica_ok.
  - unfold update_replica_status. destruct (replica_status s !! a) as [r|] eqn:E; [|done]. simpl.
    eapply table_ok_insert; [exact H|rewrite classify_addr; eauto|eauto|done|apply classify_classified].
  - unfold mark_replica_disconnected. destruct (replica_status s !! a) as [r|] eqn:E; [|done]. simpl.
    eapply table_ok_insert; [exact H|simpl; eauto|eauto|done|by right].
  - unfold promote. destruct (replica_status s !! a) as [r|] eqn:E; [|done]. simpl.
    split; intros b r' [? Hb]%lookup_delete_Some; eauto.
Qed.

Lemma start_ok now env config ck s l :
  start ck (init config (new_replication now env)) = (s, l) → table_ok (replica_status s) (replicas s).
Proof.
  intros [= <- _]. apply add_replicas_ok.
  destruct config; split; intros ? ?; simpl; rewrite lookup_empty; discriminate.
Qed.

(** The table of replicas stays classified.  Whatever calls and ticks follow the
    start, every entry is stored under its own address, which is a configured
    replica; a healthy replica's last lag is not above 10 seconds, a degraded one's is
    above 10 but not above 30, and a broken one either lags more than 30 seconds or
    has been disconnected. *)
Theorem statuses_classified now env config ck os s l :
  start ck (init config (new_replication now env)) = (s, l) →
  table_ok (replica_status (op_run l os s)) (replicas (op_run l os s)).
Proof.
  intros H%start_ok. unfold op_run. revert s H. induction os as [|o os IH]; intros s H; [done|]. by apply IH, op_step_ok.
Qed.

(** ** One tick of the loop *)

Section tick.
Context (reach : string → bool) (run : psql) (l : Loop).

Definition live : list string := filter (λ a, reach a = true) (loop_replicas l).
Definition late a : bool := loop_lag_threshold_bytes l <? approx_bytes (lag_of run a).
Definition warning a : EventType * Severity :=
  (ReplicationLagWarning (to_ms (lag_of run a)) (to_ms (loop_threshold l)), Warning).

Lemma check_replicas_spec rs c :
  0 ≤ healthy_count c → 0 ≤ broken_count c →
  healthy_count c + broken_count c + Z.of_nat (length rs) < 2 ^ 64 →
  let up := filter (λ a, reach a = true) rs in
  let c' := foldl (check_replica reach run l) c rs in
  healthy_count c' = healthy_count c + Z.of_nat (length up) ∧
  broken_count c' = broken_count c + (Z.of_nat (length rs) - Z.of_nat (length up)) ∧
  max_lag_sec c' = foldl f64_max (max_lag_sec c) (lag_of run <$> up) ∧
  emitted c' = emitted c ++ (if loop_bus l then warning <$> filter (λ a, late a = true) up else []).
Proof.
  revert c. induction rs as [|a rs IH]; intros c Hh Hb Hlen; simpl in *.
  { split_and!; [lia|lia|done|]. destruct (loop_bus l); by rewrite app_nil_r. }
  assert (emitted (check_replica reach run l c a) = emitted c
    ++ (if reach a && late a then emit_if (loop_bus l) (warning a).1 Warning else [])) as He.
  { unfold check_replica, late. destruct (reach a); simpl; [|by rewrite app_nil_r].
    destruct (_ <? _); simpl; [done|by rewrite app_nil_r]. }
  rewrite filter_cons. unfold late in *.
  destruct (reach a) eqn:Er.
  - assert (healthy_count (check_replica reach run l c a) = healthy_count c + 1 ∧
      broken_count (check_replica reach run l c a) = broken_count c ∧
      max_lag_sec (check_replica reach run l c a) = f64_max (max_lag_sec c) (lag_of run a)) as (E1 & E2 & E3).
    { unfold check_replica. rewrite Er. destruct (_ <? _); simpl; u_small; done. }
    destruct (IH (check_replica reach run l c a)) as (I1 & I2 & I3 & I4); [lia..|].
    rewrite I1, I2, I3, I4, E1, E2, E3, He. rewrite decide_True by done. simpl.
    split_and!; [lia|lia|done|]. rewrite <-app_assoc. f_equal.
    rewrite filter_cons. unfold emit_if. destruct (_ <? _), (loop_bus l); by rewrite ?decide_True, ?decide_False by done.
  - assert (healthy_count (check_replica reach run l c a) = healthy_count c ∧
      broken_count (check_replica reach run l c a) = broken_count c + 1 ∧
      max_lag_sec (check_replica reach run l c a) = max_lag_sec c) as (E1 & E2 & E3).
    { unfold check_replica. rewrite Er. simpl. u_small. done. }
    destruct (IH (check_replica reach run l c a)) as (I1 & I2 & I3 & I4); [lia..|].
    rewrite I1, I2, I3, I4, E1, E2, E3, He. rewrite decide_False by congruence. simpl.
    split_and!; [lia|lia|done|by rewrite app_nil_r].
Qed.

(** What a tick of the health check does.  With the primary unreachable the state
    is broken and one error event goes out, with no lag in it.  Otherwise the state
    counts which replicas can be reached and nothing else - the lag, however large,
    never degrades it - the lag reported is an upper bound of every reachable replica's,
    and the events are one warning for each reachable replica whose estimated bytes
    exceed the threshold, in order. *)
Theorem tick_outcome h events h' :
  Z.of_nat (length (loop_replicas l)) < 2 ^ 64 →
  tick reach run l h = (events, h') →
  failovers_total h' = failovers_total h ∧
  (reach (loop_primary l) = false →
    state h' = Broken ∧ events = emit_if (loop_bus l) (ReplicationLagWarning 0 0) Error) ∧
  (reach (loop_primary l) = true →
    let up := Z.of_nat (length live) in
    let all := Z.of_nat (length (loop_replicas l)) in
    replicas_healthy h' = up ∧ replicas_broken h' = all - up ∧
    (state h' = Healthy ↔ up = all) ∧ (state h' = Broken ↔ up = 0 ∧ 0 < all) ∧
    (∀ a, a ∈ live → f64_is_nan (lag_of run a) = false →
      f64_le (lag_of run a) (max_lag_seconds h') = true) ∧
    events = if loop_bus l then warning <$> filter (λ a, late a = true) live else []).
Proof.
  intros Hlen. unfold tick. destruct (reach (loop_primary l)) eqn:Ep; intros [= <- <-]; [|done].
  destruct (check_replicas_spec (loop_replicas l) (mkCounts 0 0 0 (f64_of_Z 0) []))
    as (E1 & E2 & E3 & E4); [simpl; lia..|].
  fold live in *. simpl in E1, E2, E4. change (max_lag_sec (mkCounts 0 0 0 (f64_of_Z 0) [])) with (f64_of_Z 0) in E3.
  set (c := foldl _ _ _) in *. split; [done|]. split; [done|]. intros _. simpl.
  assert (length live ≤ length (loop_replicas l))%nat by apply length_filter.
  rewrite E1, E2, E3, E4, !Z.add_0_l. unfold overall.
  split_and!; [done..| | |intros a Ha Hn|done].
  - destruct (Z.eqb_spec (Z.of_nat (length (loop_replicas l))) 0); simpl; [split; [lia|done]|].
    destruct (Z.eqb_spec (Z.of_nat (length live)) (Z.of_nat (length (loop_replicas l)))); simpl; [by split|].
    destruct (_ && _); split; intros; try discriminate; exfalso; lia.
  - destruct (Z.eqb_spec (Z.of_nat (length (loop_replicas l))) 0); simpl; [split; [done|lia]|].
    destruct (Z.eqb_spec (Z.of_nat (length live)) (Z.of_nat (length (loop_replicas l)))); simpl; [split; [done|lia]|].
    destruct (Z.ltb_spec 0 (Z.of_nat (length (loop_replicas l)) - Z.of_nat (length live)));
      destruct (Z.eqb_spec (Z.of_nat (length live)) 0); simpl; split; intros; done || (exfalso; lia) || lia.
  - apply (f64_max_list_spec (lag_of run <$> live)); [|done]. apply list_elem_of_fmap. eauto.
Qed.
End tick.

(** A promotion is invisible to the loop.  After a successful [promote] of a
    replica the shim names it as the primary and no longer tracks it, but it stays on
    the list of replicas, and the loop, which captured the addresses at the start,
    keeps watching the old primary: as long as that one is down, every tick sets the
    state to broken, whatever the new primary and its replicas answer. *)
Theorem promotion_unwatched now env config ck s l now' a r s' reach run h :
  start ck (init config (new_replication now env)) = (s, l) →
  promote now' a s = (Ok r, s') →
  reach (primary s) = false →
  old_primary r = primary s ∧ primary s' = a ∧ replica_status s' !! a = None ∧
  a ∈ replicas s' ∧ a ∈ loop_replicas l ∧
  failovers_total (shared s') = add64 (failovers_total (shared s)) 1 ∧
  state (tick reach run l h).2 = Broken.
Proof.
  intros Hs Hp Hr. pose proof (start_ok now env config ck s l Hs) as [_ Hlist _].
  unfold promote in Hp. destruct (replica_status s !! a) as [st|] eqn:Ea; [|done].
  injection Hp as <- <-. injection Hs as Hs <-. rewrite Hs in *.
  split_and!; [done|done|simpl; by rewrite lookup_delete_eq|exact (Hlist _ _ Ea)| |done|].
  - apply elem_of_hash_keys. by exists st.
  - unfold tick. simpl. by rewrite Hr.
Qed.
End replication.

(** ** Runs *)
Section replication_runs.
#[local] Instance demo_external_i : External := demo_external.
#[local] Instance demo_rfc3339_i : Rfc3339 := demo_rfc3339.
#[local] Instance demo_order : HashOrder := canonical_order.

Definition demo_env : environment :=
  {[ "REPLICATION_PRIMARY" := "10.0.0.1:5432"; "REPLICATION_REPLICAS" := "10.0.0.2:5432, 10.0.0.3:5432" ]}.
Definition demo_shim : ReplicationShim := init None (new_replication 0 demo_env) <| bus := true |>.
(** A replica two minutes behind, and one that answers nothing useful *)
Definition demo_psql : psql := λ host _,
  if bool_decide (host = "10.0.0.2") then Ok (mkOutput true "120" "") else Ok (mkOutput false "" "denied").
Definition all_up : string → bool := λ _, true.
Definition old_down : string → bool := λ a, negb (bool_decide (a = "10.0.0.1:5432")).

Example demo_tick :
  let '(s, l) := start (λ _, 0) demo_shim in
  let '(events, h) := tick all_up demo_psql l (shared s) in
  (events, state h, replicas_healthy h) = ([(ReplicationLagWarning 120000 10000, Warning)], Healthy, 2).
Proof. vm_compute. done. Qed.
(** The host of an IPv6 address is cut at its first colon. *)
Example host_port_v6 : host_port "[::1]:5432" = ("[", "").
Proof. reflexivity. Qed.

Lemma statuses_classified_witness :
  let '(s, l) := start (λ _, 0) (init None (new_replication 0 demo_env)) in
  table_ok (replica_status (op_run l [OpUpdate 0 "10.0.0.2:5432" 1 (f64_of_Z 20)] s))
    (replicas (op_run l [OpUpdate 0 "10.0.0.2:5432" 1 (f64_of_Z 20)] s)).
Proof.
  destruct (start (λ _, 0) (init None (new_replication 0 demo_env))) as [s l] eqn:E.
  exact (statuses_classified 0 demo_env None (λ _, 0) _ s l E).
Defined.
Lemma tick_outcome_witness :
  let '(s, l) := start (λ _, 0) demo_shim in
  state (tick all_up demo_psql l (shared s)).2 = Healthy.
Proof.
  destruct (start (λ _, 0) demo_shim) as [s l] eqn:E.
  assert (loop_replicas l = (start (λ _, 0) demo_shim).2.(loop_replicas)) as El by by rewrite E.
  destruct (tick all_up demo_psql l (shared s)) as [ev h'] eqn:Et.
  destruct (tick_outcome all_up demo_psql l (shared s) ev h') as (_ & _ & H); [|done|].
  - rewrite El. vm_compute. done.
  - destruct (H eq_refl) as (_ & _ & [_ Hh] & _). apply Hh. unfold live. rewrite El. vm_compute. done.
Defined.
Lemma promotion_unwatched_witness :
  let '(s, l) := start (λ _, 0) (init None (new_replication 0 demo_env)) in
  let s' := (promote 0 "10.0.0.2:5432" s).2 in
  primary s' = "10.0.0.2:5432" ∧ state (tick old_down demo_psql l (shared s')).2 = Broken.
Proof.
  destruct (start (λ _, 0) (init None (new_replication 0 demo_env))) as [s l] eqn:E.
  assert (s = (start (λ _, 0) (init None (new_replication 0 demo_env))).1) as Es by by rewrite E.
  destruct (promote 0 "10.0.0.2:5432" s) as [[r|e] s'] eqn:Ep.
  - destruct (promotion_unwatched 0 demo_env None (λ _, 0) s l 0 "10.0.0.2:5432" r s' old_down demo_psql
      (shared s') E Ep) as (_ & H1 & _ & _ & _ & _ & H2); [rewrite Es; vm_compute; done|]. done.
  - exfalso. revert Ep. rewrite Es. vm_compute. discriminate.
Defined.
End replication_runs.
