(* ===== verification/Cost.v ===== *)
(** * Cost tracking ([cost-shim/src/lib.rs])

    Budgets and the bill of each tenant ([CostShim]), and the recommendations of
    [CostOptimizer].  The text of a recommendation is kept as the kind of sentence
    and the numbers in it. *)

From S2P Require Import Prelude Floats Text.

(** [ResourceType] *)
Inductive ResourceType :=
| Cpu | Memory | Storage | NetworkIn | NetworkOut | Requests | DatabaseReads | DatabaseWrites.
Definition resource_display (r : ResourceType) : string :=
  match r with
  | Cpu => "cpu" | Memory => "memory" | Storage => "storage" | NetworkIn => "network_in"
  | NetworkOut => "network_out" | Requests => "requests" | DatabaseReads => "db_reads"
  | DatabaseWrites => "db_writes"
  end.
Record ResourceUsage := mkResourceUsage {
  resource_type : ResourceType;
  amount : f64;
  unit_name : string;
  cost_per_unit : f64;
  recorded_at : string
}.
Definition total_cost (u : ResourceUsage) : f64 := f64_mul (amount u) (cost_per_unit u).

(** [Budget] and its methods *)
Record Budget := mkBudget {
  budget_tenant : string;
  limit : f64;
  spent : f64;
  budget_currency : string;
  period_start : string;
  period_end : string
}.
#[export] Instance Budget_settable : Settable Budget := λ b,
  mkBudget (budget_tenant b) (limit b) (spent b) (budget_currency b) (period_start b) (period_end b).
Definition remaining (b : Budget) : f64 := f64_max (f64_sub (limit b) (spent b)) (f64_of_Z 0).
Definition usage_percent (b : Budget) : f64 :=
  if f64_gt (limit b) (f64_of_Z 0) then f64_mul (f64_div (spent b) (limit b)) (f64_of_Z 100)
  else f64_of_Z 100.
Definition over_limit (b : Budget) : bool := f64_gt (spent b) (limit b).
Definition is_near_limit (threshold : f64) (b : Budget) : bool := f64_ge (usage_percent b) threshold.

Record CostProjection := mkProjection {
  projected_tenant : string;
  current_cost : f64;
  projected_monthly : f64;
  budget_limit : f64;
  projected_over_budget : bool;
  days_remaining : Z
}.

(** [CostShim], less the shutdown channel *)
Record CostShim := mkCost {
  enabled : bool;
  tenant_key : string;
  report_schedule : string;
  budget_default : f64;
  alert_threshold : f64;
  currency : string;
  tenants_tracked : Z;
  resources_tracked : Z;
  budgets : gmap string Budget;
  usage_log : list ResourceUsage;
  alert_threshold_triggered : Z
}.
#[export] Instance CostShim_settable : Settable CostShim := λ s,
  mkCost (enabled s) (tenant_key s) (report_schedule s) (budget_default s) (alert_threshold s)
    (currency s) (tenants_tracked s) (resources_tracked s) (budgets s) (usage_log s)
    (alert_threshold_triggered s).

(** [std::env::var(k).map(|v| v == "true" || v == "1").unwrap_or(true)] *)
Definition env_on (env : environment) (k : string) : bool :=
  match env !! k with
  | Some v => bool_decide (v = "true") || bool_decide (v = "1")
  | None => true
  end.
Definition new_cost (env : environment) : CostShim :=
  {| enabled := env_on env "COST_TRACKING_ENABLED";
     tenant_key := env_or env "COST_TENANT_KEY" "X-Tenant-ID";
     report_schedule := env_or env "COST_REPORT_SCHEDULE" "daily";
     budget_default := env_parse env "COST_BUDGET_DEFAULT" parse_f64 (f64_of_Z 100);
     alert_threshold := env_parse env "COST_ALERT_THRESHOLD" parse_f64 (f64_of_Z 80);
     currency := env_or env "COST_CURRENCY" "USD";
     tenants_tracked := 0;
     resources_tracked := 0;
     budgets := ∅;
     usage_log := [];
     alert_threshold_triggered := 0 |}.

Section cost.
Context `{RF : Rfc3339} `{CH : Chrono} `{HO : HashOrder}.
Implicit Types (s : CostShim) (t : string) (now : Z).

Definition month_secs : Z := 30 * 86400.

(** [create_budget]; [None] is the panic of a date out of range. *)
Definition create_budget now t (l : f64) s : option CostShim :=
  until ← plus_seconds now month_secs;
  let s := s <| budgets ::= <[t := {| budget_tenant := t; limit := l; spent := f64_of_Z 0;
      budget_currency := currency s; period_start := to_rfc3339 now;
      period_end := to_rfc3339 until |}]> |> in
  Some (s <| tenants_tracked := Z.of_nat (size (budgets s)) |>).

(** [record_usage] *)
Definition record_usage now t (rt : ResourceType) (a : f64) (u : string) (cpu : f64) s : f64 * CostShim :=
  let cost := f64_mul a cpu in
  (cost,
   s <| budgets ::= alter (λ b, b <| spent ::= λ x, f64_add x cost |>) t |>
     <| usage_log ::= λ l, l ++ [mkResourceUsage rt a u cpu (to_rfc3339 now)] |>
     <| resources_tracked ::= λ n, add64 n 1 |>).

Definition get_budget t s : option Budget := budgets s !! t.
Definition is_over_budget t s : bool := default false (over_limit <$> budgets s !! t).

(** [check_alerts] *)
Definition check_alerts s : list string * CostShim :=
  let alerted := (filter (λ e, is_near_limit (alert_threshold s) e.2 = true) (hash_iter (budgets s))).*1 in
  (alerted, s <| alert_threshold_triggered ::= λ n, add64 n (Z.of_nat (length alerted)) |>).

(** [project_cost] *)
Definition project_cost now t s : option CostProjection :=
  b ← budgets s !! t;
  from ← parse_from_rfc3339 (period_start b);
  until ← parse_from_rfc3339 (period_end b);
  let elapsed := f64_of_Z (Z.max (num_seconds_between now from) 1) in
  let rate := f64_div (spent b) elapsed in
  let monthly := f64_mul (f64_mul rate (f64_of_Z 30)) (f64_of_Z 86400) in
  Some {| projected_tenant := t;
          current_cost := spent b;
          projected_monthly := monthly;
          budget_limit := limit b;
          projected_over_budget := f64_gt monthly (limit b);
          days_remaining := Z.max (Z.quot (until - now) (86400 * 10 ^ 9)) 0 |}.

Definition total_spend s : f64 := f64_sum (spent <$> hash_values (budgets s)).
Definition tenant_count s : Z := Z.of_nat (size (budgets s)).
Definition usage_count s : Z := Z.of_nat (length (usage_log s)).

(** [reset_budgets]; the clock is read once per budget. *)
Definition reset_budget now (b : Budget) : Budget :=
  b <| spent := f64_of_Z 0 |> <| period_start := to_rfc3339 now |>
    <| period_end := to_rfc3339 (default now (plus_seconds now month_secs)) |>.
Definition reset_budgets (ck : string → Z) s : option CostShim :=
  if bool_decide (map_Forall (λ t _, is_Some (plus_seconds (ck t) month_secs)) (budgets s))
  then Some (s <| budgets ::= map_imap (λ t b, Some (reset_budget (ck t) b)) |>)
  else None.

Definition cost_metrics s : list (string * f64) :=
  [("cost_tenants_tracked", f64_of_Z (tenants_tracked s));
   ("cost_resources_tracked", f64_of_Z (resources_tracked s));
   ("cost_total_spend", total_spend s);
   ("cost_alerts_triggered", f64_of_Z (alert_threshold_triggered s))].

(** ** The bill of a tenant is the sum of what was recorded for it *)

Inductive CostOp :=
| OpCreate now t (l : f64)
| OpRecord now t (rt : ResourceType) (a : f64) (u : string) (cpu : f64)
| OpAlerts
| OpReset (ck : string → Z).
Definition cost_step (o : CostOp) s : option CostShim :=
  match o with
  | OpCreate now t l => create_budget now t l s
  | OpRecord now t rt a u cpu => Some (record_usage now t rt a u cpu s).2
  | OpAlerts => Some (check_alerts s).2
  | OpReset ck => reset_budgets ck s
  end.
Fixpoint cost_run (os : list CostOp) s : option CostShim :=
  match os with [] => Some s | o :: os => cost_step o s ≫= cost_run os end.

(** The ledger: the limit of each tenant and what it was billed in this period *)
Abbreviation ledger := (gmap string (f64 * list f64)).
Definition ledger_step (o : CostOp) (l : ledger) : ledger :=
  match o with
  | OpCreate _ t x => <[t := (x, [])]> l
  | OpRecord _ t _ a _ cpu => alter (λ e, (e.1, e.2 ++ [f64_mul a cpu])) t l
  | OpAlerts => l
  | OpReset _ => (λ e, (e.1, [])) <$> l
  end.
Definition ledger_run (os : list CostOp) (l : ledger) : ledger := foldl (λ l o, ledger_step o l) l os.
Definition is_recording (o : CostOp) : bool :=
  match o with OpRecord _ _ _ _ _ _ => true | _ => false end.
Definition recordings (os : list CostOp) : nat := length (filter (λ o, is_recording o = true) os).

Definition bill (e : f64 * list f64) : f64 := foldl f64_add (f64_of_Z 0) e.2.
Definition bills (b : Budget) (e : f64 * list f64) : Prop := limit b = e.1 ∧ spent b = bill e.
Record agrees s (l : ledger) : Prop := {
  agree_entry t : option_relation bills (λ _, False) (λ _, False) (budgets s !! t) (l !! t);
  agree_log : resources_tracked s = wrap 64 (Z.of_nat (length (usage_log s)));
  agree_tenants : tenants_tracked s = Z.of_nat (size (budgets s))
}.

Lemma recordings_cons o os : recordings (o :: os) = (Nat.b2n (is_recording o) + recordings os)%nat.
Proof. unfold recordings. rewrite filter_cons. by destruct (is_recording o). Qed.
Lemma cost_step_agrees o s s' l :
  cost_step o s = Some s' → agrees s l →
  agrees s' (ledger_step o l) ∧
  length (usage_log s') = (length (usage_log s) + Nat.b2n (is_recording o))%nat.
Proof.
  intros Ho [He Hl Ht]. destruct o as [now t x|now t rt a u cpu| |ck]; simpl in Ho.
  - unfold create_budget in Ho. destruct (plus_seconds _ _) as [until|]; [|done]. simplify_eq/=.
    split; [|simpl; lia]. split; simpl; [intros t'|done|done].
    destruct (decide (t = t')) as [<-|Hne].
    + rewrite !lookup_insert_eq. exact (conj eq_refl eq_refl).
    + rewrite !lookup_insert_ne by done. apply He.
  - simplify_eq/=. split; [|rewrite length_app; simpl; lia].
    split; simpl; [intros t'| |by rewrite Ht, <-!size_dom, dom_alter_L].
    + destruct (decide (t = t')) as [<-|Hne].
      * rewrite !lookup_alter_eq. specialize (He t).
        destruct (budgets s !! t) as [b|], (l !! t) as [e|]; simpl in *; try done.
        destruct He as [H1 H2]. split; [done|]. unfold bill. simpl. by rewrite foldl_app, H2.
      * rewrite !lookup_alter_ne by done. apply He.
    + rewrite length_app, Hl. unfold add64, wrap. rewrite Zplus_mod_idemp_l. f_equal. simpl. lia.
  - simplify_eq/=. split; [by split|simpl; lia].
  - unfold reset_budgets in Ho. case_bool_decide; [|done]. simplify_eq/=.
    split; [|simpl; lia]. split; simpl; [intros t|done|].
    + rewrite map_lookup_imap, lookup_fmap. specialize (He t).
      destruct (budgets s !! t) as [b|], (l !! t) as [e|]; simpl in *; try done.
      destruct He as [He _]. exact (conj He eq_refl).
    + rewrite Ht, <-!size_dom. f_equal. f_equal. apply set_eq. intros t.
      rewrite !elem_of_dom, map_lookup_imap. by destruct (budgets s !! t).
Qed.

(** C35. Bills are exact.  After any sequence of calls, the tenants with a budget are
    those of the ledger, each with the limit it was created with, and what a tenant
    has spent is the left-to-right sum of the costs recorded for it since its budget
    was created or last reset.  Usage of a tenant without a budget is billed to
    nobody, though the counter and the log have it; tracking is never turned off. *)
Theorem spend_refines_ledger env os s :
  cost_run os (new_cost env) = Some s →
  agrees s (ledger_run os ∅) ∧ length (usage_log s) = recordings os.
Proof.
  assert (∀ s0 l, agrees s0 l → cost_run os s0 = Some s →
    agrees s (ledger_run os l) ∧ length (usage_log s) = (length (usage_log s0) + recordings os)%nat) as H.
  { unfold ledger_run. induction os as [|o os IH]; intros s0 l H0 Hr; simpl in *.
    { simplify_eq. split; [done|]. unfold recordings. simpl. lia. }
    destruct (cost_step o s0) as [s1|] eqn:E; [|done]. simpl in Hr.
    destruct (cost_step_agrees o s0 s1 l E H0) as [H1 Hn].
    destruct (IH s1 _ H1 Hr) as [H2 Hn2]. split; [done|]. rewrite Hn2, Hn.
    rewrite recordings_cons. lia. }
  apply H. split; [intros t; simpl; by rewrite !lookup_empty|done|done].
Qed.

(** Alerts: exactly the tenants near their limit, each once, and every call counts
    all of them again. *)
Lemma check_alerts_spec s :
  let '(l, s') := check_alerts s in
  NoDup l ∧
  (∀ t, t ∈ l ↔ ∃ b, budgets s !! t = Some b ∧ is_near_limit (alert_threshold s) b = true) ∧
  alert_threshold_triggered s' = add64 (alert_threshold_triggered s) (Z.of_nat (length l)) ∧
  (check_alerts s').1 = l.
Proof.
  unfold check_alerts. simpl. split_and!; [| |done|done].
  - eapply sublist_NoDup; [apply (NoDup_hash_keys (budgets s))|].
    unfold hash_keys. apply fmap_sublist, sublist_filter.
  - intros t. rewrite list_elem_of_fmap. split.
    + intros ([t' b] & -> & [Hn Hin]%list_elem_of_filter). apply elem_of_hash_iter in Hin. eauto.
    + intros (b & Hb & Hn). exists (t, b). split; [done|]. apply list_elem_of_filter.
      by rewrite elem_of_hash_iter.
Qed.

(** ** The optimizer *)

Inductive RecommendationType := RightSizeDown | RightSizeUp | IdleResource | ReservedCapacity.
#[global] Instance RecommendationType_eq_dec : EqDecision RecommendationType.
Proof. solve_decision. Defined.
Definition recommendation_display (r : RecommendationType) : string :=
  match r with
  | RightSizeDown => "right_size_down" | RightSizeUp => "right_size_up"
  | IdleResource => "idle_resource" | ReservedCapacity => "reserved_capacity"
  end.
(** The sentences, with their numbers *)
Inductive Description :=
| CpuBelow (avg : f64) (days : Z) (threshold : f64)
| CpuAbove (avg : f64) (days : Z) (threshold : f64)
| CpuIdle (days : Z)
| MemoryLow (avg : f64) (days : Z).
Record CostRecommendation := mkRecommendation {
  resource_id : string;
  recommendation_type : RecommendationType;
  description : Description;
  current_value : f64;
  suggested_value : f64;
  unit_of : string;
  estimated_savings_monthly : f64;
  severity : string
}.
Record UsageDataPoint := mkPoint {
  point_resource : string;
  metric_name : string;
  value : f64;
  point_recorded_at : string
}.
Record CostOptimizer := mkOptimizer {
  opt_enabled : bool;
  usage_history : list UsageDataPoint;
  recommendations : list CostRecommendation;
  underutilized_threshold : f64;
  overutilized_threshold : f64;
  analysis_window_days : Z
}.
#[global] Instance CostOptimizer_settable : Settable CostOptimizer := λ o,
  mkOptimizer (opt_enabled o) (usage_history o) (recommendations o) (underutilized_threshold o)
    (overutilized_threshold o) (analysis_window_days o).

Definition new_optimizer (env : environment) : CostOptimizer :=
  mkOptimizer (env_on env "COST_OPTIMIZER_ENABLED") [] [] (f64_of_Z 10) (f64_of_Z 80) 7.
Definition record_point now (rid m : string) (v : f64) (o : CostOptimizer) : CostOptimizer :=
  o <| usage_history ::= λ l, l ++ [mkPoint rid m v (to_rfc3339 now)] |>.

(** [unique_resources]: the set of ids, sorted *)
Fixpoint insert_id (i : string) (l : list string) : list string :=
  match l with
  | [] => [i]
  | j :: r => if bool_decide (i = j) then l
              else if String.leb i j then i :: l else j :: insert_id i r
  end.
Definition unique_resources (o : CostOptimizer) : list string :=
  foldr insert_id [] (point_resource <$> usage_history o).

Definition points (o : CostOptimizer) (rid m : string) : list f64 :=
  value <$> filter (λ p, point_resource p = rid ∧ metric_name p = m) (usage_history o).
Definition count_if (f : f64 → bool) (l : list f64) : Z := Z.of_nat (length (filter (λ v, f v = true) l)).
Definition average (l : list f64) : f64 := f64_div (f64_sum l) (f64_of_Z (Z.of_nat (length l))).
Definition estimate_savings (current suggested : f64) : f64 :=
  if f64_le current suggested then f64_of_Z 0
  else f64_mul (f64_div (f64_sub current suggested) (f64_of_Z 10)) (f64_of_Z 50).
Definition estimate_memory_savings (current suggested : f64) : f64 :=
  if f64_le current suggested then f64_of_Z 0
  else f64_mul (f64_div (f64_sub current suggested) (f64_of_Z (1024 * 1024 * 1024))) (f64_of_Z 30).

(** The four blocks of [analyze] for one resource *)
Definition when {A} (b : bool) (x : A) : list A := if b then [x] else [].
Definition cpu_recommendations (o : CostOptimizer) (rid : string) (cpu : list f64)
    : list CostRecommendation :=
  let avg := average cpu in
  let window := analysis_window_days o in
  let below := count_if (λ v, f64_lt v (underutilized_threshold o)) cpu in
  let above := count_if (λ v, f64_gt v (overutilized_threshold o)) cpu in
  let idle := count_if (λ v, f64_lt v (f64_of_Z 1)) cpu in
  let down := f64_min (f64_ceil (f64_mul avg (f64_of_Z 2))) (f64_of_Z 100) in
  let up := f64_min (f64_ceil (f64_mul avg (f64_div (f64_of_Z 3) (f64_of_Z 2)))) (f64_of_Z 100) in
  when (window <=? below)
    (mkRecommendation rid RightSizeDown (CpuBelow avg below (underutilized_threshold o)) avg down
       "percent" (estimate_savings avg down) "low") ++
  when (window <=? above)
    (mkRecommendation rid RightSizeUp (CpuAbove avg above (overutilized_threshold o)) avg up
       "percent" (f64_of_Z 0) "high") ++
  when ((window <=? idle) && (window <=? Z.of_nat (length cpu)))
    (mkRecommendation rid IdleResource (CpuIdle idle) avg (f64_of_Z 0) "percent"
       (estimate_savings avg (f64_of_Z 0)) "medium").
Definition memory_recommendations (o : CostOptimizer) (rid : string) (mem : list f64)
    : list CostRecommendation :=
  let avg := average mem in
  let low := count_if (λ v, f64_lt v (underutilized_threshold o)) mem in
  let suggested := f64_ceil (f64_mul avg (f64_of_Z 2)) in
  when (analysis_window_days o <=? low)
    (mkRecommendation rid RightSizeDown (MemoryLow avg low) avg suggested "bytes"
       (estimate_memory_savings avg suggested) "low").
Definition analyze_resource (o : CostOptimizer) (rid : string) : list CostRecommendation :=
  let cpu := points o rid "cpu_percent" in
  let mem := points o rid "memory_bytes" in
  (if bool_decide (cpu = []) then [] else cpu_recommendations o rid cpu) ++
  (if bool_decide (mem = []) then [] else memory_recommendations o rid mem).
Definition analyze (o : CostOptimizer) : list CostRecommendation * CostOptimizer :=
  if opt_enabled o then
    let rs := mjoin (analyze_resource o <$> unique_resources o) in
    (rs, o <| recommendations := rs |>)
  else ([], o).
Definition set_underutilized_threshold (x : f64) (o : CostOptimizer) : CostOptimizer :=
  o <| underutilized_threshold := x |>.
Definition set_overutilized_threshold (x : f64) (o : CostOptimizer) : CostOptimizer :=
  o <| overutilized_threshold := x |>.
Definition set_analysis_window (days : Z) (o : CostOptimizer) : CostOptimizer :=
  o <| analysis_window_days := days |>.
Definition clear_history (o : CostOptimizer) : CostOptimizer :=
  o <| usage_history := [] |> <| recommendations := [] |>.

(** ** What is recommended *)

Lemma elem_of_insert_id i j l : j ∈ insert_id i l ↔ j = i ∨ j ∈ l.
Proof.
  induction l as [|k l IH]; simpl; [by rewrite elem_of_cons|].
  case_bool_decide as E; [|case_match]; rewrite ?elem_of_cons, ?IH; [|done|tauto].
  split; [auto|]. intros [->|H]; [by left|exact H].
Qed.
Lemma elem_of_unique_resources o i : i ∈ unique_resources o ↔ i ∈ point_resource <$> usage_history o.
Proof.
  unfold unique_resources. induction (point_resource <$> usage_history o) as [|j l IH]; simpl; [done|].
  rewrite elem_of_insert_id, elem_of_cons, IH. done.
Qed.
Lemma count_if_mono f g l :
  (∀ v, f v = true → g v = true) → count_if f l ≤ count_if g l.
Proof.
  intros H. unfold count_if. apply inj_le. induction l as [|v l IH]; [done|].
  rewrite !filter_cons. case_decide as E; [rewrite decide_True by auto; simpl; lia|].
  case_decide; simpl; lia.
Qed.
Lemma elem_of_when {A} b (x y : A) : y ∈ when b x ↔ b = true ∧ y = x.
Proof.
  destruct b; simpl; [rewrite list_elem_of_singleton|rewrite elem_of_nil];
    split; [auto|by intros [_ ?]|done|by intros [? _]].
Qed.

(** Whether there is a recommendation of this type and unit for a resource *)
Definition advised (o : CostOptimizer) (rid : string) (ty : RecommendationType) (u : string) : Prop :=
  ∃ r, r ∈ (analyze o).1 ∧ resource_id r = rid ∧ recommendation_type r = ty ∧ unit_of r = u.

Lemma points_resource o rid m : points o rid m ≠ [] → rid ∈ unique_resources o.
Proof.
  intros H. apply elem_of_unique_resources. unfold points in H.
  destruct (filter _ _) as [|p l] eqn:E; [done|].
  assert (p ∈ p :: l) as Hp by constructor. rewrite <-E in Hp.
  apply list_elem_of_filter in Hp as [[<- _] Hp]. apply list_elem_of_fmap. eauto.
Qed.
Lemma advised_iff o rid ty u :
  opt_enabled o = true →
  advised o rid ty u ↔
    ∃ r, r ∈ analyze_resource o rid ∧ recommendation_type r = ty ∧ unit_of r = u.
Proof.
  intros He. unfold advised, analyze. rewrite He. simpl.
  assert (∀ i r, r ∈ analyze_resource o i → resource_id r = i) as Hid.
  { intros i r. unfold analyze_resource, cpu_recommendations, memory_recommendations.
    rewrite elem_of_app. repeat case_bool_decide; rewrite ?elem_of_app, ?elem_of_when;
      intros Hr; destruct_or?; destruct_and?; simplify_eq/=; set_solver. }
  split.
  - intros (r & (rs & Hr & (i & -> & Hi)%list_elem_of_fmap)%list_elem_of_join & <- & ? & ?).
    exists r. by rewrite (Hid i r Hr).
  - intros (r & Hr & Ht & Hu). exists r. split_and!; [|by apply Hid|done|done].
    apply list_elem_of_join. exists (analyze_resource o rid). split; [done|].
    apply list_elem_of_fmap. exists rid. split; [done|].
    unfold analyze_resource in Hr. repeat case_bool_decide; try by eapply points_resource.
    by apply elem_of_nil in Hr.
Qed.

Lemma advised_percent o rid ty :
  opt_enabled o = true → points o rid "cpu_percent" ≠ [] →
  advised o rid ty "percent" ↔
    ∃ r, r ∈ cpu_recommendations o rid (points o rid "cpu_percent") ∧ recommendation_type r = ty.
Proof.
  intros He Hc. rewrite advised_iff by done. unfold analyze_resource.
  rewrite bool_decide_eq_false_2 by done. split.
  - intros (r & [Hr|Hr]%elem_of_app & Ht & Hu); [by eauto|].
    case_bool_decide; [by apply elem_of_nil in Hr|].
    apply elem_of_when in Hr as [_ ->]. done.
  - intros (r & Hr & Ht). exists r. rewrite elem_of_app. split_and!; [by left|done|].
    unfold cpu_recommendations in Hr. rewrite !elem_of_app, !elem_of_when in Hr.
    by destruct Hr as [[_ ->]|[[_ ->]|[_ ->]]].
Qed.

(** What the optimizer advises on the CPU of a resource is decided by counting
    its data points, not days: it advises to shrink when at least a window of points
    is below the lower threshold, to grow when at least a window is above the upper
    one, and to shut down when at least a window is below one percent.  With a lower
    threshold of one percent or more, as in the default, every resource advised to be
    shut down is advised to be shrunk as well. *)
Theorem cpu_advice o rid :
  opt_enabled o = true →
  let cpu := points o rid "cpu_percent" in
  cpu ≠ [] →
  (advised o rid RightSizeDown "percent" ↔
    analysis_window_days o ≤ count_if (λ v, f64_lt v (underutilized_threshold o)) cpu) ∧
  (advised o rid RightSizeUp "percent" ↔
    analysis_window_days o ≤ count_if (λ v, f64_gt v (overutilized_threshold o)) cpu) ∧
  (advised o rid IdleResource "percent" ↔
    analysis_window_days o ≤ count_if (λ v, f64_lt v (f64_of_Z 1)) cpu) ∧
  (f64_le (f64_of_Z 1) (underutilized_threshold o) = true →
    advised o rid IdleResource "percent" → advised o rid RightSizeDown "percent").
Proof.
  intros He cpu Hc.
  assert (∀ f, count_if f cpu ≤ Z.of_nat (length cpu)) as Hlen.
  { intros f. unfold count_if. apply inj_le, length_filter. }
  set (below := count_if _ cpu). set (above := count_if _ cpu). set (idle := count_if _ cpu).
  assert (∀ ty, advised o rid ty "percent" ↔
    (ty = RightSizeDown ∧ analysis_window_days o ≤ below) ∨
    (ty = RightSizeUp ∧ analysis_window_days o ≤ above) ∨
    (ty = IdleResource ∧ analysis_window_days o ≤ idle)) as H.
  { intros ty. rewrite advised_percent by done. unfold cpu_recommendations.
    fold cpu below above idle. setoid_rewrite elem_of_app. setoid_rewrite elem_of_app.
    setoid_rewrite elem_of_when. rewrite <-!Z.leb_le. split.
    - intros (r & [[H ->]|[[H ->]|[[H _]%andb_true_iff ->]]] & <-); simpl; auto.
    - intros [[-> H]|[[-> H]|[-> H]]]; eexists.
      { split; [left; split; [exact H|reflexivity]|reflexivity]. }
      { split; [right; left; split; [exact H|reflexivity]|reflexivity]. }
      split; [right; right; split; [|reflexivity]|reflexivity]. rewrite H. simpl. apply Z.leb_le.
      specialize (Hlen (λ v, f64_lt v (f64_of_Z 1))). fold idle in Hlen. apply Z.leb_le in H. lia. }
  rewrite !H. split_and!;
    [split; [by intros [[? ?]|[[? ?]|[? ?]]]|auto]..|].
  intros Hthr [[? _]|[[? _]|[_ Hw]]]; [done..|]. left. split; [done|].
  etrans; [exact Hw|]. apply count_if_mono. intros v.
  apply f64_lt_le_trans. exact Hthr.
Qed.
End cost.

(** ** Runs *)
Section cost_runs.
#[local] Instance demo_rfc3339_i : Rfc3339 := decimal_rfc3339.
#[local] Instance demo_chrono_i : Chrono := demo_chrono.
#[local] Instance demo_order : HashOrder := canonical_order.

Definition demo_ops : list CostOp :=
  [OpCreate 0 "a" (f64_of_Z 10); OpRecord 0 "a" Cpu (f64_of_Z 3) "h" (f64_of_Z 2);
   OpRecord 0 "b" Cpu (f64_of_Z 3) "h" (f64_of_Z 2); OpRecord 0 "a" Memory (f64_of_Z 5) "GB" (f64_of_Z 1)].
(** Tracking is on or off: it makes no difference. *)
Definition demo_off : environment := {[ "COST_TRACKING_ENABLED" := "false" ]}.
Example demo_bills :
  (λ s, (get_budget "a" s, usage_count s, is_over_budget "a" s, (check_alerts s).1))
    <$> (cost_run (OpCreate 0 "a" (f64_of_Z 10) :: tail demo_ops) (new_cost demo_off))
  = (λ s, (get_budget "a" s, usage_count s, true, ["a"])) <$> cost_run demo_ops (new_cost ∅).
Proof. vm_compute. done. Qed.
Lemma spend_refines_ledger_witness :
  match cost_run demo_ops (new_cost ∅) with
  | Some s => agrees s (ledger_run demo_ops ∅) ∧ length (usage_log s) = recordings demo_ops
  | None => False
  end.
Proof.
  destruct (cost_run demo_ops (new_cost ∅)) as [s|] eqn:E; [|exfalso; revert E; vm_compute; discriminate].
  exact (spend_refines_ledger ∅ demo_ops s E).
Defined.

(** A week at half a percent: shrink and shut down; the shrinking saves nothing,
    because twice the average, rounded up, is not below it. *)
Definition demo_optimizer : CostOptimizer :=
  Nat.iter 7 (record_point 0 "db" "cpu_percent" (f64_div (f64_of_Z 1) (f64_of_Z 2))) (new_optimizer ∅).
Example demo_advice :
  (λ r, (recommendation_type r, suggested_value r, estimated_savings_monthly r)) <$> (analyze demo_optimizer).1
  = [(RightSizeDown, f64_of_Z 1, f64_of_Z 0);
     (IdleResource, f64_of_Z 0, f64_div (f64_of_Z 5) (f64_of_Z 2))].
Proof. vm_compute. done. Qed.
(** A week at one kilobyte of memory is not low: the threshold is a percentage. *)
Example demo_memory :
  (analyze (Nat.iter 7 (record_point 0 "db" "memory_bytes" (f64_of_Z 1024)) (new_optimizer ∅))).1 = [].
Proof. vm_compute. done. Qed.
Lemma cpu_advice_witness :
  advised demo_optimizer "db" IdleResource "percent" → advised demo_optimizer "db" RightSizeDown "percent".
Proof.
  apply (cpu_advice demo_optimizer "db"); [done|by vm_compute|by vm_compute].
Defined.
End cost_runs.

