(* ===== verification/AuditLog.v ===== *)
(** * The audit log ([audit-shim/src/lib.rs])

    [AuditShim]: creating and logging entries, the daily files and their rotation,
    the reload at start, queries and statistics.  The directory of log files is a map
    from names to contents; file system and webhook answers are inputs; JSON and the
    formatting of dates are interfaces. *)

From S2P Require Import Prelude Text Config.

Record AuditEntry := mkEntry {
  id : string;
  timestamp : string;
  entry_database : string;
  operation : string;
  entry_table : option string;
  entry_query : option string;
  duration_ms : Z;
  rows_affected : option Z;
  client_addr : option string;
  entry_user : option string;
  success : bool;
  error : option string
}.
Record AuditFilter := mkFilter {
  f_operation : option string;
  f_table : option string;
  f_success : option bool;
  f_min_duration_ms : option Z;
  f_since : option string;
  f_limit : nat
}.
Definition default_filter : AuditFilter := mkFilter None None None None None 100.
Record AuditStats := mkStats {
  total_entries : Z;
  success_count : Z;
  failure_count : Z;
  operations : gmap string Z;
  avg_duration_ms : f64;
  stat_max_duration_ms : Z
}.

(** [AuditShim], less the shutdown channel; [has_client] is whether the HTTP client
    is there. *)
Record AuditShim := mkAuditShim {
  database : string;
  tables : list string;
  out_format : string;
  output : string;
  output_file : option string;
  webhook_url : option string;
  log_queries : bool;
  log_parameters : bool;
  min_duration_ms : Z;
  queries_logged : Z;
  queries_filtered : Z;
  total_duration_ms : Z;
  max_duration_ms : Z;
  last_log : option Z;
  log : list AuditEntry;
  entry_counter : Z;
  log_dir : string;
  max_entries : Z;
  has_client : bool
}.
#[export] Instance AuditShim_settable : Settable AuditShim := λ s,
  mkAuditShim (database s) (tables s) (out_format s) (output s) (output_file s) (webhook_url s)
    (log_queries s) (log_parameters s) (min_duration_ms s) (queries_logged s) (queries_filtered s)
    (total_duration_ms s) (max_duration_ms s) (last_log s) (log s) (entry_counter s) (log_dir s)
    (max_entries s) (has_client s).

(** [AuditShim::new] *)
Definition new_audit (env : environment) : AuditShim :=
  {| database := env_or env "AUDIT_DATABASE" "";
     tables := trim <$> filter (λ x, x ≠ "") (split_on "," (env_or env "AUDIT_TABLES" ""));
     out_format := env_or env "AUDIT_FORMAT" "json";
     output := env_or env "AUDIT_OUTPUT" "stdout";
     output_file := env !! "AUDIT_OUTPUT_FILE";
     webhook_url := env !! "AUDIT_WEBHOOK_URL";
     log_queries := env_true env "AUDIT_LOG_QUERIES";
     log_parameters := env_true env "AUDIT_LOG_PARAMETERS";
     min_duration_ms := env_parse env "AUDIT_MIN_DURATION_MS" parse_u64 0;
     queries_logged := 0;
     queries_filtered := 0;
     total_duration_ms := 0;
     max_duration_ms := 0;
     last_log := None;
     log := [];
     entry_counter := 0;
     log_dir := env_or env "AUDIT_LOG_DIR" "/var/log/audit-shim";
     max_entries := env_parse env "AUDIT_MAX_ENTRIES" parse_usize 100000;
     has_client := false |}.
Definition with_config (env : environment) (db dir : string) (max : Z) : AuditShim :=
  (new_audit env) <| database := db |> <| log_dir := dir |> <| max_entries := max |>.

Definition should_audit_table (t : string) (s : AuditShim) : bool :=
  bool_decide (tables s = []) || existsb (λ x, eq_ignore_ascii_case x t) (tables s).

(** One line of JSON per entry ([serde_json]), and [chrono]'s [%Y-%m-%d] and [%H%M%S] *)
Class EntryJson := {
  to_json : AuditEntry → string;
  from_json : string → option AuditEntry;
  from_to_json e : from_json (to_json e) = Some e;
  to_json_line e : avoids newline (to_json e) = true;
  to_json_trim e : trim (to_json e) = to_json e;
  to_json_ne e : to_json e ≠ ""
}.
Class DateFormat := { date_str : Z → string; time_str : Z → string }.

(** The files of the log directory *)
Abbreviation disk := (gmap string string).
Definition append (name text : string) (d : disk) : disk := <[name := default "" (d !! name) +:+ text]> d.

Section audit.
Context `{RF : Rfc3339} `{EJ : EntryJson} `{DF : DateFormat}.
Implicit Types (s : AuditShim) (d : disk) (e : AuditEntry) (t : Z).

(** ** Creating an entry *)

Record EntryArgs := mkArgs {
  a_operation : string;
  a_table : option string;
  a_query : option string;
  a_duration_ms : Z;
  a_rows_affected : option Z;
  a_client_addr : option string;
  a_user : option string;
  a_success : bool;
  a_error : option string
}.
Definition create_entry t (a : EntryArgs) s : AuditEntry * AuditShim :=
  let s := s <| entry_counter ::= λ n, add64 n 1 |> in
  ({| id := "audit-" +:+ pad_zeros 10 (entry_counter s);
      timestamp := to_rfc3339 t;
      entry_database := database s;
      operation := a_operation a;
      entry_table := a_table a;
      entry_query := if log_queries s then a_query a else None;
      duration_ms := a_duration_ms a;
      rows_affected := a_rows_affected a;
      client_addr := a_client_addr a;
      entry_user := a_user a;
      success := a_success a;
      error := a_error a |}, s).

(** ** Files *)

(** The answers of the file system to one write: errors of [create_dir_all] and
    [open], and of the write, with what it had written *)
Record WriteIo := mkWrite {
  io_mkdir : option string;
  io_open : option string;
  io_write : option (string * string)
}.
Definition io_ok : WriteIo := mkWrite None None None.
Definition write_lines (io : WriteIo) (name text : string) d : result string unit * disk :=
  match io_open io with
  | Some e => (Err e, d)
  | None =>
      match io_write io with
      | Some (written, e) => (Err e, append name written d)
      | None => (Ok tt, append name text d)
      end
  end.
Definition line e : string := to_json e +:+ String newline "".
Definition render (l : list AuditEntry) : string := foldr (λ e r, line e +:+ r) "" l.
Definition daily_file t : string := "audit-" +:+ date_str t +:+ ".log".
Definition rotate_file t : string := "audit-" +:+ date_str t +:+ "-rotate-" +:+ time_str t +:+ ".log".

Definition write_to_disk (io : WriteIo) t e d : result string unit * disk :=
  match io_mkdir io with
  | Some err => (Err err, d)
  | None => write_lines io (daily_file t) (line e) d
  end.
Definition rotate_log (io : WriteIo) t s d : result string unit * AuditShim * disk :=
  if bool_decide (log s = []) then (Ok tt, s, d)
  else
    let '(r, d) := write_lines io (rotate_file t) (render (log s)) d in
    match r with Ok _ => (Ok tt, s <| log := [] |>, d) | Err e => (Err e, s, d) end.

(** [send_webhook], with the error of the post *)
Definition send_webhook (post : option string) s : result string unit :=
  match webhook_url s, post with
  | Some _, Some e => if has_client s then Err e else Ok tt
  | _, _ => Ok tt
  end.

(** [log_entry]: the clock is read for the last log, the file name and the rotation. *)
Record LogIo := mkLogIo { log_write : WriteIo; log_post : option string; log_rotate : WriteIo }.
Definition log_io_ok : LogIo := mkLogIo io_ok None io_ok.
Definition log_entry (io : LogIo) (ck : nat → Z) e s d : result string bool * AuditShim * disk :=
  if duration_ms e <? min_duration_ms s then (Ok false, s <| queries_filtered ::= λ n, add64 n 1 |>, d)
  else
    let s := s <| total_duration_ms ::= λ n, add64 n (duration_ms e) |>
               <| max_duration_ms ::= λ n, if n <? duration_ms e then duration_ms e else n |>
               <| queries_logged ::= λ n, add64 n 1 |>
               <| last_log := Some (ck 0%nat) |> in
    let '(r, d) := write_to_disk (log_write io) (ck 1%nat) e d in
    match r with
    | Err err => (Err err, s, d)
    | Ok _ =>
        match (if bool_decide (output s = "webhook") then send_webhook (log_post io) s else Ok tt) with
        | Err err => (Err err, s, d)
        | Ok _ =>
            let s := s <| log ::= λ l, l ++ [e] |> in
            if max_entries s <? Z.of_nat (length (log s)) then
              let '(r, s, d) := rotate_log (log_rotate io) (ck 2%nat) s d in
              match r with Ok _ => (Ok true, s, d) | Err err => (Err err, s, d) end
            else (Ok true, s, d)
        end
    end.

(** ** Loading *)

Definition is_log_file (name : string) : bool := ends_with name ".log" && starts_with name "audit-".
Definition log_files d : list (string * string) :=
  sort_by_name fst (filter (λ f, is_log_file f.1 = true) (map_to_list d)).
Definition lines (content : string) : list string :=
  filter (λ l, l ≠ "") (trim <$> split_on newline content).
Definition entry_number e : Z :=
  match strip_prefix "audit-" (id e) with Some n => default 0 (parse_u64 n) | None => 0 end.
Definition entries_of (content : string) : list AuditEntry := omap from_json (lines content).
(** [unreadable] is the error of reading a file, if any. *)
Fixpoint read_files (unreadable : string → option string) (l : list (string * string))
    : result string (list AuditEntry) :=
  match l with
  | [] => Ok []
  | f :: l =>
      match unreadable f.1 with
      | Some e => Err e
      | None => es <-? read_files unreadable l; Ok (entries_of f.2 ++ es)
      end
  end.
Definition load_from_disk (unreadable : string → option string) d s : result string unit * AuditShim :=
  match read_files unreadable (log_files d) with
  | Err e => (Err e, s)
  | Ok es => (Ok tt, s <| entry_counter := foldl (λ m e, Z.max m (entry_number e)) 0 es |> <| log := es |>)
  end.

(** [init]; a failed load is only logged. *)
Definition init (config : option AuditConfig) (mkdir : option string) (unreadable : string → option string)
    d s : result string unit * AuditShim :=
  let s := match config with
           | Some c => s <| database := audit_database c |> <| tables := audit_tables c |>
                         <| out_format := Config.format c |>
           | None => s
           end in
  let s := s <| has_client := true |> in
  match mkdir with
  | Some e => (Err e, s)
  | None => (Ok tt, (load_from_disk unreadable d s).2)
  end.

(** ** Output, queries, statistics *)

Definition format_entry e s : string :=
  if bool_decide (out_format s = "cef") then
    "CEF:0|EvergreenShim|audit|1.0|" +:+ (if success e then "1" else "0") +:+ "|" +:+ operation e +:+ "|" +:+
    pretty (duration_ms e) +:+ "|database=" +:+ entry_database e +:+ " operation=" +:+ operation e +:+
    " table=" +:+ default "none" (entry_table e)
  else to_json e.

Definition matches (f : AuditFilter) e : bool :=
  match f_operation f with Some op => eq_ignore_ascii_case (operation e) op | None => true end &&
  match f_table f with
  | Some t => match entry_table e with Some x => eq_ignore_ascii_case x t | None => false end
  | None => true
  end &&
  match f_success f with Some b => bool_decide (success e = b) | None => true end &&
  match f_min_duration_ms f with Some m => m <=? duration_ms e | None => true end &&
  match f_since f ≫= parse_from_rfc3339 with
  | Some since => match parse_from_rfc3339 (timestamp e) with Some x => since <=? x | None => false end
  | None => true
  end.
Definition query (f : AuditFilter) s : list AuditEntry :=
  take (f_limit f) (filter (λ e, matches f e = true) (log s)).

Definition count_operations (l : list AuditEntry) : gmap string Z :=
  foldl (λ m e, <[operation e := add64 (default 0 (m !! operation e)) 1]> m) ∅ l.
Definition count_success (b : bool) (l : list AuditEntry) : Z :=
  Z.of_nat (length (filter (λ e, success e = b) l)).
Definition average_duration s : f64 :=
  if 0 <? queries_logged s then f64_div (f64_of_Z (total_duration_ms s)) (f64_of_Z (queries_logged s))
  else f64_of_Z 0.
Definition stats s : AuditStats :=
  {| total_entries := queries_logged s;
     success_count := count_success true (log s);
     failure_count := count_success false (log s);
     operations := count_operations (log s);
     avg_duration_ms := average_duration s;
     stat_max_duration_ms := max_duration_ms s |}.
Definition clear_log_before (retention : Z) s : AuditShim :=
  s <| log ::= filter (λ e, match parse_from_rfc3339 (timestamp e) with
                            | Some x => retention <=? x
                            | None => true
                            end = true) |>.
Definition entry_count s : Z := Z.of_nat (length (log s)).
Definition force_rotate (io : WriteIo) t s d : result string unit * AuditShim * disk := rotate_log io t s d.
Definition audit_metrics s : list (string * f64) :=
  [("audit_queries_logged_total", f64_of_Z (queries_logged s));
   ("audit_queries_filtered_total", f64_of_Z (queries_filtered s));
   ("audit_avg_duration_ms", average_duration s);
   ("audit_max_duration_ms", f64_of_Z (max_duration_ms s))].

(** ** Runs, with restarts: what was logged and what was rotated out so far *)

Inductive AuditOp :=
| OpLog (ck : nat → Z) (a : EntryArgs)
| OpRotate t
| OpClear (retention : Z)
| OpRestart (env : environment) (config : option AuditConfig).
Record Trail := mkTrail {
  shim : AuditShim;
  files : disk;
  logged : list AuditEntry;
  rotated : list AuditEntry
}.
(** A new process on the directory *)
Definition restart (env : environment) (config : option AuditConfig) d : AuditShim :=
  (init config None (λ _, None) d (new_audit env)).2.
Definition trail_step (tr : Trail) (o : AuditOp) : Trail :=
  match o with
  | OpLog ck a =>
      let '(e, s1) := create_entry (ck 3%nat) a (shim tr) in
      let '(r, s2, d) := log_entry log_io_ok ck e s1 (files tr) in
      match r with
      | Ok true => mkTrail s2 d (logged tr ++ [e])
                     (rotated tr ++ if bool_decide (log s2 = []) then log s1 ++ [e] else [])
      | _ => mkTrail s2 d (logged tr) (rotated tr)
      end
  | OpRotate t =>
      let '(_, s2, d) := force_rotate io_ok t (shim tr) (files tr) in
      mkTrail s2 d (logged tr) (rotated tr ++ log (shim tr))
  | OpClear x => mkTrail (clear_log_before x (shim tr)) (files tr) (logged tr) (rotated tr)
  | OpRestart env c => mkTrail (restart env c (files tr)) (files tr) (logged tr) (rotated tr)
  end.
Definition trail_run (env : environment) (c : option AuditConfig) (os : list AuditOp) : Trail :=
  foldl trail_step (mkTrail (restart env c ∅) ∅ [] []) os.

(** ** Files are read back as they were written *)

Lemma render_app a b : render (a ++ b) = render a +:+ render b.
Proof. induction a as [|e a IH]; simpl; [done|]. by rewrite IH, str_app_assoc. Qed.
Lemma entries_of_render l : entries_of (render l) = l.
Proof.
  unfold entries_of, lines. induction l as [|e l IH]; [done|]. simpl. unfold line.
  rewrite str_app_assoc. change (String newline "" +:+ render l) with (String newline (render l)).
  rewrite split_on_app by apply to_json_line. rewrite fmap_cons, to_json_trim.
  rewrite filter_cons_True by apply to_json_ne. simpl. rewrite from_to_json. by f_equal.
Qed.
Lemma append_render name es (m : gmap string (list AuditEntry)) :
  append name (render es) (render <$> m) = render <$> <[name := default [] (m !! name) ++ es]> m.
Proof.
  unfold append. rewrite fmap_insert, lookup_fmap, render_app. by destruct (m !! name).
Qed.
Definition entries_on (m : gmap string (list AuditEntry)) : list AuditEntry := mjoin (map_to_list m).*2.
Lemma entries_on_insert name es m :
  entries_on (<[name := default [] (m !! name) ++ es]> m) ≡ₚ entries_on m ++ es.
Proof.
  unfold entries_on. rewrite <-insert_delete_eq, map_to_list_insert by apply lookup_delete_eq. simpl.
  destruct (m !! name) as [l|] eqn:E; simpl.
  - rewrite <-(insert_delete_id m name l E) at 2.
    rewrite map_to_list_insert by apply lookup_delete_eq. simpl.
    rewrite <-!app_assoc. f_equiv. apply Permutation_app_comm.
  - rewrite delete_id by done. apply Permutation_app_comm.
Qed.

Lemma filter_id {A} (P : A → Prop) `{∀ x, Decision (P x)} (l : list A) :
  (∀ x, x ∈ l → P x) → filter P l = l.
Proof.
  induction l as [|x l IH]; intros HP; [done|].
  rewrite filter_cons_True by (apply HP; by left). f_equal. apply IH. intros y Hy. apply HP. by right.
Qed.
Lemma read_files_ok l : read_files (λ _, None) l = Ok (mjoin (entries_of <$> l.*2)).
Proof. induction l as [|f l IH]; simpl; [done|]. by rewrite IH. Qed.
Lemma load_reads m s :
  map_Forall (λ name _, is_log_file name = true) m →
  ∃ es, load_from_disk (λ _, None) (render <$> m) s
      = (Ok tt, s <| entry_counter := foldl (λ m e, Z.max m (entry_number e)) 0 es |> <| log := es |>) ∧
    es ≡ₚ entries_on m.
Proof.
  intros Hm. unfold load_from_disk. rewrite read_files_ok. eexists. split; [done|].
  unfold log_files, entries_on. rewrite map_to_list_fmap, filter_id.
  - rewrite sort_by_name_perm, <-!list_fmap_compose.
    apply Permutation_refl'. f_equal. apply list_fmap_ext. intros i [n l] _. apply entries_of_render.
  - intros f ([n l] & -> & Hl%elem_of_map_to_list)%list_elem_of_fmap. by apply (Hm n l).
Qed.

(** ** The invariant of a run *)

Definition numbered (max : Z) e : Prop := ∃ n, 1 ≤ n ≤ max ∧ id e = "audit-" +:+ pad_zeros 10 n.
Record trail_ok (k : Z) (tr : Trail) : Prop := {
  trail_files : ∃ m, files tr = render <$> m ∧
    map_Forall (λ name _, is_log_file name = true) m ∧ entries_on m ≡ₚ logged tr ++ rotated tr;
  trail_ids : NoDup (id <$> logged tr);
  trail_numbered : ∀ e, e ∈ logged tr → numbered (entry_counter (shim tr)) e;
  trail_memory : ∀ e, e ∈ log (shim tr) ++ rotated tr → e ∈ logged tr;
  trail_counter : 0 ≤ entry_counter (shim tr) ≤ k
}.

Lemma is_log_daily t : is_log_file (daily_file t) = true.
Proof.
  unfold is_log_file, daily_file. apply andb_true_iff. split; [|apply starts_with_app].
  apply ends_with_spec. exists ("audit-" +:+ date_str t). by rewrite str_app_assoc.
Qed.
Lemma is_log_rotate t : is_log_file (rotate_file t) = true.
Proof.
  unfold is_log_file, rotate_file. apply andb_true_iff. split; [|apply starts_with_app].
  apply ends_with_spec. exists ("audit-" +:+ date_str t +:+ "-rotate-" +:+ time_str t).
  by rewrite !str_app_assoc.
Qed.
(** What a successful write of entries does to the files *)
Lemma files_grow (m : gmap string (list AuditEntry)) name es L R L' R' :
  is_log_file name = true →
  map_Forall (λ name _, is_log_file name = true) m →
  entries_on m ≡ₚ L ++ R → L' ++ R' ≡ₚ (L ++ R) ++ es →
  ∃ m', append name (render es) (render <$> m) = render <$> m' ∧
    map_Forall (λ name _, is_log_file name = true) m' ∧ entries_on m' ≡ₚ L' ++ R'.
Proof.
  intros Hn Hm He HL. exists (<[name := default [] (m !! name) ++ es]> m). split_and!.
  - apply append_render.
  - by apply map_Forall_insert_2.
  - by rewrite entries_on_insert, He, HL.
Qed.
Lemma rotate_log_ok t s d :
  ∃ d', rotate_log io_ok t s d = (Ok tt, s <| log := [] |>, d') ∧
    d' = if bool_decide (log s = []) then d else append (rotate_file t) (render (log s)) d.
Proof.
  unfold rotate_log. case_bool_decide as E; [|by eexists].
  eexists. split; [|done]. f_equal. f_equal. destruct s; simpl in *. by subst.
Qed.
Lemma entry_number_of n e : 0 ≤ n < 2 ^ 64 → id e = "audit-" +:+ pad_zeros 10 n → entry_number e = n.
Proof.
  intros Hn He. unfold entry_number. rewrite He, strip_prefix_app. unfold parse_u64.
  by rewrite parse_pad_zeros by lia.
Qed.
Lemma foldl_max_spec {A} (f : A → Z) l a :
  a ≤ foldl (λ m x, Z.max m (f x)) a l ∧
  (∀ x, x ∈ l → f x ≤ foldl (λ m x, Z.max m (f x)) a l) ∧
  (∀ b, a ≤ b → (∀ x, x ∈ l → f x ≤ b) → foldl (λ m x, Z.max m (f x)) a l ≤ b).
Proof.
  revert a. induction l as [|y l IH]; intros a; simpl.
  { split_and!; [lia|by intros ? ?%elem_of_nil|done]. }
  destruct (IH (Z.max a (f y))) as (H1 & H2 & H3). split_and!; [lia| |].
  - intros x [->|Hx]%elem_of_cons; [lia|by apply H2].
  - intros b Ha Hb. apply H3; [pose proof (Hb y (list_elem_of_here _ _)); lia|].
    intros x Hx. apply Hb. by right.
Qed.
Lemma numbered_mono a b e : a ≤ b → numbered a e → numbered b e.
Proof. intros H (n & ? & ?). exists n. split; [lia|done]. Qed.

(** A restart reads all the files and never lowers the counter below a logged id. *)
Lemma restart_spec k tr env c :
  k < 2 ^ 64 → trail_ok k tr →
  let s' := restart env c (files tr) in
  log s' ≡ₚ logged tr ++ rotated tr ∧ 0 ≤ entry_counter s' ≤ k ∧
  (∀ e, e ∈ logged tr → numbered (entry_counter s') e).
Proof.
  intros Hk [(m & Hd & Hm & He) Hids Hnum Hmem Hcnt]. unfold restart, init. rewrite Hd.
  edestruct (load_reads m) as (es & -> & Hes); [done|]. simpl.
  rewrite He in Hes. split; [done|].
  assert (∀ e, e ∈ es → ∃ n, 1 ≤ n ≤ entry_counter (shim tr) ∧ id e = "audit-" +:+ pad_zeros 10 n ∧ entry_number e = n) as Hn.
  { intros e H. rewrite Hes in H. assert (e ∈ logged tr) as HL.
    { apply elem_of_app in H as [H|H]; [done|]. apply Hmem, elem_of_app. by right. }
    destruct (Hnum e HL) as (n & Hn & Eid). exists n. split; [done|]. split; [done|].
    apply entry_number_of; [lia|done]. }
  destruct (foldl_max_spec entry_number es 0) as (H1 & H2 & H3). split; [split; [done|]|].
  - apply H3; [lia|]. intros e H. destruct (Hn e H) as (n & ? & _ & ->). lia.
  - intros e HL. assert (e ∈ es) as H by (rewrite Hes; apply elem_of_app; by left).
    destruct (Hn e H) as (n & ? & ? & Ee). exists n. split; [|done]. specialize (H2 e H). lia.
Qed.

Lemma log_entry_ok ck e s d :
  ∃ b s' d', log_entry log_io_ok ck e s d = (Ok b, s', d') ∧ entry_counter s' = entry_counter s ∧
    (b = false → d' = d ∧ log s' = log s) ∧
    (b = true →
      let d1 := append (daily_file (ck 1%nat)) (line e) d in
      (log s' = log s ++ [e] ∧ d' = d1) ∨
      (log s' = [] ∧ d' = append (rotate_file (ck 2%nat)) (render (log s ++ [e])) d1)).
Proof.
  unfold log_entry. destruct (_ <? _); [by do 3 eexists|].
  unfold write_to_disk, write_lines. simpl.
  assert (∀ s (b : bool), (if b then send_webhook None s else Ok tt) = Ok tt) as Hw.
  { intros s1 []; [|done]. unfold send_webhook. by repeat case_match. }
  rewrite Hw. destruct (_ <? _).
  - edestruct (rotate_log_ok (ck 2%nat)) as (d' & -> & Hd'). do 3 eexists. split; [done|].
    simpl in *. split_and!; [done|done|]. intros _. right. split; [done|]. rewrite Hd'.
    rewrite bool_decide_eq_false_2; [done|]. by intros ?%app_eq_nil%proj2.
  - do 3 eexists. split; [done|]. simpl. split_and!; [done|done|]. intros _. by left.
Qed.

Lemma create_entry_spec t a s e s1 :
  create_entry t a s = (e, s1) →
  entry_counter s1 = add64 (entry_counter s) 1 ∧ id e = "audit-" +:+ pad_zeros 10 (entry_counter s1) ∧
  log s1 = log s.
Proof. by intros [= <- <-]. Qed.

Lemma trail_step_ok k tr o :
  k + 1 < 2 ^ 64 → trail_ok k tr → trail_ok (k + 1) (trail_step tr o).
Proof.
  intros Hk H. pose proof H as [(m & Hd & Hm & He) Hids Hnum Hmem Hcnt].
  destruct o as [ck a|t|x|env c]; unfold trail_step.
  - destruct (create_entry (ck 3%nat) a (shim tr)) as [e s1] eqn:Ece.
    destruct (create_entry_spec _ _ _ _ _ Ece) as (Ec & Eid & Els).
    rewrite add64_small in Ec by (unfold in_u; lia).
    destruct (log_entry_ok ck e s1 (files tr)) as (b & s2 & d2 & -> & Ec2 & Hf & Ht).
    assert (∀ e', e' ∈ logged tr → numbered (entry_counter s2) e') as Hnum2.
    { intros e' He'. eapply numbered_mono; [|by apply Hnum]. lia. }
    destruct b; simpl.
    2:{ destruct (Hf eq_refl) as [-> El]. split; simpl; [by exists m|done|done| |lia].
        intros e' He'. apply Hmem. by rewrite El, Els in He'. }
    specialize (Ht eq_refl). simpl in Ht.
    assert (∀ e', e' ∈ log s1 ++ [e] → e' ∈ logged tr ++ [e]) as Hin.
    { intros e' [He'|He']%elem_of_app; apply elem_of_app; [left|by right].
      apply Hmem, elem_of_app. left. by rewrite <-Els. }
    split; simpl.
    + replace (line e) with (render [e]) in Ht by (simpl; by rewrite str_app_nil_r).
      assert (∃ m', append (daily_file (ck 1%nat)) (render [e]) (files tr) = render <$> m' ∧
        map_Forall (λ name _, is_log_file name = true) m' ∧
        entries_on m' ≡ₚ (logged tr ++ [e]) ++ rotated tr) as (m1 & E1 & Hm1 & He1).
      { rewrite Hd. eapply files_grow; [apply is_log_daily|done|exact He|].
        rewrite <-!app_assoc. f_equiv. apply Permutation_app_comm. }
      destruct Ht as [[El ->]|[El ->]]; rewrite El, E1.
      * rewrite bool_decide_eq_false_2 by (by intros ?%app_eq_nil%proj2). exists m1. by rewrite app_nil_r.
      * rewrite bool_decide_eq_true_2 by done. eapply files_grow; [apply is_log_rotate|done|exact He1|].
        by rewrite app_assoc.
    + rewrite fmap_app, NoDup_app. split_and!; [done| |apply NoDup_singleton].
      intros i (e' & -> & He')%list_elem_of_fmap Hi%list_elem_of_singleton.
      destruct (Hnum e' He') as (n & Hn & En). rewrite Eid, En in Hi.
      apply str_app_inj_l, pad_zeros_inj in Hi; lia.
    + intros e' [He'|He'%list_elem_of_singleton]%elem_of_app; [by apply Hnum2|].
      subst e'. exists (entry_counter s1). split; [lia|done].
    + intros e' [He'|[He'|He']%elem_of_app]%elem_of_app.
      * destruct Ht as [[El _]|[El _]]; rewrite El in He'; [by apply Hin|by apply elem_of_nil in He'].
      * apply elem_of_app. left. apply Hmem, elem_of_app. by right.
      * case_bool_decide; [by apply Hin|by apply elem_of_nil in He'].
    + lia.
  - unfold force_rotate. destruct (rotate_log_ok t (shim tr) (files tr)) as (d' & -> & Hd').
    split; simpl; [|done|done| |lia].
    + case_bool_decide as El; subst d'.
      * exists m. by rewrite El, app_nil_r.
      * rewrite Hd. eapply files_grow; [apply is_log_rotate|done|exact He|]. by rewrite app_assoc.
    + intros e. simpl. intros [?|?]%elem_of_app; apply Hmem, elem_of_app; auto.
  - split; simpl; [by exists m|done|done| |lia].
    intros e [[_ ?]%list_elem_of_filter|?]%elem_of_app; apply Hmem, elem_of_app; auto.
  - destruct (restart_spec k tr env c) as (Hl & Hc & Hn); [lia|done|].
    split; simpl; [by exists m|done|done| |lia].
    intros e [HL|HR]%elem_of_app; [|apply Hmem, elem_of_app; by right].
    rewrite Hl in HL. apply elem_of_app in HL as [?|?]; [done|]. apply Hmem, elem_of_app. by right.
Qed.

(** C30. The audit trail over restarts.  After any sequence of logged entries,
    rotations, retention clean-ups and restarts on a directory whose writes succeed,
    no id was given to two logged entries, and a process started on the directory has
    every entry ever logged, once more for each time it was rotated out of memory
    (rotation writes entries that the daily file already has, to a file that is loaded
    as well); what was cleaned up is back.  (For fewer than 2^64 operations.) *)
Theorem audit_trail env c os env' c' :
  Z.of_nat (length os) < 2 ^ 64 →
  let tr := trail_run env c os in
  NoDup (id <$> logged tr) ∧ log (restart env' c' (files tr)) ≡ₚ logged tr ++ rotated tr.
Proof.
  intros Hos tr.
  assert (∀ os tr k, k + Z.of_nat (length os) < 2 ^ 64 → trail_ok k tr →
    trail_ok (k + Z.of_nat (length os)) (foldl trail_step tr os)) as H.
  { clear. induction os as [|o os IH]; intros tr k Hk Htr; simpl.
    - by rewrite Z.add_0_r.
    - replace (k + Z.of_nat (S (length os))) with (k + 1 + Z.of_nat (length os)) by lia.
      apply IH; [simpl in Hk; lia|]. apply trail_step_ok; [simpl in Hk; lia|done]. }
  assert (trail_ok 0 (mkTrail (restart env c ∅) ∅ [] [])) as H0.
  { split; simpl; [exists ∅|..].
    - split_and!; [by rewrite fmap_empty|apply map_Forall_empty|done].
    - constructor.
    - by intros e ?%elem_of_nil.
    - intros e. unfold restart, init, load_from_disk, log_files. simpl. by intros ?%elem_of_nil.
    - unfold restart, init, load_from_disk, log_files. simpl. done. }
  apply (H os _ 0) in H0; [|lia]. fold (trail_run env c os) in H0. fold tr in H0.
  split; [apply H0|]. by eapply restart_spec.
Qed.

(** The totals count what was logged since the start, the successes and failures what
    is in memory. *)
Lemma stats_spec s :
  success_count (stats s) + failure_count (stats s) = Z.of_nat (length (log s)) ∧
  total_entries (stats s) = queries_logged s.
Proof.
  split; [|done]. unfold stats, count_success. simpl. induction (log s) as [|e l IH]; [done|].
  rewrite !filter_cons. destruct (success e); simpl; lia.
Qed.
(** A query gives the first matching entries, in the order of the log. *)
Lemma query_spec f s :
  query f s `sublist_of` log s ∧ (length (query f s) ≤ f_limit f)%nat ∧
  ∀ e, e ∈ query f s → matches f e = true.
Proof.
  unfold query. split_and!.
  - etrans; [apply sublist_take|apply sublist_filter].
  - rewrite length_take. lia.
  - intros e He. assert (e ∈ filter (λ e, matches f e = true) (log s)) as H.
    { eapply elem_of_sublist; [exact He|apply sublist_take]. }
    by apply list_elem_of_filter in H as [? _].
Qed.
End audit.

(** ** Runs *)
Section audit_runs.
#[local] Instance demo_rfc3339_i : Rfc3339 := decimal_rfc3339.
(** A codec: the fields as one number, between braces *)
#[local] Instance AuditEntry_eq_dec : EqDecision AuditEntry.
Proof. solve_decision. Defined.
Definition demo_fields (e : AuditEntry) : list positive :=
  [encode (id e); encode (timestamp e); encode (entry_database e); encode (operation e);
   encode (entry_table e); encode (entry_query e); encode (duration_ms e); encode (rows_affected e);
   encode (client_addr e); encode (entry_user e); encode (success e); encode (error e)].
Definition demo_entry (l : list positive) : option AuditEntry :=
  match l with
  | [a; b; c; d; f; g; h; i; j; k; m; n] =>
      a ← decode a; b ← decode b; c ← decode c; d ← decode d; f ← decode f; g ← decode g;
      h ← decode h; i ← decode i; j ← decode j; k ← decode k; m ← decode m; n ← decode n;
      Some (mkEntry a b c d f g h i j k m n)
  | _ => None
  end.
#[local] Instance AuditEntry_countable : Countable AuditEntry.
Proof.
  refine (inj_countable demo_fields demo_entry _).
  intros []. unfold demo_entry, demo_fields. by rewrite !decode_encode.
Defined.
Definition demo_encode (e : AuditEntry) : string := pretty (Npos (encode e)).
Definition demo_decode (s : string) : option AuditEntry :=
  x ← strip_prefix "{" s; y ← strip_suffix "}" x; z ← digits_value 0 y; decode (Z.to_pos z).
#[local] Instance demo_json : EntryJson.
Proof.
  refine {| to_json e := "{" +:+ demo_encode e +:+ "}"; from_json := demo_decode |}.
  - intros e. unfold demo_decode. rewrite strip_prefix_app. simpl. rewrite strip_suffix_app. simpl.
    unfold demo_encode. rewrite digits_value_pretty. simpl. apply decode_encode.
  - intros e. unfold avoids. rewrite !str_all_app. fold (avoids newline (demo_encode e)).
    rewrite (digits_avoid newline (demo_encode e) 0 (Z.of_N (Npos (encode e)))); [done|done|].
    apply digits_value_pretty.
  - intros e. apply trim_braces.
  - done.
Defined.
#[local] Instance demo_dates : DateFormat := {| date_str t := pretty (Z.to_N t); time_str t := "0" |}.

Definition demo_args (op : string) : EntryArgs := mkArgs op None None 5 None None None true None.
Definition demo_env : environment := {[ "AUDIT_MAX_ENTRIES" := "1" ]}.
Definition at_day (t : Z) : nat → Z := λ _, t.
Definition demo_ops : list AuditOp :=
  [OpLog (at_day 1) (demo_args "a"); OpLog (at_day 2) (demo_args "b"); OpRestart demo_env None;
   OpLog (at_day 3) (demo_args "c")].
(** Two entries, the second of which rotates: after a restart there are four in
    memory, the rotated ones between those of the daily files. *)
Example demo_restart :
  let tr := trail_run demo_env None (take 3 demo_ops) in
  (operation <$> log (shim tr), entry_counter (shim tr), (map_to_list (files tr)).*1)
  = (["a"; "a"; "b"; "b"], 2, ["audit-1.log"; "audit-2-rotate-0.log"; "audit-2.log"]).
Proof. vm_compute. done. Qed.
Lemma audit_trail_witness :
  let tr := trail_run demo_env None demo_ops in
  length (log (restart ∅ None (files tr))) = length (logged tr ++ rotated tr).
Proof.
  apply Permutation_length. apply (audit_trail demo_env None demo_ops ∅ None). vm_compute. done.
Defined.
End audit_runs.
