(* ===== verification/Cdc.v ===== *)
(** * Change data capture ([cdc-shim/src/lib.rs])

    [CdcShim]: capturing events, publishing them in batches, the ring of recent
    events, the WAL position, and one poll of each of the three sources.  JSON values,
    serialization, the retry loop of [loop-retry] and the answers of databases and
    servers are arguments. *)

From S2P Require Import Prelude Text.

Definition WAL_SEGMENT_SIZE : Z := 0x1000000.
Definition DEFAULT_RING_CAPACITY : nat := 1000.

(** [WebhookError]: [Display], and which errors are worth a retry *)
Inductive WebhookError := Http (status : Z) | HttpRetryable (status : Z) | Transport (msg : string).
Definition webhook_error_display (e : WebhookError) : string :=
  match e with
  | Http n => "HTTP " +:+ pretty n
  | HttpRetryable n => "HTTP " +:+ pretty n +:+ " (retryable)"
  | Transport m => m
  end.
Definition is_retryable (e : WebhookError) : bool := match e with Http _ => false | _ => true end.
(** The answer of one post, as the closure given to the retry loop classifies it *)
Definition classify_response (r : result string Z) : result WebhookError unit :=
  match r with
  | Err e => Err (Transport e)
  | Ok status =>
      if (200 <=? status) && (status <? 300) then Ok tt
      else if (status =? 429) || (500 <=? status) then Err (HttpRetryable status)
      else Err (Http status)
  end.

(** [CdcOperation] *)
Inductive CdcOperation := Insert | Update | Delete.
#[export] Instance CdcOperation_eq_dec : EqDecision CdcOperation.
Proof. solve_decision. Defined.
Definition cdc_operation_display (o : CdcOperation) : string :=
  match o with Insert => "insert" | Update => "update" | Delete => "delete" end.
Definition cdc_operation_from_str (s : string) : result string CdcOperation :=
  let l := to_lowercase s in
  if bool_decide (l ∈ ["insert"; "i"]) then Ok Insert
  else if bool_decide (l ∈ ["update"; "u"]) then Ok Update
  else if bool_decide (l ∈ ["delete"; "d"]) then Ok Delete
  else Err ("Unknown CDC operation: " +:+ s).
Lemma cdc_operation_roundtrip o : cdc_operation_from_str (cdc_operation_display o) = Ok o.
Proof. by destruct o. Qed.

(** JSON objects of strings and numbers, as [json!] builds them *)
Class JsonObject := { json : Type; json_object : list (string * (string + Z)) → json }.

Record WalPosition := mkWal { lsn : string; segment : Z; offset : Z; last_flush : string }.
#[export] Instance WalPosition_settable : Settable WalPosition := λ w,
  mkWal (lsn w) (segment w) (offset w) (last_flush w).

Section cdc.
Context `{JO : JsonObject} `{RF : Rfc3339}.

Record CdcEvent := mkEvent {
  event_id : string;
  event_lsn : string;
  event_timestamp : string;
  table : string;
  operation : CdcOperation;
  before : option json;
  after : option json;
  published : bool
}.
#[export] Instance CdcEvent_settable : Settable CdcEvent := λ e,
  mkEvent (event_id e) (event_lsn e) (event_timestamp e) (table e) (operation e) (before e) (after e) (published e).
Record CdcStats := mkStats {
  st_captured : Z;
  st_published : Z;
  st_failed : Z;
  events_by_table : gmap string Z;
  events_by_operation : gmap string Z;
  st_lag_seconds : f64
}.

(** [CdcShim], less the shutdown channel *)
Record CdcShim := mkCdc {
  output : string;
  tables : list string;
  format : string;
  compression : string;
  kafka_brokers : option string;
  kafka_topic : option string;
  webhook_url : option string;
  db_type : string;
  batch_size : Z;
  publish_interval_secs : Z;
  events_captured : Z;
  events_published : Z;
  events_failed : Z;
  lag_seconds : f64;
  wal_position : WalPosition;
  pending_events : list CdcEvent;
  published_ring : list CdcEvent;
  ring_capacity : nat;
  event_counter : Z;
  table_filter_enabled : bool;
  http_client : bool
}.
#[export] Instance CdcShim_settable : Settable CdcShim := λ s,
  mkCdc (output s) (tables s) (format s) (compression s) (kafka_brokers s) (kafka_topic s) (webhook_url s)
    (db_type s) (batch_size s) (publish_interval_secs s) (events_captured s) (events_published s)
    (events_failed s) (lag_seconds s) (wal_position s) (pending_events s) (published_ring s)
    (ring_capacity s) (event_counter s) (table_filter_enabled s) (http_client s).
Implicit Types (s : CdcShim) (e : CdcEvent) (now : Z).

Definition new_cdc now (env : environment) : CdcShim :=
  let tables := trim <$> filter (λ x, x ≠ "") (split_on "," (env_or env "CDC_TABLES" "")) in
  {| output := env_or env "CDC_OUTPUT" "kafka";
     tables := tables;
     format := env_or env "CDC_FORMAT" "json";
     compression := env_or env "CDC_COMPRESSION" "none";
     kafka_brokers := env !! "CDC_KAFKA_BROKERS";
     kafka_topic := env !! "CDC_KAFKA_TOPIC";
     webhook_url := env !! "CDC_WEBHOOK_URL";
     db_type := env_or env "CDC_DB_TYPE" "postgres";
     batch_size := env_parse env "CDC_BATCH_SIZE" parse_usize 100;
     publish_interval_secs := env_parse env "CDC_PUBLISH_INTERVAL" parse_u64 10;
     events_captured := 0;
     events_published := 0;
     events_failed := 0;
     lag_seconds := f64_of_Z 0;
     wal_position := mkWal "0/0" 0 0 (to_rfc3339 now);
     pending_events := [];
     published_ring := [];
     ring_capacity := DEFAULT_RING_CAPACITY;
     event_counter := 0;
     table_filter_enabled := negb (bool_decide (tables = []));
     http_client := false |}.

(** ** Capturing *)

Definition should_capture (t : string) s : bool :=
  negb (table_filter_enabled s)
  || existsb (λ x, bool_decide (to_lowercase x = to_lowercase t)) (tables s).
Definition create_event now (t : string) (op : CdcOperation) (b a : option json) s : CdcEvent * CdcShim :=
  let s := s <| event_counter ::= λ n, add64 n 1 |> in
  (mkEvent ("cdc-" +:+ pad_zeros 10 (event_counter s)) (lsn (wal_position s)) (to_rfc3339 now) t op b a false, s).
Definition capture e s : bool * CdcShim :=
  if should_capture (table e) s then
    (true, s <| events_captured ::= λ n, add64 n 1 |>
             <| pending_events ::= λ l, l ++ [e <| event_lsn := lsn (wal_position s) |>] |>)
  else (false, s).

(** ** Publishing *)

Definition push_to_ring e s : CdcShim :=
  s <| published_ring ::= λ l,
    (if bool_decide (ring_capacity s ≤ length l)%nat then tail l else l) ++ [e] |>.

(** Whether an event serializes, and what the retry loop makes of its delivery: a
    function from the answers of the successive posts *)
Record Transport_ := mkTransport {
  serialize : CdcEvent → option string;
  with_backoff : (nat → result WebhookError unit) → result WebhookError unit;
  post : CdcEvent → nat → result string Z
}.
Definition delivered (tr : Transport_) e : bool :=
  match serialize tr e with
  | Some _ => is_ok (with_backoff tr (λ i, classify_response (post tr e i)))
  | None => false
  end.
Definition publish_via_webhook (tr : Transport_) (events : list CdcEvent) s : Z :=
  match webhook_url s with
  | None => 0
  | Some _ =>
      if http_client s then foldl (λ n e, if delivered tr e then add64 n 1 else n) 0 events else 0
  end.
(** The two loops of [publish_batch] over the batch *)
Definition settle_webhook (n : Z) s e : CdcShim :=
  if 0 <? n then push_to_ring e (s <| events_published ::= λ k, add64 k 1 |>)
  else s <| events_failed ::= λ k, add64 k 1 |>.
Definition settle_log (tr : Transport_) s e : CdcShim :=
  push_to_ring e
    match serialize tr e with
    | Some _ => s <| events_published ::= λ k, add64 k 1 |>
    | None => s <| events_failed ::= λ k, add64 k 1 |>
    end.
Definition batch_of s : list CdcEvent :=
  take (Z.to_nat (Z.min (batch_size s) (Z.of_nat (length (pending_events s))))) (pending_events s).
Definition publish_batch (tr : Transport_) now s : Z * CdcShim :=
  let batch := batch_of s in
  let s := s <| pending_events ::= drop (length batch) |> in
  let count := Z.of_nat (length batch) in
  if count =? 0 then (0, s)
  else
    let s :=
      if bool_decide (output s = "webhook")
      then foldl (settle_webhook (publish_via_webhook tr batch s)) s batch
      else foldl (settle_log tr) s batch in
    (count, s <| wal_position ::= λ w, w <| last_flush := to_rfc3339 now |> |>).

Definition fail_pending s : Z * CdcShim :=
  let count := Z.of_nat (length (pending_events s)) in
  (count, s <| events_failed ::= λ k, add64 k count |> <| pending_events := [] |>).

(** [publish_via_log], [publish_via_kafka], [publish_via_nats]: not called by
    [publish_batch]; [ok] is whether a post succeeds. *)
Definition publish_via_log (tr : Transport_) (events : list CdcEvent) : Z :=
  foldl (λ n e, if bool_decide (is_Some (serialize tr e)) then add64 n 1 else n) 0 events.
Definition publish_via_kafka (env : environment) (tr : Transport_) (ok : string → CdcEvent → bool)
    (events : list CdcEvent) : Z :=
  match env !! "CDC_KAFKA_BROKERS", env !! "CDC_KAFKA_TOPIC" with
  | Some _, Some topic =>
      foldl (λ n e,
        match serialize tr e with
        | Some _ =>
            match env !! "CDC_KAFKA_REST_URL" with
            | Some rest => if ok (rest +:+ "/topics/" +:+ topic) e then add64 n 1 else n
            | None => add64 n 1
            end
        | None => n
        end) 0 events
  | _, _ => publish_via_log tr events
  end.
Definition publish_via_nats (env : environment) (tr : Transport_) (ok : string → CdcEvent → bool)
    (events : list CdcEvent) : Z :=
  match env !! "CDC_NATS_URL" with
  | Some url =>
      let subject := env_or env "CDC_NATS_SUBJECT" "cdc.events" in
      foldl (λ n e,
        match serialize tr e with
        | Some _ => if ok (url +:+ "/pub/" +:+ subject) e then add64 n 1 else n
        | None => n
        end) 0 events
  | None => publish_via_log tr events
  end.

(** ** Positions and statistics *)

Definition set_wal_position now (l : string) (seg off : Z) s : CdcShim :=
  s <| wal_position := mkWal l seg off (to_rfc3339 now) |>.
Definition advance_wal (delta : Z) s : CdcShim :=
  let w := wal_position s in
  let off := add64 (offset w) delta in
  let '(seg, off) := if WAL_SEGMENT_SIZE <=? off then (add64 (segment w) 1, 0) else (segment w, off) in
  s <| wal_position := mkWal (pretty seg +:+ "/" +:+ pretty off) seg off (last_flush w) |>.
Definition set_lag (x : f64) s : CdcShim := s <| lag_seconds := x |>.
Definition pending_count s : Z := Z.of_nat (length (pending_events s)).
Definition count_by (f : CdcEvent → string) (l : list CdcEvent) : gmap string Z :=
  foldl (λ m e, <[f e := default 0 (m !! f e) + 1]> m) ∅ l.
Definition stats s : CdcStats :=
  mkStats (events_captured s) (events_published s) (events_failed s)
    (count_by table (pending_events s)) (count_by (λ e, cdc_operation_display (operation e)) (pending_events s))
    (lag_seconds s).
(** [built] is whether the HTTP client can be built. *)
Definition init (built : bool) s : result string unit * CdcShim :=
  if bool_decide (output s = "webhook") then
    if built then (Ok tt, s <| http_client := true |>) else (Err "Failed to create HTTP client", s)
  else (Ok tt, s).
Definition cdc_metrics s : list (string * f64) :=
  [("cdc_events_captured_total", f64_of_Z (events_captured s));
   ("cdc_events_published_total", f64_of_Z (events_published s));
   ("cdc_events_failed_total", f64_of_Z (events_failed s));
   ("cdc_lag_seconds", lag_seconds s);
   ("cdc_pending_events", f64_of_Z (pending_count s))].

(** ** Sources: one poll, with the position the loop keeps *)

Definition parse_lsn (l : string) : Z :=
  match split_on "/" l with
  | [upper; lower] =>
      match parse_u64 upper, parse_u64 lower with
      | Some u, Some v => Z.lor (wrap 64 (Z.shiftl u 32)) v
      | _, _ => 0
      end
  | _ => 0
  end.
Definition millis now : string := pretty (now / 10 ^ 6).
Definition pg_event now (l : string) (diff : Z) : CdcEvent :=
  mkEvent ("pg-cdc-" +:+ millis now) l (to_rfc3339 now) "pg_stat_replication" Update None
    (Some (json_object [("lsn", inl l); ("bytes_advanced", inr diff)])) false.
Definition pg_poll now (row : option string) (st : Z * CdcShim) : Z * CdcShim :=
  let '(pos, s) := st in
  match row with
  | Some l =>
      let new := parse_lsn l in
      if pos <? new then (new, (capture (pg_event now l (new - pos)) s).2) else st
  | None => st
  end.
Definition mariadb_event now (file : string) (pos diff : Z) : CdcEvent :=
  mkEvent ("mysql-cdc-" +:+ millis now) (file +:+ ":" +:+ pretty pos) (to_rfc3339 now) "binlog" Update None
    (Some (json_object [("binlog_file", inl file); ("position", inr pos); ("bytes_advanced", inr diff)])) false.
Definition tab : ascii := ascii_of_nat 9.
Definition mariadb_poll now (row : option string) (st : Z * CdcShim) : Z * CdcShim :=
  let '(last, s) := st in
  match row with
  | Some file_pos =>
      match split_on tab file_pos with
      | file :: p :: _ =>
          match parse_u64 p with
          | Some pos => if last <? pos then (pos, (capture (mariadb_event now file pos (pos - last)) s).2) else st
          | None => st
          end
      | _ => st
      end
  | None => st
  end.
(** One key of the Redis scan, with its type and time to live *)
Definition redis_key now (key val_type : string) (ttl : Z) (st : gmap string string * CdcShim)
    : gmap string string * CdcShim :=
  let '(prev, s) := st in
  let checksum := val_type +:+ ":" +:+ pretty ttl in
  if bool_decide (prev !! key = Some checksum) then st
  else
    let op := if bool_decide (prev !! key = None) then Insert else Update in
    let e := mkEvent ("redis-cdc-" +:+ millis now) ("redis:" +:+ key) (to_rfc3339 now) "redis" op
               ((λ c, json_object [("checksum", inl c)]) <$> prev !! key)
               (Some (json_object [("key", inl key); ("type", inl val_type); ("ttl", inr ttl)])) false in
    (<[key := checksum]> prev, (capture e s).2).

(** ** Every captured event is accounted for *)

Inductive CdcOp :=
| OpInit (built : bool)
| OpCapture e
| OpPublish (tr : Transport_) now
| OpFail
| OpWal now (l : string) (seg off : Z)
| OpAdvance (delta : Z)
| OpLag (x : f64).
(** The events accepted, taken out of the queue, counted as published, and put into
    the ring *)
Record Ghost := mkGhost {
  accepted : list CdcEvent; taken : list CdcEvent; counted : list CdcEvent; ringed : list CdcEvent
}.
Definition no_events : Ghost := mkGhost [] [] [] [].
(** Whether one event of the next batch reaches the webhook *)
Definition reached (tr : Transport_) s : bool :=
  bool_decide (is_Some (webhook_url s)) && http_client s && existsb (delivered tr) (batch_of s).
Definition counted_by (tr : Transport_) s : list CdcEvent :=
  if bool_decide (output s = "webhook") then (if reached tr s then batch_of s else [])
  else filter (λ e, is_Some (serialize tr e)) (batch_of s).
Definition ringed_by (tr : Transport_) s : list CdcEvent :=
  if bool_decide (output s = "webhook") then (if reached tr s then batch_of s else []) else batch_of s.
Definition cdc_step (st : Ghost * CdcShim) (o : CdcOp) : Ghost * CdcShim :=
  let '(g, s) := st in
  match o with
  | OpInit built => (g, (init built s).2)
  | OpCapture e =>
      let '(b, s') := capture e s in
      (mkGhost (accepted g ++ if b then [e <| event_lsn := lsn (wal_position s) |>] else [])
         (taken g) (counted g) (ringed g), s')
  | OpPublish tr now =>
      (mkGhost (accepted g) (taken g ++ batch_of s) (counted g ++ counted_by tr s) (ringed g ++ ringed_by tr s),
       (publish_batch tr now s).2)
  | OpFail => (mkGhost (accepted g) (taken g ++ pending_events s) (counted g) (ringed g), (fail_pending s).2)
  | OpWal now l seg off => (g, set_wal_position now l seg off s)
  | OpAdvance d => (g, advance_wal d s)
  | OpLag x => (g, set_lag x s)
  end.
Definition cdc_run (os : list CdcOp) s : Ghost * CdcShim := foldl cdc_step (no_events, s) os.

Record accounted (g : Ghost) s : Prop := {
  acc_events : accepted g = taken g ++ pending_events s;
  acc_captured : events_captured s = wrap 64 (Z.of_nat (length (accepted g)));
  acc_published : events_published s = wrap 64 (Z.of_nat (length (counted g)));
  acc_failed : events_failed s = wrap 64 (Z.of_nat (length (taken g)) - Z.of_nat (length (counted g)));
  acc_ring : published_ring s = drop (length (ringed g) - ring_capacity s) (ringed g);
  acc_capacity : ring_capacity s = DEFAULT_RING_CAPACITY;
  acc_batch : batch_size s < 2 ^ 64
}.

Lemma batch_of_take s : batch_of s = take (length (batch_of s)) (pending_events s).
Proof. unfold batch_of at 1. rewrite <-(firstn_all (take _ _)), take_take. unfold batch_of. f_equal.
  rewrite length_take. lia. Qed.
(** Pushing keeps the last [ring_capacity] of what was pushed. *)
Lemma push_ring_suffix e s l :
  (0 < ring_capacity s)%nat → published_ring s = drop (length l - ring_capacity s) l →
  published_ring (push_to_ring e s) = drop (length (l ++ [e]) - ring_capacity s) (l ++ [e]).
Proof.
  intros Hc E. unfold push_to_ring. simpl. rewrite E, length_drop, length_app. simpl.
  case_bool_decide as H.
  - rewrite drop_app_le by lia. f_equal.
    replace (length l + 1 - ring_capacity s)%nat with (length l - ring_capacity s + 1)%nat by lia.
    rewrite <-drop_drop. by destruct (drop (length l - ring_capacity s) l).
  - replace (length l - ring_capacity s)%nat with 0%nat by lia.
    replace (length l + 1 - ring_capacity s)%nat with 0%nat by lia. done.
Qed.

Lemma wrap_idem w z : wrap w (wrap w z) = wrap w z.
Proof. pose proof (wrap_add_l w z 0) as H. by rewrite !Z.add_0_r in H. Qed.
Lemma parse_unsigned_le hi x z : parse_unsigned hi x = Some z → z ≤ hi.
Proof.
  unfold parse_unsigned. intros H. case_match; [|done].
  match type of H with context [?a <=? hi] => destruct (Z.leb_spec a hi) end; congruence.
Qed.

(** The loops over a batch: the events of [c] are counted as published, the others as
    failed, and they enter the ring or not. *)
Record settled s s' (l c r : list CdcEvent) : Prop := {
  settled_pending : pending_events s' = pending_events s;
  settled_captured : events_captured s' = events_captured s;
  settled_capacity : ring_capacity s' = ring_capacity s;
  settled_batch : batch_size s' = batch_size s;
  settled_published : wrap 64 (events_published s') = wrap 64 (events_published s + Z.of_nat (length c));
  settled_failed :
    wrap 64 (events_failed s') = wrap 64 (events_failed s + (Z.of_nat (length l) - Z.of_nat (length c)));
  settled_u64 : in_u 64 (events_published s) → in_u 64 (events_failed s) →
    in_u 64 (events_published s') ∧ in_u 64 (events_failed s');
  settled_ring : ∀ g, (0 < ring_capacity s)%nat →
    published_ring s = drop (length g - ring_capacity s) g →
    published_ring s' = drop (length (g ++ r) - ring_capacity s) (g ++ r)
}.
Lemma settled_nil s : settled s s [] [] [].
Proof. split; try done; intros; by rewrite ?Z.add_0_r, ?app_nil_r. Qed.
Lemma settled_app s s1 s2 l1 l2 c1 c2 r1 r2 :
  settled s s1 l1 c1 r1 → settled s1 s2 l2 c2 r2 → settled s s2 (l1 ++ l2) (c1 ++ c2) (r1 ++ r2).
Proof.
  intros [A1 A2 A3 A4 A5 A6 A7 A8] [B1 B2 B3 B4 B5 B6 B7 B8]. split; try congruence.
  - rewrite B5, length_app, <-wrap_add_l, A5, wrap_add_l. f_equal. lia.
  - rewrite B6, !length_app, <-wrap_add_l, A6, wrap_add_l. f_equal. lia.
  - intros H1 H2. destruct (A7 H1 H2). by apply B7.
  - intros g Hc Hr. rewrite app_assoc, <-A3. apply B8; [by rewrite A3|]. rewrite A3. by apply A8.
Qed.
Lemma settle_log_step tr s e :
  settled s (settle_log tr s e) [e] (filter (λ e, is_Some (serialize tr e)) [e]) [e].
Proof.
  rewrite filter_cons, filter_nil. unfold settle_log. destruct (serialize tr e).
  1: rewrite decide_True by by eexists. 2: rewrite decide_False by by intros [].
  all: split; try done; simpl; rewrite ?Z.add_0_r; unfold add64; rewrite ?wrap_idem; try done.
  all: try by (intros; split; try done; apply wrap_range).
  all: intros g Hc Hr; by apply (push_ring_suffix e s).
Qed.
Lemma settle_webhook_step n s e (b := 0 <? n) :
  settled s (settle_webhook n s e) [e] (if b then [e] else []) (if b then [e] else []).
Proof.
  unfold settle_webhook, b. destruct (0 <? n).
  all: split; try done; simpl; rewrite ?Z.add_0_r; unfold add64; rewrite ?wrap_idem; try done.
  all: try by (intros; split; try done; apply wrap_range).
  - intros g Hc Hr. by apply (push_ring_suffix e s).
  - intros g Hc Hr. by rewrite app_nil_r.
Qed.
Lemma settle_log_fold tr l s :
  settled s (foldl (settle_log tr) s l) l (filter (λ e, is_Some (serialize tr e)) l) l.
Proof.
  revert s. induction l as [|e l IH]; intros s; simpl; [apply settled_nil|].
  change (e :: l) with ([e] ++ l). rewrite filter_app.
  eapply settled_app; [apply settle_log_step|apply IH].
Qed.
Lemma settle_webhook_fold n l s (b := 0 <? n) :
  settled s (foldl (settle_webhook n) s l) l (if b then l else []) (if b then l else []).
Proof.
  revert s. induction l as [|e l IH]; intros s; simpl; [destruct b; apply settled_nil|].
  pose proof (settled_app _ _ _ _ _ _ _ _ _ (settle_webhook_step n s e) (IH (settle_webhook n s e))) as H.
  unfold b in *. by destruct (0 <? n).
Qed.
Lemma batch_is_prefix s : batch_of s ++ drop (length (batch_of s)) (pending_events s) = pending_events s.
Proof. rewrite (batch_of_take s) at 1. apply take_drop. Qed.

Lemma count_delivered tr l n :
  in_u 64 n → in_u 64 (n + Z.of_nat (length (filter (λ e, delivered tr e = true) l))) →
  foldl (λ n e, if delivered tr e then add64 n 1 else n) n l
  = n + Z.of_nat (length (filter (λ e, delivered tr e = true) l)).
Proof.
  revert n. induction l as [|e l IH]; intros n Hn Hl; simpl; [by rewrite Z.add_0_r|].
  rewrite filter_cons in *. destruct (delivered tr e) eqn:E; simpl in *.
  - rewrite add64_small by (unfold in_u in *; lia). rewrite IH; unfold in_u in *; lia.
  - by apply IH.
Qed.
Lemma batch_small s : batch_size s < 2 ^ 64 → Z.of_nat (length (batch_of s)) < 2 ^ 64.
Proof. unfold batch_of. rewrite length_take. lia. Qed.
Lemma existsb_filter (f : CdcEvent → bool) l :
  existsb f l = (0 <? Z.of_nat (length (filter (λ e, f e = true) l))).
Proof.
  induction l as [|e l IH]; [done|]. rewrite filter_cons. simpl. destruct (f e) eqn:E; simpl; [|by rewrite IH].
  symmetry. apply Z.ltb_lt. lia.
Qed.
(** The count of delivered events is positive exactly if one reached the webhook. *)
Lemma publish_via_webhook_reached tr s s0 :
  batch_size s < 2 ^ 64 → webhook_url s0 = webhook_url s → http_client s0 = http_client s →
  (0 <? publish_via_webhook tr (batch_of s) s0) = reached tr s.
Proof.
  intros Hb Hu Hc. pose proof (batch_small s Hb). unfold publish_via_webhook, reached. rewrite Hu, Hc.
  destruct (webhook_url s) as [u|]; [|by rewrite bool_decide_eq_false_2 by by intros []].
  rewrite bool_decide_eq_true_2 by by eexists. destruct (http_client s); [|done].
  assert (length (filter (λ e, delivered tr e = true) (batch_of s)) ≤ length (batch_of s))%nat
    by apply length_filter.
  rewrite count_delivered by (unfold in_u; lia). simpl. by rewrite existsb_filter.
Qed.
(** One publication takes the batch out of the queue and settles it. *)
Lemma publish_batch_settles tr now s :
  batch_size s < 2 ^ 64 →
  settled (s <| pending_events ::= drop (length (batch_of s)) |>) (publish_batch tr now s).2
    (batch_of s) (counted_by tr s) (ringed_by tr s).
Proof.
  intros Hb. unfold publish_batch, counted_by, ringed_by.
  set (s0 := s <| pending_events ::= drop (length (batch_of s)) |>).
  destruct (Z.eqb_spec (Z.of_nat (length (batch_of s))) 0) as [E|E].
  { assert (batch_of s = []) as Eb by (apply length_zero_iff_nil; lia). rewrite Eb.
    destruct (bool_decide _), (reached tr s); apply settled_nil. }
  change (output s0) with (output s). cbn [snd].
  assert (∀ s' l c r, settled s0 s' l c r →
    settled s0 (s' <| wal_position ::= λ w, w <| last_flush := to_rfc3339 now |> |>) l c r) as Hw by by intros s' l c r [].
  apply Hw. case_bool_decide; [|apply settle_log_fold].
  rewrite <-(publish_via_webhook_reached tr s s0) by done. apply settle_webhook_fold.
Qed.
Lemma init_frame built s :
  (init built s).2 = s ∨ (init built s).2 = s <| http_client := true |>.
Proof. unfold init. case_bool_decide; [destruct built|]; auto. Qed.

Lemma cdc_step_accounted o g s :
  accounted g s → accounted (cdc_step (g, s) o).1 (cdc_step (g, s) o).2.
Proof.
  intros [H1 H2 H3 H4 H5 H6 H7].
  assert (0 < ring_capacity s)%nat by (rewrite H6; unfold DEFAULT_RING_CAPACITY; lia).
  assert (in_u 64 (events_published s) ∧ in_u 64 (events_failed s)) as [U1 U2]
    by (rewrite H3, H4; split; by apply wrap_range).
  destruct o as [built|e|tr now| |now l seg off|d|x]; simpl.
  - destruct (init_frame built s) as [-> | ->]; by split.
  - unfold capture. destruct (should_capture _ _); simpl; split; simpl; rewrite ?app_nil_r; try done.
    + by rewrite H1, app_assoc.
    + rewrite H2, length_app. unfold add64. rewrite wrap_add_l. f_equal. simpl. lia.
  - destruct (publish_batch_settles tr now s H7) as [S1 S2 S3 S4 S5 S6 S7 S8]. simpl in *.
    destruct (S7 U1 U2) as [V1 V2]. split; simpl; [..|congruence|congruence].
    + rewrite S1, H1, <-app_assoc. f_equal. symmetry. apply batch_is_prefix.
    + by rewrite S2.
    + rewrite <-(wrap_small 64 (events_published _)), S5, H3, wrap_add_l, length_app by done. f_equal. lia.
    + rewrite <-(wrap_small 64 (events_failed _)), S6, H4, wrap_add_l, !length_app by done. f_equal. lia.
    + rewrite S3. by apply S8.
  - split; simpl; rewrite ?app_nil_r; try done. unfold add64. rewrite H4, wrap_add_l, length_app. f_equal. lia.
  - by split.
  - unfold advance_wal. case_match. by split.
  - by split.
Qed.
Lemma new_cdc_accounted now env : accounted no_events (new_cdc now env).
Proof.
  split; try done. simpl. unfold env_parse. destruct (env !! "CDC_BATCH_SIZE") as [v|]; [|done]. simpl.
  destruct (parse_usize v) as [z|] eqn:E; [|done]. apply parse_unsigned_le in E. simpl. lia.
Qed.

(** C34. Every captured event is accounted for.  After any sequence of calls on a new
    shim, initializations (whether or not the HTTP client can be built), captures,
    publications over any transport, failures of the queue and position updates, the
    events accepted are, in order, those taken out of the queue followed by those
    pending.  The captured counter counts the accepted events.  The published counter
    counts, of the events taken, every event of a webhook batch of which one event was
    delivered (which needs a URL and the client) and, with any other output, those that
    serialize; the failed counter counts the remaining ones taken.  The ring holds the last
    thousand of the events of those webhook batches and of all events published with
    another output.  Counters are modulo 2^64. *)
Theorem cdc_accounting now env os g s :
  cdc_run os (new_cdc now env) = (g, s) →
  accepted g = taken g ++ pending_events s ∧
  events_captured s = wrap 64 (Z.of_nat (length (accepted g))) ∧
  events_published s = wrap 64 (Z.of_nat (length (counted g))) ∧
  events_failed s = wrap 64 (Z.of_nat (length (taken g)) - Z.of_nat (length (counted g))) ∧
  published_ring s = drop (length (ringed g) - 1000) (ringed g).
Proof.
  intros H. assert (accounted g s) as [H1 H2 H3 H4 H5 H6 _]; [|by rewrite H6 in H5].
  pose proof (new_cdc_accounted now env) as H0. revert H H0. unfold cdc_run.
  generalize no_events (new_cdc now env).
  induction os as [|o os IH]; intros g0 s0 H H0; [by simplify_eq/=|]. cbn [foldl] in H.
  destruct (cdc_step (g0, s0) o) as [g1 s1] eqn:E. apply (IH g1 s1 H).
  pose proof (cdc_step_accounted o g0 s0 H0) as H1. by rewrite E in H1.
Qed.

Lemma webhook_counts n l s :
  l ≠ [] →
  let s' := foldl (settle_webhook n) s l in
  let k := Z.of_nat (length l) in
  pending_events s' = pending_events s ∧
  events_published s' = (if 0 <? n then wrap 64 (events_published s + k) else events_published s) ∧
  events_failed s' = (if 0 <? n then events_failed s else wrap 64 (events_failed s + k)).
Proof.
  revert s. induction l as [|e l IH]; intros s Hl; [done|]. simpl.
  destruct l as [|e' l]; [unfold settle_webhook; by destruct (0 <? n)|].
  destruct (IH (settle_webhook n s e)) as (-> & -> & ->); [done|].
  unfold settle_webhook, add64. destruct (0 <? n); simpl; rewrite ?wrap_add_l; split_and!; try done;
    f_equal; simpl; lia.
Qed.

(** A webhook batch succeeds or fails as a whole.  If at least one event of the
    batch was delivered, every event of it is counted as published and put into the
    ring, the undelivered ones too; if none was, or there is no URL or client, all are
    counted as failed.  Either way the batch leaves the queue: nothing is retried
    later. *)
Theorem webhook_all_or_nothing tr now s n s' :
  output s = "webhook" → batch_of s ≠ [] →
  Z.of_nat (length (batch_of s)) < 2 ^ 64 →
  publish_batch tr now s = (n, s') →
  let sent := filter (λ e, delivered tr e = true) (batch_of s) in
  let some := is_Some (webhook_url s) ∧ http_client s = true ∧ sent ≠ [] in
  let k := Z.of_nat (length (batch_of s)) in
  pending_events s = batch_of s ++ pending_events s' ∧ n = k ∧
  (some → events_published s' = wrap 64 (events_published s + k) ∧ events_failed s' = events_failed s) ∧
  (¬ some → events_failed s' = wrap 64 (events_failed s + k) ∧ events_published s' = events_published s).
Proof.
  intros Ho Hne Hlen H sent some k. unfold publish_batch in H.
  assert (0 < length (batch_of s))%nat as Hpos by (destruct (batch_of s); [done|simpl; lia]).
  destruct (Z.eqb_spec (Z.of_nat (length (batch_of s))) 0) as [E|E]; [lia|].
  set (s0 := s <| pending_events ::= drop (length (batch_of s)) |>) in H.
  change (output s0) with (output s) in H. rewrite bool_decide_eq_true_2 in H by done.
  assert (publish_via_webhook tr (batch_of s) s0
    = if bool_decide (is_Some (webhook_url s) ∧ http_client s = true) then Z.of_nat (length sent) else 0) as Ep.
  { unfold publish_via_webhook. simpl. destruct (webhook_url s) as [u|].
    2:{ rewrite bool_decide_eq_false_2; [done|]. by intros [[? ?] ?]. }
    destruct (http_client s); [|rewrite bool_decide_eq_false_2; [done|]; by intros [? ?]].
    rewrite bool_decide_eq_true_2 by (split; [by eexists|done]).
    rewrite count_delivered; [by rewrite Z.add_0_l|unfold in_u; lia|]. fold sent.
    assert (length sent ≤ length (batch_of s))%nat by apply length_filter. unfold in_u. lia. }
  destruct (webhook_counts (publish_via_webhook tr (batch_of s) s0) (batch_of s) s0 Hne) as (C1 & C2 & C3).
  injection H as <- <-. simpl. rewrite C1, C2, C3. split_and!; [symmetry; apply batch_is_prefix|done| |].
  - intros (H1 & H2 & H3). rewrite Ep, bool_decide_eq_true_2 by done.
    destruct (Z.ltb_spec 0 (Z.of_nat (length sent))); [done|]. destruct sent; [done|simpl in *; lia].
  - intros Hn. rewrite Ep. case_bool_decide as Hb; [|done].
    assert (sent = [] ∨ sent ≠ []) as [Hs|Hs] by (destruct sent; auto); [by rewrite Hs|].
    destruct Hn. destruct Hb. by split_and!.
Qed.

(** The PostgreSQL source does not see positions.  A log position is written in
    hexadecimal and [parse_lsn] reads decimal: as long as every polled position has a
    hexadecimal letter, no poll captures anything, and where the positions do parse an
    event is captured for each increase over the largest so far, its number of bytes
    being the increase. *)
Theorem pg_poll_spec now l pos s :
  let '(pos', s') := pg_poll now (Some l) (pos, s) in
  ((∃ a b, split_on "/" l = [a; b] ∧ (parse_u64 a = None ∨ parse_u64 b = None)) → 0 ≤ pos →
    pos' = pos ∧ s' = s) ∧
  pos' = Z.max pos (parse_lsn l) ∧
  (should_capture "pg_stat_replication" s = true →
    pending_events s' = pending_events s ++
      if pos <? parse_lsn l
      then [(pg_event now l (pos' - pos)) <| event_lsn := lsn (wal_position s) |>] else []).
Proof.
  unfold pg_poll. destruct (Z.ltb_spec pos (parse_lsn l)) as [H|H].
  - split_and!; [|lia|].
    + intros (a & b & E & Hp) Hpos. unfold parse_lsn in H. rewrite E in H.
      destruct (parse_u64 a), (parse_u64 b); try lia. by destruct Hp.
    + intros Hc. unfold capture. simpl. by rewrite Hc.
  - split_and!; [done|lia|intros _; by rewrite app_nil_r].
Qed.
(** Positions that parse are those without letters. *)
Example parse_lsn_hex : parse_lsn "0/16B3748" = 0 ∧ parse_lsn "0/1634" = 1634 ∧ parse_lsn "1/0" = 2 ^ 32.
Proof. vm_compute. done. Qed.

(** A step over the end of a segment starts the next one at zero, however far it
    goes. *)
Lemma advance_wal_spec d s :
  in_u 64 (offset (wal_position s) + d) → in_u 64 (segment (wal_position s) + 1) →
  let w := wal_position s in
  let w' := wal_position (advance_wal d s) in
  (segment w', offset w') =
    if WAL_SEGMENT_SIZE <=? offset w + d then (segment w + 1, 0) else (segment w, offset w + d).
Proof. intros H1 H2. unfold advance_wal. u_small. by case_match. Qed.
End cdc.

(** ** Runs *)
Section cdc_runs.
#[local] Instance demo_rfc3339_i : Rfc3339 := decimal_rfc3339.
#[local] Instance demo_json : JsonObject :=
  {| json := list (string * (string + Z)); json_object l := l |}.
(** A server that takes the events of one table only, and a loop of three attempts *)
Definition demo_backoff (f : nat → result WebhookError unit) : result WebhookError unit :=
  match f 0%nat with
  | Ok _ => Ok tt
  | Err e => if is_retryable e then match f 1%nat with Ok _ => Ok tt | Err _ => f 2%nat end else Err e
  end.
Definition demo_transport : Transport_ :=
  mkTransport (λ e, Some (event_id e)) demo_backoff
    (λ e i, if bool_decide (table e = "good") then Ok (if bool_decide (i = 0%nat) then 503 else 200) else Ok 404).
Definition demo_event (t : string) : CdcEvent := mkEvent t "" "" t Insert None None false.
Definition demo_env : environment :=
  {[ "CDC_OUTPUT" := "webhook"; "CDC_WEBHOOK_URL" := "https://example.org"; "CDC_BATCH_SIZE" := "2" ]}.
Definition demo_shim : CdcShim := (init true (new_cdc 0 demo_env)).2.
Definition demo_ops : list CdcOp := [OpCapture (demo_event "bad"); OpCapture (demo_event "good"); OpCapture (demo_event "bad")].
(** One of two delivered: both published; then none of one: it is lost. *)
Example demo_publish :
  let '(g, s) := cdc_run (demo_ops ++ [OpPublish demo_transport 0; OpPublish demo_transport 0]) demo_shim in
  (events_captured s, events_published s, events_failed s, length (pending_events s), table <$> published_ring s)
  = (3, 2, 1, 0%nat, ["bad"; "good"]).
Proof. vm_compute. done. Qed.
(** Without the client nothing is delivered; with it, the batch of two counts as
    published and is in the ring. *)
Definition demo_run : list CdcOp :=
  OpInit false :: demo_ops ++ [OpPublish demo_transport 0; OpInit true]
    ++ demo_ops ++ [OpPublish demo_transport 0; OpPublish demo_transport 0].
Example demo_run_counts :
  let '(g, s) := cdc_run demo_run (new_cdc 0 demo_env) in
  (events_published s, events_failed s, table <$> published_ring s, length (taken g)) = (2, 4, ["good"; "bad"], 6%nat).
Proof. vm_compute. done. Qed.
Lemma cdc_accounting_witness :
  let '(g, s) := cdc_run demo_run (new_cdc 0 demo_env) in
  events_published s = wrap 64 (Z.of_nat (length (counted g))) ∧ accepted g = taken g ++ pending_events s.
Proof.
  destruct (cdc_run _ _) as [g s] eqn:E. destruct (cdc_accounting 0 demo_env _ g s E) as (H1 & _ & H2 & _ & _).
  exact (conj H2 H1).
Defined.
Lemma webhook_all_or_nothing_witness :
  let s := (cdc_run demo_ops demo_shim).2 in
  events_published (publish_batch demo_transport 0 s).2 = wrap 64 (events_published s + 2).
Proof.
  set (s := (cdc_run demo_ops demo_shim).2). cbv zeta.
  destruct (publish_batch demo_transport 0 s) as [n s'] eqn:E. cbn [snd].
  assert (H2 : length (batch_of s) = 2%nat) by (vm_compute; done).
  assert (H5 : length (filter (λ e, delivered demo_transport e = true) (batch_of s)) = 1%nat)
    by (vm_compute; done).
  destruct (webhook_all_or_nothing demo_transport 0 s n s') as (_ & _ & H & _).
  - done.
  - intros Eb. by rewrite Eb in H2.
  - rewrite H2. done.
  - done.
  - destruct H as [H _].
    + split_and!; [by eexists|done|]. intros Eb. by rewrite Eb in H5.
    + rewrite H, H2. done.
Defined.
End cdc_runs.
