(* ===== verification/CdcLoop.v ===== *)
(** * The loops of the change data capture ([cdc-shim/src/lib.rs])

    [start_pg_cdc], [start_mariadb_cdc] and [start_redis_cdc]: the polls of [Cdc.v] with
    the publishing after each.  The answers of the databases are inputs; a loop is followed
    through as many rounds as are given. *)

From S2P Require Import Prelude Text Cdc.

Section cdc_loop.
Context `{RF : Rfc3339} `{JO : JsonObject}.
Implicit Types (s : CdcShim) (now : Z).

(** A round of a loop: the rows of the query, the instant, the transport of the batch *)
Record round := mkRound { r_rows : result string (list string); r_now : Z; r_transport : Transport_ }.
(** How a loop stands: [None] while it runs *)
Definition ending : Type := option string.
Definition poll_round (poll : Z → option string → Z * CdcShim → Z * CdcShim) (r : round) (st : Z * CdcShim) : ending * (Z * CdcShim) :=
  match r_rows r with
  | Err e => (Some e, st)
  | Ok rows =>
      let '(pos, s) := poll (r_now r) (head rows) st in
      (None, (pos, (publish_batch (r_transport r) (r_now r) s).2))
  end.
Fixpoint poll_loop (poll : Z → option string → Z * CdcShim → Z * CdcShim) (rs : list round) (st : Z * CdcShim) : ending * (Z * CdcShim) :=
  match rs with
  | [] => (None, st)
  | r :: rs =>
      match poll_round poll r st with
      | (None, st) => poll_loop poll rs st
      | x => x
      end
  end.

(** [start_pg_cdc]: [connect] and the two queries on the slot come first; the position
    starts at zero. *)
Definition slot_statement (slot : string) : string := "SELECT pg_create_logical_replication_slot('" +:+ slot +:+ "', 'pgoutput')".
Definition start_pg_cdc (env : environment) (connect : string → option string) (slot_exists : string → result string bool)
    (execute : string → option string) (rs : list round) s : ending * (Z * CdcShim) :=
  match env !! "CDC_DB_URL" with
  | None => (Some "CDC_DB_URL not set", (0, s))
  | Some url =>
      let slot := env_or env "CDC_SLOT" "evergreen_cdc_slot" in
      match connect url with
      | Some e => (Some e, (0, s))
      | None =>
          match slot_exists slot with
          | Err e => (Some e, (0, s))
          | Ok true => poll_loop pg_poll rs (0, s)
          | Ok false =>
              match execute (slot_statement slot) with
              | Some e => (Some e, (0, s))
              | None => poll_loop pg_poll rs (0, s)
              end
          end
      end
  end.
Definition start_mariadb_cdc (env : environment) (connect : string → option string) (rs : list round) s : ending * (Z * CdcShim) :=
  match env !! "CDC_DB_URL" with
  | None => (Some "CDC_DB_URL not set", (0, s))
  | Some url =>
      match connect url with
      | Some e => (Some e, (0, s))
      | None => poll_loop mariadb_poll rs (0, s)
      end
  end.

(** The Redis source: a reply of [SCAN] with, for each key, the answers for its type and its
    time to live; a query that fails counts as an empty answer. *)
Record key_reply := mkKeyReply { k_key : string; k_type : option string; k_ttl : option Z }.
Definition scan_reply : Type := option (Z * list key_reply).
Definition scan_keys now (ks : list key_reply) (st : gmap string string * CdcShim) : gmap string string * CdcShim :=
  foldl (λ st k, redis_key now (k_key k) (default "" (k_type k)) (default (-1) (k_ttl k)) st) st ks.
(** The inner loop ends with the cursor zero; [None] while it goes on. *)
Fixpoint scan_pattern now (replies : list scan_reply) (st : gmap string string * CdcShim) : option (gmap string string * CdcShim) :=
  match replies with
  | [] => None
  | r :: replies =>
      let '(cursor, ks) := default (0, []) r in
      let st := scan_keys now ks st in
      if cursor =? 0 then Some st else scan_pattern now replies st
  end.
Fixpoint scan_patterns now (replies : list (list scan_reply)) (st : gmap string string * CdcShim) : option (gmap string string * CdcShim) :=
  match replies with
  | [] => Some st
  | r :: replies => st ← scan_pattern now r st; scan_patterns now replies st
  end.
Definition redis_round now (tr : Transport_) (replies : list (list scan_reply)) (st : gmap string string * CdcShim)
    : option (gmap string string * CdcShim) :=
  '(prev, s) ← scan_patterns now replies st; Some (prev, (publish_batch tr now s).2).
Definition redis_patterns (env : environment) : list string := trim <$> split_on "," (env_or env "CDC_REDIS_PATTERNS" "*").

(** ** What a loop captures *)

(** Publishing leaves the number of captured events and the filter alone. *)
Lemma settle_frame tr n l : ∀ s,
  (events_captured (foldl (settle_webhook n) s l) = events_captured s ∧
   (∀ t, should_capture t (foldl (settle_webhook n) s l) = should_capture t s)) ∧
  (events_captured (foldl (settle_log tr) s l) = events_captured s ∧
   (∀ t, should_capture t (foldl (settle_log tr) s l) = should_capture t s)).
Proof.
  induction l as [|e l IH]; intros s; [done|]. simpl. destruct (IH (settle_webhook n s e)) as [[-> H1] _].
  destruct (IH (settle_log tr s e)) as [_ [-> H2]].
  split; (split; [|intros t; rewrite ?H1, ?H2]); unfold settle_webhook, settle_log; by case_match.
Qed.
Lemma publish_frame tr now s :
  let s' := (publish_batch tr now s).2 in events_captured s' = events_captured s ∧ ∀ t, should_capture t s' = should_capture t s.
Proof.
  unfold publish_batch. set (s1 := s <| pending_events ::= _ |>). destruct (_ =? 0); [done|]. cbv zeta. cbn [snd].
  destruct (settle_frame tr (publish_via_webhook tr (batch_of s) s1) (batch_of s) s1) as [[H1 H2] [H3 H4]].
  case_bool_decide; split; [exact H1|exact H2|exact H3|exact H4].
Qed.
(** The positions that are polled, and what each adds to the largest before it *)
Definition polled (rs : list round) : list string := omap (λ r, match r_rows r with Ok rows => head rows | Err _ => None end) rs.
Fixpoint advances (pos : Z) (ps : list Z) : list Z :=
  match ps with [] => [] | p :: ps => (if pos <? p then [p - pos] else []) ++ advances (Z.max pos p) ps end.
(** They add up to the way the position has come. *)
Lemma advances_sum ps : ∀ pos, pos + sum_list_Z id (advances pos ps) = foldl Z.max pos ps.
Proof.
  induction ps as [|p ps IH]; intros pos; [simpl; lia|]. simpl. rewrite <-IH, sum_list_Z_app.
  destruct (Z.ltb_spec pos p); simpl; unfold id; lia.
Qed.
Definition all_answered (rs : list round) : Prop := Forall (λ r, is_ok (r_rows r) = true) rs.
(** The PostgreSQL loop runs as long as its queries are answered; its position is the
    largest that was polled; and it has captured an event for each poll that is larger than
    all before it. *)
Lemma pg_loop_captures rs : ∀ pos s,
  all_answered rs → should_capture "pg_stat_replication" s = true → in_u 64 (events_captured s) →
  let ps := parse_lsn <$> polled rs in
  ∃ s', poll_loop pg_poll rs (pos, s) = (None, (foldl Z.max pos ps, s')) ∧
    events_captured s' = wrap 64 (events_captured s + Z.of_nat (length (advances pos ps))).
Proof.
  induction rs as [|r rs IH]; intros pos s Ha Hc Hu; simpl.
  { exists s. split; [done|]. rewrite Z.add_0_r. symmetry. by apply wrap_small. }
  apply Forall_cons in Ha as [Hr Ha]. unfold poll_round, polled. simpl. destruct (r_rows r) as [rows|e]; [|done].
  fold (polled rs). destruct (head rows) as [l|] eqn:El; cbn [pg_poll].
  - cbn [fmap list_fmap foldl advances]. destruct (Z.ltb_spec pos (parse_lsn l)) as [Hlt|Hge].
    + set (s1 := (capture _ s).2). destruct (publish_frame (r_transport r) (r_now r) s1) as [P1 P2].
      assert (events_captured s1 = add64 (events_captured s) 1 ∧ ∀ t, should_capture t s1 = should_capture t s) as [E1 E2]
        by (subst s1; unfold capture; simpl; by rewrite Hc).
      destruct (IH (parse_lsn l) (publish_batch (r_transport r) (r_now r) s1).2) as (s' & -> & Hs'); [done|by rewrite P2, E2| |].
      { rewrite P1, E1. apply wrap_range. lia. }
      exists s'. rewrite Z.max_r by lia. split; [done|]. rewrite Hs', P1, E1. unfold add64. rewrite wrap_add_l.
      f_equal. simpl. lia.
    + destruct (publish_frame (r_transport r) (r_now r) s) as [P1 P2].
      destruct (IH pos (publish_batch (r_transport r) (r_now r) s).2) as (s' & -> & Hs'); [done|by rewrite P2|by rewrite P1|].
      exists s'. rewrite Z.max_l by lia. by rewrite Hs', P1.
  - destruct (publish_frame (r_transport r) (r_now r) s) as [P1 P2].
    destruct (IH pos (publish_batch (r_transport r) (r_now r) s).2) as (s' & -> & Hs'); [done|by rewrite P2|by rewrite P1|].
    exists s'. by rewrite Hs', P1.
Qed.
(** One query that fails ends the loop, and what was captured before stays pending if the
    batches were too small for it. *)
Lemma failed_query_ends poll r rs st e : r_rows r = Err e → poll_loop poll (r :: rs) st = (Some e, st).
Proof. simpl. unfold poll_round. by intros ->. Qed.

(** The MariaDB source never captures anything.  The first column of SHOW MASTER STATUS
    is the name of the binlog file, without a tab; whatever the file is, and however the
    log grows, the loop goes on as long as the query is answered, captures no event and
    keeps its position at zero. *)
Theorem mariadb_captures_nothing env connect rs s url :
  env !! "CDC_DB_URL" = Some url → connect url = None →
  Forall (λ r, ∃ rows, r_rows r = Ok rows ∧ Forall (λ f, avoids tab f = true) rows) rs →
  ∃ s', start_mariadb_cdc env connect rs s = (None, (0, s')) ∧ events_captured s' = events_captured s.
Proof.
  unfold start_mariadb_cdc. intros -> ->. intros Hrs. generalize 0. intros pos. revert s.
  induction Hrs as [|r rs (rows & Hr & Hf) _ IH]; intros s; [by exists s|]. simpl. unfold poll_round. rewrite Hr.
  assert (mariadb_poll (r_now r) (head rows) (pos, s) = (pos, s)) as ->.
  { destruct Hf as [|f rows Hf _]; [done|]. simpl. by rewrite split_on_none. }
  destruct (IH (publish_batch (r_transport r) (r_now r) s).2) as (s' & -> & Hs'). exists s'. split; [done|]. rewrite Hs'. apply publish_frame.
Qed.

(** A second scan of keys whose type and time to live are as they were captures nothing;
    with a time to live that counts down every scan captures the key. *)
Lemma redis_rescan now key ty ttl prev s :
  prev !! key = Some (ty +:+ ":" +:+ pretty ttl) → redis_key now key ty ttl (prev, s) = (prev, s).
Proof. intros H. simpl. by rewrite bool_decide_eq_true_2. Qed.
Lemma redis_countdown now key ty ttl prev s :
  prev !! key = Some (ty +:+ ":" +:+ pretty (ttl + 1)) → 0 ≤ ttl →
  should_capture "redis" s = true →
  events_captured (redis_key now key ty ttl (prev, s)).2 = add64 (events_captured s) 1.
Proof.
  intros H Ht Hc. simpl. rewrite bool_decide_eq_false_2.
  - simpl. unfold capture. simpl. by rewrite Hc.
  - rewrite H. intros [= E]. apply str_app_inj_l in E. simplify_eq. lia.
Qed.
End cdc_loop.

(** ** Runs *)
Section cdc_loop_runs.
#[local] Instance cdc_loop_rfc3339 : Rfc3339 := decimal_rfc3339.
#[local] Instance cdc_loop_json : JsonObject := {| json := list (string * (string + Z)); json_object l := l |}.
Definition demo_round (rows : list string) : round := mkRound (Ok rows) 0 demo_transport.
Definition demo_cdc_env : environment := {[ "CDC_OUTPUT" := "log"; "CDC_DB_URL" := "postgres://db" ]}.
Example demo_pg_loop :
  let '(e, (pos, s)) := start_pg_cdc demo_cdc_env (λ _, None) (λ _, Ok false) (λ _, None)
    (demo_round <$> [["0/10"]; []; ["0/5"]; ["0/25"]]) (new_cdc 0 demo_cdc_env) in
  e = None ∧ pos = 25 ∧ events_captured s = 2 ∧ events_published s = 2.
Proof. vm_compute. done. Qed.
Example demo_redis_round :
  let scan := [[Some (17, [mkKeyReply "a" (Some "string") (Some (-1))]); None]; [Some (0, [mkKeyReply "b" None None])]] in
  match redis_round 0 demo_transport scan (∅, new_cdc 0 demo_cdc_env) with
  | Some (prev, s) => events_captured s = 2 ∧ prev !! "a" = Some "string:-1" ∧ redis_round 0 demo_transport [[Some (17, [])]] (prev, s) = None
  | None => False
  end.
Proof. vm_compute. done. Qed.
Lemma mariadb_captures_nothing_witness :
  ∃ s', start_mariadb_cdc demo_cdc_env (λ _, None) (demo_round <$> [["binlog.000001"]; ["binlog.000002"]]) (new_cdc 0 demo_cdc_env) = (None, (0, s')) ∧
    events_captured s' = 0.
Proof.
  assert (demo_cdc_env !! "CDC_DB_URL" = Some "postgres://db") as H1 by (vm_compute; reflexivity).
  assert (Forall (λ r, ∃ rows, r_rows r = Ok rows ∧ Forall (λ f, avoids tab f = true) rows)
            (demo_round <$> [["binlog.000001"]; ["binlog.000002"]])) as H2.
  { repeat constructor; eexists; (split; [reflexivity|repeat constructor]). }
  exact (mariadb_captures_nothing demo_cdc_env (λ _, None) _ (new_cdc 0 demo_cdc_env) "postgres://db" H1 eq_refl H2).
Defined.
End cdc_loop_runs.
