(* ===== verification/Chaos.v ===== *)
(** * Chaos experiments ([chaos-shim/src/lib.rs])

    The decision whether a request gets a fault ([evaluate]), the experiments of
    the shim, the orchestrator with its schedules and history, and the fault
    injectors that call system programs. *)

From S2P Require Import Prelude Text Floats Commands.

(** [FaultType] *)
Inductive FaultType := Latency | Error | Partition | Kill | PacketLoss.
#[export] Instance FaultType_eq_dec : EqDecision FaultType.
Proof. solve_decision. Defined.
Definition fault_display (f : FaultType) : string :=
  match f with
  | Latency => "latency" | Error => "error" | Partition => "partition" | Kill => "kill"
  | PacketLoss => "packet_loss"
  end.
Record ChaosExperiment := mkExperiment {
  id : string;
  exp_name : string;
  exp_fault : FaultType;
  exp_enabled : bool;
  exp_target : string;
  exp_blast_radius : f64;
  duration_secs : Z;
  started_at : option string;
  ended_at : option string;
  exp_faults_injected : Z
}.
#[export] Instance ChaosExperiment_settable : Settable ChaosExperiment := λ e,
  mkExperiment (id e) (exp_name e) (exp_fault e) (exp_enabled e) (exp_target e) (exp_blast_radius e)
    (duration_secs e) (started_at e) (ended_at e) (exp_faults_injected e).
Record InjectionResult := mkInjection {
  injected : bool;
  fault_type : FaultType;
  reason : option string;
  delay_ms : Z
}.
(** [ChaosShim], less the shutdown channel *)
Record ChaosShim := mkChaos {
  enabled : bool;
  latency_ms : Z;
  error_rate : f64;
  partition : bool;
  kill_probability : f64;
  target : string;
  blast_radius : f64;
  faults_injected : Z;
  faults_suppressed : Z;
  experiments : gmap string ChaosExperiment;
  experiment_counter : Z
}.
#[export] Instance ChaosShim_settable : Settable ChaosShim := λ s,
  mkChaos (enabled s) (latency_ms s) (error_rate s) (partition s) (kill_probability s) (target s)
    (blast_radius s) (faults_injected s) (faults_suppressed s) (experiments s) (experiment_counter s).

Definition new_chaos (env : environment) : ChaosShim :=
  {| enabled := env_true env "CHAOS_ENABLED";
     latency_ms := env_parse env "CHAOS_LATENCY_MS" parse_u64 0;
     error_rate := env_parse env "CHAOS_ERROR_RATE" parse_f64 (f64_of_Z 0);
     partition := env_true env "CHAOS_PARTITION";
     kill_probability := env_parse env "CHAOS_KILL_PROBABILITY" parse_f64 (f64_of_Z 0);
     target := env_or env "CHAOS_TARGET" "all";
     blast_radius := env_parse env "CHAOS_BLAST_RADIUS" parse_f64 (f64_of_Z 1);
     faults_injected := 0;
     faults_suppressed := 0;
     experiments := ∅;
     experiment_counter := 0 |}.

(** [chrono::Duration::seconds]: nanoseconds, or the documented panic when the number
    of milliseconds does not fit into an [i64] *)
Class ChronoDuration := {
  duration_seconds : Z → option Z;
  duration_seconds_ok n d : duration_seconds n = Some d → d = n * 10 ^ 9;
  duration_seconds_in n : is_Some (duration_seconds n) ↔ Z.abs n ≤ (2 ^ 63 - 1) / 1000
}.
#[export, program] Instance checked_duration : ChronoDuration := {|
  duration_seconds n := if Z.abs n <=? (2 ^ 63 - 1) / 1000 then Some (n * 10 ^ 9) else None
|}.
Next Obligation. intros n d. simpl. case_match; naive_solver. Qed.
Next Obligation.
  intros n. simpl. destruct (Z.leb_spec (Z.abs n) ((2 ^ 63 - 1) / 1000)).
  - split; eauto.
  - split; [by intros [? [=]]|lia].
Qed.

Section chaos.
Context `{RF : Rfc3339} `{CD : ChronoDuration} `{HO : HashOrder}.
Implicit Types (s : ChaosShim) (e : ChaosExperiment) (now : Z).

(** ** The shim *)

Definition start_experiment now (name : string) (f : FaultType) (tgt : string) (blast : f64) (duration : Z) s
    : ChaosExperiment * ChaosShim :=
  let s := s <| experiment_counter ::= λ n, add64 n 1 |> in
  let i := "exp-" +:+ pad_zeros 3 (experiment_counter s) in
  let e := {| id := i; exp_name := name; exp_fault := f; exp_enabled := true; exp_target := tgt;
              exp_blast_radius := f64_clamp (f64_of_Z 0) (f64_of_Z 1) blast; duration_secs := duration;
              started_at := Some (to_rfc3339 now); ended_at := None; exp_faults_injected := 0 |} in
  (e, s <| experiments ::= <[i := e]> |>).

(** [enabled = false] and the end of an experiment *)
Definition close now e : ChaosExperiment := e <| exp_enabled := false |> <| ended_at := Some (to_rfc3339 now) |>.
Definition stop_experiment now (i : string) s : bool * ChaosShim :=
  if bool_decide (is_Some (experiments s !! i)) then (true, s <| experiments ::= alter (close now) i |>)
  else (false, s).

(** Whether an enabled experiment has run its time; [None] is the panic of a duration
    that is too long. *)
Definition expired now e : option bool :=
  if exp_enabled e then
    match started_at e ≫= parse_from_rfc3339 with
    | Some started => d ← duration_seconds (as_i64 (duration_secs e)); Some (d <=? now - started)
    | None => Some false
    end
  else Some false.
Definition close_expired now e : ChaosExperiment :=
  if default false (expired now e) then close now e else e.
Definition none_panics now (m : gmap string ChaosExperiment) : bool :=
  bool_decide (map_Forall (λ _ e, is_Some (expired now e)) m).
Definition stop_expired_experiments now s : option ChaosShim :=
  if none_panics now (experiments s) then Some (s <| experiments ::= fmap (close_expired now) |>) else None.

Definition target_matches (request : string) s : bool :=
  bool_decide (target s = "all") || eq_ignore_ascii_case (target s) request.
Definition active_fault_type s : FaultType :=
  if partition s then Partition
  else if 0 <? latency_ms s then Latency
  else if f64_gt (error_rate s) (f64_of_Z 0) then Error
  else if f64_gt (kill_probability s) (f64_of_Z 0) then Kill
  else Latency.

(** The suppressed outcomes of [evaluate] *)
Definition suppress (f : FaultType) (why : string) s : InjectionResult * ChaosShim :=
  (mkInjection false f (Some why) 0, s <| faults_suppressed ::= λ n, add64 n 1 |>).
(** [evaluate]; the rolls are the numbers [fastrand] draws for the blast radius and
    for the error rate. *)
Definition evaluate now (roll1 roll2 : f64) (request : string) s : option (InjectionResult * ChaosShim) :=
  if negb (enabled s) then Some (suppress Latency "Chaos disabled globally" s)
  else
    s ← stop_expired_experiments now s;
    Some
      (if negb (target_matches request s) then suppress Latency "Target mismatch" s
       else if f64_lt (blast_radius s) (f64_of_Z 1) && f64_gt roll1 (blast_radius s)
       then suppress Latency "Blast radius exclusion" s
       else
         let f := active_fault_type s in
         if bool_decide (f = Error) && (f64_gt roll2 (error_rate s) && f64_lt (error_rate s) (f64_of_Z 1))
         then suppress Error "Below error rate threshold" s
         else (mkInjection true f None (if bool_decide (f = Latency) then latency_ms s else 0),
               s <| faults_injected ::= λ n, add64 n 1 |>)).

Definition set_enabled (b : bool) s : ChaosShim := s <| enabled := b |>.
Definition set_error_rate (x : f64) s : ChaosShim := s <| error_rate := f64_clamp (f64_of_Z 0) (f64_of_Z 1) x |>.
Definition set_latency (ms : Z) s : ChaosShim := s <| latency_ms := ms |>.
Definition get_experiment (i : string) s : option ChaosExperiment := experiments s !! i.
Definition active_experiments s : list ChaosExperiment :=
  filter (λ e, exp_enabled e = true) (hash_values (experiments s)).
Definition injection_rate s : f64 :=
  let total := add64 (faults_injected s) (faults_suppressed s) in
  if total =? 0 then f64_of_Z 0 else f64_div (f64_of_Z (faults_injected s)) (f64_of_Z total).
Definition is_active s : bool := enabled s && negb (bool_decide (active_experiments s = [])).
(** The sleep of [apply_latency], in milliseconds *)
Definition apply_latency (r : InjectionResult) : option Z :=
  if injected r && (0 <? delay_ms r) then Some (delay_ms r) else None.
Definition inject_error (r : InjectionResult) : result string unit :=
  if injected r && bool_decide (fault_type r = Error) then Err "Chaos-injected error" else Ok tt.
(** [stop]; the clock is read once per experiment. *)
Definition stop (ck : string → Z) s : ChaosShim :=
  s <| experiments ::= map_imap (λ i e, Some (if exp_enabled e then close (ck i) e else e)) |>.
Definition chaos_metrics s : list (string * f64) :=
  [("chaos_enabled", f64_of_Z (if enabled s then 1 else 0));
   ("chaos_faults_injected", f64_of_Z (faults_injected s));
   ("chaos_faults_suppressed", f64_of_Z (faults_suppressed s));
   ("chaos_active_experiments", f64_of_Z (Z.of_nat (length (active_experiments s))));
   ("chaos_injection_rate", injection_rate s);
   ("chaos_error_rate", error_rate s)].

(** ** Injectors *)

(** [uuid_short]: the nanoseconds of the clock as a [u64] in hexadecimal *)
Fixpoint strip_zeros (h : string) : string :=
  match h with
  | String c (String _ _ as r) => if bool_decide (c = "0"%char) then strip_zeros r else h
  | _ => h
  end.
Definition uuid_short now : string := strip_zeros (fixed_hex 16 (wrap 64 (Z.max 0 now))).
Definition create_network_partition now (run : runner) (ip chain : string) : result string string :=
  let rule := "chaos-" +:+ uuid_short now in
  _ <-? run_checked run "Failed to create network partition: "
    (mkCommand "sudo" ["iptables"; "-A"; chain; "-s"; ip; "-j"; "DROP"; "-m"; "comment"; "--comment"; rule] []);
  Ok rule.
Definition remove_network_partition (run : runner) (rule chain : string) : result string unit :=
  _ <-? run_checked run "Failed to remove network partition: "
    (mkCommand "sudo" ["iptables"; "-D"; chain; "-m"; "comment"; "--comment"; rule; "-j"; "DROP"] []);
  Ok tt.
Definition kill_process (run : runner) (pid : Z) : result string unit :=
  _ <-? run_checked run ("Failed to kill process " +:+ pretty pid +:+ ": ")
    (mkCommand "kill" ["-9"; pretty pid] []);
  Ok tt.
Definition create_disk_fill (run : runner) (path : string) (size_mb : Z) : result string unit :=
  out <-? run (mkCommand "fallocate" ["-l"; pretty size_mb +:+ "M"; path] []);
  if exit_ok out then Ok tt
  else
    _ <-? run_checked run "Failed to create disk fill: "
      (mkCommand "dd" ["if=/dev/zero"; "of=" +:+ path; "bs=1M"; "count=" +:+ pretty size_mb] []);
    Ok tt.
Definition apply_cpu_stress (run : runner) (cores duration : Z) : result string unit :=
  _ <-? run_checked run "CPU stress failed: "
    (mkCommand "stress-ng" ["--cpu"; pretty cores; "--timeout"; pretty duration +:+ "s"] []);
  Ok tt.

(** ** The orchestrator *)

Record ExperimentSchedule := mkSchedule { cron : string; max_runs : option Z; run_count : Z }.
#[export] Instance ExperimentSchedule_settable : Settable ExperimentSchedule := λ c,
  mkSchedule (cron c) (max_runs c) (run_count c).
Record ExperimentResult := mkResult {
  experiment_id : string;
  res_name : string;
  res_fault : FaultType;
  res_target : string;
  res_started : string;
  res_ended : string;
  res_faults : Z;
  success : bool
}.
Record ChaosOrchestrator := mkOrchestrator {
  orch_enabled : bool;
  running : gmap string ChaosExperiment;
  experiment_history : list ExperimentResult;
  schedules : gmap string ExperimentSchedule;
  orch_counter : Z;
  total_faults : Z;
  blast_radius_limit : f64
}.
#[local] Instance ChaosOrchestrator_settable : Settable ChaosOrchestrator := λ o,
  mkOrchestrator (orch_enabled o) (running o) (experiment_history o) (schedules o) (orch_counter o)
    (total_faults o) (blast_radius_limit o).
Implicit Types (o : ChaosOrchestrator).

Definition new_orchestrator (env : environment) : ChaosOrchestrator :=
  mkOrchestrator (env_true env "CHAOS_ORCHESTRATOR_ENABLED") ∅ [] ∅ 0 0 (f64_of_Z 1).
Definition set_blast_radius_limit (x : f64) o : ChaosOrchestrator :=
  o <| blast_radius_limit := f64_clamp (f64_of_Z 0) (f64_of_Z 1) x |>.

Definition orch_id (n : Z) : string := "orch-exp-" +:+ pad_zeros 4 n.
Definition orch_start now (name : string) (f : FaultType) (tgt : string) (blast : f64) (duration : Z) o
    : result string string * ChaosOrchestrator :=
  if negb (orch_enabled o) then (Err "Orchestrator is disabled", o)
  else
    let radius := f64_min blast (blast_radius_limit o) in
    let o := o <| orch_counter ::= λ n, add64 n 1 |> in
    let i := orch_id (orch_counter o) in
    let e := {| id := i; exp_name := name; exp_fault := f; exp_enabled := true; exp_target := tgt;
                exp_blast_radius := radius; duration_secs := duration;
                started_at := Some (to_rfc3339 now); ended_at := None; exp_faults_injected := 0 |} in
    (Ok i, o <| running ::= <[i := e]> |>).
Definition orch_stop now (i : string) o : bool * ChaosOrchestrator :=
  if bool_decide (is_Some (running o !! i)) then (true, o <| running ::= alter (close now) i |>) else (false, o).
(** [stop_all]; the clock is read once per experiment. *)
Definition stop_all (ck : string → Z) o : ChaosOrchestrator :=
  foldl (λ o i, (orch_stop (ck i) i o).2) o (hash_keys (running o)).

Definition result_of now (ok : bool) e : ExperimentResult :=
  {| experiment_id := id e; res_name := exp_name e; res_fault := exp_fault e; res_target := exp_target e;
     res_started := default "" (started_at e); res_ended := default (to_rfc3339 now) (ended_at e);
     res_faults := exp_faults_injected e; success := ok |}.
Definition complete_experiment now (i : string) (ok : bool) o : bool * ChaosOrchestrator :=
  match running o !! i with
  | Some e =>
      (true, o <| running ::= delete i |>
               <| total_faults ::= λ n, add64 n (exp_faults_injected e) |>
               <| experiment_history ::= λ h, h ++ [result_of now ok e] |>)
  | None => (false, o)
  end.

Definition register_schedule (i c : string) (max : option Z) o : ChaosOrchestrator :=
  o <| schedules ::= <[i := mkSchedule c max 0]> |>.
Definition can_run_scheduled (i : string) o : bool :=
  match schedules o !! i with
  | Some c => match max_runs c with Some m => run_count c <? m | None => true end
  | None => false
  end.
Definition record_scheduled_run (i : string) o : ChaosOrchestrator :=
  o <| schedules ::= alter (λ c, c <| run_count ::= λ n, add32 n 1 |>) i |>.

(** The loop of [tick] over the expired ids *)
Definition expire now o (i : string) : ChaosOrchestrator :=
  (complete_experiment now i true (o <| running ::= alter (close now) i |>)).2.
Definition expired_ids now (m : gmap string ChaosExperiment) : list string :=
  (filter (λ x, expired now x.2 = Some true) (hash_iter m)).*1.
Definition orch_tick now o : option ChaosOrchestrator :=
  if none_panics now (running o) then Some (foldl (expire now) o (expired_ids now (running o))) else None.

Definition active_count o : Z := Z.of_nat (size (running o)).
Definition completed_count o : Z := Z.of_nat (length (experiment_history o)).
Definition orch_set_enabled (b : bool) o : ChaosOrchestrator := o <| orch_enabled := b |>.

(** ** Experiments have no influence on what [evaluate] decides. *)

Inductive ChaosOp :=
| OpStart now (name : string) (f : FaultType) (tgt : string) (blast : f64) (duration : Z)
| OpStop now (i : string)
| OpShutdown (ck : string → Z)
| OpEvaluate now (roll1 roll2 : f64) (request : string)
| OpEnabled (b : bool)
| OpRate (x : f64)
| OpLatency (ms : Z).
Definition chaos_step (c : ChaosOp) s : option (list InjectionResult * ChaosShim) :=
  match c with
  | OpStart now name f tgt blast d => Some ([], (start_experiment now name f tgt blast d s).2)
  | OpStop now i => Some ([], (stop_experiment now i s).2)
  | OpShutdown ck => Some ([], stop ck s)
  | OpEvaluate now r1 r2 q => '(r, s) ← evaluate now r1 r2 q s; Some ([r], s)
  | OpEnabled b => Some ([], set_enabled b s)
  | OpRate x => Some ([], set_error_rate x s)
  | OpLatency ms => Some ([], set_latency ms s)
  end.
(** The answers of the evaluations of a run *)
Fixpoint chaos_run (cs : list ChaosOp) s : option (list InjectionResult * ChaosShim) :=
  match cs with
  | [] => Some ([], s)
  | c :: cs => '(r, s) ← chaos_step c s; '(rs, s) ← chaos_run cs s; Some (r ++ rs, s)
  end.
Definition on_experiments (c : ChaosOp) : bool :=
  match c with OpStart _ _ _ _ _ _ | OpStop _ _ | OpShutdown _ => true | _ => false end.
Definition bare s : ChaosShim := s <| experiments := ∅ |> <| experiment_counter := 0 |>.
Definition count_results (b : bool) (rs : list InjectionResult) : Z :=
  Z.of_nat (length (filter (λ r, injected r = b) rs)).

Lemma none_panics_empty now : none_panics now ∅ = true.
Proof. apply bool_decide_eq_true_2, map_Forall_empty. Qed.
Lemma evaluate_bare now r1 r2 q s r s' :
  evaluate now r1 r2 q s = Some (r, s') → evaluate now r1 r2 q (bare s) = Some (r, bare s').
Proof.
  unfold evaluate. destruct s as [[] l er p k t b fi fs ex n]; simpl; [|by intros [= <- <-]].
  unfold stop_expired_experiments. simpl. destruct (none_panics now ex); [|done]. simpl.
  rewrite none_panics_empty, fmap_empty. simpl. unfold target_matches, active_fault_type. simpl.
  intros [= H]. f_equal. revert H. repeat case_match; by intros [= <- <-].
Qed.
Lemma evaluate_counts now r1 r2 q s r s' :
  evaluate now r1 r2 q s = Some (r, s') →
  faults_injected s' = (if injected r then add64 (faults_injected s) 1 else faults_injected s) ∧
  faults_suppressed s' = (if injected r then faults_suppressed s else add64 (faults_suppressed s) 1).
Proof.
  unfold evaluate, stop_expired_experiments, suppress. destruct (negb (enabled s)); [by intros [= <- <-]|].
  destruct (none_panics _ _); [|done]. simpl. repeat case_match; by intros [= <- <-].
Qed.
Lemma chaos_step_bare c s r s' :
  chaos_step c s = Some (r, s') →
  if on_experiments c then r = [] ∧ bare s' = bare s else chaos_step c (bare s) = Some (r, bare s').
Proof.
  destruct c; simpl; try by intros [= <- <-].
  - intros [= <- <-]. unfold stop_experiment. by case_bool_decide.
  - intros H. destruct (evaluate _ _ _ _ s) as [[x s1]|] eqn:E; simpl in H; [|done].
    rewrite (evaluate_bare _ _ _ _ _ _ _ E). simpl. by simplify_eq.
Qed.
Lemma count_results_app b l l' : count_results b (l ++ l') = count_results b l + count_results b l'.
Proof. unfold count_results. rewrite filter_app, length_app. lia. Qed.
Definition counted (rs : list InjectionResult) s s' : Prop :=
  faults_injected s' = wrap 64 (faults_injected s + count_results true rs) ∧
  faults_suppressed s' = wrap 64 (faults_suppressed s + count_results false rs).
Lemma counted_nil s s' :
  in_u 64 (faults_injected s) → in_u 64 (faults_suppressed s) →
  faults_injected s' = faults_injected s → faults_suppressed s' = faults_suppressed s → counted [] s s'.
Proof.
  intros H1 H2 E1 E2. unfold counted, count_results. simpl. rewrite E1, E2, !Z.add_0_r. by rewrite !wrap_small.
Qed.
Lemma chaos_step_counts c s r s' :
  in_u 64 (faults_injected s) → in_u 64 (faults_suppressed s) →
  chaos_step c s = Some (r, s') → counted r s s'.
Proof.
  intros Hi Hs. destruct c; simpl; try by (intros [= <- <-]; apply counted_nil).
  - intros [= <- <-]. unfold stop_experiment. case_bool_decide; by apply counted_nil.
  - intros H. destruct (evaluate _ _ _ _ s) as [[x s1]|] eqn:E; simpl in H; [|done]. simplify_eq.
    apply evaluate_counts in E as [E1 E2]. unfold counted, count_results. rewrite E1, E2, !filter_cons, !filter_nil.
    destruct (injected x); simpl; rewrite Z.add_0_r; split; try done; by rewrite wrap_small.
Qed.
Lemma chaos_run_counts cs s rs s' :
  in_u 64 (faults_injected s) → in_u 64 (faults_suppressed s) →
  chaos_run cs s = Some (rs, s') → counted rs s s'.
Proof.
  revert s rs. induction cs as [|c cs IH]; intros s rs Hi Hs H; simpl in H.
  { simplify_eq. by apply counted_nil. }
  destruct (chaos_step c s) as [[r s1]|] eqn:E; simpl in H; [|done].
  destruct (chaos_run cs s1) as [[rs' s2]|] eqn:E'; simpl in H; [|done]. simplify_eq.
  apply chaos_step_counts in E as [A1 A2]; [|done..].
  apply IH in E' as [B1 B2]; [|rewrite A1; apply wrap_range; lia|rewrite A2; apply wrap_range; lia].
  unfold counted. rewrite B1, B2, A1, A2, !count_results_app, !wrap_add_l. split; f_equal; lia.
Qed.

(** Experiments are decoration.  Take any sequence of calls on a new shim: the
    answers to the requests are those of the sequence without the calls that start and
    stop experiments - their faults, targets, blast radii and durations decide nothing,
    only the settings do - and the two counters count the answers with and without a
    fault. *)
Theorem experiments_inert env cs rs s :
  chaos_run cs (new_chaos env) = Some (rs, s) →
  chaos_run (filter (λ c, on_experiments c = false) cs) (new_chaos env) = Some (rs, bare s) ∧
  counted rs (new_chaos env) s.
Proof.
  intros H. split; [|by apply chaos_run_counts in H].
  change (new_chaos env) with (bare (new_chaos env)). revert H. generalize (new_chaos env). revert rs.
  induction cs as [|c cs IH]; intros rs s0 H; simpl in H; [by simplify_eq|].
  destruct (chaos_step c s0) as [[r s1]|] eqn:E; simpl in H; [|done].
  destruct (chaos_run cs s1) as [[rs' s2]|] eqn:E'; simpl in H; [|done]. simplify_eq.
  apply IH in E'. apply chaos_step_bare in E. rewrite filter_cons.
  destruct (on_experiments c); simpl; [destruct E as [-> <-]; by rewrite E'|by rewrite E; simpl; rewrite E'].
Qed.

(** An experiment whose duration does not fit into a [chrono::Duration] panics every
    request that gets as far as the expiry check. *)
Lemma long_experiment_panics now r1 r2 q s i e t :
  enabled s = true → experiments s !! i = Some e → exp_enabled e = true →
  started_at e = Some (to_rfc3339 t) → (2 ^ 63 - 1) / 1000 < duration_secs e < 2 ^ 63 →
  evaluate now r1 r2 q s = None.
Proof.
  intros He Hi Hon Hst Hd. unfold evaluate. rewrite He. simpl. unfold stop_expired_experiments.
  assert (none_panics now (experiments s) = false) as ->; [|done].
  apply bool_decide_eq_false_2. intros Hall. specialize (Hall i e Hi). simpl in Hall.
  unfold expired in Hall. rewrite Hon, Hst in Hall. simpl in Hall. rewrite parse_to_rfc3339 in Hall.
  destruct (duration_seconds (as_i64 (duration_secs e))) eqn:E; simpl in Hall; [|by destruct Hall].
  assert (is_Some (duration_seconds (as_i64 (duration_secs e)))) as Hs by eauto.
  apply duration_seconds_in in Hs. unfold as_i64 in Hs.
  destruct (Z.ltb_spec (duration_secs e) (2 ^ 63)); lia.
Qed.

(** ** Runs of the orchestrator *)

Inductive OrchOp :=
| OStart now (name : string) (f : FaultType) (tgt : string) (blast : f64) (duration : Z)
| OStop now (i : string)
| OStopAll (ck : string → Z)
| OComplete now (i : string) (ok : bool)
| ORegister (i c : string) (max : option Z)
| ORan (i : string)
| OEnabled (b : bool)
| OLimit (x : f64)
| OTick now.
(** The ids that starts returned, and the new state *)
Definition orch_step (c : OrchOp) o : option (list string * ChaosOrchestrator) :=
  match c with
  | OStart now name f tgt blast d =>
      let '(r, o) := orch_start now name f tgt blast d o in
      Some (match r with Ok i => [i] | Err _ => [] end, o)
  | OStop now i => Some ([], (orch_stop now i o).2)
  | OStopAll ck => Some ([], stop_all ck o)
  | OComplete now i ok => Some ([], (complete_experiment now i ok o).2)
  | ORegister i c m => Some ([], register_schedule i c m o)
  | ORan i => Some ([], record_scheduled_run i o)
  | OEnabled b => Some ([], orch_set_enabled b o)
  | OLimit x => Some ([], set_blast_radius_limit x o)
  | OTick now => o ← orch_tick now o; Some ([], o)
  end.
Fixpoint orch_run (cs : list OrchOp) o : option (list string * ChaosOrchestrator) :=
  match cs with
  | [] => Some ([], o)
  | c :: cs => '(i, o) ← orch_step c o; '(l, o) ← orch_run cs o; Some (i ++ l, o)
  end.

Definition running_ids o : list string := elements (dom (running o)).
Definition finished_ids o : list string := experiment_id <$> experiment_history o.
Record orch_ok (n : nat) o : Prop := {
  ok_counter : orch_counter o = Z.of_nat n;
  ok_ids : running_ids o ++ finished_ids o ≡ₚ orch_id <$> seqZ 1 (Z.of_nat n);
  ok_own i e : running o !! i = Some e → id e = i ∧ exp_faults_injected e = 0;
  ok_faults : total_faults o = 0 ∧ Forall (λ r, res_faults r = 0) (experiment_history o)
}.

Lemma orch_id_inj a b : 0 ≤ a → 0 ≤ b → orch_id a = orch_id b → a = b.
Proof. intros Ha Hb H. apply str_app_inj_l in H. by apply pad_zeros_inj in H. Qed.
Lemma orch_ids_NoDup a n : 0 ≤ a → NoDup (orch_id <$> seqZ a n).
Proof.
  intros Ha. apply NoDup_fmap_2_strong; [|apply NoDup_seqZ].
  intros x y Hx%elem_of_seqZ Hy%elem_of_seqZ H. apply orch_id_inj in H; lia.
Qed.
(** Stopping changes neither the ids nor who owns them. *)
Lemma close_ok n o now i : orch_ok n o → orch_ok n (o <| running ::= alter (close now) i |>).
Proof.
  intros [Hc Hi Ho Hf]. split; simpl; [done| |intros j e|done].
  - unfold running_ids. simpl. by rewrite dom_alter_L.
  - destruct (decide (i = j)) as [<-|Hne]; [rewrite lookup_alter_eq|by rewrite lookup_alter_ne; eauto].
    destruct (running o !! i) as [e'|] eqn:E; [|done]. intros [= <-]. by apply Ho in E.
Qed.
Lemma complete_ok n o now i ok : orch_ok n o → orch_ok n (complete_experiment now i ok o).2.
Proof.
  intros [Hc Hi Ho [Hf Hl]]. unfold complete_experiment.
  destruct (running o !! i) as [e|] eqn:E; [|by split]. destruct (Ho i e E) as [He1 He2].
  split; simpl; [done| |intros j e'|].
  - rewrite <-Hi. unfold running_ids, finished_ids. simpl. rewrite fmap_app. simpl. rewrite He1.
    assert (dom (running o) = {[i]} ∪ dom (delete i (running o))) as ->.
    { rewrite dom_delete_L. apply elem_of_dom_2 in E. apply set_eq. intros x.
      rewrite elem_of_union, elem_of_difference, elem_of_singleton.
      split; [intros; destruct (decide (x = i)); [by left|by right]|by intros [->|[? _]]]. }
    rewrite elements_union_singleton by (rewrite dom_delete_L, elem_of_difference, elem_of_singleton; by intros [_ []]).
    simpl. rewrite app_assoc. apply Permutation_app_comm with (l' := [i]).
  - intros [_ H]%lookup_delete_Some. by apply Ho.
  - rewrite He2, Hf. split; [done|]. rewrite Forall_app. repeat constructor; done.
Qed.
Lemma begun_ok n now name f tgt blast d o :
  Z.of_nat n + 1 < 2 ^ 64 → orch_ok n o →
  let '(r, o') := orch_start now name f tgt blast d o in
  match r with
  | Ok i => i = orch_id (Z.of_nat n + 1) ∧ orch_ok (S n) o'
  | Err _ => orch_ok n o'
  end.
Proof.
  intros Hn Hok. unfold orch_start. destruct (orch_enabled o); [|done]. simpl. destruct Hok as [Hc Hi Ho Hf].
  rewrite Hc. rewrite add64_small by (unfold in_u; lia). split; [done|].
  assert (orch_id (Z.of_nat n + 1) ∉ running_ids o ++ finished_ids o) as Hfresh.
  { rewrite Hi, list_elem_of_fmap. intros (k & Hk & Hin%elem_of_seqZ). apply orch_id_inj in Hk; lia. }
  rewrite elem_of_app in Hfresh.
  split; simpl; [lia| |intros j e|done].
  - unfold running_ids. simpl. rewrite dom_insert_L, elements_union_singleton.
    + rewrite seqZ_S, fmap_app, <-Hi, (Z.add_comm 1). apply Permutation_app_comm with (l := [_]).
    + intros H%elem_of_elements. apply Hfresh. by left.
  - rewrite lookup_insert_Some. intros [[<- <-]|[_ H]]; [done|by apply Ho].
Qed.
Lemma stop_ok n o now i : orch_ok n o → orch_ok n (orch_stop now i o).2.
Proof. intros H. unfold orch_stop. case_bool_decide; [by apply close_ok|done]. Qed.
Lemma foldl_ok {A} n (f : ChaosOrchestrator → A → ChaosOrchestrator) l o :
  (∀ o x, orch_ok n o → orch_ok n (f o x)) → orch_ok n o → orch_ok n (foldl f o l).
Proof. intros Hf. revert o. induction l; simpl; auto. Qed.
Lemma orch_step_ok n c o is_ o' :
  Z.of_nat n + 1 < 2 ^ 64 → orch_ok n o → orch_step c o = Some (is_, o') →
  is_ = orch_id <$> seqZ (Z.of_nat n + 1) (Z.of_nat (length is_)) ∧ orch_ok (n + length is_) o' ∧
  (length is_ ≤ 1)%nat.
Proof.
  intros Hn Hok H. destruct c as [now name f tgt blast d|now i|ck|now i ok|i c m|i|b|x|now]; simpl in H.
  1: { pose proof (begun_ok n now name f tgt blast d o Hn Hok) as Hs.
       destruct (orch_start now name f tgt blast d o) as [[i|e] o1]; simplify_eq/=.
       - destruct Hs as [-> Hs]. rewrite Nat.add_1_r. split_and!; [do 2 f_equal; lia|done|lia].
       - rewrite Nat.add_0_r. split_and!; [done|done|lia]. }
  8: { unfold orch_tick in H. destruct (none_panics _ _); simplify_eq/=. rewrite Nat.add_0_r.
       split_and!; [done| |lia]. apply foldl_ok; [|done]. intros o1 i H1. by apply complete_ok, close_ok. }
  all: simplify_eq/=; rewrite Nat.add_0_r; (split_and!; [done| |lia]).
  - by apply stop_ok.
  - apply foldl_ok; [|done]. intros o1 i H1. by apply stop_ok.
  - by apply complete_ok.
  - by destruct Hok.
  - by destruct Hok.
  - by destruct Hok.
  - by destruct Hok.
Qed.
Lemma orch_run_ok n cs o l o' :
  Z.of_nat (n + length cs) < 2 ^ 64 → orch_ok n o → orch_run cs o = Some (l, o') →
  l = orch_id <$> seqZ (Z.of_nat n + 1) (Z.of_nat (length l)) ∧ orch_ok (n + length l) o' ∧
  (length l ≤ length cs)%nat.
Proof.
  revert n o l. induction cs as [|c cs IH]; intros n o l Hn Hok H; simpl in H.
  { simplify_eq/=. rewrite Nat.add_0_r. split_and!; [done|done|lia]. }
  destruct (orch_step c o) as [[i o1]|] eqn:E; simpl in H; [|done].
  destruct (orch_run cs o1) as [[l' o2]|] eqn:E'; simpl in H; [|done]. simplify_eq. simpl in Hn.
  destruct (orch_step_ok n c o i o1) as (Ei & Ho1 & Hle); [lia|done..|].
  destruct (IH (n + length i)%nat o1 l') as (El & Ho2 & Hl); [lia|done..|].
  rewrite length_app, Nat.add_assoc. split_and!; [|done|simpl; lia].
  rewrite Nat2Z.inj_add, seqZ_app by lia. rewrite fmap_app, <-Ei. f_equal.
  rewrite El at 1. do 2 f_equal. lia.
Qed.
Lemma new_orchestrator_ok env : orch_ok 0 (new_orchestrator env).
Proof. split; simpl; done. Qed.

(** No experiment is lost or doubled.  After any sequence of calls and ticks, the
    ids that starts returned are distinct and are exactly those of the running
    experiments together with those of the history; every running experiment is stored
    under its own id.  And nothing ever counts a fault: the total, and the count of
    every record of the history, is zero. *)
Theorem experiments_conserved env cs l o :
  Z.of_nat (length cs) < 2 ^ 64 → orch_run cs (new_orchestrator env) = Some (l, o) →
  NoDup l ∧ l ≡ₚ running_ids o ++ finished_ids o ∧
  (∀ i e, running o !! i = Some e → id e = i) ∧
  total_faults o = 0 ∧ Forall (λ r, res_faults r = 0) (experiment_history o).
Proof.
  intros Hn H. apply (orch_run_ok 0) in H as (El & [Hc Hi Ho [Hf Hl]] & _); [|done|apply new_orchestrator_ok].
  change (Z.of_nat 0 + 1) with 1 in El. simpl in Hi. rewrite Hi, <-El. split_and!; [|done|intros i e ?; by apply Ho|done..].
  rewrite El. by apply orch_ids_NoDup.
Qed.

(** ** Ticks *)

Lemma expire_all now l o :
  NoDup l.*1 → (∀ i e, (i, e) ∈ l → running o !! i = Some e) →
  let o' := foldl (expire now) o l.*1 in
  (∀ i, running o' !! i = if decide (i ∈ l.*1) then None else running o !! i) ∧
  experiment_history o' = experiment_history o ++ ((λ x, result_of now true (close now x.2)) <$> l).
Proof.
  revert o. induction l as [|[i e] l IH]; intros o; simpl.
  { intros _ _. by rewrite app_nil_r. }
  intros [Hi Hnd]%NoDup_cons Hl.
  assert (running (expire now o i) = delete i (running o) ∧
    experiment_history (expire now o i) = experiment_history o ++ [result_of now true (close now e)]) as [E1 E2].
  { unfold expire, complete_experiment. simpl.
    rewrite lookup_alter_eq, (Hl i e) by (by left). simpl. split; [|done].
    apply map_eq. intros j. destruct (decide (i = j)) as [<-|]; [by rewrite !lookup_delete_eq|].
    by rewrite !lookup_delete_ne, lookup_alter_ne. }
  destruct (IH (expire now o i)) as [I1 I2]; [done| |].
  { intros j x Hj. rewrite E1, lookup_delete_ne; [apply Hl; by right|].
    intros <-. apply Hi. apply list_elem_of_fmap. by exists (i, x). }
  split; [|etransitivity; [exact I2|]; by rewrite E2, <-app_assoc].
  intros j. etransitivity; [apply I1|]. rewrite E1. destruct (decide (j ∈ l.*1)) as [Hj|Hj].
  - rewrite decide_True; [done|by right].
  - destruct (decide (i = j)) as [<-|Hne].
    + rewrite lookup_delete_eq, decide_True; [done|by left].
    + rewrite lookup_delete_ne, decide_False by (done || (intros [->|?]%elem_of_cons; done)). done.
Qed.

(** What a tick does.  The experiments that are enabled and have run their time
    leave the running ones, each with one successful record that ends now; all others
    are untouched - in particular those that were stopped, which no number of ticks
    ever moves. *)
Theorem tick_expires now o o' :
  orch_tick now o = Some o' →
  (∀ i e, running o' !! i = Some e ↔ running o !! i = Some e ∧ expired now e ≠ Some true) ∧
  (∃ gone, gone ≡ₚ filter (λ x, expired now x.2 = Some true) (map_to_list (running o)) ∧
    experiment_history o' = experiment_history o ++ ((λ x, result_of now true (close now x.2)) <$> gone)) ∧
  (∀ i e, running o !! i = Some e → exp_enabled e = false → running o' !! i = Some e).
Proof.
  unfold orch_tick. destruct (none_panics _ _); [|done]. intros [= <-]. unfold expired_ids.
  set (gone := filter _ (hash_iter (running o))).
  assert (∀ i e, (i, e) ∈ gone ↔ expired now e = Some true ∧ running o !! i = Some e) as Hg.
  { intros i e. unfold gone. by rewrite list_elem_of_filter, elem_of_hash_iter. }
  assert (∀ i e, running o !! i = Some e → i ∈ gone.*1 ↔ expired now e = Some true) as Hin.
  { intros i e He. rewrite list_elem_of_fmap. split.
    - intros ([j x] & -> & [Hx Hj]%Hg). simpl in He. congruence.
    - intros Hx. exists (i, e). split; [done|]. by apply Hg. }
  destruct (expire_all now gone o) as [E1 E2].
  { eapply sublist_NoDup; [apply (NoDup_hash_keys (running o))|]. apply fmap_sublist, sublist_filter. }
  { intros i e [_ H]%Hg. done. }
  assert (∀ i e, running (foldl (expire now) o gone.*1) !! i = Some e ↔
    running o !! i = Some e ∧ expired now e ≠ Some true) as Hr.
  { intros i e. rewrite E1. destruct (running o !! i) as [x|] eqn:Ex.
    2: { case_decide; split; [done|by intros [? _]|done|by intros [? _]]. }
    specialize (Hin i x Ex). case_decide as Hd; split; [done| | |].
    - intros [[= ->] Hne]. destruct Hne. by apply Hin.
    - intros [= ->]. split; [done|]. intros Hx. by apply Hd, Hin.
    - by intros [? _]. }
  split_and!; [done| |].
  - exists gone. split; [|done]. unfold gone. by rewrite hash_iter_perm.
  - intros i e He Hoff. apply Hr. split; [done|]. unfold expired. by rewrite Hoff.
Qed.

(** A client that asks before each scheduled run respects the maximum. *)
Definition run_due (i : string) o : ChaosOrchestrator :=
  if can_run_scheduled i o then record_scheduled_run i o else o.
Lemma scheduled_runs_bounded i o c m r k :
  schedules o !! i = Some (mkSchedule c (Some m) r) → 0 ≤ r ≤ m → m < 2 ^ 32 →
  schedules (Nat.iter k (run_due i) o) !! i = Some (mkSchedule c (Some m) (Z.min m (r + Z.of_nat k))).
Proof.
  intros Hi Hr Hm. induction k as [|k IH].
  - simpl. rewrite Hi. do 2 f_equal. lia.
  - rewrite Nat.iter_succ. unfold run_due at 1, can_run_scheduled. rewrite IH. simpl.
    destruct (Z.ltb_spec (Z.min m (r + Z.of_nat k)) m).
    + unfold record_scheduled_run. simpl. rewrite lookup_alter_eq, IH. simpl. do 2 f_equal.
      rewrite add32_small by (unfold in_u; lia). lia.
    + rewrite IH. do 2 f_equal. lia.
Qed.
(** A rule is added with the source address and deleted without it: the two commands
    name different rules. *)
Lemma partition_arguments now run ip chain rule :
  create_network_partition now run ip chain = Ok rule →
  (∃ out, run (mkCommand "sudo" ["iptables"; "-A"; chain; "-s"; ip; "-j"; "DROP"; "-m"; "comment";
                                 "--comment"; rule] []) = Ok out ∧ exit_ok out = true) ∧
  ∀ run', remove_network_partition run' rule chain = Ok tt →
    ∃ out, run' (mkCommand "sudo" ["iptables"; "-D"; chain; "-m"; "comment"; "--comment"; rule; "-j"; "DROP"] [])
      = Ok out ∧ exit_ok out = true.
Proof.
  unfold create_network_partition, remove_network_partition. intros H.
  destruct (run_checked run _ _) as [out|] eqn:E; simpl in H; [|done]. simplify_eq.
  apply run_checked_ok in E. split; [by exists out|]. intros run' H'.
  destruct (run_checked run' _ _) as [out'|] eqn:E'; simpl in H'; [|done].
  apply run_checked_ok in E'. by exists out'.
Qed.
End chaos.

(** ** Concrete runs *)
Section chaos_runs.
#[local] Existing Instance decimal_rfc3339.
#[local] Existing Instance canonical_order.

Definition half : f64 := f64_div (f64_of_Z 1) (f64_of_Z 2).
Definition demo_env : environment :=
  {[ "CHAOS_ENABLED" := "true"; "CHAOS_ERROR_RATE" := "0.5"; "CHAOS_ORCHESTRATOR_ENABLED" := "1" ]}.
(** An experiment that partitions [db] at no blast radius: a request for [web] still
    gets an error, as the settings say. *)
Definition demo_calls : list ChaosOp :=
  [OpStart 0 "cut" Partition "db" (f64_of_Z 0) 60; OpEvaluate 1 half half "web";
   OpEvaluate 2 half (f64_of_Z 1) "web"; OpStop 3 "exp-001"; OpEvaluate 4 half half "web"].
Example demo_answers :
  (λ p : _ * _, (map fault_type p.1, map injected p.1)) <$> chaos_run demo_calls (new_chaos demo_env)
  = Some ([Error; Error; Error], [true; false; true]).
Proof. vm_compute. done. Qed.
Lemma experiments_inert_witness :
  match chaos_run demo_calls (new_chaos demo_env) with
  | Some (rs, s) =>
      chaos_run (filter (λ c, on_experiments c = false) demo_calls) (new_chaos demo_env) = Some (rs, bare s) ∧
      counted rs (new_chaos demo_env) s
  | None => False
  end.
Proof.
  destruct (chaos_run demo_calls (new_chaos demo_env)) as [[rs s]|] eqn:E;
    [|exfalso; revert E; vm_compute; discriminate].
  exact (experiments_inert demo_env demo_calls rs s E).
Defined.

(** Two experiments of a minute; the first is stopped by hand, and ticks move only the
    second. *)
Definition demo_orch : list OrchOp :=
  [OStart 0 "a" Latency "db" half 60; OStart 0 "b" Kill "db" half 60; OStop 1 "orch-exp-0001";
   OTick (60 * 10 ^ 9); OTick (9999 * 10 ^ 9)].
Example demo_orchestrated :
  (λ p : _ * _, (p.1, running_ids p.2, finished_ids p.2)) <$> orch_run demo_orch (new_orchestrator demo_env)
  = Some (["orch-exp-0001"; "orch-exp-0002"], ["orch-exp-0001"], ["orch-exp-0002"]).
Proof. vm_compute. done. Qed.
Lemma experiments_conserved_witness :
  match orch_run demo_orch (new_orchestrator demo_env) with
  | Some (l, o) => NoDup l ∧ l ≡ₚ running_ids o ++ finished_ids o ∧
      (∀ i e, running o !! i = Some e → id e = i) ∧
      total_faults o = 0 ∧ Forall (λ r, res_faults r = 0) (experiment_history o)
  | None => False
  end.
Proof.
  destruct (orch_run demo_orch (new_orchestrator demo_env)) as [[l o]|] eqn:E;
    [|exfalso; revert E; vm_compute; discriminate].
  apply (experiments_conserved demo_env demo_orch l o); [done|exact E].
Defined.
Lemma tick_expires_witness :
  match orch_run (take 3 demo_orch) (new_orchestrator demo_env) with
  | Some (_, o) =>
      match orch_tick (60 * 10 ^ 9) o with
      | Some o' => ∀ i e, running o !! i = Some e → exp_enabled e = false → running o' !! i = Some e
      | None => False
      end
  | None => False
  end.
Proof.
  destruct (orch_run (take 3 demo_orch) (new_orchestrator demo_env)) as [[l o]|] eqn:E;
    [|exfalso; revert E; vm_compute; discriminate].
  destruct (orch_tick (60 * 10 ^ 9) o) as [o'|] eqn:E'.
  - exact (proj2 (proj2 (tick_expires (60 * 10 ^ 9) o o' E'))).
  - exfalso. revert E E'. intros [= _ <-]. vm_compute. discriminate.
Defined.
End chaos_runs.
