(* ===== verification/Process.v ===== *)
(** * The child process ([shim-core/src/process.rs])

    [ChildProcess]: starting the configured command, asking whether it runs, and
    stopping it through the shutdown manager of [Shutdown.v].  [Reaper.v] has
    the task that reaps children. *)

From S2P Require Import Prelude Text Config Shutdown.

(** [ProcessState] *)
Inductive ProcessState := Stopped | Starting | Running | Stopping | Failed.
Record ChildProcess := mkChild {
  config : ProcessConfig;
  pid : option Z;
  has_child : bool;
  state : ProcessState;
  db_type : DatabaseType;
  exit_code : option Z;
  pidfd : option Z
}.
#[export] Instance ChildProcess_settable : Settable ChildProcess := λ c,
  mkChild (config c) (pid c) (has_child c) (state c) (db_type c) (exit_code c) (pidfd c).

Definition with_db_type (cfg : ProcessConfig) (d : DatabaseType) : ChildProcess :=
  mkChild cfg None false Stopped d None None.
Definition new_child (cfg : ProcessConfig) : ChildProcess := with_db_type cfg Generic.
Definition set_db_type (d : DatabaseType) (c : ChildProcess) : ChildProcess := c <| db_type := d |>.

(** [start], with the answers of [spawn] and [child.id()], and of [pidfd_open] *)
Definition start (spawn : result string (option Z)) (pidfd_open : Z) (c : ChildProcess)
    : result string unit * ChildProcess :=
  match spawn with
  | Err e => (Err e, c)
  | Ok i =>
      let p := default 0 i in
      if p =? 0 then (Err "child process has no valid PID", c)
      else
        let c := c <| pid := Some p |> <| has_child := true |> <| state := Running |> in
        (Ok tt, if 0 <=? pidfd_open then c <| pidfd := Some pidfd_open |> else c)
  end.
Definition close_pidfd (c : ChildProcess) : ChildProcess := c <| pidfd := None |>.

(** What [is_running] makes of [/proc/<pid>/status] *)
Fixpoint state_line (ls : list string) : bool :=
  match ls with
  | [] => true
  | l :: ls => if starts_with l "State:" then negb (str_contains l "(zombie)") else state_line ls
  end.
Definition status_alive (content : string) : bool := state_line (split_on newline content).

Section process.
Context `{OS : Os} (proc_status : Z → World → option string).
Implicit Types (w : World) (c : ChildProcess).

Definition is_running w c : bool :=
  match pid c with
  | Some p => match proc_status p w with Some content => status_alive content | None => false end
  | None => false
  end.
(** [signal] *)
Definition signal_child (sg : Signal) w c : result string unit * World :=
  match pid c with Some p => kill (as_i32 p) sg w | None => (Ok tt, w) end.

(** [stop]: the manager is made for the call, so it has no operations in flight; its
    shutdown returns a result, never an error. *)
Definition stop (env : environment) w c : option (ChildProcess * World) :=
  match pid c with
  | None => Some (c, w)
  | Some p =>
      let c := c <| state := Stopping |> in
      '(r, _, w) ← manager_shutdown (λ _, []) p (new_manager env (db_type c) (shutdown_timeout_secs (config c))) w;
      let w :=
        if negb (clean_exit r) && is_running w c
        then sleep 500 (kill (as_i32 p) SIGKILL w).2
        else w in
      Some (close_pidfd (c <| has_child := false |> <| pid := None |>) <| state := Stopped |>, w)
  end.

(** A manager without operations in flight goes straight to its handler. *)
Lemma fresh_manager_shutdown during p env d secs w :
  manager_shutdown during p (new_manager env d secs) w =
    '(r, w) ← shutdown_handler d p secs w; Some (r, (new_manager env d secs) <| initiated := true |>, w).
Proof. reflexivity. Qed.

(** Stopping returns, and the record says so: stopped, with nothing held. *)
Lemma stop_returns env w c :
  in_u 64 (shutdown_timeout_secs (config c)) → is_Some (pid c) →
  ∃ c' w', stop env w c = Some (c', w') ∧
    state c' = Stopped ∧ pid c' = None ∧ has_child c' = false ∧ pidfd c' = None ∧ is_running w' c' = false.
Proof.
  intros Hu [p Hp]. unfold stop. rewrite Hp. simpl. rewrite fresh_manager_shutdown.
  destruct (handler_returns (db_type c) p (shutdown_timeout_secs (config c)) w) as (r & w1 & -> & _);
    [unfold in_u in Hu; lia|done|]. simpl. by eexists _, _.
Qed.

(** A process that does not die of SIGTERM, as in [Shutdown.v] *)
Section stubborn_child.
Context (p : Z) (Immune Dead : World → Prop).
Context (immune_alive : ∀ w, Immune w → is_process_alive p w = true).
Context (immune_sleep : ∀ d w, 0 ≤ d → Immune w → Immune (sleep d w)).
Context (immune_term : ∀ w, Immune w → ∃ w', kill (as_i32 p) SIGTERM w = (Ok tt, w') ∧ Immune w').
Context (immune_kill : ∀ w, Immune w → ∃ w', kill (as_i32 p) SIGKILL w = (Ok tt, w') ∧ Dead w').
Context (immune_status : ∀ w, Immune w → ∃ s, proc_status p w = Some s ∧ status_alive s = true).
Context (dead_alive : ∀ w, Dead w → is_process_alive p w = false).
Context (dead_sleep : ∀ d w, 0 ≤ d → Dead w → Dead (sleep d w)).
Context (dead_reap : ∀ w, Dead w → Dead (reap (as_i32 p) w)).
Context (dead_kill : ∀ w, Dead w → Dead (kill (as_i32 p) SIGKILL w).2).

(** C22. Stopping ends the process.  Whatever the database type, a running child that
    ignores SIGTERM and dies of SIGKILL is dead when [stop] returns, and the record says
    so: it is stopped, with no process id, no child handle and no descriptor, and
    [is_running] answers no.  Where the PostgreSQL and the Redis handler give up, [stop]
    itself escalates. *)
Theorem stop_ends_stubborn env w c :
  in_u 64 (shutdown_timeout_secs (config c)) → 0 < p → pid c = Some p → Immune w →
  ∃ c' w', stop env w c = Some (c', w') ∧ Dead w' ∧ state c' = Stopped ∧ pid c' = None ∧
    has_child c' = false ∧ pidfd c' = None ∧ is_running w' c' = false.
Proof.
  intros Hu Hp Hpid Hi. unfold stop. rewrite Hpid. simpl. rewrite fresh_manager_shutdown.
  destruct (db_type c) as [| |] eqn:Ed.
  3: { destruct (generic_escalates p Immune Dead immune_alive immune_sleep immune_term immune_kill
         dead_sleep (shutdown_timeout_secs (config c)) w) as (r & w' & Hg & Hc & _ & Hd); [done..|].
       rewrite Hg. simpl. rewrite Hc. simpl. eexists _, _. split_and!; [done| |done..].
       destruct (is_running _ _); [|done]. apply dead_sleep; [lia|]. by apply dead_kill. }
  1,2: destruct (handlers_give_up p Immune immune_alive immune_sleep immune_term (db_type c)
         (shutdown_timeout_secs (config c)) w) as (r' & w1 & Hg & Hc' & _ & Hi1); [done|done|auto|];
       rewrite Ed in Hg; rewrite Hg.
  all: simpl; rewrite Hc'; unfold is_running; simpl; rewrite Hpid.
  all: destruct (immune_status w1 Hi1) as (st & -> & ->); simpl.
  all: destruct (immune_kill w1 Hi1) as (w2 & -> & Hd2); simpl.
  all: eexists _, _; split_and!; [done| |done..]; by apply dead_sleep.
Qed.
End stubborn_child.

(** ** The exit code is never known. *)

Inductive ChildOp :=
| OpStart (spawn : result string (option Z)) (fd : Z)
| OpStop (env : environment)
| OpType (d : DatabaseType).
Definition child_step (o : ChildOp) (st : ChildProcess * World) : option (ChildProcess * World) :=
  match o with
  | OpStart sp fd => Some ((start sp fd st.1).2, st.2)
  | OpStop env => stop env st.2 st.1
  | OpType d => Some (set_db_type d st.1, st.2)
  end.
Fixpoint child_run (os : list ChildOp) (st : ChildProcess * World) : option (ChildProcess * World) :=
  match os with [] => Some st | o :: os => child_step o st ≫= child_run os end.
(** Running, with a process id, or stopped, without one; and no exit code, though the
    field is documented to hold it once the child has exited *)
Definition child_ok c : Prop :=
  exit_code c = None ∧
  match state c with
  | Running => ∃ p, pid c = Some p ∧ p ≠ 0 ∧ has_child c = true
  | Stopped => pid c = None ∧ has_child c = false
  | _ => False
  end.
Lemma child_step_ok o st st' : child_ok st.1 → child_step o st = Some st' → child_ok st'.1.
Proof.
  destruct st as [c w]. intros [He Hs]. destruct o as [sp fd|env|d]; simpl; intros H.
  - simplify_eq/=. unfold start. destruct sp as [i|e]; [|by split].
    destruct (Z.eqb_spec (default 0 i) 0); [by split|].
    destruct (0 <=? fd); split; simpl; eauto.
  - unfold stop in H. destruct (pid c) as [p|] eqn:Ep; [|by simplify_eq].
    destruct (manager_shutdown _ _ _ _) as [[[r m] w1]|]; [|done]. simplify_eq/=. by split.
  - by simplify_eq/=.
Qed.
(** The life of a child: after any sequence of starts, stops and changes of the
    type, the record is either running with a valid process id or stopped with none,
    and the exit code, which is documented to be set when the child exits, is
    unknown. *)
Theorem child_states cfg d os w c w' :
  child_run os (with_db_type cfg d, w) = Some (c, w') → child_ok c.
Proof.
  assert (∀ st st', child_ok st.1 → child_run os st = Some st' → child_ok st'.1) as H.
  { induction os as [|o os IH]; intros st st' Hs Hr; simpl in Hr; [by simplify_eq|].
    destruct (child_step o st) as [st1|] eqn:E; [|done]. eapply IH; [|exact Hr]. by eapply child_step_ok. }
  intros Hr. apply H in Hr; [done|]. by split.
Qed.
End process.

(** ** Runs *)
Section process_runs.
#[local] Existing Instance proc_os.
Definition demo_status (_ : Z) (w : Proc) : option string :=
  if alive 0 w then Some ("Name: db" +:+ String newline "State: S (sleeping)") else None.
Definition demo_config : ProcessConfig := mkProcess "db" [] None 10 5.
Definition demo_child : ChildProcess := (start (Ok (Some 42)) 7 (with_db_type demo_config Postgres)).2.
Definition deaf : Proc := mkProc 0 None None.

Example demo_zombie : status_alive ("Name: db" +:+ String newline "State: Z (zombie)") = false.
Proof. reflexivity. Qed.
(** Starting twice keeps one handle only: the first descriptor is forgotten. *)
Example demo_start_twice :
  (λ c, (pid c, pidfd c)) (start (Ok (Some 43)) 8 demo_child).2 = (Some 43, Some 8).
Proof. reflexivity. Qed.
Lemma stop_ends_stubborn_witness :
  ∃ c' w', stop demo_status ∅ deaf demo_child = Some (c', w') ∧ is_process_alive 42 w' = false ∧
    state c' = Stopped ∧ pid c' = None ∧
    has_child c' = false ∧ pidfd c' = None ∧ is_running demo_status w' c' = false.
Proof.
  apply (stop_ends_stubborn (OS := proc_os) demo_status 42 (λ w, delay w = None ∧ dies_at w = None)
    (λ w, is_process_alive 42 w = false)); try done.
  - intros [? ? ?] [? ?]; simpl in *; by subst.
  - intros [? ? ?] [Hd Hx]; simpl in *. subst. by eexists.
  - intros [? ? ?] [Hd Hx]; simpl in *. eexists. split; [done|]. apply Z.ltb_irrefl.
  - intros [? ? ?] [Hd Hx]; simpl in *. subst. by eexists.
  - intros d [x ? [y|]] Hd; unfold is_process_alive; simpl; [|done]. rewrite !Z.ltb_ge. lia.
  - intros [x ? [y|]]; unfold is_process_alive; simpl; [|done]. intros _. apply Z.ltb_irrefl.
Defined.
Lemma child_states_witness :
  match child_run demo_status [OpStart (Ok (Some 42)) 7; OpStop ∅; OpStart (Err "no") 7]
          (with_db_type demo_config Redis, deaf) with
  | Some (c, _) => child_ok c ∧ state c = Stopped
  | None => False
  end.
Proof.
  destruct (child_run _ _ _) as [[c w]|] eqn:E; [|exfalso; revert E; vm_compute; discriminate].
  split; [exact (child_states (OS := proc_os) demo_status demo_config Redis _ deaf c w E)|]. revert E. vm_compute. by intros [= <- _].
Defined.
End process_runs.
