(* ===== verification/Reaper.v ===== *)
(** * The task that reaps children ([shim-core/src/process.rs], end of [ChildProcess::start])

    [start] spawns a loop that calls [waitpid(-1, WNOHANG)] for as long as the program
    runs.  It collects any child of the process, so also those that other parts of the
    program started and wait for: the commands of the shims.  Here the loop is put beside
    them, over the table of children the kernel keeps. *)

From S2P Require Import Prelude Text Config Process.

(** ** The kernel's table of children ([waitpid(2)], [fork(2)])

    A child is alive, or a zombie that holds its status until it is waited for; its number
    is free again after that. *)
Inductive child_state := Alive | Zombie (code : Z).
#[export] Instance child_state_eq_dec : EqDecision child_state.
Proof. solve_decision. Defined.
Inductive wait_answer := Exited (code : Z) | StillAlive | Echild.

Class ProcTable := {
  ptable : Type;
  child_of : ptable → Z → option child_state;
  pt_fork : ptable → Z * ptable;
  pt_exit : Z → Z → ptable → ptable;
  pt_wait_any : ptable → option (Z * Z) * ptable;
  pt_wait : Z → ptable → wait_answer * ptable;
  zombies : ptable → nat;
  fork_fresh : ∀ t, child_of t (pt_fork t).1 = None;
  fork_state : ∀ t p, child_of (pt_fork t).2 p = if decide (p = (pt_fork t).1) then Some Alive else child_of t p;
  exit_state : ∀ p code t q, child_of (pt_exit p code t) q =
    if decide (q = p ∧ child_of t p = Some Alive) then Some (Zombie code) else child_of t q;
  wait_any_some : ∀ t p code, (pt_wait_any t).1 = Some (p, code) → child_of t p = Some (Zombie code) ∧
    (∀ q, child_of (pt_wait_any t).2 q = if decide (q = p) then None else child_of t q) ∧
    (zombies (pt_wait_any t).2 < zombies t)%nat;
  wait_any_none : ∀ t, (pt_wait_any t).1 = None → (pt_wait_any t).2 = t ∧ ∀ p code, child_of t p ≠ Some (Zombie code);
  wait_answered : ∀ p t, (pt_wait p t).1 =
    match child_of t p with Some (Zombie code) => Exited code | Some Alive => StillAlive | None => Echild end;
  wait_state : ∀ p t q, child_of (pt_wait p t).2 q =
    match child_of t p with Some (Zombie _) => if decide (q = p) then None else child_of t q | _ => child_of t q end
}.

Section reaper.
Context `{PT : ProcTable}.

(** ** The loop *)

(** What it does with one answer: it goes on at once, or sleeps 100 ms; the children it
    collected are logged and forgotten. *)
Definition reaper_turn (t : ptable) : option (Z * Z) * ptable := pt_wait_any t.
(** From one sleep to the next *)
Fixpoint reaper_pass (fuel : nat) (t : ptable) : option (list (Z * Z) * ptable) :=
  match fuel with
  | O => None
  | S fuel =>
      match reaper_turn t with
      | (Some c, t) => '(cs, t) ← reaper_pass fuel t; Some (c :: cs, t)
      | (None, t) => Some ([], t)
      end
  end.

Lemma reaper_pass_ends fuel : ∀ t, (zombies t < fuel)%nat → ∃ cs t', reaper_pass fuel t = Some (cs, t') ∧
  (∀ p, child_of t' p = match child_of t p with Some (Zombie _) => None | s => s end) ∧
  (∀ p code, (p, code) ∈ cs → child_of t p = Some (Zombie code)) ∧
  (∀ p code, child_of t p = Some (Zombie code) → (p, code) ∈ cs).
Proof.
  induction fuel as [|fuel IH]; intros t Hz; [lia|]. simpl. unfold reaper_turn.
  destruct (pt_wait_any t) as [[[p code]|] t1] eqn:E.
  - destruct (wait_any_some t p code) as (Hp & Hq & Hlt); [by rewrite E|]. rewrite E in Hq, Hlt. simpl in *.
    destruct (IH t1) as (cs & t' & -> & Hs & Hin & Hall); [lia|]. simpl. exists ((p, code) :: cs), t'.
    split; [done|]. split_and!.
    + intros q. rewrite Hs, Hq. destruct (decide (q = p)) as [->|]; [by rewrite Hp|done].
    + intros q c [[= -> ->]|Hc]%elem_of_cons; [done|]. apply Hin in Hc. rewrite Hq in Hc. by destruct (decide (q = p)).
    + intros q c Hc. destruct (decide (q = p)) as [->|Hne].
      * rewrite Hp in Hc. injection Hc as <-. constructor.
      * constructor. apply Hall. rewrite Hq. by rewrite decide_False.
  - destruct (wait_any_none t) as [Ht Hn]; [by rewrite E|]. rewrite E in Ht. simpl in Ht. subst t1.
    exists [], t. split; [done|]. split_and!.
    + intros p. destruct (child_of t p) as [[]|] eqn:Ep; [done| |done]. by destruct (Hn p code).
    + intros p c Hc. by apply elem_of_nil in Hc.
    + intros p c Hc. by destruct (Hn p c).
Qed.
Definition reap_all (t : ptable) : list (Z * Z) * ptable := default ([], t) (reaper_pass (S (zombies t)) t).
Lemma reap_all_spec t :
  (∀ p, child_of (reap_all t).2 p = match child_of t p with Some (Zombie _) => None | s => s end) ∧
  (∀ p code, (p, code) ∈ (reap_all t).1 ↔ child_of t p = Some (Zombie code)).
Proof.
  unfold reap_all. destruct (reaper_pass_ends (S (zombies t)) t) as (cs & t' & -> & H1 & H2 & H3); [lia|].
  simpl. split; [done|]. intros p code. split; auto.
Qed.

(** ** The program: commands that are run to their end, and the loop *)

(** A command some shim runs: its child, the status that child exited with if it did, and
    what the shim got for it *)
Record command := mkCommand { c_pid : Z; c_exit : option Z; c_result : option (result string Z) }.
#[local] Instance command_settable : Settable command := λ c, mkCommand (c_pid c) (c_exit c) (c_result c).
(** The table, the commands, and what the loop collected *)
Record procs := mkProcs { p_table : ptable; commands : list command; reaped : list (Z * Z) }.
#[local] Instance procs_settable : Settable procs := λ s, mkProcs (p_table s) (commands s) (reaped s).

Definition no_child_processes : string := "No child processes (os error 10)".
Definition run_command (s : procs) : procs :=
  let '(p, t) := pt_fork (p_table s) in
  s <| p_table := t |> <| commands ::= λ l, l ++ [mkCommand p None None] |>.
Definition command_exits (k : nat) (code : Z) (s : procs) : procs :=
  match commands s !! k with
  | Some c =>
      if decide (c_exit c = None)
      then s <| p_table ::= pt_exit (c_pid c) code |> <| commands ::= <[k := c <| c_exit := Some code |>]> |>
      else s
  | None => s
  end.
(** The shim that started it waits for its child. *)
Definition command_waits (k : nat) (s : procs) : procs :=
  match commands s !! k with
  | Some c =>
      match c_result c with
      | None =>
          let '(a, t) := pt_wait (c_pid c) (p_table s) in
          match a with
          | Exited code => s <| p_table := t |> <| commands ::= <[k := c <| c_result := Some (Ok code) |>]> |>
          | Echild => s <| p_table := t |> <| commands ::= <[k := c <| c_result := Some (Err no_child_processes) |>]> |>
          | StillAlive => s
          end
      | Some _ => s
      end
  | None => s
  end.
Definition reap (s : procs) : procs :=
  let '(cs, t) := reap_all (p_table s) in s <| p_table := t |> <| reaped ::= λ l, l ++ cs |>.

Inductive proc_event := EvRun | EvExit (k : nat) (code : Z) | EvWait (k : nat) | EvReap.
Definition proc_apply (s : procs) (v : proc_event) : procs :=
  match v with
  | EvRun => run_command s
  | EvExit k code => command_exits k code s
  | EvWait k => command_waits k s
  | EvReap => reap s
  end.
Definition proc_exec (vs : list proc_event) (s : procs) : procs := foldl proc_apply s vs.
Definition no_procs (t : ptable) : procs := mkProcs t [] [].

(** ** Without the loop, every command gets its own status *)

Definition by_owner (v : proc_event) : bool := match v with EvReap => false | _ => true end.
Definition command_ok (t : ptable) (c : command) : Prop :=
  match c_result c with
  | None => child_of t (c_pid c) = Some (from_option Zombie Alive (c_exit c))
  | Some r => ∃ x, c_exit c = Some x ∧ r = Ok x
  end.
Record procs_inv (s : procs) : Prop := {
  pi_commands : ∀ k c, commands s !! k = Some c → command_ok (p_table s) c;
  pi_distinct : ∀ k k' c c', commands s !! k = Some c → commands s !! k' = Some c' →
    c_result c = None → c_result c' = None → c_pid c = c_pid c' → k = k'
}.
Lemma no_procs_inv t : procs_inv (no_procs t).
Proof. by split. Qed.

(** A command that is changed, where the table changes at most at its own child *)
Lemma update_command_inv s k c c' t :
  procs_inv s → commands s !! k = Some c → c_pid c' = c_pid c → c_result c = None →
  command_ok t c' → (∀ q, q ≠ c_pid c → child_of t q = child_of (p_table s) q) →
  procs_inv (s <| p_table := t |> <| commands ::= <[k := c']> |>).
Proof.
  intros [Hok Hd] Hk Hp Hr Hc' Hq. assert (k < length (commands s))%nat as Hlt by (by eapply lookup_lt_Some). split; simpl.
  - intros k2 c2. destruct (decide (k2 = k)) as [->|Hne]; [rewrite list_lookup_insert_eq by done; by intros [= <-]|].
    rewrite list_lookup_insert_ne by done. intros Hk2. pose proof (Hok _ _ Hk2) as H. unfold command_ok in *.
    destruct (c_result c2) eqn:E; [done|]. rewrite Hq; [done|]. intros Ep. destruct Hne. by eapply Hd.
  - intros k1 k2 c1 c2 H1 H2 R1 R2 E. rewrite list_lookup_insert in H1. rewrite list_lookup_insert in H2.
    destruct (decide (k = k1 ∧ _)) as [[<- _]|N1], (decide (k = k2 ∧ _)) as [[<- _]|N2]; [done| | |by eapply Hd].
    + injection H1 as <-. rewrite Hp in E. by eapply Hd.
    + injection H2 as <-. rewrite Hp in E. by eapply Hd.
Qed.
Lemma proc_apply_inv s v : by_owner v = true → procs_inv s → procs_inv (proc_apply s v).
Proof.
  intros Hv Hi. destruct v as [|k code|k|]; [| | |done]; simpl.
  - unfold run_command. destruct (pt_fork (p_table s)) as [p t] eqn:E.
    pose proof (fork_fresh (p_table s)) as Hf. pose proof (fork_state (p_table s)) as Hst. rewrite E in Hf, Hst. simpl in *.
    destruct Hi as [Hok Hd].
    assert (∀ k c, commands s !! k = Some c → c_result c = None → c_pid c ≠ p) as Hnew.
    { intros k c Hk Hr Ep. pose proof (Hok _ _ Hk) as H. unfold command_ok in H. rewrite Hr, Ep, Hf in H. done. }
    split; simpl.
    + intros k c [Hk|[_ Hk]]%lookup_app_Some.
      * pose proof (Hok _ _ Hk) as H. unfold command_ok in *. destruct (c_result c) eqn:Er; [done|].
        rewrite Hst. rewrite decide_False; [done|]. by eapply Hnew.
      * apply list_lookup_singleton_Some in Hk as [_ <-]. unfold command_ok. simpl. rewrite Hst. by rewrite decide_True.
    + intros k k' c c' [Hk|[Hl Hk]]%lookup_app_Some [Hk'|[Hl' Hk']]%lookup_app_Some R R' Ep.
      * by eapply Hd.
      * apply list_lookup_singleton_Some in Hk' as [_ <-]. by destruct (Hnew _ _ Hk R).
      * apply list_lookup_singleton_Some in Hk as [_ <-]. by destruct (Hnew _ _ Hk' R').
      * apply list_lookup_singleton_Some in Hk as [Hk _], Hk' as [Hk' _]. lia.
  - unfold command_exits. destruct (commands s !! k) as [c|] eqn:Hk; [|done]. destruct (decide (c_exit c = None)) as [He|]; [|done].
    pose proof (pi_commands _ Hi _ _ Hk) as Hc. unfold command_ok in Hc. destruct (c_result c) eqn:Hr.
    { destruct Hc as (x & Hx & _). congruence. }
    rewrite He in Hc. simpl in Hc. eapply (update_command_inv s k c); [done|done|done|done| |].
    + unfold command_ok. simpl. rewrite Hr. simpl. rewrite exit_state. by rewrite decide_True.
    + intros q Hq. rewrite exit_state. rewrite decide_False; [done|]. by intros [? _].
  - unfold command_waits. destruct (commands s !! k) as [c|] eqn:Hk; [|done]. destruct (c_result c) eqn:Hr; [done|].
    pose proof (pi_commands _ Hi _ _ Hk) as Hc. unfold command_ok in Hc. rewrite Hr in Hc.
    pose proof (wait_answered (c_pid c) (p_table s)) as Ha. pose proof (wait_state (c_pid c) (p_table s)) as Hs.
    destruct (pt_wait (c_pid c) (p_table s)) as [a t]. simpl in Ha, Hs. rewrite Hc in Ha. rewrite Ha.
    destruct (c_exit c) as [x|] eqn:Ex; simpl; [|done].
    eapply (update_command_inv s k c); [done|done|done|done| |].
    + unfold command_ok. simpl. by exists x.
    + intros q Hq. rewrite Hs, Hc. simpl. by rewrite decide_False.
Qed.
Lemma proc_exec_inv vs : ∀ s, forallb by_owner vs = true → procs_inv s → procs_inv (proc_exec vs s).
Proof.
  induction vs as [|v vs IH]; intros s Hv Hi; [done|]. simpl in *. apply andb_true_iff in Hv as [H1 H2].
  apply IH; [done|]. by apply proc_apply_inv.
Qed.

(** ** With it, a command that exited is reported as failed *)

Definition starts (v : proc_event) : bool := match v with EvRun => true | _ => false end.
(** The command [k] has lost its child, and was answered with nothing but an error. *)
Definition robbed (k : nat) (s : procs) : Prop :=
  ∃ c, commands s !! k = Some c ∧ child_of (p_table s) (c_pid c) = None ∧
    (c_result c = None ∨ c_result c = Some (Err no_child_processes)).
Lemma robbed_apply k s v : starts v = false → robbed k s → robbed k (proc_apply s v).
Proof.
  intros Hv (c & Hk & Hn & Hr). destruct v as [|k' code|k'|]; [done| | |]; simpl.
  - unfold command_exits. destruct (commands s !! k') as [c'|] eqn:Hk'; [|by exists c]. destruct (decide _); [|by exists c].
    unfold robbed. simpl. setoid_rewrite exit_state. rewrite list_lookup_insert. destruct (decide (k' = k ∧ _)) as [[-> _]|].
    + assert (c' = c) as -> by congruence. eexists. split; [done|]. simpl. rewrite decide_False; [done|].
      intros [_ H]. congruence.
    + exists c. split_and!; [done| |done]. rewrite decide_False; [done|]. intros [<- H]. congruence.
  - unfold command_waits. destruct (commands s !! k') as [c'|] eqn:Hk'; [|by exists c]. destruct (c_result c') eqn:Hr'; [by exists c|].
    pose proof (wait_answered (c_pid c') (p_table s)) as Ha. pose proof (wait_state (c_pid c') (p_table s)) as Hs.
    destruct (pt_wait (c_pid c') (p_table s)) as [a t]. simpl in Ha, Hs.
    assert (∀ q, child_of (p_table s) q = None → child_of t q = None) as Hkeep.
    { intros q Hq. rewrite Hs. destruct (child_of (p_table s) (c_pid c')) as [[]|]; [done| |done]. by destruct (decide _). }
    assert (∀ r, (k' = k → r = Err no_child_processes) →
      robbed k (s <| p_table := t |> <| commands ::= <[k' := c' <| c_result := Some r |>]> |>)) as Hgo.
    { intros r Hrk. unfold robbed. simpl. rewrite list_lookup_insert. destruct (decide (k' = k ∧ _)) as [[-> _]|].
      - assert (c' = c) as -> by congruence. eexists. split; [done|]. simpl. rewrite Hrk by done. auto.
      - exists c. split_and!; auto. }
    destruct a as [code| |]; [|by exists c|].
    + apply Hgo. intros ->. assert (c' = c) as -> by congruence. rewrite Hn in Ha. done.
    + by apply Hgo.
  - unfold reap. destruct (reap_all_spec (p_table s)) as [H _]. destruct (reap_all (p_table s)) as [cs t]. simpl in H.
    exists c. split_and!; [done| |done]. simpl. by rewrite H, Hn.
Qed.
Lemma robbed_exec k vs : ∀ s, forallb (negb ∘ starts) vs = true → robbed k s → robbed k (proc_exec vs s).
Proof.
  induction vs as [|v vs IH]; intros s Hv Hr; [done|]. simpl in *. apply andb_true_iff in Hv as [H1 H2].
  apply IH; [done|]. apply robbed_apply; [by destruct v|done].
Qed.
Lemma robbed_waits k s : robbed k s → ∃ c, commands (command_waits k s) !! k = Some c ∧ c_result c = Some (Err no_child_processes).
Proof.
  intros (c & Hk & Hn & Hr). unfold command_waits. rewrite Hk. destruct Hr as [Hr|Hr]; rewrite Hr; [|by exists c].
  pose proof (wait_answered (c_pid c) (p_table s)) as Ha. rewrite Hn in Ha. destruct (pt_wait _ _) as [a t]. simpl in Ha. subst a.
  simpl. rewrite list_lookup_insert_eq by (by eapply lookup_lt_Some). by eexists.
Qed.

(** C15. The reaper takes the status of the commands the shims run.  A command whose child
    exited with some code, and which has not asked for it yet, is answered with that code
    as long as the loop has not passed; but once it has passed, and until another child is
    started, whatever else happens, the command is answered with an error. *)
Theorem reaper_takes_status t vs k c x : let s := proc_exec vs (no_procs t) in
  forallb by_owner vs = true → commands s !! k = Some c → c_exit c = Some x → c_result c = None →
  (∃ c', commands (command_waits k s) !! k = Some c' ∧ c_result c' = Some (Ok x)) ∧
  (∀ vs', forallb (negb ∘ starts) vs' = true →
    ∃ c', commands (command_waits k (proc_exec (EvReap :: vs') s)) !! k = Some c' ∧
      c_result c' = Some (Err no_child_processes)).
Proof.
  intros s Hv Hk Hx Hr. pose proof (proc_exec_inv vs _ Hv (no_procs_inv t)) as Hi. fold s in Hi.
  pose proof (pi_commands _ Hi _ _ Hk) as Hc. unfold command_ok in Hc. rewrite Hr, Hx in Hc. simpl in Hc. split.
  - unfold command_waits. rewrite Hk, Hr. pose proof (wait_answered (c_pid c) (p_table s)) as Ha. rewrite Hc in Ha.
    destruct (pt_wait _ _) as [a t']. simpl in Ha. subst a. simpl. rewrite list_lookup_insert_eq by (by eapply lookup_lt_Some).
    by eexists.
  - intros vs' Hv'. apply robbed_waits. simpl. apply robbed_exec; [done|]. unfold reap.
    destruct (reap_all_spec (p_table s)) as [H _]. destruct (reap_all (p_table s)) as [cs t']. simpl in H.
    exists c. split_and!; [done| |by left]. simpl. by rewrite H, Hc.
Qed.
(** Every command that was answered before the loop passes has its own status. *)
Lemma own_status t vs k c r : let s := proc_exec vs (no_procs t) in
  forallb by_owner vs = true → commands s !! k = Some c → c_result c = Some r → ∃ x, c_exit c = Some x ∧ r = Ok x.
Proof.
  intros s Hv Hk Hr. pose proof (pi_commands _ (proc_exec_inv vs _ Hv (no_procs_inv t)) _ _ Hk) as H.
  unfold command_ok in H. by rewrite Hr in H.
Qed.
End reaper.

(** ** An instance: the number after the highest in use *)

Definition demo_fork (m : gmap Z child_state) : Z * gmap Z child_state :=
  let p := 1 + map_fold (λ p _ a, Z.max p a) 0 m in (p, <[p := Alive]> m).
Definition zombie_list (m : gmap Z child_state) : list (Z * Z) :=
  omap (λ x, match x.2 with Zombie code => Some (x.1, code) | Alive => None end) (map_to_list m).
Definition demo_wait_any (m : gmap Z child_state) : option (Z * Z) * gmap Z child_state :=
  match zombie_list m with
  | [] => (None, m)
  | (p, code) :: _ => (Some (p, code), delete p m)
  end.
Definition demo_wait (p : Z) (m : gmap Z child_state) : wait_answer * gmap Z child_state :=
  match m !! p with
  | Some (Zombie code) => (Exited code, delete p m)
  | Some Alive => (StillAlive, m)
  | None => (Echild, m)
  end.
Lemma max_key_bound (m : gmap Z child_state) p s : m !! p = Some s → p ≤ map_fold (λ p _ a, Z.max p a) 0 m.
Proof.
  revert p s. induction m as [|q t m Hq _ IH] using map_first_key_ind; intros p s; [by rewrite lookup_empty|].
  rewrite map_fold_insert_L; [|intros; lia|done]. intros [[<- <-]|[_ H]]%lookup_insert_Some; [lia|]. apply IH in H. lia.
Qed.
Lemma zombie_list_in m p code : (p, code) ∈ zombie_list m ↔ m !! p = Some (Zombie code).
Proof.
  unfold zombie_list. rewrite list_elem_of_omap. split.
  - intros ([q s] & Hin & E). apply elem_of_map_to_list in Hin. simpl in E. destruct s; [done|]. by injection E as -> ->.
  - intros H. exists (p, Zombie code). by rewrite elem_of_map_to_list.
Qed.
Lemma zombie_list_delete m p code : m !! p = Some (Zombie code) → (length (zombie_list (delete p m)) < length (zombie_list m))%nat.
Proof.
  intros H. assert (zombie_list m ≡ₚ (p, code) :: zombie_list (delete p m)) as ->; [|simpl; lia].
  unfold zombie_list. rewrite <-(insert_delete_id m p (Zombie code) H) at 1.
  rewrite map_to_list_insert by apply lookup_delete_eq. done.
Qed.
#[export, program] Instance demo_table : ProcTable := {
  ptable := gmap Z child_state;
  child_of m p := m !! p;
  pt_fork := demo_fork;
  pt_exit p code m := if decide (m !! p = Some Alive) then <[p := Zombie code]> m else m;
  pt_wait_any := demo_wait_any;
  pt_wait := demo_wait;
  zombies m := length (zombie_list m)
}.
Next Obligation.
  intros m. simpl. destruct (m !! _) eqn:E; [|done]. apply max_key_bound in E. lia.
Qed.
Next Obligation.
  intros m p. unfold demo_fork. cbn [fst snd]. rewrite lookup_insert. generalize (1 + map_fold (λ p _ a, Z.max p a) 0 m). intros z.
  repeat case_decide; congruence.
Qed.
Next Obligation.
  intros p code m q. simpl. destruct (decide (m !! p = Some Alive)) as [Ha|Ha].
  - destruct (decide (q = p)) as [->|Hne].
    + rewrite lookup_insert_eq, decide_True; [done|]. by split.
    + rewrite lookup_insert_ne by done. rewrite decide_False; [done|]. by intros [? _].
  - rewrite decide_False; [done|]. by intros [_ ?].
Qed.
Next Obligation.
  intros m p code. simpl. unfold demo_wait_any. destruct (zombie_list m) as [|[q c] l] eqn:E; [done|]. intros [= -> ->].
  assert (m !! p = Some (Zombie code)) as Hp by (apply zombie_list_in; rewrite E; constructor).
  split_and!; [done| |].
  - intros q. cbn [snd]. rewrite lookup_delete. repeat case_decide; congruence.
  - rewrite <-E. by eapply zombie_list_delete.
Qed.
Next Obligation.
  intros m. simpl. unfold demo_wait_any. destruct (zombie_list m) as [|[q c] l] eqn:E; [|done]. intros _. split; [done|].
  intros p code H%zombie_list_in. rewrite E in H. by apply elem_of_nil in H.
Qed.
Next Obligation. intros p m. unfold demo_wait. by destruct (m !! p) as [[]|]. Qed.
Next Obligation.
  intros p m q. unfold demo_wait. destruct (m !! p) as [[]|]; [done| |done]. cbn [snd]. rewrite lookup_delete.
  repeat case_decide; congruence.
Qed.

Definition empty_table : @ptable demo_table := (∅ : gmap Z child_state).
Lemma reaper_takes_status_witness :
  let s := proc_exec [EvRun; EvRun; EvExit 0 0] (no_procs empty_table) in
  (∃ c, commands (command_waits 0 s) !! 0%nat = Some c ∧ c_result c = Some (Ok 0)) ∧
  ∃ c, commands (command_waits 0 (proc_exec [EvReap; EvExit 1 3] s)) !! 0%nat = Some c ∧
    c_result c = Some (Err no_child_processes).
Proof.
  destruct (reaper_takes_status (PT := demo_table) empty_table [EvRun; EvRun; EvExit 0 0] 0 (mkCommand 1 (Some 0) None) 0) as [H1 H2];
    [vm_compute; reflexivity..|].
  split; [exact H1|]. apply (H2 [EvExit 1 3]). reflexivity.
Defined.

(** Once the number is in use again, a command is answered with the status of another, and
    the other with an error. *)
Example crossed_statuses :
  c_result <$> commands (proc_exec [EvRun; EvExit 0 7; EvReap; EvRun; EvExit 1 0; EvWait 0; EvWait 1] (no_procs empty_table)) =
  [Some (Ok 0); Some (Err no_child_processes)].
Proof. vm_compute. reflexivity. Qed.

(** ** The main child, seen through [/proc]

    [is_running] asks by number.  Without the loop, the number of a child that died stays
    with its zombie; with it, the number is free, and a command that gets it makes the
    dead child look alive. *)
Definition table_status (p : Z) (m : gmap Z child_state) : option string :=
  match m !! p with
  | Some Alive => Some "State:	S (sleeping)"
  | Some (Zombie _) => Some "State:	Z (zombie)"
  | None => None
  end.
Definition seen_running (c : ChildProcess) (m : gmap Z child_state) : bool :=
  match pid c with
  | Some p => match table_status p m with Some content => status_alive content | None => false end
  | None => false
  end.
Definition main_child (p : Z) : ChildProcess := (start (Ok (Some p)) 5 (new_child default_process)).2.
Example dead_child_looks_alive :
  let dies vs := p_table (proc_exec (EvRun :: EvExit 0 9 :: vs) (no_procs empty_table)) in
  seen_running (main_child 1) (dies [EvRun]) = false ∧ seen_running (main_child 1) (dies [EvReap; EvRun]) = true.
Proof. vm_compute. by split. Qed.
