(* ===== verification/HotReload.v ===== *)
(** * Reloading the configuration ([shim-core/src/hotreload.rs])

    [ConfigWatcher] and the loop over the notifications of the file system, with and
    without validation.  Notifications, the reading of the file and the clocks are
    inputs of a step. *)

From S2P Require Import Prelude Text Floats Net Config.

(** [ReloadMetrics] *)
Record ReloadMetrics := mkMetrics {
  reload_total : Z;
  reload_failed_total : Z;
  reload_last_timestamp : f64
}.
#[export] Instance ReloadMetrics_settable : Settable ReloadMetrics := λ m,
  mkMetrics (reload_total m) (reload_failed_total m) (reload_last_timestamp m).
Definition new_metrics : ReloadMetrics := mkMetrics 0 0 (f64_of_Z 0).
(** [ConfigWatcher]; [path] is the [to_str] of the path, durations are nanoseconds. *)
Record ConfigWatcher := mkWatcher {
  path : option string;
  config : Config.Config;
  debounce : Z;
  metrics : option ReloadMetrics
}.
#[export] Instance ConfigWatcher_settable : Settable ConfigWatcher := λ w,
  mkWatcher (path w) (config w) (debounce w) (metrics w).

Definition file_name (p : option string) : string := default "shim.toml" p.
Definition with_debounce (read : string → result string Config.Config) (p : option string) (d : Z)
    : ConfigWatcher :=
  mkWatcher p (match read (file_name p) with Ok c => c | Err _ => default_config end) d None.
Definition new_watcher (read : string → result string Config.Config) (p : option string) : ConfigWatcher :=
  with_debounce read p (500 * 10 ^ 6).
Definition with_metrics (read : string → result string Config.Config) (p : option string) : ConfigWatcher :=
  (new_watcher read p) <| metrics := Some new_metrics |>.

(** What the channel yields *)
Inductive Notification := Modify | OtherEvent | WatchError | ChannelClosed.
#[export] Instance Notification_eq_dec : EqDecision Notification.
Proof. solve_decision. Defined.
(** One turn of the loop: the notification, the clock at the test, the clock that is
    kept, the file after the pause, and the seconds since the epoch *)
Record Turn := mkTurn {
  event : Notification;
  seen_at : Z;
  marked_at : Z;
  content : string → result string Config.Config;
  unix_secs : Z
}.
(** The thread: the watcher, the time of the last reload, the configurations handed to
    the callback, and whether the loop has ended *)
Record Thread := mkThread {
  watcher : ConfigWatcher;
  last_reload : Z;
  called_back : list Config.Config;
  over : bool
}.
#[export] Instance Thread_settable : Settable Thread := λ t,
  mkThread (watcher t) (last_reload t) (called_back t) (over t).

Section hotreload.
Context (validator : Config.Config → list ConfigValidationError).
Implicit Types (t : Thread) (u : Turn) (w : ConfigWatcher).

Definition count_reload u (m : ReloadMetrics) : ReloadMetrics :=
  m <| reload_total ::= λ n, add64 n 1 |> <| reload_last_timestamp := f64_of_Z (unix_secs u) |>.
Definition count_failure (m : ReloadMetrics) : ReloadMetrics := m <| reload_failed_total ::= λ n, add64 n 1 |>.
(** The reading of the file after the pause *)
Definition reload u t : Thread :=
  match content u (file_name (path (watcher t))) with
  | Ok c =>
      if bool_decide (validator c = []) then
        t <| watcher ::= λ w, w <| config := c |> <| metrics ::= fmap (count_reload u) |> |>
          <| called_back ::= λ l, l ++ [c] |>
      else t <| watcher ::= λ w, w <| metrics ::= fmap count_failure |> |>
  | Err _ => t <| watcher ::= λ w, w <| metrics ::= fmap count_failure |> |>
  end.
(** One turn of [start_watching_with_validation]; without validation the validator
    has no errors. *)
Definition turn u t : Thread :=
  if over t then t
  else
    match event u with
    | Modify =>
        if seen_at u - last_reload t <? debounce (watcher t) then t
        else reload u (t <| last_reload := marked_at u |>)
    | OtherEvent => t
    | WatchError | ChannelClosed => t <| over := true |>
    end.
Definition start_thread (now : Z) w : Thread := mkThread w now [] false.
Definition run_thread (us : list Turn) t : Thread := foldl (λ t u, turn u t) t us.

(** ** What a run does *)

(** The turns are in time: a turn is seen when the loop is back at the channel, which
    after a reload is a pause of the debounce time later. *)
Fixpoint in_time (d since free : Z) (us : list Turn) : Prop :=
  match us with
  | [] => True
  | u :: us =>
      free ≤ seen_at u ≤ marked_at u ∧
      if bool_decide (event u = Modify) && (d <=? seen_at u - since)
      then in_time d (marked_at u) (marked_at u + d) us
      else in_time d since (seen_at u) us
  end.

(** The modifications of a run that are looked at: those the loop gets to, a debounce
    time or more after its start *)
Fixpoint looked_at (d start : Z) (us : list Turn) : list Turn :=
  match us with
  | [] => []
  | u :: us =>
      match event u with
      | Modify => if d <=? seen_at u - start then u :: looked_at d start us else looked_at d start us
      | OtherEvent => looked_at d start us
      | WatchError | ChannelClosed => []
      end
  end.
Definition accept (p : option string) u : option Config.Config :=
  match content u (file_name p) with
  | Ok c => if bool_decide (validator c = []) then Some c else None
  | Err _ => None
  end.
Definition accepted (p : option string) (us : list Turn) : list Config.Config := omap (accept p) us.
#[local] Arguments accepted : simpl never.
(** The reload metrics count the accepted and the refused readings. *)
Definition metered (p : option string) (us : list Turn) (m m' : option ReloadMetrics) : Prop :=
  match m, m' with
  | Some x, Some y =>
      reload_total y = wrap 64 (reload_total x + Z.of_nat (length (accepted p us))) ∧
      reload_failed_total y =
        wrap 64 (reload_failed_total x + Z.of_nat (length us - length (accepted p us))%nat)
  | None, None => True
  | _, _ => False
  end.

Definition metrics_ok (m : option ReloadMetrics) : Prop :=
  match m with Some x => in_u 64 (reload_total x) ∧ in_u 64 (reload_failed_total x) | None => True end.
Lemma accepted_le p us : (length (accepted p us) ≤ length us)%nat.
Proof. unfold accepted. induction us as [|u us IH]; csimpl; [lia|]. destruct (accept p u); csimpl; lia. Qed.
Lemma metered_nil p m : metrics_ok m → metered p [] m m.
Proof. destruct m as [x|]; [|done]. intros [H1 H2]. simpl. by rewrite !Z.add_0_r, !wrap_small. Qed.
Lemma reload_spec u t :
  metrics_ok (metrics (watcher t)) →
  let t' := reload u t in
  watcher t' = (watcher t) <| config := default (config (watcher t)) (accept (path (watcher t)) u) |>
                           <| metrics := metrics (watcher t') |> ∧
  called_back t' = called_back t ++ accepted (path (watcher t)) [u] ∧
  last_reload t' = last_reload t ∧ over t' = over t ∧
  metered (path (watcher t)) [u] (metrics (watcher t)) (metrics (watcher t')) ∧
  metrics_ok (metrics (watcher t')).
Proof.
  intros Hm. unfold reload, accepted. simpl. unfold accept.
  destruct t as [[p c0 d m] l cb o]. simpl in *.
  destruct (content u (file_name p)) as [c|e] eqn:E; [case_bool_decide as Hv|]; simpl;
    split_and!; try done; rewrite ?app_nil_r; try done;
    destruct m as [x|]; simpl in *; try done; unfold accepted, accept; simpl;
    rewrite ?E, ?bool_decide_eq_true_2, ?bool_decide_eq_false_2 by done; simpl;
    destruct Hm; rewrite ?Z.add_0_r; split; try done; try apply add64_range; by rewrite wrap_small.
Qed.

Lemma metered_cons p u us m m1 m2 :
  metered p [u] m m1 → metered p us m1 m2 → metered p (u :: us) m m2.
Proof.
  destruct m as [x|], m1 as [y|], m2 as [z|]; simpl; try done.
  pose proof (accepted_le p us). unfold accepted in *. csimpl in *.
  intros [-> ->] [-> ->]. rewrite !wrap_add_l. destruct (accept p u); csimpl in *; split; f_equal; lia.
Qed.
Lemma last_default {A} (x : A) (l1 l2 : list A) :
  default (default x (last l1)) (last l2) = default x (last (l1 ++ l2)).
Proof. rewrite last_app. by destruct (last l2). Qed.
Lemma run_thread_over us t : over t = true → run_thread us t = t.
Proof.
  intros Ho. induction us as [|u us IH]; [done|]. simpl.
  assert (turn u t = t) as -> by (unfold turn; by rewrite Ho). done.
Qed.

Lemma run_thread_spec d start us t free :
  over t = false → debounce (watcher t) = d → 0 ≤ d → metrics_ok (metrics (watcher t)) →
  start ≤ last_reload t → (last_reload t = start ∨ last_reload t + d ≤ free) →
  in_time d (last_reload t) free us →
  let p := path (watcher t) in
  let seen := accepted p (looked_at d start us) in
  let t' := run_thread us t in
  config (watcher t') = default (config (watcher t)) (last seen) ∧
  called_back t' = called_back t ++ seen ∧
  metered p (looked_at d start us) (metrics (watcher t)) (metrics (watcher t')).
Proof.
  revert t free. induction us as [|u us IH]; intros t free Ho Hd Hd0 Hm Hs Hf Ht.
  { simpl. rewrite app_nil_r. split_and!; [done..|]. by apply metered_nil. }
  destruct Ht as [Hu Ht]. cbn [run_thread foldl]. fold (run_thread us (turn u t)).
  cbn [looked_at]. unfold turn. rewrite Ho, Hd. destruct (event u) eqn:Ee; simpl in Ht.
  - assert ((d <=? seen_at u - start) = (d <=? seen_at u - last_reload t)) as ->.
    { destruct Hf as [<-|Hf]; [done|]. by rewrite !(proj2 (Z.leb_le d _)) by lia. }
    rewrite Z.ltb_antisym. destruct (Z.leb_spec d (seen_at u - last_reload t)) as [Hl|Hl]; simpl.
    + destruct (reload_spec u (t <| last_reload := marked_at u |>)) as (R1 & R2 & R3 & R4 & R5 & R6); [done|].
      set (t1 := reload u _) in *. simpl in R1, R2, R3, R4, R5.
      destruct (IH t1 (marked_at u + d)) as (I1 & I2 & I3); rewrite ?R3, ?R4; try done;
        [by rewrite R1|lia|by right|].
      assert (path (watcher t1) = path (watcher t)) as Ep by by rewrite R1. rewrite Ep in I1, I2, I3.
      assert (∀ l, accepted (path (watcher t)) (u :: l)
        = accepted (path (watcher t)) [u] ++ accepted (path (watcher t)) l) as Ea.
      { intros l. unfold accepted. by rewrite <-omap_app. }
      simpl. rewrite Ea, I1, I2, R2, <-last_default, app_assoc. split_and!; [|done|by eapply metered_cons].
      f_equal. rewrite R1. unfold accepted. simpl. by destruct (accept _ u).
    + apply (IH t (seen_at u)); try done; lia.
  - apply (IH t (seen_at u)); try done; lia.
  - rewrite run_thread_over by done. simpl. rewrite app_nil_r. split_and!; [done..|by apply metered_nil].
  - rewrite run_thread_over by done. simpl. rewrite app_nil_r. split_and!; [done..|by apply metered_nil].
Qed.

(** C27. What watching does.  Over any sequence of notifications, each seen once the
    loop is back from its last reload and the pause after it, the readings
    the loop makes are exactly those of the modifications that come a debounce time or
    more after its start - none of the later ones is merged with another or skipped,
    since the pause after each reload has always used up the debounce time.  The
    configuration in force is the last accepted reading, or the first one if there is
    none; each accepted one was given to the callback, in order; and the two counters
    count the accepted and the refused readings.  A modification that leaves the contents
    as they were is read and applied like any other: no hash is compared, though the
    documentation of hot reload says that the same hash makes a reload a no-op. *)
Theorem watch_follows_file w now us :
  0 ≤ debounce w → metrics_ok (metrics w) → in_time (debounce w) now now us →
  let t := run_thread us (start_thread now w) in
  let looked := looked_at (debounce w) now us in
  config (watcher t) = default (config w) (last (accepted (path w) looked)) ∧
  called_back t = accepted (path w) looked ∧
  metered (path w) looked (metrics w) (metrics (watcher t)).
Proof.
  intros Hd Hm Ht. apply (run_thread_spec (debounce w) now us (start_thread now w) now); try done. by left.
Qed.

(** A validated watcher never leaves the valid configurations: if the first one
    passes the validator, the one in force always does, and so do all those given to
    the callback; what is refused changes nothing but the counter. *)
Theorem watch_keeps_valid w now us t :
  validator (config w) = [] → run_thread us (start_thread now w) = t →
  validator (config (watcher t)) = [] ∧ Forall (λ c, validator c = []) (called_back t).
Proof.
  intros Hv <-. assert (∀ t0, validator (config (watcher t0)) = [] → Forall (λ c, validator c = []) (called_back t0) →
    validator (config (watcher (run_thread us t0))) = [] ∧
    Forall (λ c, validator c = []) (called_back (run_thread us t0))) as H; [|by apply H].
  clear w now Hv. induction us as [|u us IH]; intros t0 H1 H2; [done|].
  cbn [run_thread foldl]. apply IH; unfold turn; destruct (over t0), (event u); try done;
    (destruct (_ <? _); [done|]); unfold reload; simpl; destruct (content u _) as [c|]; simpl; try done;
    case_bool_decide; simpl; try done. rewrite Forall_app. split; [done|]. by repeat constructor.
Qed.
End hotreload.

(** ** Runs *)
Section hotreload_runs.
Definition ms : Z := 10 ^ 6.
Definition file_is (c : Config.Config) : string → result string Config.Config := λ _, Ok c.
Definition demo_validator : Config.Config → list ConfigValidationError :=
  validate demo_exists no_error no_error.
Definition bad_file : Config.Config := default_config <| version := Some "9" |>.
Definition demo_watcher : ConfigWatcher := with_metrics (file_is default_config) (Some "shim.toml").
Definition change (at_ : Z) (c : string → result string Config.Config) : Turn :=
  mkTurn Modify (at_ * ms) (at_ * ms) c 7.
(** A change in the first half second is never seen; two that come together later are
    read twice; an invalid file is refused. *)
Definition demo_turns : list Turn :=
  [change 100 (file_is demo_file); change 600 (file_is bad_file);
   mkTurn OtherEvent (1100 * ms) (1100 * ms) (file_is demo_file) 7;
   change 1101 (file_is demo_file); change 1601 (file_is demo_file)].
Example demo_watch :
  let t := run_thread demo_validator demo_turns (start_thread 0 demo_watcher) in
  (interval_secs (health (config (watcher t))), length (called_back t),
   (λ m, (reload_total m, reload_failed_total m)) <$> metrics (watcher t))
  = (60, 2%nat, Some (2, 1)).
Proof. vm_compute. done. Qed.
Example demo_missed :
  interval_secs (health (config (watcher
    (run_thread demo_validator (take 1 demo_turns) (start_thread 0 demo_watcher))))) = 10.
Proof. vm_compute. done. Qed.
Lemma watch_follows_file_witness :
  called_back (run_thread demo_validator demo_turns (start_thread 0 demo_watcher))
    = accepted demo_validator (Some "shim.toml") (looked_at (500 * ms) 0 demo_turns).
Proof.
  assert (0 ≤ debounce demo_watcher) as H1 by done.
  assert (metrics_ok (metrics demo_watcher)) as H2 by done.
  assert (in_time (debounce demo_watcher) 0 0 demo_turns) as H3.
  { vm_compute. repeat split; discriminate. }
  exact (proj1 (proj2 (watch_follows_file demo_validator demo_watcher 0 demo_turns H1 H2 H3))).
Defined.
Lemma watch_keeps_valid_witness :
  demo_validator (config (watcher (run_thread demo_validator demo_turns (start_thread 0 demo_watcher)))) = [].
Proof.
  refine (proj1 (watch_keeps_valid demo_validator demo_watcher 0 demo_turns _ _ eq_refl)).
  vm_compute. done.
Defined.
End hotreload_runs.
