(* ===== verification/Health.v ===== *)
(** * Health checks ([shim-core/src/health.rs], [health-shim/src])

    The health commands and the startup probe, the checker that remembers the last
    answers, the shim with its capabilities, and the endpoints of the server.  TCP
    connections, HTTP requests and child processes are inputs. *)

From S2P Require Import Prelude Text Floats Net Commands Config.

(** [HealthStatus] *)
Inductive HealthStatus := Healthy | Unhealthy | Unknown.
#[export] Instance HealthStatus_eq_dec : EqDecision HealthStatus.
Proof. solve_decision. Defined.
Definition health_status_display (h : HealthStatus) : string :=
  match h with Healthy => "healthy" | Unhealthy => "unhealthy" | Unknown => "unknown" end.
Definition is_ready (h : HealthStatus) : bool := bool_decide (h = Healthy).

(** The outside world, timeouts included: whether the [http] feature is compiled in,
    whether a connection or a request succeeds, and what a child process puts out, if
    it ends in time *)
Record Outside := mkOutside {
  http_feature : bool;
  tcp_ok : string → bool;
  http_ok : string → bool;
  output_of : Command → option Output
}.
Definition verdict (b : bool) : HealthStatus := if b then Healthy else Unhealthy.
Definition split_command (cmd : string) : Command :=
  match split_whitespace cmd with p :: a => mkCommand p a [] | [] => mkCommand "" [] [] end.
(** [execute_health_cmd] *)
Definition execute_health_cmd (out : Outside) (cmd : string) : HealthStatus :=
  match strip_prefix "tcp:" cmd with
  | Some addr => verdict (tcp_ok out addr)
  | None =>
      match strip_prefix "http:" cmd with
      | Some url => if http_feature out then verdict (http_ok out url) else Unknown
      | None =>
          if starts_with cmd "pg_isready" then
            verdict match output_of out (split_command cmd) with Some o => exit_ok o | None => false end
          else if starts_with cmd "redis-cli" then
            verdict match output_of out (split_command cmd) with
                    | Some o => exit_ok o && str_contains (stdout o) "PONG"
                    | None => false
                    end
          else
            match strip_prefix "exec:" cmd with
            | Some c =>
                if bool_decide (c = "true") then Healthy
                else if bool_decide (c = "false") then Unhealthy
                else verdict match output_of out (mkCommand "sh" ["-c"; c] []) with
                             | Some o => exit_ok o
                             | None => false
                             end
            | None => Unknown
            end
      end
  end.
(** [CommandHealthCheck] *)
Record CommandHealthCheck := mkCheck { check_liveness_cmd : string; check_readiness_cmd : string; check_timeout : Z }.
Definition command_liveness (out : Outside) (c : CommandHealthCheck) : HealthStatus :=
  execute_health_cmd out (check_liveness_cmd c).
Definition command_readiness (out : Outside) (c : CommandHealthCheck) : HealthStatus :=
  execute_health_cmd out (check_readiness_cmd c).

(** ** [StartupProbe] *)

Record StartupProbe := mkProbe {
  check_cmd : string;
  probe_timeout_secs : Z;
  max_retries : Z;
  retry_delay_secs : Z
}.
#[export] Instance StartupProbe_settable : Settable StartupProbe := λ p,
  mkProbe (check_cmd p) (probe_timeout_secs p) (max_retries p) (retry_delay_secs p).
Definition new_probe (cmd : string) (timeout : Z) : StartupProbe := mkProbe cmd timeout 10 2.
Definition with_max_retries (n : Z) (p : StartupProbe) : StartupProbe := p <| max_retries := n |>.
Definition with_retry_delay_secs (d : Z) (p : StartupProbe) : StartupProbe := p <| retry_delay_secs := d |>.
(** The loop of [check] from attempt [i] on, with [more] attempts after it: the answer
    and how often it slept *)
Fixpoint attempts (world : nat → Outside) (cmd : string) (more i : nat) : HealthStatus * nat :=
  match execute_health_cmd (world i) cmd with
  | Healthy => (Healthy, 0%nat)
  | _ =>
      match more with
      | O => (Unhealthy, 0%nat)
      | S more => let '(h, n) := attempts world cmd more (S i) in (h, S n)
      end
  end.
(** [check]: the answer and the seconds slept *)
Definition probe_check (world : nat → Outside) (p : StartupProbe) : HealthStatus * Z :=
  let '(h, n) := attempts world (check_cmd p) (Z.to_nat (max_retries p)) 0 in
  (h, Z.of_nat n * retry_delay_secs p).

Definition postgres_startup_probe (host : string) (port : Z) : StartupProbe :=
  with_retry_delay_secs 1 (with_max_retries 30
    (new_probe ("pg_isready -h " +:+ host +:+ " -p " +:+ pretty port) 5)).
Definition redis_startup_probe (addr : string) : StartupProbe :=
  let port := default "6379" (split_on ":" addr !! 1%nat) in
  with_retry_delay_secs 1 (with_max_retries 30 (new_probe ("redis-cli -p " +:+ port +:+ " ping") 3)).
Definition startup_probe_from_env (env : environment) : StartupProbe :=
  let probe_type := env_or env "STARTUP_PROBE_TYPE" "tcp" in
  let timeout := env_parse env "STARTUP_TIMEOUT_SECS" parse_u64 60 in
  let host := env_or env "FAILOVER_DB_HOST" "localhost" in
  let port := env_parse env "FAILOVER_DB_PORT" (parse_unsigned (2 ^ 16 - 1)) 5432 in
  if bool_decide (probe_type = "postgres") || bool_decide (probe_type = "pg")
  then with_retry_delay_secs 1 (postgres_startup_probe host port)
  else if bool_decide (probe_type = "redis")
  then with_retry_delay_secs 1 (redis_startup_probe "localhost:6379")
  else with_retry_delay_secs 1 (with_max_retries 30
         (new_probe ("tcp:" +:+ host +:+ ":" +:+ pretty port) timeout)).

(** ** [HealthChecker] *)

Record HealthChecker := mkChecker {
  health_check : CommandHealthCheck;
  last_liveness : HealthStatus;
  last_readiness : HealthStatus
}.
#[export] Instance HealthChecker_settable : Settable HealthChecker := λ c,
  mkChecker (health_check c) (last_liveness c) (last_readiness c).
Definition new_checker (c : CommandHealthCheck) : HealthChecker := mkChecker c Unknown Unknown.
Definition check_liveness (out : Outside) (c : HealthChecker) : HealthStatus * HealthChecker :=
  let h := command_liveness out (health_check c) in (h, c <| last_liveness := h |>).
Definition check_readiness (out : Outside) (c : HealthChecker) : HealthStatus * HealthChecker :=
  let h := command_readiness out (health_check c) in (h, c <| last_readiness := h |>).
Definition checker_metrics (c : HealthChecker) : list (string * f64) :=
  [("health_liveness", f64_of_Z (if is_ready (last_liveness c) then 1 else 0));
   ("health_readiness", f64_of_Z (if is_ready (last_readiness c) then 1 else 0))].

(** ** [HealthShim] *)

Record CapabilityHealthStatus := mkCapability { cap_name : string; cap_healthy : bool; cap_message : option string }.
#[export] Instance CapabilityHealthStatus_settable : Settable CapabilityHealthStatus := λ c,
  mkCapability (cap_name c) (cap_healthy c) (cap_message c).
Record HealthShim := mkHealthShim {
  checker : option HealthChecker;
  shim_listen : string;
  capabilities : gmap string CapabilityHealthStatus;
  initialized : bool
}.
#[export] Instance HealthShim_settable : Settable HealthShim := λ s,
  mkHealthShim (checker s) (shim_listen s) (capabilities s) (initialized s).
Record DetailedHealthStatus := mkDetailed {
  det_liveness : string;
  det_readiness : string;
  det_startup : string;
  det_capabilities : list CapabilityHealthStatus;
  det_uptime_secs : Z;
  det_initialized : bool
}.
Definition new_health_shim : HealthShim := mkHealthShim None "0.0.0.0:9101" ∅ false.
Definition register_capability (n : string) (s : HealthShim) : HealthShim :=
  s <| capabilities ::= <[n := mkCapability n true (Some "registered")]> |>.
Definition set_capability_health (n : string) (ok : bool) (m : option string) (s : HealthShim) : HealthShim :=
  s <| capabilities ::= alter (λ c, c <| cap_healthy := ok |> <| cap_message := m |>) n |>.
Definition all_healthy (m : gmap string CapabilityHealthStatus) : bool :=
  bool_decide (map_Forall (λ _ c, cap_healthy c = true) m).

(** ** [HealthExporter] *)

Record HealthPayload := mkPayload { pl_liveness : string; pl_readiness : string; pl_timestamp : string; pl_shim : string }.
Record HealthExporter := mkExporter { exp_webhook_url : string; exp_interval_secs : Z }.
Definition exporter_from_env (env : environment) : option HealthExporter :=
  url ← env !! "HEALTH_WEBHOOK_URL";
  if bool_decide (url = "") then None
  else Some (mkExporter url (env_parse env "HEALTH_WEBHOOK_INTERVAL_SECS" parse_u64 30)).
Definition build_payload `{Rfc3339} now (liveness readiness : string) : HealthPayload :=
  mkPayload liveness readiness (to_rfc3339 now) "health".
(** One turn of the loop of [spawn_background], up to the post; the debug text of a
    status, in lower case, is its display. *)
Definition export_turn `{Rfc3339} now (out1 out2 : Outside) (c : HealthChecker) : HealthPayload * HealthChecker :=
  let '(l, c) := check_liveness out1 c in
  let '(r, c) := check_readiness out2 c in
  (build_payload now (health_status_display l) (health_status_display r), c).

Section health.
Context `{HO : HashOrder}.

(** [detailed_status], and the fields of [/healthz], which are computed the same way *)
Definition detailed (uptime : Z) (m : gmap string CapabilityHealthStatus) (init : bool) : DetailedHealthStatus :=
  {| det_liveness := if all_healthy m && init then "healthy" else if init then "degraded" else "starting";
     det_readiness := if all_healthy m && init then "ready" else "not_ready";
     det_startup := if init then "complete" else "in_progress";
     det_capabilities := hash_values m;
     det_uptime_secs := uptime;
     det_initialized := init |}.
Definition detailed_status (uptime : Z) (s : HealthShim) : DetailedHealthStatus :=
  detailed uptime (capabilities s) (initialized s).

(** [init]; the arguments of the validation are those of [Config.validate]. *)
Definition join_errors (l : list ConfigValidationError) : string :=
  match l with
  | [] => ""
  | e :: l => foldl (λ r e, r +:+ "; " +:+ error_display e) (error_display e) l
  end.
Definition is_health_error (e : ConfigValidationError) : bool := starts_with (field e) "health.".
Definition health_errors (path_exists : string → bool) (cron_error https_error : string → option string)
    (c : Config) : list ConfigValidationError :=
  filter (λ e, is_health_error e = true) (validate path_exists cron_error https_error c).
Definition init (path_exists : string → bool) (cron_error https_error : string → option string)
    (env : environment) (c : Config) (s : HealthShim) : result string unit * HealthShim :=
  let errors := health_errors path_exists cron_error https_error c in
  if validation_enabled env && negb (bool_decide (errors = []))
  then (Err ("health config validation failed: " +:+ join_errors errors), s)
  else
    let h := health c in
    (Ok tt,
     s <| shim_listen := listen h |>
       <| checker := Some (new_checker (mkCheck (liveness_cmd h) (readiness_cmd h) (timeout_secs h))) |>
       <| initialized := true |>).

(** ** [HealthServer]: the state its handlers share *)

Record HealthServer := mkServer {
  srv_checker : HealthChecker;
  srv_capabilities : gmap string CapabilityHealthStatus;
  srv_start_time : Z;
  srv_initialized : bool;
  liveness_failures : Z;
  readiness_failures : Z
}.
#[local] Instance HealthServer_settable : Settable HealthServer := λ s,
  mkServer (srv_checker s) (srv_capabilities s) (srv_start_time s) (srv_initialized s)
    (liveness_failures s) (readiness_failures s).
(** [with_initialization], whose flag others may set, and [new] *)
Definition with_initialization now (c : HealthChecker) (m : gmap string CapabilityHealthStatus) (b : bool)
    : HealthServer := mkServer c m now b 0 0.
Definition new_server now (c : HealthChecker) (m : gmap string CapabilityHealthStatus) : HealthServer :=
  with_initialization now c m true.
(** [start] of the shim: the server takes the checker and a copy of the capabilities. *)
Definition start now (s : HealthShim) : option HealthServer * HealthShim :=
  match checker s with
  | Some c => (Some (new_server now c (capabilities s)), s <| checker := None |>)
  | None => (None, s)
  end.

Definition OK : Z := 200.
Definition SERVICE_UNAVAILABLE : Z := 503.
Definition liveness_handler (out : Outside) (v : HealthServer) : Z * HealthServer :=
  let '(h, c) := check_liveness out (srv_checker v) in
  let v := v <| srv_checker := c |> in
  match h with
  | Unhealthy => (SERVICE_UNAVAILABLE, v <| liveness_failures ::= λ n, add64 n 1 |>)
  | Healthy | Unknown => (OK, v)
  end.
Definition readiness_handler (out : Outside) (v : HealthServer) : Z * HealthServer :=
  if negb (srv_initialized v) then (SERVICE_UNAVAILABLE, v)
  else if negb (all_healthy (srv_capabilities v))
  then (SERVICE_UNAVAILABLE, v <| readiness_failures ::= λ n, add64 n 1 |>)
  else
    let '(h, c) := check_readiness out (srv_checker v) in
    let v := v <| srv_checker := c |> in
    match h with
    | Unhealthy => (SERVICE_UNAVAILABLE, v <| readiness_failures ::= λ n, add64 n 1 |>)
    | Healthy | Unknown => (OK, v)
    end.
Definition startup_handler (v : HealthServer) : Z := if srv_initialized v then OK else SERVICE_UNAVAILABLE.
Definition health_handler now (v : HealthServer) : DetailedHealthStatus * Z * Z :=
  (detailed ((now - srv_start_time v) / 10 ^ 9) (srv_capabilities v) (srv_initialized v),
   liveness_failures v, readiness_failures v).
Definition metrics_handler (v : HealthServer) : list (string * f64) := checker_metrics (srv_checker v).

(** ** The startup probe *)

Lemma attempts_spec world cmd n i :
  let '(h, k) := attempts world cmd n i in
  (k ≤ n)%nat ∧ (∀ j, (i ≤ j < i + k)%nat → execute_health_cmd (world j) cmd ≠ Healthy) ∧
  match h with
  | Healthy => execute_health_cmd (world (i + k)%nat) cmd = Healthy
  | Unhealthy => k = n ∧ execute_health_cmd (world (i + k)%nat) cmd ≠ Healthy
  | Unknown => False
  end.
Proof.
  revert i. induction n as [|n IH]; intros i; simpl.
  { destruct (execute_health_cmd (world i) cmd) eqn:E; rewrite Nat.add_0_r; (split; [lia|]);
      (split; [intros j Hj; lia|]); [done|split; [done|congruence]..]. }
  specialize (IH (S i)). destruct (attempts world cmd n (S i)) as [h k].
  destruct (execute_health_cmd (world i) cmd) eqn:E.
  { rewrite Nat.add_0_r. split; [lia|]. split; [intros j Hj; lia|done]. }
  all: destruct IH as (Hk & Hj & Hh); rewrite Nat.add_succ_r.
  all: split; [lia|]; (split; [intros j Hij; destruct (decide (j = i)) as [->|]; [congruence|apply Hj; lia]|]).
  all: destruct h; [done|split; [lia|by destruct Hh]|done].
Qed.
(** The startup probe comes to an end: it runs its command at most once more than
    the configured number of retries, stops at the first success and answers healthy
    then and only then, and sleeps once, for the configured delay, after each attempt
    but the last.  An unknown command is never healthy. *)
Theorem probe_outcome world p :
  0 ≤ max_retries p →
  let '(h, slept) := probe_check world p in
  ∃ k : nat, Z.of_nat k ≤ max_retries p ∧ slept = Z.of_nat k * retry_delay_secs p ∧
    (∀ j, (j < k)%nat → execute_health_cmd (world j) (check_cmd p) ≠ Healthy) ∧
    (h = Healthy ∧ execute_health_cmd (world k) (check_cmd p) = Healthy ∨
     h = Unhealthy ∧ Z.of_nat k = max_retries p ∧ execute_health_cmd (world k) (check_cmd p) ≠ Healthy).
Proof.
  intros Hm. unfold probe_check. pose proof (attempts_spec world (check_cmd p) (Z.to_nat (max_retries p)) 0) as H.
  destruct (attempts _ _ _ _) as [h k]. destruct H as (Hk & Hj & Hh). exists k. simpl in Hh.
  split_and!; [lia|done|intros j Hlt; apply Hj; lia|].
  destruct h; [by left| |done]. right. destruct Hh as [-> Hh]. split_and!; [done|lia|done].
Qed.
(** Whatever the environment, the probe retries thirty times with a second between. *)
Lemma probe_from_env_spec env :
  max_retries (startup_probe_from_env env) = 30 ∧ retry_delay_secs (startup_probe_from_env env) = 1.
Proof. unfold startup_probe_from_env. by repeat case_match. Qed.

(** ** Initialization checks its own section only. *)

Section init.
Context (path_exists : string → bool) (cron_error https_error : string → option string).

Lemma filter_check b f m :
  filter (λ e, is_health_error e = true) (check b f m) = if starts_with f "health." then check b f m else [].
Proof.
  destruct b; simpl; [|by destruct (starts_with _ _)].
  rewrite filter_cons. unfold is_health_error. simpl. by destruct (starts_with f "health.").
Qed.
Lemma filter_check_some {A} (o : option A) f :
  (∀ x, o = Some x → filter (λ e, is_health_error e = true) (f x) = []) →
  filter (λ e, is_health_error e = true) (check_some o f) = [].
Proof. destruct o; simpl; auto. Qed.
Lemma health_errors_nil c :
  health_errors path_exists cron_error https_error c = [] ↔ health_ok (health c).
Proof.
  assert (health_errors path_exists cron_error https_error c = validate_health (health c)) as ->.
  { unfold health_errors, validate. rewrite !filter_app.
    assert (∀ i seen ts, filter (λ e, is_health_error e = true) (validate_tenants i seen ts) = []) as Ht.
    { intros i seen ts. revert i seen. induction ts as [|t ts IH]; intros i seen; [done|]. simpl.
      unfold validate_tenant. rewrite !filter_app, IH, !filter_check. simpl.
      rewrite filter_check_some; [done|]. intros x _. by rewrite filter_check. }
    rewrite Ht. rewrite !filter_check_some; simpl; rewrite ?app_nil_r; intros;
      unfold validate_version, validate_vault, validate_backup, validate_migration, validate_tls, validate_failover;
      rewrite ?filter_app, ?filter_check; try done.
    - unfold validate_health. by rewrite !filter_app, !filter_check.
    - case_bool_decide; [done|]. rewrite filter_check_some; [done|]. done. }
  unfold validate_health. rewrite !app_nil, !check_nil, negb_false_iff, bool_decide_eq_true, !Z.eqb_neq.
  split; [intros (?&?&?); by split|by intros []].
Qed.
(** The health shim initializes exactly when validation is turned off or the health
    section of the configuration is valid - faults of other sections do not concern it -
    and then it has a fresh checker for the configured commands and counts as
    initialized; a refusal changes nothing. *)
Theorem health_init_exact env c s :
  let '(r, s') := init path_exists cron_error https_error env c s in
  (is_ok r = true ↔ validation_enabled env = false ∨ health_ok (health c)) ∧
  (is_ok r = true → initialized s' = true ∧ shim_listen s' = listen (health c) ∧
    capabilities s' = capabilities s ∧
    ∃ k, checker s' = Some (new_checker k) ∧ check_liveness_cmd k = liveness_cmd (health c) ∧
         check_readiness_cmd k = readiness_cmd (health c)) ∧
  (is_ok r = false → s' = s).
Proof.
  unfold init. destruct (validation_enabled env); simpl.
  - case_bool_decide as He; simpl.
    + apply health_errors_nil in He. split_and!; [split; [by right|done]| |done]. intros _. split_and!; try done. by eexists.
    + rewrite health_errors_nil in He. split_and!; [|done|done]. split; [done|]. by intros [?|?].
  - split_and!; [split; [by left|done]| |done]. intros _. split_and!; try done. by eexists.
Qed.
End init.

(** ** The endpoints *)

(** Calls on the shim and requests to the server it started *)
Inductive HealthOp :=
| OpRegister (n : string)
| OpSet (n : string) (ok : bool) (m : option string)
| OpLivez (out : Outside)
| OpReadyz (out : Outside).
Record HealthSystem := mkSystem { shim : HealthShim; server : HealthServer }.
Definition health_step (o : HealthOp) (y : HealthSystem) : list Z * HealthSystem :=
  match o with
  | OpRegister n => ([], mkSystem (register_capability n (shim y)) (server y))
  | OpSet n ok m => ([], mkSystem (set_capability_health n ok m (shim y)) (server y))
  | OpLivez out => let '(c, v) := liveness_handler out (server y) in ([c], mkSystem (shim y) v)
  | OpReadyz out => let '(c, v) := readiness_handler out (server y) in ([c], mkSystem (shim y) v)
  end.
Fixpoint health_run (os : list HealthOp) (y : HealthSystem) : list Z * HealthSystem :=
  match os with
  | [] => ([], y)
  | o :: os => let '(c, y) := health_step o y in let '(cs, y) := health_run os y in (c ++ cs, y)
  end.
(** What the commands alone say *)
Definition livez_code (k : CommandHealthCheck) (out : Outside) : Z :=
  if decide (command_liveness out k = Unhealthy) then SERVICE_UNAVAILABLE else OK.
Definition readyz_code (k : CommandHealthCheck) (ok : bool) (out : Outside) : Z :=
  if negb ok || bool_decide (command_readiness out k = Unhealthy) then SERVICE_UNAVAILABLE else OK.
Definition codes (k : CommandHealthCheck) (ok : bool) (os : list HealthOp) : list Z :=
  omap (λ o, match o with
             | OpLivez out => Some (livez_code k out)
             | OpReadyz out => Some (readyz_code k ok out)
             | _ => None
             end) os.
Definition serves (k : CommandHealthCheck) (m : gmap string CapabilityHealthStatus) (v : HealthServer) : Prop :=
  health_check (srv_checker v) = k ∧ srv_capabilities v = m ∧ srv_initialized v = true.

Lemma health_step_serves k m o y :
  serves k m (server y) →
  let '(c, y') := health_step o y in
  c = codes k (all_healthy m) [o] ∧ serves k m (server y') ∧
  capabilities (shim y') = match o with
                           | OpRegister n => capabilities (register_capability n (shim y))
                           | OpSet n b x => capabilities (set_capability_health n b x (shim y))
                           | _ => capabilities (shim y)
                           end.
Proof.
  intros (Hk & Hm & Hi). destruct o as [n|n b x|out|out]; simpl; [done|done|..].
  - unfold liveness_handler, check_liveness. rewrite Hk. unfold livez_code, codes, serves. simpl.
    unfold livez_code. destruct (command_liveness out k); simpl; rewrite ?Hk; done.
  - unfold readiness_handler, check_readiness. rewrite Hi, Hm, Hk. unfold codes, serves. simpl. unfold readyz_code.
    destruct (all_healthy m); simpl; [|by rewrite Hk, Hm, Hi].
    destruct (command_readiness out k); simpl; rewrite ?Hk; done.
Qed.
(** What the server answers was settled when it started.  Whatever is registered or
    set on the shim afterwards, every liveness answer is that of the command, and every
    readiness answer that of the command as long as the capabilities were healthy at the
    start - and a failure for ever if one was not; an unknown status passes both, though
    [is_ready] says it is not ready. *)
Theorem endpoints_frozen now s v os :
  (start now s).1 = Some v →
  ∃ c, checker s = Some c ∧
  let '(cs, y) := health_run os (mkSystem (start now s).2 v) in
  cs = codes (health_check c) (all_healthy (capabilities s)) os.
Proof.
  unfold start. destruct (checker s) as [c|] eqn:Ec; [|done]. intros [= <-]. exists c. split; [done|].
  assert (∀ y, serves (health_check c) (capabilities s) (server y) →
    let '(cs, _) := health_run os y in cs = codes (health_check c) (all_healthy (capabilities s)) os) as H.
  { induction os as [|o os IH]; intros y Hy; [done|]. simpl health_run.
    pose proof (health_step_serves _ _ o y Hy) as Hs. destruct (health_step o y) as [cs y1].
    destruct Hs as (-> & Hy1 & _). specialize (IH y1 Hy1). destruct (health_run os y1) as [cs' y2]. rewrite IH.
    unfold codes. by rewrite <-omap_app. }
  by apply H.
Qed.
End health.

(** ** Runs *)
Section health_runs.
#[local] Existing Instance canonical_order.
(** A database that answers from the third attempt on *)
Definition demo_world (n : nat) : Outside :=
  mkOutside false (λ _, Nat.leb 2 n) (λ _, false) (λ _, None).
Definition down : Outside := demo_world 0.
Example demo_probe :
  probe_check demo_world (startup_probe_from_env ∅) = (Healthy, 2).
Proof. vm_compute. done. Qed.
(** The timeout of the environment is for the TCP probe only, and the Redis probe asks
    the local port whatever the address. *)
Example demo_probe_kinds :
  ((λ k, probe_timeout_secs (startup_probe_from_env {[ "STARTUP_PROBE_TYPE" := k; "STARTUP_TIMEOUT_SECS" := "9" ]}))
     <$> ["tcp"; "pg"; "redis"], check_cmd (redis_startup_probe "cache.internal:6380"))
  = ([9; 5; 3], "redis-cli -p 6380 ping").
Proof. vm_compute. done. Qed.
Lemma probe_outcome_witness :
  let '(h, slept) := probe_check demo_world (startup_probe_from_env ∅) in
  ∃ k : nat, slept = Z.of_nat k * 1 ∧
    (∀ j, (j < k)%nat → execute_health_cmd (demo_world j) "tcp:localhost:5432" ≠ Healthy).
Proof.
  destruct (probe_from_env_spec ∅) as [Em Ed].
  assert (check_cmd (startup_probe_from_env ∅) = "tcp:localhost:5432") as Ec by (vm_compute; done).
  assert (0 ≤ max_retries (startup_probe_from_env ∅)) as H0 by (rewrite Em; done).
  pose proof (probe_outcome demo_world (startup_probe_from_env ∅) H0) as H.
  rewrite Ed, Ec in H. destruct (probe_check demo_world (startup_probe_from_env ∅)) as [h slept].
  destruct H as (k & _ & Hs & Hj & _). exists k. split; [exact Hs|exact Hj].
Defined.

(** A capability that fails after the start: the shim knows, the endpoint does not. *)
Definition demo_shim : HealthShim :=
  (init (λ _, true) (λ _, None) (λ _, None) ∅ default_config (register_capability "db" new_health_shim)).2.
Definition demo_health_ops : list HealthOp :=
  [OpReadyz down; OpSet "db" false None; OpReadyz down].
Example demo_stale :
  let s' := set_capability_health "db" false None demo_shim in
  match (start 0 demo_shim).1 with
  | Some v => ((health_run demo_health_ops (mkSystem (start 0 demo_shim).2 v)).1,
               det_readiness (detailed_status 0 s'))
  | None => ([], "")
  end = ([200; 200], "not_ready").
Proof. vm_compute. done. Qed.
(** A command that is not recognised is unknown, and ready. *)
Example demo_unknown_ready :
  let c := new_checker (mkCheck "curl localhost" "curl localhost" 5) in
  ((readiness_handler down (new_server 0 c ∅)).1, is_ready (check_readiness down c).1) = (200, false).
Proof. vm_compute. done. Qed.
Lemma endpoints_frozen_witness :
  match (start 0 demo_shim).1 with
  | Some v =>
      ∃ c, checker demo_shim = Some c ∧
        let '(cs, y) := health_run demo_health_ops (mkSystem (start 0 demo_shim).2 v) in
        cs = codes (health_check c) (all_healthy (capabilities demo_shim)) demo_health_ops
  | None => False
  end.
Proof.
  destruct ((start 0 demo_shim).1) as [v|] eqn:E; [|exfalso; revert E; vm_compute; discriminate].
  exact (endpoints_frozen 0 demo_shim v demo_health_ops E).
Defined.
End health_runs.
