(* ===== verification/Resource.v ===== *)
(** * Resource quotas ([shim-core/src/resource.rs])

    What [ResourceMonitor] reads from [/proc] and how it compares it with the quota of
    [Config.v].  The texts of the files and the clock are inputs; the gauges are part
    of the state. *)

From S2P Require Import Prelude Text Floats Net Config.

(** [ResourceUsage] *)
Record ResourceUsage := mkUsage {
  memory_bytes : option Z;
  cpu_percent : option f64;
  open_files : option Z;
  cpu_user_time : option Z;
  cpu_system_time : option Z
}.
#[export] Instance ResourceUsage_settable : Settable ResourceUsage := λ u,
  mkUsage (memory_bytes u) (cpu_percent u) (open_files u) (cpu_user_time u) (cpu_system_time u).
Definition no_usage : ResourceUsage := mkUsage None None None None None.
(** The values of the gauges of [ResourceMetrics] *)
Record ResourceMetrics := mkGauges {
  g_memory_bytes : f64;
  g_cpu_percent : f64;
  g_open_files : f64;
  g_cpu_user_time : f64;
  g_cpu_system_time : f64
}.
#[export] Instance ResourceMetrics_settable : Settable ResourceMetrics := λ m,
  mkGauges (g_memory_bytes m) (g_cpu_percent m) (g_open_files m) (g_cpu_user_time m) (g_cpu_system_time m).
Definition new_gauges : ResourceMetrics :=
  let z := f64_of_Z 0 in mkGauges z z z z z.
(** [ResourceMonitor]; [running] is shared with the periodic task. *)
Record ResourceMonitor := mkMonitor {
  quota : ResourceQuota;
  metrics : option ResourceMetrics;
  prev_cpu_user : option Z;
  prev_cpu_system : option Z;
  prev_wall_time : option Z;
  running : bool
}.
#[export] Instance ResourceMonitor_settable : Settable ResourceMonitor := λ m,
  mkMonitor (quota m) (metrics m) (prev_cpu_user m) (prev_cpu_system m) (prev_wall_time m) (running m).
Definition new_monitor (q : ResourceQuota) : ResourceMonitor := mkMonitor q None None None None false.
Definition with_metrics (q : ResourceQuota) : ResourceMonitor :=
  (new_monitor q) <| metrics := Some new_gauges |>.

(** ** Reading [/proc]

    The contents of [status] and [stat], the number of entries of [fd], where they can
    be read; on Linux *)
Record Proc := mkProc { proc_status : option string; proc_fd : option Z; proc_stat : option string }.

Fixpoint vm_rss_line (ls : list string) : option Z :=
  match ls with
  | [] => None
  | l :: ls =>
      if starts_with l "VmRSS:"
      then v ← split_whitespace l !! 1%nat; n ← parse_u64 v; Some (mul64 n 1024)
      else vm_rss_line ls
  end.
Definition read_vm_rss (p : Proc) : option Z :=
  content ← proc_status p; vm_rss_line (split_on newline content).
(** [count() as u32] *)
Definition read_fd_count (p : Proc) : option Z := wrap 32 <$> proc_fd p.
Definition read_cpu_times (p : Proc) : option (Z * Z) :=
  content ← proc_stat p;
  let fields := split_whitespace content in
  if bool_decide (21 < length fields)%nat then
    user ← (fields !! 13%nat ≫= parse_u64);
    system ← (fields !! 14%nat ≫= parse_u64);
    Some (user, system)
  else None.

(** [read_usage_snapshot] *)
Definition read_usage_snapshot (p : Proc) : ResourceUsage :=
  mkUsage (read_vm_rss p) None (read_fd_count p) (fst <$> read_cpu_times p) (snd <$> read_cpu_times p).
(** The percentage of [read_usage]: the clock is read for the elapsed time and for the
    time that is kept. *)
Definition delta_percent now (user system : Z) (m : ResourceMonitor) : option f64 :=
  pu ← prev_cpu_user m;
  ps ← prev_cpu_system m;
  pw ← prev_wall_time m;
  let wall := wrap 64 ((now - pw) / 1000) in
  if 0 <? wall then
    let total := add64 (saturating_sub user pu) (saturating_sub system ps) in
    Some (f64_mul (f64_div (f64_of_Z total) (f64_of_Z wall)) (f64_of_Z 100))
  else None.
Definition read_usage (now1 now2 : Z) (p : Proc) (m : ResourceMonitor) : ResourceUsage * ResourceMonitor :=
  let u := no_usage <| memory_bytes := read_vm_rss p |> <| open_files := read_fd_count p |> in
  match read_cpu_times p with
  | Some (user, system) =>
      (u <| cpu_user_time := Some user |> <| cpu_system_time := Some system |>
         <| cpu_percent := delta_percent now1 user system m |>,
       m <| prev_cpu_user := Some user |> <| prev_cpu_system := Some system |> <| prev_wall_time := Some now2 |>)
  | None => (u, m)
  end.

(** ** Quotas *)

Definition ratio (used max : Z) : f64 := f64_div (f64_of_Z used) (f64_of_Z max).
(** The log line a quota causes *)
Inductive Level := Fine | Warn | Exceeded.
#[export] Instance Level_eq_dec : EqDecision Level.
Proof. solve_decision. Defined.
Definition level (used max : option Z) : Level :=
  match used, max with
  | Some u, Some x =>
      let r := ratio u x in
      if f64_gt r (f64_of_Z 1) then Exceeded
      else if f64_gt r (f64_div (f64_of_Z 8) (f64_of_Z 10)) then Warn else Fine
  | _, _ => Fine
  end.
Definition set_opt {A} (o : option A) (f : A → ResourceMetrics → ResourceMetrics) (m : ResourceMetrics)
    : ResourceMetrics := match o with Some x => f x m | None => m end.
Definition set_basic (u : ResourceUsage) (m : ResourceMetrics) : ResourceMetrics :=
  let m := set_opt (memory_bytes u) (λ v m, m <| g_memory_bytes := f64_of_Z v |>) m in
  let m := set_opt (open_files u) (λ v m, m <| g_open_files := f64_of_Z v |>) m in
  let m := set_opt (cpu_user_time u) (λ v m, m <| g_cpu_user_time := f64_of_Z v |>) m in
  set_opt (cpu_system_time u) (λ v m, m <| g_cpu_system_time := f64_of_Z v |>) m.
(** [check_quotas] *)
Definition check_quotas (now1 now2 : Z) (p : Proc) (m : ResourceMonitor) : bool * ResourceMonitor :=
  let '(u, m) := read_usage now1 now2 p m in
  let memory := level (memory_bytes u) (quota_memory_bytes (quota m)) in
  let files := level (open_files u) (quota_open_files (quota m)) in
  (negb (bool_decide (memory = Exceeded)) && negb (bool_decide (files = Exceeded)),
   m <| metrics ::= fmap (λ g, set_opt (cpu_percent u) (λ v g, g <| g_cpu_percent := v |>) (set_basic u g)) |>).
Definition set_cpu_percent (x : f64) (m : ResourceMonitor) : ResourceMonitor :=
  m <| metrics ::= fmap (λ g, g <| g_cpu_percent := x |>) |>.

(** The periodic task: a turn of the loop, which ends when [running] is false *)
Definition resource_interval (env : environment) : Z := env_parse env "SHIM_RESOURCE_INTERVAL_SECS" parse_u64 10.
Definition start_periodic_monitoring (m : ResourceMonitor) : ResourceMonitor := m <| running := true |>.
Definition stop_periodic_monitoring (m : ResourceMonitor) : ResourceMonitor := m <| running := false |>.
Definition periodic_turn (p : Proc) (m : ResourceMonitor) : option ResourceMonitor :=
  if running m then Some (m <| metrics ::= fmap (set_basic (read_usage_snapshot p)) |>) else None.

(** ** What the quotas decide *)

#[local] Arguments f64_of_Z : simpl never.
#[local] Arguments f64_div : simpl never.
#[local] Arguments f64_mul : simpl never.

(** The CPU limits nothing: the verdict depends on the memory, the files and their two
    limits only; and the periodic task never moves the CPU gauge. *)
Lemma cpu_never_limits now1 now2 now1' now2' p stat m m' :
  quota_memory_bytes (quota m') = quota_memory_bytes (quota m) →
  quota_open_files (quota m') = quota_open_files (quota m) →
  (check_quotas now1' now2' (mkProc (proc_status p) (proc_fd p) stat) m').1 = (check_quotas now1 now2 p m).1.
Proof.
  intros H1 H2. unfold check_quotas, read_usage.
  destruct (read_cpu_times p) as [[a b]|], (read_cpu_times _) as [[a' b']|]; simpl; by rewrite H1, H2.
Qed.
Lemma periodic_keeps_cpu p m m' g :
  periodic_turn p m = Some m' → metrics m = Some g → g_cpu_percent <$> metrics m' = Some (g_cpu_percent g).
Proof.
  unfold periodic_turn. destruct (running m); [|done]. intros [= <-] Hg. simpl. rewrite Hg. simpl. f_equal.
  unfold set_basic, set_opt. by repeat case_match.
Qed.

(** A check of the quotas refuses exactly when a limit that is configured has a
    reading and their quotient is above one.  It leaves the quota and the periodic
    task alone, keeps the times of the process for the next percentage where they could
    be read, and puts exactly the readings it has into the gauges. *)
Theorem quota_verdict now1 now2 p m :
  let '(ok, m') := check_quotas now1 now2 p m in
  let over used max := ∃ u x, used = Some u ∧ max = Some x ∧ f64_gt (ratio u x) (f64_of_Z 1) = true in
  (ok = false ↔ over (read_vm_rss p) (quota_memory_bytes (quota m)) ∨
                over (read_fd_count p) (quota_open_files (quota m))) ∧
  quota m' = quota m ∧ running m' = running m ∧
  (prev_cpu_user m', prev_cpu_system m', prev_wall_time m')
    = match read_cpu_times p with
      | Some (a, b) => (Some a, Some b, Some now2)
      | None => (prev_cpu_user m, prev_cpu_system m, prev_wall_time m)
      end ∧
  (∀ g, metrics m = Some g → ∃ g', metrics m' = Some g' ∧
     g_memory_bytes g' = default (g_memory_bytes g) (f64_of_Z <$> read_vm_rss p) ∧
     g_open_files g' = default (g_open_files g) (f64_of_Z <$> read_fd_count p) ∧
     g_cpu_percent g' = default (g_cpu_percent g)
       ('(a, b) ← read_cpu_times p; delta_percent now1 a b m)).
Proof.
  assert (∀ used max, level used max = Exceeded ↔
    ∃ u x, used = Some u ∧ max = Some x ∧ f64_gt (ratio u x) (f64_of_Z 1) = true) as Hl.
  { intros used max. unfold level. destruct used as [u|], max as [x|]; try (split; [done|by intros (? & ? & ? & ? & _)]).
    destruct (f64_gt (ratio u x) (f64_of_Z 1)) eqn:E; [split; [by eauto|done]|].
    split; [by case_match|]. intros (? & ? & [= <-] & [= <-] & ?). congruence. }
  unfold check_quotas, read_usage. destruct (read_cpu_times p) as [[a b]|]; simpl.
  all: rewrite andb_false_iff, !negb_false_iff, !bool_decide_eq_true, !Hl.
  all: split_and!; try done; intros g ->; simpl; eexists; split; [done|].
  all: unfold set_basic, set_opt; simpl.
  all: destruct (read_vm_rss p), (read_fd_count p); simpl; try destruct (delta_percent _ _ _ _); done.
Qed.

(** ** Runs *)
Section resource_runs.
Definition tab : string := String (ascii_of_nat 9) "".
Definition nl : string := String newline "".
Definition demo_status : string := "Name:" +:+ tab +:+ "shim" +:+ nl +:+ "VmRSS:" +:+ tab +:+ "    2048 kB" +:+ nl.
Definition demo_stat (name : string) (user : Z) : string :=
  "7 (" +:+ name +:+ ") S 1 1 1 0 -1 0 0 0 0 0 " +:+ pretty user +:+ " 0 0 0 20 0 9 0 5 6 7 8".
Definition demo_proc (user : Z) : Proc := mkProc (Some demo_status) (Some 12) (Some (demo_stat "shim" user)).
Definition demo_quota : ResourceQuota := mkQuota (Some 2000000) (Some (f64_of_Z 1)) (Some 15) None.
Example demo_reading : (read_vm_rss (demo_proc 5), read_cpu_times (demo_proc 5)) = (Some 2097152, Some (5, 0)).
Proof. vm_compute. done. Qed.
(** A space in the name of the program shifts the fields. *)
Example demo_space : read_cpu_times (mkProc None None (Some (demo_stat "my shim" 5))) = Some (0, 5).
Proof. vm_compute. done. Qed.
(** A process that is busy all the time has 100 ticks a second; it is said to use a
    hundredth of a percent, since the ticks are divided by microseconds. *)
Example demo_busy :
  let m := (read_usage 0 0 (demo_proc 100) (new_monitor demo_quota)).2 in
  f64_display <$> cpu_percent (read_usage (10 ^ 9) (10 ^ 9) (demo_proc 200) m).1 = Some "0.01".
Proof. vm_compute. done. Qed.
Example demo_check : (check_quotas 0 0 (demo_proc 5) (with_metrics demo_quota)).1 = false.
Proof. vm_compute. done. Qed.
End resource_runs.
