(* ===== verification/Backup.v ===== *)
(** * Backups ([backup-shim/src/lib.rs])

    The books of the shim, the dump commands, the Redis snapshot, the retries of a
    backup, uploads, verification, the turns of the scheduled loop.  Files, commands,
    Redis, the object store and the clock are the class [Host]: each call takes the
    world to an answer and the next world.  Text from a dump is its bytes. *)

From S2P Require Import Prelude Text Commands Config Scheduler.

(** ** The books *)

Record BackupEntry := mkEntry {
  filename : string;
  created_at : Z;
  size_bytes : Z;
  checksum : string
}.
Record BackupState := mkState {
  backup_success : Z;
  backup_failure : Z;
  backups_retained : Z;
  backups_expired : Z;
  last_backup : option Z;
  last_backup_size : Z;
  backup_history : list BackupEntry
}.
#[export] Instance BackupState_settable : Settable BackupState := λ s,
  mkState (backup_success s) (backup_failure s) (backups_retained s) (backups_expired s)
    (last_backup s) (last_backup_size s) (backup_history s).
(** [BackupState::new] *)
Definition new_state : BackupState := mkState 0 0 0 0 None 0 [].
(** [as u64] of a [usize] *)
Definition len64 {A} (l : list A) : Z := wrap 64 (Z.of_nat (length l)).

(** [record_backup]; the two readings of the clock are one *)
Definition record_backup (now : Z) (name : string) (size : Z) (sum : string) (s : BackupState) : BackupState :=
  let h := backup_history s ++ [mkEntry name now size sum] in
  s <| backup_history := h |> <| backup_success ::= λ n, add64 n 1 |>
    <| last_backup := Some now |> <| last_backup_size := size |> <| backups_retained := len64 h |>.
Definition record_failure (s : BackupState) : BackupState := s <| backup_failure ::= λ n, add64 n 1 |>.

(** [cleanup_retention]: the names that expired; [None] is the panic of the date
    arithmetic. *)
Definition cleanup_retention `{Chrono} (now retention_days : Z) (s : BackupState)
    : option (list string * BackupState) :=
  cutoff ← plus_seconds now (- (retention_days * 86400));
  let kept := filter (λ e, cutoff ≤ created_at e) (backup_history s) in
  Some (filename <$> filter (λ e, created_at e < cutoff) (backup_history s),
        s <| backup_history := kept |>
          <| backups_expired ::= λ n, add64 n (sub64 (len64 (backup_history s)) (len64 kept)) |>
          <| backups_retained := len64 kept |>).

(** [history_summary]: how many, their bytes, the age of the first in days *)
Definition history_summary (now : Z) (s : BackupState) : Z * Z * Z :=
  (Z.of_nat (length (backup_history s)),
   foldl add64 0 (size_bytes <$> backup_history s),
   match backup_history s with
   | e :: _ => as_u64 (Z.quot (num_seconds_between now (created_at e)) 86400)
   | [] => 0
   end).
Definition metrics (s : BackupState) : list (string * f64) :=
  [("backup_success_total", f64_of_Z (backup_success s));
   ("backup_failure_total", f64_of_Z (backup_failure s));
   ("backup_size_bytes", f64_of_Z (last_backup_size s));
   ("backup_retained_total", f64_of_Z (backups_retained s));
   ("backup_expired_total", f64_of_Z (backups_expired s))] ++
  match last_backup s with
  | Some t => [("backup_last_success_timestamp", f64_of_Z (t / 10 ^ 9))]
  | None => []
  end.

(** ** Configuration *)

Record BackupShim := mkShim {
  schedule : string;
  storage : string;
  backup_path : string;
  prefix : string;
  retention_days : Z;
  database : string;
  db_type : string;
  db_host : string;
  db_port : Z;
  db_user : string;
  db_password : string;
  compression : string;
  timeout_secs : Z;
  backup_cmd : string;
  output_dir : string;
  redis_url : string;
  redis_password : string;
  retry_max_attempts : Z;
  retry_base_delay_ms : Z;
  retry_max_delay_ms : Z;
  s3_bucket : string;
  s3_region : string;
  s3_endpoint : option string;
  s3_prefix : string;
  s3_force_path_style : bool;
  s3_server_side_encryption : bool
}.
#[export] Instance BackupShim_settable : Settable BackupShim := λ s,
  mkShim (schedule s) (storage s) (backup_path s) (prefix s) (retention_days s) (database s)
    (db_type s) (db_host s) (db_port s) (db_user s) (db_password s) (compression s) (timeout_secs s)
    (backup_cmd s) (output_dir s) (redis_url s) (redis_password s) (retry_max_attempts s)
    (retry_base_delay_ms s) (retry_max_delay_ms s) (s3_bucket s) (s3_region s) (s3_endpoint s)
    (s3_prefix s) (s3_force_path_style s) (s3_server_side_encryption s).

(** [BackupShim::new] *)
Definition new_shim (env : environment) : BackupShim :=
  {| schedule := env_or env "BACKUP_SCHEDULE" "0 0 2 * * *";
     storage := env_or env "BACKUP_STORAGE" "local";
     backup_path := env_or env "BACKUP_PATH" "/var/backups";
     prefix := env_or env "BACKUP_PREFIX" "";
     retention_days := env_parse env "BACKUP_RETENTION_DAYS" parse_u32 30;
     database := env_or env "BACKUP_DATABASE" "";
     db_type := env_or env "BACKUP_DB_TYPE" "postgres";
     db_host := env_or env "BACKUP_DB_HOST" "127.0.0.1";
     db_port := env_parse env "BACKUP_DB_PORT" (parse_unsigned (2 ^ 16 - 1)) 5432;
     db_user := env_or env "BACKUP_DB_USER" "postgres";
     db_password := env_or env "BACKUP_DB_PASSWORD" "";
     compression := env_or env "BACKUP_COMPRESSION" "gzip";
     timeout_secs := env_parse env "BACKUP_TIMEOUT_SECS" parse_u64 3600;
     backup_cmd := env_or env "BACKUP_CMD" "pg_dump";
     output_dir := env_or env "BACKUP_OUTPUT_DIR" "/tmp/backups";
     redis_url := env_or env "REDIS_URL" "redis://localhost:6379";
     redis_password := env_or env "REDIS_PASSWORD" "";
     retry_max_attempts := env_parse env "BACKUP_RETRY_MAX_ATTEMPTS" parse_u32 3;
     retry_base_delay_ms := env_parse env "BACKUP_RETRY_BASE_DELAY_MS" parse_u64 1000;
     retry_max_delay_ms := env_parse env "BACKUP_RETRY_MAX_DELAY_MS" parse_u64 30000;
     s3_bucket := env_or env "BACKUP_S3_BUCKET" "";
     s3_region := env_or env "BACKUP_S3_REGION" "us-east-1";
     s3_endpoint := env !! "BACKUP_S3_ENDPOINT";
     s3_prefix := env_or env "BACKUP_S3_PREFIX" "backups";
     s3_force_path_style := env_true env "BACKUP_S3_FORCE_PATH_STYLE";
     s3_server_side_encryption :=
       match env !! "BACKUP_S3_SSE" with Some _ => env_true env "BACKUP_S3_SSE" | None => true end |}.

(** [init]; [errors] is what [config.validate()] returns *)
Definition init (validation_enabled : bool) (errors : list ConfigValidationError)
    (section : option BackupConfig) (s : BackupShim) : result string unit * BackupShim :=
  let mine := filter (λ e, starts_with (field e) "backup." = true) errors in
  if validation_enabled && negb (bool_decide (mine = []))
  then (Err ("backup config validation failed: " +:+ String.concat "; " (error_display <$> mine)), s)
  else (Ok tt, match section with
               | Some b =>
                   s <| schedule := Config.schedule b |> <| storage := Config.storage b |>
                     <| retention_days := Config.retention_days b |>
                     <| database := backup_database b |> <| prefix := backup_prefix b |>
               | None => s
               end).

(** ** The host *)

(** What [build_s3_store] hands to the S3 client *)
Inductive Credentials := StandardChain | Static (access_key secret_key : string).
Record S3Settings := mkS3 {
  cfg_bucket : string;
  cfg_region : string;
  cfg_path_style : bool;
  cfg_endpoint : option string;
  cfg_credentials : Credentials
}.

(** Instants of the clock are nanoseconds, sleeps are milliseconds.  [Value] is a
    reply of Redis and [value_string] its conversion to a [String]. *)
Class Host := {
  World : Type;
  create_dir_all : string → World → result string unit * World;
  write_file : string → string → World → result string unit * World;
  copy_file : string → string → World → result string unit * World;
  remove_file : string → World → result string unit * World;
  read_file : string → World → result string string;
  file_len : string → World → result string Z;
  run_command : Command → World → result string Output * World;
  Value : Type;
  value_string : Value → result string string;
  redis_connect : string → World → result string unit * World;
  redis_cmd : list string → World → result string Value * World;
  s3_client : S3Settings → World → result string unit;
  s3_put : S3Settings → string → string → World → result string unit * World;
  s3_delete : S3Settings → string → World → result string unit * World;
  now : World → Z;
  sleep : Z → World → World;
  write_read p d w w' : write_file p d w = (Ok tt, w') → read_file p w' = Ok d;
  put_read cfg k d w p : read_file p (s3_put cfg k d w).2 = read_file p w;
  read_len p d w : read_file p w = Ok d → file_len p w = Ok (Z.of_nat (String.length d))
}.

Section backup.
Context `{HOST : Host} (env : environment).
(** SHA-256, and [format("%Y%m%d_%H%M%S")] of an instant *)
Context (sha256 : string → string) (timestamp : Z → string).
(** [BucketName::new], [ObjectKey::try_from], [Url::parse], [redis::Client::open]: the
    error, if any *)
Context (bucket_error key_error url_error redis_error : string → option string).
Implicit Types (w : World) (s : BackupShim) (st : BackupState).

(** *** Fallible steps on the world; [None] is a panic, or out of fuel *)
Definition io (A : Type) : Type := World → option (result string A * World).
Definition io_ret {A} (x : A) : io A := λ w, Some (Ok x, w).
Definition io_fail {A} (e : string) : io A := λ w, Some (Err e, w).
Definition io_bind {A B} (m : io A) (k : A → io B) : io B := λ w,
  match m w with
  | Some (Ok x, w') => k x w'
  | Some (Err e, w') => Some (Err e, w')
  | None => None
  end.
(** [op.await.map_err(|e| ..)?] *)
Definition ask {A} (f : string → string) (op : World → result string A * World) : io A := λ w,
  Some (match op w with (Ok x, w') => (Ok x, w') | (Err e, w') => (Err (f e), w') end).
Definition lift {A} (r : result string A) : io A := λ w, Some (r, w).
Notation "x '<-!' m ; k" := (io_bind m (λ x, k)) (at level 60, m at level 59, right associativity).
Notation "m ';;!' k" := (io_bind m (λ _, k)) (at level 60, right associativity).
(** [map_err] of a result already at hand *)
Definition map_err {A} (f : string → string) (r : result string A) : result string A :=
  match r with Ok x => Ok x | Err e => Err (f e) end.
Definition checked (o : option string) (f : string → string) : result string unit :=
  match o with None => Ok tt | Some e => Err (f e) end.

Definition extension s : string :=
  if bool_decide (compression s = "gzip") then "sql.gz"
  else if bool_decide (compression s = "zstd") then "sql.zst" else "sql".
Definition backup_filename s (t : Z) : string :=
  database s +:+ "_" +:+ timestamp t +:+ "." +:+ extension s.
Definition output_path s (name : string) : string := output_dir s +:+ "/" +:+ name.
Definition compute_checksum (data : string) : string := hex_encode (sha256 data).
Definition size_of (data : string) : Z := wrap 64 (Z.of_nat (String.length data)).

(** *** Object storage *)

Definition raw_key s (name : string) : string :=
  if bool_decide (s3_prefix s = "") then database s +:+ "/" +:+ name
  else s3_prefix s +:+ "/" +:+ database s +:+ "/" +:+ name.
Definition bucket_check s : result string unit :=
  checked (bucket_error (s3_bucket s)) (λ e, "invalid bucket '" +:+ s3_bucket s +:+ "': " +:+ e).
Definition key_check (key : string) : result string unit :=
  checked (key_error key) (λ e, "invalid object key '" +:+ key +:+ "': " +:+ e).
Definition s3_credentials : Credentials :=
  match env !! "BACKUP_S3_ACCESS_KEY", env !! "BACKUP_S3_SECRET_KEY" with
  | Some a, Some b => if bool_decide (a ≠ "" ∧ b ≠ "") then Static a b else StandardChain
  | _, _ => StandardChain
  end.
Definition build_s3_store s : io S3Settings := λ w,
  (lift (bucket_check s) ;;!
   lift (match s3_endpoint s with
         | Some u => checked (url_error u) (λ e, "invalid BACKUP_S3_ENDPOINT '" +:+ u +:+ "': " +:+ e)
         | None => Ok tt
         end) ;;!
   let cfg := mkS3 (s3_bucket s) (s3_region s) (s3_force_path_style s) (s3_endpoint s) s3_credentials in
   lift (map_err (λ e, "failed to build S3 client: " +:+ e) (s3_client cfg w)) ;;!
   io_ret cfg) w.
Definition upload_to_s3 s (local name : string) : io string :=
  lift (bucket_check s) ;;!
  let key := raw_key s name in
  lift (key_check key) ;;!
  data <-! ask (λ e, "Failed to read backup file for upload: " +:+ local +:+ ": " +:+ e)
             (λ w, (read_file local w, w));
  cfg <-! build_s3_store s;
  ask (λ e, "S3 upload failed: " +:+ s3_bucket s +:+ "/" +:+ key +:+ ": " +:+ e) (s3_put cfg key data) ;;!
  io_ret ("s3://" +:+ s3_bucket s +:+ "/" +:+ key).
Definition delete_from_s3 s (name : string) : io unit :=
  lift (bucket_check s) ;;!
  let key := raw_key s name in
  lift (key_check key) ;;!
  cfg <-! build_s3_store s;
  ask (λ e, "S3 delete failed: " +:+ s3_bucket s +:+ "/" +:+ key +:+ ": " +:+ e) (s3_delete cfg key).

(** *** Dumps *)

Definition pg_dump s : Command :=
  mkCommand (backup_cmd s)
    ["-h"; db_host s; "-p"; pretty (db_port s); "-U"; db_user s; "-d"; database s;
     "--no-owner"; "--no-privileges"; "-Fc"]
    [("PGPASSWORD", db_password s)].
Definition mysqldump s : Command :=
  mkCommand "mysqldump"
    ["-h"; db_host s; "-P"; pretty (db_port s); "-u"; db_user s; database s;
     "--single-transaction"; "--routines"; "--triggers"]
    [("MYSQL_PWD", db_password s)].
Definition mongodump s (output : string) : Command :=
  mkCommand "mongodump" ["--uri"; "mongodb://" +:+ db_host s; "--out"; output] [].
(** What [dump_postgres] and [dump_mariadb] do with their command *)
Definition dump_to (failed : string) (c : Command) (output : string) : io unit :=
  out <-! ask id (run_command c);
  if exit_ok out then ask id (write_file output (stdout out))
  else io_fail (failed +:+ " failed: " +:+ stderr out).
Definition dump_postgres s (output : string) : io unit := dump_to (backup_cmd s) (pg_dump s) output.
Definition dump_mariadb s (output : string) : io unit := dump_to "mysqldump" (mysqldump s) output.

(** [Instant + Duration]: the seconds of an instant are an [i64]. *)
Definition instant_plus (t secs : Z) : option Z :=
  if t / 10 ^ 9 + secs <? 2 ^ 63 then Some (t + secs * 10 ^ 9) else None.
(** [query_async::<String>] *)
Definition redis_string (f : string → string) (c : list string) : io string := λ w,
  match redis_cmd c w with
  | (Ok v, w') => Some (map_err f (value_string v), w')
  | (Err e, w') => Some (Err (f e), w')
  end.
Definition redis_unit (f : string → string) (c : list string) : io unit :=
  ask f (redis_cmd c) ;;! io_ret tt.
Definition timed_out (secs : Z) : string := "Redis BGSAVE timed out after " +:+ pretty secs +:+ " seconds".
Fixpoint bgsave_wait (fuel : nat) (secs deadline : Z) : io unit :=
  info <-! redis_string (λ e, "Redis INFO failed: " +:+ e) ["INFO"; "persistence"];
  if str_contains info "rdb_bgsave_in_progress:0" then io_ret tt
  else λ w,
    if deadline <=? now w
    then Some (Err (timed_out secs), w)
    else match fuel with
         | O => None
         | S fuel => bgsave_wait fuel secs deadline (sleep 100 w)
         end.
Definition bgsave_fuel s : nat := Z.to_nat (timeout_secs s * 10).
Definition backup_redis s (output : string) : io unit :=
  lift (checked (redis_error (redis_url s)) (λ e, "Failed to create Redis client: " +:+ e)) ;;!
  ask (λ e, "Failed to connect to Redis: " +:+ e) (redis_connect (redis_url s)) ;;!
  (if bool_decide (redis_password s = "") then io_ret tt
   else redis_unit (λ e, "Redis AUTH failed: " +:+ e) ["AUTH"; redis_password s]) ;;!
  redis_unit (λ e, "Redis BGSAVE failed: " +:+ e) ["BGSAVE"] ;;!
  (λ w, match instant_plus (now w) (timeout_secs s) with
        | Some deadline => bgsave_wait (bgsave_fuel s) (timeout_secs s) deadline w
        | None => None
        end) ;;!
  dir <-! redis_string (λ e, "Redis CONFIG GET dir failed: " +:+ e) ["CONFIG"; "GET"; "dir"];
  name <-! redis_string (λ e, "Redis CONFIG GET dbfilename failed: " +:+ e) ["CONFIG"; "GET"; "dbfilename"];
  ask id (copy_file (trim dir +:+ "/" +:+ trim name) output).

(** *** A backup with its retries *)

Definition retry_delay_ms s (attempt : Z) : Z :=
  Z.min (mul64 (retry_base_delay_ms s) (wrap 64 (2 ^ (attempt - 1)))) (retry_max_delay_ms s).

(** One attempt: an error of the monad leaves [backup] through [?] or [bail!]; a
    result is what the retry loop sees. *)
Definition attempt_dump s (output : string) : io (result string unit) :=
  let caught (m : io unit) : io (result string unit) := λ w, prod_map Ok id <$> m w in
  if bool_decide (db_type s = "postgres") then caught (dump_postgres s output)
  else if bool_decide (db_type s ∈ ["mariadb"; "mysql"]) then caught (dump_mariadb s output)
  else if bool_decide (db_type s = "redis") then caught (backup_redis s output)
  else if bool_decide (db_type s = "mongo")
  then ask id (run_command (mongodump s output)) ;;! io_ret (Ok tt)
  else io_fail ("Unsupported database type: " +:+ db_type s).

(** The upload after a dump, whose errors are only logged *)
Definition upload_step s (output name : string) (w : World) : option World :=
  if bool_decide (storage s = "s3" ∧ s3_bucket s ≠ "") then
    '(r, w) ← upload_to_s3 s output name w;
    match r with
    | Ok _ => if env_true env "BACKUP_S3_REMOVE_LOCAL" then Some (remove_file output w).2 else Some w
    | Err _ => Some w
    end
  else Some w.

(** The branch of a dump that worked: what is read back is what counts *)
Definition settle s (output name : string) st w : option (result string unit * BackupState * World) :=
  match read_file output w with
  | Err e => Some (Err ("Failed to read backup file " +:+ output +:+ ": " +:+ e), st, w)
  | Ok data =>
      w ← upload_step s output name w;
      Some (Ok tt, record_backup (now w) name (size_of data) (compute_checksum data) st, w)
  end.

Fixpoint backup_loop (n : nat) s (output name : string) (attempt : Z) (last : option string) st w
    : option (result string unit * BackupState * World) :=
  match n with
  | O => Some (Err (default "Backup failed after all retries" last), record_failure st, w)
  | S n =>
      let w := if 0 <? attempt then sleep (retry_delay_ms s attempt) w else w in
      '(r, w) ← attempt_dump s output w;
      match r with
      | Err e => Some (Err e, st, w)
      | Ok (Ok _) => settle s output name st w
      | Ok (Err e) => backup_loop n s output name (attempt + 1) (Some e) st w
      end
  end.
Definition backup s st w : option (result string unit * BackupState * World) :=
  let name := backup_filename s (now w) in
  match create_dir_all (output_dir s) w with
  | (Err e, w) => Some (Err e, st, w)
  | (Ok _, w) => backup_loop (S (Z.to_nat (retry_max_attempts s))) s (output_path s name) name 0 None st w
  end.

(** *** Verification *)

Definition validate_backup (e : BackupEntry) (data : string) : bool :=
  if bool_decide (size_bytes e = 0 ∨ checksum e = "" ∨ (String.length (checksum e) < 16)%nat) then false
  else bool_decide (compute_checksum data = checksum e) && bool_decide (size_of data = size_bytes e).

Record VerificationResult := mkVerification {
  success : bool;
  file_exists : bool;
  file_size : Z;
  checksum_match : option bool;
  restore_test : option bool;
  errors : list string
}.
Record BackupVerifier := mkVerifier { verify_after : bool; test_restore : bool }.
(** [BackupVerifier::from_env] *)
Definition verifier_from_env : BackupVerifier :=
  {| verify_after := match env !! "BACKUP_VERIFY_AFTER" with
                     | Some _ => env_true env "BACKUP_VERIFY_AFTER"
                     | None => true
                     end;
     test_restore := env_true env "BACKUP_VERIFY_RESTORE" |}.
Definition pg_restore (path : string) : Command := mkCommand "pg_restore" ["--list"; path] [].
Definition test_restore_command (path : string) w : result string bool * World :=
  match run_command (pg_restore path) w with
  | (Ok out, w) => (Ok (exit_ok out), w)
  | (Err e, w) => (Err e, w)
  end.
Definition verify (v : BackupVerifier) (path expected : string) w : VerificationResult * World :=
  if negb (verify_after v) then (mkVerification true true 0 None None [], w)
  else match file_len path w with
       | Err e => (mkVerification false false 0 None None ["File not found: " +:+ e], w)
       | Ok size =>
           if size =? 0
           then (mkVerification false true 0 (Some false) None ["Backup file has zero size"], w)
           else match read_file path w with
                | Err e => (mkVerification false true size None None
                              ["Failed to read backup file: " +:+ e], w)
                | Ok data =>
                    let actual := compute_checksum data in
                    let ok := bool_decide (actual = expected) in
                    let errs := if ok then [] else
                      ["Checksum mismatch: expected=" +:+ expected +:+ ", actual=" +:+ actual] in
                    let '(restore, errs, w) :=
                      if test_restore v && ok
                      then match test_restore_command path w with
                           | (Ok b, w) => (Some b, errs, w)
                           | (Err e, w) => (Some false, errs ++ ["Restore test failed: " +:+ e], w)
                           end
                      else (None, errs, w) in
                    (mkVerification (ok && bool_decide (errs = [])) true size (Some ok) restore errs, w)
                end
       end.

(** *** A sequence of calls on the books *)
Inductive BookOp :=
| OpRecord (t : Z) (name : string) (size : Z) (sum : string)
| OpFailure
| OpCleanup (t days : Z).
Definition book_step `{Chrono} (o : BookOp) st : option BackupState :=
  match o with
  | OpRecord t name size sum => Some (record_backup t name size sum st)
  | OpFailure => Some (record_failure st)
  | OpCleanup t days => snd <$> cleanup_retention t days st
  end.
Fixpoint book_run `{Chrono} (os : list BookOp) st : option BackupState :=
  match os with [] => Some st | o :: os => book_step o st ≫= book_run os end.

(** *** The scheduled loop *)
Context `{CR : Cron} `{CH : Chrono}.

Definition fallback_schedule : option Schedule :=
  match schedule_from_str "0 0 2 * * *" with Ok x => Some x | Err _ => None end.
Definition loop_schedule s : option Schedule :=
  match schedule_from_str (schedule s) with Ok x => Some x | Err _ => fallback_schedule end.
(** The shim the task builds for every run *)
Definition loop_shim s : BackupShim :=
  s <| backup_path := "" |> <| prefix := "" |> <| retention_days := 30 |>.
(** [next_wake]; [None] is a panic of the date arithmetic *)
Definition next_wake (sched : Schedule) (t : Z) : option Z :=
  match upcoming sched t with Some n => Some n | None => plus_seconds t 3600 end.
(** [(next_wake - now).num_seconds().max(0) as u64] *)
Definition sleep_secs (next t : Z) : Z := Z.max 0 (num_seconds_between next t).
(** One turn, whose two readings of the clock before the sleep are one; [stopped] says
    that the shutdown signal wins the [select!]. *)
Definition loop_turn (stopped : bool) (sched : Schedule) s st w
    : option (bool * BackupState * World) :=
  next ← next_wake sched (now w);
  if stopped then Some (false, st, w)
  else '(_, st, w) ← backup (loop_shim s) st (sleep (sleep_secs next (now w) * 1000) w);
       Some (true, st, w).
(** [start]: the first backup runs before the task does. *)
Definition start s st w : option (Schedule * BackupState * World) :=
  '(_, st, w) ← backup s st w;
  sched ← loop_schedule s;
  Some (sched, st, w).

(** The task, until a turn finds the signal *)
Fixpoint loop_run (stops : list bool) (sched : Schedule) s st w : option (BackupState * World) :=
  match stops with
  | [] => Some (st, w)
  | b :: stops =>
      '(go, st, w) ← loop_turn b sched s st w;
      if go : bool then loop_run stops sched s st w else Some (st, w)
  end.

(** ** Theorems *)

(** What a step can answer *)
Definition never_ok {A} (m : io A) : Prop := ∀ w x w', m w ≠ Some (Ok x, w').
Lemma never_bind {A B} (m : io A) (k : A → io B) : (∀ x, never_ok (k x)) → never_ok (io_bind m k).
Proof. intros Hk w y w'. unfold io_bind. destruct (m w) as [[[x|e] w1]|]; [apply Hk|done..]. Qed.
Lemma never_bind_l {A B} (m : io A) (k : A → io B) : never_ok m → never_ok (io_bind m k).
Proof.
  intros Hm w y w'. unfold io_bind. destruct (m w) as [[[x|e] w1]|] eqn:E; [|done..].
  by destruct (Hm w x w1).
Qed.

(** The file stays where it is unless it was uploaded and is to be removed. *)
Definition local_kept s : Prop :=
  storage s ≠ "s3" ∨ s3_bucket s = "" ∨ env_true env "BACKUP_S3_REMOVE_LOCAL" = false.
Lemma lift_inv {A} (r r' : result string A) w w' : lift r w = Some (r', w') → r' = r ∧ w' = w.
Proof. unfold lift. by intros [= <- <-]. Qed.
Lemma upload_keeps_files s local name w r w' p :
  upload_to_s3 s local name w = Some (r, w') → read_file p w' = read_file p w.
Proof.
  unfold upload_to_s3, build_s3_store, io_bind, lift, ask, io_ret.
  destruct (bucket_check s); [|by intros [= <- <-]].
  destruct (key_check _); [|by intros [= <- <-]].
  destruct (read_file local w) as [data|]; [|by intros [= <- <-]].
  destruct (match s3_endpoint s with Some _ => _ | None => _ end); [|by intros [= <- <-]].
  destruct (map_err _ (s3_client _ w)); [|by intros [= <- <-]].
  destruct (s3_put _ _ data w) as [[]  w1] eqn:E; intros [= <- <-].
  all: etrans; [|apply put_read]; by rewrite E.
Qed.
Lemma upload_step_keeps s output name w w' :
  local_kept s → upload_step s output name w = Some w' → read_file output w' = read_file output w.
Proof.
  intros Hk. unfold upload_step. case_bool_decide as Hs; [|by intros [= <-]].
  destruct (upload_to_s3 s output name w) as [[r w1]|] eqn:E; simpl; [|done].
  pose proof (upload_keeps_files s output name w r w1 output E).
  destruct r; [|by intros [= <-]].
  destruct Hs as [??], Hk as [?|[?| ->]]; [done..|by intros [= <-]].
Qed.

(** Every way a backup ends *)
Inductive outcome s (t : Z) st w' : result string unit → BackupState → Prop :=
| Recorded data :
    (local_kept s → read_file (output_path s (backup_filename s t)) w' = Ok data) →
    outcome s t st w' (Ok tt)
      (record_backup (now w') (backup_filename s t) (size_of data) (compute_checksum data) st)
| Counted e : outcome s t st w' (Err e) (record_failure st)
| Uncounted e : outcome s t st w' (Err e) st.

Lemma settle_outcome s t st w r st' w' :
  settle s (output_path s (backup_filename s t)) (backup_filename s t) st w = Some (r, st', w') →
  outcome s t st w' r st'.
Proof.
  unfold settle. destruct (read_file _ w) as [data|e] eqn:E; [|intros [= <- <- <-]; constructor].
  destruct (upload_step _ _ _ w) as [w1|] eqn:U; simpl; [|done]. intros [= <- <- <-].
  constructor. intros Hk. rewrite <-E. by eapply upload_step_keeps.
Qed.
Lemma backup_loop_outcome n s t a last st w r st' w' :
  backup_loop n s (output_path s (backup_filename s t)) (backup_filename s t) a last st w = Some (r, st', w') →
  outcome s t st w' r st'.
Proof.
  revert a last w. induction n as [|n IH]; intros a last w; cbn [backup_loop].
  { intros [= <- <- <-]. constructor. }
  destruct (attempt_dump _ _ _) as [[[[|e]|e] w1]|]; simpl; [| |intros [= <- <- <-]; constructor|done].
  - apply settle_outcome.
  - apply IH.
Qed.
Lemma backup_ends s st w r st' w' :
  backup s st w = Some (r, st', w') → outcome s (now w) st w' r st'.
Proof.
  unfold backup. destruct (create_dir_all _ w) as [[|e] w1]; [|intros [= <- <- <-]; constructor].
  apply backup_loop_outcome.
Qed.

(** The restore test, when there is one, gets to run its command. *)
Definition restore_runs (v : BackupVerifier) (path : string) w : bool :=
  negb (test_restore v) || is_ok (run_command (pg_restore path) w).1.
(** [verify] reads the file, [file_len] its size. *)
Lemma verify_kept v path d w :
  read_file path w = Ok d →
  success (verify v path (compute_checksum d) w).1 =
  negb (verify_after v) || negb (bool_decide (d = "")) && restore_runs v path w.
Proof.
  intros Hd. unfold verify, restore_runs, test_restore_command. destruct (verify_after v); [|done].
  rewrite (read_len path d w Hd), Hd. simpl. rewrite bool_decide_eq_true_2 by done. destruct d as [|c d]; [done|].
  rewrite (proj2 (Z.eqb_neq _ 0)) by (simpl; lia). destruct (test_restore v); simpl; [|done].
  by destruct (run_command (pg_restore path) w) as [[out|e] w1].
Qed.


Section foreign_dumps.
Context (config_get : ∀ k w v w', redis_cmd ["CONFIG"; "GET"; k] w = (Ok v, w') → ∃ e, value_string v = Err e).
Lemma backup_redis_never_ok s output : never_ok (backup_redis s output).
Proof.
  unfold backup_redis. do 5 (apply never_bind; intros ?). apply never_bind_l. intros w y w'. unfold redis_string.
  destruct (redis_cmd _ w) as [[v|e] w1] eqn:E; [|done]. by destruct (config_get _ _ _ _ E) as [e ->].
Qed.
Lemma redis_loop_fails n s output name a last st w r st' w' :
  db_type s = "redis" → backup_loop n s output name a last st w = Some (r, st', w') →
  ∃ e, r = Err e ∧ st' = record_failure st.
Proof.
  intros Hd. revert a last w. induction n as [|n IH]; intros a last w; cbn [backup_loop].
  { intros [= <- <- <-]. eauto. }
  set (w0 := if 0 <? a then _ else w). clearbody w0. unfold attempt_dump. rewrite Hd.
  rewrite bool_decide_eq_false_2 by done. rewrite (bool_decide_eq_false_2 (_ ∈ _)) by (rewrite !elem_of_cons, elem_of_nil; intros [?|[?|?]]; done).
  rewrite bool_decide_eq_true_2 by done.
  destruct (backup_redis s output w0) as [[[[]|e] w1]|] eqn:E; simpl; [|apply IH|done].
  by destruct (backup_redis_never_ok s output w0 () w1).
Qed.
End foreign_dumps.
(** An attempt for a MongoDB, or for an unknown type *)
Lemma foreign_attempt s output w :
  db_type s ∉ ["postgres"; "mariadb"; "mysql"] → db_type s ≠ "redis" →
  (∃ e w', attempt_dump s output w = Some (Err e, w')) ∨
  ∃ out w', run_command (mongodump s output) w = (Ok out, w') ∧
            attempt_dump s output w = Some (Ok (Ok tt), w').
Proof.
  intros Hs Hr. unfold attempt_dump. rewrite !not_elem_of_cons in Hs. destruct Hs as (H1 & H2 & H3 & _).
  rewrite (bool_decide_eq_false_2 (_ = "postgres")) by done.
  rewrite (bool_decide_eq_false_2 (_ ∈ ["mariadb"; _])) by (rewrite !elem_of_cons, elem_of_nil; tauto).
  rewrite (bool_decide_eq_false_2 (_ = "redis")) by done.
  case_bool_decide; [|left; by eexists _, _]. unfold io_bind, ask, io_ret.
  destruct (run_command _ w) as [[out|e] w'] eqn:E; [right|left]; eauto.
Qed.

(** Only SQL dumps ever succeed.  [CONFIG GET] answers with an array, which the
    client does not convert to a string, so every backup of a Redis fails and is
    counted as a failure; [mongodump] makes a directory, which cannot be read as a
    file, so every backup of a MongoDB ends in an error that is counted nowhere, as
    does one of an unknown type. *)
Theorem only_sql_succeeds s st w r st' w' :
  (∀ k w v w', redis_cmd ["CONFIG"; "GET"; k] w = (Ok v, w') → ∃ e, value_string v = Err e) →
  (∀ d w out w', run_command (mongodump s d) w = (Ok out, w') → ∃ e, read_file d w' = Err e) →
  backup s st w = Some (r, st', w') →
  db_type s ∈ ["postgres"; "mariadb"; "mysql"] ∨
  (∃ e, r = Err e ∧
     (st' = st ∨ (db_type s = "redis" ∧ st' = record_failure st))).
Proof.
  intros Hredis Hmongo. destruct (decide (db_type s ∈ ["postgres"; "mariadb"; "mysql"])) as [|Hsql]; [by left|].
  intros Hb. right. unfold backup in Hb.
  destruct (create_dir_all _ w) as [[|e] w1]; [|simplify_eq; eauto].
  destruct (decide (db_type s = "redis")) as [Hr|Hr].
  - edestruct (redis_loop_fails Hredis) as (e & -> & ->); [exact Hr|exact Hb|]. eauto.
  - cbn [backup_loop] in Hb. change (0 <? 0) with false in Hb. cbv iota in Hb.
    destruct (foreign_attempt s (output_path s (backup_filename s (now w))) w1 Hsql Hr)
      as [(e & w2 & Ea)|(out & w2 & Ew & Ea)].
    + rewrite Ea in Hb. simpl in Hb. simplify_eq. eauto.
    + rewrite Ea in Hb. simpl in Hb. destruct (Hmongo _ _ _ _ Ew) as [e He].
      unfold settle in Hb. rewrite He in Hb. simplify_eq. eauto.
Qed.

(** What the verifier accepts.  With verification on, a file passes exactly when
    it can be read, is not empty, has the expected checksum, and, with a restore test,
    when [pg_restore] could be run: that the command then fails only shows in
    [restore_test].  With verification off, everything passes. *)
Theorem verify_exact v path expected w :
  let r := (verify v path expected w).1 in
  (success r = true ↔
     verify_after v = false ∨
     ∃ d, read_file path w = Ok d ∧ d ≠ "" ∧ compute_checksum d = expected ∧
       (test_restore v = true → ∃ out w', run_command (pg_restore path) w = (Ok out, w'))) ∧
  (success r = true → ∀ out w', run_command (pg_restore path) w = (Ok out, w') →
     restore_test r = if verify_after v && test_restore v then Some (exit_ok out) else None).
Proof.
  unfold verify, test_restore_command. destruct (verify_after v); simpl; [|split; [split; [by left|done]|done]].
  destruct (read_file path w) as [d|e] eqn:E.
  - rewrite (read_len _ _ _ E). destruct d as [|c d]; [split; [split; [done|]|done]; intros [?|(? & ? & ? & _)]; simplify_eq|].
    rewrite (proj2 (Z.eqb_neq _ 0)) by (simpl; lia). case_bool_decide as Hc.
    + destruct (test_restore v); simpl.
      * destruct (run_command (pg_restore path) w) as [[out|e] w1]; simpl.
        -- split; [split; [|done]|by intros _ ?? [= <- <-]]. intros _. right. exists (String c d). split_and!; [done..|]. by eexists _, _.
        -- split; [split; [done|]|done]. intros [?|(? & ? & ? & ? & Hx)]; [done|].
           by destruct (Hx eq_refl) as (? & ? & ?).
      * split; [split; [|done]|done]. intros _. right. by exists (String c d).
    + rewrite andb_false_r. split; [split; [done|]|done]. intros [?|(? & ? & ? & ? & _)]; simplify_eq.
  - destruct (file_len path w) as [n|]; [destruct (n =? 0)|];
      (split; [split; [done|]|done]; intros [?|(? & ? & _)]; simplify_eq).
Qed.

(** ** Waiting for Redis *)
Section redis_wait.
Context (sleep_at_least : ∀ d w, 0 ≤ d → now w + d * 10 ^ 6 ≤ now (sleep d w)).
Context (redis_forward : ∀ c w, now w ≤ now (redis_cmd c w).2).

Lemma bgsave_wait_spec fuel secs deadline w :
  deadline - now w ≤ Z.of_nat fuel * 10 ^ 8 →
  ∃ r w', bgsave_wait fuel secs deadline w = Some (r, w') ∧ (r = Err (timed_out secs) → deadline ≤ now w').
Proof.
  revert w. induction fuel as [|fuel IH]; intros w Hf; cbn [bgsave_wait]; unfold io_bind, redis_string.
  all: pose proof (redis_forward ["INFO"; "persistence"] w) as Hn.
  all: destruct (redis_cmd _ w) as [[v|e] w1]; simpl in Hn; [|by eexists _, _].
  all: destruct (value_string v) as [info|e]; simpl; [|by eexists _, _].
  all: destruct (str_contains _ _); [by eexists _, _|].
  all: destruct (Z.leb_spec deadline (now w1)); [by eexists _, _|].
  - lia.
  - apply IH. pose proof (sleep_at_least 100 w1 ltac:(lia)). lia.
Qed.

(** The wait for the snapshot ends.  Whatever the server answers, the loop
    returns within its fuel, ten polls for each second of the timeout and one more;
    when it reports a timeout, the deadline has passed. *)
Theorem bgsave_wait_ends s t w :
  0 ≤ timeout_secs s → t ≤ now w →
  ∃ r w', bgsave_wait (bgsave_fuel s) (timeout_secs s) (t + timeout_secs s * 10 ^ 9) w = Some (r, w') ∧
    (r = Err (timed_out (timeout_secs s)) → t + timeout_secs s * 10 ^ 9 ≤ now w').
Proof. intros. apply bgsave_wait_spec. unfold bgsave_fuel. lia. Qed.
End redis_wait.

(** ** Retries *)

(** The wait before a retry doubles up to its cap while the product fits; from the
    65th retry on the power is 0, and so is the wait. *)
Lemma retry_delay_exact s k :
  0 ≤ retry_base_delay_ms s → 0 ≤ retry_max_delay_ms s → 1 ≤ k →
  (retry_base_delay_ms s * 2 ^ (k - 1) < 2 ^ 64 → 0 < retry_base_delay_ms s →
     retry_delay_ms s k = Z.min (retry_base_delay_ms s * 2 ^ (k - 1)) (retry_max_delay_ms s)) ∧
  (65 ≤ k → retry_delay_ms s k = 0) ∧
  0 ≤ retry_delay_ms s k ≤ retry_max_delay_ms s.
Proof.
  intros Hb Hm Hk. unfold retry_delay_ms.
  pose proof (wrap_range 64 (retry_base_delay_ms s * wrap 64 (2 ^ (k - 1))) ltac:(lia)) as Hw.
  unfold mul64, in_u in *. split_and!; [| |lia..].
  - intros Hfit Hpos. assert (0 < 2 ^ (k - 1)) by (apply Z.pow_pos_nonneg; lia).
    rewrite (wrap_small 64 (2 ^ (k - 1))) by (unfold in_u; nia). by rewrite wrap_small by (unfold in_u; nia).
  - intros Hbig. assert (wrap 64 (2 ^ (k - 1)) = 0) as ->.
    { unfold wrap. replace (k - 1) with ((k - 65) + 64) by lia. rewrite Z.pow_add_r by lia.
      apply Z.mod_mul. lia. }
    rewrite Z.mul_0_r. change (wrap 64 0) with 0. lia.
Qed.

(** ** The scheduled loop *)

(** The three fields the task replaces are not read by a backup. *)
Lemma backup_loop_shim s st w : backup (loop_shim s) st w = backup s st w.
Proof.
  assert (∀ n output name a last w,
    backup_loop n (loop_shim s) output name a last st w = backup_loop n s output name a last st w) as Hl.
  { induction n as [|n IH]; intros; cbn [backup_loop]; [done|].
    change (attempt_dump (loop_shim s)) with (attempt_dump s).
    change (retry_delay_ms (loop_shim s)) with (retry_delay_ms s).
    destruct (attempt_dump s _ _) as [[[[|]|] ?]|]; simpl; [done|apply IH|done..]. }
  unfold backup. change (output_dir (loop_shim s)) with (output_dir s).
  destruct (create_dir_all _ w) as [[|] ?]; [apply Hl|done].
Qed.

Lemma sleep_secs_early next t : t ≤ next →
  next - 10 ^ 9 < t + sleep_secs next t * 10 ^ 9 ≤ next.
Proof.
  intros Ht. unfold sleep_secs, num_seconds_between. rewrite Z.quot_div_nonneg by lia.
  pose proof (Z.div_pos (next - t) (10 ^ 9)). pose proof (Z_div_mod_eq_full (next - t) (10 ^ 9)).
  pose proof (Z.mod_pos_bound (next - t) (10 ^ 9)). lia.
Qed.

(** A scheduled backup runs early, and again.  The time to the next instant of the
    schedule is cut to whole seconds, so with an exact timer the backup starts less
    than a second before it; and when it is over before the instant has come, the
    next turn aims at the same instant, waits for no time and starts another one. *)
Theorem fires_again sched s st w n r st1 w2 :
  (∀ d w, 0 ≤ d → now (sleep d w) = now w + d * 10 ^ 6) →
  (∀ t t', upcoming sched t = Some n → t ≤ t' < n → upcoming sched t' = Some n) →
  upcoming sched (now w) = Some n →
  let w1 := sleep (sleep_secs n (now w) * 1000) w in
  backup s st w1 = Some (r, st1, w2) → now w1 ≤ now w2 < n →
  n - 10 ^ 9 < now w1 ≤ n ∧
  loop_turn false sched s st w = Some (true, st1, w2) ∧
  (∀ r' st' w', backup s st1 (sleep 0 w2) = Some (r', st', w') →
     loop_turn false sched s st1 w2 = Some (true, st', w')).
Proof.
  intros Hsleep Hfirst Hn w1 Hb Hw2. pose proof (upcoming_later _ _ _ Hn) as Hlater.
  pose proof (sleep_secs_early n (now w) ltac:(lia)) as He.
  assert (0 ≤ sleep_secs n (now w)) by (unfold sleep_secs; lia).
  assert (now w1 = now w + sleep_secs n (now w) * 10 ^ 9) as Hw1
    by (unfold w1; rewrite Hsleep by lia; lia).
  split_and!; [lia..| |].
  - unfold loop_turn, next_wake. rewrite Hn. simpl. rewrite backup_loop_shim. fold w1. by rewrite Hb.
  - intros r' st' w' Hb'. unfold loop_turn, next_wake. rewrite (Hfirst (now w) (now w2)) by (done || lia). simpl.
    assert (sleep_secs n (now w2) = 0) as ->
      by (pose proof (sleep_secs_early n (now w2)); unfold sleep_secs in *; lia).
    rewrite backup_loop_shim. change (0 * 1000) with 0. by rewrite Hb'.
Qed.

(** ** The books *)

(** The counters agree with the history, whatever is called. *)
Definition books_ok st : Prop :=
  backups_retained st = len64 (backup_history st) ∧
  backup_success st = add64 (backups_retained st) (backups_expired st) ∧
  in_u 64 (backups_expired st).
Lemma books_new : books_ok new_state.
Proof. by split_and!; vm_compute. Qed.
Lemma books_record t name size sum st : books_ok st → books_ok (record_backup t name size sum st).
Proof.
  intros (Hr & Hs & He). split_and!; simpl; [done| |done]. rewrite Hs, Hr. unfold len64.
  rewrite length_app, Nat2Z.inj_add. simpl.
  unfold add64. rewrite !wrap_add_l, <-Z.add_assoc, wrap_add_l.
  f_equal. lia.
Qed.
Lemma books_cleanup t days names st st' :
  cleanup_retention t days st = Some (names, st') → books_ok st → books_ok st'.
Proof.
  unfold cleanup_retention. intros H (Hr & Hs & He). apply bind_Some in H as (cutoff & _ & [= _ <-]).
  split_and!; simpl; [done| |by apply wrap_range]. rewrite Hs, Hr. unfold add64, sub64.
  generalize (len64 (backup_history st)) (len64 (filter (λ e, cutoff ≤ created_at e) (backup_history st))).
  intros a b. rewrite wrap_add_r, Z.add_assoc, wrap_add_r.
  f_equal. lia.
Qed.
Lemma books_outcome s t st w r st' : outcome s t st w r st' → books_ok st → books_ok st'.
Proof. intros [] Hok; [by apply books_record|done..]. Qed.
(** Whatever is called on the books of a new shim: the entries retained are those of
    the history, and each success is either retained or expired. *)
Theorem books_always os st : book_run os new_state = Some st → books_ok st.
Proof.
  generalize new_state, books_new. induction os as [|o os IH]; intros st0 H0; simpl; [by intros [= <-]|].
  intros H. apply bind_Some in H as (st1 & H1 & H). eapply IH; [|done].
  destruct o; simpl in H1; [simplify_eq; by apply books_record|by simplify_eq|].
  apply fmap_Some in H1 as ([names st2] & H1 & ->). by eapply books_cleanup.
Qed.

(** Turns only add to the history, and at most one entry or one failure each. *)
Definition grown (k : nat) st st' : Prop :=
  backups_expired st' = backups_expired st ∧
  ∃ l c, backup_history st' = backup_history st ++ l ∧
    backup_failure st' = add64 (backup_failure st) c ∧ 0 ≤ c ∧ Z.of_nat (length l) + c ≤ Z.of_nat k.
Lemma backup_grows s st w r st' w' :
  in_u 64 (backup_failure st) → backup s st w = Some (r, st', w') → grown 1 st st' ∧ in_u 64 (backup_failure st').
Proof.
  intros Hu Hb. destruct (backup_ends _ _ _ _ _ _ Hb) as [data _| |]; unfold grown; simpl.
  - split; [|done]. split; [done|]. eexists [_], 0. by rewrite add64_0_r.
  - split; [|by apply add64_range]. split; [done|]. exists [], 1. by rewrite app_nil_r.
  - split; [|done]. split; [done|]. exists [], 0. by rewrite app_nil_r, add64_0_r.
Qed.
Lemma grown_trans j k st st1 st2 : grown j st st1 → grown k st1 st2 → grown (j + k) st st2.
Proof.
  intros (He & l & c & Hl & Hf & Hc & Hn) (He' & l' & c' & Hl' & Hf' & Hc' & Hn'). split; [congruence|].
  exists (l ++ l'), (c + c'). rewrite Hl', Hl, Hf', Hf, app_assoc, length_app. unfold add64.
  rewrite wrap_add_l. split_and!; [done| |lia..]. f_equal. lia.
Qed.
Lemma loop_run_grows stops sched s st w st' w' :
  in_u 64 (backup_failure st) → loop_run stops sched s st w = Some (st', w') →
  grown (length stops) st st' ∧ (books_ok st → books_ok st').
Proof.
  assert (∀ st, in_u 64 (backup_failure st) → ∀ k, grown k st st) as Hrefl.
  { intros st0 H k. split; [done|]. exists [], 0. rewrite app_nil_r, add64_0_r by done. split_and!; simpl; [done..|lia]. }
  revert st w. induction stops as [|b stops IH]; intros st w Hu; simpl; [intros [= <- <-]; auto|].
  intros H. apply bind_Some in H as ([[go st1] w1] & Ht & H). unfold loop_turn in Ht.
  apply bind_Some in Ht as (n & _ & Ht). destruct b; [simplify_eq; auto|].
  apply bind_Some in Ht as ([[r st2] w2] & Hb & [= <- <- <-]).
  destruct (backup_grows _ _ _ _ _ _ Hu Hb) as [Hg Hu2].
  destruct (IH st2 w2 Hu2 H) as [Hg' Hk]. split; [by eapply (grown_trans 1)|].
  intros Hok. by eapply Hk, books_outcome, Hok; eapply backup_ends.
Qed.

(** Nothing ever expires in a running shim.  From its start on, however many turns
    the task makes, the retention is never applied: the history only grows, the
    successes are the entries retained, and successes and failures together are at
    most one for each turn and one for the start. *)
Theorem retention_never_applied stops s w sched st1 w1 st2 w2 :
  start s new_state w = Some (sched, st1, w1) → loop_run stops sched s st1 w1 = Some (st2, w2) →
  backups_expired st2 = 0 ∧ backup_success st2 = len64 (backup_history st2) ∧
  backup_history st1 `prefix_of` backup_history st2 ∧
  ∃ c, backup_failure st2 = wrap 64 c ∧ 0 ≤ c ∧
    Z.of_nat (length (backup_history st2)) + c ≤ 1 + Z.of_nat (length stops).
Proof.
  intros Hs Hl. unfold start in Hs. apply bind_Some in Hs as ([[r st0] w0] & Hb & Hs).
  apply bind_Some in Hs as (? & _ & [= -> -> ->]).
  assert (in_u 64 (backup_failure new_state)) as Hz by by vm_compute.
  destruct (backup_grows _ _ _ _ _ _ Hz Hb) as [Hg Hu].
  pose proof (books_outcome _ _ _ _ _ _ (backup_ends _ _ _ _ _ _ Hb) books_new) as Hok.
  destruct (loop_run_grows _ _ _ _ _ _ _ Hu Hl) as [Hg' Hok2].
  destruct (Hok2 Hok) as (Hr & Hsucc & _).
  destruct (grown_trans _ _ _ _ _ Hg Hg') as (He & l & c & Hh & Hf & Hc & Hn).
  split_and!; [done| | |].
  - rewrite Hsucc, Hr, He. apply add64_0_r. by apply wrap_range.
  - destruct Hg' as (_ & l' & _ & -> & _). by apply prefix_app_r.
  - exists c. rewrite Hf, Hh. simpl. split_and!; [done..|]. lia.
Qed.
End backup.

(** ** Runs *)
Section backup_runs.
(** Files and directories ([None]), a clock, a Redis that answers as the documentation
    says.  Every command prints "rows" and takes a tenth of a second; [mongodump] makes a
    directory; [pg_restore] rejects every file. *)
Record Machine := mkMachine { disk : gmap string (option string); time : Z }.
Definition demo_read (p : string) (m : Machine) : result string string :=
  match disk m !! p with
  | Some (Some d) => Ok d
  | Some None => Err "Is a directory"
  | None => Err "No such file or directory"
  end.
Definition demo_store (p : string) (d : option string) (m : Machine) : Machine :=
  mkMachine (<[p := d]> (disk m)) (time m).
Definition demo_len (p : string) (m : Machine) : result string Z :=
  match disk m !! p with
  | Some (Some d) => Ok (Z.of_nat (String.length d))
  | Some None => Ok 4096
  | None => Err "No such file or directory"
  end.
Definition demo_run (c : Command) (m : Machine) : result string Output * Machine :=
  let m := mkMachine (disk m) (time m + 10 ^ 8) in
  (Ok (mkOutput (negb (bool_decide (program c = "pg_restore"))) "rows" ""),
   if bool_decide (program c = "mongodump") then demo_store (nth 3 (Commands.args c) "") None m else m).
Definition demo_string (v : option string) : result string string :=
  match v with Some t => Ok t | None => Err "Response type not string compatible" end.
Definition demo_reply (c : list string) : option string :=
  if bool_decide (head c = Some "CONFIG") then None else Some "rdb_bgsave_in_progress:1".
Program Definition demo_host : Host :=
  {| World := Machine;
     create_dir_all _ m := (Ok tt, m);
     write_file p d m := (Ok tt, demo_store p (Some d) m);
     copy_file a b m :=
       match demo_read a m with Ok d => (Ok tt, demo_store b (Some d) m) | Err e => (Err e, m) end;
     remove_file p m := (Ok tt, mkMachine (delete p (disk m)) (time m));
     read_file := demo_read;
     file_len := demo_len;
     run_command := demo_run;
     Value := option string;
     value_string := demo_string;
     redis_connect _ m := (Ok tt, m);
     redis_cmd c m := (Ok (demo_reply c), m);
     s3_client _ _ := Ok tt;
     s3_put _ _ _ m := (Ok tt, m);
     s3_delete _ _ m := (Ok tt, m);
     now := time;
     sleep d m := mkMachine (disk m) (time m + d * 10 ^ 6) |}.
Next Obligation. intros p d w w' [= <-]. unfold demo_read, demo_store. simpl. by rewrite lookup_insert_eq. Qed.
Next Obligation. done. Qed.
Next Obligation.
  intros p d w. unfold demo_read, demo_len. by destruct (disk w !! p) as [[?|]|]; intros [= <-].
Qed.

Definition no_error (_ : string) : option string := None.
Definition demo_sha (d : string) : string := "0123456789abcdef0123456789abcdef".
Definition demo_stamp (t : Z) : string := pretty (t / 10 ^ 9).
Definition demo_shim : BackupShim :=
  (new_shim ∅) <| database := "app" |> <| schedule := "10000000000" |> <| timeout_secs := 2 |>.
Abbreviation run := (backup (HOST := demo_host) ∅ demo_sha demo_stamp no_error no_error no_error no_error).
Definition m0 : Machine := mkMachine ∅ 12500000000.

Example demo_backup :
  (λ x, (x.1.1, filename <$> backup_history x.1.2, disk x.2 !! "/tmp/backups/app_12.sql.gz")) <$>
    run demo_shim new_state m0 = Some (Ok tt, ["app_12.sql.gz"], Some (Some "rows")).
Proof. reflexivity. Qed.
(** Two backups within a second share their file. *)
Example demo_same_file :
  (λ x, filename <$> backup_history x.1.2) <$>
    ('(_, st, w) ← run demo_shim new_state m0; run demo_shim st w) = Some ["app_12.sql.gz"; "app_12.sql.gz"].
Proof. reflexivity. Qed.

Definition first_backup : result string unit * BackupState * Machine :=
  Eval vm_compute in default (Ok tt, new_state, m0) (run demo_shim new_state m0).
Lemma first_backup_runs : run demo_shim new_state m0 = Some first_backup.
Proof. vm_compute. reflexivity. Qed.

Definition demo_redis : BackupShim := demo_shim <| db_type := "redis" |> <| retry_max_attempts := 1 |>.
Definition redis_run : result string unit * BackupState * Machine :=
  Eval vm_compute in default (Ok tt, new_state, m0) (run demo_redis new_state m0).
Lemma redis_runs : run demo_redis new_state m0 = Some redis_run.
Proof. vm_compute. reflexivity. Qed.
Lemma demo_config_get k (w : Machine) v (w' : Machine) :
  redis_cmd (Host := demo_host) ["CONFIG"; "GET"; k] w = (Ok v, w') →
  ∃ e, value_string (Host := demo_host) v = Err e.
Proof. intros [= <- _]. by eexists. Qed.
Lemma demo_mongo s d (w : Machine) out (w' : Machine) :
  run_command (Host := demo_host) (mongodump s d) w = (Ok out, w') →
  ∃ e, read_file (Host := demo_host) d w' = Err e.
Proof.
  intros H. exists "Is a directory". simpl in *. unfold demo_run in H.
  change (bool_decide (program (mongodump s d) = "mongodump")) with true in H.
  injection H as _ <-. unfold demo_read, demo_store. simpl. by rewrite lookup_insert_eq.
Qed.
Lemma only_sql_succeeds_witness :
  db_type demo_redis ∈ ["postgres"; "mariadb"; "mysql"] ∨
  (∃ e, redis_run.1.1 = Err e ∧ (redis_run.1.2 = new_state ∨
      (db_type demo_redis = "redis" ∧ redis_run.1.2 = record_failure new_state))).
Proof.
  exact (only_sql_succeeds (HOST := demo_host) ∅ demo_sha demo_stamp no_error no_error no_error no_error demo_redis
    new_state m0 redis_run.1.1 redis_run.1.2 redis_run.2 demo_config_get (demo_mongo demo_redis) redis_runs).
Defined.
Lemma bgsave_wait_ends_witness :
  ∃ r w', bgsave_wait (HOST := demo_host) 20 2 (12500000000 + 2 * 10 ^ 9) m0 = Some (r, w') ∧
    (r = Err (timed_out 2) → 12500000000 + 2 * 10 ^ 9 ≤ time w').
Proof.
  by refine (bgsave_wait_ends (HOST := demo_host) _ _ demo_redis 12500000000 m0 _ _).
Defined.

(** A schedule every ten seconds, from 12.5 s on *)
Definition ten_seconds : positive := 10000000000.
Lemma demo_upcoming_first n t t' :
  upcoming (Cron := demo_cron) ten_seconds t = Some n → t ≤ t' < n →
  upcoming (Cron := demo_cron) ten_seconds t' = Some n.
Proof.
  simpl. intros [= <-] Ht. do 2 f_equal.
  pose proof (Z_div_mod_eq_full t (Zpos ten_seconds)). pose proof (Z.mod_pos_bound t (Zpos ten_seconds) ltac:(lia)).
  f_equal. symmetry. apply (Z.div_unique_pos _ _ _ (t' - Zpos ten_seconds * (t / Zpos ten_seconds))); lia.
Qed.
Definition at_wake : Machine := mkMachine ∅ 19500000000.
Definition early_backup : result string unit * BackupState * Machine :=
  Eval vm_compute in default (Ok tt, new_state, m0) (run demo_shim new_state at_wake).
Lemma early_backup_runs : run demo_shim new_state at_wake = Some early_backup.
Proof. vm_compute. reflexivity. Qed.
Lemma fires_again_witness :
  20 * 10 ^ 9 - 10 ^ 9 < 19500000000 ≤ 20 * 10 ^ 9 ∧ time early_backup.2 = 19600000000.
Proof.
  split; [|reflexivity].
  assert (19500000000 ≤ time early_backup.2 < 20 * 10 ^ 9) as Hw by (vm_compute; split; congruence).
  destruct (fires_again (HOST := demo_host) (CR := demo_cron) (CH := demo_chrono) ∅ demo_sha demo_stamp
    no_error no_error no_error no_error ten_seconds demo_shim new_state m0 (20 * 10 ^ 9) early_backup.1.1
    early_backup.1.2 early_backup.2 (λ _ _ _, eq_refl) (demo_upcoming_first (20 * 10 ^ 9)) eq_refl
    early_backup_runs Hw) as [H _]. exact H.
Defined.

Definition shim_start : Schedule (Cron := demo_cron) * BackupState * Machine :=
  Eval vm_compute in default (ten_seconds, new_state, m0)
    (start (HOST := demo_host) (CR := demo_cron) ∅ demo_sha demo_stamp no_error no_error no_error no_error
       demo_shim new_state m0).
Definition shim_turns : BackupState * Machine :=
  Eval vm_compute in default (new_state, m0)
    (loop_run (HOST := demo_host) (CR := demo_cron) (CH := demo_chrono) ∅ demo_sha demo_stamp
       no_error no_error no_error no_error [false; false; true] shim_start.1.1 demo_shim shim_start.1.2 shim_start.2).
Lemma retention_never_applied_witness :
  backups_expired shim_turns.1 = 0 ∧ backup_success shim_turns.1 = 3.
Proof.
  split; [|reflexivity].
  assert (start (HOST := demo_host) (CR := demo_cron) ∅ demo_sha demo_stamp no_error no_error no_error no_error
            demo_shim new_state m0 = Some shim_start) as H1 by (vm_compute; reflexivity).
  assert (loop_run (HOST := demo_host) (CR := demo_cron) (CH := demo_chrono) ∅ demo_sha demo_stamp
            no_error no_error no_error no_error [false; false; true] shim_start.1.1 demo_shim shim_start.1.2
            shim_start.2 = Some shim_turns) as H2 by (vm_compute; reflexivity).
  exact (proj1 (retention_never_applied (HOST := demo_host) (CR := demo_cron) (CH := demo_chrono) ∅ demo_sha
    demo_stamp no_error no_error no_error no_error [false; false; true] demo_shim m0 shim_start.1.1
    shim_start.1.2 shim_start.2 shim_turns.1 shim_turns.2 H1 H2)).
Defined.
End backup_runs.
