(* ===== verification/Main.v ===== *)
(** * The shim binary ([evergreen-shim/src/main.rs], [shim-core/src/signal.rs])

    The one-shot health check, the assembly of the configuration, the start of the
    capabilities, the loop that watches the child and the signals, and the way down.
    The capabilities and the process are used through what they answer; the child is
    the one of [Process.v], the signals travel over the channel of [Bus.v]. *)

From S2P Require Import Prelude Text Net Commands Config Bus Shutdown Process.

(** ** Signals *)

(** [signal::Signal] *)
Inductive ShimSignal := SigTerm | SigInt | SigHup.
(** [SignalHandler] *)
Section signals.
Context `{BC : !Broadcast ShimSignal}.
Record SignalHandler := mkSignals { shutdown : bool; sig_sender : sender }.
Definition new_signals : SignalHandler := mkSignals false (channel 16).
(** One turn of the task: a signal arrives. *)
Definition arrive (h : SignalHandler) (s : ShimSignal) : SignalHandler :=
  match s with
  | SigTerm | SigInt => mkSignals true (send (sig_sender h) s)
  | SigHup => mkSignals (shutdown h) (send (sig_sender h) s)
  end.
Definition arrive_all (h : SignalHandler) (l : list ShimSignal) : SignalHandler := foldl arrive h l.
Definition is_shutdown (h : SignalHandler) : bool := shutdown h.
Definition subscribe_signals (h : SignalHandler) : receiver := subscribe (sig_sender h).

Lemma arrive_all_sent l h : sent (sig_sender (arrive_all h l)) = sent (sig_sender h) ++ l.
Proof.
  revert h. induction l as [|s l IH]; intros h; simpl; [by rewrite app_nil_r|].
  rewrite IH. destruct s; simpl; by rewrite sent_send, <-app_assoc.
Qed.
Lemma arrive_all_shutdown l h :
  shutdown (arrive_all h l) = shutdown h || existsb (λ s, match s with SigHup => false | _ => true end) l.
Proof.
  revert h. induction l as [|s l IH]; intros h; simpl; [by rewrite orb_false_r|].
  rewrite IH. destruct s; simpl; by rewrite ?orb_true_r.
Qed.
End signals.

(** How [main] ends: with a value, or through [std::process::exit] *)
Inductive exit := Returned (r : result string ()) | Exited (code : Z) | StillRunning.

(** ** [run_healthcheck] *)

(** [trim_start_matches] of a pattern that is not empty: as many rounds as there
    are characters are enough *)
Fixpoint trim_start_fuel (n : nat) (pat s : string) : string :=
  match n with
  | O => s
  | S n => match strip_prefix pat s with Some r => trim_start_fuel n pat r | None => s end
  end.
Definition trim_start_matches (pat s : string) : string := trim_start_fuel (String.length s) pat s.
Lemma trim_start_none pat s : strip_prefix pat s = None → trim_start_matches pat s = s.
Proof. intros E. unfold trim_start_matches. destruct (String.length s); cbn [trim_start_fuel]; [done|]. by rewrite E. Qed.
Lemma trim_start_once pat s :
  pat ≠ "" → strip_prefix pat s = None → trim_start_matches pat (pat +:+ s) = s.
Proof.
  intros Hp E. unfold trim_start_matches. rewrite str_length_app.
  destruct pat as [|c pat]; [done|]. cbn [String.length Nat.add trim_start_fuel].
  rewrite strip_prefix_app. destruct (String.length pat + String.length s)%nat; cbn [trim_start_fuel]; [done|]. by rewrite E.
Qed.

(** [TcpStream::connect_timeout] refuses a timeout of zero. *)
Definition connect_code (connect : SocketAddr → bool) (timeout : Z) (host_port : string) : exit :=
  match parse_socket_addr host_port with
  | None => Returned (Err "invalid socket address syntax")
  | Some a => Exited (if negb (timeout =? 0) && connect a then 0 else 1)
  end.
(** The part of the URL that is connected to: [split('/')] has a first piece. *)
Definition url_host_port (url : string) : string :=
  default "" (head (split_on "/" (trim_start_matches "https://" (trim_start_matches "http://" url)))).
Definition run_healthcheck (connect : SocketAddr → bool) (tcp http : option string) (timeout_secs : Z) : exit :=
  match tcp with
  | Some addr => connect_code connect timeout_secs addr
  | None =>
      match http with
      | Some url => connect_code connect timeout_secs (url_host_port url)
      | None => Exited 2
      end
  end.

(** An HTTP check is a TCP check of the URL's host: the path is not requested, so a
    server that answers 503 on it is healthy. *)
Theorem http_check_is_tcp connect hp path timeout scheme :
  scheme = "http://" ∨ scheme = "https://" → avoids "/" hp = true → avoids "h" hp = true →
  run_healthcheck connect None (Some (scheme +:+ hp +:+ String "/" path)) timeout =
  run_healthcheck connect (Some hp) None timeout.
Proof.
  intros Hs Hp Hh. unfold run_healthcheck. f_equal. unfold url_host_port.
  assert (∀ pat, strip_prefix (String "h" pat) (hp +:+ String "/" path) = None) as Hn.
  { intros pat. destruct hp as [|c hp]; simpl; [done|].
    unfold avoids in Hh. simpl in Hh. apply andb_true_iff in Hh as [Hc _].
    apply negb_true_iff, bool_decide_eq_false in Hc. rewrite bool_decide_eq_false_2; [done|congruence]. }
  destruct Hs as [-> | ->].
  - rewrite trim_start_once by done. rewrite trim_start_none by apply Hn. by rewrite split_on_app.
  - rewrite (trim_start_none "http://"); [|done]. rewrite trim_start_once by done. by rewrite split_on_app.
Qed.
Lemma http_check_is_tcp_witness :
  run_healthcheck (λ a, port_of a =? 9101) None (Some ("http://" +:+ "127.0.0.1:9101" +:+ String "/" "livez")) 3 = Exited 0.
Proof.
  assert (avoids "/" "127.0.0.1:9101" = true) as H1 by reflexivity.
  assert (avoids "h" "127.0.0.1:9101" = true) as H2 by reflexivity.
  rewrite (http_check_is_tcp (λ a, port_of a =? 9101) "127.0.0.1:9101" "livez" 3 "http://" (or_introl eq_refl) H1 H2).
  vm_compute. reflexivity.
Defined.
Example healthcheck_runs :
  (λ u, run_healthcheck (λ _, true) None (Some u) 3) <$> ["http://localhost:9101/livez"; "127.0.0.1:1"; "https://[::1]:1/x/y"]
  = [Returned (Err "invalid socket address syntax"); Exited 0; Exited 0].
Proof. vm_compute. done. Qed.
Example healthcheck_nothing : run_healthcheck (λ _, true) None None 3 = Exited 2.
Proof. reflexivity. Qed.
Example healthcheck_no_timeout : run_healthcheck (λ _, true) (Some "127.0.0.1:1") None 0 = Exited 1.
Proof. vm_compute. done. Qed.

(** ** [run_shim] *)

(** A capability, as far as its callers see it *)
Record Capability := mkCapability {
  cap_name : string;
  cap_init : Config → result string ();
  cap_start : result string ();
  cap_stop : result string ()
}.
Definition CRITICAL_CAPABILITIES : list string := ["health"; "migration"].
Definition is_critical (n : string) : bool := bool_decide (n ∈ CRITICAL_CAPABILITIES).

(** The features in the order of their blocks; the capability of a feature has its
    name. *)
Definition FEATURES : list string :=
  ["health"; "vault"; "backup"; "migration"; "audit"; "tls"; "config"; "failover"; "replication"; "cache"; "cdc";
   "sharding"; "archival"; "auth"; "encryption"; "compliance"; "scheduler"; "queue"; "alerting"; "chaos"; "cost";
   "mongodb"; "cockroachdb"; "dynamodb"; "elasticsearch"; "cassandra"].
Definition create_capabilities (make : string → Capability) (enabled : string → bool) : list Capability :=
  make <$> filter (λ f, enabled f = true) FEATURES.

Definition load_config (file : option (result string Config)) (env : environment) (cli_command : option string)
    (cli_args : list string) : result string Config :=
  c <-? default (Ok default_config) file ;
  let c := merge env (from_env env) c in
  Ok (match cli_command with
      | None => c
      | Some cmd =>
          let p := process c in
          match split_whitespace cmd with
          | first :: ((_ :: _) as rest) =>
              c <| process := p <| command := first |> <| args := rest ++ cli_args |> |>
          | _ =>
              let p := p <| command := cmd |> in
              c <| process := if bool_decide (cli_args = []) then p else p <| args := cli_args |> |>
          end
      end).

(** [CapabilityOutcome]; what has happened so far is kept as a list of events. *)
Record CapabilityOutcome := mkOutcome { out_name : string; out_started : bool; out_error : option string }.
Inductive Event :=
| EInit (n : string) | EStart (n : string) | EStop (n : string)
| ESpawn | EHealthy | EReap.
#[export] Instance Event_eq_dec : EqDecision Event.
Proof. solve_decision. Defined.
Record Boot := mkBoot { outcomes : list CapabilityOutcome; successful : list nat; events : list Event }.
#[export] Instance Boot_settable : Settable Boot := λ b, mkBoot (outcomes b) (successful b) (events b).

Definition critical_failed (n what e : string) : string :=
  "Critical capability '" +:+ n +:+ "' failed to " +:+ what +:+ ": " +:+ e.
Definition failed_to (what long n e : string) (b : Boot) : option string * Boot :=
  let b := b <| outcomes ::= (λ l, l ++ [mkOutcome n false (Some (what +:+ " failed: " +:+ e))]) |> in
  (if is_critical n then Some (critical_failed n long e) else None, b).
(** One turn of the loop over the capabilities, and the loop *)
Definition boot_one (cfg : Config) (idx : nat) (cap : Capability) (b : Boot) : option string * Boot :=
  let n := cap_name cap in
  let b := b <| events ::= (λ l, l ++ [EInit n]) |> in
  match cap_init cap cfg with
  | Err e => failed_to "init" "initialize" n e b
  | Ok _ =>
      let b := b <| events ::= (λ l, l ++ [EStart n]) |> in
      match cap_start cap with
      | Err e => failed_to "start" "start" n e b
      | Ok _ => (None, b <| outcomes ::= (λ l, l ++ [mkOutcome n true None]) |> <| successful ::= (λ l, l ++ [idx]) |>)
      end
  end.
Fixpoint boot (cfg : Config) (idx : nat) (caps : list Capability) (b : Boot) : option string * Boot :=
  match caps with
  | [] => (None, b)
  | cap :: caps =>
      match boot_one cfg idx cap b with
      | (Some e, b) => (Some e, b)
      | (None, b) => boot cfg (S idx) caps b
      end
  end.
(** The value that is logged as [shim_capabilities_healthy] *)
Definition all_critical_healthy (caps : list Capability) (b : Boot) : bool :=
  let names := omap (λ i, cap_name <$> caps !! i) (successful b) in
  forallb (λ c, bool_decide (c ∈ names)) CRITICAL_CAPABILITIES.
Definition started_count (b : Boot) : nat := length (filter (λ o, out_started o = true) (outcomes b)).
Definition failed_count (b : Boot) : nat := length (filter (λ o, out_started o = false) (outcomes b)).

(** The capabilities are stopped in reverse, and [?] leaves at the first error. *)
Fixpoint stop_capabilities (caps : list Capability) (idxs : list nat) : result string () * list Event :=
  match idxs with
  | [] => (Ok (), [])
  | i :: idxs =>
      match caps !! i with
      | None => (Err "index out of bounds", [])
      | Some cap =>
          match cap_stop cap with
          | Err e => (Err e, [EStop (cap_name cap)])
          | Ok _ => let '(r, es) := stop_capabilities caps idxs in (r, EStop (cap_name cap) :: es)
          end
      end
  end.

Section run_shim.
Context `{OS : Os} `{BC : !Broadcast ShimSignal} (proc_status : Z → World → option string).

(** What happens during a turn of the monitoring loop: the world moves on, signals
    arrive before the check and while it waits, and one branch of the [select] is
    ready.  A receiver with nothing to read is not ready: the other branch (the
    descriptor or the timer) completes. *)
Record Turn := mkTurn {
  moves : World → World;
  before : list ShimSignal;
  elapsed : Z;
  respawn : result string (option Z);
  reopen : Z;
  during : list ShimSignal;
  ctrl_c : bool;
  take_signal : bool;
  readable : bool
}.
Record Loop := mkLoop {
  child : ChildProcess;
  world : World;
  handler : SignalHandler;
  shutdown_rx : receiver;
  grace_retried : bool;
  child_died : bool;
  happened : list Event
}.
#[export] Instance Loop_settable : Settable Loop := λ l,
  mkLoop (child l) (world l) (handler l) (shutdown_rx l) (grace_retried l) (child_died l) (happened l).
Inductive flow := Continue (l : Loop) | Break (l : Loop).

(** The child is gone: one restart within the grace period *)
Definition on_death (env : environment) (grace_secs : Z) (t : Turn) (l : Loop) : option flow :=
  if (elapsed t <? grace_secs) && negb (grace_retried l) then
    let l := l <| grace_retried := true |> in
    '(c, w) ← Process.stop proc_status env (world l) (child l);
    let '(r, c) := Process.start (respawn t) (reopen t) c in
    let l := l <| child := c |> <| world := w |> <| happened ::= (λ e, e ++ [EReap; ESpawn]) |> in
    Some (match r with Ok _ => Continue l | Err _ => Break (l <| child_died := true |>) end)
  else Some (Break (l <| child_died := true |>)).
(** One turn; [pidfd] was read before the loop. *)
Definition turn (env : environment) (pidfd : option Z) (grace_secs : Z) (t : Turn) (l : Loop) : option flow :=
  let l := l <| world ::= moves t |> <| handler ::= (λ h, arrive_all h (before t)) |> in
  if is_shutdown (handler l) then Some (Break l)
  else if negb (is_running proc_status (world l) (child l)) then on_death env grace_secs t l
  else
    let l := l <| handler ::= (λ h, arrive_all h (during t)) |> in
    let otherwise :=
      match pidfd with
      | Some _ => if readable t then on_death env grace_secs t l else Some (Continue l)
      | None => Some (Continue l)
      end in
    if ctrl_c t then Some (Break l)
    else if take_signal t then
      match recv (sig_sender (handler l)) (shutdown_rx l) with
      | Some (Received _, rx) => Some (Break (l <| shutdown_rx := rx |>))
      | Some (_, rx) => Some (Continue (l <| shutdown_rx := rx |>))
      | None => otherwise
      end
    else otherwise.
Fixpoint monitor (env : environment) (pidfd : option Z) (grace_secs : Z) (ts : list Turn) (l : Loop) : option flow :=
  match ts with
  | [] => Some (Continue l)
  | t :: ts =>
      f ← turn env pidfd grace_secs t l;
      match f with Continue l => monitor env pidfd grace_secs ts l | Break l => Some (Break l) end
  end.

(** After the loop *)
Definition wind_down (env : environment) (caps : list Capability) (started : list nat) (l : Loop)
    : option (exit * list Event) :=
  let child_exit_code := if child_died l then exit_code (child l) else None in
  _ ← Process.stop proc_status env (world l) (child l);
  let '(r, es) := stop_capabilities caps (reverse started) in
  let es := happened l ++ EReap :: es in
  Some (match r with
        | Err e => (Returned (Err e), es)
        | Ok _ => (match child_exit_code with Some c => Exited c | None => Returned (Ok ()) end, es)
        end).

Definition run_shim (env : environment) (caps : list Capability) (file : option (result string Config))
    (command : option string) (args : list string) (spawn : result string (option Z)) (fd : Z)
    (ts : list Turn) (w : World) : option (exit * list Event) :=
  match load_config file env command args with
  | Err e => Some (Returned (Err e), [])
  | Ok cfg =>
      match boot cfg 0 caps (mkBoot [] [] []) with
      | (Some e, b) => Some (Returned (Err e), events b)
      | (None, b) =>
          match Process.start spawn fd (new_child (process cfg)) with
          | (Err e, _) => Some (Returned (Err e), events b ++ [ESpawn])
          | (Ok _, c) =>
              let h := new_signals in
              let l := mkLoop c w h (subscribe_signals h) false false (events b ++ [ESpawn; EHealthy]) in
              f ← monitor env (pidfd c) (startup_grace_secs (process cfg)) ts l;
              match f with
              | Continue l => Some (StillRunning, happened l)
              | Break l => wind_down env caps (successful b) l
              end
          end
      end
  end.
End run_shim.

(** ** The start and the stops *)

(** The capabilities that were started; a capability that must work and does not *)
Definition works (cfg : Config) (cap : Capability) : bool := is_ok (cap_init cap cfg) && is_ok (cap_start cap).
Definition started (cfg : Config) (caps : list Capability) : list Capability :=
  filter (λ c, works cfg c = true) caps.
Definition fatal (cfg : Config) (cap : Capability) : bool := is_critical (cap_name cap) && negb (works cfg cap).
Fixpoint working_from (cfg : Config) (idx : nat) (caps : list Capability) : list nat :=
  match caps with
  | [] => []
  | c :: caps => (if works cfg c then [idx] else []) ++ working_from cfg (S idx) caps
  end.
Definition stopped_name (e : Event) : option string := match e with EStop n => Some n | _ => None end.
(** The names of the capabilities whose [stop] was called, in that order *)
Definition stopped (l : list Event) : list string := omap stopped_name l.
Definition spawns (l : list Event) : nat := length (filter (λ e, e = ESpawn) l).

Lemma stopped_app l k : stopped (l ++ k) = stopped l ++ stopped k.
Proof. apply omap_app. Qed.
Lemma reverse_omap {A B} (f : A → option B) (l : list A) : omap f (reverse l) = reverse (omap f l).
Proof.
  induction l as [|a l IH]; [done|]. rewrite reverse_cons, omap_app, IH. csimpl.
  destruct (f a); [by rewrite reverse_cons|by rewrite app_nil_r].
Qed.
Lemma boot_one_spec cfg idx cap b :
  ∃ out ev, boot_one cfg idx cap b =
    (if fatal cfg cap then Some out else None,
     mkBoot (outcomes (boot_one cfg idx cap b).2) (successful b ++ if works cfg cap then [idx] else []) (events b ++ ev))
    ∧ stopped ev = [] ∧ ESpawn ∉ ev.
Proof.
  unfold boot_one, fatal, works, failed_to. destruct (cap_init cap cfg) as [[]|e]; simpl.
  - destruct (cap_start cap) as [[]|e]; simpl.
    + exists "", [EInit (cap_name cap); EStart (cap_name cap)]. rewrite andb_false_r, <-app_assoc.
      split_and!; [done..|]. by intros [?|[?|?%elem_of_nil]%elem_of_cons]%elem_of_cons.
    + eexists _, [EInit (cap_name cap); EStart (cap_name cap)]. rewrite andb_true_r, app_nil_r, <-app_assoc.
      split_and!; [done..|]. by intros [?|[?|?%elem_of_nil]%elem_of_cons]%elem_of_cons.
  - eexists _, [EInit (cap_name cap)]. rewrite andb_true_r, app_nil_r.
    split_and!; [done..|]. by intros [?|?%elem_of_nil]%elem_of_cons.
Qed.
(** The loop over the capabilities ends early exactly when one is fatal; what it
    started is the list of those that work. *)
Lemma boot_spec cfg caps : ∀ idx b r b',
  boot cfg idx caps b = (r, b') →
  (is_Some r ↔ Exists (λ c, fatal cfg c = true) caps) ∧
  (r = None → successful b' = successful b ++ working_from cfg idx caps) ∧
  ∃ ev, events b' = events b ++ ev ∧ stopped ev = [] ∧ ESpawn ∉ ev.
Proof.
  induction caps as [|c caps IH]; intros idx b r b' E; simpl in E.
  { simplify_eq. split_and!; [split; [by intros [? ?]|by intros ?%Exists_nil]|by rewrite app_nil_r|].
    exists []. rewrite app_nil_r. split_and!; [done..|apply not_elem_of_nil]. }
  destruct (boot_one_spec cfg idx c b) as (out & ev & Eb & Hs & Hn). rewrite Eb in E.
  rewrite Exists_cons. destruct (fatal cfg c) eqn:Ef.
  - simplify_eq. simpl. split_and!; [split; eauto|done|]. by exists ev.
  - apply IH in E as (H1 & H2 & ev' & H3 & H4 & H5). simpl in *. split_and!.
    + rewrite H1. split; [tauto|by intros [?|?]].
    + intros Hr. rewrite H2 by done. by rewrite <-app_assoc.
    + exists (ev ++ ev'). rewrite H3, <-app_assoc, stopped_app, Hs, H4. split_and!; [done..|].
      intros [?|?]%elem_of_app; auto.
Qed.
Lemma working_from_lookup cfg caps : ∀ pre,
  omap (λ i, (pre ++ caps) !! i) (working_from cfg (length pre) caps) = started cfg caps.
Proof.
  unfold started. induction caps as [|c caps IH]; intros pre; [done|].
  specialize (IH (pre ++ [c])). rewrite length_app, Nat.add_1_r, <-app_assoc in IH. simpl in IH.
  cbn [working_from]. rewrite omap_app, IH. destruct (works cfg c) eqn:E.
  - rewrite filter_cons_True by done. csimpl. by rewrite list_lookup_middle.
  - by rewrite filter_cons_False by (by rewrite E).
Qed.
Lemma working_from_bound cfg caps : ∀ idx, Forall (λ i, i < idx + length caps)%nat (working_from cfg idx caps).
Proof.
  induction caps as [|c caps IH]; intros idx; cbn [working_from length]; [constructor|]. apply Forall_app. split.
  - destruct (works cfg c); constructor; [lia|constructor].
  - eapply Forall_impl; [apply IH|]. simpl. lia.
Qed.

(** Stopping a list of indices stops a prefix of those capabilities: all of them, or
    up to the first that fails. *)
Lemma stop_capabilities_spec caps idxs r es :
  Forall (λ i, i < length caps)%nat idxs → stop_capabilities caps idxs = (r, es) →
  let l := omap (λ i, caps !! i) idxs in
  (ESpawn ∉ es) ∧
  match r with
  | Ok _ => stopped es = cap_name <$> l
  | Err e => ∃ pre c post, l = pre ++ c :: post ∧ cap_stop c = Err e ∧ stopped es = cap_name <$> (pre ++ [c])
  end.
Proof.
  intros Hb. revert r es. induction Hb as [|i idxs Hi Hb IH]; intros r es E; simpl in E.
  { simplify_eq. split; [apply not_elem_of_nil|done]. }
  destruct (lookup_lt_is_Some_2 caps i Hi) as [c Hc]. rewrite Hc in E. csimpl. rewrite Hc.
  destruct (cap_stop c) as [[]|e] eqn:Es.
  - destruct (stop_capabilities caps idxs) as [r' es'] eqn:E'. simplify_eq.
    destruct (IH _ _ eq_refl) as [Hn Hr]. split; [by intros [?|?]%elem_of_cons|].
    destruct r as [[]|e].
    + csimpl. by rewrite Hr.
    + destruct Hr as (pre & d & post & -> & Hd & Hr). exists (c :: pre), d, post. csimpl. by rewrite Hr.
  - simplify_eq. split; [by intros [?|?%elem_of_nil]%elem_of_cons|]. by eexists [], c, _.
Qed.

Section life.
Context `{OS : Os} `{BC : !Broadcast ShimSignal} (proc_status : Z → World → option string).
Implicit Types (l : Loop) (t : Turn).

Definition flow_loop (f : flow) : Loop := match f with Continue l | Break l => l end.
(** What the loop keeps: the child's configuration, a sound record of the child, and
    at most one restart on top of the events before it *)
Definition loop_ok (p : ProcessConfig) (ev : list Event) l : Prop :=
  config (child l) = p ∧ child_ok (child l) ∧
  happened l = ev ++ if grace_retried l then [EReap; ESpawn] else [].

Lemma start_config sp fd c : config (Process.start sp fd c).2 = config c.
Proof. unfold Process.start. repeat case_match; done. Qed.
Lemma child_stop_ok env w c :
  in_u 64 (shutdown_timeout_secs (config c)) → child_ok c →
  ∃ c' w', Process.stop proc_status env w c = Some (c', w') ∧ config c' = config c ∧ child_ok c'.
Proof.
  intros Hu Hc. assert (is_Some (Process.stop proc_status env w c)) as [[c' w'] E].
  { destruct (pid c) as [p|] eqn:Ep.
    - destruct (stop_returns proc_status env w c Hu) as (c' & w' & E & _); [by rewrite Ep|]. by rewrite E.
    - unfold Process.stop. by rewrite Ep. }
  exists c', w'. split_and!; [done| |by apply (child_step_ok proc_status (OpStop env) (c, w) (c', w'))].
  revert E. unfold Process.stop. destruct (pid c); [|by intros; simplify_eq].
  destruct (manager_shutdown _ _ _ _) as [[[r m] w1]|]; [|done]. intros. by simplify_eq/=.
Qed.
Lemma on_death_ok env g t p ev l :
  in_u 64 (shutdown_timeout_secs p) → loop_ok p ev l →
  ∃ f, on_death proc_status env g t l = Some f ∧ loop_ok p ev (flow_loop f).
Proof.
  intros Hu (Hc & Hk & He). unfold on_death. destruct (elapsed t <? g), (grace_retried l) eqn:Eg; simpl.
  2: { subst p. destruct (child_stop_ok env (world l) (child l) Hu Hk) as (c' & w' & -> & Hc' & Hk'). simpl.
       pose proof (start_config (respawn t) (reopen t) c') as Hs.
       pose proof (child_step_ok proc_status (OpStart (respawn t) (reopen t)) (c', w') _ Hk' eq_refl) as Ho.
       simpl in Ho. destruct (Process.start _ _ _) as [r c'']. eexists. split; [done|]. simpl in *.
       split_and!; destruct r; simpl; try congruence; by rewrite He, app_nil_r. }
  all: eexists; split; [done|]; split_and!; [done..|]; simpl; by rewrite He, Eg.
Qed.
Lemma turn_ok env fd g t p ev l :
  in_u 64 (shutdown_timeout_secs p) → loop_ok p ev l →
  ∃ f, turn proc_status env fd g t l = Some f ∧ loop_ok p ev (flow_loop f).
Proof.
  intros Hu Hl. unfold turn.
  assert (∀ l', child l' = child l → happened l' = happened l → grace_retried l' = grace_retried l → loop_ok p ev l')
    as Hsame by (unfold loop_ok; intros ? -> -> ->; exact Hl).
  repeat case_match; first [eexists; split; [done|]; by apply Hsame | apply on_death_ok; [done|]; by apply Hsame].
Qed.
Lemma monitor_ok env fd g p ev ts : ∀ l,
  in_u 64 (shutdown_timeout_secs p) → loop_ok p ev l →
  ∃ f, monitor proc_status env fd g ts l = Some f ∧ loop_ok p ev (flow_loop f).
Proof.
  induction ts as [|t ts IH]; intros l Hu Hl; simpl; [by eexists|].
  destruct (turn_ok env fd g t p ev l Hu Hl) as (f & -> & Hf). simpl. destruct f; [by apply IH|by eexists].
Qed.

Lemma spawns_app (es es' : list Event) : spawns (es ++ es') = (spawns es + spawns es')%nat.
Proof. unfold spawns. by rewrite filter_app, length_app. Qed.
Lemma spawns_none (es : list Event) : ESpawn ∉ es → spawns es = 0%nat.
Proof.
  intros H. unfold spawns. induction es as [|e es IH]; [done|]. apply not_elem_of_cons in H as [He H].
  rewrite filter_cons_False by done. by apply IH.
Qed.
(** The way down, from a sound loop: the exit code of the child is never known. *)
Lemma wind_down_spec env cfg caps p ev l :
  in_u 64 (shutdown_timeout_secs p) → loop_ok p ev l →
  ∃ r es, wind_down proc_status env caps (working_from cfg 0 caps) l = Some (Returned r, happened l ++ EReap :: es) ∧
    (ESpawn ∉ es) ∧
    match r with
    | Ok _ => stopped es = cap_name <$> reverse (started cfg caps)
    | Err e => ∃ pre c post, reverse (started cfg caps) = pre ++ c :: post ∧ cap_stop c = Err e ∧
                 stopped es = cap_name <$> (pre ++ [c])
    end.
Proof.
  intros Hu (Hp & Hk & He). unfold wind_down. rewrite (proj1 Hk).
  destruct (child_stop_ok env (world l) (child l)) as (c' & w' & -> & _); [by rewrite Hp|done|]. simpl.
  destruct (stop_capabilities caps (reverse (working_from cfg 0 caps))) as [r es] eqn:E.
  apply stop_capabilities_spec in E as [Hn Hr]; [|apply Forall_reverse, (working_from_bound cfg caps 0)].
  rewrite reverse_omap in Hr. pose proof (working_from_lookup cfg caps []) as Hw. simpl in Hw. rewrite Hw in Hr.
  exists r, es. split; [|by split]. by destruct (child_died l), r as [[]|].
Qed.


(** SIGTERM and SIGINT are not missed: a turn that begins after one leaves the loop,
    whatever happened before. *)
Theorem term_leaves env fd g pre t post l p ev s :
  in_u 64 (shutdown_timeout_secs p) → loop_ok p ev l → s ∈ before t → s ≠ SigHup →
  ∃ l', monitor proc_status env fd g (pre ++ t :: post) l = Some (Break l').
Proof.
  intros Hu Hl Hs Hne. revert l Hl. induction pre as [|t' pre IH]; intros l Hl; simpl.
  - unfold turn. simpl. unfold is_shutdown. rewrite arrive_all_shutdown.
    replace (existsb _ (before t)) with true; [rewrite orb_true_r; by eexists|].
    symmetry. apply existsb_exists. exists s. split; [by apply list_elem_of_In|]. by destruct s.
  - destruct (turn_ok env fd g t' p ev l Hu Hl) as (f & -> & Hf). simpl. destruct f; [by apply IH|by eexists].
Qed.
(** A child found dead outside the grace period, or for the second time, ends the
    loop; within it the first time, it is started again and watched through the
    descriptor of the first. *)
Theorem dead_child_turn env fd g t l p ev :
  in_u 64 (shutdown_timeout_secs p) → loop_ok p ev l → shutdown (handler l) = false → before t = [] →
  is_running proc_status (moves t (world l)) (child l) = false →
  ∃ f, turn proc_status env fd g t l = Some f ∧
    if (elapsed t <? g) && negb (grace_retried l)
    then grace_retried (flow_loop f) = true ∧ happened (flow_loop f) = happened l ++ [EReap; ESpawn]
    else ∃ l', f = Break l' ∧ child_died l' = true ∧ happened l' = happened l.
Proof.
  intros Hu Hl Hsh Hb Hr. unfold turn. simpl. unfold is_shutdown. rewrite Hb. simpl. rewrite Hsh, Hr. simpl.
  destruct Hl as (Hc & Hk & _). unfold on_death. simpl. destruct ((elapsed t <? g) && negb (grace_retried l)); simpl in *.
  - subst p. destruct (child_stop_ok env (moves t (world l)) (child l) Hu Hk) as (c' & w' & -> & _). simpl.
    destruct (Process.start _ _ _) as [[[]|e] c'']; by eexists.
  - eexists. split; [done|]. by eexists.
Qed.
End life.

(** ** Runs *)
Section main_runs.
#[local] Existing Instance proc_os.
#[local] Instance demo_signals : Broadcast ShimSignal := log_broadcast ShimSignal.

Definition demo_cap (n : string) (i s p : result string ()) : Capability := mkCapability n (λ _, i) s p.
Definition demo_caps : list Capability :=
  [demo_cap "health" (Ok ()) (Ok ()) (Ok ()); demo_cap "vault" (Err "no address") (Ok ()) (Ok ());
   demo_cap "cache" (Ok ()) (Ok ()) (Ok ()); demo_cap "queue" (Ok ()) (Ok ()) (Err "busy")].
Definition idle_turn : Turn := mkTurn (λ w, w) [] 0 (Err "") 0 [] false false false.
Definition hup_turn : Turn := mkTurn (λ w, w) [] 0 (Err "") 0 [SigHup] false true false.
(** The child is dead; a new one is asked for. *)
Definition death_turn (secs : Z) : Turn := mkTurn (λ w, mkProc (Shutdown.t w) (Some 0) (Some 0)) [] secs (Ok (Some 43)) 8 [] false false false.
Definition demo_life (caps : list Capability) (ts : list Turn) : option (exit * list Event) :=
  run_shim demo_status ∅ caps None (Some "db serve") ["--x"] (Ok (Some 42)) 7 ts deaf.

Example demo_assembled :
  (λ c, (command (process c), Config.args (process c))) <$>
    match load_config None ∅ (Some "db serve") ["--x"] with Ok c => Some c | Err _ => None end
  = Some ("db", ["serve"; "--x"]).
Proof. vm_compute. done. Qed.
(** SIGHUP shuts the shim down; the queue fails to stop, and the cache and the health
    server are left running. *)
Example demo_hup :
  demo_life demo_caps [idle_turn; hup_turn; idle_turn] =
  Some (Returned (Err "busy"),
    [EInit "health"; EStart "health"; EInit "vault"; EInit "cache"; EStart "cache"; EInit "queue"; EStart "queue";
     ESpawn; EHealthy; EReap; EStop "queue"]).
Proof. vm_compute. done. Qed.
(** The child dies, is restarted, dies again: the shim exits with success. *)
Example demo_crash :
  demo_life (take 3 demo_caps) [death_turn 1; death_turn 2; idle_turn] =
  Some (Returned (Ok ()),
    [EInit "health"; EStart "health"; EInit "vault"; EInit "cache"; EStart "cache";
     ESpawn; EHealthy; EReap; ESpawn; EReap; EStop "cache"; EStop "health"]).
Proof. vm_compute. done. Qed.
Example demo_critical :
  demo_life (take 1 demo_caps ++ [demo_cap "migration" (Ok ()) (Err "locked") (Ok ())]) [] =
  Some (Returned (Err "Critical capability 'migration' failed to start: locked"),
    [EInit "health"; EStart "health"; EInit "migration"; EStart "migration"]).
Proof. vm_compute. done. Qed.
Definition demo_cfg : Config := Eval vm_compute in
  match load_config None ∅ (Some "db serve") ["--x"] with Ok c => c | Err _ => default_config end.
End main_runs.
