(* ===== verification/RedisBridge.v ===== *)
(** * The Redis bridge between containers ([shim-core/src/redis_bridge.rs])

    A bridge writes events to a Redis stream and reads them back, through one
    consumer group, into the [ShimBus] of its container.  Redis is the class
    [RedisStream], with the documented behaviour of XADD, XREADGROUP and XACK. *)

From S2P Require Import Prelude Text Events Bus.

(** An entry: its id, and its (field, value) pairs *)
Abbreviation entry := (string * list (string * string))%type.

(** The group has [waiting] entries still to give out; those it gave to a consumer
    are in its pending entries list until they are acknowledged; [minted] are the ids
    in use so far.  Calls can fail, with or without effect. *)
Class RedisStream := {
  Store : Type;
  xadd : Z → list (string * string) → Store → result string string * Store;
  xreadgroup : string → Z → Store → option (list (string * list entry)) * Store;
  xack : string → Store → result string Z * Store;
  waiting : Store → list entry;
  pel : Store → list (string * entry);
  minted : Store → list string;
  xadd_law n f st :
    ∃ k i, (i ∉ minted st) ∧ i ≠ "0-0" ∧ pel (xadd n f st).2 = pel st ∧
      ((waiting (xadd n f st).2 = drop k (waiting st) ++ [(i, f)] ∧ minted (xadd n f st).2 = minted st ++ [i]) ∨
       (¬ is_ok (xadd n f st).1 ∧ waiting (xadd n f st).2 = drop k (waiting st) ∧ minted (xadd n f st).2 = minted st));
  xreadgroup_law c n st :
    ∃ got, waiting st = got ++ waiting (xreadgroup c n st).2 ∧
      pel (xreadgroup c n st).2 = pel st ++ (pair c <$> got) ∧
      minted (xreadgroup c n st).2 = minted st ∧
      match (xreadgroup c n st).1 with Some r => mjoin r.*2 = got | None => True end;
  xack_law i st :
    waiting (xack i st).2 = waiting st ∧ minted (xack i st).2 = minted st ∧
    (pel (xack i st).2 = filter (λ p, p.2.1 ≠ i) (pel st) ∨
     (¬ is_ok (xack i st).1 ∧ pel (xack i st).2 = pel st))
}.

(** [serde_json] on events *)
Class Serde `{EX : External} := {
  event_to_json : ShimEvent → result string string;
  event_from_json : string → option ShimEvent
}.

Definition STREAM_PREFIX : string := "evergreen:shimbus:events".
Definition CONSUMER_GROUP : string := "evergreen-shims".
Definition MAX_STREAM_LEN : Z := 10000.

(** [RedisBridgeMetrics]: three counters *)
Record RedisBridgeMetrics := mkBridgeMetrics { events_published : Z; events_consumed : Z; errors : Z }.
#[export] Instance RedisBridgeMetrics_settable : Settable RedisBridgeMetrics := λ m,
  mkBridgeMetrics (events_published m) (events_consumed m) (errors m).
Definition new_bridge_metrics : RedisBridgeMetrics := mkBridgeMetrics 0 0 0.

Section bridge.
Context `{EX : External} `{BC : !Broadcast ShimEvent} `{RS : RedisStream} `{SE : !Serde}.
Implicit Types (e : ShimEvent) (st : Store).

(** [RedisBridge]; the client is the [Store] *)
Record RedisBridge := mkBridge {
  bus : ShimBus;
  instance_id : string;
  stream_key : string;
  metrics : option RedisBridgeMetrics
}.
#[export] Instance RedisBridge_settable : Settable RedisBridge := λ b,
  mkBridge (bus b) (instance_id b) (stream_key b) (metrics b).

(** [RedisBridge::new], with the answer of [Client::open], and [with_metrics] *)
Definition open_bridge (client : result string ()) (b : ShimBus) (inst namespace : string) : result string RedisBridge :=
  match client with
  | Err e => Err ("redis connect: " +:+ e)
  | Ok _ => Ok (mkBridge b inst (STREAM_PREFIX +:+ ":" +:+ namespace) None)
  end.
Definition with_metrics (client : result string ()) (b : ShimBus) (inst namespace : string) : result string RedisBridge :=
  br <-? open_bridge client b inst namespace ; Ok (br <| metrics := Some new_bridge_metrics |>).

(** [init_group], with the answers of [get_connection] and of XGROUP CREATE *)
Definition init_group (conn : result string ()) (reply : result string string) : result string () :=
  match conn with
  | Err e => Err ("redis connection: " +:+ e)
  | Ok _ =>
      match reply with
      | Ok _ => Ok ()
      | Err msg => if str_contains msg "BUSYGROUP" then Ok () else Err ("XGROUP CREATE: " +:+ msg)
      end
  end.

Definition count (f : RedisBridgeMetrics → RedisBridgeMetrics) (b : RedisBridge) : RedisBridge :=
  b <| metrics ::= fmap f |>.
(** [publish], with the answer of [get_connection] *)
Definition publish_redis (conn : result string ()) e (b : RedisBridge) st : result string () * RedisBridge * Store :=
  match conn with
  | Err x => (Err ("redis connection: " +:+ x), b, st)
  | Ok _ =>
      match event_to_json e with
      | Err x => (Err ("event serialization: " +:+ x), b, st)
      | Ok json =>
          match xadd MAX_STREAM_LEN [("source", source e); ("json", json)] st with
          | (Err x, st) => (Err ("XADD: " +:+ x), count (λ m, m <| errors ::= λ n, add64 n 1 |>) b, st)
          | (Ok _, st) => (Ok (), count (λ m, m <| events_published ::= λ n, add64 n 1 |>) b, st)
          end
      end
  end.
(** [relay_to_redis] *)
Definition relay_to_redis e : result string () := Ok ().

(** ** The consuming loops *)

Definition json_field (fields : list (string * string)) : option string :=
  snd <$> head (filter (λ kv, kv.1 = "json") fields).
Definition entry_event (m : entry) : option (option ShimEvent) := event_from_json <$> json_field m.2.
Definition poll_group (b : RedisBridge) st : option (list (string * list entry)) * Store :=
  xreadgroup (instance_id b) 10 st.
(** The acknowledgement: the last id only, and on every turn once there is one *)
Definition ack_last (last_id : string) st : Store :=
  if bool_decide (last_id = "0-0") then st else (xack last_id st).2.
Definition last_of (last_id : string) (ms : list entry) : string := default last_id (last ms.*1).

(** [start_consuming]: a message, and a turn; [last_id] starts as ["0-0"]. *)
Definition relay_message (b : RedisBridge) (m : entry) : RedisBridge :=
  match entry_event m with
  | Some (Some e) =>
      if bool_decide (source e = instance_id b) then b else b <| bus ::= λ u, (publish u e).2 |>
  | _ => b
  end.
Definition consume_turn (b : RedisBridge) (last_id : string) st : RedisBridge * string * Store :=
  let '(reply, st) := poll_group b st in
  let ms := mjoin (default [] reply).*2 in
  let last_id := last_of last_id ms in
  (foldl relay_message b ms, last_id, ack_last last_id st).

(** [start_consuming_with_handler], for a handler that changes a state [S] *)
Section handler.
Context {S : Type} (handler : ShimEvent → S → S).
Definition handle_message (bs : RedisBridge * S) (m : entry) : RedisBridge * S :=
  let '(b, s) := bs in
  match entry_event m with
  | Some (Some e) =>
      if bool_decide (source e = instance_id b) then (b, s)
      else (count (λ x, x <| events_consumed ::= λ n, add64 n 1 |>) b, handler e s)
  | Some None => (count (λ x, x <| errors ::= λ n, add64 n 1 |>) b, s)
  | None => (b, s)
  end.
Definition handler_turn (bs : RedisBridge * S) (last_id : string) st : (RedisBridge * S) * string * Store :=
  let '(reply, st) := poll_group bs.1 st in
  let ms := mjoin (default [] reply).*2 in
  let last_id := last_of last_id ms in
  (foldl handle_message bs ms, last_id, ack_last last_id st).
End handler.
(** [relay_to_local_bus]: the handler publishes on a clone of the bus, which is the
    same bus, and counts; nothing reads the count before the loop ends. *)
Definition relay_handler e (s : ShimBus * Z) : ShimBus * Z := ((publish s.1 e).2, add64 s.2 1).

(** ** Several bridges on one stream *)

Record Consumer := mkConsumer { bridge_of : RedisBridge; last_read : string }.
Record Net := mkNet { cons : list Consumer; store : Store }.
Inductive NetOp := Publish (i : nat) (conn : result string ()) e | Poll (i : nat).
Definition net_step (n : Net) (o : NetOp) : Net :=
  match o with
  | Publish i conn e =>
      match cons n !! i with
      | Some c => let '(_, b, st) := publish_redis conn e (bridge_of c) (store n) in
                  mkNet (<[i := mkConsumer b (last_read c)]> (cons n)) st
      | None => n
      end
  | Poll i =>
      match cons n !! i with
      | Some c => let '(b, l, st) := consume_turn (bridge_of c) (last_read c) (store n) in
                  mkNet (<[i := mkConsumer b l]> (cons n)) st
      | None => n
      end
  end.
Definition net_run : Net → list NetOp → Net := foldl net_step.

(** The events on the buses, and those the calls of [publish] were given; the bus
    renumbers what it relays. *)
Definition unnumbered e : ShimEvent := e <| sequence := 0 |>.
Definition on_bus (b : RedisBridge) : list ShimEvent := unnumbered <$> sent (tx (bus b)).
Definition on_buses (n : Net) : list ShimEvent := mjoin ((λ c, on_bus (bridge_of c)) <$> cons n).
Definition published (os : list NetOp) : list ShimEvent :=
  omap (λ o, match o with Publish _ _ e => Some (unnumbered e) | Poll _ => None end) os.
Definition decoded (ms : list entry) : list ShimEvent :=
  omap (λ m, match entry_event m with Some (Some e) => Some (unnumbered e) | _ => None end) ms.

Lemma decoded_app l k : decoded (l ++ k) = decoded l ++ decoded k.
Proof. apply omap_app. Qed.
Lemma decoded_suffix l k : decoded k ⊆+ decoded (l ++ k).
Proof. rewrite decoded_app. apply submseteq_inserts_l. done. Qed.
Lemma count_frame f b : bus (count f b) = bus b ∧ instance_id (count f b) = instance_id b.
Proof. by split. Qed.
Lemma relay_messages ms : ∀ b,
  instance_id (foldl relay_message b ms) = instance_id b ∧
  on_bus (foldl relay_message b ms) ⊆+ on_bus b ++ decoded ms ∧
  on_bus b `sublist_of` on_bus (foldl relay_message b ms).
Proof.
  induction ms as [|m ms IH]; intros b; simpl; [by rewrite app_nil_r|].
  destruct (IH (relay_message b m)) as (Hi & Hs & Hl). unfold relay_message in *. csimpl.
  destruct (entry_event m) as [[e|]|]; [|by split_and!..].
  case_bool_decide; [|].
  - split_and!; [done| |done]. rewrite Hs. apply submseteq_app; [done|]. by apply submseteq_cons.
  - assert (on_bus (b <| bus ::= λ u, (publish u e).2 |>) = on_bus b ++ [unnumbered e]) as Hp.
    { unfold on_bus. simpl. by rewrite sent_send, fmap_app. }
    split_and!; [done| |].
    + rewrite Hs, Hp, <-app_assoc. done.
    + etrans; [|exact Hl]. rewrite Hp. by apply sublist_inserts_r.
Qed.
Lemma on_buses_insert n i c c' st :
  cons n !! i = Some c → ∀ l, on_bus (bridge_of c') ⊆+ on_bus (bridge_of c) ++ l →
  on_buses (mkNet (<[i := c']> (cons n)) st) ⊆+ on_buses n ++ l.
Proof.
  unfold on_buses. simpl. generalize (cons n). intros cs. revert i.
  induction cs as [|d cs IH]; intros [|i] Hc l Hl; simpl in *; try done.
  - simplify_eq. csimpl. etrans; [by apply submseteq_app; [exact Hl|]|]. rewrite <-!app_assoc.
    apply submseteq_app; [done|]. apply Permutation_submseteq, Permutation_app_comm.
  - csimpl. rewrite <-app_assoc. apply submseteq_app; [done|]. by apply IH.
Qed.

(** A poll, in terms of what the group gives out *)
Lemma consume_turn_spec b l st :
  ∃ got, waiting st = got ++ waiting (consume_turn b l st).2 ∧
    minted (consume_turn b l st).2 = minted st ∧
    (on_bus (consume_turn b l st).1.1 ⊆+ on_bus b ++ decoded got) ∧
    instance_id (consume_turn b l st).1.1 = instance_id b ∧
    ((consume_turn b l st).1.2 = l ∨ (consume_turn b l st).1.2 = last_of l got) ∧
    ∀ p, p ∈ pel st ∨ p ∈ (pair (instance_id b) <$> got) → p.2.1 ≠ (consume_turn b l st).1.2 ∨ p.2.1 = "0-0" →
      p ∈ pel (consume_turn b l st).2.
Proof.
  unfold consume_turn, poll_group. destruct (xreadgroup_law (instance_id b) 10 st) as (got & Hw & Hp & Hm & Hr).
  destruct (xreadgroup _ _ st) as [reply st'] eqn:E. simpl in *. set (ms := mjoin _).
  assert (ms = got ∨ ms = []) as Hms by (subst ms; destruct reply; simpl; auto).
  exists got. destruct (relay_messages ms b) as (Hi & Hs & _).
  assert (∀ k, waiting (ack_last k st') = waiting st' ∧ minted (ack_last k st') = minted st' ∧
    ∀ p, p ∈ pel st' → p.2.1 ≠ k ∨ p.2.1 = "0-0" → p ∈ pel (ack_last k st')) as Hack.
  { intros k. unfold ack_last. case_bool_decide as H0; [done|]. destruct (xack_law k st') as (-> & -> & Hpl).
    split_and!; [done..|]. intros p Hin Hk. destruct Hpl as [->|[_ ->]]; [|done].
    apply list_elem_of_filter. split; [|done]. destruct Hk as [?| ->]; [done|]. by intros <-. }
  destruct (Hack (last_of l ms)) as (-> & -> & Hk). split_and!; [done|done| |done| |].
  - rewrite Hs. apply submseteq_app; [done|]. destruct Hms as [-> | ->]; [done|]. apply submseteq_nil_l.
  - destruct Hms as [-> | ->]; auto.
  - intros p Hin Hne. apply Hk; [|done]. rewrite Hp. apply elem_of_app. destruct Hin; auto.
Qed.
(** The event survives serialization. *)
Definition faithful e : Prop := ∀ j, event_to_json e = Ok j → event_from_json j = Some e.
Lemma publish_redis_spec conn e b st :
  faithful e →
  ∃ k add, waiting (publish_redis conn e b st).2 = drop k (waiting st) ++ add ∧
    decoded add ⊆+ [unnumbered e] ∧
    pel (publish_redis conn e b st).2 = pel st ∧
    minted (publish_redis conn e b st).2 = minted st ++ add.*1 ∧
    NoDup add.*1 ∧ (∀ i, i ∈ add.*1 → (i ∉ minted st) ∧ i ≠ "0-0") ∧
    on_bus (publish_redis conn e b st).1.2 = on_bus b ∧
    instance_id (publish_redis conn e b st).1.2 = instance_id b.
Proof.
  assert (∀ st' b', waiting st' = waiting st → pel st' = pel st → minted st' = minted st → on_bus b' = on_bus b →
    instance_id b' = instance_id b → ∃ k add, waiting st' = drop k (waiting st) ++ add ∧
    decoded add ⊆+ [unnumbered e] ∧ pel st' = pel st ∧ minted st' = minted st ++ add.*1 ∧
    NoDup add.*1 ∧ (∀ i, i ∈ add.*1 → (i ∉ minted st) ∧ i ≠ "0-0") ∧ on_bus b' = on_bus b ∧ instance_id b' = instance_id b) as Hid.
  { intros st' b' -> -> -> -> ->. exists 0%nat, []. rewrite !app_nil_r. simpl.
    split_and!; [done|apply submseteq_nil_l|done..|constructor| |done|done]. by intros i ?%elem_of_nil. }
  intros Hj. unfold publish_redis. destruct conn as [[]|x]; [|by apply Hid].
  destruct (event_to_json e) as [j|x] eqn:Ej; [|by apply Hid].
  pose proof (Hj j Ej) as Hd.
  set (fs := [("source", source e); ("json", j)]).
  destruct (xadd_law MAX_STREAM_LEN fs st) as (k & i & Hf & H0 & Hp & Hw).
  destruct (xadd MAX_STREAM_LEN fs st) as [r st'] eqn:Ex. simpl in *.
  assert (∃ add, waiting st' = drop k (waiting st) ++ add ∧ minted st' = minted st ++ add.*1 ∧ (add = [] ∨ add = [(i, fs)]))
    as (add & Hw1 & Hm1 & Hadd).
  { destruct Hw as [[-> ->]|(_ & -> & ->)]; [by exists [(i, fs)]; auto|]. exists []. rewrite !app_nil_r. auto. }
  exists k, add. assert (decoded add ⊆+ [unnumbered e] ∧ NoDup add.*1 ∧ ∀ x, x ∈ add.*1 → (x ∉ minted st) ∧ x ≠ "0-0")
    as (? & ? & ?).
  { destruct Hadd as [-> | ->]; csimpl.
    - split_and!; [apply submseteq_nil_l|constructor|]. by intros x ?%elem_of_nil.
    - split_and!; [|apply NoDup_singleton|by intros x ->%list_elem_of_singleton].
      unfold decoded, entry_event, json_field. simpl. rewrite Hd. done. }
  destruct r; simpl; split_and!; done.
Qed.

(** ** Every event reaches one container, and stays pending *)

Definition op_faithful (o : NetOp) : Prop := match o with Publish _ _ e => faithful e | Poll _ => True end.
Definition net_events (n : Net) : list ShimEvent := on_buses n ++ decoded (waiting (store n)).
Lemma published_cons o os : published (o :: os) = published [o] ++ published os.
Proof. by destruct o. Qed.
Lemma submseteq_swap_r {A} (l k m : list A) : l ++ (k ++ m) ⊆+ (l ++ m) ++ k.
Proof. rewrite <-app_assoc. apply submseteq_app; [done|]. apply Permutation_submseteq, Permutation_app_comm. Qed.
Lemma net_step_events n o : op_faithful o → net_events (net_step n o) ⊆+ net_events n ++ published [o].
Proof.
  intros Ho. unfold net_events. destruct o as [i conn e|i]; simpl.
  all: destruct (cons n !! i) as [c|] eqn:Ec; [|by apply submseteq_inserts_r].
  - destruct (publish_redis_spec conn e (bridge_of c) (store n) Ho) as (k & add & Hw & Hd & _ & _ & _ & _ & Hb & _).
    destruct (publish_redis conn e (bridge_of c) (store n)) as [[r b] st]. simpl in *.
    etrans; [apply submseteq_app; [apply (on_buses_insert n i c _ st Ec []); simpl; by rewrite Hb, app_nil_r|]|].
    { rewrite Hw, decoded_app. apply submseteq_app; [|exact Hd].
      etrans; [apply (decoded_suffix (take k (waiting (store n))))|]. by rewrite take_drop. }
    by rewrite app_nil_r, <-app_assoc.
  - destruct (consume_turn_spec (bridge_of c) (last_read c) (store n)) as (got & Hw & _ & Hb & _).
    destruct (consume_turn _ _ _) as [[b l] st]. simpl in *.
    etrans; [apply submseteq_app; [apply (on_buses_insert n i c _ st Ec (decoded got)); simpl; exact Hb|done]|].
    by rewrite Hw, decoded_app, app_nil_r, <-app_assoc.
Qed.
(** C12. An event that is published to Redis reaches one container: over any sequence of
    publications and polls of any number of bridges on one stream, the buses together
    carry no event more often than it was published, because all bridges read through
    the same consumer group, which gives each entry to one of them.  (Events whose JSON
    reads back as they are; what is on the buses and waiting in the stream at the start
    counts as published.) *)
Theorem relayed_once n os :
  Forall op_faithful os → on_buses (net_run n os) ⊆+ net_events n ++ published os.
Proof.
  intros Ho. assert (net_events (net_run n os) ⊆+ net_events n ++ published os) as H.
  { revert n. induction Ho as [|o os Ho Hos IH]; intros n; [by rewrite app_nil_r|].
    rewrite published_cons. etrans; [apply IH|]. rewrite (assoc (++)). apply submseteq_app; [|done].
    by apply net_step_events. }
  etrans; [|exact H]. by apply submseteq_inserts_r.
Qed.

(** Ids: those waiting are distinct, in use, and no consumer has read one. *)
Definition ids_ok (n : Net) : Prop :=
  NoDup (waiting (store n)).*1 ∧ (∀ i, i ∈ (waiting (store n)).*1 → i ∈ minted (store n) ∧ i ≠ "0-0") ∧
  (∀ c, c ∈ cons n → (last_read c ∉ (waiting (store n)).*1) ∧ (last_read c ∈ minted (store n) ∨ last_read c = "0-0")).
(** Entry [m] of consumer [c] is pending, and no acknowledgement will name it. *)
Definition stuck (c : string) (m : entry) (n : Net) : Prop :=
  (c, m) ∈ pel (store n) ∧ m.1 ∈ minted (store n) ∧ (m.1 ∉ (waiting (store n)).*1) ∧
  ∀ d, d ∈ cons n → last_read d ≠ m.1 ∨ m.1 = "0-0".
Lemma last_of_elem l (ms : list entry) : last_of l ms = l ∨ last_of l ms ∈ ms.*1.
Proof.
  unfold last_of. destruct (last ms.*1) as [x|] eqn:E; simpl; [|by left]. right.
  apply last_Some in E as [k ->]. apply elem_of_app. right. constructor.
Qed.
Lemma elem_of_insert_list {A} (l : list A) i x y : y ∈ <[i := x]> l → y = x ∨ y ∈ l.
Proof.
  intros [j Hj]%list_elem_of_lookup. apply list_lookup_insert_Some in Hj as [(_ & -> & _)|[_ Hj]]; [by left|].
  right. by eapply list_elem_of_lookup_2.
Qed.
Lemma net_step_ids n o : op_faithful o → ids_ok n → ids_ok (net_step n o).
Proof.
  intros Ho (Hnd & Hw & Hl). destruct o as [i conn e|i]; simpl; (destruct (cons n !! i) as [c|] eqn:Ec; [|done]);
    pose proof (Hl c (list_elem_of_lookup_2 _ _ _ Ec)) as [Hcn Hcm].
  - destruct (publish_redis_spec conn e (bridge_of c) (store n) Ho) as (k & add & Hw1 & _ & _ & Hm1 & Hnd' & Hfr & _).
    destruct (publish_redis _ _ _ _) as [[r b] st]. simpl in *. rewrite <-(take_drop k (waiting (store n))) in Hnd, Hw, Hcn, Hl.
    unfold ids_ok. simpl. rewrite Hw1, Hm1. rewrite !fmap_app in *. split_and!.
    + apply NoDup_app in Hnd as (_ & _ & Hnd). apply NoDup_app. split_and!; [done| |done].
      intros x Hx Hx'. apply (proj1 (Hfr x Hx')). apply Hw. apply elem_of_app. by right.
    + intros x [Hx|Hx]%elem_of_app; [|split; [apply elem_of_app; by right|by apply Hfr]].
      destruct (Hw x) as [??]; [apply elem_of_app; by right|]. split; [apply elem_of_app; by left|done].
    + assert (∀ d, d ∈ cons n → (last_read d ∉ (drop k (waiting (store n))).*1 ++ add.*1) ∧
        (last_read d ∈ minted (store n) ++ add.*1 ∨ last_read d = "0-0")) as Hd.
      { intros d Hd. destruct (Hl d Hd) as [Hn Hm]. split; [|destruct Hm; [left; apply elem_of_app; by left|by right]].
        intros [Hx|Hx]%elem_of_app; [apply Hn, elem_of_app; by right|].
        destruct (Hfr _ Hx) as [? ?]. by destruct Hm. }
      intros d [-> |Hd']%elem_of_insert_list; [|by apply Hd]. simpl. apply (Hd c). by eapply list_elem_of_lookup_2.
  - destruct (consume_turn_spec (bridge_of c) (last_read c) (store n)) as (got & Hw1 & Hm1 & _ & _ & Hl1 & _).
    destruct (consume_turn _ _ _) as [[b l] st]. unfold ids_ok. simpl in *. rewrite Hw1 in Hnd, Hw, Hl, Hcn.
    rewrite Hm1, fmap_app in *. apply NoDup_app in Hnd as (Hn1 & Hn2 & Hn3). split_and!; [done| |].
    + intros x Hx. apply Hw, elem_of_app. by right.
    + intros d [-> |Hd]%elem_of_insert_list; simpl.
      * assert (l = last_read c ∨ l ∈ got.*1) as [-> |Hg].
        { destruct Hl1 as [->| ->]; [by left|]. apply last_of_elem. }
        -- split; [|done]. intros Hx. apply Hcn, elem_of_app. by right.
        -- split; [by apply Hn2|]. left. apply Hw, elem_of_app. by left.
      * destruct (Hl d Hd) as [Hn Hm]. split; [|done]. intros Hx. apply Hn. rewrite ?fmap_app. apply elem_of_app. by right.
Qed.
Lemma net_step_stuck c m n o : op_faithful o → ids_ok n → stuck c m n → stuck c m (net_step n o).
Proof.
  intros Ho _ Hst. pose proof Hst as (Hp & Hm & Hw & Hl).
  destruct o as [i conn e|i]; simpl; (destruct (cons n !! i) as [d|] eqn:Ed; [|exact Hst]).
  - destruct (publish_redis_spec conn e (bridge_of d) (store n) Ho) as (k & add & Hw1 & _ & Hp1 & Hm1 & _ & Hfr & _).
    destruct (publish_redis _ _ _ _) as [[r b] st]. unfold stuck. simpl in *. rewrite Hp1, Hm1, Hw1. split_and!.
    + done.
    + apply elem_of_app. by left.
    + rewrite fmap_app. intros [Hx|Hx]%elem_of_app; [|by destruct (Hfr _ Hx)].
      apply Hw. rewrite <-(take_drop k (waiting (store n))), fmap_app. apply elem_of_app. by right.
    + intros d' [-> |Hd]%elem_of_insert_list; [|by apply Hl]. simpl. apply Hl. by eapply list_elem_of_lookup_2.
  - destruct (consume_turn_spec (bridge_of d) (last_read d) (store n)) as (got & Hw1 & Hm1 & _ & _ & Hl1 & Hk).
    destruct (consume_turn _ _ _) as [[b l] st]. unfold stuck. simpl in *. rewrite Hw1, fmap_app in Hw.
    assert (l ≠ m.1 ∨ m.1 = "0-0") as Hne.
    { pose proof (Hl d (list_elem_of_lookup_2 _ _ _ Ed)) as Hd. destruct Hl1 as [->| ->]; [done|].
      destruct (last_of_elem (last_read d) got) as [->|Hg]; [done|]. left. intros E. apply Hw. rewrite <-E.
      apply elem_of_app. by left. }
    split_and!.
    + apply Hk; [by left|]. destruct Hne; [left; simpl; congruence|by right].
    + by rewrite Hm1.
    + intros Hx. apply Hw. apply elem_of_app. by right.
    + intros d' [-> |Hd]%elem_of_insert_list; [done|by apply Hl].
Qed.
Lemma last_of_batch l (pre post : list entry) m :
  NoDup (pre ++ m :: post).*1 → post ≠ [] → m.1 ≠ last_of l (pre ++ m :: post) ∧ last_of l (pre ++ m :: post) ∈ (m :: post).*1.
Proof.
  intros Hnd Hpost. destruct (exists_last Hpost) as (q & x & ->). unfold last_of.
  rewrite fmap_app in *. csimpl in *. rewrite fmap_app in *. csimpl in *.
  rewrite app_comm_cons, (assoc (++)), last_snoc. simpl. apply NoDup_app in Hnd as (_ & _ & [Hnd _]%NoDup_cons).
  split; [|right; apply elem_of_app; right; constructor]. intros E. apply Hnd. rewrite E. apply elem_of_app. right. constructor.
Qed.
Lemma poll_stuck n i c r st pre m post :
  ids_ok n → cons n !! i = Some c → xreadgroup (instance_id (bridge_of c)) 10 (store n) = (Some r, st) →
  mjoin r.*2 = pre ++ m :: post → post ≠ [] → stuck (instance_id (bridge_of c)) m (net_step n (Poll i)).
Proof.
  intros (Hnd & Hw & Hl) Hc Hgot Hms Hpost. simpl. rewrite Hc. unfold consume_turn, poll_group.
  pose proof (xreadgroup_law (instance_id (bridge_of c)) 10 (store n)) as (g & Hw1 & Hp1 & Hm1 & Hg).
  rewrite Hgot in *. simpl in *. rewrite Hms in *. subst g. rewrite Hw1, fmap_app in Hnd, Hw, Hl.
  apply NoDup_app in Hnd as (Hng & Hdis & _).
  destruct (last_of_batch (last_read c) pre post m Hng Hpost) as [Hne Hk]. set (k := last_of _ _) in *.
  assert (∀ x, x ∈ (m :: post).*1 → x ∈ (pre ++ m :: post).*1) as Hin by (intros; rewrite fmap_app; apply elem_of_app; by right).
  assert (m.1 ∈ (m :: post).*1) as Hm by constructor.
  unfold stuck, ack_last. simpl. destruct (xack_law k st) as (Hwa & Hma & Hpa).
  rewrite bool_decide_eq_false_2 by (apply (proj2 (Hw k ltac:(apply elem_of_app; left; auto)))).
  rewrite Hwa, Hma, Hm1. split_and!; [|apply Hw, elem_of_app; left; auto|auto|].
  - assert ((instance_id (bridge_of c), m) ∈ pel st) as Hpin.
    { rewrite Hp1. apply elem_of_app. right. apply list_elem_of_fmap. exists m. split; [done|].
      apply elem_of_app. right. constructor. }
    destruct Hpa as [->|[_ ->]]; [|done]. by apply list_elem_of_filter.
  - intros d [-> |Hd]%elem_of_insert_list; simpl; left; [congruence|]. intros E.
    apply (proj1 (Hl d Hd)). rewrite E. apply elem_of_app. left. auto.
Qed.
(** Only the last entry of a batch is acknowledged: when a poll gets several entries,
    the others are in the pending list of its consumer for ever, whatever is published
    and polled afterwards. *)
Theorem batch_stays_pending n i c r st pre m post os :
  ids_ok n → Forall op_faithful os → cons n !! i = Some c →
  xreadgroup (instance_id (bridge_of c)) 10 (store n) = (Some r, st) →
  mjoin r.*2 = pre ++ m :: post → post ≠ [] →
  (instance_id (bridge_of c), m) ∈ pel (store (net_run (net_step n (Poll i)) os)).
Proof.
  intros Hids Hos Hc Hgot Hms Hpost. pose proof (net_step_ids n (Poll i) I Hids) as Hids'.
  pose proof (poll_stuck n i c r st pre m post Hids Hc Hgot Hms Hpost) as Hst.
  revert Hst Hids'. generalize (net_step n (Poll i)). induction Hos as [|o os Ho Hos IH]; intros n1 Hst Hi.
  - apply Hst.
  - simpl. apply IH; [by apply net_step_stuck|by apply net_step_ids].
Qed.

Lemma relay_message_simulates b1 b2 s m :
  instance_id b1 = instance_id b2 → s.1 = bus b2 →
  let r := handle_message relay_handler (b1, s) m in
  instance_id r.1 = instance_id (relay_message b2 m) ∧ r.2.1 = bus (relay_message b2 m) ∧
  wrap 64 (r.2.2 - total_published r.2.1) = wrap 64 (s.2 - total_published s.1).
Proof.
  intros Hi Hs. unfold handle_message, relay_message. destruct (entry_event m) as [[e|]|]; [|done..].
  rewrite Hi. case_bool_decide; [done|]. simpl. rewrite Hs. split_and!; [done..|].
  unfold add64, wrap. rewrite Zminus_mod_idemp_l, Zminus_mod_idemp_r. f_equal. lia.
Qed.
(** [relay_to_local_bus] is [start_consuming], with the events counted. *)
Theorem relay_is_consume b l n st :
  let '(_, s, l1, st1) := handler_turn relay_handler (b, (bus b, n)) l st in
  let '(b2, l2, st2) := consume_turn b l st in
  s.1 = bus b2 ∧ l1 = l2 ∧ st1 = st2 ∧
  wrap 64 (s.2 - total_published (bus b2)) = wrap 64 (n - total_published (bus b)).
Proof.
  unfold handler_turn, consume_turn, poll_group. simpl.
  destruct (xreadgroup _ _ st) as [reply st']. set (ms := mjoin _).
  assert (∀ b1 b2 s, instance_id b1 = instance_id b2 → s.1 = bus b2 →
    let r := (foldl (handle_message relay_handler) (b1, s) ms).2 in
    r.1 = bus (foldl relay_message b2 ms) ∧
    wrap 64 (r.2 - total_published r.1) = wrap 64 (s.2 - total_published s.1)) as H.
  { induction ms as [|m ms IH]; intros b1 b2 s Hi Hs; [done|]. cbn [foldl].
    destruct (relay_message_simulates b1 b2 s m Hi Hs) as (Hi' & Hs' & <-).
    destruct (handle_message _ _ _) as [b1' s']. simpl in Hi', Hs'. exact (IH b1' (relay_message b2 m) s' Hi' Hs'). }
  destruct (H b b (bus b, n) eq_refl eq_refl) as [H1 H2].
  destruct (foldl (handle_message relay_handler) _ ms) as [b1 s]. simpl in *. rewrite H1 in H2. by split_and!.
Qed.
End bridge.

(** ** Runs *)

(** A stream that is never trimmed and never fails *)
Record DemoStore := mkStore { st_waiting : list entry; st_pel : list (string * entry); st_minted : list string }.
Program Definition demo_stream : RedisStream := {|
  Store := DemoStore;
  xadd _ f st :=
    let i := fresh (st_minted st ++ ["0-0"]) in
    (Ok i, mkStore (st_waiting st ++ [(i, f)]) (st_pel st) (st_minted st ++ [i]));
  xreadgroup c n st :=
    let got := take (Z.to_nat n) (st_waiting st) in
    (Some [("events", got)], mkStore (drop (Z.to_nat n) (st_waiting st)) (st_pel st ++ (pair c <$> got)) (st_minted st));
  xack i st := (Ok 1, mkStore (st_waiting st) (filter (λ p, p.2.1 ≠ i) (st_pel st)) (st_minted st));
  waiting := st_waiting; pel := st_pel; minted := st_minted |}.
Next Obligation.
  intros n f st. simpl. set (i := fresh _). assert (i ∉ st_minted st ++ ["0-0"]) as Hf by apply infinite_is_fresh.
  exists 0%nat, i. rewrite not_elem_of_app in Hf. destruct Hf as [? Hf]. split_and!; [done| |done|by left].
  intros E. apply Hf. rewrite E. constructor.
Qed.
Next Obligation.
  intros c n st. simpl. eexists. split_and!; [symmetry; apply take_drop|done..|]. csimpl. by rewrite app_nil_r.
Qed.
Next Obligation. intros i st. split_and!; [done|done|by left]. Qed.
Section bridge_runs.
#[local] Instance bridge_external : External := demo_external.
#[local] Instance bridge_broadcast : Broadcast ShimEvent := log_broadcast ShimEvent.
#[local] Existing Instance demo_stream.
(** Events of one kind, with their source as their text *)
Definition demo_event (src : string) : ShimEvent :=
  new_event (EX := demo_external) 1 0 src (BackupStarted "nightly") Info.
#[local] Instance demo_serde : Serde :=
  {| event_to_json e := Ok (source e); event_from_json s := Some (demo_event s) |}.
Definition demo_bridge (inst : string) : RedisBridge := mkBridge new_bus inst "evergreen:shimbus:events:prod" None.
Definition demo_net : Net :=
  mkNet [mkConsumer (demo_bridge "pod-a") "0-0"; mkConsumer (demo_bridge "pod-b") "0-0"] (mkStore [] [] []).
Definition demo_pub (src : string) : NetOp := Publish 0 (Ok ()) (demo_event src).
Definition demo_ops : list NetOp := [demo_pub "backup"; demo_pub "health"; demo_pub "tls"].

(** The first bridge gets its own events back; the second gets none; two of the three
    stay pending. *)
Example demo_bridges :
  let n := net_run demo_net (demo_ops ++ [Poll 0; Poll 1; Poll 0]) in
  ((λ c, source <$> sent (tx (bus (bridge_of c)))) <$> cons n, length (pel (store n)))
  = ([["backup"; "health"; "tls"]; []], 2%nat).
Proof. vm_compute. done. Qed.
(** Only an event whose source is the name of the container is kept from coming back. *)
Example demo_echo :
  let n := net_run demo_net [demo_pub "pod-a"; Poll 0] in
  (λ c, source <$> sent (tx (bus (bridge_of c)))) <$> cons n = [[]; []].
Proof. vm_compute. done. Qed.
Lemma demo_faithful src : faithful (demo_event src).
Proof. intros j [= <-]. done. Qed.
Lemma relayed_once_witness :
  on_buses (net_run demo_net (demo_ops ++ [Poll 0; Poll 1])) ⊆+ unnumbered <$> [demo_event "backup"; demo_event "health"; demo_event "tls"].
Proof.
  assert (Forall op_faithful (demo_ops ++ [Poll 0; Poll 1])) as H by (repeat constructor; apply demo_faithful).
  exact (relayed_once demo_net (demo_ops ++ [Poll 0; Poll 1]) H).
Defined.
Definition demo_filled : Net := Eval vm_compute in net_run demo_net demo_ops.
Definition demo_batch : list entry := Eval vm_compute in waiting (store demo_filled).
Lemma batch_stays_pending_witness :
  ("pod-a", default ("", []) (head demo_batch)) ∈ pel (store (net_run (net_step demo_filled (Poll 0)) (demo_ops ++ [Poll 1; Poll 0]))).
Proof.
  assert (ids_ok demo_filled) as Hi.
  { split_and!.
    - apply (bool_decide_unpack _). vm_compute. exact I.
    - apply Forall_forall. apply (bool_decide_unpack _). vm_compute. exact I.
    - apply Forall_forall. apply (bool_decide_unpack _). vm_compute. exact I. }
  assert (Forall op_faithful (demo_ops ++ [Poll 1; Poll 0])) as H by (repeat constructor; apply demo_faithful).
  assert (tail demo_batch ≠ []) as Ht by (vm_compute; discriminate).
  exact (batch_stays_pending demo_filled 0 (mkConsumer (demo_bridge "pod-a") "0-0") [("events", demo_batch)] _
           [] (default ("", []) (head demo_batch)) (tail demo_batch) (demo_ops ++ [Poll 1; Poll 0])
           Hi H eq_refl eq_refl eq_refl Ht).
Defined.
End bridge_runs.
