(* ===== verification/Encryption.v ===== *)
(** * Encryption at rest ([encryption-shim/src/lib.rs])

    The key ring with its loading and rotation, encryption and decryption of payloads.
    The two ciphers are the class [Aead]; reading files, hexadecimal and JSON decoding
    and random bytes are inputs.  Byte vectors are strings; [None] is a panic. *)

From S2P Require Import Prelude Text.

Definition NONCE_SIZE : nat := 12.
Definition KEY_SIZE : nat := 32.

(** [EncryptionKey], [EncryptedPayload] *)
Record EncryptionKey := mkKey { key_id : string; material : string; created_at : Z; active : bool }.
#[export] Instance EncryptionKey_settable : Settable EncryptionKey := λ k,
  mkKey (key_id k) (material k) (created_at k) (active k).
Record EncryptedPayload := mkPayload {
  pl_key_id : string;
  nonce : string;
  ciphertext : string;
  tag : string;
  method_name : string;
  aad : option string
}.
(** [EncryptionMethod], [Display] and [FromStr] *)
Inductive EncryptionMethod := AesGcm | ChaCha20.
Definition method_display (m : EncryptionMethod) : string :=
  match m with AesGcm => "aes-gcm" | ChaCha20 => "chacha20" end.
Definition method_from_str (s : string) : result string EncryptionMethod :=
  let l := to_lowercase s in
  if bool_decide (l ∈ ["aes-gcm"; "aes256gcm"; "aes"]) then Ok AesGcm
  else if bool_decide (l ∈ ["chacha20"; "chacha20poly1305"; "chacha"]) then Ok ChaCha20
  else Err ("Unknown encryption method: " +:+ s).
Lemma method_roundtrip m : method_from_str (method_display m) = Ok m.
Proof. by destruct m. Qed.

(** The ciphers, keyed by method, key, nonce and additional data: what was sealed
    opens with the same of each.  The tag of 16 bytes is at the end.  That a ciphertext
    does not open under another key or other data is no law: neither cipher commits to
    its key. *)
Class Aead := {
  seal : EncryptionMethod → string → string → string → string → option string;
  unseal : EncryptionMethod → string → string → string → string → option string;
  seal_length m k n a p c : seal m k n a p = Some c → (16 ≤ String.length c)%nat;
  unseal_seal m k n a p c : seal m k n a p = Some c → unseal m k n a c = Some p
}.

(** [EncryptionShim], without the sender of its shutdown signal *)
Record EncryptionShim := mkEncryption {
  method : EncryptionMethod;
  keys : gmap string EncryptionKey;
  active_key_id : option string;
  aad_prefix : option string;
  encryptions_total : Z;
  decryptions_total : Z;
  decryption_key_rotation_hits : Z
}.
#[export] Instance EncryptionShim_settable : Settable EncryptionShim := λ s,
  mkEncryption (method s) (keys s) (active_key_id s) (aad_prefix s) (encryptions_total s) (decryptions_total s)
    (decryption_key_rotation_hits s).

(** [load_primary_key]: the key file, the hexadecimal decoder and the random bytes *)
Definition load_primary_key (env : environment) (read : string → result string string)
    (unhex : string → result string string) (random : string) (now : Z) (s : EncryptionShim)
    : result string EncryptionShim :=
  let i := env_or env "ENCRYPTION_KEY_ID" "default" in
  m <-? match env !! "ENCRYPTION_KEY_PATH" with
        | Some path => match read path with
                       | Ok m => Ok m
                       | Err e => Err ("Cannot read encryption key file " +:+ path +:+ ": " +:+ e)
                       end
        | None => match env !! "ENCRYPTION_KEY" with
                  | Some h => match unhex h with Ok m => Ok m | Err e => Err ("Invalid ENCRYPTION_KEY hex: " +:+ e) end
                  | None => Ok random
                  end
        end ;
  if bool_decide (String.length m = KEY_SIZE) then
    Ok (s <| active_key_id := Some i |> <| keys ::= <[i := mkKey i m now true]> |>)
  else Err ("ENCRYPTION_KEY must be 32 bytes, got " +:+ pretty (String.length m)).
(** [load_previous_keys], with the answer of the JSON decoder *)
Definition add_previous (s : EncryptionShim) (k : EncryptionKey) : EncryptionShim :=
  if bool_decide (String.length (material k) = KEY_SIZE) then s <| keys ::= <[key_id k := k]> |> else s.
Definition load_previous_keys (env : environment) (decode : string → option (list EncryptionKey)) (s : EncryptionShim)
    : EncryptionShim :=
  match env !! "ENCRYPTION_PREV_KEYS" ≫= decode with
  | Some ks => foldl add_previous s ks
  | None => s
  end.
(** [try_new], and [new], which panics on its errors *)
Definition try_new (env : environment) (read unhex : string → result string string)
    (decode : string → option (list EncryptionKey)) (random : string) (now : Z) : result string EncryptionShim :=
  let m := match method_from_str (env_or env "ENCRYPTION_METHOD" "aes-gcm") with Ok m => m | Err _ => AesGcm end in
  s <-? load_primary_key env read unhex random now (mkEncryption m ∅ None None 0 0 0) ;
  let s := load_previous_keys env decode s in
  Ok (match env !! "ENCRYPTION_AAD" with Some a => s <| aad_prefix := Some a |> | None => s end).
Definition new_encryption (env : environment) (read unhex : string → result string string)
    (decode : string → option (list EncryptionKey)) (random : string) (now : Z) : option EncryptionShim :=
  match try_new env read unhex decode random now with Ok s => Some s | Err _ => None end.

(** [rotate_key] *)
Definition rotate_key (new_id new_material : string) (now : Z) (s : EncryptionShim) : result string () * EncryptionShim :=
  if bool_decide (String.length new_material = KEY_SIZE) then
    let s := match active_key_id s with
             | Some old => s <| keys ::= alter (λ k, k <| active := false |>) old |>
             | None => s
             end in
    (Ok (), s <| active_key_id := Some new_id |> <| keys ::= <[new_id := mkKey new_id new_material now true]> |>)
  else (Err "New key must be 32 bytes", s).
(** [list_keys] *)
Definition list_keys `{HashOrder} (s : EncryptionShim) : list EncryptionKey := hash_values (keys s).
Definition encryption_metrics (s : EncryptionShim) : list (string * Z) :=
  [("encryption_encryptions_total", encryptions_total s); ("encryption_decryptions_total", decryptions_total s);
   ("encryption_key_rotation_hits", decryption_key_rotation_hits s); ("encryption_keys_total", Z.of_nat (size (keys s)))].

Section ciphers.
Context `{AE : Aead}.
Implicit Types (s : EncryptionShim) (pl : EncryptedPayload).

(** [encrypt]; [random] is what the generator gives when no nonce is passed.  A nonce
    of another length makes [Nonce::from_slice] panic. *)
Definition encrypt (plaintext : string) (given : option string) (random : string) s
    : option (result string EncryptedPayload * EncryptionShim) :=
  match active_key_id s with
  | None => Some (Err "No active encryption key", s)
  | Some i =>
      match keys s !! i with
      | None => Some (Err ("Key " +:+ i +:+ " not found"), s)
      | Some k =>
          if bool_decide (String.length (material k) = KEY_SIZE) then
            let n := default random given in
            let a := default "" (aad_prefix s) +:+ i in
            if bool_decide (String.length n = NONCE_SIZE) then
              match seal (method s) (material k) n a plaintext with
              | None => Some (Err "encryption failed", s)
              | Some c =>
                  let start := (String.length c - 16)%nat in
                  Some (Ok (mkPayload i n (str_take start c) (str_drop start c) (method_display (method s))
                              ((λ _, a) <$> aad_prefix s)),
                        s <| encryptions_total ::= λ n, add64 n 1 |>)
              end
            else None
          else Some (Err "Key must be 32 bytes", s)
      end
  end.
(** [decrypt] *)
Definition decrypt pl s : option (result string string * EncryptionShim) :=
  match keys s !! pl_key_id pl with
  | None => Some (Err ("Decryption key " +:+ pl_key_id pl +:+ " not found"), s)
  | Some k =>
      if bool_decide (String.length (material k) = KEY_SIZE) then
        match method_from_str (method_name pl) with
        | Err e => Some (Err e, s)
        | Ok m =>
            if bool_decide (String.length (nonce pl) = NONCE_SIZE) then
              let a := default "" (aad pl) +:+ pl_key_id pl in
              match unseal m (material k) (nonce pl) a (ciphertext pl +:+ tag pl) with
              | None => Some (Err "decryption failed", s)
              | Some p =>
                  let s := if bool_decide (active_key_id s = Some (pl_key_id pl)) then s
                           else s <| decryption_key_rotation_hits ::= λ n, add64 n 1 |> in
                  Some (Ok p, s <| decryptions_total ::= λ n, add64 n 1 |>)
              end
            else None
        end
      else Some (Err "Key must be 32 bytes", s)
  end.

(** A sequence of calls; a panic ends it. *)
Inductive CipherOp :=
| OpEncrypt (p : string) (given : option string) (random : string)
| OpDecrypt (pl : EncryptedPayload)
| OpRotate (i m : string) (now : Z).
Definition cipher_step (o : CipherOp) s : option EncryptionShim :=
  match o with
  | OpEncrypt p g r => snd <$> encrypt p g r s
  | OpDecrypt pl => snd <$> decrypt pl s
  | OpRotate i m now => Some (rotate_key i m now s).2
  end.
Fixpoint cipher_run (os : list CipherOp) s : option EncryptionShim :=
  match os with [] => Some s | o :: os => cipher_step o s ≫= cipher_run os end.

(** ** The key ring *)

(** Every key has its length, and the active one is in the ring. *)
Definition ring_ok s : Prop :=
  map_Forall (λ _ k, String.length (material k) = KEY_SIZE) (keys s) ∧
  ∃ i, active_key_id s = Some i ∧ is_Some (keys s !! i).
Definition key_material s (i : string) : option string := material <$> keys s !! i.
Definition rotates_to (i : string) (o : CipherOp) : Prop := match o with OpRotate j _ _ => j = i | _ => False end.

Lemma encrypt_keys p g r s res s' : encrypt p g r s = Some (res, s') →
  keys s' = keys s ∧ active_key_id s' = active_key_id s ∧ aad_prefix s' = aad_prefix s ∧ method s' = method s.
Proof. unfold encrypt. intros H. repeat (case_match; simplify_eq/=); done. Qed.
Lemma decrypt_keys pl s res s' : decrypt pl s = Some (res, s') →
  keys s' = keys s ∧ active_key_id s' = active_key_id s ∧ aad_prefix s' = aad_prefix s ∧ method s' = method s.
Proof. unfold decrypt. intros H. repeat (case_match; simplify_eq/=); done. Qed.
Lemma rotate_keys i m now s :
  ring_ok s → ring_ok (rotate_key i m now s).2 ∧
  (∀ j, j ≠ i → key_material (rotate_key i m now s).2 j = key_material s j) ∧
  aad_prefix (rotate_key i m now s).2 = aad_prefix s.
Proof.
  intros (Hk & a & Ha & Hin). unfold rotate_key. case_bool_decide as Hl; [|by split_and!; [split; [|eauto]|..]].
  rewrite Ha. unfold key_material. split_and!; [split| |done]; simpl.
  - apply map_Forall_insert_2; [done|]. intros j k Hj. apply lookup_alter_Some in Hj as [(-> & k' & Hj & ->)|[_ Hj]];
      exact (Hk _ _ Hj).
  - exists i. split; [done|]. rewrite lookup_insert_eq. eauto.
  - intros j Hj. rewrite lookup_insert_ne by done. destruct (decide (a = j)) as [->|]; [|by rewrite lookup_alter_ne].
    rewrite lookup_alter_eq. by destruct (keys s !! j).
Qed.
Lemma cipher_step_ok o s s' :
  ring_ok s → cipher_step o s = Some s' →
  ring_ok s' ∧ (∀ i, ¬ rotates_to i o → key_material s' i = key_material s i) ∧ aad_prefix s' = aad_prefix s.
Proof.
  intros Hr. destruct o as [p g r|pl|i m now]; simpl; intros H.
  - destruct (encrypt p g r s) as [[res x]|] eqn:E; simplify_eq/=. apply encrypt_keys in E as (Ek & Ea & Ep & _).
    unfold ring_ok, key_material in *. by rewrite Ek, Ea, Ep.
  - destruct (decrypt pl s) as [[res x]|] eqn:E; simplify_eq/=. apply decrypt_keys in E as (Ek & Ea & Ep & _).
    unfold ring_ok, key_material in *. by rewrite Ek, Ea, Ep.
  - simplify_eq. destruct (rotate_keys i m now s Hr) as (H1 & H2 & H3). split_and!; [done| |done].
    intros j Hj. apply H2. intros ->. by apply Hj.
Qed.
Lemma cipher_run_ok os : ∀ s s',
  ring_ok s → cipher_run os s = Some s' →
  ring_ok s' ∧ (∀ i, Forall (λ o, ¬ rotates_to i o) os → key_material s' i = key_material s i) ∧
  aad_prefix s' = aad_prefix s.
Proof.
  induction os as [|o os IH]; intros s s' Hr H; simpl in H; [by simplify_eq|].
  destruct (cipher_step o s) as [s1|] eqn:E; [|done]. simpl in H.
  destruct (cipher_step_ok o s s1 Hr E) as (H1 & H2 & H3).
  destruct (IH s1 s' H1 H) as (H4 & H5 & H6). split_and!; [done| |congruence].
  intros i [Ho Hos]%Forall_cons. rewrite H5 by done. by apply H2.
Qed.
(** A shim that could be made has a sound ring. *)
Theorem try_new_ring env read unhex decode random now s :
  try_new env read unhex decode random now = Ok s → ring_ok s.
Proof.
  unfold try_new, load_primary_key. set (mm := match _ with Ok m => m | Err _ => AesGcm end).
  destruct (match env !! "ENCRYPTION_KEY_PATH" with Some _ => _ | None => _ end) as [m|e]; [|done]. simpl.
  case_bool_decide as Hl; [|done]. simpl. set (s0 := mkEncryption _ _ _ _ _ _ _).
  assert (ring_ok s0) as H0.
  { split; simpl; [apply map_Forall_insert_2; [done|apply map_Forall_empty]|]. eexists. split; [done|]. rewrite lookup_insert_eq. eauto. }
  assert (∀ ks s, ring_ok s → ring_ok (foldl add_previous s ks)) as Hks.
  { induction ks as [|k ks IH]; intros s1 H1; [done|]. apply IH. unfold add_previous. case_bool_decide as Hk; [|done].
    destruct H1 as (Ha & i & Hi & Hin). split; simpl; [by apply map_Forall_insert_2|].
    exists i. split; [done|]. destruct (decide (key_id k = i)) as [->|]; [rewrite lookup_insert_eq; eauto|].
    by rewrite lookup_insert_ne. }
  assert (ring_ok (load_previous_keys env decode s0)) as Hp.
  { unfold load_previous_keys. destruct (_ ≫= decode); [by apply Hks|done]. }
  destruct (env !! "ENCRYPTION_AAD"); intros [= <-]; exact Hp.
Qed.

(** ** Round trip *)

(** What [encrypt] makes of a text, in terms of the ring *)
Lemma encrypt_inv p g r s pl s' :
  encrypt p g r s = Some (Ok pl, s') →
  ∃ m c, key_material s (pl_key_id pl) = Some m ∧ String.length m = KEY_SIZE ∧
    active_key_id s = Some (pl_key_id pl) ∧ String.length (nonce pl) = NONCE_SIZE ∧
    method_name pl = method_display (method s) ∧
    seal (method s) m (nonce pl) (default "" (aad_prefix s) +:+ pl_key_id pl) p = Some c ∧
    ciphertext pl +:+ tag pl = c ∧ aad pl = (λ a, a +:+ pl_key_id pl) <$> aad_prefix s ∧ keys s' = keys s.
Proof.
  unfold encrypt. destruct (active_key_id s) as [i|]; [|done]. destruct (keys s !! i) as [k|] eqn:Ek; [|done].
  case_bool_decide as Hk; [|done]. case_bool_decide as Hn; [|done].
  destruct (seal _ _ _ _ p) as [c|] eqn:Es; [|done]. intros [= <- <-]. exists (material k), c. unfold key_material. simpl.
  rewrite Ek. split_and!; try done.
  - apply str_take_drop.
  - by destruct (aad_prefix s).
Qed.
Lemma decrypt_open pl s m mt :
  key_material s (pl_key_id pl) = Some m → String.length m = KEY_SIZE → method_name pl = method_display mt →
  String.length (nonce pl) = NONCE_SIZE →
  fst <$> decrypt pl s = Some match unseal mt m (nonce pl) (default "" (aad pl) +:+ pl_key_id pl) (ciphertext pl +:+ tag pl) with
    | Some p => Ok p | None => Err "decryption failed" end.
Proof.
  unfold key_material, decrypt. intros Hm Hl Hn Hc. destruct (keys s !! _) as [k|]; [|done]. simplify_eq/=.
  rewrite bool_decide_eq_true_2 by done. rewrite Hn, method_roundtrip, bool_decide_eq_true_2 by done.
  by destruct (unseal _ _ _ _ _).
Qed.
(** C13. Decryption undoes encryption: on a sound key ring (every key has its length and
    the active one is there, as on every shim that could be made) and without additional
    data, what was encrypted can be decrypted after any calls of the three operations
    that do not panic, rotations to other key ids included, and gives the text back.  Of
    the ciphers it takes only that what was sealed opens with the same key, nonce and
    data. *)
Theorem decrypt_encrypt p g r s pl s1 os s2 :
  ring_ok s → aad_prefix s = None → encrypt p g r s = Some (Ok pl, s1) →
  cipher_run os s1 = Some s2 → Forall (λ o, ¬ rotates_to (pl_key_id pl) o) os →
  fst <$> decrypt pl s2 = Some (Ok p).
Proof.
  intros Hr Ha He Hrun Hos. assert (ring_ok s1) as Hr1.
  { destruct (cipher_step_ok (OpEncrypt p g r) s s1 Hr) as [? _]; [simpl; by rewrite He|done]. }
  destruct (cipher_run_ok os s1 s2 Hr1 Hrun) as (_ & Hk & _).
  apply encrypt_inv in He as (m & c & Hm & Hl & _ & Hn & Hmt & Hs & Hc & Had & Hks).
  rewrite (decrypt_open pl s2 m (method s)); [|rewrite Hk by done; unfold key_material in *; by rewrite Hks|done..].
  rewrite Ha in *. rewrite Had, Hc. simpl. by erewrite unseal_seal.
Qed.
(** With a prefix for the additional data nothing can be decrypted: the payload
    carries the prefix with the key id, to which decryption appends the id again, so
    whatever [encrypt] makes opens later only if it opens under that other data, which
    the ciphers make infeasible. *)
Theorem aad_prefix_breaks_decrypt p g r s pl s1 os s2 prefix :
  ring_ok s → aad_prefix s = Some prefix → encrypt p g r s = Some (Ok pl, s1) →
  (∀ m, key_material s (pl_key_id pl) = Some m →
     unseal (method s) m (nonce pl) (prefix +:+ pl_key_id pl +:+ pl_key_id pl) (ciphertext pl +:+ tag pl) = None) →
  cipher_run os s1 = Some s2 → Forall (λ o, ¬ rotates_to (pl_key_id pl) o) os →
  fst <$> decrypt pl s2 = Some (Err "decryption failed").
Proof.
  intros Hr Ha He Hi Hrun Hos. assert (ring_ok s1) as Hr1.
  { destruct (cipher_step_ok (OpEncrypt p g r) s s1 Hr) as [? _]; [simpl; by rewrite He|done]. }
  destruct (cipher_run_ok os s1 s2 Hr1 Hrun) as (_ & Hk & _).
  apply encrypt_inv in He as (m & c & Hm & Hl & _ & Hn & Hmt & Hs & Hc & Had & Hks).
  rewrite (decrypt_open pl s2 m (method s)); [|rewrite Hk by done; unfold key_material in *; by rewrite Hks|done..].
  rewrite Ha in *. rewrite Had. simpl. by rewrite str_app_assoc, (Hi m Hm).
Qed.
(** Rotating to an id in use replaces its key: what was encrypted under it is lost, unless
    it opens under the new key. *)
Theorem rotate_same_id_loses p g r s pl s1 m' now :
  ring_ok s → encrypt p g r s = Some (Ok pl, s1) → String.length m' = KEY_SIZE →
  unseal (method s) m' (nonce pl) (default "" (aad pl) +:+ pl_key_id pl) (ciphertext pl +:+ tag pl) = None →
  fst <$> decrypt pl (rotate_key (pl_key_id pl) m' now s1).2 = Some (Err "decryption failed").
Proof.
  intros Hr He Hl' Hne. apply encrypt_inv in He as (m & c & Hm & Hl & Hact & Hn & Hmt & Hs & Hc & Had & Hks).
  rewrite (decrypt_open pl _ m' (method s)); [|..]; [|unfold key_material, rotate_key|done..].
  2: { rewrite bool_decide_eq_true_2 by done. simpl. by rewrite lookup_insert_eq. }
  by rewrite Hne.
Qed.
End ciphers.

(** ** Runs *)

(** Sealing keeps everything in clear, each part behind its length. *)
Definition framed (s : string) : string := zeros (String.length s) +:+ String "1" s.
Fixpoint unframe_at (n : nat) (s : string) : option (string * string) :=
  match s with
  | String c r =>
      if bool_decide (c = "0"%char) then unframe_at (S n) r
      else if bool_decide (n ≤ String.length r)%nat then Some (str_take n r, str_drop n r) else None
  | EmptyString => None
  end.
Lemma unframe_framed s t : unframe_at 0 (framed s +:+ t) = Some (s, t).
Proof.
  unfold framed. rewrite str_app_assoc.
  assert (∀ k n u, unframe_at n (zeros k +:+ String "1" u) =
    if bool_decide (k + n ≤ String.length u)%nat then Some (str_take (k + n) u, str_drop (k + n) u) else None) as H.
  { induction k as [|k IH]; intros n u; [done|]. change (zeros (S k) +:+ String "1" u) with (String "0" (zeros k +:+ String "1" u)).
    cbn [unframe_at]. rewrite bool_decide_eq_true_2 by done. rewrite IH. by rewrite Nat.add_succ_r. }
  change (String "1" s +:+ t) with (String "1" (s +:+ t)). rewrite H, Nat.add_0_r, str_length_app.
  rewrite bool_decide_eq_true_2 by lia. by rewrite str_take_app, str_drop_app.
Qed.
Definition demo_open (k a c : string) : option string :=
  '(k', r) ← unframe_at 0 c; '(a', r) ← unframe_at 0 r; '(p, _) ← unframe_at 0 r;
  if bool_decide (k' = k ∧ a' = a) then Some p else None.
Lemma demo_open_seal k a p k' a' :
  demo_open k' a' (framed k +:+ framed a +:+ framed p +:+ "----------------") =
  if bool_decide (k = k' ∧ a = a') then Some p else None.
Proof.
  unfold demo_open. rewrite unframe_framed. cbn [mbind option_bind]. rewrite unframe_framed. cbn [mbind option_bind].
  rewrite unframe_framed. done.
Qed.
Program Definition demo_aead : Aead := {|
  seal m k n a p := Some (framed k +:+ framed a +:+ framed p +:+ "----------------");
  unseal m k n a c := demo_open k a c |}.
Next Obligation. intros m k n a p c [= <-]. rewrite !str_length_app. simpl. lia. Qed.
Next Obligation. intros m k n a p c [= <-]. rewrite demo_open_seal. by rewrite bool_decide_eq_true_2. Qed.

Section cipher_runs.
#[local] Existing Instance demo_aead.
Definition demo_key (c : ascii) : string := Nat.iter 32 (String c) "".
Definition demo_make (env : environment) : option EncryptionShim :=
  new_encryption env (λ _, Err "") (λ h, Ok h) (λ _, None) (demo_key "r") 0.
Definition demo_env : environment := {["ENCRYPTION_KEY_ID" := "k1"; "ENCRYPTION_METHOD" := "chacha"]}.
Definition demo_shim : EncryptionShim := Eval vm_compute in
  default (mkEncryption AesGcm ∅ None None 0 0 0) (demo_make demo_env).
Definition demo_aad_shim : EncryptionShim := demo_shim <| aad_prefix := Some "tenant" |>.
Definition demo_nonce : string := "123456789012".
(** Without a key the shim makes one up; a key of another length is refused. *)
Example demo_random : (λ s, key_material s "default") <$> demo_make ∅ = Some (Some (demo_key "r")).
Proof. vm_compute. done. Qed.
Example demo_short : demo_make {["ENCRYPTION_KEY" := "abc"]} = None.
Proof. vm_compute. done. Qed.
Example demo_bad_nonce : encrypt "x" (Some "short") "" demo_shim = None.
Proof. vm_compute. done. Qed.
Definition demo_pl (s : EncryptionShim) : EncryptedPayload * EncryptionShim :=
  match encrypt "secret" None demo_nonce s with
  | Some (Ok pl, s) => (pl, s)
  | _ => (mkPayload "" "" "" "" "" None, s)
  end.
Definition demo_rotations : list CipherOp := [OpRotate "k2" (demo_key "2") 1; OpEncrypt "other" None demo_nonce; OpRotate "k3" "short" 2].
Definition demo_after (s : EncryptionShim) : EncryptionShim := default s (cipher_run demo_rotations (demo_pl s).2).
Lemma demo_ring_ok a : ring_ok (demo_shim <| aad_prefix := a |>).
Proof.
  split.
  - apply (bool_decide_unpack _). vm_compute. exact I.
  - exists "k1". split; [done|]. by eexists.
Qed.
Lemma demo_elsewhere : Forall (λ o, ¬ rotates_to "k1" o) demo_rotations.
Proof. repeat constructor; simpl; congruence. Qed.
Lemma decrypt_encrypt_witness : fst <$> decrypt (demo_pl demo_shim).1 (demo_after demo_shim) = Some (Ok "secret").
Proof.
  assert (encrypt "secret" None demo_nonce demo_shim = Some (Ok (demo_pl demo_shim).1, (demo_pl demo_shim).2)) as He
    by (vm_compute; reflexivity).
  assert (cipher_run demo_rotations (demo_pl demo_shim).2 = Some (demo_after demo_shim)) as Hr by (vm_compute; reflexivity).
  exact (decrypt_encrypt (AE := demo_aead) _ _ _ demo_shim _ _ demo_rotations _ (demo_ring_ok None) eq_refl He Hr demo_elsewhere).
Defined.
Lemma aad_prefix_breaks_decrypt_witness :
  fst <$> decrypt (demo_pl demo_aad_shim).1 (demo_after demo_aad_shim) = Some (Err "decryption failed").
Proof.
  assert (encrypt "secret" None demo_nonce demo_aad_shim = Some (Ok (demo_pl demo_aad_shim).1, (demo_pl demo_aad_shim).2)) as He
    by (vm_compute; reflexivity).
  assert (cipher_run demo_rotations (demo_pl demo_aad_shim).2 = Some (demo_after demo_aad_shim)) as Hr by (vm_compute; reflexivity).
  assert (∀ m, key_material demo_aad_shim "k1" = Some m →
    demo_open m "tenantk1k1" (ciphertext (demo_pl demo_aad_shim).1 +:+ tag (demo_pl demo_aad_shim).1) = None) as Hi
    by (intros m Hm; vm_compute in Hm; simplify_eq; vm_compute; reflexivity).
  exact (aad_prefix_breaks_decrypt (AE := demo_aead) _ _ _ demo_aad_shim _ _ demo_rotations _ "tenant"
           (demo_ring_ok (Some "tenant")) eq_refl He Hi Hr demo_elsewhere).
Defined.
Lemma rotate_same_id_loses_witness :
  fst <$> decrypt (demo_pl demo_shim).1 (rotate_key "k1" (demo_key "2") 5 (demo_pl demo_shim).2).2 = Some (Err "decryption failed").
Proof.
  assert (encrypt "secret" None demo_nonce demo_shim = Some (Ok (demo_pl demo_shim).1, (demo_pl demo_shim).2)) as He
    by (vm_compute; reflexivity).
  assert (demo_open (demo_key "2") "k1" (ciphertext (demo_pl demo_shim).1 +:+ tag (demo_pl demo_shim).1) = None) as Hne
    by (vm_compute; reflexivity).
  exact (rotate_same_id_loses (AE := demo_aead) _ _ _ demo_shim _ _ (demo_key "2") 5 (demo_ring_ok None) He eq_refl Hne).
Defined.
End cipher_runs.
