(* ===== verification/Tls.v ===== *)
(** * Certificates ([tls-shim/src/lib.rs])

    The base64 and PEM codecs, the certificates the shim manages with their validation,
    renewal through the three providers, the start and the daily check.  The hash, the
    certificate generator, the ACME client, Vault's answer and the disk are inputs. *)

From S2P Require Import Prelude Text Config.

(** ** base64 *)

Definition CHARS : string := "ABCDEFGHIJKLMNOPQRSTUVWXYZabcdefghijklmnopqrstuvwxyz0123456789+/".
Definition b64_char (n : Z) : ascii := default "="%char (String.get (Z.to_nat n) CHARS).
Definition triple (b0 b1 b2 : Z) : Z := Z.lor (Z.lor (Z.shiftl b0 16) (Z.shiftl b1 8)) b2.
Definition sextet (t n : Z) : Z := Z.land (Z.shiftr t n) 0x3F.
(** [base64_encode]: chunks of three bytes *)
Fixpoint base64_encode (data : string) : string :=
  match data with
  | String b0 (String b1 (String b2 rest)) =>
      let t := triple (byte b0) (byte b1) (byte b2) in
      String (b64_char (sextet t 18)) (String (b64_char (sextet t 12))
        (String (b64_char (sextet t 6)) (String (b64_char (sextet t 0)) (base64_encode rest))))
  | String b0 (String b1 EmptyString) =>
      let t := triple (byte b0) (byte b1) 0 in
      String (b64_char (sextet t 18)) (String (b64_char (sextet t 12)) (String (b64_char (sextet t 6)) "="))
  | String b0 EmptyString =>
      let t := triple (byte b0) 0 0 in
      String (b64_char (sextet t 18)) (String (b64_char (sextet t 12)) "==")
  | EmptyString => ""
  end.
(** [base64_char_to_val] *)
Definition base64_char_to_val (c : ascii) : option Z :=
  let n := byte c in
  if (65 <=? n) && (n <=? 90) then Some (n - 65)
  else if (97 <=? n) && (n <=? 122) then Some (n - 97 + 26)
  else if (48 <=? n) && (n <=? 57) then Some (n - 48 + 52)
  else if n =? 43 then Some 62
  else if n =? 47 then Some 63
  else None.
(** [base64_decode]: white space is dropped, the length is a multiple of four, and
    padding is accepted in any chunk. *)
Fixpoint without_space (s : string) : string :=
  match s with
  | EmptyString => ""
  | String c r => if Ascii.is_space c then without_space r else String c (without_space r)
  end.
Definition pad_or_val (c : ascii) : option Z :=
  if bool_decide (c = "="%char) then Some 0 else base64_char_to_val c.
Fixpoint decode_chunks (s : string) : option string :=
  match s with
  | EmptyString => Some ""
  | String a (String b (String c (String d rest))) =>
      c0 ← base64_char_to_val a; c1 ← base64_char_to_val b; c2 ← pad_or_val c; c3 ← pad_or_val d;
      let t := Z.lor (Z.lor (Z.lor (Z.shiftl c0 18) (Z.shiftl c1 12)) (Z.shiftl c2 6)) c3 in
      let out0 := String (of_byte (Z.land (Z.shiftr t 16) 0xFF)) "" in
      let out1 := if bool_decide (c = "="%char) then "" else String (of_byte (Z.land (Z.shiftr t 8) 0xFF)) "" in
      let out2 := if bool_decide (d = "="%char) then "" else String (of_byte (Z.land t 0xFF)) "" in
      out ← decode_chunks rest;
      Some (out0 +:+ out1 +:+ out2 +:+ out)
  | _ => None
  end.
Definition base64_decode (input : string) : option string :=
  let s := without_space input in
  if (String.length s mod 4 =? 0)%nat then decode_chunks s else None.

Lemma testbit_above b k n : 0 ≤ b < 2 ^ k → 0 ≤ k ≤ n → Z.testbit b n = false.
Proof.
  intros Hb Hn. destruct (decide (b = 0)) as [->|]; [apply Z.bits_0|].
  apply Z.bits_above_log2; [lia|]. apply Z.log2_lt_pow2; [lia|].
  apply Z.lt_le_trans with (2 ^ k); [lia|]. apply Z.pow_le_mono_r; lia.
Qed.
Lemma lor_add a b k : 0 ≤ k → 0 ≤ b < 2 ^ k → Z.lor (Z.shiftl a k) b = a * 2 ^ k + b.
Proof.
  intros Hk Hb. assert (Z.land (Z.shiftl a k) b = 0) as H0.
  { apply Z.bits_inj'. intros n Hn. rewrite Z.land_spec, Z.bits_0, Z.shiftl_spec by done.
    destruct (Z.ltb_spec n k); [by rewrite Z.testbit_neg_r by lia|].
    rewrite (testbit_above b k n) by lia. apply andb_false_r. }
  rewrite <-Z.lxor_lor, <-Z.add_nocarry_lxor by done. by rewrite Z.shiftl_mul_pow2.
Qed.
Lemma triple_add b0 b1 b2 : in_u 8 b0 → in_u 8 b1 → in_u 8 b2 → triple b0 b1 b2 = b0 * 2 ^ 16 + b1 * 2 ^ 8 + b2.
Proof.
  unfold in_u, triple. intros. rewrite (lor_add b0 (Z.shiftl b1 8) 16);
    [|lia|rewrite Z.shiftl_mul_pow2 by lia; lia].
  assert (b0 * 2 ^ 16 + Z.shiftl b1 8 = Z.shiftl (b0 * 2 ^ 8 + b1) 8) as -> by (rewrite !Z.shiftl_mul_pow2 by lia; lia).
  rewrite lor_add by lia. lia.
Qed.
Lemma quad_add c0 c1 c2 c3 : in_u 6 c0 → in_u 6 c1 → in_u 6 c2 → in_u 6 c3 →
  Z.lor (Z.lor (Z.lor (Z.shiftl c0 18) (Z.shiftl c1 12)) (Z.shiftl c2 6)) c3 =
  c0 * 2 ^ 18 + c1 * 2 ^ 12 + c2 * 2 ^ 6 + c3.
Proof.
  unfold in_u. intros. rewrite (lor_add c0 (Z.shiftl c1 12) 18); [|lia|rewrite Z.shiftl_mul_pow2 by lia; lia].
  assert (c0 * 2 ^ 18 + Z.shiftl c1 12 = Z.shiftl (c0 * 2 ^ 6 + c1) 12) as -> by (rewrite !Z.shiftl_mul_pow2 by lia; lia).
  rewrite (lor_add _ (Z.shiftl c2 6) 12); [|lia|rewrite Z.shiftl_mul_pow2 by lia; lia].
  assert ((c0 * 2 ^ 6 + c1) * 2 ^ 12 + Z.shiftl c2 6 = Z.shiftl ((c0 * 2 ^ 6 + c1) * 2 ^ 6 + c2) 6) as ->
    by (rewrite !Z.shiftl_mul_pow2 by lia; lia).
  rewrite lor_add by lia. lia.
Qed.
Lemma sextet_div t n : 0 ≤ n → sextet t n = (t / 2 ^ n) mod 64.
Proof. intros. unfold sextet. rewrite Z.shiftr_div_pow2 by done. by rewrite (Z.land_ones _ 6). Qed.
Lemma sextet_range t n : in_u 6 (sextet t n).
Proof. unfold sextet. rewrite (Z.land_ones _ 6) by done. apply Z.mod_pos_bound. lia. Qed.
(** The 64 characters, checked one by one *)
Definition b64_ok (n : Z) : bool :=
  bool_decide (base64_char_to_val (b64_char n) = Some n) && negb (bool_decide (b64_char n = "="%char)) &&
  negb (Ascii.is_space (b64_char n)) && negb (bool_decide (b64_char n = "-"%char)).
Lemma b64_char_ok n : in_u 6 n →
  base64_char_to_val (b64_char n) = Some n ∧ b64_char n ≠ "="%char ∧ Ascii.is_space (b64_char n) = false ∧ b64_char n ≠ "-"%char.
Proof.
  intros Hn. assert (b64_ok n = true) as H.
  { assert (Forall (λ n, b64_ok n = true) (seqZ 0 64)) as Hall by (apply (bool_decide_unpack _); vm_compute; exact I).
    rewrite Forall_forall in Hall. apply Hall, elem_of_seqZ. unfold in_u in Hn. lia. }
  unfold b64_ok in H. rewrite !andb_true_iff, !negb_true_iff, bool_decide_eq_true, !bool_decide_eq_false in H. tauto.
Qed.
Lemma land_255 z : Z.land z 0xFF = z mod 256.
Proof. exact (Z.land_ones z 8 ltac:(lia)). Qed.
Lemma pad_b64 n : in_u 6 n → pad_or_val (b64_char n) = Some n.
Proof. intros Hn. destruct (b64_char_ok n Hn) as (H1 & H2 & _). unfold pad_or_val. by rewrite bool_decide_eq_false_2. Qed.

(** Four sextets of a triple give the triple back. *)
Lemma sextets_triple t : 0 ≤ t < 2 ^ 24 →
  Z.lor (Z.lor (Z.lor (Z.shiftl (sextet t 18) 18) (Z.shiftl (sextet t 12) 12)) (Z.shiftl (sextet t 6) 6)) (sextet t 0) = t.
Proof.
  intros Ht. rewrite quad_add by apply sextet_range. rewrite !sextet_div by lia.
  change (2 ^ 0) with 1. change (2 ^ 6) with 64. change (2 ^ 12) with 4096. change (2 ^ 18) with 262144.
  change (2 ^ 24) with 16777216 in Ht. Z.to_euclidean_division_equations. lia.
Qed.
Lemma sextet_0 t n : 0 ≤ n → t mod 2 ^ (n + 6) = 0 → sextet t n = 0.
Proof.
  intros Hn Ht. rewrite sextet_div by done. apply Z.mod_divide in Ht as [k ->]; [|lia].
  rewrite Z.pow_add_r by lia. replace (k * (2 ^ n * 2 ^ 6)) with (k * 2 ^ 6 * 2 ^ n) by ring.
  rewrite Z.div_mul by lia. by apply Z.mod_mul.
Qed.
(** The bytes of a triple *)
Lemma triple_bytes b0 b1 b2 : in_u 8 b0 → in_u 8 b1 → in_u 8 b2 →
  let t := triple b0 b1 b2 in
  0 ≤ t < 2 ^ 24 ∧ Z.land (Z.shiftr t 16) 0xFF = b0 ∧ Z.land (Z.shiftr t 8) 0xFF = b1 ∧ Z.land t 0xFF = b2.
Proof.
  intros H0 H1 H2. simpl. rewrite triple_add by done. unfold in_u in *. rewrite !land_255, !Z.shiftr_div_pow2 by lia.
  change (2 ^ 8) with 256 in *. change (2 ^ 16) with 65536. change (2 ^ 24) with 16777216.
  split_and!; Z.to_euclidean_division_equations; lia.
Qed.
Lemma add4_mod n : (S (S (S (S n))) mod 4 = n mod 4)%nat.
Proof. replace (S (S (S (S n)))) with (n + 1 * 4)%nat by lia. apply Nat.Div0.mod_add. Qed.
(** What [base64_encode] writes decodes, and has neither space nor dash. *)
Lemma base64_encode_spec data : decode_chunks (base64_encode data) = Some data ∧
  (String.length (base64_encode data) mod 4 = 0)%nat ∧ without_space (base64_encode data) = base64_encode data ∧
  avoids "-" (base64_encode data) = true.
Proof.
  remember (String.length data) as n eqn:Hn. revert data Hn. induction (lt_wf n) as [n _ IH]. intros data ->.
  destruct data as [|b0 [|b1 [|b2 rest]]]; [done| | |].
  all: cbn [base64_encode]; set (t := triple _ _ _).
  all: pose proof (b64_char_ok _ (sextet_range t 18)) as (H18 & _ & S18 & D18).
  all: pose proof (b64_char_ok _ (sextet_range t 12)) as (H12 & _ & S12 & D12).
  all: unfold avoids; cbn [decode_chunks without_space String.length str_all].
  - assert (sextet t 6 = 0 ∧ sextet t 0 = 0) as [E6 E0].
    { pose proof (byte_range b0). subst t. rewrite triple_add by done.
      split; apply sextet_0; try lia; unfold in_u in *; Z.to_euclidean_division_equations; lia. }
    pose proof (triple_bytes (byte b0) 0 0 (byte_range b0) ltac:(done) ltac:(done)) as (Ht & Hb & _ & _). fold t in Ht, Hb.
    pose proof (sextets_triple t Ht) as Hs. rewrite E6, E0 in Hs.
    split_and!; [|done|by rewrite S18, S12|by rewrite !bool_decide_eq_false_2].
    rewrite H18, H12. simpl. change (pad_or_val "=") with (Some 0). simpl. by rewrite Hs, Hb, of_byte_byte.
  - assert (sextet t 0 = 0) as E0.
    { pose proof (byte_range b0). pose proof (byte_range b1). subst t. rewrite triple_add by done.
      apply sextet_0; [lia|]. unfold in_u in *. Z.to_euclidean_division_equations; lia. }
    pose proof (triple_bytes (byte b0) (byte b1) 0 (byte_range b0) (byte_range b1) ltac:(done)) as (Ht & Hb & Hb1 & _).
    fold t in Ht, Hb, Hb1. pose proof (sextets_triple t Ht) as Hs. rewrite E0 in Hs.
    pose proof (b64_char_ok _ (sextet_range t 6)) as (H6 & N6 & S6 & D6).
    split_and!; [|done|by rewrite S18, S12, S6|by rewrite !bool_decide_eq_false_2].
    rewrite H18, H12, (pad_b64 _ (sextet_range t 6)). simpl. change (pad_or_val "=") with (Some 0). simpl.
    rewrite Hs, Hb, Hb1, !of_byte_byte. by rewrite bool_decide_eq_false_2.
  - pose proof (triple_bytes (byte b0) (byte b1) (byte b2) (byte_range b0) (byte_range b1) (byte_range b2)) as (Ht & Hb & Hb1 & Hb2).
    fold t in Ht, Hb, Hb1, Hb2. pose proof (sextets_triple t Ht) as Hs.
    pose proof (b64_char_ok _ (sextet_range t 6)) as (H6 & N6 & S6 & D6).
    pose proof (b64_char_ok _ (sextet_range t 0)) as (H0 & N0 & S0 & D0).
    destruct (IH (String.length rest) ltac:(simpl; lia) rest eq_refl) as (I1 & I2 & I3 & I4). unfold avoids in I4.
    split_and!; [|by rewrite add4_mod|by rewrite S18, S12, S6, S0, I3|by rewrite !bool_decide_eq_false_2, I4].
    rewrite H18, H12, (pad_b64 _ (sextet_range t 6)), (pad_b64 _ (sextet_range t 0)). simpl.
    rewrite Hs, Hb, Hb1, Hb2, !of_byte_byte, !bool_decide_eq_false_2, I1 by done. done.
Qed.
(** The base64 codec loses nothing: whatever bytes are encoded are decoded again. *)
Theorem base64_roundtrip data : base64_decode (base64_encode data) = Some data.
Proof.
  destruct (base64_encode_spec data) as (Hd & Hl & Hs & _). unfold base64_decode. by rewrite Hs, Hl.
Qed.

(** ** PEM *)

(** [chunks(64)]: as many rounds as there are characters are enough *)
Fixpoint pem_lines (fuel : nat) (b64 : string) : string :=
  match fuel, b64 with
  | S fuel, String _ _ => str_take 64 b64 +:+ String newline (pem_lines fuel (str_drop 64 b64))
  | _, _ => ""
  end.
Definition begin_marker (label : string) : string := "-----BEGIN " +:+ label +:+ "-----".
Definition end_marker (label : string) : string := "-----END " +:+ label +:+ "-----".
(** [pem_encode] *)
Definition pem_encode (der label : string) : string :=
  let b64 := base64_encode der in
  begin_marker label +:+ String newline (pem_lines (String.length b64) b64) +:+ end_marker label +:+ String newline "".
(** [str::find] *)
Fixpoint str_find (pat s : string) : option nat :=
  if String.prefix pat s then Some 0%nat
  else match s with EmptyString => None | String _ r => S <$> str_find pat r end.
(** [replace(['\n', '\r'], "")] *)
Fixpoint without_breaks (s : string) : string :=
  match s with
  | EmptyString => ""
  | String c r => if bool_decide (c = newline ∨ c = ascii_of_nat 13) then without_breaks r else String c (without_breaks r)
  end.
(** [pem_decode]: the inner option is the answer; a slice that ends before it starts
    panics. *)
Definition pem_decode (pem expected_label : string) : option (option string) :=
  match str_find (begin_marker expected_label) pem with
  | None => Some None
  | Some i =>
      let start := (i + String.length (begin_marker expected_label))%nat in
      match str_find (end_marker expected_label) pem with
      | None => Some None
      | Some stop =>
          if (start <=? stop)%nat
          then Some (base64_decode (without_breaks (trim (str_take (stop - start) (str_drop start pem)))))
          else None
      end
  end.

(** Dropping white space forgets trimming and line breaks. *)
Lemma without_space_app a b : without_space (a +:+ b) = without_space a +:+ without_space b.
Proof.
  induction a as [|c a IH]; [done|]. rewrite str_app_cons. cbn [without_space]. rewrite IH. by destruct (Ascii.is_space c).
Qed.
Lemma without_space_trim_start s : without_space (trim_start s) = without_space s.
Proof. induction s as [|c s IH]; [done|]. simpl. destruct (Ascii.is_space c) eqn:E; [done|]. simpl. by rewrite E. Qed.
Lemma rev_app_spec s t : String.rev_app s t = String.rev s +:+ t.
Proof.
  unfold String.rev. revert t. induction s as [|c s IH]; intros t; [done|]. simpl. rewrite IH, (IH (String c "")).
  by rewrite str_app_assoc.
Qed.
Lemma rev_cons c s : String.rev (String c s) = String.rev s +:+ String c "".
Proof. apply (rev_app_spec s). Qed.
Lemma rev_rev s : String.rev (String.rev s) = s.
Proof.
  assert (∀ a b, String.rev (a +:+ b) = String.rev b +:+ String.rev a) as H.
  { intros a b. induction a as [|c a IH]; [by rewrite str_app_nil_r|].
    rewrite str_app_cons, !rev_cons, IH. by rewrite str_app_assoc. }
  induction s as [|c s IH]; [done|]. by rewrite rev_cons, H, IH.
Qed.
Lemma without_space_rev s : without_space (String.rev s) = String.rev (without_space s).
Proof.
  induction s as [|c s IH]; [done|]. rewrite rev_cons, without_space_app, IH. cbn [without_space].
  destruct (Ascii.is_space c); [by rewrite str_app_nil_r|]. by rewrite rev_cons.
Qed.
Lemma without_space_trim s : without_space (trim s) = without_space s.
Proof. unfold trim. by rewrite without_space_rev, without_space_trim_start, without_space_rev, rev_rev, without_space_trim_start. Qed.
Lemma without_space_breaks s : without_space (without_breaks s) = without_space s.
Proof.
  induction s as [|c s IH]; [done|]. cbn [without_breaks without_space]. case_bool_decide as H; cbn [without_space]; rewrite IH; [|done].
  by destruct H as [-> | ->].
Qed.
(** The lines of a text without spaces or dashes *)
Lemma pem_lines_spec fuel b64 :
  (String.length b64 ≤ fuel)%nat → avoids "-" b64 = true →
  without_space (pem_lines fuel b64) = without_space b64 ∧ avoids "-" (pem_lines fuel b64) = true.
Proof.
  revert b64. induction fuel as [|fuel IH]; intros b64 Hl Ha; destruct b64 as [|c b]; simpl in Hl; try lia; try done.
  cbn [pem_lines]. set (s := String c b) in *. rewrite <-(str_take_drop 64 s) in Ha. unfold avoids in *.
  rewrite str_all_app, andb_true_iff in Ha. destruct Ha as [Ha Hd].
  destruct (IH (str_drop 64 s)) as [H1 H2]; [|done|].
  { assert (String.length (str_drop 64 s) < String.length s)%nat; [|subst s; simpl in *; lia].
    assert (∀ n t, String.length (str_drop n t) ≤ String.length t)%nat as Hdl.
    { induction n as [|n IHn]; intros [|x t]; simpl; try lia. specialize (IHn t). lia. }
    subst s. specialize (Hdl 63%nat b). simpl in *. lia. }
  split.
  - rewrite without_space_app. cbn [without_space]. change (Ascii.is_space newline) with true. cbn iota.
    by rewrite H1, <-without_space_app, str_take_drop.
  - rewrite str_all_app, Ha. exact H2.
Qed.
Lemma str_find_skip pat a s :
  avoids "-" a = true → str_find (String "-" pat) (a +:+ s) = (λ i, (String.length a + i)%nat) <$> str_find (String "-" pat) s.
Proof.
  unfold avoids. induction a as [|c a IH]; intros Ha; simpl in Ha.
  { change ("" +:+ s) with s. by destruct (str_find _ s). }
  apply andb_true_iff in Ha as [Hc Ha]. apply negb_true_iff, bool_decide_eq_false in Hc.
  rewrite str_app_cons. cbn [str_find String.prefix String.length]. destruct (ascii_dec "-" c); [congruence|].
  rewrite IH by done. by destruct (str_find _ s).
Qed.
Lemma str_find_step pat c r :
  String.prefix pat (String c r) = false → str_find pat (String c r) = S <$> str_find pat r.
Proof. intros H. cbn [str_find]. by rewrite H. Qed.
Lemma str_find_header x :
  str_find (end_marker "CERTIFICATE") (begin_marker "CERTIFICATE" +:+ String newline x) =
  (λ i, 28 + i)%nat <$> str_find (end_marker "CERTIFICATE") x.
Proof.
  change (begin_marker "CERTIFICATE") with "-----BEGIN CERTIFICATE-----". rewrite !str_app_cons.
  change ("" +:+ String newline x) with (String newline x). do 28 (rewrite str_find_step by reflexivity). by destruct (str_find _ x).
Qed.
(** C32. A certificate survives PEM: what is encoded under the label CERTIFICATE decodes to
    the same bytes. *)
Theorem pem_roundtrip der : pem_decode (pem_encode der "CERTIFICATE") "CERTIFICATE" = Some (Some der).
Proof.
  destruct (base64_encode_spec der) as (_ & _ & Hs & Hd).
  destruct (pem_lines_spec _ (base64_encode der) (le_n _) Hd) as [Hl Ha].
  unfold pem_decode, pem_encode. set (lines := pem_lines _ _) in *.
  set (END := end_marker "CERTIFICATE" +:+ String newline "").
  assert (str_find (begin_marker "CERTIFICATE") (begin_marker "CERTIFICATE" +:+ String newline lines +:+ END) = Some 0%nat) as -> by done.
  assert (str_find (end_marker "CERTIFICATE") (begin_marker "CERTIFICATE" +:+ String newline lines +:+ END)
    = Some (28 + String.length lines)%nat) as ->.
  { transitivity ((λ i, 28 + i)%nat <$> str_find (end_marker "CERTIFICATE") (lines +:+ END)).
    - apply str_find_header.
    - change (end_marker "CERTIFICATE") with (String "-" "----END CERTIFICATE-----") at 1.
      rewrite str_find_skip by done.
      assert (str_find (String "-" "----END CERTIFICATE-----") END = Some 0%nat) as -> by reflexivity.
      simpl. do 2 f_equal. lia. }
  change (0 + String.length (begin_marker "CERTIFICATE"))%nat with 27%nat.
  replace (27 <=? 28 + String.length lines)%nat with true by (symmetry; apply Nat.leb_le; lia).
  replace (28 + String.length lines - 27)%nat with (S (String.length lines)) by lia.
  change (str_drop 27 (begin_marker "CERTIFICATE" +:+ String newline lines +:+ END)) with (String newline (lines +:+ END)).
  cbn [str_take]. rewrite str_take_app. do 2 f_equal. unfold base64_decode.
  rewrite without_space_breaks, without_space_trim. cbn [without_space]. change (Ascii.is_space newline) with true. cbn iota.
  rewrite Hl, Hs. pose proof (base64_roundtrip der) as H. unfold base64_decode in H. rewrite Hs in H. by rewrite H.
Qed.
(** A file whose end marker comes first makes the decoder panic. *)
Example pem_panics : pem_decode "-----END CERTIFICATE----------BEGIN CERTIFICATE-----" "CERTIFICATE" = None.
Proof. vm_compute. done. Qed.
(** Padding is accepted anywhere, and an escaped last character need not be canonical. *)
Example base64_lenient : base64_decode "QQ==QQ==" = Some "AA" ∧ base64_decode "QR==" = Some "A" ∧ base64_decode "Q===" = None.
Proof. vm_compute. done. Qed.

(** ** Versions *)

(** [TlsVersion], its derived order, [Display] and [FromStr] *)
Inductive TlsVersion := Tls1_0 | Tls1_1 | Tls1_2 | Tls1_3.
Definition version_rank (v : TlsVersion) : Z := match v with Tls1_0 => 0 | Tls1_1 => 1 | Tls1_2 => 2 | Tls1_3 => 3 end.
Definition version_display (v : TlsVersion) : string :=
  match v with Tls1_0 => "TLSv1.0" | Tls1_1 => "TLSv1.1" | Tls1_2 => "TLSv1.2" | Tls1_3 => "TLSv1.3" end.
Definition version_from_str (s : string) : option TlsVersion :=
  let l := to_lowercase s in
  let one_of v := bool_decide (l ∈ ["tlsv" +:+ v; "tls" +:+ v; v]) in
  if one_of "1.0" then Some Tls1_0 else if one_of "1.1" then Some Tls1_1 else if one_of "1.2" then Some Tls1_2
  else if one_of "1.3" then Some Tls1_3 else None.
Lemma version_roundtrip v : version_from_str (version_display v) = Some v.
Proof. by destruct v. Qed.

(** ** Certificates and the shim *)

(** [CertInfo], [CertValidation] *)
Record CertInfo := mkCert {
  ci_domain : string;
  issuer : string;
  not_before : string;
  not_after : string;
  serial : string;
  fingerprint : string;
  days_until_expiry : Z;
  cert_pem : option string;
  key_pem : option string
}.
Record CertValidation := mkValidation { valid : bool; errors : list string; warnings : list string }.
(** [TlsShim] with its [TlsState]; the sender of the shutdown signal is left out.  The
    last group of fields is read from the environment and never used. *)
Record TlsShim := mkTlsShim {
  provider : string;
  domain : string;
  email : string;
  renew_before_secs : Z;
  data_dir : string;
  min_version : TlsVersion;
  vault_addr : string;
  vault_role : string;
  vault_token : option string;
  certs_renewed : Z;
  certs_failed : Z;
  last_renewal : option Z;
  managed_certs : gmap string CertInfo;
  unused : option string * option string * string
}.
#[export] Instance TlsShim_settable : Settable TlsShim := λ s,
  mkTlsShim (provider s) (domain s) (email s) (renew_before_secs s) (data_dir s) (min_version s) (vault_addr s)
    (vault_role s) (vault_token s) (certs_renewed s) (certs_failed s) (last_renewal s) (managed_certs s) (unused s).
Definition new_tls (env : environment) : TlsShim :=
  {| provider := env_or env "TLS_PROVIDER" "letsencrypt"; domain := env_or env "TLS_DOMAIN" "";
     email := env_or env "TLS_EMAIL" ""; renew_before_secs := env_parse env "TLS_RENEW_BEFORE" parse_u64 259200;
     data_dir := env_or env "TLS_DATA_DIR" "/etc/tls";
     min_version := env_parse env "TLS_MIN_VERSION" version_from_str Tls1_2;
     vault_addr := env_or env "TLS_VAULT_ADDR" "https://127.0.0.1:8200";
     vault_role := env_or env "TLS_VAULT_ROLE" "pki"; vault_token := env !! "TLS_VAULT_TOKEN";
     certs_renewed := 0; certs_failed := 0; last_renewal := None; managed_certs := ∅;
     unused := (env !! "TLS_CERT_FILE", env !! "TLS_KEY_FILE", env_or env "TLS_LISTEN" ":80") |}.

(** [needs_renewal], with the threshold in days *)
Definition renew_before_days (secs : Z) : Z := Z.quot (as_i64 secs) 86400.
Definition needs_renewal (s : TlsShim) (c : CertInfo) : bool := days_until_expiry c <? renew_before_days (renew_before_secs s).
(** [validate_cert]; [None] when the decoder panics *)
Definition note (bad : bool) (m : string) : list string := if bad then [m] else [].
Definition validate_cert (c : CertInfo) : option CertValidation :=
  let errs :=
    note (bool_decide (ci_domain c = "")) "Domain is empty" ++ note (bool_decide (issuer c = "")) "Issuer is empty" ++
    note (bool_decide (not_after c = "")) "Not-after date is empty" ++
    note (bool_decide (fingerprint c = "")) "Fingerprint is empty" ++
    note (days_until_expiry c <? 0) "Certificate has expired" in
  let warns :=
    note (days_until_expiry c <? 7) "Certificate expires in less than 7 days" ++
    note (days_until_expiry c <? 30) "Certificate expires in less than 30 days" in
  bad_pem ← match cert_pem c with
            | Some pem => (λ d, bool_decide (d = None)) <$> pem_decode pem "CERTIFICATE"
            | None => Some false
            end;
  let errs := errs ++ note bad_pem "Invalid certificate PEM" in
  Some (mkValidation (bool_decide (errs = [])) errs warns).
(** [register_cert], [get_cert], [remove_cert], [expiring_soon], [version_allowed],
    [cert_count] and [get_metrics] *)
Definition register_cert (c : CertInfo) (s : TlsShim) : TlsShim := s <| managed_certs ::= <[ci_domain c := c]> |>.
Definition get_cert (d : string) (s : TlsShim) : option CertInfo := managed_certs s !! d.
Definition remove_cert (d : string) (s : TlsShim) : bool * TlsShim :=
  (bool_decide (is_Some (managed_certs s !! d)), s <| managed_certs ::= delete d |>).
Definition expiring_soon `{HashOrder} (days_threshold : Z) (s : TlsShim) : list string :=
  (λ kv, kv.1 +:+ " (" +:+ pretty_i64 (days_until_expiry kv.2) +:+ "d)") <$>
  filter (λ kv, days_until_expiry kv.2 ≤ days_threshold) (hash_iter (managed_certs s)).
Definition version_allowed (v : TlsVersion) (s : TlsShim) : bool := version_rank (min_version s) <=? version_rank v.
Definition cert_count (s : TlsShim) : nat := size (managed_certs s).
Definition get_metrics (s : TlsShim) : Z * Z * nat * option Z :=
  (certs_renewed s, certs_failed s, cert_count s, last_renewal s).
(** [init]; the arguments of the validation are those of [Config.validate]. *)
Definition init (path_exists : string → bool) (cron_error https_error : string → option string)
    (env : environment) (c : Config) (s : TlsShim) : result string unit * TlsShim :=
  let mine := filter (λ e, starts_with (field e) "tls." = true) (validate path_exists cron_error https_error c) in
  if validation_enabled env && negb (bool_decide (mine = []))
  then (Err ("tls config validation failed: " +:+ String.concat "; " (error_display <$> mine)), s)
  else (Ok tt, match tls c with
               | Some t => s <| provider := Config.provider t |> <| domain := Config.domain t |>
                             <| email := Config.email t |> <| renew_before_secs := Config.renew_before_secs t |>
               | None => s
               end).

(** ** The disk and the providers *)

Record Disk := mkDisk { files : gmap string string; dir_error : option string; write_error : string → option string }.
Definition cert_path (s : TlsShim) : string := path_join (data_dir s) (domain s +:+ ".pem").
Definition key_path (s : TlsShim) : string := path_join (data_dir s) (domain s +:+ ".key").
Definition write_file (p content : string) (d : Disk) : result string unit * Disk :=
  match write_error d p with
  | Some e => (Err e, d)
  | None => (Ok tt, mkDisk (<[p := content]> (files d)) (dir_error d) (write_error d))
  end.
(** [save_cert_to_disk] *)
Definition save_cert_to_disk (cert key : string) (s : TlsShim) (d : Disk) : result string unit * Disk :=
  match dir_error d with
  | Some e => (Err e, d)
  | None =>
      match write_file (cert_path s) cert d with
      | (Err e, d) => (Err e, d)
      | (Ok _, d) => write_file (key_path s) key d
      end
  end.

(** What a call comes to: an answer, a panic, or nothing so far *)
Inductive answer (A : Type) := Answered (r : result string A) | Panics | Waits.
Global Arguments Answered {A} r.
Global Arguments Panics {A}.
Global Arguments Waits {A}.
Definition after {A B} (a : answer A) (k : A → answer B) : answer B :=
  match a with Answered (Ok x) => k x | Answered (Err e) => Answered (Err e) | Panics => Panics | Waits => Waits end.
Definition asked {A} (r : result string A) : answer A := Answered r.

(** Vault's reply: no client, no connection, a status that is no success, a body that
    is no JSON, or the two fields of its data *)
Inductive VaultReply :=
| NoClient (e : string)
| Unreachable (e : string)
| Refused (status body : string)
| BadJson (e : string)
| Issued (certificate private_key : option string).
(** The ACME client: its answers in the order of the calls.  [confirmed] is what
    [confirm_validations] says of the order: the crate documents that it looks at the
    order as last refreshed, and the code never refreshes it.  A round of the loop gets
    the authorizations, each with its HTTP challenge, if any: the proof and the answer
    of the validation. *)
Record AcmeClient := mkAcme {
  account_key : result string string;
  write_account_key : result string unit;
  order : result string unit;
  confirmed : bool;
  rounds : list (result string (list (option (result string string * result string unit))));
  finalized : result string (string * string)
}.
Record Outside := mkOutside {
  generate : string → result string (string * string);
  vault_post : string → string → string → VaultReply;
  acme : string → bool → AcmeClient
}.
(** The loop over the challenges *)
Fixpoint acme_validations (ok : bool) (rs : list (result string (list (option (result string string * result string unit)))))
    : answer unit :=
  if ok then Answered (Ok tt)
  else match rs with
       | [] => Waits
       | Err e :: _ => Answered (Err e)
       | Ok [] :: _ => Panics
       | Ok (None :: _) :: _ => Answered (Err "No HTTP-01 challenge available")
       | Ok (Some (proof, validated) :: _) :: rs =>
           after (asked proof) (λ _, after (asked validated) (λ _, acme_validations ok rs))
       end.
Definition saved (s : TlsShim) (d : Disk) (a : answer (string * string)) : answer (string * string) * Disk :=
  match a with
  | Answered (Ok (cert, key)) =>
      let '(r, d) := save_cert_to_disk cert key s d in
      (after (asked r) (λ _, Answered (Ok (cert, key))), d)
  | _ => (a, d)
  end.
(** [generate_internal_ca_cert], [request_vault_cert], [obtain_letsencrypt_cert] *)
Definition generate_internal_ca_cert (out : Outside) (s : TlsShim) (d : Disk) : answer (string * string) * Disk :=
  saved s d (asked (generate out (domain s))).
Definition vault_pki_url (s : TlsShim) : string :=
  trim_end_matches "/" (vault_addr s) +:+ "/v1/pki/issue/" +:+ vault_role s.
Definition vault_answer (r : VaultReply) : result string (string * string) :=
  match r with
  | NoClient e => Err e
  | Unreachable e => Err ("Vault request failed: " +:+ e)
  | Refused status body => Err ("Vault PKI returned " +:+ status +:+ ": " +:+ body)
  | BadJson e => Err ("Failed to parse Vault response: " +:+ e)
  | Issued None _ => Err "No certificate in Vault response"
  | Issued (Some _) None => Err "No private key in Vault response"
  | Issued (Some c) (Some k) => Ok (c, k)
  end.
Definition request_vault_cert (out : Outside) (s : TlsShim) (d : Disk) : answer (string * string) * Disk :=
  match vault_token s with
  | None => (Answered (Err "TLS_VAULT_TOKEN required for vault-pki provider"), d)
  | Some token => saved s d (asked (vault_answer (vault_post out (vault_pki_url s) token (domain s))))
  end.
Definition obtain_letsencrypt_cert (out : Outside) (env : environment) (s : TlsShim) (d : Disk)
    : answer (string * string) * Disk :=
  if bool_decide (domain s = "") then (Answered (Err "Domain required for Let's Encrypt"), d)
  else if bool_decide (email s = "") then (Answered (Err "Email required for Let's Encrypt"), d)
  else
    let a := acme out (domain s) (env_true env "TLS_LETSENCRYPT_PROD") in
    saved s d
      (after (asked (account_key a)) (λ _, after (asked (write_account_key a)) (λ _, after (asked (order a)) (λ _,
         after (acme_validations (confirmed a) (rounds a)) (λ _, asked (finalized a)))))).

(** ** Loading, renewing, starting *)

Section tls.
Context `{CH : Chrono} `{RF : Rfc3339} (sha256 : string → string) (out : Outside) (env : environment).
Implicit Types (s : TlsShim) (d : Disk).

(** [{:02X}] of the bytes *)
Definition upper_hex_digit (n : Z) : ascii := of_byte (if n <? 10 then 48 + n else 55 + n).
Definition upper_hex (c : ascii) : string :=
  String (upper_hex_digit (byte c / 16)) (String (upper_hex_digit (byte c mod 16)) "").
(** [compute_fingerprint] and [extract_serial], which hashes the certificate *)
Definition compute_fingerprint (pem : string) : option string :=
  der ← pem_decode pem "CERTIFICATE";
  Some (String.concat ":" (upper_hex <$> String.list_ascii_of_string (sha256 (default "" der)))).
Definition extract_serial (pem : string) : option string :=
  der ← pem_decode pem "CERTIFICATE";
  Some (String.concat "" (upper_hex <$> String.list_ascii_of_string (str_take 16 (sha256 (default "" der))))).
(** [not_after_from_cert] does not look at the certificate. *)
Definition not_after_from_cert (pem : string) (now : Z) : option Z := plus_seconds now (365 * 86400).
Definition num_days_between (a b : Z) : Z := Z.quot (a - b) (86400 * 10 ^ 9).
(** The record both the load and the renewal make; [clk] are the readings of the clock. *)
Definition make_cert (dom iss cert key : string) (clk : nat → Z) : option CertInfo :=
  fp ← compute_fingerprint cert;
  sn ← extract_serial cert;
  na ← not_after_from_cert cert (clk 0%nat);
  let days := num_days_between na (clk 1%nat) in
  nb ← plus_seconds (clk 2%nat) (- ((365 - days) * 86400));
  Some (mkCert dom iss (to_rfc3339 nb) (to_rfc3339 na) sn fp days (Some cert) (Some key)).
(** [load_cert_from_disk]: the outer option is a panic *)
Definition load_cert_from_disk (clk : nat → Z) s d : option (option CertInfo) :=
  match files d !! cert_path s, files d !! key_path s with
  | Some cert, Some key => Some <$> make_cert (domain s) "loaded from disk" cert key clk
  | _, _ => Some None
  end.
Definition issuer_of s : string :=
  if bool_decide (provider s = "letsencrypt") then "Let's Encrypt"
  else if bool_decide (provider s = "internal-ca") then "Internal CA (self-signed)"
  else if bool_decide (provider s = "vault-pki") then "Vault PKI (" +:+ vault_role s +:+ ")"
  else "Unknown".
(** [renew_certificate_async] *)
Definition obtain s d : answer (string * string) * Disk :=
  if bool_decide (provider s = "internal-ca") then generate_internal_ca_cert out s d
  else if bool_decide (provider s = "letsencrypt") then obtain_letsencrypt_cert out env s d
  else if bool_decide (provider s = "vault-pki") then request_vault_cert out s d
  else (Answered (Err ("Unknown TLS provider: " +:+ provider s)), d).
Definition renew_certificate_async (clk : nat → Z) s d : answer unit * TlsShim * Disk :=
  match obtain s d with
  | (Answered (Ok (cert, key)), d) =>
      match make_cert (domain s) (issuer_of s) cert key clk with
      | None => (Panics, s, d)
      | Some c =>
          (Answered (Ok tt),
           register_cert c s <| certs_renewed ::= λ n, add64 n 1 |> <| last_renewal := Some (clk 3%nat) |>, d)
      end
  | (Answered (Err e), d) => (Answered (Err e), s, d)
  | (Panics, d) => (Panics, s, d)
  | (Waits, d) => (Waits, s, d)
  end.
(** [start] up to the spawn of its loop: the renewal reads the clock after the load. *)
Definition renew_logged (clk : nat → Z) s d : answer unit * TlsShim * Disk :=
  let '(a, s, d) := renew_certificate_async clk s d in
  match a with
  | Answered (Err _) => (Answered (Ok tt), s <| certs_failed ::= λ n, add64 n 1 |>, d)
  | _ => (a, s, d)
  end.
Definition start (clk : nat → Z) s d : answer unit * TlsShim * Disk :=
  if bool_decide (domain s = "") then (Answered (Ok tt), s, d)
  else match load_cert_from_disk clk s d with
       | None => (Panics, s, d)
       | Some (Some c) =>
           let s := register_cert c s in
           if needs_renewal s c then renew_logged (λ n, clk (3 + n)%nat) s d else (Answered (Ok tt), s, d)
       | Some None => renew_logged clk s d
       end.
(** The daily check: what it finds is logged, and nothing else is done. *)
Definition should_renew (dom : string) (secs : Z) s : bool :=
  match managed_certs s !! dom with Some c => days_until_expiry c <? renew_before_days secs | None => false end.
Definition tls_metrics s : list (string * Z) :=
  [("tls_certs_renewed_total", certs_renewed s); ("tls_certs_failed_total", certs_failed s);
   ("tls_managed_certs", Z.of_nat (cert_count s))] ++
  match last_renewal s with Some t => [("tls_last_renewal_timestamp", t / 10 ^ 9)] | None => [] end.

(** A certificate's expiry is made up: 365 days from the moment it is read *)
Lemma make_cert_days dom iss cert key clk c :
  make_cert dom iss cert key clk = Some c → clk 0%nat ≤ clk 1%nat < clk 0%nat + 86400 * 10 ^ 9 →
  days_until_expiry c = (if clk 0%nat =? clk 1%nat then 365 else 364) ∧
  ci_domain c = dom ∧ cert_pem c = Some cert ∧ key_pem c = Some key.
Proof.
  unfold make_cert, not_after_from_cert. destruct (compute_fingerprint cert) as [fp|]; [|done]. simpl.
  destruct (extract_serial cert) as [sn|]; [|done]. simpl.
  destruct (plus_seconds (clk 0%nat) _) as [na|] eqn:Ena; [|done]. apply plus_seconds_ok in Ena as ->. simpl.
  intros H Hclk. apply bind_Some in H as (nb & _ & [= <-]). simpl. split_and!; [|done..]. unfold num_days_between.
  change (365 * 86400 * 10 ^ 9) with 31536000000000000. change (86400 * 10 ^ 9) with 86400000000000 in *.
  rewrite Z.quot_div_nonneg by lia. destruct (Z.eqb_spec (clk 0%nat) (clk 1%nat)) as [E|E];
    Z.to_euclidean_division_equations; lia.
Qed.

(** A certificate that is on the disk when the shim starts is never renewed, whatever
    it is and however old: its expiry is taken to be a year from the start, so with any
    threshold of at most 364 days [start] does not renew it, and the daily check, which
    compares the number of days stored then, never finds it due. *)
Theorem certificate_never_renewed clk s d cert key a s' d' :
  domain s ≠ "" → files d !! cert_path s = Some cert → files d !! key_path s = Some key →
  clk 0%nat ≤ clk 1%nat < clk 0%nat + 86400 * 10 ^ 9 → renew_before_days (renew_before_secs s) ≤ 364 →
  start clk s d = (a, s', d') → a ≠ Panics →
  d' = d ∧ a = Answered (Ok tt) ∧ certs_renewed s' = certs_renewed s ∧
  cert_pem <$> managed_certs s' !! domain s = Some (Some cert) ∧
  should_renew (domain s) (renew_before_secs s) s' = false.
Proof.
  intros Hdom Hc Hk Hclk Hdays Hs Ha. unfold start in Hs. rewrite bool_decide_eq_false_2 in Hs by done.
  unfold load_cert_from_disk in Hs. rewrite Hc, Hk in Hs.
  destruct (make_cert (domain s) _ cert key clk) as [c|] eqn:Em; [|simpl in Hs; congruence]. simpl in Hs.
  apply make_cert_days in Em as (Hd & Hcd & Hp & _); [|done].
  assert (renew_before_days (renew_before_secs s) ≤ days_until_expiry c) as Hge.
  { rewrite Hd. destruct (clk 0%nat =? clk 1%nat); lia. }
  unfold needs_renewal in Hs. simpl in Hs. rewrite (proj2 (Z.ltb_ge _ _) Hge) in Hs. simplify_eq.
  split_and!; [done|done|done|..]; unfold should_renew; simpl; rewrite Hcd, lookup_insert_eq; [by rewrite <-Hp|].
  simpl. by apply Z.ltb_ge.
Qed.

(** A renewal that succeeds leaves the pair it got on the disk, in the table and in
    the next load. *)
Lemma saved_inv s d a cert key d' :
  saved s d a = (Answered (Ok (cert, key)), d') →
  a = Answered (Ok (cert, key)) ∧ files d' = <[key_path s := key]> (<[cert_path s := cert]> (files d)).
Proof.
  unfold saved. destruct a as [[[c k]|e]| |]; [|done..]. unfold save_cert_to_disk, write_file.
  destruct (dir_error d); [done|]. destruct (write_error d _); [done|]. simpl. destruct (write_error d _); [done|].
  simpl. by intros [= -> -> <-].
Qed.
Lemma obtain_saves s d cert key d' :
  obtain s d = (Answered (Ok (cert, key)), d') →
  files d' = <[key_path s := key]> (<[cert_path s := cert]> (files d)).
Proof.
  unfold obtain, generate_internal_ca_cert, obtain_letsencrypt_cert, request_vault_cert. intros H.
  assert (∀ a, saved s d a = (Answered (Ok (cert, key)), d') → files d' = <[key_path s := key]> (<[cert_path s := cert]> (files d)))
    as Hs by (intros a Ha; by apply saved_inv in Ha as [_ ?]).
  destruct (bool_decide (provider s = "internal-ca")); [by eapply Hs|].
  destruct (bool_decide (provider s = "letsencrypt")).
  - destruct (bool_decide (domain s = "")); [done|]. destruct (bool_decide (email s = "")); [done|]. by eapply Hs.
  - destruct (bool_decide (provider s = "vault-pki")); [|done]. destruct (vault_token s); [by eapply Hs|done].
Qed.
Theorem renew_then_load clk clk' s d s' d' c :
  renew_certificate_async clk s d = (Answered (Ok tt), s', d') →
  load_cert_from_disk clk' s' d' = Some c →
  certs_renewed s' = add64 (certs_renewed s) 1 ∧
  ∃ c1 c2, managed_certs s' !! domain s = Some c1 ∧ c = Some c2 ∧ cert_pem c1 = cert_pem c2 ∧ key_pem c1 = key_pem c2 ∧
    fingerprint c1 = fingerprint c2 ∧ serial c1 = serial c2.
Proof.
  unfold renew_certificate_async. destruct (obtain s d) as [[[[cert key]|e]| |] d1] eqn:Eo; [|done..].
  apply obtain_saves in Eo. destruct (make_cert _ _ _ _ _) as [c1|] eqn:E1; [|done]. intros [= <- <-].
  assert (cert_path s ≠ key_path s) as Hne.
  { unfold cert_path, key_path, path_join. case_match; intros E; [|rewrite <-!(str_app_assoc) in E]; apply str_app_inj_l in E;
      repeat (apply str_app_inj_l in E); discriminate. }
  unfold load_cert_from_disk, cert_path, key_path. simpl. fold (cert_path s) (key_path s). rewrite Eo.
  rewrite lookup_insert_ne by done. rewrite !lookup_insert_eq. intros Hl.
  destruct (make_cert _ "loaded from disk" _ _ _) as [c2|] eqn:E2; [|done]. simplify_eq/=. split; [done|].
  unfold make_cert in E1, E2. repeat (apply bind_Some in E1 as (? & ? & E1)). repeat (apply bind_Some in E2 as (? & ? & E2)).
  simplify_eq/=. eexists _, _. rewrite lookup_insert_eq. split_and!; [done|done|done|done|..]; simpl; congruence.
Qed.

(** An order that is not valid when it is made is never found valid: the loop over the
    challenges does not end with success, however they are answered. *)
Theorem letsencrypt_waits clk s d :
  provider s = "letsencrypt" → (∀ dom prod, confirmed (acme out dom prod) = false) →
  (renew_certificate_async clk s d).1.1 ≠ Answered (Ok tt) ∧ (renew_certificate_async clk s d).1.2 = s ∧
  (renew_certificate_async clk s d).2 = d.
Proof.
  intros Hp Hc. assert (∀ rs x, acme_validations false rs ≠ Answered (Ok x)) as Hv.
  { induction rs as [|r rs IH]; intros x; [done|]. simpl. destruct r as [[|[[proof vd]|] l]|e]; try done.
    destruct proof; [|done]. simpl. destruct vd; [|done]. apply IH. }
  assert (∀ p d', obtain s d ≠ (Answered (Ok p), d') ∧ (obtain s d).2 = d) as Ho.
  { intros p d'. unfold obtain. rewrite Hp. simpl. unfold obtain_letsencrypt_cert.
    case_bool_decide; [done|]. case_bool_decide; [done|]. set (a := acme out _ _). pose proof (Hc (domain s) (env_true env "TLS_LETSENCRYPT_PROD")) as Ha.
    fold a in Ha. rewrite Ha. destruct (account_key a); simpl; [|done]. destruct (write_account_key a); simpl; [|done].
    destruct (order a); simpl; [|done]. destruct (acme_validations false (rounds a)) as [[x|e]| |] eqn:E; simpl; [|done..].
    by apply Hv in E. }
  unfold renew_certificate_async. destruct (obtain s d) as [[[p|e]| |] d1] eqn:E; simpl.
  - by destruct (Ho p d1) as [? _].
  - by destruct (Ho ("", "") d1) as [_ <-].
  - by destruct (Ho ("", "") d1) as [_ <-].
  - by destruct (Ho ("", "") d1) as [_ <-].
Qed.
End tls.

(** ** Runs *)
Section tls_runs.
#[local] Existing Instances demo_chrono decimal_rfc3339.
Definition demo_sha (s : string) : string := str_take 32 (s +:+ "0123456789abcdef0123456789abcdef").
Definition demo_pem : string := pem_encode "an old certificate" "CERTIFICATE".
Definition demo_tls_env : environment := {["TLS_DOMAIN" := "db.example"; "TLS_PROVIDER" := "internal-ca"]}.
Definition demo_tls : TlsShim := new_tls demo_tls_env.
Definition demo_outside : Outside :=
  mkOutside (λ d, Ok (pem_encode d "CERTIFICATE", "key of " +:+ d)) (λ _ _ _, Issued (Some demo_pem) None)
    (λ d _, mkAcme (Ok "k") (Ok ()) (Ok ()) false [Ok [Some (Ok "proof", Ok ())]; Ok [Some (Ok "proof", Err "already valid")]]
              (Ok (demo_pem, "k"))).
Definition demo_disk : Disk :=
  mkDisk {["/etc/tls/db.example.pem" := demo_pem; "/etc/tls/db.example.key" := "k"]} None (λ _, None).
Definition empty_disk : Disk := mkDisk ∅ None (λ _, None).
Definition demo_clock (start : Z) (n : nat) : Z := start + Z.of_nat n.
Definition demo_start (s : TlsShim) (d : Disk) (t : Z) : answer () * TlsShim * Disk :=
  start demo_sha demo_outside ∅ (demo_clock t) s d.

Example demo_hex : upper_hex "z" = "7A" ∧ upper_hex (of_byte 255) = "FF".
Proof. vm_compute. done. Qed.
(** Without a certificate one is made; it is good for 364 days. *)
Example demo_generated :
  let '(a, s, d) := demo_start demo_tls empty_disk 0 in
  (a, days_until_expiry <$> get_cert "db.example" s, certs_renewed s, files d !! "/etc/tls/db.example.key")
  = (Answered (Ok ()), Some 364, 1, Some "key of db.example").
Proof. vm_compute. done. Qed.
Example demo_letsencrypt :
  let '(a, s, _) := demo_start (demo_tls <| provider := "letsencrypt" |> <| email := "a@b" |>) empty_disk 0 in
  (a, certs_failed s) = (Answered (Ok ()), 1).
Proof. vm_compute. done. Qed.
Example demo_vault :
  (renew_certificate_async demo_sha demo_outside ∅ (demo_clock 0)
    (demo_tls <| provider := "vault-pki" |> <| vault_token := Some "t" |>) empty_disk).1.1
  = Answered (Err "No private key in Vault response").
Proof. vm_compute. done. Qed.
(** A certificate file with its markers in the wrong order ends the shim. *)
Example demo_bad_file :
  (demo_start demo_tls (mkDisk {["/etc/tls/db.example.pem" := "-----END CERTIFICATE----------BEGIN CERTIFICATE-----";
      "/etc/tls/db.example.key" := "k"]} None (λ _, None)) 0).1.1 = Panics.
Proof. vm_compute. done. Qed.
(** Ten years later a restart finds it good for another year. *)
Definition later : Z := 3650 * 86400 * 10 ^ 9.
Lemma certificate_never_renewed_witness :
  should_renew "db.example" 259200 (demo_start demo_tls demo_disk later).1.2 = false.
Proof.
  destruct (demo_start demo_tls demo_disk later) as [[a s'] d'] eqn:E.
  assert (domain demo_tls ≠ "") as H1 by (vm_compute; discriminate).
  assert (files demo_disk !! cert_path demo_tls = Some demo_pem) as H2 by (vm_compute; reflexivity).
  assert (files demo_disk !! key_path demo_tls = Some "k") as H3 by (vm_compute; reflexivity).
  assert (demo_clock later 0 ≤ demo_clock later 1 < demo_clock later 0 + 86400 * 10 ^ 9) as H4
    by (vm_compute; split; [discriminate|reflexivity]).
  assert (renew_before_days (renew_before_secs demo_tls) ≤ 364) as H5 by (vm_compute; discriminate).
  assert (a ≠ Panics) as H6.
  { assert ((demo_start demo_tls demo_disk later).1.1 = Answered (Ok ())) as Ha by (vm_compute; reflexivity).
    rewrite E in Ha. simpl in Ha. rewrite Ha. discriminate. }
  destruct (certificate_never_renewed demo_sha demo_outside ∅ (demo_clock later) demo_tls demo_disk demo_pem "k" a s' d'
    H1 H2 H3 H4 H5 E H6) as (_ & _ & _ & _ & Hr). exact Hr.
Defined.
Lemma letsencrypt_waits_witness :
  (renew_certificate_async demo_sha demo_outside ∅ (demo_clock 0) (demo_tls <| provider := "letsencrypt" |>) empty_disk).1.1
  ≠ Answered (Ok ()).
Proof.
  assert (provider (demo_tls <| provider := "letsencrypt" |>) = "letsencrypt") as H1 by reflexivity.
  assert (∀ dom prod, confirmed (acme demo_outside dom prod) = false) as H2 by reflexivity.
  exact (proj1 (letsencrypt_waits demo_sha demo_outside ∅ (demo_clock 0) _ empty_disk H1 H2)).
Defined.
Lemma renew_then_load_witness :
  let '(a, s, d) := renew_certificate_async demo_sha demo_outside ∅ (demo_clock 0) demo_tls empty_disk in
  a = Answered (Ok ()) ∧ certs_renewed s = 1.
Proof.
  destruct (renew_certificate_async demo_sha demo_outside ∅ (demo_clock 0) demo_tls empty_disk) as [[a s] d] eqn:E.
  assert ((renew_certificate_async demo_sha demo_outside ∅ (demo_clock 0) demo_tls empty_disk).1.1 = Answered (Ok ())) as Ha
    by (vm_compute; reflexivity).
  rewrite E in Ha. simpl in Ha. subst a. split; [reflexivity|].
  destruct (load_cert_from_disk demo_sha (demo_clock 9) s d) as [c|] eqn:El.
  - destruct (renew_then_load demo_sha demo_outside ∅ (demo_clock 0) (demo_clock 9) demo_tls empty_disk s d c E El) as [Hr _].
    exact Hr.
  - exfalso. revert El. pose proof (f_equal snd E) as Hd. pose proof (f_equal (snd ∘ fst) E) as Hs. simpl in Hd, Hs.
    rewrite <-Hd, <-Hs. vm_compute. discriminate.
Defined.
Example demo_validate :
  (λ v, (valid v, errors v, warnings v)) <$>
    validate_cert (mkCert "d" "" "" "x" "" "f" 10 (Some "no pem") None)
  = Some (false, ["Issuer is empty"; "Invalid certificate PEM"], ["Certificate expires in less than 30 days"]).
Proof. vm_compute. done. Qed.
End tls_runs.
