(* ===== verification/Vault.v ===== *)
(** * Secret rotation from Vault ([vault-shim/src/lib.rs])

    Reading static and dynamic credentials, writing them to a file, the initial rotation
    and the rotation loop, which works on a copy of the shim.  Vault's replies, the
    result of the write and the clock are inputs of a rotation. *)

From S2P Require Import Prelude Text Config.

(** [Credentials] *)
Record Credentials := mkCredentials {
  username : string;
  password : string;
  fetched_at : string;
  expires_at : option string
}.
(** [VaultShim], without its HTTP client and the sender of its shutdown signal *)
Record VaultShim := mkVaultShim {
  vault_addr : string;
  vault_token : string;
  vault_role : string;
  vault_secret : string;
  vault_key : string;
  vault_mount : string;
  output_file : option string;
  rotation_secs : Z;
  tls_skip_verify : bool;
  last_rotation : option Z;
  rotation_success : Z;
  rotation_failure : Z
}.
#[export] Instance VaultShim_settable : Settable VaultShim := λ s,
  mkVaultShim (vault_addr s) (vault_token s) (vault_role s) (vault_secret s) (vault_key s) (vault_mount s) (output_file s)
    (rotation_secs s) (tls_skip_verify s) (last_rotation s) (rotation_success s) (rotation_failure s).
Definition new_vault (env : environment) : VaultShim :=
  mkVaultShim (env_or env "VAULT_ADDR" "https://127.0.0.1:8200") (env_or env "VAULT_TOKEN" "") (env_or env "VAULT_ROLE" "")
    (env_or env "VAULT_SECRET" "") (env_or env "VAULT_KEY" "password") (env_or env "VAULT_MOUNT" "secret")
    (env !! "VAULT_OUTPUT_FILE") (env_parse env "VAULT_ROTATION_SECS" parse_u64 3600)
    (env_true env "VAULT_TLS_SKIP_VERIFY") None 0 0.
(** [init]; the arguments of the validation are those of [Config.validate]. *)
Definition init (path_exists : string → bool) (cron_error https_error : string → option string)
    (env : environment) (c : Config) (s : VaultShim) : result string unit * VaultShim :=
  let mine := filter (λ e, starts_with (field e) "vault." = true) (validate path_exists cron_error https_error c) in
  if validation_enabled env && negb (bool_decide (mine = []))
  then (Err ("vault config validation failed: " +:+ String.concat "; " (error_display <$> mine)), s)
  else (Ok tt, match vault c with
               | Some v => s <| vault_addr := Config.vault_addr v |> <| vault_role := role v |> <| vault_secret := secret v |>
                             <| rotation_secs := Config.rotation_secs v |>
               | None => s
               end).

(** What a rotation meets.  A field of the data is [None] when it is not a string; the
    clock is read for the lease, for the fetch and after the write. *)
Record DynamicReply := mkDynamic {
  lease_duration : option Z;
  dyn_username : option string;
  dyn_password : option string
}.
Record Replies := mkReplies {
  secret_reply : result string (gmap string (option string));
  dynamic_reply : result string DynamicReply;
  write_reply : result string unit;
  lease_clock : Z;
  fetch_clock : Z;
  done_clock : Z
}.
(** The credentials file and the requests made *)
Record Outside := mkOutside { credentials_file : option string; requests : list string }.

Section vault.
Context `{CH : Chrono} `{RF : Rfc3339}.
Implicit Types (s : VaultShim) (w : Outside) (r : Replies).

Definition secret_url s (path : string) : string := vault_addr s +:+ "/v1/" +:+ vault_mount s +:+ "/" +:+ path.
Definition dynamic_url s : string := vault_addr s +:+ "/v1/database/creds/" +:+ vault_role s.
(** [read_secret] *)
Definition read_secret r (path : string) s : result string Credentials :=
  data <-? secret_reply r ;
  Ok (mkCredentials (default "postgres" (mjoin (data !! "username"))) (default "" (mjoin (data !! vault_key s)))
        (to_rfc3339 (fetch_clock r)) None).
(** [generate_dynamic]; [None] when the date of expiry is none *)
Definition generate_dynamic r s : option (result string Credentials) :=
  match dynamic_reply r with
  | Err e => Some (Err e)
  | Ok d =>
      t ← plus_seconds (lease_clock r) (as_i64 (default 3600 (lease_duration d)));
      Some (Ok (mkCredentials (default "" (dyn_username d)) (default "" (dyn_password d))
                  (to_rfc3339 (fetch_clock r)) (Some (to_rfc3339 t))))
  end.
(** [write_credentials] *)
Definition credentials_line (c : Credentials) : string := username c +:+ ":" +:+ password c +:+ String newline "".
Definition write_credentials r (c : Credentials) s w : result string unit * Outside :=
  match output_file s with
  | None => (Ok tt, w)
  | Some _ =>
      match write_reply r with
      | Ok _ => (Ok tt, mkOutside (Some (credentials_line c)) (requests w))
      | Err e => (Err e, w)
      end
  end.
Definition asking (url : string) w : Outside := mkOutside (credentials_file w) (requests w ++ [url]).
(** [rotate] *)
Definition settle r (c : result string Credentials) s w : result string unit * VaultShim * Outside :=
  match c with
  | Err e => (Err e, s, w)
  | Ok c =>
      match write_credentials r c s w with
      | (Err e, w) => (Err e, s, w)
      | (Ok _, w) => (Ok tt, s <| last_rotation := Some (done_clock r) |> <| rotation_success ::= λ n, add64 n 1 |>, w)
      end
  end.
Definition rotate r s w : option (result string unit * VaultShim * Outside) :=
  if negb (bool_decide (vault_role s = "")) then
    c ← generate_dynamic r s; Some (settle r c s (asking (dynamic_url s) w))
  else if negb (bool_decide (vault_secret s = "")) then
    Some (settle r (read_secret r (vault_secret s) s) s (asking (secret_url s (vault_secret s)) w))
  else Some (Err "No VAULT_SECRET or VAULT_ROLE configured", s, w).
Definition rotate_logged r s w : option (VaultShim * Outside) :=
  '(x, s, w) ← rotate r s w;
  Some (match x with Ok _ => s | Err _ => s <| rotation_failure ::= λ n, add64 n 1 |> end, w).

(** The shim that was started, and the copy the loop works on; no loop when it
    panicked. *)
Record System := mkSystem { own : VaultShim; looping : option VaultShim; outside : Outside }.
Definition loop_copy s : VaultShim := s <| last_rotation := None |> <| rotation_success := 0 |> <| rotation_failure := 0 |>.
(** [start]: an interval of zero seconds panics in the loop's task. *)
Definition start r s w : option System :=
  '(s, w) ← rotate_logged r s w;
  Some (mkSystem s (if rotation_secs s =? 0 then None else Some (loop_copy s)) w).
(** A tick of the loop; the first comes at once.  A panic ends the task. *)
Definition tick r (y : System) : System :=
  match looping y with
  | None => y
  | Some l =>
      match rotate_logged r l (outside y) with
      | Some (l, w) => mkSystem (own y) (Some l) w
      | None => mkSystem (own y) None (asking (dynamic_url l) (outside y))
      end
  end.
(** [stop] ends the loop. *)
Definition stop (y : System) : System := mkSystem (own y) None (outside y).
Definition vault_metrics s : list (string * Z) :=
  [("vault_rotation_success_total", rotation_success s); ("vault_rotation_failure_total", rotation_failure s)] ++
  match last_rotation s with Some t => [("vault_rotation_last_success_timestamp", t / 10 ^ 9)] | None => [] end.

(** ** What rotations do *)

(** The URL a rotation asks, and the line it writes, when it writes one *)
Definition rotation_url s : option string :=
  if negb (bool_decide (vault_role s = "")) then Some (dynamic_url s)
  else if negb (bool_decide (vault_secret s = "")) then Some (secret_url s (vault_secret s))
  else None.
Definition fetched r s : option (result string Credentials) :=
  if negb (bool_decide (vault_role s = "")) then generate_dynamic r s else Some (read_secret r (vault_secret s) s).
Definition rotation_line r s : option string :=
  match fetched r s, output_file s, write_reply r with
  | Some (Ok c), Some _, Ok _ => Some (credentials_line c)
  | _, _, _ => None
  end.
(** Two shims that differ in their counters only *)
Definition same_settings s s' : Prop := loop_copy s = loop_copy s'.
Lemma same_settings_fields s s' :
  same_settings s s' →
  vault_addr s = vault_addr s' ∧ vault_role s = vault_role s' ∧ vault_secret s = vault_secret s' ∧
  vault_key s = vault_key s' ∧ vault_mount s = vault_mount s' ∧ output_file s = output_file s' ∧
  rotation_secs s = rotation_secs s'.
Proof. unfold same_settings, loop_copy. destruct s, s'; simpl. intros [=]. by subst. Qed.
Lemma same_settings_replies r s s' :
  same_settings s s' → rotation_url s = rotation_url s' ∧ fetched r s = fetched r s' ∧ rotation_line r s = rotation_line r s'.
Proof.
  intros (Ha & Hr & Hs & Hk & Hm & Ho & _)%same_settings_fields.
  unfold rotation_line, rotation_url, fetched, generate_dynamic, read_secret, secret_url, dynamic_url.
  by rewrite Ha, Hr, Hs, Hk, Hm, Ho.
Qed.
Lemma rotate_logged_spec r s w url :
  rotation_url s = Some url → is_Some (fetched r s) →
  ∃ s', rotate_logged r s w =
    Some (s', mkOutside (default (credentials_file w) (Some <$> rotation_line r s)) (requests w ++ [url])) ∧
    same_settings s s'.
Proof.
  unfold rotation_url, rotate_logged, rotate, rotation_line, fetched. intros Hu [c Hc].
  assert (∀ c, ∃ s', (let '(x, s0, w0) := settle r c s (asking url w) in
      Some (match x with Ok _ => s0 | Err _ => s0 <| rotation_failure ::= λ n, add64 n 1 |> end, w0)) =
    Some (s', mkOutside (default (credentials_file w) (Some <$> match Some c, output_file s, write_reply r with
                 | Some (Ok c), Some _, Ok _ => Some (credentials_line c) | _, _, _ => None end)) (requests w ++ [url])) ∧
    same_settings s s') as H.
  { clear c Hc. intros c. unfold settle, write_credentials. destruct c as [c|e]; [|by eexists; split; [reflexivity|]].
    destruct (output_file s); [|by eexists; split; [reflexivity|]].
    destruct (write_reply r); by eexists; split; [reflexivity|]. }
  destruct (negb (bool_decide (vault_role s = ""))); simplify_eq/=.
  - rewrite Hc. simpl. exact (H c).
  - destruct (negb (bool_decide (vault_secret s = ""))); [|done]. simplify_eq/=. apply H.
Qed.
Lemma default_last {A} (d x : A) l : default d (last (x :: l)) = default x (last l).
Proof.
  rewrite last_cons. by destruct (last l).
Qed.
(** The credentials file follows Vault.  After the start and any number of ticks of
    the loop, Vault has been asked once for each and once for the start, and the file
    holds the line of the last rotation that succeeded; but the metrics of the shim are
    those of the start, because the loop counts on its own copy. *)
Theorem vault_rotations r s w y rs url :
  rotation_url s = Some url → rotation_secs s ≠ 0 → Forall (λ r, is_Some (fetched r s)) (r :: rs) →
  start r s w = Some y →
  let y' := foldl (λ y r, tick r y) y rs in
  own y' = own y ∧
  requests (outside y') = requests w ++ replicate (S (length rs)) url ∧
  credentials_file (outside y') =
    default (credentials_file w) (last (omap (λ r, Some <$> rotation_line r s) (r :: rs))).
Proof.
  intros Hu Hsecs [Hf Hfs]%Forall_cons Hs.
  destruct (rotate_logged_spec r s w url Hu Hf) as (s1 & E1 & Hs1). unfold start in Hs. rewrite E1 in Hs. simpl in Hs.
  pose proof (same_settings_fields s s1 Hs1) as (_ & _ & _ & _ & _ & _ & Hsecs1). rewrite <-Hsecs1 in Hs.
  rewrite (proj2 (Z.eqb_neq _ _) Hsecs) in Hs. simplify_eq.
  set (y0 := mkSystem _ _ _). assert (∀ rs y l, looping y = Some l → same_settings s l →
    Forall (λ r, is_Some (fetched r s)) rs →
    let y' := foldl (λ y r, tick r y) y rs in
    own y' = own y ∧ requests (outside y') = requests (outside y) ++ replicate (length rs) url ∧
    credentials_file (outside y') =
      default (credentials_file (outside y)) (last (omap (λ r, Some <$> rotation_line r s) rs))) as H.
  { clear -Hu. induction rs as [|r rs IH]; intros y l Hl Hsame Hfs; [by simpl; rewrite app_nil_r|].
    apply Forall_cons in Hfs as [Hf Hfs]. destruct (same_settings_replies r s l Hsame) as (Eu & Ef & El).
    destruct (rotate_logged_spec r l (outside y) url) as (l' & Er & Hl'); [congruence|by rewrite <-Ef|].
    cbn [foldl]. destruct (IH (tick r y) l') as (H1 & H2 & H3); [|by unfold same_settings in *; congruence|done|].
    { unfold tick. by rewrite Hl, Er. }
    simpl in H1, H2, H3 |- *. rewrite H1, H2, H3. unfold tick. rewrite Hl, Er. simpl. rewrite El, <-app_assoc.
    split_and!; [done|done|]. csimpl. destruct (rotation_line r l); csimpl; [|done].
    by rewrite default_last. }
  destruct (H rs y0 (loop_copy s1) eq_refl) as (H1 & H2 & H3); [by unfold same_settings in *; rewrite Hs1|done|].
  simpl in *. rewrite H1, H2, H3. split_and!; [done|by rewrite <-app_assoc|]. csimpl.
  destruct (rotation_line r s); csimpl; [|done].
  by rewrite default_last.
Qed.
(** A static secret without the configured key is written with an empty password, and
    the rotation counts as a success. *)
Theorem missing_key_succeeds r s w data path :
  vault_role s = "" → vault_secret s ≠ "" → secret_reply r = Ok data → mjoin (data !! vault_key s) = None →
  output_file s = Some path → write_reply r = Ok tt →
  ∃ s', rotate r s w = Some (Ok tt, s',
      mkOutside (Some (default "postgres" (mjoin (data !! "username")) +:+ ":" +:+ String newline ""))
        (requests w ++ [secret_url s (vault_secret s)])) ∧
    rotation_success s' = add64 (rotation_success s) 1.
Proof.
  intros Hr Hsec Hd Hk Ho Hw. unfold rotate. rewrite Hr, (bool_decide_eq_false_2 (vault_secret s = "")) by done.
  simpl. unfold settle, read_secret. rewrite Hd. simpl. unfold write_credentials, credentials_line. rewrite Ho, Hw, Hk. simpl.
  by eexists.
Qed.
(** A lease that ends on no date ends the loop: no later tick rotates anything. *)
Theorem bad_lease_ends_loop r y l rs :
  looping y = Some l → vault_role l ≠ "" → generate_dynamic r l = None →
  let y' := foldl (λ y r, tick r y) (tick r y) rs in
  looping y' = None ∧ credentials_file (outside y') = credentials_file (outside y).
Proof.
  intros Hl Hr Hg. simpl. assert (looping (tick r y) = None ∧ credentials_file (outside (tick r y)) = credentials_file (outside y))
    as [H1 <-].
  { unfold tick. rewrite Hl. unfold rotate_logged, rotate. rewrite bool_decide_eq_false_2 by done. simpl. by rewrite Hg. }
  revert H1. generalize (tick r y). induction rs as [|r' rs IH]; intros y' H; [done|]. simpl.
  assert (tick r' y' = y') as -> by (unfold tick; by rewrite H). by apply IH.
Qed.
End vault.

(** ** Runs *)
Section vault_runs.
#[local] Existing Instances demo_chrono decimal_rfc3339.
Definition demo_vault_env : environment :=
  {["VAULT_ROLE" := "app"; "VAULT_OUTPUT_FILE" := "/run/creds"; "VAULT_ADDR" := "http://v"]}.
Definition demo_vault : VaultShim := new_vault demo_vault_env.
Definition demo_reply (n : string) (lease : option Z) : Replies :=
  mkReplies (Ok {["username" := Some "u"; "passwd" := Some n]}) (Ok (mkDynamic lease (Some n) (Some "secret"))) (Ok tt) 0 0 0.
Definition down_reply : Replies := mkReplies (Err "sealed") (Err "sealed") (Ok tt) 0 0 0.
Definition no_file : Outside := mkOutside None [].
(** The loop's first tick comes at once: the start costs two leases. *)
Example demo_vault_run :
  (λ y, let y := foldl (λ y r, tick r y) y [demo_reply "b" None; down_reply; demo_reply "c" None] in
        (credentials_file (outside y), length (requests (outside y)), vault_metrics (own y), rotation_success <$> looping y))
    <$> start (demo_reply "a" None) demo_vault no_file
  = Some (Some ("c:secret" +:+ String newline ""), 4%nat,
      [("vault_rotation_success_total", 1); ("vault_rotation_failure_total", 0); ("vault_rotation_last_success_timestamp", 0)],
      Some 2).
Proof. vm_compute. done. Qed.
(** The documented form of [VAULT_SECRET] names the mount twice. *)
Example demo_secret_url :
  secret_url (new_vault ∅) "secret/data/postgres/creds" = "https://127.0.0.1:8200/v1/secret/secret/data/postgres/creds".
Proof. vm_compute. done. Qed.
Example demo_zero_interval :
  looping <$> start (demo_reply "a" None) (demo_vault <| rotation_secs := 0 |>) no_file = Some None.
Proof. vm_compute. done. Qed.
Example demo_long_lease : start (demo_reply "a" (Some (2 ^ 62))) demo_vault no_file = None.
Proof. vm_compute. done. Qed.
Lemma vault_rotations_witness :
  match start (demo_reply "a" None) demo_vault no_file with
  | Some y =>
      let y' := foldl (λ y r, tick r y) y [demo_reply "b" None; down_reply] in
      own y' = own y ∧ requests (outside y') = replicate 3 "http://v/v1/database/creds/app" ∧
      credentials_file (outside y') = Some ("b:secret" +:+ String newline "")
  | None => False
  end.
Proof.
  destruct (start (demo_reply "a" None) demo_vault no_file) as [y|] eqn:E; [|exfalso; revert E; vm_compute; discriminate].
  assert (rotation_url demo_vault = Some "http://v/v1/database/creds/app") as H1 by (vm_compute; reflexivity).
  assert (rotation_secs demo_vault ≠ 0) as H2 by (vm_compute; discriminate).
  assert (Forall (λ r, is_Some (fetched r demo_vault)) (demo_reply "a" None :: [demo_reply "b" None; down_reply])) as H3
    by (repeat constructor; eexists; vm_compute; reflexivity).
  exact (vault_rotations (demo_reply "a" None) demo_vault no_file y [demo_reply "b" None; down_reply] _ H1 H2 H3 E).
Defined.
Lemma missing_key_succeeds_witness :
  ∃ s', rotate (demo_reply "x" None) (demo_vault <| vault_role := "" |> <| vault_secret := "db" |>) no_file =
    Some (Ok tt, s', mkOutside (Some ("u:" +:+ String newline "")) ["http://v/v1/secret/db"]) ∧ rotation_success s' = 1.
Proof.
  assert ("db" ≠ "") as H by discriminate.
  exact (missing_key_succeeds (demo_reply "x" None) (demo_vault <| vault_role := "" |> <| vault_secret := "db" |>) no_file
           _ "/run/creds" eq_refl H eq_refl eq_refl eq_refl eq_refl).
Defined.
Lemma bad_lease_ends_loop_witness :
  let y := mkSystem demo_vault (Some (loop_copy demo_vault)) no_file in
  looping (foldl (λ y r, tick r y) (tick (demo_reply "a" (Some (2 ^ 62))) y) [demo_reply "b" None]) = None.
Proof.
  assert (vault_role (loop_copy demo_vault) ≠ "") as H1 by (vm_compute; discriminate).
  assert (generate_dynamic (demo_reply "a" (Some (2 ^ 62))) (loop_copy demo_vault) = None) as H2 by (vm_compute; reflexivity).
  exact (proj1 (bad_lease_ends_loop (demo_reply "a" (Some (2 ^ 62)))
           (mkSystem demo_vault (Some (loop_copy demo_vault)) no_file) (loop_copy demo_vault) [demo_reply "b" None] eq_refl H1 H2)).
Defined.
End vault_runs.
