(* ===== verification/ConfigShim.v ===== *)
(** * The configuration shim ([config-shim/src/lib.rs])

    Watching a configuration file by its hash, and [reload]: validation by a command, a
    backup and a signal to the child.  The hash, the command runner, the copy and the
    delivery of signals are inputs. *)

From S2P Require Import Prelude Text Commands Shutdown.

(** [ReloadEvent] *)
Record ReloadEvent := mkReload {
  timestamp : Z;
  path : string;
  old_hash : string;
  new_hash : string;
  success : bool;
  error : option string;
  event_backup : option string
}.
(** [ConfigShim]; a signal is its number; the senders are left out *)
Record ConfigShim := mkConfigShim {
  config_path : string;
  watch_enabled : bool;
  reload_signal : Z;
  reload_debounce_secs : Z;
  validate_cmd : option string;
  keep_backup : bool;
  child_pid : option Z;
  reloads_total : Z;
  reloads_success : Z;
  reloads_failed : Z;
  last_reload : option Z;
  last_hash : option string
}.
#[export] Instance ConfigShim_settable : Settable ConfigShim := λ s,
  mkConfigShim (config_path s) (watch_enabled s) (reload_signal s) (reload_debounce_secs s) (validate_cmd s)
    (keep_backup s) (child_pid s) (reloads_total s) (reloads_success s) (reloads_failed s) (last_reload s) (last_hash s).

Definition SIGHUP : Z := 1.
Definition ascii_upper (c : ascii) : ascii :=
  let n := N_of_ascii c in if ((97 <=? n) && (n <=? 122))%N then ascii_of_N (n - 32) else c.
Fixpoint to_uppercase (s : string) : string :=
  match s with EmptyString => "" | String c r => String (ascii_upper c) (to_uppercase r) end.
(** [parse_signal]; [Signal::try_from] takes the numbers 1 to 31. *)
Definition parse_signal (s : string) : option Z :=
  let u := to_uppercase s in
  if bool_decide (u = "SIGHUP") then Some 1
  else if bool_decide (u = "SIGUSR1") then Some 10
  else if bool_decide (u = "SIGUSR2") then Some 12
  else if bool_decide (u = "SIGTERM") then Some 15
  else match parse_i64 s with Some n => if (1 <=? n) && (n <=? 31) then Some n else None | None => None end.
Definition env_true_or (env : environment) (k : string) : bool :=
  match env !! k with Some v => bool_decide (v = "true") || bool_decide (v = "1") | None => true end.
Definition new_config_shim (env : environment) : ConfigShim :=
  mkConfigShim (env_or env "CONFIG_PATH" "/etc/app/config.toml") (env_true_or env "CONFIG_WATCH")
    (default SIGHUP (parse_signal (env_or env "CONFIG_RELOAD_SIGNAL" "SIGHUP")))
    (env_parse env "CONFIG_RELOAD_DEBOUNCE" parse_u64 5) (env !! "CONFIG_VALIDATE_CMD") (env_true_or env "CONFIG_BACKUP")
    None 0 0 0 None None.
(** [set_child_pid] *)
Definition set_child_pid (p : Z) (s : ConfigShim) : ConfigShim := s <| child_pid := Some p |>.

(** [Path::with_extension] on the last component: what follows its last dot is
    replaced, unless that dot is its first character. *)
Definition with_extension (ext p : string) : string :=
  let '(dir, name) := match cut_last "/" p with Some (d, n) => (d +:+ "/", n) | None => ("", p) end in
  let stem := match cut_last "." name with Some (s, _) => if bool_decide (s = "") then name else s | None => name end in
  dir +:+ stem +:+ "." +:+ ext.

(** The backup is never the file itself: its name ends in two extensions, of which
    [with_extension] would have replaced the last. *)
Lemma with_two_extensions p : with_extension "toml.bak" p ≠ p.
Proof.
  unfold with_extension.
  assert (∃ dir name, p = dir +:+ name ∧
    match cut_last "/" p with Some (d, n) => (d +:+ "/", n) | None => ("", p) end = (dir, name)) as (dir & name & -> & ->).
  { destruct (cut_last "/" p) as [[d n]|] eqn:E; [|by exists "", p].
    apply cut_last_Some in E as [-> _]. exists (d +:+ "/"), n. by rewrite str_app_assoc. }
  intros E. apply str_app_inj_l in E.
  assert (∀ x, x +:+ "." +:+ "toml.bak" ≠ x) as Hlong.
  { intros x Hx. apply (f_equal String.length) in Hx. rewrite !str_length_app in Hx. simpl in Hx. lia. }
  destruct (cut_last "." name) as [[a b]|] eqn:Ec; [|by apply Hlong in E]. case_bool_decide; [by apply Hlong in E|].
  apply cut_last_Some in Ec as [-> Hb]. apply str_app_inj_l in E. change (String "." b) with ("." +:+ b) in E.
  apply str_app_inj_l in E. by subst.
Qed.

(** The files, and the signals sent *)
Record World := mkWorld { files : gmap string string; signals : list (Z * Z) }.

Section config_shim.
Context (sha256_hex : string → string) (run : World → runner) (copy_error : string → option string)
  (kill_error : Z → option string).
Implicit Types (s : ConfigShim) (w : World).

(** [file_hash], [validate] *)
Definition file_hash w (p : string) : option string := sha256_hex <$> files w !! p.
Definition validate_command (cmd p : string) : Command := mkCommand "sh" ["-c"; cmd; p] [].
Definition validate s w (p : string) : result string unit :=
  match validate_cmd s with
  | None => Ok tt
  | Some cmd =>
      out <-? run w (validate_command cmd p) ;
      if exit_ok out then Ok tt else Err ("Config validation failed: " +:+ trim (stderr out))
  end.
(** [backup]: the file is copied as it is now. *)
Definition backup_path s : string := with_extension "toml.bak" (config_path s).
Definition backup s w : result string (option string) * World :=
  if keep_backup s then
    match files w !! config_path s with
    | None => (Ok None, w)
    | Some content =>
        match copy_error (backup_path s) with
        | Some e => (Err e, w)
        | None => (Ok (Some (backup_path s)), mkWorld (<[backup_path s := content]> (files w)) (signals w))
        end
    end
  else (Ok None, w).
(** [send_signal] *)
Definition send_signal s w : result string unit * World :=
  match child_pid s with
  | None => (Ok tt, w)
  | Some p =>
      match kill_error (as_i32 p) with
      | Some e => (Err e, w)
      | None => (Ok tt, mkWorld (files w) (signals w ++ [(as_i32 p, reload_signal s)]))
      end
  end.
(** [reload] *)
Definition reload (now : Z) s w : result string ReloadEvent * ConfigShim * World :=
  let old := default "" (last_hash s) in
  match file_hash w (config_path s) with
  | None => (Err ("Cannot read config file: " +:+ config_path s), s, w)
  | Some new =>
      if bool_decide (last_hash s = Some new) then
        (Ok (mkReload now (config_path s) old new true None None), s, w)
      else
        match validate s w (config_path s) with
        | Err e => (Err e, s, w)
        | Ok _ =>
            match backup s w with
            | (Err e, w) => (Err e, s, w)
            | (Ok b, w) =>
                let s := s <| last_hash := Some new |> in
                match send_signal s w with
                | (Err e, w) => (Err e, s, w)
                | (Ok _, w) =>
                    (Ok (mkReload now (config_path s) old new true None b),
                     s <| reloads_total ::= λ n, add64 n 1 |> <| reloads_success ::= λ n, add64 n 1 |>
                       <| last_reload := Some now |>, w)
                end
            end
        end
  end.
(** [start]: the first hash, and the hash the watch loop begins with; a turn of the
    loop, which is asleep for the debounce time before, and whether it logs a change *)
Definition start s w : ConfigShim * option (option string) :=
  let s := match files w !! config_path s with Some _ => s <| last_hash := file_hash w (config_path s) |> | None => s end in
  (s, if watch_enabled s then Some (file_hash w (config_path s)) else None).
Definition watch_turn (p : string) w (seen : option string) : bool * option string :=
  let current := file_hash w p in
  if bool_decide (current = seen) then (false, seen) else (true, current).
Definition config_metrics s : list (string * Z) :=
  [("config_reloads_total", reloads_total s); ("config_reloads_success", reloads_success s);
   ("config_reloads_failed", reloads_failed s)] ++
  match last_reload s with Some t => [("config_last_reload_timestamp", t / 10 ^ 9)] | None => [] end.

(** What a reload does, on every path: an unreadable file, a failed validation or a
    failed copy leave the shim as it is, an unchanged file is a success without any
    effect, a failed signal keeps the new hash, and only a reload that goes through is
    counted, with one signal to the child if it is known.  No path counts a failure. *)
Theorem config_reload_spec now s w r s' w' :
  reload now s w = (r, s', w') →
  reloads_failed s' = reloads_failed s ∧
  match r with
  | Err _ =>
      reloads_total s' = reloads_total s ∧ reloads_success s' = reloads_success s ∧ signals w' = signals w ∧
      (last_hash s' = last_hash s ∨ (last_hash s' = file_hash w (config_path s) ∧ is_Some (child_pid s)))
  | Ok e =>
      last_hash s' = file_hash w (config_path s) ∧ is_Some (last_hash s') ∧
      if bool_decide (last_hash s = file_hash w (config_path s)) then s' = s ∧ w' = w
      else reloads_total s' = add64 (reloads_total s) 1 ∧ reloads_success s' = add64 (reloads_success s) 1 ∧
           signals w' = signals w ++ match child_pid s with Some p => [(as_i32 p, reload_signal s)] | None => [] end
  end.
Proof.
  unfold reload. destruct (file_hash w (config_path s)) as [new|] eqn:Eh; [|by intros; simplify_eq/=; auto 10].
  case_bool_decide as Hs; [intros; simplify_eq/=; by eauto|].
  destruct (validate s w (config_path s)) as [[]|e]; [|by intros; simplify_eq/=; auto 10].
  assert (∀ b w1, backup s w = (b, w1) → signals w1 = signals w) as Hb.
  { unfold backup. intros b w1. by repeat case_match; intros; simplify_eq. }
  destruct (backup s w) as [[b|e] w1]; specialize (Hb _ _ eq_refl); [|by intros; simplify_eq/=; auto 10].
  unfold send_signal. simpl. destruct (child_pid s) as [p|] eqn:Ep.
  - destruct (kill_error (as_i32 p)); intros; simplify_eq/=; rewrite Hb; [|by eauto 10].
    split_and!; [done..|]. right. eauto.
  - intros; simplify_eq/=. rewrite app_nil_r. by eauto 10.
Qed.
(** The backup is of the new file: after a reload that made one, it has the content of
    the configuration as it is, so the previous version is not kept anywhere. *)
Theorem backup_is_new now s w ev s' w' b :
  reload now s w = (Ok ev, s', w') → event_backup ev = Some b →
  b = backup_path s ∧ files w' !! b = files w !! config_path s ∧ is_Some (files w !! config_path s) ∧
  (∀ p, p ≠ b → files w' !! p = files w !! p).
Proof.
  unfold reload. intros H Hev. pose proof (with_two_extensions (config_path s)) as Hne.
  destruct (file_hash w (config_path s)) as [new|] eqn:Eh; [|done].
  case_bool_decide; [by simplify_eq|]. destruct (validate s w (config_path s)); [|done].
  destruct (backup s w) as [[b'|x] w1] eqn:Eb; [|done].
  assert (b' = Some b ∧ files w' = files w1) as [-> ->].
  { revert H. unfold send_signal. simpl. repeat case_match; intros; simplify_eq/=; done. }
  unfold backup in Eb. destruct (keep_backup s); [|done]. destruct (files w !! config_path s) as [c|] eqn:Ec; [|done].
  destruct (copy_error (backup_path s)); simplify_eq/=. split_and!; [done| |by eexists|].
  - by rewrite lookup_insert_eq.
  - intros p Hp. by rewrite lookup_insert_ne.
Qed.
(** What a reload of an unchanged file does *)
Lemma reload_unchanged now s w new :
  file_hash w (config_path s) = Some new → last_hash s = Some new →
  reload now s w = (Ok (mkReload now (config_path s) new new true None None), s, w).
Proof. intros Hf Hl. unfold reload. rewrite Hf, Hl. by rewrite bool_decide_eq_true_2. Qed.
Lemma backup_frame s w r w1 :
  backup s w = (r, w1) → signals w1 = signals w ∧ files w1 !! config_path s = files w !! config_path s.
Proof.
  unfold backup. destruct (keep_backup s); [|by intros; simplify_eq].
  destruct (files w !! config_path s) as [c|] eqn:Ec; [|by intros; simplify_eq].
  destruct (copy_error _); intros; simplify_eq/=; [done|].
  by rewrite lookup_insert_ne by apply with_two_extensions.
Qed.
End config_shim.

(** ** A signal that fails

    Attempts to reload, one after the other: each finds the files as they are then, its
    validation, copying and signalling go as they go then. *)
Record Attempt := mkAttempt {
  at_time : Z;
  at_world : World;
  at_run : World → runner;
  at_copy : string → option string;
  at_kill : Z → option string
}.
Definition attempt (sha256_hex : string → string) (a : Attempt) (s : ConfigShim) : result string ReloadEvent * ConfigShim * World :=
  reload sha256_hex (at_run a) (at_copy a) (at_kill a) (at_time a) s (at_world a).
Fixpoint attempts (sha256_hex : string → string) (l : list Attempt) (s : ConfigShim)
    : list (result string ReloadEvent * World) * ConfigShim :=
  match l with
  | [] => ([], s)
  | a :: l =>
      let '(r, s, w) := attempt sha256_hex a s in
      let '(rs, s) := attempts sha256_hex l s in ((r, w) :: rs, s)
  end.
(** The attempt succeeds without any effect on the files, or a signal. *)
Definition nothing_done (a : Attempt) (o : result string ReloadEvent * World) : Prop :=
  ∃ ev, o = (Ok ev, at_world a) ∧ success ev = true ∧ old_hash ev = new_hash ev ∧ event_backup ev = None.

(** C25. A signal that fails is lost.  When the file has changed and is valid, any backup
    can be made, and the child is known but cannot be signalled, then the reload fails,
    nothing is counted, and the new hash is recorded all the same.  However many
    attempts follow, whatever else happens in between, and also when the child could be
    signalled again: as long as the file has that content each of them reports a
    success, and none signals the child, makes a backup, or changes the shim. *)
Theorem failed_signal_is_lost sha256_hex a s new p e l :
  let w := at_world a in
  file_hash sha256_hex w (config_path s) = Some new → last_hash s ≠ Some new →
  validate (at_run a) s w (config_path s) = Ok tt → at_copy a (backup_path s) = None →
  child_pid s = Some p → at_kill a (as_i32 p) = Some e →
  Forall (λ b, files (at_world b) !! config_path s = files w !! config_path s) l →
  ∃ s' w', attempt sha256_hex a s = (Err e, s', w') ∧ signals w' = signals w ∧
    s' = s <| last_hash := Some new |> ∧
    (attempts sha256_hex l s').2 = s' ∧ Forall2 nothing_done l (attempts sha256_hex l s').1.
Proof.
  intros w Hf Hl Hv Hc Hp Hk Hsame. unfold attempt, reload. fold w. rewrite Hf, bool_decide_eq_false_2, Hv by done.
  destruct (backup (at_copy a) s w) as [r w1] eqn:Eb. pose proof (backup_frame _ _ _ _ _ Eb) as [Hs _].
  assert (∃ b, r = Ok b) as [b ->].
  { unfold backup in Eb. rewrite Hc in Eb. repeat case_match; simplify_eq; eauto. }
  set (s' := s <| last_hash := Some new |>).
  assert (send_signal (at_kill a) s' w1 = (Err e, w1)) as Hsig by (unfold send_signal; simpl; by rewrite Hp, Hk).
  exists s', w1. cbv zeta. rewrite Hsig. split; [done|]. split; [done|]. split; [done|].
  assert (∀ b, files (at_world b) !! config_path s = files w !! config_path s →
    attempt sha256_hex b s' = (Ok (mkReload (at_time b) (config_path s') new new true None None), s', at_world b)) as Hr.
  { intros x Hx. apply reload_unchanged; [|done]. unfold file_hash in *. change (config_path s') with (config_path s). by rewrite Hx. }
  clearbody s'. induction Hsame as [|x l Hx _ [IH1 IH2]]; [done|]. cbn [attempts]. rewrite (Hr x Hx).
  destruct (attempts sha256_hex l s') as [rs s2]. simpl in *. split; [done|]. constructor; [|done]. by eexists.
Qed.

(** ** Runs *)
Section config_runs.
Definition demo_hash (s : string) : string := "#" +:+ s.
Definition demo_valid (w : World) (c : Command) : result string Output :=
  Ok (mkOutput (bool_decide (args c = ["-c"; "check"; "/etc/app/config.toml"])) "" " bad ").
Definition demo_config_shim : ConfigShim :=
  set_child_pid 42 (new_config_shim {["CONFIG_VALIDATE_CMD" := "check"; "CONFIG_RELOAD_SIGNAL" := "sigusr1"]}).
Definition demo_world (c : string) : World := mkWorld {["/etc/app/config.toml" := c]} [].
Definition demo_started : ConfigShim := (start demo_hash demo_config_shim (demo_world "v1")).1.
Definition no_copy_error (_ : string) : option string := None.
Definition demo_reload (kill_error : Z → option string) (s : ConfigShim) (w : World) :=
  reload demo_hash demo_valid no_copy_error kill_error 5 s w.

Example demo_extension :
  with_extension "toml.bak" <$> ["/etc/app/config.toml"; "/etc/app/config.yaml"; "/etc/app.d/config"; ".hidden"]
  = ["/etc/app/config.toml.bak"; "/etc/app/config.toml.bak"; "/etc/app.d/config.toml.bak"; ".hidden.toml.bak"].
Proof. vm_compute. done. Qed.
Example demo_signals : parse_signal <$> ["sighup"; "SIGUSR2"; "9"; "32"; "-1"; "SIGINT"] = [Some 1; Some 12; Some 9; None; None; None].
Proof. vm_compute. done. Qed.
(** The file changes to its second version; the backup holds the second version. *)
Example demo_reloads :
  let '(r, s, w) := demo_reload (λ _, None) demo_started (demo_world "v2") in
  (is_ok r, reloads_total s, files w !! "/etc/app/config.toml.bak", signals w) = (true, 1, Some "v2", [(42, 10)]).
Proof. vm_compute. done. Qed.
(** The watch loop sees the change once; nothing of the shim changes. *)
Example demo_watch_turn :
  let turn := watch_turn demo_hash "/etc/app/config.toml" in
  (turn (demo_world "v1") (Some "#v1"), turn (demo_world "v2") (Some "#v1"), (turn (mkWorld ∅ []) (Some "#v1")).2)
  = ((false, Some "#v1"), (true, Some "#v2"), None).
Proof. vm_compute. done. Qed.
Lemma config_reload_spec_witness :
  reloads_failed (demo_reload (λ _, None) demo_started (demo_world "v2")).1.2 = 0.
Proof.
  destruct (demo_reload (λ _, None) demo_started (demo_world "v2")) as [[r s'] w'] eqn:E.
  exact (proj1 (config_reload_spec demo_hash demo_valid no_copy_error (λ _, None) 5 demo_started (demo_world "v2") r s' w' E)).
Defined.
(** The second attempt could signal the child. *)
Definition deaf_attempt : Attempt := mkAttempt 5 (demo_world "v2") demo_valid no_copy_error (λ _, Some "no such process").
Definition willing_attempt : Attempt := mkAttempt 9 (demo_world "v2") demo_valid no_copy_error (λ _, None).
Lemma failed_signal_is_lost_witness :
  ∃ s' w', attempt demo_hash deaf_attempt demo_started = (Err "no such process", s', w') ∧ signals w' = [] ∧
    Forall2 nothing_done [willing_attempt; willing_attempt] (attempts demo_hash [willing_attempt; willing_attempt] s').1.
Proof.
  destruct (failed_signal_is_lost demo_hash deaf_attempt demo_started "#v2" 42 "no such process" [willing_attempt; willing_attempt])
    as (s' & w' & E & Hs & _ & _ & Hn);
    [vm_compute; reflexivity|vm_compute; discriminate|vm_compute; reflexivity..|repeat constructor|].
  exists s', w'. split; [exact E|]. split; [exact Hs|exact Hn].
Defined.
Lemma backup_is_new_witness :
  files (demo_reload (λ _, None) demo_started (demo_world "v2")).2 !! "/etc/app/config.toml.bak" = Some "v2".
Proof.
  destruct (demo_reload (λ _, None) demo_started (demo_world "v2")) as [[[ev|e] s'] w'] eqn:E;
    [|exfalso; revert E; vm_compute; discriminate].
  assert (event_backup ev = Some "/etc/app/config.toml.bak") as H1.
  { pose proof (f_equal (λ x, match x.1.1 with Ok ev => event_backup ev | Err _ => None end) E) as Hx. simpl in Hx.
    rewrite <-Hx. vm_compute. reflexivity. }
  destruct (backup_is_new demo_hash demo_valid no_copy_error (λ _, None) 5 demo_started (demo_world "v2") ev s' w' _ E H1)
    as (_ & Hf & _ & _).
  simpl. rewrite Hf. vm_compute. reflexivity.
Defined.
End config_runs.
