(* ===== verification/Operator.v ===== *)
(** * The Kubernetes operator ([shim-operator/src]: [crd.rs], [error.rs], [reconciler.rs])

    What is derived from a [ShimConfig]: the variables, the ConfigMap, the sidecar; the
    reconciliation as an update of a cluster, cleanup, and the classification of
    errors.  The API server's refusals are inputs, and the events, the watch loop and
    the signals of [main] are left out. *)

From S2P Require Import Prelude Text Config Main.

(** ** [crd.rs] *)

Record ResourceSpec := mkResource { cpu : option string; memory : option string }.
Record ResourceRequirements := mkRequirements { requests : option ResourceSpec; limits : option ResourceSpec }.
Record ShimConfigOptions := mkOptions {
  log_level : string;
  json_logging : bool;
  metrics_port : Z;
  health_port : Z;
  otel_endpoint : option string
}.
Definition default_options : ShimConfigOptions := mkOptions "info" false 9090 9091 None.
Record ShimConfigSpec := mkSpec {
  child_command : string;
  child_args : list string;
  features : list string;
  resources : option ResourceRequirements;
  shim_config : option ShimConfigOptions
}.
Record ShimConfigCondition := mkCondition {
  condition_type : string;
  cond_status : string;
  last_transition_time : option string;
  reason : option string;
  message : option string
}.
Definition new_condition `{Rfc3339} (now : Z) (t s r m : string) : ShimConfigCondition :=
  mkCondition t s (Some (to_rfc3339 now)) (Some r) (Some m).
Record ShimConfigStatus := mkStatus {
  conditions : list ShimConfigCondition;
  ready_replicas : option Z;
  observed_generation : option Z
}.
(** The generated wrapper, with the fields of its metadata that are used *)
Record ShimConfig := mkShimConfig {
  sc_name : option string;
  sc_namespace : option string;
  sc_generation : option Z;
  sc_finalizers : option (list string);
  spec : ShimConfigSpec;
  status : option ShimConfigStatus
}.
#[export] Instance ShimConfig_settable : Settable ShimConfig := λ s,
  mkShimConfig (sc_name s) (sc_namespace s) (sc_generation s) (sc_finalizers s) (spec s) (status s).

(** ** [error.rs]: errors carry their text *)
Inductive OperatorError :=
| Kubernetes (e : string) | Validation (m : string) | Reconcile (m : string) | Serialization (e : string)
| ConfigMapGen (m : string) | DeploymentUpdate (m : string) | Io (e : string).
Inductive ErrorClass := Transient | Permanent.
Definition is_transient_kube_error (msg : string) : bool :=
  let lower := to_lowercase msg in
  existsb (str_contains lower) ["connection"; "timeout"; "reset"; "broken pipe"; "request send"; "response"; "recv"].
Definition classify (e : OperatorError) : ErrorClass :=
  match e with
  | Kubernetes m => if is_transient_kube_error m then Transient else Permanent
  | Validation _ | Serialization _ | ConfigMapGen _ => Permanent
  | Reconcile _ | DeploymentUpdate _ | Io _ => Transient
  end.
(** [Action]: seconds until the next reconciliation, or none until a change *)
Inductive Action := Requeue (secs : Z) | AwaitChange.
Definition error_backoff (e : OperatorError) : Action :=
  match classify e with Transient => Requeue 30 | Permanent => AwaitChange end.

(** ** What is generated *)

Definition CONFIGMAP_PREFIX : string := "shim-config".
Definition show_bool (b : bool) : string := if b then "true" else "false".
Definition show_u16 (n : Z) : string := pretty (Z.to_N n).
(** [generate_configmap_data] *)
Definition generate_configmap_data (s : ShimConfigSpec) : gmap string string :=
  let opts := default default_options (shim_config s) in
  let data := <["SHIM_HEALTH_PORT" := show_u16 (health_port opts)]>
    (<["SHIM_METRICS_PORT" := show_u16 (metrics_port opts)]> (<["SHIM_JSON_LOGGING" := show_bool (json_logging opts)]>
    (<["SHIM_LOG_LEVEL" := log_level opts]> (<["SHIM_FEATURES" := String.concat "," (features s)]>
    (<["SHIM_CHILD_ARGS" := String.concat "," (child_args s)]> (<["SHIM_CHILD_COMMAND" := child_command s]> ∅)))))) in
  match otel_endpoint opts with Some e => <["SHIM_OTEL_ENDPOINT" := e]> data | None => data end.
(** The parts of a [ConfigMap] and of a [Container] that are filled in *)
Record ConfigMap := mkConfigMap { cm_name : string; cm_namespace : string; cm_labels : gmap string string; cm_data : gmap string string }.
Definition configmap_name (name : string) : string := CONFIGMAP_PREFIX +:+ "-" +:+ name.
Definition generate_configmap (name namespace : string) (s : ShimConfigSpec) : result OperatorError ConfigMap :=
  Ok (mkConfigMap (configmap_name name) namespace
        {["app.kubernetes.io/managed-by" := "shim-operator"; "evergreen.dev/shim-config" := name]}
        (generate_configmap_data s)).
Record Container := mkContainer {
  c_name : string;
  image : option string;
  c_env : list (string * string);
  c_resources : option (option (gmap string string) * option (gmap string string));
  ports : list (string * Z)
}.
Definition parse_quantity (s : string) : option string := if bool_decide (s = "") then None else Some s.
Definition quantities (r : ResourceSpec) : gmap string string :=
  let m := match cpu r ≫= parse_quantity with Some q => {["cpu" := q]} | None => ∅ end in
  match memory r ≫= parse_quantity with Some q => <["memory" := q]> m | None => m end.
(** [build_sidecar_container] *)
Definition build_sidecar_container (s : ShimConfigSpec) : Container :=
  mkContainer "evergreen-shim" (Some "ghcr.io/wyattau/evergreen-shim:latest")
    ([("SHIM_CHILD_COMMAND", child_command s)] ++
     (if bool_decide (child_args s = []) then [] else [("SHIM_CHILD_ARGS", String.concat "," (child_args s))]) ++
     (if bool_decide (features s = []) then [] else [("SHIM_FEATURES", String.concat "," (features s))]))
    ((λ r, (quantities <$> requests r, quantities <$> limits r)) <$> resources s)
    [("metrics", default 9090 (metrics_port <$> shim_config s)); ("health", default 9091 (health_port <$> shim_config s))].

(** ** Reconciliation *)

(** The cluster: a deployment is the containers of its pod template, if it has one. *)
Record Cluster := mkCluster {
  configmaps : gmap (string * string) ConfigMap;
  deployments : gmap (string * string) (option (list Container));
  shim_configs : gmap (string * string) ShimConfig
}.
#[export] Instance Cluster_settable : Settable Cluster := λ c,
  mkCluster (configmaps c) (deployments c) (shim_configs c).
(** What the API server refuses, and whether the deployment could be read *)
Record Refusals := mkRefusals {
  patch_configmap : option string;
  deployment_read : bool;
  patch_deployment : option string;
  patch_status : option string;
  delete_configmap : option string;
  patch_object : option string
}.
Definition refused {A} (r : option string) (k : Cluster → result OperatorError A * Cluster) (c : Cluster)
    : result OperatorError A * Cluster :=
  match r with Some e => (Err (Kubernetes e), c) | None => k c end.

Section reconcile.
Context `{RF : Rfc3339}.
Implicit Types (c : Cluster) (sc : ShimConfig).

Definition deployment_name (name : string) : string := name +:+ "-deployment".
(** The pod template with the sidecar, unless it has a container of that name *)
Definition with_sidecar (s : ShimConfigSpec) (pod : option (list Container)) : option (list Container) :=
  (λ cs, if existsb (λ x, bool_decide (c_name x = "evergreen-shim")) cs then cs else cs ++ [build_sidecar_container s]) <$> pod.
Definition reconciled_status (now : Z) (generation : Z) : ShimConfigStatus :=
  mkStatus [new_condition now "Ready" "True" "Reconciled" "ShimConfig reconciled successfully";
            new_condition now "Reconciling" "False" "Reconciled" "Reconciliation complete"]
    (Some 1) (Some generation).
(** [reconcile_shim_config] *)
Definition reconcile_shim_config (now : Z) (no : Refusals) sc c : result OperatorError Action * Cluster :=
  let ns := default "" (sc_namespace sc) in
  let name := default "" (sc_name sc) in
  match generate_configmap name ns (spec sc) with
  | Err e => (Err e, c)
  | Ok cm =>
      refused (patch_configmap no) (λ c,
        let c := c <| configmaps ::= <[(ns, configmap_name name) := cm]> |> in
        let finish := refused (patch_status no) (λ c,
          (Ok (Requeue 300),
           c <| shim_configs ::= alter (λ o, o <| status := Some (reconciled_status now (default 0 (sc_generation sc))) |>) (ns, name) |>)) in
        match (if deployment_read no then deployments c !! (ns, deployment_name name) else None) with
        | Some pod =>
            refused (patch_deployment no) (λ c,
              finish (c <| deployments ::= <[(ns, deployment_name name) := with_sidecar (spec sc) pod]> |>)) c
        | None => finish c
        end) c
  end.
(** [cleanup_shim_config] *)
Definition cleanup_shim_config (no : Refusals) sc c : result OperatorError Action * Cluster :=
  let ns := default "" (sc_namespace sc) in
  let name := default "" (sc_name sc) in
  let c := match delete_configmap no with
           | Some _ => c
           | None => c <| configmaps ::= delete (ns, configmap_name name) |>
           end in
  refused (patch_object no) (λ c, (Ok AwaitChange, c <| shim_configs ::= alter (λ o, o <| sc_finalizers := None |>) (ns, name) |>)) c.

(** ** Theorems *)

(** The variables [Config] looks at *)
Definition CONFIG_KEYS : list string :=
  ["HEALTH_CMD"; "HEALTH_LISTEN"; "HEALTH_INTERVAL_SECS"; "HEALTH_TIMEOUT_SECS"; "PROCESS_COMMAND"; "PROCESS_ARGS";
   "SHUTDOWN_TIMEOUT_SECS"; "SHIM_MAX_MEMORY_BYTES"; "SHIM_MAX_CPU_PERCENT"; "SHIM_MAX_OPEN_FILES"; "SHIM_TENANT_ID";
   "SHIM_TENANT_MAX_MEMORY"; "SHIM_TENANT_MAX_CPU"].
Lemma from_env_agree (e1 e2 : environment) :
  Forall (λ k, e1 !! k = e2 !! k) CONFIG_KEYS → from_env e1 = from_env e2 ∧ ∀ o k, merge e1 o k = merge e2 o k.
Proof.
  intros H. repeat (apply Forall_cons in H as [? H]).
  split; [|intros o k]; unfold from_env, env_health, env_process, env_quota, env_tenant, env_set, merge, merge_health,
    merge_process, merge_quota, merge_tenants, when_set; by repeat match goal with E : e1 !! _ = _ |- _ => rewrite E; clear E end.
Qed.
Lemma load_config_agree (e1 e2 : environment) file cmd args :
  Forall (λ k, e1 !! k = e2 !! k) CONFIG_KEYS → load_config file e1 cmd args = load_config file e2 cmd args.
Proof. intros [H1 H2]%from_env_agree. unfold load_config, result_bind.
  destruct (default (Ok default_config) file) as [c|e]; [|done]. by rewrite H1, H2.
Qed.
Lemma configmap_keys s k : k ∈ CONFIG_KEYS → generate_configmap_data s !! k = None.
Proof.
  intros Hk. unfold generate_configmap_data. set (opts := default _ _).
  assert (∀ m : gmap string string, m !! k = None → match otel_endpoint opts with Some e => <["SHIM_OTEL_ENDPOINT" := e]> m | None => m end !! k = None) as H.
  { intros m Hm. destruct (otel_endpoint opts); [|done]. rewrite lookup_insert_ne; [done|].
    intros <-. revert Hk. apply (bool_decide_eq_false_1 _). vm_compute. done. }
  apply H. rewrite !lookup_insert_ne; [apply lookup_empty|..]; intros <-; revert Hk; apply (bool_decide_eq_false_1 _); vm_compute; done.
Qed.
(** The variables of the sidecar, which is not given the ConfigMap *)
Definition sidecar_env (s : ShimConfigSpec) : environment := list_to_map (c_env (build_sidecar_container s)).
Lemma sidecar_keys s k : k ∈ CONFIG_KEYS → sidecar_env s !! k = None.
Proof.
  intros Hk. apply not_elem_of_list_to_map_1. simpl. unfold CONFIG_KEYS in Hk.
  intros Hin. assert (k ∈ ["SHIM_CHILD_COMMAND"; "SHIM_CHILD_ARGS"; "SHIM_FEATURES"]) as Hk'.
  { repeat case_bool_decide; csimpl in *; rewrite !elem_of_cons in *; tauto. }
  rewrite !elem_of_cons, elem_of_nil in Hk'. destruct_or!; subst; try done; revert Hk; apply (bool_decide_eq_false_1 _); vm_compute; done.
Qed.
(** What the operator configures does not reach the shim: whatever a [ShimConfig] says,
    the program that runs with the variables of its sidecar, or with those of its
    ConfigMap, next to any environment, assembles the same configuration as without
    them; in particular the child command of the resource is never the command run. *)
Theorem operator_config_inert s env file cmd args :
  load_config file (sidecar_env s ∪ env) cmd args = load_config file env cmd args ∧
  load_config file (generate_configmap_data s ∪ env) cmd args = load_config file env cmd args.
Proof.
  split; apply load_config_agree, Forall_forall; intros k Hk; apply lookup_union_r; [by apply sidecar_keys|by apply configmap_keys].
Qed.

(** A reconciliation that the server accepts: the ConfigMap is the one of the spec, a
    deployment with a pod template has a sidecar, nothing else changes, and doing it
    again changes nothing but the time in the status. *)
Definition accepts (no : Refusals) : Prop :=
  patch_configmap no = None ∧ deployment_read no = true ∧ patch_deployment no = None ∧ patch_status no = None.
Theorem reconcile_applies now no sc c :
  accepts no →
  let ns := default "" (sc_namespace sc) in
  let name := default "" (sc_name sc) in
  ∃ c', reconcile_shim_config now no sc c = (Ok (Requeue 300), c') ∧
    cm_data <$> configmaps c' !! (ns, configmap_name name) = Some (generate_configmap_data (spec sc)) ∧
    deployments c' = alter (with_sidecar (spec sc)) (ns, deployment_name name) (deployments c) ∧
    (status <$> shim_configs c' !! (ns, name)) =
      (λ _, Some (reconciled_status now (default 0 (sc_generation sc)))) <$> shim_configs c !! (ns, name).
Proof.
  intros (H1 & H2 & H3 & H4). unfold reconcile_shim_config, refused. simpl. rewrite H1, H2, H3, H4.
  set (k := (_, deployment_name _)). destruct (deployments c !! k) as [pod|] eqn:Ed; eexists; (split; [done|]); simpl;
    rewrite lookup_insert_eq, lookup_alter_eq; (split_and!; [done| |by destruct (shim_configs c !! _)]); apply map_eq; intros j;
    (destruct (decide (j = k)) as [->|]; [|by rewrite ?lookup_insert_ne, lookup_alter_ne by done]);
    by rewrite lookup_alter_eq, ?lookup_insert_eq, Ed.
Qed.
Lemma with_sidecar_idem s s' pod : with_sidecar s' (with_sidecar s pod) = with_sidecar s pod.
Proof.
  destruct pod as [cs|]; [|done]. simpl. destruct (existsb _ cs) eqn:E; simpl; [by rewrite E|].
  by rewrite existsb_app, orb_true_r.
Qed.
(** The sidecar is made once: after a deployment has been reconciled, no later
    [ShimConfig] of that name, whatever it says, changes the containers of its pods. *)
Theorem sidecar_never_updated now now' no no' sc sc' c c1 c2 a a' :
  accepts no → accepts no' → sc_name sc' = sc_name sc → sc_namespace sc' = sc_namespace sc →
  reconcile_shim_config now no sc c = (a, c1) → reconcile_shim_config now' no' sc' c1 = (a', c2) →
  deployments c2 = deployments c1.
Proof.
  intros Hn Hn' Hname Hns E1 E2.
  destruct (reconcile_applies now no sc c Hn) as (x1 & E1' & _ & D1 & _). rewrite E1 in E1'. simplify_eq.
  destruct (reconcile_applies now' no' sc' x1 Hn') as (x2 & E2' & _ & D2 & _). rewrite E2 in E2'. simplify_eq.
  rewrite D2, D1, Hname, Hns. apply map_eq. intros j.
  destruct (decide (j = (default "" (sc_namespace sc), deployment_name (default "" (sc_name sc))))) as [->|];
    [|by rewrite !lookup_alter_ne by done].
  rewrite !lookup_alter_eq. destruct (deployments c !! _); [|done]. simpl. by rewrite with_sidecar_idem.
Qed.
(** Errors are retried after a constant 30 seconds, or not at all. *)
Lemma backoff_constant e : error_backoff e = Requeue 30 ∨ error_backoff e = AwaitChange.
Proof. unfold error_backoff. destruct (classify e); auto. Qed.
End reconcile.

(** ** Runs *)
Section operator_runs.
#[local] Existing Instance decimal_rfc3339.
Definition demo_spec : ShimConfigSpec :=
  mkSpec "postgres" ["-D"; "/data"] ["health"] (Some (mkRequirements (Some (mkResource (Some "100m") (Some ""))) None)) None.
Definition demo_sc (s : ShimConfigSpec) : ShimConfig := mkShimConfig (Some "db") (Some "prod") (Some 3) None s None.
Definition yes : Refusals := mkRefusals None true None None None None.
Definition pod : list Container := [mkContainer "app" None [] None []].
Definition demo_cluster : Cluster :=
  mkCluster ∅ {[("prod", "db-deployment") := Some pod]} {[("prod", "db") := demo_sc demo_spec]}.

Example demo_container :
  (λ c, (c_env c, c_resources c, ports c)) (build_sidecar_container demo_spec) =
  ([("SHIM_CHILD_COMMAND", "postgres"); ("SHIM_CHILD_ARGS", "-D,/data"); ("SHIM_FEATURES", "health")],
   Some (Some {["cpu" := "100m"]}, None), [("metrics", 9090); ("health", 9091)]).
Proof. vm_compute. done. Qed.
(** The command of the resource, and the command the program assembles *)
Example demo_inert :
  (λ c, command (process c)) <$>
    match load_config None (sidecar_env demo_spec) None [] with Ok c => Some c | Err _ => None end = Some "".
Proof. vm_compute. done. Qed.
(** A cluster without the deployment is reported ready with one replica. *)
Example demo_ready :
  (λ s, (ready_replicas s, cond_status <$> conditions s)) <$>
    ((shim_configs (reconcile_shim_config 0 yes (demo_sc demo_spec) (mkCluster ∅ ∅ (shim_configs demo_cluster))).2 !! ("prod", "db"))
       ≫= status)
  = Some (Some 1, ["True"; "False"]).
Proof. vm_compute. done. Qed.
Example demo_cleanup :
  let c := (reconcile_shim_config 0 yes (demo_sc demo_spec) demo_cluster).2 in
  (size (configmaps c), size (configmaps (cleanup_shim_config yes (demo_sc demo_spec) c).2),
   deployments (cleanup_shim_config yes (demo_sc demo_spec) c).2 !! ("prod", "db-deployment"))
  = (1%nat, 0%nat, Some (Some (pod ++ [build_sidecar_container demo_spec]))).
Proof. vm_compute. done. Qed.
Example demo_backoff :
  error_backoff <$> [Kubernetes "Connection refused"; Kubernetes "NotFound"; Io "x"; Validation "x"]
  = [Requeue 30; AwaitChange; Requeue 30; AwaitChange].
Proof. vm_compute. done. Qed.
Lemma yes_accepts : accepts yes.
Proof. by split_and!. Qed.
Lemma reconcile_applies_witness :
  ∃ c', reconcile_shim_config 5 yes (demo_sc demo_spec) demo_cluster = (Ok (Requeue 300), c') ∧
    deployments c' !! ("prod", "db-deployment") = Some (Some (pod ++ [build_sidecar_container demo_spec])).
Proof.
  destruct (reconcile_applies 5 yes (demo_sc demo_spec) demo_cluster yes_accepts) as (c' & E & _ & D & _).
  exists c'. split; [exact E|]. rewrite D. vm_compute. reflexivity.
Defined.
Lemma sidecar_never_updated_witness :
  let c1 := (reconcile_shim_config 5 yes (demo_sc demo_spec) demo_cluster).2 in
  deployments (reconcile_shim_config 9 yes (demo_sc (mkSpec "redis" [] [] None None)) c1).2 = deployments c1.
Proof.
  destruct (reconcile_shim_config 5 yes (demo_sc demo_spec) demo_cluster) as [a c1] eqn:E1. simpl.
  destruct (reconcile_shim_config 9 yes (demo_sc (mkSpec "redis" [] [] None None)) c1) as [a' c2] eqn:E2. simpl.
  exact (sidecar_never_updated 5 9 yes yes (demo_sc demo_spec) (demo_sc (mkSpec "redis" [] [] None None)) demo_cluster c1 c2
           a a' yes_accepts yes_accepts eq_refl eq_refl E1 E2).
Defined.
End operator_runs.
