(* ===== verification/Databases.v ===== *)
(** * The database-specific shims

    [mongodb-shim], [cockroachdb-shim], [dynamodb-shim], [elasticsearch-shim] and
    [cassandra-shim]: their settings, health checks, backups and topology queries, a
    Module each.  Commands, queries and HTTP replies are inputs, JSON values are given
    by the fields that are looked at.  Their [init], [start] and [stop] only log. *)

From Stdlib Require Import SpecFloat.
From S2P Require Import Prelude Text Floats Commands Config.

(** [loop_retry::with_backoff] with a policy of [max_retries]: the first attempt that
    succeeds, among the first one and its retries; every error here can be retried. *)
Class Backoff := {
  with_backoff : ∀ {A}, nat → (nat → result string A) → result string A;
  backoff_ok A n (f : nat → result string A) i a :
    (i ≤ n)%nat → (∀ j, (j < i)%nat → ¬ is_ok (f j)) → f i = Ok a → with_backoff n f = Ok a;
  backoff_err A n (f : nat → result string A) :
    (∀ j, (j ≤ n)%nat → ¬ is_ok (f j)) → ¬ is_ok (with_backoff n f)
}.
Definition MAX_RETRIES : nat := 3.
Fixpoint first_ok {A} (n i : nat) (f : nat → result string A) : result string A :=
  match f i, n with
  | Ok a, _ => Ok a
  | Err e, O => Err e
  | Err _, S n => first_ok n (S i) f
  end.
Program Definition demo_backoff : Backoff := {| with_backoff A n f := first_ok n 0 f |}.
Next Obligation.
  intros A n f i a Hi Hf Ha. assert (∀ k m, i = (k + m)%nat → (m ≤ n)%nat → ∀ n', (m ≤ n')%nat → first_ok n' k f = Ok a) as H.
  { intros k m. revert k. induction m as [|m IH]; intros k -> Hm n' Hn'; destruct n'; simpl.
    all: rewrite ?Nat.add_0_r in *; rewrite ?Ha; try done; try lia.
    destruct (f k) as [x|e] eqn:Ek; [exfalso; apply (Hf k); [lia|by rewrite Ek]|].
    rewrite <-Nat.add_succ_comm in *. apply (IH (S k)); try done; lia. }
  by apply (H 0%nat i).
Qed.
Next Obligation.
  intros A n f Hf. assert (∀ m k, (k + m = n)%nat → ¬ is_ok (first_ok m k f)) as H; [|by apply H].
  induction m as [|m IH]; intros k Hk; simpl; (destruct (f k) as [x|e] eqn:Ek; [exfalso; apply (Hf k); [lia|by rewrite Ek]|]).
  - by intros [].
  - apply IH. lia.
Qed.

Definition parse_u16 : string → option Z := parse_unsigned (2 ^ 16 - 1).
(** [str::lines] *)
Definition drop_last_empty (l : list string) : list string :=
  match last l with Some EmptyString => take (length l - 1) l | _ => l end.
Definition str_lines (s : string) : list string :=
  (λ l, default l (strip_suffix (String (ascii_of_nat 13) "") l)) <$> drop_last_empty (split_on newline s).

(** ** MongoDB *)
Module Mongo.
Record MongoHealth := mkHealth { ok : bool; version : string; connections : Z; uptime_secs : Z }.
Record MongoBackup := mkBackup {
  path : string; size_bytes : Z; b_timestamp : string; b_database : string; success : bool; error : option string
}.
Record MongoShim := mkShim {
  uri : string; database : string; backup_dir : string; backup_cmd : string; retention_days : Z;
  health_checks : Z; backup_success : Z; backup_failure : Z; last_backup : option Z
}.
#[export] Instance MongoShim_settable : Settable MongoShim := λ s,
  mkShim (uri s) (database s) (backup_dir s) (backup_cmd s) (retention_days s) (health_checks s) (backup_success s)
    (backup_failure s) (last_backup s).
Definition new_mongo (env : environment) : MongoShim :=
  mkShim (env_or env "MONGO_URI" "mongodb://localhost:27017") (env_or env "MONGO_DATABASE" "")
    (env_or env "MONGO_BACKUP_DIR" "/tmp/mongo-backups") (env_or env "MONGO_BACKUP_CMD" "mongodump")
    (env_parse env "MONGO_RETENTION_DAYS" parse_u32 30) 0 0 0 None.

(** The fields of [serverStatus], when they have the types looked for *)
Record ServerStatus := mkStatus { st_ok : option f64; st_version : option string; st_current : option Z; st_uptime : option Z }.
Section mongo.
Context `{BO : Backoff} (parse_status : string → result string ServerStatus) (stamp : Z → string).
Definition health_command (s : MongoShim) : Command :=
  mkCommand "mongosh" [uri s; "--eval"; "JSON.stringify(db.serverStatus())"; "--quiet"] [].
Definition health_attempt (run : runner) (s : MongoShim) : result string MongoHealth :=
  match run (health_command s) with
  | Err e => Err ("mongosh execution failed: " +:+ e)
  | Ok o =>
      if exit_ok o then
        match parse_status (stdout o) with
        | Err e => Err ("Failed to parse serverStatus: " +:+ e)
        | Ok v => Ok (mkHealth (SFeqb (default (f64_of_Z 0) (st_ok v)) (f64_of_Z 1)) (default "unknown" (st_version v))
                        (as_u32 (default 0 (st_current v))) (default 0 (st_uptime v)))
        end
      else Err ("mongosh failed: " +:+ stderr o)
  end.
(** [check_health]; [world] gives the runner of each attempt *)
Definition check_health (world : nat → runner) (s : MongoShim) : result string MongoHealth * MongoShim :=
  (with_backoff MAX_RETRIES (λ i, health_attempt (world i) s), s <| health_checks ::= λ n, add64 n 1 |>).
(** [backup]: the answers of [create_dir_all] and of reading the directory, whose
    entries have a size when their metadata can be read *)
Definition backup_path (s : MongoShim) : string := backup_dir s +:+ "/" +:+ database s.
Definition backup_command (s : MongoShim) : Command :=
  mkCommand (backup_cmd s) ["--uri"; uri s; "--db"; database s; "--out"; backup_path s] [].
Definition total_size (entries : list (option Z)) : Z := foldl (λ t e, match e with Some n => add64 t n | None => t end) 0 entries.
Definition backup (mkdir : result string unit) (run : runner) (entries : result string (list (option Z))) (t1 t2 : Z)
    (s : MongoShim) : result string MongoBackup * MongoShim :=
  if bool_decide (database s = "") then (Err "MONGO_DATABASE not set", s)
  else
    match mkdir with
    | Err e => (Err e, s)
    | Ok _ =>
        match run (backup_command s) with
        | Err e => (Err e, s)
        | Ok o =>
            if exit_ok o then
              match entries with
              | Err e => (Err e, s)
              | Ok l =>
                  (Ok (mkBackup (backup_path s) (total_size l) (stamp t1) (database s) true None),
                   s <| backup_success ::= λ n, add64 n 1 |> <| last_backup := Some t2 |>)
              end
            else (Ok (mkBackup (backup_path s) 0 (stamp t1) (database s) false (Some (stderr o))),
                  s <| backup_failure ::= λ n, add64 n 1 |>)
        end
    end.
Definition mongo_metrics (s : MongoShim) : list (string * Z) :=
  [("mongo_health_checks_total", health_checks s); ("mongo_backup_success_total", backup_success s);
   ("mongo_backup_failure_total", backup_failure s)].
(** The time of a backup is in its record only: whatever was there, the next backup of
    the database goes to the same directory. *)
Lemma backups_overwrite m r e t1 t2 s b s' m' r' e' t1' t2' b' s'' :
  backup m r e t1 t2 s = (Ok b, s') → backup m' r' e' t1' t2' s' = (Ok b', s'') → path b' = path b.
Proof.
  assert (∀ m r e t1 t2 s b s', backup m r e t1 t2 s = (Ok b, s') → path b = backup_path s ∧ backup_path s' = backup_path s) as H.
  { unfold backup. intros. repeat case_match; by simplify_eq. }
  intros [Hp Hs]%H [Hp' _]%H. congruence.
Qed.
(** A backup that cannot be run or measured is an error that no counter shows. *)
Lemma backup_counted m r e t1 t2 s b s' :
  backup m r e t1 t2 s = (b, s') →
  match b with
  | Ok b => if success b then backup_success s' = add64 (backup_success s) 1 ∧ backup_failure s' = backup_failure s
            else backup_success s' = backup_success s ∧ backup_failure s' = add64 (backup_failure s) 1
  | Err _ => s' = s
  end.
Proof. unfold backup. intros. by repeat case_match; simplify_eq/=. Qed.
End mongo.
End Mongo.

(** ** CockroachDB *)
Module Crdb.
Record CrdbNode := mkNode { node_id : Z; address : string; locality : string; is_live : bool; ranges : Z; leases : Z }.
Record CrdbHealth := mkHealth { ok : bool; node_count : Z; live_nodes : Z; version : string; uptime_secs : Z }.
Record CrdbShim := mkShim {
  host : string; port : Z; user : string; password : string; database : string; url : option string;
  health_checks : Z; topology_queries : Z
}.
#[export] Instance CrdbShim_settable : Settable CrdbShim := λ s,
  mkShim (host s) (port s) (user s) (password s) (database s) (url s) (health_checks s) (topology_queries s).
Definition new_crdb (env : environment) : CrdbShim :=
  mkShim (env_or env "CRDB_HOST" "localhost") (env_parse env "CRDB_PORT" parse_u16 26257) (env_or env "CRDB_USER" "root")
    (env_or env "CRDB_PASSWORD" "") (env_or env "CRDB_DATABASE" "defaultdb") (env !! "CRDB_URL") 0 0.
Definition connection_string (s : CrdbShim) : string :=
  match url s with
  | Some u => u
  | None =>
      let who := if bool_decide (password s = "") then user s else user s +:+ ":" +:+ password s in
      "postgresql://" +:+ who +:+ "@" +:+ host s +:+ ":" +:+ pretty (Z.to_N (port s)) +:+ "/" +:+ database s
  end.
(** The answers of the database: no connection, or those of the three queries that
    came through *)
Record Answers := mkAnswers { live_count : option Z; gossip_count : option Z; cluster_version : option string }.
Definition ready_command (s : CrdbShim) : Command :=
  mkCommand "pg_isready" ["-h"; host s; "-p"; pretty (Z.to_N (port s)); "-U"; user s] [].
(** [check_health] *)
Definition check_health (run : runner) (connect : string → option Answers) (s : CrdbShim) : result string CrdbHealth * CrdbShim :=
  let s := s <| health_checks ::= λ n, add64 n 1 |> in
  match run (ready_command s) with
  | Err e => (Err e, s)
  | Ok o =>
      if exit_ok o then
        match connect (connection_string s) with
        | Some a =>
            (Ok (mkHealth true (default 1 (as_u32 <$> gossip_count a)) (default 1 (as_u32 <$> live_count a))
                   (default "unknown" (cluster_version a)) 0),
             s <| topology_queries ::= λ n, add64 n 1 |>)
        | None => (Ok (mkHealth true 1 1 "unknown" 0), s)
        end
      else (Ok (mkHealth false 1 0 "unknown" 0), s)
  end.
(** [get_topology], with the answer of the connection and of the query *)
Definition get_topology (query : string → result string (list CrdbNode)) (s : CrdbShim) : result string (list CrdbNode) * CrdbShim :=
  (query (connection_string s), s <| topology_queries ::= λ n, add64 n 1 |>).
Definition crdb_metrics (s : CrdbShim) : list (string * Z) :=
  [("crdb_health_checks_total", health_checks s); ("crdb_topology_queries_total", topology_queries s)].
(** A node that answers [pg_isready] is reported as a live cluster of one, also when no
    session can be opened on it. *)
Lemma unreachable_is_healthy run connect s o :
  run (ready_command s) = Ok o → exit_ok o = true → connect (connection_string s) = None →
  (check_health run connect s).1 = Ok (mkHealth true 1 1 "unknown" 0).
Proof. unfold check_health, ready_command, connection_string. simpl. intros -> -> Hc. by rewrite Hc. Qed.
End Crdb.

(** ** DynamoDB *)
Module Dynamo.
Record DynamoTableInfo := mkInfo {
  table_name : string; item_count : Z; table_size_bytes : Z; status : string; billing_mode : string;
  read_capacity : Z; write_capacity : Z
}.
Record DynamoHealth := mkHealth { ok : bool; table_count : Z; tables : list string }.
Record DynamoShim := mkShim { region : string; endpoint : option string; table : string; health_checks : Z; backup_exports : Z }.
#[export] Instance DynamoShim_settable : Settable DynamoShim := λ s,
  mkShim (region s) (endpoint s) (table s) (health_checks s) (backup_exports s).
Definition new_dynamo (env : environment) : DynamoShim :=
  mkShim (env_or env "DYNAMODB_REGION" "us-east-1") (env !! "DYNAMODB_ENDPOINT") (env_or env "DYNAMODB_TABLE" "") 0 0.
(** The client's answers: a page of at most [limit] names, and a description *)
Record Description := mkDescription {
  d_items : option Z; d_size : option Z; d_status : option string; d_billing : option string;
  d_throughput : option (option Z * option Z)
}.
Class Client := {
  list_tables : string → option string → Z → result string (list string);
  describe : string → option string → string → result string (option Description);
  list_tables_limit r e n l : list_tables r e n = Ok l → Z.of_nat (length l) ≤ n
}.
Section dynamo.
Context `{CL : Client}.
Definition check_health (s : DynamoShim) : result string DynamoHealth * DynamoShim :=
  let s := s <| health_checks ::= λ n, add64 n 1 |> in
  match list_tables (region s) (endpoint s) 100 with
  | Err e => (Err e, s)
  | Ok l => let n := as_u32 (Z.of_nat (length l)) in (Ok (mkHealth (0 <? n) n l), s)
  end.
Definition describe_table (name : string) (s : DynamoShim) : result string DynamoTableInfo :=
  d <-? describe (region s) (endpoint s) name ;
  match d with
  | None => Err "No table in response"
  | Some d =>
      Ok (mkInfo name (as_u64 (default 0 (d_items d))) (as_u64 (default 0 (d_size d))) (default "Unknown" (d_status d))
            (default "PayPerRequest" (d_billing d)) (default 0 (d_throughput d ≫= fst)) (default 0 (d_throughput d ≫= snd)))
  end.
Definition dynamo_metrics (s : DynamoShim) : list (string * Z) :=
  [("dynamo_health_checks_total", health_checks s); ("dynamo_backup_exports_total", backup_exports s)].
(** The check sees one page of names: it never counts more than a hundred tables, and
    an account without tables is not healthy. *)
Lemma one_page s h : (check_health s).1 = Ok h →
  0 ≤ table_count h ≤ 100 ∧ table_count h = Z.of_nat (length (tables h)) ∧ (ok h = true ↔ tables h ≠ []).
Proof.
  unfold check_health. simpl. destruct (list_tables _ _ 100) as [l|e] eqn:E; [|done]. intros [= <-]. simpl.
  apply list_tables_limit in E. unfold as_u32. rewrite wrap_small by (unfold in_u; lia). split_and!; [lia..|].
  rewrite Z.ltb_lt. destruct l; simpl; split; intros; try done; lia.
Qed.
End dynamo.
End Dynamo.

(** ** Elasticsearch *)
Module Es.
Record EsHealth := mkHealth {
  status : string; cluster_name : string; node_count : Z; active_shards : Z; relocating_shards : Z;
  initializing_shards : Z; unassigned_shards : Z
}.
Record ElasticsearchShim := mkShim { url : string; index : string; snapshot_repo : string; health_checks : Z }.
#[export] Instance ElasticsearchShim_settable : Settable ElasticsearchShim := λ s,
  mkShim (url s) (index s) (snapshot_repo s) (health_checks s).
Definition new_es (env : environment) : ElasticsearchShim :=
  mkShim (env_or env "ES_URL" "http://localhost:9200") (env_or env "ES_INDEX" "") (env_or env "ES_SNAPSHOT_REPO" "") 0.
Definition es_metrics (s : ElasticsearchShim) : list (string * Z) := [("es_health_checks_total", health_checks s)].
(** A body, by the fields that are read, when they have the types looked for *)
Record Body := mkBody { b_str : string → option string; b_u64 : string → option Z }.
Section es.
Context `{BO : Backoff}.
Definition health_of (b : Body) : EsHealth :=
  let n k := as_u32 (default 0 (b_u64 b k)) in
  mkHealth (default "unknown" (b_str b "status")) (default "unknown" (b_str b "cluster_name")) (n "number_of_nodes")
    (n "active_shards") (n "relocating_shards") (n "initializing_shards") (n "unassigned_shards").
(** [check_health]: each attempt is a request, whose status is not looked at *)
Definition check_health (get : nat → string → result string (Z * result string Body)) (s : ElasticsearchShim)
    : result string EsHealth * ElasticsearchShim :=
  let u := url s +:+ "/_cluster/health" in
  (with_backoff MAX_RETRIES (λ i, r <-? get i u; b <-? r.2; Ok (health_of b)),
   s <| health_checks ::= λ n, add64 n 1 |>).
(** [create_snapshot_repo] and [create_snapshot]: a reply with any status will do. *)
Definition create_snapshot_repo (put : string → option string → result string Z) (repo location : string) (s : ElasticsearchShim)
    : result string unit :=
  _ <-? put (url s +:+ "/_snapshot/" +:+ repo) (Some location) ; Ok ().
Definition create_snapshot (put : string → option string → result string Z) (repo snapshot : string) (s : ElasticsearchShim)
    : result string unit :=
  _ <-? put (url s +:+ "/_snapshot/" +:+ repo +:+ "/" +:+ snapshot) None ; Ok ().
(** A snapshot the server refuses is reported as created. *)
Lemma refused_snapshot_succeeds put repo snapshot s code :
  put (url s +:+ "/_snapshot/" +:+ repo +:+ "/" +:+ snapshot) None = Ok code → create_snapshot put repo snapshot s = Ok ().
Proof. unfold create_snapshot. by intros ->. Qed.
(** The health of the first attempt that gets a JSON body, also of an error page *)
Lemma health_first_body get s i b :
  (i ≤ MAX_RETRIES)%nat → get i (url s +:+ "/_cluster/health") = Ok b → is_ok b.2 →
  (∀ j, (j < i)%nat → ¬ is_ok (get j (url s +:+ "/_cluster/health"))) →
  ∃ body, b.2 = Ok body ∧ (check_health get s).1 = Ok (health_of body).
Proof.
  intros Hi Hg Hb Hj. destruct b as [code [body|e]]; simpl in *; [|done]. exists body. split; [done|]. unfold check_health. simpl.
  apply (backoff_ok _ _ _ i); [done| |by rewrite Hg]. intros j Hlt. specialize (Hj j Hlt). by destruct (get j _).
Qed.
End es.
End Es.

(** ** Cassandra *)
Module Cassandra.
Record CassandraHealth := mkHealth {
  ok : bool; cluster_name : string; node_count : Z; live_nodes : Z; datacenter_count : Z; version : string
}.
Record CassandraShim := mkShim { host : string; port : Z; jmx_port : Z; cluster : string; health_checks : Z }.
#[export] Instance CassandraShim_settable : Settable CassandraShim := λ s,
  mkShim (host s) (port s) (jmx_port s) (cluster s) (health_checks s).
Definition new_cassandra (env : environment) : CassandraShim :=
  mkShim (env_or env "CASSANDRA_HOST" "localhost") (env_parse env "CASSANDRA_PORT" parse_u16 9042)
    (env_parse env "CASSANDRA_JMX_PORT" parse_u16 7199) (env_or env "CASSANDRA_CLUSTER" "local") 0.
Definition cassandra_metrics (s : CassandraShim) : list (string * Z) := [("cassandra_health_checks_total", health_checks s)].
Definition status_command (s : CassandraShim) : Command :=
  mkCommand "nodetool" ["-h"; host s; "-p"; pretty (Z.to_N (jmx_port s)); "status"] [].
(** The loop over the lines of [nodetool status] *)
Definition is_node (l : string) : bool := existsb (starts_with l) ["UN"; "DN"; "UL"; "UM"; "UJ"].
Record Count := mkCount { nodes : Z; live : Z; datacenters : gset string }.
Definition count_line (c : Count) (l : string) : Count :=
  if is_node l then
    mkCount (add32 (nodes c) 1) (if starts_with l "UN" then add32 (live c) 1 else live c)
      (match split_whitespace l !! 3%nat with Some p => {[p]} ∪ datacenters c | None => datacenters c end)
  else c.
Definition find_line (pat : string) (ls : list string) : option string := head (filter (λ l, str_contains l pat = true) ls).
(** [check_health] *)
Definition check_health (run : runner) (s : CassandraShim) : result string CassandraHealth * CassandraShim :=
  let s := s <| health_checks ::= λ n, add64 n 1 |> in
  match run (status_command s) with
  | Err e => (Err e, s)
  | Ok o =>
      if exit_ok o then
        let ls := str_lines (stdout o) in
        let c := foldl count_line (mkCount 0 0 ∅) ls in
        (Ok (mkHealth (0 <? live c)
               (default (cluster s) (find_line "Datacenter:" ls ≫= λ l, split_whitespace l !! 1%nat))
               (nodes c) (live c) (as_u32 (Z.of_nat (size (datacenters c))))
               (trim (default "unknown" (find_line "Release version:" ls ≫= λ l, split_on ":" l !! 1%nat)))), s)
      else (Err ("nodetool status failed: " +:+ stderr o), s)
  end.

(** *** What it counts *)

(** A row of the table: status, address, load with its unit, and the rest *)
Record Row := mkRow { r_status : string; r_address : string; r_load : string; r_unit : string; r_rest : string }.
Definition show_row (r : Row) : string :=
  r_status r +:+ "  " +:+ r_address r +:+ "  " +:+ r_load r +:+ " " +:+ r_unit r +:+ "  " +:+ r_rest r.
Definition word (s : string) : Prop := s ≠ "" ∧ str_all (λ c, negb (Ascii.is_space c)) s = true.
Definition row_ok (r : Row) : Prop :=
  r_status r ∈ ["UN"; "DN"; "UL"; "UM"; "UJ"] ∧ word (r_address r) ∧ word (r_load r) ∧ word (r_unit r).

(** [split_whitespace] in its steps *)
Fixpoint split_go (cur s : string) : list string :=
  match s with
  | EmptyString => if bool_decide (cur = "") then [] else [cur]
  | String c r =>
      if Ascii.is_space c then (if bool_decide (cur = "") then split_go "" r else cur :: split_go "" r)
      else split_go (cur +:+ String c "") r
  end.
Lemma split_whitespace_go s : split_whitespace s = split_go "" s.
Proof. reflexivity. Qed.
Lemma split_go_word cur w s :
  str_all (λ c, negb (Ascii.is_space c)) w = true → split_go cur (w +:+ s) = split_go (cur +:+ w) s.
Proof.
  revert cur. induction w as [|c w IH]; intros cur H; [by rewrite str_app_nil_r|]. simpl in H.
  apply andb_true_iff in H as [Hc%negb_true_iff H]. rewrite str_app_cons. cbn [split_go]. rewrite Hc, IH by done.
  by rewrite str_app_assoc.
Qed.
Lemma split_whitespace_word w s : word w → split_whitespace (w +:+ String " " s) = w :: split_whitespace s.
Proof.
  intros [Hne Hw]. rewrite !split_whitespace_go, split_go_word by done. change ("" +:+ w) with w. cbn [split_go].
  change (Ascii.is_space " ") with true. cbn iota. by rewrite bool_decide_eq_false_2.
Qed.
Lemma split_whitespace_space s : split_whitespace (String " " s) = split_whitespace s.
Proof. by rewrite !split_whitespace_go. Qed.
Lemma two_spaces x : "  " +:+ x = String " " (String " " x).
Proof. done. Qed.
Lemma one_space x : " " +:+ x = String " " x.
Proof. done. Qed.
Lemma row_words r : row_ok r → split_whitespace (show_row r) !! 3%nat = Some (r_unit r) ∧ is_node (show_row r) = true ∧
  starts_with (show_row r) "UN" = bool_decide (r_status r = "UN").
Proof.
  intros (Hs & Ha & Hl & Hu). assert (word (r_status r)) as Hw.
  { rewrite !elem_of_cons, elem_of_nil in Hs. destruct_or? Hs; try done; (split; [rewrite Hs; discriminate|rewrite Hs; reflexivity]). }
  split; [|split].
  - unfold show_row. rewrite !two_spaces, one_space.
    rewrite (split_whitespace_word (r_status r)) by done. rewrite split_whitespace_space.
    rewrite (split_whitespace_word (r_address r)) by done. rewrite split_whitespace_space.
    rewrite (split_whitespace_word (r_load r)) by done. rewrite (split_whitespace_word (r_unit r)) by done. done.
  - unfold show_row, is_node. rewrite !elem_of_cons, elem_of_nil in Hs.
    destruct_or? Hs; try done; rewrite Hs; reflexivity.
  - unfold show_row. rewrite !elem_of_cons, elem_of_nil in Hs. destruct_or? Hs; try done; rewrite Hs; reflexivity.
Qed.
Definition unlines (ls : list string) : string := foldr (λ l s, l +:+ String newline s) "" ls.
(** A line that is kept as it is *)
Definition plain (l : string) : Prop := avoids newline l = true ∧ strip_suffix (String (ascii_of_nat 13) "") l = None.
Lemma split_unlines ls : Forall plain ls → split_on newline (unlines ls) = ls ++ [""].
Proof.
  induction 1 as [|l ls [Hl _] Hls IH]; [done|]. simpl. by rewrite split_on_app, IH.
Qed.
Lemma str_lines_unlines ls : Forall plain ls → str_lines (unlines ls) = ls.
Proof.
  intros H. unfold str_lines, drop_last_empty. rewrite split_unlines by done. rewrite last_snoc, length_app.
  simpl. rewrite Nat.add_sub, take_app_length. induction H as [|l ls [_ Hl] Hls IH]; [done|]. csimpl. by rewrite Hl, IH.
Qed.
Definition up (r : Row) : bool := bool_decide (r_status r = "UN").
Lemma count_rows rows c :
  Forall row_ok rows →
  foldl count_line c (show_row <$> rows) =
    mkCount (foldl (λ n _, add32 n 1) (nodes c) rows) (foldl (λ n r, if up r then add32 n 1 else n) (live c) rows)
      (list_to_set (r_unit <$> rows) ∪ datacenters c).
Proof.
  intros H. revert c. induction H as [|r rows Hr Hrows IH]; intros c; simpl.
  - rewrite (left_id_L ∅ (∪)). by destruct c.
  - destruct (row_words r Hr) as (H3 & Hn & Hu). rewrite IH. unfold count_line. rewrite Hn, H3, Hu. simpl. f_equal.
    apply set_eq. intros x. rewrite !elem_of_union, elem_of_singleton. tauto.
Qed.
Lemma count_header ls c : Forall (λ l, is_node l = false) ls → foldl count_line c ls = c.
Proof. intros H. revert c. induction H as [|l ls Hl Hls IH]; intros c; [done|]. simpl. rewrite IH. unfold count_line. by rewrite Hl. Qed.
Lemma count_up {A} (p : A → bool) (l : list A) n :
  0 ≤ n → n + Z.of_nat (length l) < 2 ^ 32 →
  foldl (λ n r, if p r then add32 n 1 else n) n l = n + Z.of_nat (length (filter (λ r, p r = true) l)).
Proof.
  revert n. induction l as [|x l IH]; intros n Hn Hl; simpl in *; [lia|]. destruct (p x) eqn:E.
  - rewrite filter_cons_True by done. u_small. rewrite IH by lia. simpl. lia.
  - rewrite filter_cons_False by congruence. rewrite IH; lia.
Qed.
(** The health of a Cassandra cluster is read off the table of [nodetool status]: of a
    table in its usual form the nodes and those that are up are counted exactly, but
    what is taken for the data center of a node is the unit of its load, so the number
    of data centers is the number of different units. *)
Theorem datacenters_are_units run s header rows out :
  run (status_command s) = Ok out → exit_ok out = true → stdout out = unlines (header ++ (show_row <$> rows)) →
  Forall plain (header ++ (show_row <$> rows)) → Forall (λ l, is_node l = false) header → Forall row_ok rows →
  Z.of_nat (length rows) < 2 ^ 32 →
  ∃ h s', check_health run s = (Ok h, s') ∧
    node_count h = Z.of_nat (length rows) ∧ live_nodes h = Z.of_nat (length (filter (λ r, up r = true) rows)) ∧
    (ok h = true ↔ ∃ r, r ∈ rows ∧ r_status r = "UN") ∧
    datacenter_count h = Z.of_nat (size (list_to_set (C := gset string) (r_unit <$> rows))).
Proof.
  intros Hrun Hok Hout Hplain Hh Hr Hlen. unfold check_health. unfold status_command in *. simpl. rewrite Hrun, Hok, Hout.
  rewrite str_lines_unlines by done. rewrite foldl_app, (count_header header), count_rows by done. simpl.
  eexists _, _. split; [done|]. simpl.
  assert (foldl (λ n (_ : Row), add32 n 1) 0 rows = Z.of_nat (length rows)) as ->.
  { rewrite (count_up (λ _, true)) by lia. rewrite filter_all by (by apply Forall_true). lia. }
  rewrite count_up by lia. rewrite Z.add_0_l, (right_id_L ∅ (∪)). split_and!; [done|done| |].
  - rewrite Z.ltb_lt. split.
    + intros H. destruct (filter (λ r, up r = true) rows) as [|r l] eqn:E; [simpl in H; lia|]. exists r.
      assert (r ∈ filter (λ r, up r = true) rows) as Hin by (rewrite E; constructor).
      apply list_elem_of_filter in Hin as [Hu Hin]. split; [done|]. unfold up in Hu. by apply bool_decide_eq_true in Hu.
    + intros (r & Hin & Hu). assert (r ∈ filter (λ r, up r = true) rows) as Hf.
      { apply list_elem_of_filter. split; [|done]. unfold up. by apply bool_decide_eq_true. }
      destruct (filter _ rows); [by apply elem_of_nil in Hf|]. simpl. lia.
  - unfold as_u32. apply wrap_small. unfold in_u. split; [lia|].
    assert (size (list_to_set (C := gset string) (r_unit <$> rows)) ≤ length rows)%nat; [|lia].
    clear. induction rows as [|r rows IH]; csimpl; [apply Nat.le_0_l|].
    assert (size ({[r_unit r]} ∪ list_to_set (C := gset string) (r_unit <$> rows)) ≤ 1 + size (list_to_set (C := gset string) (r_unit <$> rows)))%nat; [|lia].
    rewrite <-(size_singleton (C := gset string) (r_unit r)). rewrite size_union_alt.
    pose proof (subseteq_size (list_to_set (r_unit <$> rows) ∖ {[r_unit r]}) (list_to_set (C := gset string) (r_unit <$> rows)) (subseteq_difference_l _ _ _ (reflexivity _))). lia.
Qed.

(** *** Runs *)
Definition demo_cassandra : CassandraShim := new_cassandra ∅.
Definition demo_header : list string := ["Datacenter: dc1"; "==============="; "--  Address    Load       Tokens"].
Definition demo_rows : list Row :=
  [mkRow "UN" "10.0.0.1" "104.5" "KiB" "256  a1  rack1"; mkRow "UN" "10.0.0.2" "1.2" "GiB" "256  b2  rack1";
   mkRow "DN" "10.0.0.3" "99.0" "KiB" "256  c3  rack2"].
Definition demo_table : string := unlines (demo_header ++ (show_row <$> demo_rows)).
Definition demo_run : runner := λ _, Ok (mkOutput true demo_table "").
(** One data center, said to be two; its name is that of the data center, and the
    version is not in this table. *)
Example demo_health :
  (check_health demo_run demo_cassandra).1 = Ok (mkHealth true "dc1" 3 2 2 "unknown").
Proof. vm_compute. done. Qed.
(** Nodes that are down and leaving, joining or moving are no nodes. *)
Example demo_leaving : is_node <$> ["DL  10.0.0.1"; "DJ  10.0.0.1"; "DM  10.0.0.1"; "?N  10.0.0.1"] = [false; false; false; false].
Proof. reflexivity. Qed.
Lemma datacenters_are_units_witness :
  ∃ h s', check_health demo_run demo_cassandra = (Ok h, s') ∧ node_count h = 3 ∧ datacenter_count h = 2.
Proof.
  assert (Forall plain (demo_header ++ (show_row <$> demo_rows))) as H1 by (repeat constructor).
  assert (Forall (λ l, is_node l = false) demo_header) as H2 by (repeat constructor).
  assert (Forall row_ok demo_rows) as H3.
  { apply Forall_forall. intros r Hr. unfold demo_rows in Hr. rewrite !elem_of_cons, elem_of_nil in Hr.
    destruct_or? Hr; try done; subst r; (split; [apply (bool_decide_unpack _); vm_compute; exact I|]);
      split_and!; (split; [discriminate|reflexivity]). }
  assert (Z.of_nat (length demo_rows) < 2 ^ 32) as H4 by (vm_compute; reflexivity).
  destruct (datacenters_are_units demo_run demo_cassandra demo_header demo_rows (mkOutput true demo_table "")
    eq_refl eq_refl eq_refl H1 H2 H3 H4) as (h & s' & He & Hn & _ & _ & Hd).
  exists h, s'. split; [exact He|]. split; [rewrite Hn; vm_compute; reflexivity|].
  rewrite Hd. vm_compute. reflexivity.
Defined.
End Cassandra.
