(* ===== verification/Wasm.v ===== *)
(** * The sandbox ([shim-core/src/wasm.rs])

    The wrapper around a capability, and the host of WASM modules: what the loader puts
    into the store, the three functions a module can call, with the memory they read and
    write, and a call of its [_start].  The engine is foreign: compiling, instantiating
    and growing a memory are arguments or an interface; what a module does is any list
    of calls of the host and writes to its memory, with the fuel it burns. *)

From S2P Require Import Prelude Text Floats Config Main.

(** ** [WasmShim] *)

(** A capability with the hooks of [WasmCapability] *)
Record Sandboxed := mkSandboxed {
  inner_cap : Capability;
  wasm_init : result string ();
  memory_usage_bytes : Z;
  cpu_time_us : Z;
  inner_metrics : list (string * f64)
}.
Record WasmShim := mkWasmShim { wasm_name : string; inner : Sandboxed; wasm_config : option Config; counters : gmap string Z }.
#[export] Instance WasmShim_settable : Settable WasmShim := λ s,
  mkWasmShim (wasm_name s) (inner s) (wasm_config s) (counters s).
Definition new_wasm_shim (name : string) (c : Sandboxed) : WasmShim := mkWasmShim name c None ∅.
Definition increment_counter (key : string) (s : WasmShim) : WasmShim :=
  s <| counters ::= λ m, <[key := add64 (default 0 (m !! key)) 1]> m |>.
Definition counter (key : string) (s : WasmShim) : Z := default 0 (counters s !! key).
Definition wasm_shim_init (cfg : Config) (s : WasmShim) : result string () * WasmShim :=
  ((_ <-? wasm_init (inner s) ; cap_init (inner_cap (inner s)) cfg), s <| wasm_config := Some cfg |>).
Definition wasm_metrics `{HashOrder} (s : WasmShim) : list (string * f64) :=
  inner_metrics (inner s) ++
  [("wasm_memory_bytes", f64_of_Z (memory_usage_bytes (inner s))); ("wasm_cpu_time_us", f64_of_Z (cpu_time_us (inner s)))] ++
  ((λ kv, ("wasm_counter_" +:+ kv.1, f64_of_Z kv.2)) <$> hash_iter (counters s)).
(** The wrapper as [Main.v] sees it *)
Definition as_capability (s : WasmShim) : Capability :=
  mkCapability (wasm_name s) (λ cfg, (wasm_shim_init cfg s).1) (cap_start (inner_cap (inner s))) (cap_stop (inner_cap (inner s))).

(** A wrapped capability works when it does and its sandbox can be made. *)
Lemma wrapped_works cfg s :
  works cfg (as_capability s) = is_ok (wasm_init (inner s)) && works cfg (inner_cap (inner s)).
Proof. unfold works. simpl. by destruct (wasm_init (inner s)) as [[]|]. Qed.
Lemma counter_increment k k' s :
  counter k (increment_counter k' s) = if bool_decide (k = k') then add64 (counter k s) 1 else counter k s.
Proof. unfold counter. simpl. case_bool_decide as E; [subst; by rewrite lookup_insert_eq|by rewrite lookup_insert_ne]. Qed.

(** ** [String::from_utf8_lossy]

    Each maximal part that is no character becomes the replacement character. *)

Definition between (lo hi : Z) (c : ascii) : bool := (lo <=? byte c) && (byte c <=? hi).
Definition is_cont : ascii → bool := between 0x80 0xBF.
Definition replacement : string := String (of_byte 0xEF) (String (of_byte 0xBF) (String (of_byte 0xBD) "")).
(** The second bytes that may follow the first byte of three, of four *)
Definition second3 (b0 b1 : ascii) : bool :=
  if byte b0 =? 0xE0 then between 0xA0 0xBF b1
  else if byte b0 =? 0xED then between 0x80 0x9F b1
  else between 0xE1 0xEF b0 && is_cont b1.
Definition second4 (b0 b1 : ascii) : bool :=
  if byte b0 =? 0xF0 then between 0x90 0xBF b1
  else if byte b0 =? 0xF4 then between 0x80 0x8F b1
  else between 0xF1 0xF3 b0 && is_cont b1.
Fixpoint utf8_lossy (s : string) : string :=
  match s with
  | EmptyString => ""
  | String b0 r =>
      if byte b0 <? 0x80 then String b0 (utf8_lossy r)
      else match r with
      | EmptyString => replacement
      | String b1 r1 =>
          if between 0xC2 0xDF b0 && is_cont b1 then String b0 (String b1 (utf8_lossy r1))
          else if second3 b0 b1 then
            match r1 with
            | EmptyString => replacement
            | String b2 r2 =>
                if is_cont b2 then String b0 (String b1 (String b2 (utf8_lossy r2)))
                else replacement +:+ utf8_lossy r1
            end
          else if second4 b0 b1 then
            match r1 with
            | EmptyString => replacement
            | String b2 r2 =>
                if is_cont b2 then
                  match r2 with
                  | EmptyString => replacement
                  | String b3 r3 =>
                      if is_cont b3 then String b0 (String b1 (String b2 (String b3 (utf8_lossy r3))))
                      else replacement +:+ utf8_lossy r2
                  end
                else replacement +:+ utf8_lossy r1
            end
          else replacement +:+ utf8_lossy r
      end
  end.
Lemma utf8_lossy_ascii s : str_all (λ c, byte c <? 0x80) s = true → utf8_lossy s = s.
Proof. induction s as [|c s IH]; [done|]. cbn [str_all utf8_lossy]. intros [-> H]%andb_true_iff. by rewrite IH. Qed.
Definition raw (l : list Z) : string := String.string_of_list_ascii (of_byte <$> l).
Example utf8_lossy_runs :
  utf8_lossy (raw [0xC3; 0xA9; 0xE2; 0x82; 0xAC; 0xF0; 0x9F; 0x98; 0x80]) = raw [0xC3; 0xA9; 0xE2; 0x82; 0xAC; 0xF0; 0x9F; 0x98; 0x80] ∧
  utf8_lossy (raw [65; 0xE2; 0x82; 66; 0xFF]) = raw [65] +:+ replacement +:+ raw [66] +:+ replacement ∧
  utf8_lossy (raw [0xED; 0xA0; 0x80]) = replacement +:+ replacement +:+ replacement.
Proof. vm_compute. done. Qed.

(** ** Linear memory *)

Definition PAGE : Z := 65536.
Record Memory := mkMemory { pages : Z; bytes : Z → ascii }.
Definition data_size (m : Memory) : Z := pages m * PAGE.
(** [data[a..a + n]] and [copy_from_slice] *)
Fixpoint read (m : Memory) (a : Z) (n : nat) : string :=
  match n with O => "" | S n => String (bytes m a) (read m (a + 1) n) end.
Fixpoint write (a : Z) (s : string) (m : Memory) : Memory :=
  match s with
  | EmptyString => m
  | String c s => let m := write (a + 1) s m in mkMemory (pages m) (λ i, if i =? a then c else bytes m i)
  end.
(** [u32::to_le_bytes] *)
Definition le_bytes (n : Z) : string := raw [n mod 256; n / 256 mod 256; n / 65536 mod 256; n / 16777216 mod 256].
(** Growing a memory: the new size must be within what the limiter allows and the four
    gigabytes of an address; what was there stays. *)
Class LinearMemory := {
  grow : (Z → bool) → Z → Memory → option Memory;
  grow_spec lim d m m' : grow lim d m = Some m' →
    pages m' = pages m + d ∧ lim (data_size m') = true ∧ pages m' ≤ 65536 ∧
    ∀ i, 0 ≤ i < data_size m → bytes m' i = bytes m i
}.

Lemma write_pages a s m : pages (write a s m) = pages m.
Proof. revert a. induction s as [|c s IH]; intros a; simpl; [done|apply IH]. Qed.
Lemma write_other a s m i : i < a ∨ a + Z.of_nat (String.length s) ≤ i → bytes (write a s m) i = bytes m i.
Proof.
  revert a. induction s as [|c s IH]; intros a H; [done|]. cbn [write String.length bytes] in *.
  destruct (Z.eqb_spec i a) as [->|]; [lia|]. apply IH. lia.
Qed.
Lemma read_ext m m' n : ∀ a, (∀ i, a ≤ i < a + Z.of_nat n → bytes m i = bytes m' i) → read m a n = read m' a n.
Proof.
  induction n as [|n IH]; intros a H; [done|]. cbn [read]. rewrite (H a) by lia. f_equal. apply IH. intros i Hi. apply H. lia.
Qed.
Lemma read_write a s m : read (write a s m) a (String.length s) = s.
Proof.
  revert a. induction s as [|c s IH]; intros a; [done|]. cbn [write read String.length bytes]. rewrite Z.eqb_refl. f_equal.
  transitivity (read (write (a + 1) s m) (a + 1) (String.length s)); [|apply IH].
  apply read_ext. intros i Hi. cbn [bytes]. by rewrite (proj2 (Z.eqb_neq i a)) by lia.
Qed.
Lemma length_le_bytes n : String.length (le_bytes n) = 4%nat.
Proof. done. Qed.

(** ** The store and the host functions *)

(** [WasmConfig] and the limiter, which counts whole pages *)
Record WasmConfig := mkWasmConfig { max_memory_pages : option Z; fuel_limit : option Z }.
Definition default_wasm_config : WasmConfig := mkWasmConfig (Some 256) (Some 1000000).
Definition memory_growing (max_pages : option Z) (desired : Z) : bool :=
  match max_pages with Some max => negb (max <? as_u32 (desired / PAGE)) | None => true end.
(** [StoreState]; the values a module can read *)
Record StoreState := mkState { log_buffer : list string; st_metrics : gmap string f64; st_config : gmap string string; st_max_pages : option Z }.
#[export] Instance StoreState_settable : Settable StoreState := λ s,
  mkState (log_buffer s) (st_metrics s) (st_config s) (st_max_pages s).
Definition new_state (c : WasmConfig) : StoreState := mkState [] ∅ ∅ (max_memory_pages c).
Definition host_values (c : Config) : gmap string string :=
  {["version" := default "" (version c); "health.listen" := listen (health c);
    "health.interval_secs" := pretty (Z.to_N (interval_secs (health c)));
    "health.timeout_secs" := pretty (Z.to_N (timeout_secs (health c)));
    "process.command" := command (process c)]}.
(** The store of an instance: its data, its memory and the fuel that is left *)
Record Store := mkStore { data : StoreState; memory : Memory; fuel : Z }.
#[export] Instance Store_settable : Settable Store := λ s, mkStore (data s) (memory s) (fuel s).

(** [&data[start..end]] of a pointer and a length that are [i32]s: the sum wraps, and a
    slice that ends before it starts panics ([None]).  The inner option is the check of
    the end. *)
Definition host_slice (ptr len : Z) (m : Memory) : option (option string) :=
  let start := as_u64 ptr in
  let stop := add64 start (as_u64 len) in
  if stop <=? data_size m then
    if start <=? stop then Some (Some (read m start (Z.to_nat (stop - start)))) else None
  else Some None.

Section host.
Context `{LM : LinearMemory}.

(** [host.log] and [host.metrics_set]: out of range they do nothing. *)
Definition host_log (level ptr len : Z) (s : Store) : option Store :=
  b ← host_slice ptr len (memory s);
  Some (match b with Some b => s <| data ::= λ d, d <| log_buffer ::= λ l, l ++ [utf8_lossy b] |> |> | None => s end).
Definition host_metrics_set (ptr len : Z) (v : f64) (s : Store) : option Store :=
  b ← host_slice ptr len (memory s);
  Some (match b with Some b => s <| data ::= λ d, d <| st_metrics ::= <[utf8_lossy b := v]> |> |> | None => s end).
(** [host.config_get]: the pages that are there, and those that are asked for; the value
    goes to the end of the memory, behind its length. *)
Definition current_pages (m : Memory) : Z := as_u32 (data_size m) / PAGE.
Definition needed_pages (m : Memory) (n : Z) : Z := as_u32 (add64 (add64 (data_size m) n) 4) / PAGE + 1.
Definition make_room (max_pages : option Z) (n : Z) (m : Memory) : option Memory :=
  if current_pages m <? needed_pages m n
  then grow (memory_growing max_pages) (needed_pages m n - current_pages m) m else Some m.
Definition place (v : string) (m : Memory) : option (Z * Memory) :=
  let n := Z.of_nat (String.length v) in
  let p := data_size m - n - 4 in
  if p <? 0 then None else Some (as_i32 (as_u32 p), write p (le_bytes n +:+ v) m).
Definition host_config_get (ptr len : Z) (s : Store) : option (Z * Store) :=
  b ← host_slice ptr len (memory s);
  match b ≫= λ k, st_config (data s) !! utf8_lossy k with
  | None => Some (-1, s)
  | Some v =>
      match make_room (st_max_pages (data s)) (Z.of_nat (String.length v)) (memory s) with
      | None => Some (-1, s)
      | Some m => '(p, m) ← place v m; Some (p, s <| memory := m |>)
      end
  end.

(** ** A call of the module *)

(** What it does between two stretches of its own instructions *)
Inductive action :=
| ALog (level ptr len : Z)
| AMetric (ptr len : Z) (v : f64)
| AConfig (ptr len : Z)
| AWrite (a : Z) (s : string)
| AGrow (n : nat).
(** A call: the actions, each with the fuel burnt before it, the fuel burnt after the
    last one, and whether it traps in the end. *)
Record Call := mkCall { actions : list (Z * action); rest : Z; trap : option string }.
Inductive outcome := Finished (s : Store) | Trapped (e : string) (s : Store) | Panicked (s : Store).
Definition out_of_fuel : string := "all fuel consumed by WebAssembly".
Definition burn (c : Z) (s : Store) : option Store := if c <=? fuel s then Some (s <| fuel := fuel s - c |>) else None.
(** An action, with the answer of [host.config_get] *)
Definition finish (s : Store) (r : option Store) : outcome := match r with Some s => Finished s | None => Panicked s end.
Definition perform (a : action) (s : Store) : outcome * list Z :=
  match a with
  | ALog level ptr len => (finish s (host_log level ptr len s), [])
  | AMetric ptr len v => (finish s (host_metrics_set ptr len v s), [])
  | AConfig ptr len =>
      match host_config_get ptr len s with Some (p, s) => (Finished s, [p]) | None => (Panicked s, []) end
  | AWrite a str =>
      if (0 <=? a) && (a + Z.of_nat (String.length str) <=? data_size (memory s))
      then (Finished (s <| memory ::= write a str |>), []) else (Trapped "out of bounds memory access" s, [])
  | AGrow n =>
      (Finished (match grow (memory_growing (st_max_pages (data s))) (Z.of_nat n) (memory s) with
                 | Some m => s <| memory := m |> | None => s end), [])
  end.
Fixpoint perform_all (l : list (Z * action)) (s : Store) : outcome * list Z :=
  match l with
  | [] => (Finished s, [])
  | (c, a) :: l =>
      match burn c s with
      | None => (Trapped out_of_fuel (s <| fuel := 0 |>), [])
      | Some s =>
          match perform a s with
          | (Finished s, ps) => let '(o, qs) := perform_all l s in (o, ps ++ qs)
          | r => r
          end
      end
  end.
Definition call_start (c : Call) (s : Store) : outcome * list Z :=
  match perform_all (actions c) s with
  | (Finished s, ps) =>
      (match burn (rest c) s with
       | None => Trapped out_of_fuel (s <| fuel := 0 |>)
       | Some s => match trap c with Some e => Trapped e s | None => Finished s end
       end, ps)
  | r => r
  end.

(** [WasmError], [WasmExecutionResult], [WasmCapability]; a panic under the lock poisons
    it. *)
Inductive WasmError :=
| EngineCreate (e : string)
| Compile (path error : string)
| Instantiate (e : string)
| NoMemory
| NoStart
| Execution (e : string)
| HostFunction (e : string).
Record WasmExecutionResult := mkExecution { fuel_used : Z; res_log : list string; res_metrics : gmap string f64 }.
Record WasmCapability := mkInstance { wc_name : string; wc_config : WasmConfig; store : Store; has_start : bool; poisoned : bool }.
#[local] Instance WasmCapability_settable : Settable WasmCapability := λ i,
  mkInstance (wc_name i) (wc_config i) (store i) (has_start i) (poisoned i).
Definition poison_message : string := "poisoned lock: another task failed inside".
Definition used (limit : option Z) (s : Store) : Z := sub64 (default 0 limit) (fuel s).
(** [run]: [None] when it panics; with the answers of [host.config_get] *)
Definition run (c : Call) (i : WasmCapability) : option (result WasmError WasmExecutionResult) * list Z * WasmCapability :=
  if poisoned i then (Some (Err (Execution poison_message)), [], i)
  else
    let s := match fuel_limit (wc_config i) with Some f => (store i) <| fuel := f |> | None => store i end in
    if has_start i then
      match call_start c s with
      | (Finished s, ps) =>
          (Some (Ok (mkExecution (used (fuel_limit (wc_config i)) s) (log_buffer (data s)) (st_metrics (data s)))), ps, i <| store := s |>)
      | (Trapped e s, ps) => (Some (Err (Execution e)), ps, i <| store := s |>)
      | (Panicked s, ps) => (None, ps, i <| store := s |> <| poisoned := true |>)
      end
    else (Some (Err NoStart), [], i <| store := s |>).
Definition fuel_consumed (i : WasmCapability) : Z :=
  if poisoned i then 0 else used (fuel_limit (wc_config i)) (store i).
(** Several calls on one instance: what they return, and all answers *)
Fixpoint run_all (cs : list Call) (i : WasmCapability) : list (option (result WasmError WasmExecutionResult)) * list Z * WasmCapability :=
  match cs with
  | [] => ([], [], i)
  | c :: cs =>
      let '(r, ps, i) := run c i in
      let '(rs, qs, i) := run_all cs i in
      (r :: rs, ps ++ qs, i)
  end.

(** ** Loading *)

(** What the engine makes of a module: its data, fuel and exports *)
Record Instantiated := mkInstantiated { i_data : StoreState; i_fuel : Z; i_memory : option Memory; i_start : bool }.
Section load.
Context {Module_ : Type} (compile : string → result string Module_)
  (instantiate : (Z → bool) → StoreState → Z → Module_ → result string Instantiated).
(** [instantiate_module]: a store has no fuel until it is given some. *)
Definition instantiate_module (m : Module_) (wc : WasmConfig) (host_config : Config) (name : string) : result WasmError WasmCapability :=
  let st := (new_state wc) <| st_config := host_values host_config |> in
  match instantiate (memory_growing (max_memory_pages wc)) st (default 0 (fuel_limit wc)) m with
  | Err e => Err (Instantiate e)
  | Ok x =>
      match i_memory x with
      | None => Err NoMemory
      | Some mem => Ok (mkInstance name wc (mkStore (i_data x) mem (i_fuel x)) (i_start x) false)
      end
  end.
Definition load_shim_bytes (name bytes : string) (wc : WasmConfig) (host_config : Config) : result WasmError WasmCapability :=
  match compile bytes with
  | Err e => Err (Compile name e)
  | Ok m => instantiate_module m wc host_config name
  end.
Definition load_shim (read_file : string → result string string) (path : string) (wc : WasmConfig) (host_config : Config)
    : result WasmError WasmCapability :=
  match read_file path with
  | Err e => Err (Compile path e)
  | Ok b => load_shim_bytes path b wc host_config
  end.
End load.
End host.

(** ** Reading the configuration *)

Definition small (s : Store) : Prop := ∀ k v, st_config (data s) !! k = Some v → Z.of_nat (String.length v) + 4 < PAGE.
Definition addressable (m : Memory) : Prop := 0 ≤ pages m ≤ 65536.

Section laws.
Context `{LM : LinearMemory}.

(** A value of less than a page is given a page of its own, every time. *)
Lemma make_room_one max n m :
  addressable m → 0 ≤ n → n + 4 < PAGE → make_room max n m = grow (memory_growing max) 1 m.
Proof.
  unfold make_room, current_pages, needed_pages, addressable, data_size, as_u32, add64, wrap, PAGE. intros Hp H0 Hn.
  rewrite (Z.mod_small (pages m * 65536 + n)) by lia. rewrite (Z.mod_small (pages m * 65536 + n + 4) (2 ^ 64)) by lia.
  destruct (decide (pages m = 65536)) as [->|Hne].
  - rewrite (Z.mod_eq (65536 * 65536 + n + 4)) by lia.
    assert ((65536 * 65536 + n + 4) / 2 ^ 32 = 1) as -> by (Z.to_euclidean_division_equations; lia).
    change (65536 * 65536) with (2 ^ 32). rewrite Z_mod_same_full.
    replace (2 ^ 32 + n + 4 - 2 ^ 32 * 1) with (n + 4) by lia. rewrite (Z.div_small (n + 4)) by lia. done.
  - rewrite !Z.mod_small by lia.
    replace ((pages m * 65536 + n + 4) / 65536) with (pages m) by (Z.to_euclidean_division_equations; lia).
    rewrite Z.div_mul by lia. rewrite (proj2 (Z.ltb_lt _ _)) by lia. f_equal. lia.
Qed.
Lemma grow_limit max d m m' :
  0 ≤ pages m → 0 ≤ d → grow (memory_growing (Some max)) d m = Some m' → pages m' = pages m + d ∧ pages m' ≤ max ∧ addressable m'.
Proof.
  intros Hp Hd (H1 & H2 & H3 & _)%grow_spec. split_and!; [done| |unfold addressable; lia].
  unfold memory_growing, data_size, PAGE, as_u32 in H2. rewrite Z.div_mul, wrap_small in H2 by (unfold in_u; lia).
  apply negb_true_iff, Z.ltb_ge in H2. done.
Qed.
Lemma place_spec v m :
  addressable m → Z.of_nat (String.length v) + 4 ≤ data_size m →
  ∃ p m', place v m = Some (p, m') ∧ pages m' = pages m ∧
    let a := as_u32 p in
    a + 4 + Z.of_nat (String.length v) = data_size m ∧
    read m' a 4 = le_bytes (Z.of_nat (String.length v)) ∧ read m' (a + 4) (String.length v) = v ∧
    ∀ i, i < a → bytes m' i = bytes m i.
Proof.
  unfold addressable, place. intros Hm Hv. set (n := Z.of_nat (String.length v)) in *. set (p := data_size m - n - 4).
  rewrite (proj2 (Z.ltb_ge p 0)) by lia.
  assert (as_u32 (as_i32 (as_u32 p)) = p) as Hp.
  { assert (in_u 32 p) as Hp. { unfold data_size, PAGE, in_u in *. lia. }
    unfold as_u32 at 2. rewrite (wrap_small 32 p) by done. unfold as_i32, as_u32, wrap, in_u in *.
    destruct (Z.ltb_spec p (2 ^ 31)); [by rewrite Z.mod_small|]. by rewrite Zminus_mod, Z_mod_same_full, Z.sub_0_r, Z.mod_mod, Z.mod_small. }
  eexists _, _. split; [done|]. split; [apply write_pages|]. cbv zeta. rewrite Hp.
  assert (∀ a s t m, write a (s +:+ t) m = write a s (write (a + Z.of_nat (String.length s)) t m)) as Hw.
  { intros a s t. revert a. induction s as [|c s IH]; intros a mm; [by rewrite Z.add_0_r|].
    rewrite str_app_cons. cbn [write String.length]. rewrite IH. by replace (a + 1 + Z.of_nat (String.length s)) with (a + Z.of_nat (S (String.length s))) by lia. }
  rewrite Hw. change (Z.of_nat (String.length (le_bytes n))) with 4. split_and!; [lia|apply (read_write p (le_bytes n))| |].
  - transitivity (read (write (p + 4) v m) (p + 4) (String.length v)); [|apply read_write]. apply read_ext. intros i Hi. apply write_other. change (Z.of_nat (String.length (le_bytes n))) with 4. lia.
  - intros i Hi. by rewrite !write_other by lia.
Qed.
(** What a module reads is what the host has: a key that the host knows is answered
    with -1, and nothing happens, when the memory cannot grow, and otherwise with a
    pointer to the length of the value, behind which the value is; both lie beyond the
    memory there was, which keeps its content. *)
Theorem config_get_reads ptr len s k v :
  addressable (memory s) → small s → host_slice ptr len (memory s) = Some (Some k) →
  st_config (data s) !! utf8_lossy k = Some v →
  ∃ p s', host_config_get ptr len s = Some (p, s') ∧
    ((p = -1 ∧ s' = s) ∨
     let a := as_u32 p in
     read (memory s') a 4 = le_bytes (Z.of_nat (String.length v)) ∧ read (memory s') (a + 4) (String.length v) = v ∧
     data_size (memory s) ≤ a ∧ a + 4 + Z.of_nat (String.length v) = data_size (memory s') ∧
     ∀ i, 0 ≤ i < data_size (memory s) → bytes (memory s') i = bytes (memory s) i).
Proof.
  intros Ha Hs Hk Hv. unfold host_config_get. rewrite Hk. simpl. rewrite Hv.
  pose proof (Hs _ _ Hv) as Hn. rewrite make_room_one by (done || lia).
  destruct (grow _ 1 (memory s)) as [m|] eqn:E; [|by eauto 10].
  apply grow_spec in E as (H1 & _ & H3 & H4). unfold addressable in Ha.
  destruct (place_spec v m) as (p & m' & -> & Hp & P1 & P2 & P3 & P4); [unfold addressable; lia|unfold data_size, PAGE in *; lia|].
  simpl. eexists _, _. split; [done|]. right. cbv zeta. simpl. unfold data_size in *. rewrite Hp. unfold PAGE in *.
  split_and!; [done|done|lia|done|]. intros i Hi. rewrite P4 by lia. by apply H4.
Qed.

(** ** What a module can do *)

(** Answers that are pointers *)
Definition served (ps : list Z) : list Z := filter (λ p, p ≠ -1) ps.
Definition grown (max : Z) (s s' : Store) (ps : list Z) : Prop :=
  st_config (data s') = st_config (data s) ∧ st_max_pages (data s') = st_max_pages (data s) ∧ addressable (memory s') ∧
  pages (memory s) + Z.of_nat (length (served ps)) ≤ pages (memory s') ∧
  (pages (memory s') = pages (memory s) ∨ pages (memory s') ≤ max).
Lemma grown_refl max s : addressable (memory s) → grown max s s [].
Proof. unfold grown. simpl. intros H. split_and!; auto; lia. Qed.
Lemma memory_grown_trans max s1 s2 s3 ps qs : grown max s1 s2 ps → grown max s2 s3 qs → grown max s1 s3 (ps ++ qs).
Proof.
  unfold grown, served. rewrite filter_app, length_app, Nat2Z.inj_add.
  intros (A1 & A2 & _ & A3 & A4) (B1 & B2 & B0 & B3 & B4). split_and!; [congruence|congruence|done|lia|lia].
Qed.
Lemma grown_same max s s' :
  st_config (data s') = st_config (data s) → st_max_pages (data s') = st_max_pages (data s) →
  pages (memory s') = pages (memory s) → addressable (memory s) → grown max s s' [].
Proof. unfold grown, addressable. simpl. intros H1 H2 H3 H4. rewrite H1, H2, H3. split_and!; auto; lia. Qed.
Definition ended (o : outcome) : Store := match o with Finished s | Trapped _ s | Panicked s => s end.
Ltac same := apply grown_same; simpl; auto using write_pages.

Lemma perform_grown max a s o ps :
  st_max_pages (data s) = Some max → addressable (memory s) → small s → perform a s = (o, ps) → grown max s (ended o) ps.
Proof.
  intros Hmax Ha Hs. destruct a as [level ptr len|ptr len v|ptr len|a str|n]; simpl.
  - unfold host_log. destruct (host_slice ptr len (memory s)) as [[b|]|]; simpl; intros; simplify_eq/=; same.
  - unfold host_metrics_set. destruct (host_slice ptr len (memory s)) as [[b|]|]; simpl; intros; simplify_eq/=; same.
  - unfold host_config_get. destruct (host_slice ptr len (memory s)) as [b|]; simpl; [|intros; simplify_eq/=; same].
    assert (grown max s s [-1]) as Hno by (unfold grown, addressable in *; simpl; split_and!; auto; lia).
    destruct (b ≫= _) as [v|] eqn:Ev; simpl; [|by intros; simplify_eq/=].
    apply bind_Some in Ev as (k & _ & Hv). pose proof (Hs _ _ Hv) as Hn. rewrite make_room_one by (done || lia). rewrite Hmax.
    destruct (grow _ 1 (memory s)) as [m|] eqn:E; [|by intros; simplify_eq/=].
    unfold addressable in Ha. apply grow_limit in E as (E1 & E2 & E3); [|lia|lia].
    destruct (place_spec v m) as (p & m' & -> & Hp & _); [done|unfold data_size, PAGE in *; lia|].
    intros; simplify_eq/=. unfold grown, served, addressable in *. simpl. rewrite Hp. split_and!; [done|done|lia|lia| |].
    + rewrite filter_cons. case_decide; simpl; lia.
    + lia.
  - destruct (_ && _); intros; simplify_eq/=; same.
  - intros; simplify_eq/=. rewrite Hmax. destruct (grow _ _ (memory s)) as [m|] eqn:E; simpl; [|same].
    unfold addressable in Ha. apply grow_limit in E as (E1 & E2 & E3); [|lia|lia].
    unfold grown. simpl. split_and!; [done|done|done|lia|lia].
Qed.
Lemma grown_keeps max s s' ps :
  st_max_pages (data s) = Some max → small s → grown max s s' ps →
  st_max_pages (data s') = Some max ∧ addressable (memory s') ∧ small s'.
Proof. unfold small. intros H1 H2 (-> & -> & H3 & _). done. Qed.
Lemma perform_all_grown max l : ∀ s o ps,
  st_max_pages (data s) = Some max → addressable (memory s) → small s → perform_all l s = (o, ps) → grown max s (ended o) ps.
Proof.
  induction l as [|[c a] l IH]; intros s o ps Hmax Ha Hs; simpl; [intros; simplify_eq/=; by apply grown_refl|].
  unfold burn. destruct (c <=? fuel s); [|intros; simplify_eq/=; same].
  destruct (perform a _) as [o1 ps1] eqn:E. apply (perform_grown max) in E; [|done..].
  assert (grown max s (ended o1) ps1) as H1 by exact E.
  destruct o1 as [s1|e s1|s1]; [|by intros; simplify_eq..].
  destruct (perform_all l s1) as [o2 ps2] eqn:E2. intros; simplify_eq.
  destruct (grown_keeps _ _ _ _ Hmax Hs H1) as (K1 & K2 & K3). eapply memory_grown_trans; [exact H1|by eapply IH].
Qed.
Lemma call_start_grown max c s o ps :
  st_max_pages (data s) = Some max → addressable (memory s) → small s → call_start c s = (o, ps) → grown max s (ended o) ps.
Proof.
  intros Hmax Ha Hs. unfold call_start. destruct (perform_all _ s) as [o1 ps1] eqn:E.
  apply (perform_all_grown max) in E; [|done..]. destruct o1 as [s1|e s1|s1]; [|by intros; simplify_eq..].
  intros; simplify_eq. unfold burn. by repeat case_match; simpl in *; simplify_eq/=.
Qed.
Lemma run_grown max c i r ps i' :
  st_max_pages (data (store i)) = Some max → addressable (memory (store i)) → small (store i) →
  run c i = (r, ps, i') → grown max (store i) (store i') ps.
Proof.
  intros Hmax Ha Hs. unfold run. destruct (poisoned i); [intros; simplify_eq/=; by apply grown_refl|].
  set (s := match fuel_limit _ with Some f => _ | None => _ end).
  assert (data s = data (store i) ∧ memory s = memory (store i)) as [D M] by (subst s; by case_match).
  destruct (has_start i); [|intros; simplify_eq/=; apply grown_same; congruence].
  destruct (call_start c s) as [o ps1] eqn:E. apply (call_start_grown max) in E; [|by rewrite D|by rewrite M|unfold small; by rewrite D].
  unfold grown in *. rewrite D, M in E. destruct o; intros; by simplify_eq/=.
Qed.
(** C23. The configuration is served a bounded number of times, as long as each of its
    values, with the four bytes of its length, is below a page.  An instance whose memory
    is limited to [max] pages (and has at most the 65536 of a 32-bit memory) never has
    more than [max], unless it began with more; and because each value that is served
    takes a page, over all its calls, whatever the module does, no more than [max] less
    the pages it began with are served. *)
Theorem config_served_bounded max cs i rs ps i' :
  st_max_pages (data (store i)) = Some max → addressable (memory (store i)) → small (store i) →
  run_all cs i = (rs, ps, i') →
  pages (memory (store i')) ≤ Z.max max (pages (memory (store i))) ∧
  Z.of_nat (length (served ps)) ≤ Z.max 0 (max - pages (memory (store i))).
Proof.
  intros Hmax Ha Hs. assert (∀ cs i rs ps i', st_max_pages (data (store i)) = Some max → addressable (memory (store i)) →
    small (store i) → run_all cs i = (rs, ps, i') → grown max (store i) (store i') ps) as H.
  { clear. induction cs as [|c cs IH]; intros i rs ps i' Hmax Ha Hs; simpl; [intros; simplify_eq; by apply grown_refl|].
    destruct (run c i) as [[r ps1] i1] eqn:E1, (run_all cs i1) as [[rs2 ps2] i2] eqn:E2. intros; simplify_eq.
    apply (run_grown max) in E1; [|done..]. destruct (grown_keeps _ _ _ _ Hmax Hs E1) as (K1 & K2 & K3).
    eapply memory_grown_trans; [exact E1|by eapply IH]. }
  intros E. apply H in E as (_ & _ & _ & H1 & H2); [lia|done..].
Qed.

(** The bound on the values is needed: the size that is asked for is a u32, so near the
    end of the address space one of six pages takes no page at all. *)
Lemma big_value_takes_no_page max m : pages m = 65530 → make_room max (6 * PAGE) m = Some m.
Proof.
  intros Hm. unfold make_room, current_pages, needed_pages, data_size. rewrite Hm. vm_compute. reflexivity.
Qed.

Lemma run_all_fixed r i : (∀ c, run c i = (r, [], i)) → ∀ cs, run_all cs i = (replicate (length cs) r, [], i).
Proof. intros H cs. induction cs as [|c cs IH]; [done|]. simpl. rewrite H, IH. done. Qed.
Lemma slice_below m : 1 ≤ pages m → host_slice (-1) 2 m = None.
Proof.
  intros Hm. unfold host_slice. change (add64 (as_u64 (-1)) (as_u64 2)) with 1.
  rewrite (proj2 (Z.leb_le 1 (data_size m))) by (unfold data_size, PAGE; lia). done.
Qed.
(** A module can bring down its host: one message with the pointer -1 and the length 2
    makes the host panic, whatever the memory, and no later call on the instance does
    anything but fail on the poisoned lock. *)
Theorem log_brings_down_host c i l b acts f cs :
  poisoned i = false → has_start i = true → fuel_limit (wc_config i) = Some f →
  actions c = (b, ALog l (-1) 2) :: acts → b ≤ f → 1 ≤ pages (memory (store i)) →
  ∃ i', run c i = (None, [], i') ∧
    run_all cs i' = (replicate (length cs) (Some (Err (Execution poison_message))), [], i') ∧ fuel_consumed i' = 0.
Proof.
  intros Hp Hst Hf Ha Hb Hm. unfold run. rewrite Hp, Hst, Hf. unfold call_start. rewrite Ha. simpl.
  unfold burn. simpl. rewrite (proj2 (Z.leb_le b f)) by done. cbn [perform]. unfold host_log. cbn [memory].
  rewrite slice_below by done. simpl.
  eexists. split; [done|]. split; [|done]. by apply run_all_fixed.
Qed.
(** The first fuel a call needs *)
Definition first_cost (c : Call) : Z := match actions c with (b, _) :: _ => b | [] => rest c end.
(** No limit means no fuel: an instance made without a limit of fuel has none, so no
    call that executes an instruction ever does anything. *)
Theorem no_limit_no_fuel {M} compile instantiate (name b : string) wc cfg i cs :
  (∀ g st f (m : M) x, 0 ≤ f → instantiate g st f m = Ok x → 0 ≤ i_fuel x ≤ f) → fuel_limit wc = None →
  load_shim_bytes compile instantiate name b wc cfg = Ok i → has_start i = true → Forall (λ c, 0 < first_cost c) cs →
  run_all cs i = (replicate (length cs) (Some (Err (Execution out_of_fuel))), [], i).
Proof.
  intros Hi Hn. unfold load_shim_bytes, instantiate_module. destruct (compile b) as [m|e]; [|done].
  destruct (instantiate _ _ _ m) as [x|e] eqn:E; [|done]. rewrite Hn in E. apply Hi in E; [|done]. simpl in E.
  destruct x as [xd xf [mem|] xs]; [|done]. simpl in *. intros [= <-]. simpl. intros ->. replace xf with 0 by lia.
  induction 1 as [|c cs Hc _ IH]; [done|]. simpl. unfold run at 1. simpl. rewrite Hn. unfold call_start, first_cost in *.
  destruct (actions c) as [|[c0 a] acts]; simpl; unfold burn; simpl; rewrite (proj2 (Z.leb_gt _ 0)) by done; simpl; by rewrite IH.
Qed.
(** What a call that returns reports: all the fuel it burnt, within the limit, and the
    messages of this call behind those of the calls before it. *)
Definition cost (c : Call) : Z := sum_list_Z fst (actions c) + rest c.
Lemma perform_frame a s s' ps :
  perform a s = (Finished s', ps) → fuel s' = fuel s ∧ ∃ new, log_buffer (data s') = log_buffer (data s) ++ new.
Proof.
  assert (∃ new, log_buffer (data s) = log_buffer (data s) ++ new) as Hn by (exists []; by rewrite app_nil_r).
  destruct a; simpl; unfold host_log, host_metrics_set, host_config_get, finish.
  - destruct (host_slice _ _ _) as [[b|]|]; intros; simplify_eq/=; eauto.
  - destruct (host_slice _ _ _) as [[b|]|]; intros; simplify_eq/=; eauto.
  - destruct (host_slice _ _ _) as [b|]; [|done]. simpl. destruct (b ≫= _); [|intros; by simplify_eq/=].
    destruct (make_room _ _ _) as [m|]; [|intros; by simplify_eq/=]. destruct (place _ m) as [[]|]; simpl; intros; by simplify_eq/=.
  - destruct (_ && _); intros; by simplify_eq/=.
  - destruct (grow _ _ _); intros; by simplify_eq/=.
Qed.
Lemma perform_all_frame l : ∀ s s' ps,
  perform_all l s = (Finished s', ps) →
  fuel s' = fuel s - sum_list_Z fst l ∧ ∃ new, log_buffer (data s') = log_buffer (data s) ++ new.
Proof.
  induction l as [|[b a] l IH]; intros s s' ps; simpl.
  { intros [= <- <-]. split; [unfold sum_list_Z; simpl; lia|]. exists []. by rewrite app_nil_r. }
  unfold burn. destruct (b <=? fuel s); [|done]. destruct (perform a _) as [[s1| |] ps1] eqn:E; [|done..].
  apply perform_frame in E as (E1 & new & E2). destruct (perform_all l s1) as [o ps2] eqn:El. intros [= -> <-].
  apply IH in El as (F1 & new' & F2). simpl in *. unfold sum_list_Z in *. simpl. split; [lia|].
  exists (new ++ new'). by rewrite F2, E2, <-app_assoc.
Qed.
Theorem run_reports c i x ps i' f :
  run c i = (Some (Ok x), ps, i') → fuel_limit (wc_config i) = Some f → in_u 64 f → 0 ≤ cost c →
  fuel_used x = cost c ∧ cost c ≤ f ∧ ∃ new, res_log x = log_buffer (data (store i)) ++ new ∧ log_buffer (data (store i')) = res_log x.
Proof.
  unfold run. intros H Hf Hu Hc. destruct (poisoned i); [done|]. rewrite Hf in H. destruct (has_start i); [|done].
  unfold call_start in H. destruct (perform_all _ _) as [[s1| |] ps1] eqn:E; [|done..].
  apply perform_all_frame in E as (E1 & new & E2). simpl in *.
  unfold burn in H. destruct (Z.leb_spec (rest c) (fuel s1)); [|done]. destruct (trap c); [done|]. simplify_eq/=.
  unfold cost in *. split_and!; [|lia|by exists new].
  unfold used. simpl. unfold sub64. rewrite E1. replace (f - _) with (sum_list_Z fst (actions c) + rest c) by lia.
  rewrite wrap_small; [done|]. unfold in_u in *. lia.
Qed.
End laws.

(** ** Runs *)

#[export] Program Instance plain_memory : LinearMemory := {|
  grow lim d m :=
    if (pages m + d <=? 65536) && lim ((pages m + d) * PAGE) then Some (mkMemory (pages m + d) (bytes m)) else None
|}.
Next Obligation.
  intros lim d m m' H. simpl in H. destruct (Z.leb_spec (pages m + d) 65536); [|done]. simpl in H.
  destruct (lim _) eqn:E; [|done]. by simplify_eq/=.
Qed.
(** A module whose memory of two pages holds the text ["process.command"] at 16 *)
Definition demo_wasm_memory : Memory := write 16 "process.command" (mkMemory 2 (λ _, of_byte 0)).
Definition demo_instantiate (g : Z → bool) (st : StoreState) (f : Z) (m : string) : result string Instantiated :=
  if g (2 * PAGE) then Ok (mkInstantiated st f (Some demo_wasm_memory) true) else Err "memory minimum size of 2 pages exceeds memory limits".
Definition demo_host_config : Config := default_config <| process ::= λ p, p <| command := "postgres" |> |>.
Definition demo_instance (wc : WasmConfig) : WasmCapability :=
  match load_shim_bytes (Module_ := string) (@Ok _ _) demo_instantiate "demo" "module" wc demo_host_config with
  | Ok i => i
  | Err _ => mkInstance "" wc (mkStore (new_state wc) (mkMemory 0 (λ _, of_byte 0)) 0) false true
  end.
Definition demo_call : Call := mkCall [(10, ALog 2 16 7); (5, AConfig 16 15); (5, AMetric 16 15 (f64_of_Z 3)); (1, AConfig 0 4)] 4 None.
Example demo_wasm_run :
  let '(r, ps, i) := run demo_call (demo_instance default_wasm_config) in
  (λ x, (fuel_used x, res_log x)) <$> (match r with Some (Ok x) => Some x | _ => None end) = Some (25, ["process"]) ∧
  ps = [3 * PAGE - 12; -1] ∧ pages (memory (store i)) = 3 ∧ read (memory (store i)) (3 * PAGE - 8) 8 = "postgres".
Proof. vm_compute. done. Qed.
Example demo_small_limit :
  (run_all [demo_call; demo_call] (demo_instance (mkWasmConfig (Some 3) (Some 100)))).1.2 = [3 * PAGE - 12; -1; -1; -1].
Proof. vm_compute. done. Qed.
Example demo_no_room :
  load_shim_bytes (Module_ := string) (@Ok _ _) demo_instantiate "demo" "module" (mkWasmConfig (Some 1) None) demo_host_config
  = Err (Instantiate "memory minimum size of 2 pages exceeds memory limits").
Proof. reflexivity. Qed.

Lemma demo_small wc : small (store (demo_instance wc)).
Proof.
  assert (Forall (λ kv, Z.of_nat (String.length kv.2) + 4 < PAGE) (map_to_list (host_values demo_host_config))) as Hf
    by (apply (bool_decide_unpack _); vm_compute; exact I).
  rewrite Forall_forall in Hf.
  intros k v H. unfold demo_instance, load_shim_bytes, instantiate_module, demo_instantiate in H.
  destruct (memory_growing _ _); [apply (Hf (k, v)), elem_of_map_to_list; exact H|]. cbn [store data new_state st_config] in H. by rewrite lookup_empty in H.
Qed.
Lemma config_get_reads_witness :
  let s := store (demo_instance default_wasm_config) in
  ∃ p s', host_config_get 16 15 s = Some (p, s') ∧ read (memory s') (as_u32 p + 4) 8 = "postgres".
Proof.
  set (s := store (demo_instance default_wasm_config)).
  assert (addressable (memory s)) as Ha by (split; vm_compute; done).
  assert (host_slice 16 15 (memory s) = Some (Some "process.command")) as Hk by (vm_compute; reflexivity).
  assert (st_config (data s) !! utf8_lossy "process.command" = Some "postgres") as Hv by (vm_compute; reflexivity).
  destruct (config_get_reads 16 15 s "process.command" "postgres" Ha (demo_small _) Hk Hv) as (p & s' & E & [[-> ->]|H]).
  - vm_compute in E. discriminate.
  - exists p, s'. split; [exact E|]. exact (proj1 (proj2 H)).
Defined.
Lemma config_served_bounded_witness :
  let r := run_all [demo_call; demo_call] (demo_instance (mkWasmConfig (Some 3) (Some 100))) in
  served r.1.2 = [3 * PAGE - 12] ∧ Z.of_nat (length (served r.1.2)) ≤ 1.
Proof.
  split; [vm_compute; reflexivity|].
  set (i := demo_instance (mkWasmConfig (Some 3) (Some 100))).
  assert (st_max_pages (data (store i)) = Some 3) as Hm by (vm_compute; reflexivity).
  assert (addressable (memory (store i))) as Ha by (split; vm_compute; done).
  destruct (run_all [demo_call; demo_call] i) as [[rs ps] i'] eqn:E.
  exact (proj2 (config_served_bounded 3 [demo_call; demo_call] i rs ps i' Hm Ha (demo_small _) E)).
Defined.
Lemma log_brings_down_host_witness :
  let i := demo_instance default_wasm_config in
  let c := mkCall [(1, ALog 0 (-1) 2)] 0 None in
  ∃ i', run c i = (None, [], i') ∧
    run_all [demo_call] i' = ([Some (Err (Execution poison_message))], [], i') ∧ fuel_consumed i' = 0.
Proof.
  intros i c. assert (poisoned i = false) as H1 by (vm_compute; reflexivity).
  assert (has_start i = true) as H2 by (vm_compute; reflexivity).
  assert (fuel_limit (wc_config i) = Some 1000000) as H3 by (vm_compute; reflexivity).
  assert (1 ≤ 1000000) as H4 by lia.
  assert (1 ≤ pages (memory (store i))) as H5 by (vm_compute; done).
  exact (log_brings_down_host c i 0 1 [] 1000000 [demo_call] H1 H2 H3 eq_refl H4 H5).
Defined.
Lemma no_limit_no_fuel_witness :
  let i := demo_instance (mkWasmConfig None None) in
  run_all [demo_call] i = ([Some (Err (Execution out_of_fuel))], [], i).
Proof.
  intros i.
  assert (∀ g st f (m : string) x, 0 ≤ f → demo_instantiate g st f m = Ok x → 0 ≤ i_fuel x ≤ f) as H0.
  { unfold demo_instantiate. intros g st f m x Hf. destruct (g _); [|done]. intros [= <-]. simpl. lia. }
  assert (load_shim_bytes (Module_ := string) (@Ok _ _) demo_instantiate "demo" "module" (mkWasmConfig None None) demo_host_config = Ok i) as HL.
  { reflexivity. }
  assert (Forall (λ c, 0 < first_cost c) [demo_call]) as Hc by (repeat constructor).
  exact (no_limit_no_fuel _ demo_instantiate "demo" "module" (mkWasmConfig None None) demo_host_config i [demo_call]
           H0 eq_refl HL eq_refl Hc).
Defined.
Lemma run_reports_witness :
  let i := demo_instance default_wasm_config in
  ∃ x ps i', run demo_call i = (Some (Ok x), ps, i') ∧ fuel_used x = cost demo_call.
Proof.
  intros i. destruct (run demo_call i) as [[r ps] i'] eqn:E.
  assert (∃ x, r = Some (Ok x)) as [x ->].
  { change r with ((r, ps, i').1.1). rewrite <-E. vm_compute. eexists. reflexivity. }
  exists x, ps, i'. split; [reflexivity|].
  assert (in_u 64 1000000) as Hu by (split; vm_compute; done).
  assert (0 ≤ cost demo_call) as Hc by (vm_compute; done).
  exact (proj1 (run_reports demo_call i x ps i' 1000000 E eq_refl Hu Hc)).
Defined.
