(* ===== verification/Plugin.v ===== *)
(** * Native plugins ([shim-plugin/src/loader.rs])

    Loading shared libraries from a directory, and the capability that wraps a table of
    C functions.  What a library exports and what its functions answer is foreign: the
    table is a record of answers, the dynamic loader and JSON are arguments. *)

From S2P Require Import Prelude Text Config Main.

(** A [*const c_char] that a plugin returns *)
Inductive c_string := Null | NotUtf8 | Utf8 (s : string).
(** [PluginVTable], by what its functions answer *)
Record PluginVTable := mkVTable {
  vt_name : c_string;
  vt_init : string → Z;
  vt_start : Z;
  vt_stop : Z;
  vt_metrics : c_string
}.
(** What is found at a path: no library, no entry point, an entry point that returns
    null, or a table *)
Inductive library := NoLibrary | NoEntryPoint | NullTable | Exports (t : PluginVTable).
(** [PluginInstance], [PluginCapability] *)
Record PluginInstance := mkPlugin { vtable : PluginVTable; plugin_name : string }.

Section plugin.
Context (open : string → library) (to_json : Config → result string string) (of_json : string → option (list (string * f64))).

(** [PluginInstance::load] *)
Definition load_plugin (path : string) : result string PluginInstance :=
  match open path with
  | NoLibrary => Err ("failed to load shared library: " +:+ path)
  | NoEntryPoint => Err ("shared library " +:+ path +:+ " does not export `shim_plugin_init`")
  | NullTable => Err ("`shim_plugin_init` returned null in " +:+ path)
  | Exports t =>
      match vt_name t with
      | Null => Err ("plugin name function returned null in " +:+ path)
      | NotUtf8 => Err "plugin name is not valid UTF-8"
      | Utf8 n => Ok (mkPlugin t n)
      end
  end.
(** The methods of the capability: [CString::new] refuses a zero byte and says where it
    is. *)
Fixpoint position (c : ascii) (s : string) : option nat :=
  match s with
  | EmptyString => None
  | String d s => if bool_decide (d = c) then Some O else S <$> position c s
  end.
Definition status_check (p : PluginInstance) (what : string) (status : Z) : result string () :=
  if status =? 0 then Ok ()
  else Err ("plugin " +:+ plugin_name p +:+ " " +:+ what +:+ " failed with status " +:+ pretty_i64 status).
Definition plugin_init (p : PluginInstance) (c : Config) : result string () :=
  match to_json c with
  | Err e => Err ("failed to serialize config: " +:+ e)
  | Ok j =>
      match position (ascii_of_nat 0) j with
      | None => status_check p "init" (vt_init (vtable p) j)
      | Some i => Err ("config contains null byte: nul byte found in provided data at position: " +:+ pretty (N.of_nat i))
      end
  end.
Definition plugin_start (p : PluginInstance) : result string () := status_check p "start" (vt_start (vtable p)).
Definition plugin_stop (p : PluginInstance) : result string () := status_check p "stop" (vt_stop (vtable p)).
Definition plugin_metrics (p : PluginInstance) : list (string * f64) :=
  match vt_metrics (vtable p) with Utf8 j => default [] (of_json j) | _ => [] end.
Definition plugin_capability (p : PluginInstance) : Capability :=
  mkCapability (plugin_name p) (plugin_init p) (plugin_start p) (plugin_stop p).

(** ** [PluginLoader] *)

Record PluginLoader := mkLoader { plugin_dir : string; loaded : list PluginInstance }.
#[local] Instance PluginLoader_settable : Settable PluginLoader := λ l, mkLoader (plugin_dir l) (loaded l).
Definition new_loader (dir : string) : PluginLoader := mkLoader dir [].
Definition library_extensions : list string := ["so"].
(** [Path::extension] of a file name *)
Definition extension (name : string) : option string :=
  match cut_last "." name with Some (stem, e) => if bool_decide (stem = "") then None else Some e | None => None end.
Definition is_library (name : string) : bool :=
  match extension name with Some e => bool_decide (e ∈ library_extensions) | None => false end.
(** One entry of the loop: a plugin that does not load is skipped. *)
Definition load_entry (l : PluginLoader) (name : string) : PluginLoader :=
  match load_plugin (path_join (plugin_dir l) name) with
  | Ok p => l <| loaded ::= λ ps, ps ++ [p] |>
  | Err _ => l
  end.
(** [load_all]: an entry of the directory that cannot be read is left out. *)
Definition load_all (is_dir : bool) (entries : result string (list (option string))) (l : PluginLoader)
    : result string () * PluginLoader :=
  if negb is_dir then (Err ("plugin directory does not exist: " +:+ plugin_dir l), l)
  else match entries with
       | Err _ => (Err ("failed to read plugin directory: " +:+ plugin_dir l), l)
       | Ok es => (Ok (), foldl load_entry l (sort_by_name id (filter (λ n, is_library n = true) (omap id es))))
       end.
Definition count (l : PluginLoader) : nat := length (loaded l).
Definition into_plugins (l : PluginLoader) : list PluginInstance := loaded l.

(** *** What is loaded *)

(** The libraries of a directory that load, in the order of their names *)
Definition loadable (dir : string) (es : list (option string)) : list PluginInstance :=
  omap (λ n, match load_plugin (path_join dir n) with Ok p => Some p | Err _ => None end)
    (sort_by_name id (filter (λ n, is_library n = true) (omap id es))).
Lemma load_entries ns : ∀ l,
  foldl load_entry l ns =
  l <| loaded ::= λ ps, ps ++ omap (λ n, match load_plugin (path_join (plugin_dir l) n) with Ok p => Some p | Err _ => None end) ns |>.
Proof.
  induction ns as [|n ns IH]; intros [dir ps]; [by simpl; rewrite app_nil_r|]. simpl. rewrite IH. unfold load_entry. simpl.
  destruct (load_plugin _); simpl; [by rewrite <-app_assoc|done].
Qed.
(** A scan of the plugin directory does not depend on the order in which the file
    system lists it, and one bad library does not keep the others out: it succeeds
    whenever the directory can be read, keeps what was loaded before, and adds exactly
    the plugins of the files with the extension that load. *)
Theorem load_all_exact l es es' :
  es ≡ₚ es' →
  ∃ l', load_all true (Ok es) l = (Ok (), l') ∧ load_all true (Ok es') l = (Ok (), l') ∧
    loaded l' = loaded l ++ loadable (plugin_dir l) es ∧
    (∀ p, p ∈ loadable (plugin_dir l) es ↔
       ∃ n, Some n ∈ es ∧ is_library n = true ∧ load_plugin (path_join (plugin_dir l) n) = Ok p).
Proof.
  intros HP. unfold load_all. simpl.
  assert (sort_by_name id (filter (λ n, is_library n = true) (omap id es)) =
          sort_by_name id (filter (λ n, is_library n = true) (omap id es'))) as E by (apply sort_names_order_free; by rewrite HP).
  eexists. split; [done|]. split; [by rewrite E|]. split; [by rewrite load_entries|].
  intros p. unfold loadable. rewrite list_elem_of_omap. split.
  - intros (n & Hn & Hl). rewrite sort_by_name_perm, list_elem_of_filter, list_elem_of_omap in Hn.
    destruct Hn as (Hlib & o & Ho & Hid). simpl in Hid. subst o. exists n. destruct (load_plugin _); by simplify_eq.
  - intros (n & Hn & Hlib & Hl). exists n. rewrite Hl. split; [|done].
    rewrite sort_by_name_perm, list_elem_of_filter, list_elem_of_omap. eauto.
Qed.
(** A second scan loads everything again. *)
Lemma scan_twice l es :
  loaded (load_all true (Ok es) (load_all true (Ok es) l).2).2 =
  loaded l ++ loadable (plugin_dir l) es ++ loadable (plugin_dir l) es.
Proof. unfold load_all. simpl. rewrite !load_entries. simpl. by rewrite <-app_assoc. Qed.

(** *** A plugin among the capabilities *)

(** A plugin works when its configuration can be passed and both calls answer zero; its
    name decides whether the shim can live without it. *)
Lemma plugin_works cfg p :
  works cfg (plugin_capability p) = true ↔
  ∃ j, to_json cfg = Ok j ∧ position (ascii_of_nat 0) j = None ∧ vt_init (vtable p) j = 0 ∧ vt_start (vtable p) = 0.
Proof.
  unfold works, plugin_capability, plugin_init, plugin_start, status_check. simpl. rewrite andb_true_iff.
  destruct (to_json cfg) as [j|e]; simpl; [|split; [by intros []|by intros (j & ? & _)]].
  destruct (position _ j) eqn:E; simpl; [split; [by intros []|intros (j' & [= ->] & ? & _); congruence]|].
  destruct (Z.eqb_spec (vt_init (vtable p) j) 0), (Z.eqb_spec (vt_start (vtable p)) 0); simpl;
    (split; [intros [??]; try done; by exists j|intros (j' & [= ->] & _ & ? & ?); by split]).
Qed.
Lemma plugin_fatal cfg p :
  fatal cfg (plugin_capability p) = bool_decide (plugin_name p ∈ CRITICAL_CAPABILITIES) && negb (works cfg (plugin_capability p)).
Proof. done. Qed.
End plugin.

(** ** Runs *)

Definition demo_vtable (n : string) : PluginVTable := mkVTable (Utf8 n) (λ _, 0) 0 3 (Utf8 "[]").
Definition demo_open (p : string) : library :=
  if bool_decide (p = "/plugins/b.so") then Exports (demo_vtable "b")
  else if bool_decide (p = "/plugins/a.so") then Exports (demo_vtable "a")
  else if bool_decide (p = "/plugins/bad.so") then NoEntryPoint else NoLibrary.
Example demo_scan :
  let '(r, l) := load_all demo_open true (Ok [Some "b.so"; Some ".so"; None; Some "bad.so"; Some "a.so"; Some "a.so.1"; Some "x.txt"]) (new_loader "/plugins") in
  r = Ok () ∧ plugin_name <$> loaded l = ["a"; "b"].
Proof. vm_compute. done. Qed.
Example demo_nul_byte :
  plugin_init (λ _, Ok (String "a" (String (ascii_of_nat 0) "b"))) (mkPlugin (demo_vtable "a") "a") default_config =
  Err "config contains null byte: nul byte found in provided data at position: 1".
Proof. vm_compute. done. Qed.
Example demo_stop_fails :
  plugin_stop (mkPlugin (demo_vtable "a") "a") = Err "plugin a stop failed with status 3" ∧
  plugin_init (λ _, Ok "{}") (mkPlugin (mkVTable Null (λ _, -2) 0 0 Null) "a") default_config = Err "plugin a init failed with status -2".
Proof. vm_compute. done. Qed.
Lemma load_all_exact_witness :
  ∃ l', load_all demo_open true (Ok [Some "b.so"; Some "a.so"]) (new_loader "/plugins") = (Ok (), l') ∧
    load_all demo_open true (Ok [Some "a.so"; Some "b.so"]) (new_loader "/plugins") = (Ok (), l').
Proof.
  assert ([Some "b.so"; Some "a.so"] ≡ₚ [Some "a.so"; Some "b.so"]) as HP by constructor.
  destruct (load_all_exact demo_open (new_loader "/plugins") _ _ HP) as (l' & H1 & H2 & _).
  exists l'. split; [exact H1|exact H2].
Defined.
