(* ===== verification/Shimctl.v ===== *)
(** * The client [shimctl] ([shimctl/src/client.rs], [commands.rs])

    The requests of each command, and what it prints.  The server is any function from
    requests to replies; JSON is an interface.  At the end the client is put in front of
    the only HTTP server of the shim, the one of [Health.v]. *)

From S2P Require Import Prelude Text Config Health.

(** ** Requests and replies *)

Inductive Method := GET | POST.
#[export] Instance Method_eq_dec : EqDecision Method.
Proof. solve_decision. Defined.
Record Request := mkRequest { method : Method; req_url : string; req_body : option string }.
(** [StatusResponse] and the others *)
Record StatusResponse := mkStatus { status : string; version : string; uptime : string; st_healthy : bool }.
Record HealthResponse := mkHealthReply { health_status : string; timestamp : string }.
Record ReloadResponse := mkReload { success : bool; message : string }.
Record ValidateResponse := mkValidate { valid : bool; errors : list string }.
Record BackupEntry := mkEntry { entry_id : string; created_at : string; size_bytes : Z; entry_status : string }.
Record BackupTriggerResponse := mkTrigger { backup_id : string; trigger_status : string }.
Record MigrationStatusResponse := mkMigration { current_version : string; pending : list string; applied : list string }.
Record MigrationApplyResponse := mkApply { apply_success : bool; apply_applied : list string; apply_message : string }.
Record MigrationRollbackResponse := mkRollback { rollback_success : bool; rolled_back : string; rollback_message : string }.
(** The replies that are asked for, with their names in the messages *)
Inductive kind :=
| KStatus | KMetrics | KLiveness | KReadiness | KReload | KValidate | KBackupList | KBackupTrigger
| KMigrationStatus | KMigrationApply | KMigrationRollback.
Definition kind_name (k : kind) : string :=
  match k with
  | KStatus => "status" | KMetrics => "metrics" | KLiveness => "liveness" | KReadiness => "readiness"
  | KReload => "reload" | KValidate => "validate" | KBackupList => "backup list" | KBackupTrigger => "backup trigger"
  | KMigrationStatus => "migration status" | KMigrationApply => "migration apply" | KMigrationRollback => "migration rollback"
  end.
Definition reply (Json : Type) (k : kind) : Type :=
  match k with
  | KStatus => StatusResponse | KMetrics => Json | KLiveness | KReadiness => HealthResponse
  | KReload => ReloadResponse | KValidate => ValidateResponse | KBackupList => list BackupEntry
  | KBackupTrigger => BackupTriggerResponse | KMigrationStatus => MigrationStatusResponse
  | KMigrationApply => MigrationApplyResponse | KMigrationRollback => MigrationRollbackResponse
  end.
(** The JSON decoder, to which an empty body is an error; the printer of the value under
    ["metrics"]; the object of a path; the message of [error_for_status] *)
Class Wire := {
  Json : Type;
  decode : ∀ k, string → option (reply Json k);
  decode_empty k : decode k "" = None;
  pretty_json : Json → result string string;
  config_path_json : string → string;
  status_error : Z → string → string
}.

Section shimctl.
Context `{WI : Wire} (completions : string → list string).

(** What happens: the requests, the lines printed, and the result *)
Definition Server : Type := Request → result string (Z * string).
Definition M (A : Type) : Type := Server → list Request * list string * result string A.
Definition done {A} (x : A) : M A := λ _, ([], [], Ok x).
Definition and_then {A B} (m : M A) (k : A → M B) : M B := λ srv,
  let '(rs, ls, r) := m srv in
  match r with
  | Err e => (rs, ls, Err e)
  | Ok x => let '(rs', ls', r') := k x srv in (rs ++ rs', ls ++ ls', r')
  end.
Notation "x '⇐' m ; k" := (and_then m (λ x, k)) (at level 60, m at level 59, right associativity).
Definition say (l : string) : M () := λ _, ([], [l], Ok ()).
Definition say_all (ls : list string) : M () := λ _, ([], ls, Ok ()).
Definition caught {A} (m : M A) : M (result string A) := λ srv, let '(rs, ls, r) := m srv in (rs, ls, Ok r).

(** ** [ManagementClient] *)

Record ManagementClient := mkClient { endpoint : string }.
Definition new_client (e : string) : ManagementClient := mkClient (trim_end_matches "/" e).
Definition answered (k : kind) (r : Request) (a : result string (Z * string)) : result string (reply Json k) :=
  match a with
  | Err _ => Err "Failed to connect to management API"
  | Ok (code, body) =>
      if (400 <=? code) && (code <? 600) then Err (status_error code (req_url r))
      else match decode k body with
           | Some x => Ok x
           | None => Err ("Failed to parse " +:+ kind_name k +:+ " response")
           end
  end.
Definition send (k : kind) (r : Request) : M (reply Json k) := λ srv, ([r], [], answered k r (srv r)).
Definition get (k : kind) (path : string) (c : ManagementClient) : M (reply Json k) :=
  send k (mkRequest GET (endpoint c +:+ path) None).
Definition post (k : kind) (path : string) (c : ManagementClient) : M (reply Json k) :=
  send k (mkRequest POST (endpoint c +:+ path) None).
Definition get_status : ManagementClient → M StatusResponse := get KStatus "/status".
Definition get_metrics : ManagementClient → M Json := get KMetrics "/metrics".
Definition get_livez : ManagementClient → M HealthResponse := get KLiveness "/livez".
Definition get_readyz : ManagementClient → M HealthResponse := get KReadiness "/readyz".
Definition reload_config : ManagementClient → M ReloadResponse := post KReload "/reload".
Definition validate_config (path : string) (c : ManagementClient) : M ValidateResponse :=
  send KValidate (mkRequest POST (endpoint c +:+ "/validate") (Some (config_path_json path))).
Definition list_backups : ManagementClient → M (list BackupEntry) := get KBackupList "/backups".
Definition trigger_backup : ManagementClient → M BackupTriggerResponse := post KBackupTrigger "/backups".
Definition get_migration_status : ManagementClient → M MigrationStatusResponse := get KMigrationStatus "/migrations".
Definition apply_migrations : ManagementClient → M MigrationApplyResponse := post KMigrationApply "/migrations/apply".
Definition rollback_migration : ManagementClient → M MigrationRollbackResponse := post KMigrationRollback "/migrations/rollback".

(** ** [execute] *)

Inductive ConfigAction := ConfigReload | ConfigValidate (file : string).
Inductive BackupAction := BackupList | BackupTrigger.
Inductive MigrationAction := MigrationStatus | MigrationApply | MigrationRollback.
Inductive Command :=
| CStatus | CMetrics | CHealth
| CConfig (a : ConfigAction)
| CBackup (a : BackupAction)
| CMigration (a : MigrationAction)
| CCompletion (shell : string).

Definition show_bool (b : bool) : string := if b then "true" else "false".
Definition ok_or (b : bool) (yes no : string) : string := if b then yes else no.
(** Characters are counted, not bytes: 10xxxxxx continues one. *)
Fixpoint char_count (s : string) : nat :=
  match s with
  | EmptyString => 0
  | String c s => (if (0x80 <=? byte c) && (byte c <? 0xC0) then 0 else 1) + char_count s
  end.
Fixpoint repeat_str (n : nat) (s : string) : string := match n with O => "" | S n => s +:+ repeat_str n s end.
Definition pad_left (w : nat) (s : string) : string := repeat_str (w - char_count s) " " +:+ s.
Definition pad_right (w : nat) (s : string) : string := s +:+ repeat_str (w - char_count s) " ".
Definition backup_line (b : BackupEntry) : string :=
  pad_right 20 (entry_id b) +:+ " " +:+ pad_right 25 (created_at b) +:+ " " +:+
  pad_left 10 (pretty (Z.to_N (size_bytes b))) +:+ " " +:+ entry_status b.
Definition commas : list string → string := String.concat ", ".
Definition print_health (r : result string HealthResponse) : M () :=
  match r with
  | Ok h => say_all ["  Status:    " +:+ health_status h; "  Timestamp: " +:+ timestamp h]
  | Err e => say ("  Error: " +:+ e)
  end.
Definition printed (r : result string string) : M () := match r with Ok l => say l | Err e => λ _, ([], [], Err e) end.
Definition execute (c : Command) (client : ManagementClient) : M () :=
  match c with
  | CCompletion shell => say_all (completions shell)
  | CStatus =>
      s ⇐ get_status client ;
      say_all ["Shim Status:"; "  Status:  " +:+ status s; "  Version: " +:+ version s; "  Uptime:  " +:+ uptime s;
               "  Healthy: " +:+ show_bool (st_healthy s)]
  | CMetrics => m ⇐ get_metrics client ; printed (pretty_json m)
  | CHealth =>
      _ ⇐ say "Liveness check:" ;
      r ⇐ caught (get_livez client) ;
      _ ⇐ print_health r ;
      _ ⇐ say_all [""; "Readiness check:"] ;
      r ⇐ caught (get_readyz client) ;
      print_health r
  | CConfig ConfigReload =>
      r ⇐ reload_config client ;
      say_all ["Config reload: " +:+ ok_or (success r) "OK" "FAILED"; "Message: " +:+ message r]
  | CConfig (ConfigValidate file) =>
      r ⇐ validate_config file client ;
      _ ⇐ say ("Config validation: " +:+ ok_or (valid r) "VALID" "INVALID") ;
      if bool_decide (errors r = []) then done () else say_all ("Errors:" :: ((λ e, "  - " +:+ e) <$> errors r))
  | CBackup BackupList =>
      bs ⇐ list_backups client ;
      if bool_decide (length bs = 0%nat) then say "No backups found."
      else say_all ("ID                  Created                   Size Status" :: repeat_str 70 "-" :: (backup_line <$> bs))
  | CBackup BackupTrigger =>
      r ⇐ trigger_backup client ;
      say_all ["Backup triggered:"; "  ID:     " +:+ backup_id r; "  Status: " +:+ trigger_status r]
  | CMigration MigrationStatus =>
      r ⇐ get_migration_status client ;
      say_all ["Migration Status:"; "  Current version: " +:+ current_version r; "  Applied: " +:+ commas (applied r);
               "  Pending: " +:+ commas (pending r)]
  | CMigration MigrationApply =>
      r ⇐ apply_migrations client ;
      say_all ["Migration apply: " +:+ ok_or (apply_success r) "OK" "FAILED"; "Applied: " +:+ commas (apply_applied r);
               "Message: " +:+ apply_message r]
  | CMigration MigrationRollback =>
      r ⇐ rollback_migration client ;
      say_all ["Migration rollback: " +:+ ok_or (rollback_success r) "OK" "FAILED"; "Rolled back: " +:+ rolled_back r;
               "Message: " +:+ rollback_message r]
  end.

(** ** What is asked for *)

Definition requests (r : list Request * list string * result string ()) : list Request := r.1.1.
Definition lines (r : list Request * list string * result string ()) : list string := r.1.2.
Definition outcome (r : list Request * list string * result string ()) : result string () := r.2.
(** The routes of a command *)
Definition route (c : Command) : list (Method * string) :=
  match c with
  | CCompletion _ => []
  | CStatus => [(GET, "/status")]
  | CMetrics => [(GET, "/metrics")]
  | CHealth => [(GET, "/livez"); (GET, "/readyz")]
  | CConfig ConfigReload => [(POST, "/reload")]
  | CConfig (ConfigValidate _) => [(POST, "/validate")]
  | CBackup BackupList => [(GET, "/backups")]
  | CBackup BackupTrigger => [(POST, "/backups")]
  | CMigration MigrationStatus => [(GET, "/migrations")]
  | CMigration MigrationApply => [(POST, "/migrations/apply")]
  | CMigration MigrationRollback => [(POST, "/migrations/rollback")]
  end.
Definition body_of (c : Command) : option string :=
  match c with CConfig (ConfigValidate file) => Some (config_path_json file) | _ => None end.
(** One lemma per shape: what follows a request only prints. *)
Lemma and_then_requests {A B} (m : M A) (k : A → M B) srv :
  (∀ x, (k x srv).1.1 = []) → (and_then m k srv).1.1 = (m srv).1.1.
Proof.
  unfold and_then. intros H. destruct (m srv) as [[rs ls] [x|e]]; [|done]. specialize (H x).
  destruct (k x srv) as [[rs' ls'] r']. simpl in *. by rewrite H, app_nil_r.
Qed.
Definition health_lines (r : result string HealthResponse) : list string :=
  match r with
  | Ok h => ["  Status:    " +:+ health_status h; "  Timestamp: " +:+ timestamp h]
  | Err e => ["  Error: " +:+ e]
  end.
(** The health command always succeeds: it prints what the two requests come to. *)
Lemma execute_health client srv :
  let live := mkRequest GET (endpoint client +:+ "/livez") None in
  let ready := mkRequest GET (endpoint client +:+ "/readyz") None in
  execute CHealth client srv =
    ([live; ready],
     ("Liveness check:" :: health_lines (answered KLiveness live (srv live))) ++
     "" :: "Readiness check:" :: health_lines (answered KReadiness ready (srv ready)), Ok ()).
Proof.
  simpl. unfold and_then, caught, get_livez, get_readyz, get, send. simpl.
  by destruct (answered KLiveness _ _), (answered KReadiness _ _).
Qed.
(** A command makes the requests of its routes, whatever the server answers; validating a
    file sends its path. *)
Lemma requests_exact c client srv :
  requests (execute c client srv) = (λ r, mkRequest r.1 (endpoint client +:+ r.2) (body_of c)) <$> route c.
Proof.
  unfold requests. destruct c as [| | |[|file]|[]|[]|shell]; try (by rewrite execute_health); try done;
    cbn [execute]; rewrite and_then_requests; try done.
  - intros m. unfold printed. by destruct (pretty_json m).
  - intros r. unfold and_then, say. by case_bool_decide.
  - intros bs. by case_bool_decide.
Qed.
(** A reload that the server refuses is still a success of the command. *)
Lemma refused_reload_succeeds client srv code body msg :
  srv (mkRequest POST (endpoint client +:+ "/reload") None) = Ok (code, body) → code < 400 →
  decode KReload body = Some (mkReload false msg) →
  outcome (execute (CConfig ConfigReload) client srv) = Ok ().
Proof.
  intros Hs Hc Hd. unfold outcome, execute, reload_config, post, send, and_then, answered. rewrite Hs, (proj2 (Z.leb_gt 400 code)), Hd by done.
  done.
Qed.
End shimctl.

(** ** In front of the health server

    The routes of [HealthServer::start] ([health-shim/src/server.rs]); the router
    answers 404 to another path and 405 to another method.  The probes answer with a
    code and an empty body. *)

Section server.
Context `{WI : Wire} (completions : string → list string) (healthz_json metrics_json : HealthServer → string).

Definition health_routes (out : Outside) (v : HealthServer) (path : string) : option (Z * string) :=
  if bool_decide (path = "/livez") then Some ((liveness_handler out v).1, "")
  else if bool_decide (path = "/readyz") then Some ((readiness_handler out v).1, "")
  else if bool_decide (path = "/startupz") then Some (startup_handler v, "")
  else if bool_decide (path = "/healthz") then Some (OK, healthz_json v)
  else if bool_decide (path = "/metrics") then Some (OK, metrics_json v)
  else None.
Definition route_request (routes : string → option (Z * string)) (m : Method) (path : string) : Z * string :=
  match routes path with
  | Some a => match m with GET => a | POST => (405, "") end
  | None => (404, "")
  end.
(** A server that is reached at an endpoint *)
Definition at_endpoint (e : string) (routes : string → option (Z * string)) : Server := λ r,
  match strip_prefix e (req_url r) with
  | Some path => Ok (route_request routes (method r) path)
  | None => Err "connection refused"
  end.

Lemma probe_codes out v :
  ((liveness_handler out v).1 = OK ∨ (liveness_handler out v).1 = SERVICE_UNAVAILABLE) ∧
  ((readiness_handler out v).1 = OK ∨ (readiness_handler out v).1 = SERVICE_UNAVAILABLE).
Proof.
  unfold liveness_handler, readiness_handler. split.
  - destruct (check_liveness _ _) as [[] c]; simpl; auto.
  - destruct (negb (srv_initialized v)); [auto|]. destruct (negb _); [auto|]. destruct (check_readiness _ _) as [[] c]; simpl; auto.
Qed.
Lemma not_routed routes m p : routes p = None → route_request routes m p = (404, "").
Proof. unfold route_request. by intros ->. Qed.
(** What the client makes of a code with an empty body *)
Definition empty_answer (k : kind) (url : string) (code : Z) : string :=
  if (400 <=? code) && (code <? 600) then status_error code url else "Failed to parse " +:+ kind_name k +:+ " response".
Lemma answered_empty k r code : answered k r (Ok (code, "")) = Err (empty_answer k (req_url r) code).
Proof. unfold answered, empty_answer. by destruct (_ && _); [|rewrite decode_empty]. Qed.
Lemma send_at k c routes m p body :
  send k (mkRequest m (endpoint c +:+ p) body) (at_endpoint (endpoint c) routes) =
  ([mkRequest m (endpoint c +:+ p) body], [], answered k (mkRequest m (endpoint c +:+ p) body) (Ok (route_request routes m p))).
Proof. unfold send, at_endpoint. cbn [req_url method]. by rewrite strip_prefix_app. Qed.
(** The client has no server.  Against the health server, whatever its state, the
    commands for the status, the configuration, backups and migrations fail with a 404;
    the health command prints an error for each of its two probes, also when both
    succeed, and succeeds itself; only the metrics can be had. *)
Theorem client_without_server c client out v :
  let o := execute completions c client (at_endpoint (endpoint client) (health_routes out v)) in
  match c with
  | CCompletion _ => outcome o = Ok ()
  | CMetrics =>
      outcome o = match decode KMetrics (metrics_json v) with
                  | Some m => _ <-? pretty_json m ; Ok ()
                  | None => Err "Failed to parse metrics response"
                  end
  | CHealth =>
      outcome o = Ok () ∧
      lines o = ["Liveness check:";
                 "  Error: " +:+ empty_answer KLiveness (endpoint client +:+ "/livez") (liveness_handler out v).1; "";
                 "Readiness check:";
                 "  Error: " +:+ empty_answer KReadiness (endpoint client +:+ "/readyz") (readiness_handler out v).1]
  | _ => ∃ m p, route c = [(m, p)] ∧ outcome o = Err (status_error 404 (endpoint client +:+ p))
  end.
Proof.
  cbv zeta. destruct c as [| | |[|file]|[]|[]|shell]; [| |rewrite (execute_health completions)|..]; cbn [execute route];
    try (unfold get_status, reload_config, validate_config, list_backups, trigger_backup, get_migration_status, apply_migrations,
           rollback_migration, get, post; eexists _, _; split; [done|]; unfold outcome, and_then; rewrite send_at;
         rewrite not_routed by done; rewrite answered_empty; done).
  - unfold get_metrics, get, outcome, and_then. rewrite send_at.
    change (route_request _ GET "/metrics") with (OK, metrics_json v). unfold answered. simpl.
    destruct (decode KMetrics _) as [m|]; [|done]. unfold printed. by destruct (pretty_json m).
  - unfold outcome, lines, at_endpoint. cbn [fst snd req_url method].
    rewrite !strip_prefix_app.
    change (route_request _ GET "/livez") with ((liveness_handler out v).1, "").
    change (route_request _ GET "/readyz") with ((readiness_handler out v).1, ""). by rewrite !answered_empty.
  - done.
Qed.
End server.

(** ** Runs *)

Definition demo_status : StatusResponse := mkStatus "running" "1.0.0" "3600s" true.
Definition demo_entries : list BackupEntry := [mkEntry "bak-001" "2024-01-01" 1024 "completed"].
#[local] Instance demo_wire : Wire := {|
  Json := string;
  decode := λ k s,
    if bool_decide (s = "") then None else
    match k with
    | KStatus => Some demo_status
    | KMetrics => Some s
    | KLiveness | KReadiness => Some (mkHealthReply "alive" s)
    | KReload => Some (mkReload false "no change")
    | KValidate => Some (mkValidate false ["missing host"])
    | KBackupList => Some demo_entries
    | KBackupTrigger => Some (mkTrigger s "triggered")
    | KMigrationStatus => Some (mkMigration "3" ["004"] ["001"; "002"; "003"])
    | KMigrationApply => Some (mkApply true ["004"] "applied")
    | KMigrationRollback => Some (mkRollback true "004" "rolled back")
    end;
  decode_empty := λ k, eq_refl;
  pretty_json := Ok;
  config_path_json := λ p, p;
  status_error := λ c u, "HTTP status " +:+ pretty (Z.to_N c) +:+ " for url (" +:+ u +:+ ")"
|}.
Definition demo_client : ManagementClient := new_client "http://localhost:9090//".
Definition demo_server : Server := λ r, if bool_decide (req_url r = "http://localhost:9090/status") then Ok (200, "{}") else
  if bool_decide (req_url r = "http://localhost:9090/backups") then Ok (200, "[]") else Err "refused".
Example demo_commands :
  lines (execute (λ _, []) CStatus demo_client demo_server) =
    ["Shim Status:"; "  Status:  running"; "  Version: 1.0.0"; "  Uptime:  3600s"; "  Healthy: true"] ∧
  last (lines (execute (λ _, []) (CBackup BackupList) demo_client demo_server)) =
    Some "bak-001              2024-01-01                      1024 completed" ∧
  outcome (execute (λ _, []) (CMigration MigrationApply) demo_client demo_server) = Err "Failed to connect to management API".
Proof. vm_compute. done. Qed.
