(* ===== verification/Metrics.v ===== *)
(** * The metrics of a process ([shim-core/src/metrics.rs], [metrics_export.rs])

    [ShimMetrics], the exporter around it, and the handlers of its server.  The
    registry's [gather] sorts the families by name and leaves out a vector without
    children; the text encoder is an argument. *)

From S2P Require Import Prelude Text.

(** ** [ShimMetrics] *)

Record ShimMetrics := mkMetrics {
  events_published : Z;
  events_dropped : Z;
  bus_subscribers : f64;
  health_status : f64;
  health_checks_total : Z;
  uptime_gauge : f64;
  errors_total : gmap string Z;
  operation_durations : list f64;
  events_by_source : gmap string Z;
  events_handled : gmap string Z
}.
#[export] Instance ShimMetrics_settable : Settable ShimMetrics := λ m,
  mkMetrics (events_published m) (events_dropped m) (bus_subscribers m) (health_status m) (health_checks_total m)
    (uptime_gauge m) (errors_total m) (operation_durations m) (events_by_source m) (events_handled m).
Definition zero : f64 := f64_of_Z 0.
Definition one : f64 := f64_of_Z 1.
Definition half : f64 := f64_div one (f64_of_Z 2).
Definition new_metrics : ShimMetrics := mkMetrics 0 0 zero zero 0 zero ∅ [] ∅ ∅.
(** [with_label_values(&[l]).inc()] *)
Definition inc_label (l : string) (m : gmap string Z) : gmap string Z := <[l := add64 (default 0 (m !! l)) 1]> m.
Definition record_error (t : string) (m : ShimMetrics) : ShimMetrics := m <| errors_total ::= inc_label t |>.
Definition set_healthy (h : bool) (m : ShimMetrics) : ShimMetrics := m <| health_status := if h then one else zero |>.

(** A family: one value, the children of a vector by their label, or observations *)
Inductive samples := Single (v : f64) | Labelled (l : list (string * f64)) | Observed (l : list f64).
Record Family := mkFamily { family_name : string; family_samples : samples }.
Definition counted (n : string) (z : Z) : list Family := [mkFamily n (Single (f64_of_Z z))].
Definition gauged (n : string) (v : f64) : list Family := [mkFamily n (Single v)].
Definition labelled (n : string) (m : gmap string Z) : list Family :=
  if bool_decide (m = ∅) then []
  else [mkFamily n (Labelled ((λ kv, (kv.1, f64_of_Z kv.2)) <$> sort_by_name fst (map_to_list m)))].
Definition gather_base (m : ShimMetrics) : list Family :=
  gauged "shim_bus_subscribers" (bus_subscribers m) ++ labelled "shim_errors_total" (errors_total m) ++
  labelled "shim_events_by_source_total" (events_by_source m) ++ counted "shim_events_dropped_total" (events_dropped m) ++
  labelled "shim_events_handled_total" (events_handled m) ++ counted "shim_events_published_total" (events_published m) ++
  counted "shim_health_checks_total" (health_checks_total m) ++ gauged "shim_health_status" (health_status m) ++
  [mkFamily "shim_operation_duration_seconds" (Observed (operation_durations m))] ++ gauged "shim_uptime_seconds" (uptime_gauge m).

(** [register_custom]: a collector that the registry refuses is dropped with a warning. *)
Definition register_custom {Registry Collector} (register : Registry → Collector → result string Registry)
    (c : Collector) (r : Registry) : Registry :=
  match register r c with Ok r => r | Err _ => r end.

Section metrics.
Context (encode : list Family → string).
Definition export (m : ShimMetrics) : string := encode (gather_base m).

(** ** [MetricsExporter] *)

Definition DEFAULT_METRICS_PORT : Z := 9101.
Record MetricsExporter := mkExporter {
  base : ShimMetrics;
  shim_up : f64;
  events_total : gmap string Z;
  alerts_forwarded : Z;
  alerts_dropped : Z;
  health_probes : gmap string Z;
  config_reloads : Z;
  custom_metrics : gmap string (gmap string f64);
  start_time : Z;
  running : bool;
  scrape_count : Z
}.
#[local] Instance MetricsExporter_settable : Settable MetricsExporter := λ x,
  mkExporter (base x) (shim_up x) (events_total x) (alerts_forwarded x) (alerts_dropped x) (health_probes x)
    (config_reloads x) (custom_metrics x) (start_time x) (running x) (scrape_count x).
Definition new_exporter (now : Z) (m : ShimMetrics) : MetricsExporter := mkExporter m zero ∅ 0 0 ∅ 0 ∅ now false 0.
Definition mark_up (x : MetricsExporter) : MetricsExporter := x <| shim_up := one |> <| running := true |>.
Definition mark_down (x : MetricsExporter) : MetricsExporter := x <| shim_up := zero |> <| running := false |>.
Definition record_event (t : string) (x : MetricsExporter) : MetricsExporter := x <| events_total ::= inc_label t |>.
Definition record_alert_forwarded (x : MetricsExporter) : MetricsExporter := x <| alerts_forwarded ::= λ n, add64 n 1 |>.
Definition record_alert_dropped (x : MetricsExporter) : MetricsExporter := x <| alerts_dropped ::= λ n, add64 n 1 |>.
Definition record_health_probe (t : string) (x : MetricsExporter) : MetricsExporter := x <| health_probes ::= inc_label t |>.
Definition record_config_reload (x : MetricsExporter) : MetricsExporter := x <| config_reloads ::= λ n, add64 n 1 |>.
Definition set_custom_metric (shim metric : string) (v : f64) (x : MetricsExporter) : MetricsExporter :=
  x <| custom_metrics ::= λ m, <[shim := <[metric := v]> (default ∅ (m !! shim))]> m |>.
Definition uptime_seconds (now : Z) (x : MetricsExporter) : f64 := as_secs_f64 (now - start_time x).
Definition gather_exporter (x : MetricsExporter) : list Family :=
  counted "shim_alerts_dropped_total" (alerts_dropped x) ++ counted "shim_alerts_forwarded_total" (alerts_forwarded x) ++
  counted "shim_config_reloads_total" (config_reloads x) ++ labelled "shim_events_total" (events_total x) ++
  labelled "shim_health_probes_total" (health_probes x) ++ gauged "shim_up" (shim_up x).
Definition export_all (x : MetricsExporter) : string := encode (gather_base (base x) ++ gather_exporter x).
(** The handlers: the code and the body, and the scrape counted *)
Definition metrics_handler (x : MetricsExporter) : Z * string * MetricsExporter :=
  let x := x <| scrape_count ::= λ n, add64 n 1 |> in (200, export_all x, x).
Record Healthz := mkHealthz { hz_healthy : bool; hz_uptime : f64; hz_up : bool; hz_scrapes : Z }.
Definition healthz_handler (now : Z) (x : MetricsExporter) : Z * Healthz :=
  (200, mkHealthz (running x) (uptime_seconds now x) (f64_gt (shim_up x) half) (scrape_count x)).
(** The plain server of [metrics.rs] *)
Definition base_healthz (m : ShimMetrics) : Z * (bool * f64) := (200, (f64_gt (health_status m) half, uptime_gauge m)).

(** ** Sequences of calls *)

Inductive ExporterOp :=
| OpUp | OpDown
| OpEvent (t : string) | OpForwarded | OpDropped | OpProbe (t : string) | OpReload
| OpCustom (shim metric : string) (v : f64)
| OpError (t : string) | OpHealthy (b : bool)
| OpScrape.
Definition exporter_step (x : MetricsExporter) (o : ExporterOp) : MetricsExporter :=
  match o with
  | OpUp => mark_up x
  | OpDown => mark_down x
  | OpEvent t => record_event t x
  | OpForwarded => record_alert_forwarded x
  | OpDropped => record_alert_dropped x
  | OpProbe t => record_health_probe t x
  | OpReload => record_config_reload x
  | OpCustom s m v => set_custom_metric s m v x
  | OpError t => x <| base ::= record_error t |>
  | OpHealthy b => x <| base ::= set_healthy b |>
  | OpScrape => (metrics_handler x).2
  end.
Definition exporter_run : list ExporterOp → MetricsExporter → MetricsExporter := λ os x, foldl exporter_step x os.
Definition is_custom (o : ExporterOp) : bool := match o with OpCustom _ _ _ => true | _ => false end.
(** Everything but the custom metrics *)
Definition shown (x : MetricsExporter) : MetricsExporter := x <| custom_metrics := ∅ |>.

Lemma shown_step x o : shown (exporter_step (shown x) o) = shown (exporter_step x o).
Proof. by destruct o. Qed.
Lemma shown_custom x o : is_custom o = true → shown (exporter_step x o) = shown x.
Proof. by destruct o. Qed.
Lemma shown_run os : ∀ x y, shown x = shown y →
  shown (exporter_run os x) = shown (exporter_run (filter (λ o, is_custom o = false) os) y).
Proof.
  induction os as [|o os IH]; intros x y E; [done|]. simpl. destruct (is_custom o) eqn:Ec.
  - rewrite filter_cons_False by congruence. apply IH. by rewrite shown_custom.
  - rewrite filter_cons_True by done. simpl. apply IH. by rewrite <-shown_step, E, shown_step.
Qed.
(** Custom metrics are never seen: whatever is called, and however often, the text that
    is scraped and the health report are those of the same calls without the ones that
    set a custom metric. *)
Theorem custom_metrics_inert os x now :
  let y := exporter_run os x in
  let z := exporter_run (filter (λ o, is_custom o = false) os) x in
  export_all y = export_all z ∧ (metrics_handler y).1 = (metrics_handler z).1 ∧ healthz_handler now y = healthz_handler now z.
Proof.
  cbv zeta. generalize (shown_run os x x eq_refl). generalize (exporter_run os x). intros y.
  generalize (exporter_run (filter (λ o, is_custom o = false) os) x). intros z E.
  assert (export_all y = export_all z) as He by exact (f_equal export_all E).
  split_and!; [done| |exact (f_equal (healthz_handler now) E)]. simpl. f_equal. exact He.
Qed.

(** What is counted *)
Definition counts (p : ExporterOp → bool) (os : list ExporterOp) : Z := Z.of_nat (length (filter (λ o, p o = true) os)).
Definition is_event (t : string) (o : ExporterOp) : bool := match o with OpEvent u => bool_decide (u = t) | _ => false end.
Definition is_probe (t : string) (o : ExporterOp) : bool := match o with OpProbe u => bool_decide (u = t) | _ => false end.
Definition is_forwarded (o : ExporterOp) : bool := match o with OpForwarded => true | _ => false end.
Definition is_dropped (o : ExporterOp) : bool := match o with OpDropped => true | _ => false end.
Definition is_scrape (o : ExporterOp) : bool := match o with OpScrape => true | _ => false end.
Definition mark_of (o : ExporterOp) : option bool := match o with OpUp => Some true | OpDown => Some false | _ => None end.
Lemma counts_snoc p os o : counts p (os ++ [o]) = counts p os + (if p o then 1 else 0).
Proof.
  unfold counts. rewrite filter_app, length_app, Nat2Z.inj_add. f_equal.
  destruct (p o) eqn:E; [by rewrite filter_cons_True|by rewrite filter_cons_False by congruence].
Qed.
Lemma wrap_add64 n (b : bool) : add64 (wrap 64 n) (if b then 1 else 0) = wrap 64 (n + if b then 1 else 0).
Proof. unfold add64. apply wrap_add_l. Qed.
Lemma inc_label_value l t m n : default 0 (m !! t) = wrap 64 n →
  default 0 (inc_label l m !! t) = wrap 64 (n + if bool_decide (l = t) then 1 else 0).
Proof.
  unfold inc_label. intros H. case_bool_decide as E; [subst; rewrite lookup_insert_eq; simpl; rewrite H; apply (wrap_add64 n true)|].
  rewrite lookup_insert_ne, Z.add_0_r by done. done.
Qed.
(** The counters of an exporter agree with its history, and it is up as it was last
    marked. *)
Theorem exporter_accounts now m os t :
  let x := exporter_run os (new_exporter now m) in
  default 0 (events_total x !! t) = wrap 64 (counts (is_event t) os) ∧
  default 0 (health_probes x !! t) = wrap 64 (counts (is_probe t) os) ∧
  alerts_forwarded x = wrap 64 (counts is_forwarded os) ∧ alerts_dropped x = wrap 64 (counts is_dropped os) ∧
  scrape_count x = wrap 64 (counts is_scrape os) ∧
  running x = default false (last (omap mark_of os)) ∧ f64_gt (shim_up x) half = running x.
Proof.
  cbv zeta. induction os as [|o os IH] using rev_ind; [by split_and!|].
  destruct IH as (H1 & H2 & H3 & H4 & H5 & H6 & H7). unfold exporter_run in *. rewrite foldl_app. simpl.
  set (x := foldl exporter_step _ os) in *. rewrite !counts_snoc, omap_app.
  assert (∀ n, add64 (wrap 64 n) 1 = wrap 64 (n + 1)) as Hw by (intros n; apply (wrap_add64 n true)).
  destruct o; cbn [exporter_step is_event is_probe is_forwarded is_dropped is_scrape]; rewrite ?Z.add_0_r; csimpl;
    rewrite ?app_nil_r, ?last_snoc; split_and!; auto using inc_label_value; simpl; try (by rewrite ?H3, ?H4, ?H5); done.
Qed.
End metrics.

(** ** Runs *)

Definition demo_names (l : list Family) : string := String.concat " " (family_name <$> l).
Example demo_export :
  export_all demo_names (exporter_run demo_names [OpUp; OpEvent "b"; OpCustom "backup" "x" one; OpError "io"] (new_exporter 0 new_metrics)) =
  "shim_bus_subscribers shim_errors_total shim_events_dropped_total shim_events_published_total shim_health_checks_total shim_health_status shim_operation_duration_seconds shim_uptime_seconds shim_alerts_dropped_total shim_alerts_forwarded_total shim_config_reloads_total shim_events_total shim_up".
Proof. vm_compute. done. Qed.
(** An exporter that is down still answers 200. *)
Example demo_healthz :
  let '(code, h) := healthz_handler (3 * 10 ^ 9) (mark_down (mark_up (new_exporter 0 new_metrics))) in
  code = 200 ∧ hz_healthy h = false ∧ hz_up h = false ∧ hz_uptime h = f64_of_Z 3.
Proof. vm_compute. done. Qed.
