(* ===== verification/Logging.v ===== *)
(** * Request ids and tracked operations ([shim-core/src/structured_logging.rs])

    The context of a request, the tracker of an operation, and the generator of request
    ids.  Uuids come from outside; the subscriber that writes the lines is foreign. *)

From S2P Require Import Prelude Text Events.

Section logging.
Context `{EX : External}.

(** ** [RequestContext] *)

Record RequestContext := mkRequestContext { request_id : uuid; correlation : option uuid; shim_name : string }.
Definition new_context (new_id : uuid) (shim : string) : RequestContext := mkRequestContext new_id None shim.
Definition context_with_correlation (new_id : uuid) (shim : string) (c : uuid) : RequestContext := mkRequestContext new_id (Some c) shim.
(** [span]: the fields of the span *)
Definition span_fields (show : uuid → string) (c : RequestContext) : list (string * string) :=
  [("request_id", show (request_id c)); ("correlation_id", from_option show "" (correlation c)); ("shim_name", shim_name c)].

(** ** [OperationTracker] *)

Record OperationTracker := mkTracker { operation : string; tracker_shim : string; tracker_start : Z; tracker_request : uuid }.
Record OperationMetrics := mkOperation {
  om_operation : string; om_shim : string; duration_ms : Z; om_status : string; om_request : uuid
}.
Definition start_tracker (now : Z) (op shim : string) (i : uuid) : OperationTracker := mkTracker op shim now i.
(** [complete]: instants are nanoseconds of a clock that does not step back. *)
Definition complete (now : Z) (status : string) (t : OperationTracker) : OperationMetrics :=
  mkOperation (operation t) (tracker_shim t) (as_u64 (saturating_sub now (tracker_start t) / 10 ^ 6)) status (tracker_request t).
(** The logged duration of an operation is its duration, for half a billion years. *)
Lemma complete_duration t0 d op shim i st :
  0 ≤ d < 10 ^ 6 * 2 ^ 64 → duration_ms (complete (t0 + d) st (start_tracker t0 op shim i)) = d / 10 ^ 6.
Proof.
  intros H. simpl. unfold saturating_sub, as_u64. rewrite Z.max_r by lia. replace (t0 + d - t0) with d by lia.
  apply wrap_small. split; [apply Z.div_pos; lia|]. apply Z.div_lt_upper_bound; lia.
Qed.
End logging.

(** ** Request ids *)

(** [generate_request_id] at a time in milliseconds: the id, and the counter after *)
Definition generate_request_id (now_ms : Z) (counter : Z) : string * Z :=
  ("req-" +:+ pretty_i64 now_ms +:+ String "-" (pretty (Z.to_N counter)), add64 counter 1).
Definition REQUEST_COUNTER : Z := 1.
Definition derive_correlation_id (request_id : string) : string := "corr-" +:+ request_id.
(** The ids of a sequence of calls *)
Fixpoint generate_ids (clock : list Z) (counter : Z) : list string :=
  match clock with
  | [] => []
  | now :: clock => let '(i, counter) := generate_request_id now counter in i :: generate_ids clock counter
  end.

(** What follows the last dash decides. *)
Lemma last_dash_inj s1 s2 d1 d2 :
  avoids "-" d1 = true → avoids "-" d2 = true → s1 +:+ String "-" d1 = s2 +:+ String "-" d2 → d1 = d2.
Proof.
  assert (∀ s d d', avoids "-" d = true → d ≠ s +:+ String "-" d') as Hno.
  { intros s d d' H ->. unfold avoids in H. rewrite str_all_app in H. apply andb_true_iff in H as [_ H]. simpl in H. done. }
  intros H1 H2. revert s2. induction s1 as [|c s1 IH]; intros [|c' s2] E; simpl in E; simplify_eq/=; [done| | |].
  - exfalso. exact (Hno _ _ _ H1 eq_refl).
  - exfalso. exact (Hno _ _ _ H2 eq_refl).
  - by eapply IH.
Qed.
Lemma pretty_no_dash n : avoids "-" (pretty (n : N)) = true.
Proof. by eapply (digits_avoid "-" (pretty n) 0), digits_value_pretty. Qed.
Lemma request_id_inj t t' c c' : 0 ≤ c → 0 ≤ c' → (generate_request_id t c).1 = (generate_request_id t' c').1 → c = c'.
Proof.
  intros Hc Hc'. simpl. intros E%str_app_inj_l.
  apply last_dash_inj in E; [|apply pretty_no_dash..]. apply (inj pretty) in E. lia.
Qed.
(** The call [k] uses the counter it was left at. *)
Lemma generate_ids_lookup clock : ∀ c k,
  generate_ids clock (wrap 64 c) !! k = (λ t, (generate_request_id t (wrap 64 (c + Z.of_nat k))).1) <$> clock !! k.
Proof.
  induction clock as [|t clock IH]; intros c k; [done|]. cbn [generate_ids].
  destruct k as [|k]; [by rewrite Z.add_0_r|]. simpl. unfold add64. rewrite wrap_add_l, IH.
  by replace (c + 1 + Z.of_nat k) with (c + Z.of_nat (S k)) by lia.
Qed.
Lemma wrap_inj_near w a i j : 0 ≤ w → 0 ≤ i < 2 ^ w → 0 ≤ j < 2 ^ w → wrap w (a + i) = wrap w (a + j) → i = j.
Proof.
  intros Hw Hi Hj H. rewrite <-(wrap_small w i), <-(wrap_small w j) by (unfold in_u; lia).
  replace i with (- a + (a + i)) by lia. replace j with (- a + (a + j)) by lia.
  by rewrite <-wrap_add_r, H, wrap_add_r.
Qed.
(** Request ids are unique, whatever the clock does, also when it stands still or
    steps back: of up to [2^64] ids generated in a row no two are equal, and neither are
    the correlation ids made of them. *)
Theorem request_ids_unique clock c :
  in_u 64 c → Z.of_nat (length clock) ≤ 2 ^ 64 →
  NoDup (generate_ids clock c) ∧ NoDup (derive_correlation_id <$> generate_ids clock c).
Proof.
  intros Hc Hn. assert (NoDup (generate_ids clock c)) as H; [|split; [done|apply NoDup_fmap; [|done]; by intros ?? ?%str_app_inj_l]].
  rewrite <-(wrap_small 64 c) by done. apply NoDup_alt. intros i j x. rewrite !generate_ids_lookup.
  destruct (clock !! i) as [t|] eqn:Hi; [|done]. destruct (clock !! j) as [t'|] eqn:Hj; [|done].
  apply lookup_lt_Some in Hi, Hj. intros Ei Ej.
  assert ((generate_request_id t (wrap 64 (c + Z.of_nat i))).1 = (generate_request_id t' (wrap 64 (c + Z.of_nat j))).1) as E
    by (apply (inj Some); etransitivity; [exact Ei|symmetry; exact Ej]).
  destruct (wrap_range 64 (c + Z.of_nat i)), (wrap_range 64 (c + Z.of_nat j)); [lia..|].
  apply request_id_inj in E; [|done..].
  apply wrap_inj_near in E; lia.
Qed.
Lemma request_ids_unique_witness :
  NoDup (generate_ids [5; 5; -1; 5] REQUEST_COUNTER) ∧
  NoDup (derive_correlation_id <$> generate_ids [5; 5; -1; 5] REQUEST_COUNTER).
Proof.
  assert (in_u 64 REQUEST_COUNTER) as H1 by (split; vm_compute; congruence).
  assert (Z.of_nat (length [5; 5; -1; 5]) ≤ 2 ^ 64) as H2 by (vm_compute; congruence).
  exact (request_ids_unique [5; 5; -1; 5] REQUEST_COUNTER H1 H2).
Defined.
Example demo_ids : generate_ids [5; -1] REQUEST_COUNTER = ["req-5-1"; "req--1-2"].
Proof. vm_compute. done. Qed.
