(* ===== verification/Errors.v ===== *)
(** * The errors of the shim ([shim-core/src/error.rs])

    The error type and its texts.  The errors of other packages are their own texts.  The
    components return the text inside the error, which is where they differ; here are the
    texts as an operator reads them. *)

From S2P Require Import Prelude Text.

Record BackupError := mkBackupError { be_command : string; be_message : string; be_exit_code : option Z }.
Record TlsError := mkTlsError { te_provider : string; te_message : string }.
Record FailoverError := mkFailoverError { fe_connector : string; fe_message : string }.
Record MigrationError := mkMigrationError { me_version : option Z; me_message : string }.
Definition new_backup_error (c m : string) (code : option Z) : BackupError := mkBackupError c m code.
Definition new_tls_error (p m : string) : TlsError := mkTlsError p m.
Definition new_failover_error (c m : string) : FailoverError := mkFailoverError c m.
Definition new_migration_error (v : option Z) (m : string) : MigrationError := mkMigrationError v m.

Definition backup_error_display (e : BackupError) : string :=
  match be_exit_code e with
  | Some code => "backup error: command `" +:+ be_command e +:+ "` failed (exit code " +:+ pretty_i64 code +:+ "): " +:+ be_message e
  | None => "backup error: command `" +:+ be_command e +:+ "` failed: " +:+ be_message e
  end.
Definition tls_error_display (e : TlsError) : string := "tls error: " +:+ te_provider e +:+ ": " +:+ te_message e.
Definition failover_error_display (e : FailoverError) : string :=
  "failover error: connector `" +:+ fe_connector e +:+ "` failed: " +:+ fe_message e.
Definition migration_error_display (e : MigrationError) : string :=
  match me_version e with
  | Some v => "migration error at version " +:+ pretty (Z.to_N v) +:+ ": " +:+ me_message e
  | None => "migration error: " +:+ me_message e
  end.

(** [Error] *)
Inductive Error :=
| EConfig (s : string) | EDatabase (s : string) | ENetwork (s : string) | EProcess (s : string) | EVault (s : string)
| EBackup (s : string) | EBackupDetail (e : BackupError)
| EMigration (s : string) | EMigrationDetail (e : MigrationError)
| ETls (s : string) | ETlsDetail (e : TlsError)
| EFailover (s : string) | EFailoverDetail (e : FailoverError)
| ETimeout (s : string) | EIo (s : string) | EConnection (s : string) | ESerialization (s : string) | EToml (s : string)
| EPlugin (s : string) | EAnyhow (s : string).
Definition error_text (e : Error) : string :=
  match e with
  | EConfig s => "configuration error: " +:+ s
  | EDatabase s => "database error: " +:+ s
  | ENetwork s => "network error: " +:+ s
  | EProcess s => "process error: " +:+ s
  | EVault s => "vault error: " +:+ s
  | EBackup s => "backup error: " +:+ s
  | EBackupDetail b => backup_error_display b
  | EMigration s => "migration error: " +:+ s
  | EMigrationDetail m => migration_error_display m
  | ETls s => "tls error: " +:+ s
  | ETlsDetail t => tls_error_display t
  | EFailover s => "failover error: " +:+ s
  | EFailoverDetail f => failover_error_display f
  | ETimeout s => "timeout: " +:+ s
  | EIo s => "io error: " +:+ s
  | EConnection s => "connection error: " +:+ s
  | ESerialization s => "serialization error: " +:+ s
  | EToml s => "toml error: " +:+ s
  | EPlugin s => "plugin error: " +:+ s
  | EAnyhow s => s
  end.
(** [From<nix::errno::Errno>] *)
Definition from_errno (text : string) : Error := EProcess text.

(** The part of the shim an error is about *)
Inductive part :=
| PConfig | PDatabase | PNetwork | PProcess | PVault | PBackup | PMigration | PTls | PFailover | PTimeout | PIo | PConnection
| PSerialization | PToml | PPlugin.
Definition part_of (e : Error) : option part :=
  match e with
  | EConfig _ => Some PConfig | EDatabase _ => Some PDatabase | ENetwork _ => Some PNetwork | EProcess _ => Some PProcess
  | EVault _ => Some PVault | EBackup _ | EBackupDetail _ => Some PBackup | EMigration _ | EMigrationDetail _ => Some PMigration
  | ETls _ | ETlsDetail _ => Some PTls | EFailover _ | EFailoverDetail _ => Some PFailover | ETimeout _ => Some PTimeout
  | EIo _ => Some PIo | EConnection _ => Some PConnection | ESerialization _ => Some PSerialization | EToml _ => Some PToml
  | EPlugin _ => Some PPlugin | EAnyhow _ => None
  end.
(** The text tells the part: unless an error of another package passes through, two errors
    with the same text are about the same part. *)
Theorem text_tells_part e e' :
  is_Some (part_of e) → is_Some (part_of e') → error_text e = error_text e' → part_of e = part_of e'.
Proof.
  intros H H' E. destruct e as [| | | | | |b| |[[v|] m]| |t| |f| | | | | | |], e' as [| | | | | |b'| |[[v'|] m']| |t'| |f'| | | | | | |];
    first [reflexivity | by destruct H | by destruct H' | exfalso];
    unfold error_text, backup_error_display in E; repeat case_match; discriminate E.
Qed.
(** A detailed error reads like a plain one about the same part, except a migration error
    with its version. *)
Lemma detail_reads_plain e :
  match e with EBackupDetail _ | ETlsDetail _ | EFailoverDetail _ => True | EMigrationDetail m => me_version m = None | _ => False end →
  ∃ s, error_text e ∈ [error_text (EBackup s); error_text (ETls s); error_text (EFailover s); error_text (EMigration s)].
Proof.
  destruct e as [| | | | | |b| |m| |t| |f| | | | | | |]; try done; intros H.
  - simpl. unfold backup_error_display. destruct (be_exit_code b); eexists; apply list_elem_of_here.
  - simpl. unfold migration_error_display. rewrite H. eexists. do 3 apply list_elem_of_further. apply list_elem_of_here.
  - simpl. eexists. apply list_elem_of_further, list_elem_of_here.
  - simpl. eexists. do 2 apply list_elem_of_further. apply list_elem_of_here.
Qed.
Lemma text_tells_part_witness :
  part_of (EMigrationDetail (new_migration_error None "x")) = part_of (EMigration "x").
Proof.
  assert (is_Some (part_of (EMigrationDetail (new_migration_error None "x")))) as H1 by (by eexists).
  assert (is_Some (part_of (EMigration "x"))) as H2 by (by eexists).
  exact (text_tells_part _ _ H1 H2 eq_refl).
Defined.
Example demo_error_texts :
  error_text (EBackupDetail (new_backup_error "pg_dump" "no space" (Some (-1)))) =
    "backup error: command `pg_dump` failed (exit code -1): no space" ∧
  error_text (EMigrationDetail (new_migration_error (Some 3) "syntax")) = "migration error at version 3: syntax".
Proof. vm_compute. done. Qed.
