(* ===== verification/Lifecycle.v ===== *)
(** * Starting and stopping the background tasks of the shims

    The shims of [src/crates] share one pattern: [start] makes a [watch] channel, keeps
    the sender in [shutdown_tx] and spawns loops that hold the receiver; [stop] takes the
    sender, writes [true] and drops it.  The loops differ in what they do when
    [shutdown_rx.changed()] is ready, and this file shows what that leads to. *)

From S2P Require Import Prelude Queue.

(** ** The channel ([tokio::sync::watch])

    The value and what else sender and receivers share; what a receiver has seen.
    [changed] is [None] while it waits: it is ready when a value was sent, and whenever
    the sender is gone. *)
Class Watch := {
  wch : Type;
  wrx : Type;
  w_channel : bool → wch * wrx;
  w_send : bool → wch → wch;
  w_drop : wch → wch;
  w_borrow : wch → bool;
  w_changed : wch → wrx → option wrx;
  w_borrow_channel : ∀ v, w_borrow (w_channel v).1 = v;
  w_borrow_send : ∀ v c, w_borrow (w_send v c) = v;
  w_borrow_drop : ∀ c, w_borrow (w_drop c) = w_borrow c;
  w_changed_channel : ∀ v, w_changed (w_channel v).1 (w_channel v).2 = None;
  w_changed_drop : ∀ c r, is_Some (w_changed (w_drop c) r)
}.

(** ** The loops *)

(** What a loop does when [changed] is ready: it ends ([break] or [return]); it ends if
    the value is [true]; or, as a worker does, it goes round and looks at the value
    first. *)
Inductive policy := Leaves | Looks | Worker.
#[export] Instance policy_eq_dec : EqDecision policy.
Proof. solve_decision. Defined.

Section lifecycle.
Context `{WA : Watch}.
Context (p : policy).

Record task := mkTask { t_ch : nat; t_rx : wrx; t_running : bool }.
#[local] Instance task_settable : Settable task := λ t, mkTask (t_ch t) (t_rx t) (t_running t).
(** The channels made so far, the one whose sender is kept, the tasks, how often they
    did their work and how often they went round without *)
Record life := mkLife {
  channels : list wch;
  shutdown_tx : option nat;
  tasks : list task;
  worked : nat;
  spun : nat
}.
#[local] Instance life_settable : Settable life := λ s,
  mkLife (channels s) (shutdown_tx s) (tasks s) (worked s) (spun s).
Definition fresh : life := mkLife [] None [] 0 0.

Definition on_sender (f : wch → wch) (s : life) : life :=
  match shutdown_tx s with Some k => s <| channels ::= alter f k |> | None => s end.
(** [start], which spawns [n] loops: the sender it replaces is dropped. *)
Definition start (n : nat) (s : life) : life :=
  let '(c, r) := w_channel false in
  let k := length (channels s) in
  (on_sender w_drop s) <| channels ::= λ l, l ++ [c] |> <| shutdown_tx := Some k |>
    <| tasks ::= λ l, l ++ replicate n (mkTask k r true) |>.
Definition stop (s : life) : life :=
  (on_sender (λ c, w_drop (w_send true c)) s) <| shutdown_tx := None |>.

(** A turn of a loop: what comes of it *)
Inductive outcome := Ended | Worked | Spun (r : wrx) | Waits.
(** [due]: the other branch is ready, or there is work; [pick]: [select!] takes it when
    both are. *)
Definition turn_outcome (c : wch) (r : wrx) (due pick : bool) : outcome :=
  match p with
  | Worker => if w_borrow c then Ended else if due then Worked else from_option Spun Waits (w_changed c r)
  | _ =>
      match w_changed c r with
      | None => if due then Worked else Waits
      | Some r' => if due && pick then Worked
                   else if bool_decide (p = Leaves) || w_borrow c then Ended else Spun r'
      end
  end.
Definition turn (k : nat) (due pick : bool) (s : life) : life :=
  match tasks s !! k with
  | Some t =>
      if t_running t then
        match channels s !! t_ch t with
        | Some c =>
            match turn_outcome c (t_rx t) due pick with
            | Ended => s <| tasks ::= <[k := t <| t_running := false |>]> |>
            | Worked => s <| worked ::= S |>
            | Spun r => s <| tasks ::= <[k := t <| t_rx := r |>]> |> <| spun ::= S |>
            | Waits => s
            end
        | None => s
        end
      else s
  | None => s
  end.

Inductive life_event := EvStart (n : nat) | EvStop | EvTurn (k : nat) (due pick : bool).
Definition life_apply (s : life) (v : life_event) : life :=
  match v with
  | EvStart n => start n s
  | EvStop => stop s
  | EvTurn k due pick => turn k due pick s
  end.
Definition exec (vs : list life_event) (s : life) : life := foldl life_apply s vs.

(** ** What is known of the channels *)

Definition running (s : life) (k : nat) : bool :=
  match tasks s !! k with Some t => t_running t | None => false end.
(** A task whose [start] was replaced by another without a [stop] in between: its channel
    says [false] for ever. *)
Definition stray (s : life) (t : task) : bool :=
  match channels s !! t_ch t with
  | Some c => negb (bool_decide (shutdown_tx s = Some (t_ch t))) && negb (w_borrow c)
  | None => false
  end.

(** The channel that is kept says [false]; the others have lost their sender. *)
Definition channel_ok (s : life) (k : nat) (c : wch) : Prop :=
  if decide (shutdown_tx s = Some k) then w_borrow c = false else ∃ c', c = w_drop c'.
Record life_inv (s : life) : Prop := {
  inv_channels : ∀ k c, channels s !! k = Some c → channel_ok s k c;
  inv_sender : ∀ k, shutdown_tx s = Some k → is_Some (channels s !! k);
  inv_tasks : ∀ k t, tasks s !! k = Some t → is_Some (channels s !! t_ch t)
}.

Lemma fresh_inv : life_inv fresh.
Proof. by split. Qed.
Lemma on_sender_fields f s :
  shutdown_tx (on_sender f s) = shutdown_tx s ∧ tasks (on_sender f s) = tasks s ∧
  length (channels (on_sender f s)) = length (channels s) ∧
  ∀ k, channels (on_sender f s) !! k =
    (if decide (shutdown_tx s = Some k) then f <$> channels s !! k else channels s !! k).
Proof.
  unfold on_sender. destruct (shutdown_tx s) as [k|] eqn:E; simpl; rewrite ?E.
  - split_and!; [done|done|by rewrite length_alter|]. intros k'. destruct (decide (Some k = Some k')) as [[= ->]|].
    + by rewrite list_lookup_alter_eq.
    + rewrite list_lookup_alter_ne; [done|congruence].
  - split_and!; [done..|]. intros k'. by destruct (decide (None = Some k')).
Qed.
Lemma on_sender_drops f s k c :
  life_inv s → (∀ c, w_borrow c = false → ∃ c', f c = w_drop c') →
  channels (on_sender f s) !! k = Some c → ∃ c', c = w_drop c'.
Proof.
  intros Hi Hf. destruct (on_sender_fields f s) as (_ & _ & _ & ->). destruct (channels s !! k) as [c0|] eqn:E.
  - pose proof (inv_channels _ Hi _ _ E) as Hc. unfold channel_ok in Hc.
    destruct (decide (shutdown_tx s = Some k)); simpl; intros [= <-]; [by apply Hf|done].
  - by destruct (decide _).
Qed.
Lemma task_has_channel f s k t : life_inv s → tasks s !! k = Some t → is_Some (channels (on_sender f s) !! t_ch t).
Proof.
  intros Hi Ht. destruct (on_sender_fields f s) as (_ & _ & _ & ->).
  destruct (inv_tasks _ Hi _ _ Ht) as [c ->]. destruct (decide _); by eexists.
Qed.

Lemma start_inv n s : life_inv s → life_inv (start n s).
Proof.
  intros Hi. unfold start. destruct (w_channel false) as [c0 r0] eqn:E0.
  destruct (on_sender_fields w_drop s) as (Hs & Ht & Hl & _).
  split; simpl.
  - intros k c. unfold channel_ok. simpl. destruct (decide (Some (length (channels s)) = Some k)) as [[= <-]|Hne].
    + rewrite lookup_app_r by lia. rewrite Hl, Nat.sub_diag. intros [= <-].
      pose proof (w_borrow_channel false) as Hb. by rewrite E0 in Hb.
    + intros Hk. rewrite lookup_app_l in Hk.
      * eapply on_sender_drops; [done| |done]. intros c1 _. by exists c1.
      * apply lookup_lt_Some in Hk. rewrite length_app, Hl in Hk. simpl in Hk. rewrite Hl.
        destruct (decide (k = length (channels s))) as [->|]; [done|lia].
  - intros k [= <-]. rewrite lookup_app_r, Hl, Nat.sub_diag by lia. by eexists.
  - intros k t Hk. rewrite Ht in Hk. apply lookup_app_Some in Hk as [Hk|[_ Hk]].
    + destruct (task_has_channel w_drop s k t Hi Hk) as [c Hc]. exists c. by apply lookup_app_l_Some.
    + apply lookup_replicate in Hk as [-> _]. simpl. rewrite lookup_app_r, Hl, Nat.sub_diag by lia. by eexists.
Qed.
Lemma stop_inv s : life_inv s → life_inv (stop s).
Proof.
  intros Hi. unfold stop. destruct (on_sender_fields (λ c, w_drop (w_send true c)) s) as (_ & Ht & _). split; simpl.
  - intros k c Hc. unfold channel_ok. rewrite decide_False by done.
    eapply on_sender_drops; [done| |done]. intros c1 _. by eexists.
  - done.
  - intros k t. rewrite Ht. intros Hk. by eapply task_has_channel.
Qed.

(** A turn only changes its own task. *)
Lemma turn_frame k due pick s :
  channels (turn k due pick s) = channels s ∧ shutdown_tx (turn k due pick s) = shutdown_tx s ∧
  (∀ k', k' ≠ k → tasks (turn k due pick s) !! k' = tasks s !! k') ∧
  (∀ t', tasks (turn k due pick s) !! k = Some t' → ∃ t, tasks s !! k = Some t ∧ t_ch t' = t_ch t).
Proof.
  unfold turn. destruct (tasks s !! k) as [t|] eqn:Ht; [|rewrite Ht; by split_and!].
  assert (∀ t', tasks s !! k = Some t' → ∃ t0, Some t = Some t0 ∧ t_ch t' = t_ch t0) as Hself.
  { intros t'. rewrite Ht. intros [= <-]. by exists t. }
  destruct (t_running t); [|by split_and!].
  destruct (channels s !! t_ch t) as [c|]; [|by split_and!].
  destruct (turn_outcome c (t_rx t) due pick); simpl; split_and!; try done.
  1, 3: intros k' Hk; by rewrite list_lookup_insert_ne.
  all: intros t'; rewrite list_lookup_insert_eq by (by eapply lookup_lt_Some); intros [= <-]; by exists t.
Qed.
Lemma turn_inv k due pick s : life_inv s → life_inv (turn k due pick s).
Proof.
  intros Hi. destruct (turn_frame k due pick s) as (Hc & Hs & Hf & Hk). split.
  - intros k' c. unfold channel_ok. rewrite Hc, Hs. apply Hi.
  - intros k'. rewrite Hc, Hs. apply Hi.
  - intros k' t. rewrite Hc. destruct (decide (k' = k)) as [->|Hne].
    + intros (t0 & Ht & ->)%Hk. by eapply inv_tasks.
    + rewrite Hf by done. by eapply inv_tasks.
Qed.
Lemma exec_inv vs : ∀ s, life_inv s → life_inv (exec vs s).
Proof.
  induction vs as [|v vs IH]; intros s Hi; [done|]. simpl. apply IH.
  destruct v; simpl; auto using start_inv, stop_inv, turn_inv.
Qed.

(** ** A channel without a sender is as it is *)

Definition detached (s : life) (k : nat) (c : wch) : Prop :=
  channels s !! k = Some c ∧ shutdown_tx s ≠ Some k.
Lemma life_apply_detached s v k c : detached s k c → detached (life_apply s v) k c.
Proof.
  intros [Hk Hne]. destruct v as [n| |k' due pick]; simpl.
  - unfold start. destruct (w_channel false) as [c0 r0]. destruct (on_sender_fields w_drop s) as (_ & _ & Hl & Hc).
    split; simpl.
    + apply lookup_app_l_Some. rewrite Hc. by rewrite decide_False.
    + intros [= E]. apply lookup_lt_Some in Hk. lia.
  - unfold stop. destruct (on_sender_fields (λ c, w_drop (w_send true c)) s) as (_ & _ & _ & Hc).
    split; simpl; [|done]. rewrite Hc. by rewrite decide_False.
  - destruct (turn_frame k' due pick s) as (Hc & Hs & _). split; [by rewrite Hc|by rewrite Hs].
Qed.

(** The turn of a running task on a channel that lost its sender and says [false] *)
Lemma turn_stray k due pick s t c :
  p ≠ Leaves → tasks s !! k = Some t → t_running t = true → channels s !! t_ch t = Some (w_drop c) → w_borrow c = false →
  ∃ t', tasks (turn k due pick s) !! k = Some t' ∧ t_running t' = true ∧ t_ch t' = t_ch t ∧
    (due = false → spun (turn k due pick s) = S (spun s)).
Proof.
  intros Hp Ht Hr Hc Hb. unfold turn. rewrite Ht, Hr, Hc. destruct (w_changed_drop c (t_rx t)) as [r' Hr'].
  assert (turn_outcome (w_drop c) (t_rx t) due pick = Spun r' ∨
          (due = true ∧ turn_outcome (w_drop c) (t_rx t) due pick = Worked)) as [->|[-> ->]].
  { unfold turn_outcome. rewrite w_borrow_drop, Hb, Hr'. destruct p; [done| |]; destruct due; simpl; auto. destruct pick; auto. }
  - simpl. rewrite list_lookup_insert_eq by (by eapply lookup_lt_Some). eexists. by split_and!.
  - simpl. exists t. by split_and!.
Qed.
Lemma stray_exec vs : p ≠ Leaves → ∀ s k t c,
  tasks s !! k = Some t → t_running t = true → detached s (t_ch t) (w_drop c) → w_borrow c = false →
  ∃ t', tasks (exec vs s) !! k = Some t' ∧ t_running t' = true ∧ t_ch t' = t_ch t ∧ detached (exec vs s) (t_ch t) (w_drop c).
Proof.
  intros Hp. induction vs as [|v vs IH]; intros s k t c Ht Hr Hd Hb; [by exists t|]. simpl.
  assert (∃ t', tasks (life_apply s v) !! k = Some t' ∧ t_running t' = true ∧ t_ch t' = t_ch t) as (t' & Ht' & Hr' & E).
  { destruct v as [n| |k' due pick]; simpl.
    - unfold start. destruct (w_channel false). destruct (on_sender_fields w_drop s) as (_ & Hts & _). simpl. rewrite Hts.
      exists t. split_and!; [by apply lookup_app_l_Some|done..].
    - unfold stop. destruct (on_sender_fields (λ c, w_drop (w_send true c)) s) as (_ & Hts & _). simpl. rewrite Hts. by exists t.
    - destruct (decide (k = k')) as [<-|Hne].
      + destruct Hd as [Hc _]. destruct (turn_stray k due pick s t c Hp Ht Hr Hc Hb) as (t' & ? & ? & ? & _). by exists t'.
      + destruct (turn_frame k' due pick s) as (_ & _ & Hf & _). rewrite Hf by done. by exists t. }
  destruct (IH (life_apply s v) k t' c Ht' Hr') as (t2 & H1 & H2 & H3 & H4).
  - rewrite E. by apply life_apply_detached.
  - done.
  - rewrite E in H3, H4. by exists t2.
Qed.

(** C19. Stopping reaches the loops of the last start, and the others only if they do not
    look at the value.  After any sequence of starts, stops and turns, a [stop] ends every
    running loop at its next turn that finds nothing due, except a loop that looks at the
    value and whose start was replaced by another start; such a loop is never ended by
    anything, and every turn of it that finds nothing due comes round at once. *)
Theorem stop_reaches vs k t pick : let s := exec vs fresh in
  tasks s !! k = Some t → t_running t = true →
  (p = Leaves ∨ stray s t = false → running (turn k false pick (stop s)) k = false) ∧
  (p ≠ Leaves → stray s t = true → ∀ vs', let s' := exec vs' s in
     running s' k = true ∧ spun (turn k false pick s') = S (spun s')).
Proof.
  intros s Ht Hr. pose proof (exec_inv vs fresh fresh_inv) as Hi. fold s in Hi.
  destruct (inv_tasks _ Hi _ _ Ht) as [c Hc]. pose proof (inv_channels _ Hi _ _ Hc) as Hok.
  unfold stray, channel_ok in *. rewrite Hc. split.
  - intros Hw. unfold running, turn, stop. destruct (on_sender_fields (λ c, w_drop (w_send true c)) s) as (_ & Hts & _ & Hcs).
    simpl. rewrite Hts, Ht, Hr, Hcs, Hc.
    assert (∀ c', channels (stop s) !! t_ch t = Some c' → turn_outcome c' (t_rx t) false pick = Ended) as He.
    { unfold stop. simpl. intros c'. rewrite Hcs, Hc. unfold turn_outcome.
      destruct (decide (shutdown_tx s = Some (t_ch t))) as [E|E]; simpl; intros [= <-].
      - destruct (w_changed_drop (w_send true c) (t_rx t)) as [r' ->].
        rewrite w_borrow_drop, w_borrow_send. by destruct p.
      - destruct Hok as [c' ->]. destruct (w_changed_drop c' (t_rx t)) as [r' ->].
        destruct Hw as [->|Hw]; [done|]. rewrite bool_decide_eq_false_2 in Hw by done. simpl in Hw.
        apply negb_false_iff in Hw. rewrite Hw. by destruct p. }
    unfold stop in He. simpl in He. rewrite Hcs, Hc in He.
    destruct (decide _); simpl in *; rewrite (He _ eq_refl); simpl;
      rewrite ?Hts, list_lookup_insert_eq by (by eapply lookup_lt_Some); done.
  - intros Hp [E Hb]%andb_true_iff vs'. apply negb_true_iff in E, Hb. apply bool_decide_eq_false in E.
    rewrite decide_False in Hok by done. destruct Hok as [c' ->]. rewrite w_borrow_drop in Hb.
    destruct (stray_exec vs' Hp s k t c' Ht Hr (conj Hc E) Hb) as (t' & Ht' & Hr' & Ech & [Hc' _]).
    split; [unfold running; by rewrite Ht'|].
    destruct (turn_stray k false pick (exec vs' s) t' c' Hp Ht' Hr') as (_ & _ & _ & _ & Hs); [by rewrite Ech|done|by apply Hs].
Qed.

(** ** Starts that each follow a stop leave no loop behind *)

Fixpoint alternates (started : bool) (vs : list life_event) : bool :=
  match vs with
  | [] => true
  | EvStart _ :: vs => negb started && alternates true vs
  | EvStop :: vs => alternates false vs
  | EvTurn _ _ _ :: vs => alternates started vs
  end.
Definition all_told (s : life) : Prop :=
  ∀ k c, channels s !! k = Some c → shutdown_tx s ≠ Some k → w_borrow c = true.
Lemma alternates_told vs : ∀ s b, alternates b vs = true → (b = false → shutdown_tx s = None) →
  all_told s → all_told (exec vs s).
Proof.
  induction vs as [|v vs IH]; intros s b Ha Hb Ht; [done|]. simpl. destruct v as [n| |k due pick]; simpl in Ha.
  - apply andb_true_iff in Ha as [Hf Ha]. apply negb_true_iff in Hf. specialize (Hb Hf).
    apply (IH _ true Ha); [done|]. simpl. unfold start, on_sender. rewrite Hb. destruct (w_channel false) as [c0 r0].
    intros k c. simpl. intros [Hk|[Hl Hk]]%lookup_app_Some Hne.
    + apply (Ht k c Hk). by rewrite Hb.
    + apply list_lookup_singleton_Some in Hk as [Hk _]. simpl in *. destruct Hne. f_equal. lia.
  - apply (IH _ false Ha); [done|]. simpl. unfold stop. destruct (on_sender_fields (λ c, w_drop (w_send true c)) s) as (_ & _ & _ & Hc).
    intros k c. simpl. rewrite Hc. destruct (decide (shutdown_tx s = Some k)) as [E|E]; [|intros Hk _; by apply (Ht k)].
    destruct (channels s !! k); simpl; [|done]. intros [= <-] _. by rewrite w_borrow_drop, w_borrow_send.
  - apply (IH _ b Ha); simpl; destruct (turn_frame k due pick s) as (Hc & Hs & _); [by rewrite Hs|].
    intros k' c. rewrite Hc, Hs. apply Ht.
Qed.
Lemma alternating_no_stray vs t : alternates false vs = true → stray (exec vs fresh) t = false.
Proof.
  intros Ha. unfold stray. destruct (channels _ !! t_ch t) as [c|] eqn:Hc; [|done].
  destruct (decide (shutdown_tx (exec vs fresh) = Some (t_ch t))) as [E|E].
  - by rewrite (bool_decide_eq_true_2 _ E).
  - rewrite (bool_decide_eq_false_2 _ E). simpl. by rewrite (alternates_told vs fresh false Ha (λ _, eq_refl) ltac:(intros k ? ?; done) _ _ Hc E).
Qed.
End lifecycle.

(** ** The shims

    The policy of the loops a shim starts, and how many a [start] spawns.  A [start] that
    drops the receiver spawns none. *)
Record Shim := mkShim { loop_policy : policy; spawns : nat }.

Definition cache_shim : Shim := mkShim Leaves 1.
Definition proxy_shim : Shim := mkShim Leaves 1.
Definition tls_shim : Shim := mkShim Leaves 1.
Definition vault_shim : Shim := mkShim Leaves 1.
Definition backup_shim : Shim := mkShim Leaves 1.
Definition replication_shim : Shim := mkShim Leaves 1.
Definition failover_shim : Shim := mkShim Leaves 1.
Definition patroni_monitor : Shim := mkShim Leaves 1.
Definition sentinel_monitor : Shim := mkShim Leaves 1.
Definition multi_cluster_monitor : Shim := mkShim Leaves 1.
Definition scheduler_shim (has_handler has_valid_tasks : bool) : Shim :=
  mkShim Leaves (if has_handler && has_valid_tasks then 1 else 0).
Definition config_shim (watch_enabled : bool) : Shim := mkShim Leaves (if watch_enabled then 1 else 0).
Definition alerting_shim : Shim := mkShim Looks 1.
Definition queue_shim (has_handler : bool) (max_workers : Z) : Shim :=
  mkShim Worker (if has_handler then Z.to_nat max_workers else 0).

Definition archival_shim : Shim := mkShim Leaves 0.
Definition audit_shim : Shim := mkShim Leaves 0.
Definition auth_shim : Shim := mkShim Leaves 0.
Definition cassandra_shim : Shim := mkShim Leaves 0.
Definition cdc_shim : Shim := mkShim Leaves 0.
Definition chaos_shim : Shim := mkShim Leaves 0.
Definition cockroachdb_shim : Shim := mkShim Leaves 0.
Definition compliance_shim : Shim := mkShim Leaves 0.
Definition cost_shim : Shim := mkShim Leaves 0.
Definition dynamodb_shim : Shim := mkShim Leaves 0.
Definition elasticsearch_shim : Shim := mkShim Leaves 0.
Definition encryption_shim : Shim := mkShim Leaves 0.
Definition migration_shim : Shim := mkShim Leaves 0.
Definition mongodb_shim : Shim := mkShim Leaves 0.
Definition sharding_shim : Shim := mkShim Leaves 0.

(** ** The queue: its handler, its flag and its workers *)
Section queue.
Context `{WA : Watch}.

Record queue_life := mkQueueLife {
  ql_queue : QueueShim;
  ql_handler : option (Job → result string unit);
  ql_life : life
}.
#[local] Instance queue_life_settable : Settable queue_life := λ s,
  mkQueueLife (ql_queue s) (ql_handler s) (ql_life s).
Definition new_queue_life (env : environment) : queue_life := mkQueueLife (new_queue env) None fresh.
Definition set_handler (h : Job → result string unit) (s : queue_life) : queue_life := s <| ql_handler := Some h |>.
Definition queue_start (s : queue_life) : queue_life :=
  s <| ql_queue ::= start_queue |>
    <| ql_life ::= start (spawns (queue_shim (bool_decide (is_Some (ql_handler s))) (max_workers (ql_queue s)))) |>.
Definition queue_stop (s : queue_life) : queue_life :=
  s <| ql_queue ::= stop_queue |> <| ql_life ::= stop |>.

Definition running_workers (l : life) : nat := length (filter (λ t, t_running t = true) (tasks l)).

(** A queue that is started again without a stop keeps the workers of the first start,
    whatever is done with it afterwards. *)
Lemma queue_restart_keeps_workers s vs k t : let l := ql_life (queue_start s) in
  life_inv (ql_life s) → tasks l !! k = Some t → t_running t = true → shutdown_tx l = Some (t_ch t) →
  running (exec Worker vs (ql_life (queue_start (queue_start s)))) k = true.
Proof.
  intros l Hi Ht Hr Hs. set (n := spawns (queue_shim (bool_decide (is_Some (ql_handler s))) (max_workers (ql_queue s)))).
  assert (life_inv l) as Hl by (by apply start_inv).
  destruct (inv_tasks _ Hl _ _ Ht) as [c Hc]. pose proof (inv_channels _ Hl _ _ Hc) as Hok.
  unfold channel_ok in Hok. rewrite decide_True in Hok by done.
  change (ql_life (queue_start (queue_start s))) with (start n l).
  destruct (on_sender_fields w_drop l) as (_ & Hts & Hlen & Hcs).
  assert (tasks (start n l) !! k = Some t) as Ht2.
  { unfold start. destruct (w_channel false). simpl. rewrite Hts. by apply lookup_app_l_Some. }
  assert (detached (start n l) (t_ch t) (w_drop c)) as Hd.
  { unfold start. destruct (w_channel false). split; simpl.
    - apply lookup_app_l_Some. rewrite Hcs, decide_True by done. by rewrite Hc.
    - intros [= E]. apply lookup_lt_Some in Hc. lia. }
  destruct (stray_exec Worker vs ltac:(done) _ k t c Ht2 Hr Hd Hok) as (t' & Ht' & Hr' & _).
  unfold running. by rewrite Ht'.
Qed.
End queue.

(** ** An instance, and runs *)

(** The value, the number of values sent, and whether the sender is there; the receiver
    has the number it saw last. *)
#[export, program] Instance demo_watch : Watch := {
  wch := bool * nat * bool;
  wrx := nat;
  w_channel v := ((v, 0, true), 0)%nat;
  w_send v c := (v, S c.1.2, c.2);
  w_drop c := (c.1, false);
  w_borrow c := c.1.1;
  w_changed c r := if bool_decide (c.1.2 = r) then if c.2 then None else Some r else Some c.1.2
}.
Next Obligation. done. Qed.
Next Obligation. done. Qed.
Next Obligation. done. Qed.
Next Obligation. done. Qed.
Next Obligation. intros c r. simpl. by case_bool_decide. Qed.

Definition two_starts (s : Shim) : list life_event := [EvStart (spawns s); EvStart (spawns s); EvStop].
Definition idle_turns (s : Shim) : list life_event := (λ k, EvTurn k false false) <$> seq 0 (2 * spawns s).
Definition still_running (s : Shim) : nat := running_workers (exec (loop_policy s) (two_starts s ++ idle_turns s) fresh).
Example restarted_cache : still_running cache_shim = 0%nat.
Proof. reflexivity. Qed.
Example restarted_alerting : still_running alerting_shim = 1%nat.
Proof. reflexivity. Qed.
Example restarted_queue : still_running (queue_shim true 4) = 4%nat ∧ still_running (queue_shim false 4) = 0%nat.
Proof. by split. Qed.

Lemma stop_reaches_witness :
  let s := exec Worker [EvStart 1; EvStart 1] fresh in
  running (turn Worker 1 false false (stop s)) 1 = false ∧
  running (exec Worker [EvStop; EvTurn 0 false true] s) 0 = true.
Proof.
  split.
  - apply (stop_reaches Worker [EvStart 1; EvStart 1] 1 (@mkTask demo_watch 1%nat 0%nat true) false); [reflexivity|reflexivity|by right].
  - refine (proj1 (proj2 (stop_reaches Worker [EvStart 1; EvStart 1] 0 (@mkTask demo_watch 0%nat 0%nat true) false _ _) _ _ [EvStop; EvTurn 0 false true])); done.
Defined.
