(* ===== verification/Testing.v ===== *)
(** * Running the repository's own tests on the model

    The files [Test*.v] translate the unit and integration tests of [src/crates]: a test
    [test_x] of the code is a boolean [test_x] here, the assertions it makes about the
    definitions of the library, and the theorem at the end of each Module evaluates them
    all.  A test whose point is a foreign part (serialization, sockets, threads, the
    types of getters) has no counterpart.  What a test leaves to chance or to the
    machine - the clock, random numbers, the order of a hash map, whether a port answers -
    is an argument of its boolean, and the suites fix it or run through several values. *)

From S2P Require Import Prelude.

Declare Scope test_scope.
Delimit Scope test_scope with test.

Definition assert_eq {A} `{EqDecision A} (x y : A) : bool := bool_decide (x = y).
Notation "x == y" := (assert_eq x y) (at level 70) : test_scope.
Notation "x != y" := (negb (assert_eq x y)) (at level 70) : test_scope.
Definition all (l : list bool) : bool := forallb id l.
Definition is_some {A} (o : option A) : bool := match o with Some _ => true | None => false end.
Definition is_none {A} (o : option A) : bool := negb (is_some o).
Definition is_err {E A} (r : result E A) : bool := negb (is_ok r).
(** [assert!(m.iter().any(|x| x.name == n))], and the value found *)
Definition metric {V} (l : list (string * V)) (n : string) : option V := (λ x, x.2.2) <$> list_find (λ x, x.1 = n) l.
Definition has_metric {V} (l : list (string * V)) (n : string) : bool := is_some (metric l n).
(** [temp_env::with_vars] *)
Definition with_vars (l : list (string * string)) : environment := list_to_map l.

#[export] Instance spec_float_eq_dec : EqDecision f64.
Proof. solve_decision. Defined.
#[export] Instance result_eq_dec {E A} `{EqDecision E} `{EqDecision A} : EqDecision (result E A).
Proof. solve_decision. Defined.
Definition f64_of (s : string) : f64 := default (f64_of_Z 0) (parse_f64 s).
(** A byte string literal *)
Definition b (s : string) : list Byte.byte := String.list_byte_of_string s.
#[export] Instance byte_eq_dec : EqDecision Byte.byte := Byte.byte_eq_dec.
(** [(x - y).abs() < e] *)
Definition near (x y e : f64) : bool := f64_lt (f64_sub x y) e && f64_lt (f64_sub y x) e.
(** In the place of SHA-256 and HMAC-SHA256: a polynomial of the bytes modulo [2^64], as
    32 bytes *)
Fixpoint fold_bytes (acc : Z) (s : string) : Z :=
  match s with EmptyString => acc | String c r => fold_bytes ((acc * 257 + Z.of_nat (Ascii.nat_of_ascii c) + 1) mod 2 ^ 64) r end.
Fixpoint bytes_of (n : nat) (z : Z) : string :=
  match n with O => "" | S n => String (Ascii.ascii_of_nat (Z.to_nat (z mod 256))) (bytes_of n (z / 256)) end.
Definition toy_hash (key data : string) : string := bytes_of 32 (fold_bytes (fold_bytes 7 key) data).
Definition ends_with (suffix s : string) : bool :=
  bool_decide (String.substring (String.length s - String.length suffix) (String.length suffix) s = suffix).
