(* ===== verification/TestMain.v ===== *)
(** * The tests of [evergreen-shim/src/main.rs] and [integration-tests/src/graceful_degradation.rs]

    The second file tests a copy of the start of the capabilities ([boot] in [Main.v])
    that it carries itself; [simulation_agrees] shows that the copy follows the original.
    The tests of argument parsing have no counterpart. *)

From S2P Require Import Prelude Text Floats Net Config Bus Shutdown Errors Health Metrics Main Testing.
Open Scope test_scope.

(** ** [graceful_degradation.rs] *)

(** Its flag [started] is set by [start] and never read. *)
Record DummyCapability := mkDummy { name : string; should_fail_init : bool; should_fail_start : bool }.
#[export] Instance DummyCapability_settable : Settable DummyCapability := λ d,
  mkDummy (name d) (should_fail_init d) (should_fail_start d).
Definition new_dummy (n : string) : DummyCapability := mkDummy n false false.
Definition fail_init (d : DummyCapability) : DummyCapability := d <| should_fail_init := true |>.
Definition fail_start (d : DummyCapability) : DummyCapability := d <| should_fail_start := true |>.
Definition deliberately (d : DummyCapability) (what : string) : string :=
  error_text (EConfig (name d +:+ " deliberately failed " +:+ what)).
Definition dummy (d : DummyCapability) : Capability :=
  {| Main.cap_name := name d;
     cap_init _ := if should_fail_init d then Err (deliberately d "init") else Ok ();
     cap_start := if should_fail_start d then Err (deliberately d "start") else Ok ();
     cap_stop := Ok () |}.
(** Its [start] is [unreachable!]. *)
Definition AlwaysFailInit : Capability :=
  {| Main.cap_name := "always_fail_init"; cap_init _ := Err (error_text (EConfig "unavoidable failure"));
     cap_start := Err "unreachable"; cap_stop := Ok () |}.

(** The loop, with the outcomes and the successful names so far *)
Definition outcome : Type := string * bool * option string.
Fixpoint simulation (critical : list string) (caps : list Capability) (outcomes : list outcome) (ok : list string)
    : list outcome * bool :=
  match caps with
  | [] => (outcomes, forallb (λ c, bool_decide (c ∈ ok)) critical)
  | cap :: caps =>
      let n := Main.cap_name cap in
      let failed what e :=
        let outcomes := outcomes ++ [(n, false, Some (what +:+ ": " +:+ e))] in
        if bool_decide (n ∈ critical) then (outcomes, false) else simulation critical caps outcomes ok in
      match cap_init cap default_config with
      | Err e => failed "init" e
      | Ok _ => match cap_start cap with
                | Err e => failed "start" e
                | Ok _ => simulation critical caps (outcomes ++ [(n, true, None)]) (ok ++ [n])
                end
      end
  end.
Definition run_degradation_simulation (caps : list Capability) (critical : list string) : list outcome * bool :=
  simulation critical caps [] [].

Definition find_outcome (l : list outcome) (n : string) : option outcome := snd <$> list_find (λ o, o.1.1 = n) l.
Definition outcome_started (l : list outcome) (n : string) : bool := match find_outcome l n with Some o => o.1.2 | None => false end.
(** It is there, did not start and says why. *)
Definition outcome_failed (l : list outcome) (n : string) : bool :=
  match find_outcome l n with Some (_, false, Some _) => true | _ => false end.
Definition ok_dummy (n : string) : Capability := dummy (new_dummy n).
Definition bad_init (n : string) : Capability := dummy (fail_init (new_dummy n)).
Definition bad_start (n : string) : Capability := dummy (fail_start (new_dummy n)).

Definition test_all_succeed : bool :=
  let '(o, healthy) := run_degradation_simulation [ok_dummy "health"; ok_dummy "cache"] ["health"] in
  all [healthy; length o == 2%nat; forallb (λ x, x.1.2) o].
Definition test_non_critical_failure_does_not_block : bool :=
  let '(o, healthy) := run_degradation_simulation [ok_dummy "health"; ok_dummy "migration"; bad_init "cache"; bad_start "cost"]
                         ["health"; "migration"] in
  all [healthy; outcome_failed o "cache"; outcome_failed o "cost"; outcome_started o "health"].
Definition test_critical_init_failure_blocks : bool :=
  let '(o, healthy) := run_degradation_simulation [bad_init "health"; ok_dummy "cache"] ["health"] in
  all [negb healthy; outcome_failed o "health"; is_none (find_outcome o "cache")].
Definition test_critical_start_failure_blocks : bool :=
  let '(o, healthy) := run_degradation_simulation [ok_dummy "health"; bad_start "migration"; ok_dummy "cache"] ["health"; "migration"] in
  all [negb healthy; outcome_failed o "migration"; outcome_started o "health"].
Definition test_all_non_critical_fail_still_healthy : bool :=
  let '(o, healthy) := run_degradation_simulation
    [ok_dummy "health"; ok_dummy "migration"; bad_init "chaos"; bad_start "cost"; bad_init "cache"] ["health"; "migration"] in
  let names b := (λ x, x.1.1) <$> List.filter (λ x, Bool.eqb x.1.2 b) o in
  all [healthy; bool_decide ("health" ∈ names true); bool_decide ("migration" ∈ names true); bool_decide ("chaos" ∈ names false);
       bool_decide ("cost" ∈ names false); bool_decide ("cache" ∈ names false)].
Definition test_critical_failure_returns_false : bool :=
  let '(o, healthy) := run_degradation_simulation [AlwaysFailInit] ["always_fail_init"] in
  all [negb healthy; length o == 1%nat; outcome_failed o "always_fail_init"].
Definition test_mixed_critical_and_non_critical_failures : bool :=
  let '(o, healthy) := run_degradation_simulation [ok_dummy "health"; bad_init "cache"; bad_start "chaos"] ["health"; "migration"] in
  all [negb healthy; outcome_started o "health"; outcome_failed o "cache"; outcome_failed o "chaos"].
Definition test_health_metric_value_reflects_critical_health : bool :=
  all [(run_degradation_simulation [ok_dummy "health"; bad_init "chaos"] ["health"]).2;
       negb (run_degradation_simulation [bad_start "health"; ok_dummy "chaos"] ["health"]).2].
Definition test_stops_only_successful_capabilities : bool :=
  let caps := [ok_dummy "health"; bad_init "cache"; ok_dummy "chaos"] in
  let '(o, _) := run_degradation_simulation caps ["health"] in
  let started := List.filter (λ c, outcome_started o (Main.cap_name c)) caps in
  all [length started == 2%nat; forallb (λ c, is_ok (cap_stop c)) started].

(** The copy in the tests, and the code: the outcomes are those of [boot], up to the
    texts, and what it calls healthy is that no critical capability failed and that
    [all_critical_healthy] holds. *)
Definition brief (o : CapabilityOutcome) : string * bool := (out_name o, out_started o).
Definition names_of (caps : list Capability) (b : Boot) : list string :=
  omap (λ i, Main.cap_name <$> caps !! i) (successful b).
Lemma simulation_boot caps : ∀ pre b outs,
  outs.*1 = brief <$> outcomes b →
  let '(r, b') := boot default_config (length pre) caps b in
  let '(outs', healthy) := simulation CRITICAL_CAPABILITIES caps outs (names_of (pre ++ caps) b) in
  outs'.*1 = brief <$> outcomes b' ∧ healthy = match r with None => all_critical_healthy (pre ++ caps) b' | Some _ => false end.
Proof.
  induction caps as [|c caps IH]; intros pre b outs Ho; simpl; [done|].
  unfold boot_one, failed_to, is_critical.
  assert (∀ b1 outs1, outs1.*1 = brief <$> outcomes b1 →
    let '(r, b') := boot default_config (S (length pre)) caps b1 in
    let '(outs', healthy) := simulation CRITICAL_CAPABILITIES caps outs1 (names_of (pre ++ c :: caps) b1) in
    outs'.*1 = brief <$> outcomes b' ∧ healthy = match r with None => all_critical_healthy (pre ++ c :: caps) b' | Some _ => false end) as IH'.
  { intros b1 outs1 H1. specialize (IH (pre ++ [c]) b1 outs1 H1). by rewrite length_app, Nat.add_1_r, <-app_assoc in IH. }
  destruct (cap_init c default_config) as [[]|e]; [destruct (cap_start c) as [[]|e]|]; simpl.
  - assert (names_of (pre ++ c :: caps) b ++ [Main.cap_name c]
            = names_of (pre ++ c :: caps) (mkBoot (outcomes b ++ [mkOutcome (Main.cap_name c) true None])
                (successful b ++ [length pre]) ((events b ++ [EInit (Main.cap_name c)]) ++ [EStart (Main.cap_name c)]))) as ->.
    { unfold names_of. simpl. rewrite omap_app. csimpl. by rewrite list_lookup_middle. }
    apply IH'. cbn. by rewrite !fmap_app, Ho.
  - case_bool_decide; [split; [cbn; by rewrite !fmap_app, Ho|done]|].
    match goal with |- context [boot _ _ _ ?b1] => apply (IH' b1) end. cbn. by rewrite !fmap_app, Ho.
  - case_bool_decide; [split; [cbn; by rewrite !fmap_app, Ho|done]|].
    match goal with |- context [boot _ _ _ ?b1] => apply (IH' b1) end. cbn. by rewrite !fmap_app, Ho.
Qed.
Theorem simulation_agrees caps :
  let '(r, b) := boot default_config 0 caps (mkBoot [] [] []) in
  let '(outs, healthy) := run_degradation_simulation caps CRITICAL_CAPABILITIES in
  outs.*1 = brief <$> outcomes b ∧ healthy = match r with None => all_critical_healthy caps b | Some _ => false end.
Proof. exact (simulation_boot caps [] (mkBoot [] [] []) [] eq_refl). Qed.

(** ** [main.rs] *)

#[local] Instance signal_channel : Broadcast ShimSignal := log_broadcast ShimSignal.

Definition health_init (c : Config) : result string () * HealthShim :=
  Health.init (λ _, true) (λ _, None) (λ _, None) (with_vars []) c new_health_shim.
Definition critical_capabilities_list_contains_expected : bool := all [is_critical "health"; is_critical "migration"].
Definition non_critical_capabilities_are_not_in_critical_list : bool :=
  forallb (λ n, negb (is_critical n)) ["chaos"; "cost"; "cache"; "alerting"; "audit"; "vault"].
Definition health_shim_lifecycle_init_start_stop : bool :=
  let '(r, s) := health_init default_config in all [is_ok r; is_some (Health.start 0 s).1].
Definition health_shim_init_sets_listen_address : bool :=
  let '(r, s) := health_init (default_config <| health ::= λ h, h <| listen := "127.0.0.1:19101" |> |>) in
  all [is_ok r; shim_listen s == "127.0.0.1:19101"; is_some (Health.start 0 s).1].
Definition critical_capabilities_count_matches_expected : bool :=
  all [length CRITICAL_CAPABILITIES == 2%nat; is_critical "health"; is_critical "migration"].
Definition capability_outcome_struct_fields : bool :=
  let o := mkOutcome "test-cap" true None in
  let failed := mkOutcome "bad-cap" false (Some "init failed") in
  all [out_name o == "test-cap"; out_started o; is_none (out_error o); negb (out_started failed); is_some (out_error failed)].
(** The proxy is a feature without a capability. *)
Definition all_known_feature_names_are_distinct : bool :=
  let features :=
    ["health"; "vault"; "backup"; "migration"; "audit"; "proxy"; "tls"; "config"; "failover"; "replication"; "cache"; "cdc"; "sharding";
     "archival"; "auth"; "encryption"; "compliance"; "scheduler"; "queue"; "alerting"; "chaos"; "cost"; "mongodb"; "cockroachdb";
     "dynamodb"; "elasticsearch"; "cassandra"] in
  all [size (list_to_set (C := gset string) features) == 27%nat; forallb (λ f, bool_decide (f ∈ features)) FEATURES].
Definition signal_handler_initial_state_is_not_shutdown : bool := negb (Main.is_shutdown new_signals).
Definition signal_handler_subscribe_returns_receiver : bool :=
  is_none (recv (sig_sender new_signals) (subscribe_signals new_signals)).
Definition config_default_shutdown_timeout : bool := 0 <? shutdown_timeout_secs (process default_config).
Definition graceful_shutdown_strategy_is_variant : bool := strategy_display GenericGraceful == "generic".
Definition shim_metrics_collector_new_and_export : bool :=
  let m := record_error "timeout" (set_healthy true new_metrics <| events_published ::= Z.add 10 |>) in
  let value n := family_samples <$> (snd <$> list_find (λ f, family_name f = n) (gather_base m)) in
  match value "shim_events_published_total", value "shim_health_status" with
  | Some (Single p), Some (Single h) => all [p == f64_of_Z 10; h == f64_of_Z 1; is_some (value "shim_errors_total")]
  | _, _ => false
  end.
Definition shim_metrics_all_standard_metrics_present : bool :=
  let m := record_error "test" new_metrics <| events_by_source ::= inc_label "test" |> <| events_handled ::= inc_label "test" |> in
  forallb (λ n, bool_decide (n ∈ family_name <$> gather_base m))
    ["shim_events_published_total"; "shim_events_dropped_total"; "shim_bus_subscribers"; "shim_health_status"; "shim_health_checks_total";
     "shim_uptime_seconds"; "shim_errors_total"; "shim_operation_duration_seconds"; "shim_events_by_source_total"; "shim_events_handled_total"].
Definition config_validate_default_is_clean : bool :=
  (field <$> validate (λ _, true) (λ _, None) (λ _, None) default_config) == [].
Definition merged (l : list (string * string)) (c : Config) : Config := let env := with_vars l in Config.merge env (from_env env) c.
Definition config_merge_env_overrides : bool :=
  let q := resource_quota (merged [("SHIM_MAX_MEMORY_BYTES", "8192"); ("SHIM_MAX_CPU_PERCENT", "75.0")] default_config) in
  all [quota_memory_bytes q == Some 8192; quota_cpu_percent q == Some (f64_of_Z 75)].
Definition config_merge_preserves_existing : bool :=
  listen (health (merged [] (default_config <| health ::= λ h, h <| listen := "127.0.0.1:9999" |> |>))) == "127.0.0.1:9999".

Definition main_suite : list bool :=
  [test_all_succeed; test_non_critical_failure_does_not_block; test_critical_init_failure_blocks;
   test_critical_start_failure_blocks; test_all_non_critical_fail_still_healthy; test_critical_failure_returns_false;
   test_mixed_critical_and_non_critical_failures; test_health_metric_value_reflects_critical_health;
   test_stops_only_successful_capabilities; critical_capabilities_list_contains_expected;
   non_critical_capabilities_are_not_in_critical_list; health_shim_lifecycle_init_start_stop;
   health_shim_init_sets_listen_address; critical_capabilities_count_matches_expected; capability_outcome_struct_fields;
   all_known_feature_names_are_distinct; signal_handler_initial_state_is_not_shutdown; signal_handler_subscribe_returns_receiver;
   config_default_shutdown_timeout; graceful_shutdown_strategy_is_variant; shim_metrics_collector_new_and_export;
   shim_metrics_all_standard_metrics_present; config_validate_default_is_clean; config_merge_env_overrides;
   config_merge_preserves_existing].
Example main_tests_pass : all main_suite = true.
Proof. vm_compute. reflexivity. Qed.
