(* ===== verification/TestFailover.v ===== *)
(** * The tests of [failover-shim], [shim-core/src/shutdown.rs] and [integration-tests/src/failover.rs]

    One Module per shim or file; the conventions are those of [Testing.v]. *)

From S2P Require Import Prelude Testing.
From S2P Require Net Events Failover FailoverIo MultiCluster Shutdown Text Commands Config Process Health.

(** ** The tests of [failover-shim/src/lib.rs], on [Failover.v], [FailoverIo.v] and [MultiCluster.v] *)

Module FailoverTests.
Import Prelude Net Events Failover FailoverIo MultiCluster Testing.
Open Scope test_scope.

#[export] Instance FailoverConnector_eq_dec : EqDecision FailoverConnector.
Proof. solve_decision. Defined.
#[export] Instance Strategy_eq_dec : EqDecision Strategy.
Proof. solve_decision. Defined.
#[local] Instance test_external : External := demo_external.

(** *** The shim *)

Definition test_new_defaults : bool :=
  let shim := new_failover (with_vars []) in
  all [check_interval_secs shim == 5; failure_threshold shim == 3; db_type shim == "postgres"; connector shim == Tcp;
       state (shared shim) == Healthy; failover_count (shared shim) == 0].
Definition test_metrics_reads_live_state : bool :=
  let shim := new_failover (with_vars []) in
  let shim' := shim <| shared ::= λ s, set_state FailedOver (s <| consecutive_failures := 5 |> <| failover_count := 2 |>) |> in
  all [(snd <$> failover_metrics shim) == [f64_of_Z 0; f64_of_Z 0; f64_of_Z 0];
       (fst <$> head (failover_metrics shim)) == Some "failover_state";
       (snd <$> failover_metrics shim') == [f64_of_Z 3; f64_of_Z 2; f64_of_Z 5]].
Definition all_states : list FailoverState := [Healthy; Suspect; FailingOver; FailedOver; Recovering; Recovered].
Definition test_state_roundtrip : bool := all ((λ st, state (set_state st new_shared) == st) <$> all_states).
Definition test_parse_replication_lag_valid : bool :=
  all [parse_replication_lag "15.5" == Some (f64_of "15.5"); parse_replication_lag "0" == Some (f64_of_Z 0);
       parse_replication_lag "120.0" == Some (f64_of_Z 120)].
Definition test_parse_replication_lag_invalid : bool :=
  all [is_none (parse_replication_lag ""); is_none (parse_replication_lag "NULL"); is_none (parse_replication_lag "not_a_number")].
Definition test_patroni_config_from_env : bool :=
  let shim := new_failover (with_vars [("FAILOVER_CONNECTOR", "patroni"); ("FAILOVER_DB_HOST", "pg-primary.internal");
    ("FAILOVER_DB_PORT", "5433"); ("FAILOVER_DB_USER", "admin"); ("FAILOVER_DB_PASSWORD", "secret123");
    ("FAILOVER_DB_NAME", "mydb"); ("FAILOVER_LAG_THRESHOLD_SECS", "15.5"); ("FAILOVER_CHECK_INTERVAL_SECS", "20")]) in
  all [connector shim == Patroni; db_host shim == "pg-primary.internal"; db_port shim == "5433"; db_user shim == "admin";
       db_password shim == "secret123"; db_name shim == "mydb"; lag_threshold_secs shim == f64_of "15.5"; check_interval_secs shim == 20].
Definition test_redis_sentinel_config_from_env : bool :=
  let shim := new_failover (with_vars [("FAILOVER_CONNECTOR", "redis-sentinel");
    ("REDIS_SENTINEL_URL", "redis://sentinel.prod:26379"); ("REDIS_SENTINEL_MASTER", "prod-master")]) in
  all [connector shim == RedisSentinel; redis_sentinel_url shim == "redis://sentinel.prod:26379";
       redis_sentinel_master shim == "prod-master"].
Definition test_redis_sentinel_defaults : bool :=
  let shim := new_failover (with_vars []) in
  all [redis_sentinel_url shim == "redis://localhost:26379"; redis_sentinel_master shim == "mymaster"].
Definition test_patroni_defaults : bool :=
  let shim := new_failover (with_vars []) in
  all [db_host shim == "127.0.0.1"; db_port shim == "5432"; db_user shim == "postgres"; db_password shim == "";
       db_name shim == "postgres"; lag_threshold_secs shim == f64_of_Z 30].
Definition test_failover_shim_new_env_check_interval_legacy : bool :=
  check_interval_secs (new_failover (with_vars [("FAILOVER_CHECK_INTERVAL", "15")])) == 15.
Definition test_failover_shim_new_env_check_interval_secs_priority : bool :=
  check_interval_secs (new_failover (with_vars [("FAILOVER_CHECK_INTERVAL_SECS", "25"); ("FAILOVER_CHECK_INTERVAL", "15")])) == 25.
Definition test_failover_shim_new_env_custom_primary_replica : bool :=
  let shim := new_failover (with_vars [("FAILOVER_PRIMARY", "10.0.0.1:5432"); ("FAILOVER_REPLICA", "10.0.0.2:5432");
    ("FAILOVER_FAILURE_THRESHOLD", "5"); ("FAILOVER_WEBHOOK", "https://hooks.slack.com/test"); ("FAILOVER_DB_TYPE", "mysql")]) in
  all [primary shim == "10.0.0.1:5432"; replica shim == "10.0.0.2:5432"; failure_threshold shim == 5;
       webhook shim == Some "https://hooks.slack.com/test"; db_type shim == "mysql"].
Definition test_failover_shim_new_defaults_without_env : bool :=
  let shim := new_failover (with_vars []) in
  all [primary shim == "127.0.0.1:5432"; replica shim == "127.0.0.1:5433"; failure_threshold shim == 3; is_none (webhook shim);
       db_type shim == "postgres"; connector shim == Tcp].
Definition test_failover_shim_default_trait : bool :=
  let shim := new_failover (with_vars []) in all [check_interval_secs shim == 5; failure_threshold shim == 3].
Definition test_failover_shim_metrics_count : bool :=
  (fst <$> failover_metrics (new_failover (with_vars []))) ==
  ["failover_state"; "failover_events_total"; "failover_consecutive_failures"].
Definition test_parse_replication_lag_edge_cases : bool :=
  all [is_none (parse_replication_lag ""); is_none (parse_replication_lag "not_a_number");
       parse_replication_lag "0.0" == Some (f64_of_Z 0); parse_replication_lag "999999.99" == Some (f64_of "999999.99")].
Definition test_parse_replication_lag_negative : bool := parse_replication_lag "-1.0" == Some (f64_of_Z (-1)).
Definition test_parse_replication_lag_whitespace : bool := is_none (parse_replication_lag "  ").
Definition test_parse_replication_lag_null_string : bool := is_none (parse_replication_lag "NULL").
Definition test_shared_state_invalid_atomic_value : bool := state (new_shared <| state_code := 99 |>) == Healthy.
Definition test_metrics_all_failover_states : bool :=
  let shim := new_failover (with_vars []) in
  (λ st, snd <$> head (failover_metrics (shim <| shared ::= set_state st |>))) <$> all_states ==
  (λ i, Some (f64_of_Z (Z.of_nat i))) <$> seq 0 6.
(** [reachable]: whether the port that was bound answers *)
Definition test_check_database_reachable (reachable : SocketAddr → bool) : bool := check_database reachable "127.0.0.1:4242".
Definition test_check_database_unreachable (reachable : SocketAddr → bool) : bool := negb (check_database reachable "127.0.0.1:1").
Definition test_check_database_invalid_addr (reachable : SocketAddr → bool) : bool := negb (check_database reachable "not-an-address").

(** *** The stand-alone monitors *)

Definition test_patroni_monitor_from_env : bool :=
  let monitor := patroni_from_env (with_vars [("FAILOVER_DB_HOST", "pg-cluster.internal"); ("FAILOVER_DB_PORT", "5433");
    ("FAILOVER_DB_USER", "admin"); ("FAILOVER_DB_PASSWORD", "secret"); ("FAILOVER_DB_NAME", "mydb");
    ("FAILOVER_CHECK_INTERVAL_SECS", "15"); ("FAILOVER_LAG_THRESHOLD_SECS", "20.5")]) in
  all [pm_host monitor == "pg-cluster.internal"; pm_port monitor == "5433"; pm_user monitor == "admin"; pm_password monitor == "secret";
       pm_name monitor == "mydb"; pm_interval_secs monitor == 15; pm_lag_threshold monitor == f64_of "20.5"].
Definition test_patroni_monitor_explicit : bool :=
  let monitor := new_patroni_monitor "10.0.0.1" "5433" "admin" "pass" "testdb" 15 (f64_of "20.5") in
  all [pm_host monitor == "10.0.0.1"; pm_port monitor == "5433"; pm_user monitor == "admin"; pm_password monitor == "pass";
       pm_name monitor == "testdb"; pm_interval_secs monitor == 15; pm_lag_threshold monitor == f64_of "20.5"].
Definition test_patroni_monitor_defaults : bool :=
  let monitor := patroni_from_env (with_vars []) in
  all [pm_host monitor == "localhost"; pm_port monitor == "5432"; pm_user monitor == "postgres"; pm_password monitor == "";
       pm_name monitor == "postgres"; pm_interval_secs monitor == 10; pm_lag_threshold monitor == f64_of_Z 30].
Definition test_redis_sentinel_monitor_from_env : bool :=
  let monitor := sentinel_from_env (with_vars [("REDIS_SENTINEL_URL", "redis://sentinel.prod:26379");
    ("REDIS_SENTINEL_MASTER", "prod-master"); ("FAILOVER_CHECK_INTERVAL_SECS", "7")]) in
  all [sm_url monitor == "redis://sentinel.prod:26379"; sm_master monitor == "prod-master"; sm_interval_secs monitor == 7].
Definition test_redis_sentinel_monitor_explicit : bool :=
  let monitor := new_sentinel_monitor "redis://sentinel.prod:26379" "prod-master" 7 in
  all [sm_url monitor == "redis://sentinel.prod:26379"; sm_master monitor == "prod-master"; sm_interval_secs monitor == 7].
Definition test_redis_sentinel_monitor_defaults : bool :=
  let monitor := sentinel_from_env (with_vars []) in
  all [sm_url monitor == "redis://localhost:26379"; sm_master monitor == "mymaster"; sm_interval_secs monitor == 5].
Definition test_patroni_monitor_from_env_all_fields : bool :=
  let monitor := patroni_from_env (with_vars [("FAILOVER_DB_HOST", "pg-primary.internal"); ("FAILOVER_DB_PORT", "5433");
    ("FAILOVER_DB_USER", "monitor"); ("FAILOVER_DB_PASSWORD", "secret"); ("FAILOVER_DB_NAME", "monitoring");
    ("FAILOVER_CHECK_INTERVAL_SECS", "15"); ("FAILOVER_LAG_THRESHOLD_SECS", "60")]) in
  all [pm_host monitor == "pg-primary.internal"; pm_port monitor == "5433"; pm_user monitor == "monitor"; pm_password monitor == "secret";
       pm_name monitor == "monitoring"; pm_interval_secs monitor == 15; pm_lag_threshold monitor == f64_of_Z 60].
Definition test_redis_sentinel_monitor_from_env_all_fields : bool :=
  let monitor := sentinel_from_env (with_vars [("REDIS_SENTINEL_URL", "redis://sentinel.local:26379");
    ("REDIS_SENTINEL_MASTER", "prod-master"); ("FAILOVER_CHECK_INTERVAL_SECS", "3")]) in
  all [sm_url monitor == "redis://sentinel.local:26379"; sm_master monitor == "prod-master"; sm_interval_secs monitor == 3].
Definition test_redis_sentinel_monitor_new_explicit : bool :=
  let monitor := new_sentinel_monitor "redis://sentinel.prod:26379" "prod-master" 3 in
  all [sm_url monitor == "redis://sentinel.prod:26379"; sm_master monitor == "prod-master"; sm_interval_secs monitor == 3].
Definition test_redis_sentinel_monitor_from_env_defaults : bool := test_redis_sentinel_monitor_defaults.
Definition test_redis_sentinel_monitor_from_env_configured : bool := test_redis_sentinel_monitor_from_env.
Definition test_patroni_monitor_new_explicit : bool :=
  let monitor := new_patroni_monitor "pg-host.internal" "5433" "admin" "secret" "mydb" 15 (f64_of_Z 60) in
  all [pm_host monitor == "pg-host.internal"; pm_port monitor == "5433"; pm_user monitor == "admin"; pm_password monitor == "secret";
       pm_name monitor == "mydb"; pm_interval_secs monitor == 15; pm_lag_threshold monitor == f64_of_Z 60].
Definition test_patroni_monitor_from_env_defaults : bool := test_patroni_monitor_defaults.

(** *** Several clusters

    [rng] is the random number of the weighted strategy. *)
Definition test_cluster_status_values : bool :=
  (status_as_f64 <$> [ClHealthy; Degraded; ClFailed; Unknown]) == (f64_of_Z <$> [0; 1; 2; 3]).
Definition test_cluster_status_as_f64_all_variants : bool := test_cluster_status_values.
Definition test_multi_cluster_failover_strategy_display : bool :=
  (strategy_display <$> [Sequential; LatencyBased; WeightedRandom]) == ["sequential"; "latency"; "weighted"].
Definition test_multicluster_strategy_display : bool := test_multi_cluster_failover_strategy_display.
Definition test_cluster_health_new : bool :=
  let health := new_cluster "us-east" ["10.0.0.1:5432"] 0 in
  all [name health == "us-east"; endpoints health == ["10.0.0.1:5432"]; status health == Unknown;
       is_none (replication_lag_ms health); is_none (latency_ms health); cl_failures health == 0].
Definition test_cluster_health_creation : bool :=
  let health := new_cluster "c1" ["10.0.0.1:5432"] 0 in
  all [name health == "c1"; endpoints health == ["10.0.0.1:5432"]; status health == Unknown].
Definition test_parse_clusters_empty : bool := size (parse_clusters "" 0) == 0%nat.
Definition endpoints_of (n : string) (cs : gmap string ClusterHealth) : list string := from_option endpoints [] (cs !! n).
Definition test_parse_clusters_single : bool :=
  let clusters := parse_clusters "us-east:10.0.0.1:5432" 0 in
  all [size clusters == 1%nat; endpoints_of "us-east" clusters == ["10.0.0.1:5432"]].
Definition test_parse_clusters_multiple : bool :=
  let clusters := parse_clusters "us-east:10.0.0.1:5432,eu-west:10.0.1.1:5432" 0 in
  all [size clusters == 2%nat; is_some (clusters !! "us-east"); is_some (clusters !! "eu-west")].
Definition test_parse_clusters_with_multiple_endpoints : bool :=
  let clusters := parse_clusters "us-east:10.0.0.1:5432,us-east:10.0.0.2:5432,eu-west:10.0.1.1:5432" 0 in
  all [size clusters == 2%nat; length (endpoints_of "us-east" clusters) == 2%nat; length (endpoints_of "eu-west" clusters) == 1%nat].
Definition test_parse_clusters_malformed_ignored : bool := size (parse_clusters "bad-format,also:bad" 0) == 0%nat.
Definition test_multi_cluster_parse_clusters_empty : bool := size (parse_clusters "" 0) == 0%nat.
Definition test_multi_cluster_parse_clusters_trailing_comma : bool := size (parse_clusters "us-east:10.0.0.1:5432," 0) == 1%nat.
Definition test_multi_cluster_parse_clusters_with_extra_parts : bool :=
  let clusters := parse_clusters "us-east:10.0.0.1:5432:extra" 0 in
  all [size clusters == 1%nat; endpoints_of "us-east" clusters == ["10.0.0.1:5432"]].
Section clusters.
Context {HO : HashOrder} (rng : Z).

Definition test_multi_cluster_monitor_from_env_defaults : bool :=
  let monitor := MultiCluster.from_env (with_vars []) 0 in
  all [size (clusters monitor) == 0%nat; primary_cluster monitor == "primary"; failover_strategy monitor == Sequential;
       cross_cluster_check_interval_secs monitor == 10; mc_threshold monitor == 3; is_none (mc_webhook monitor)].
Definition test_multi_cluster_monitor_from_env_configured : bool :=
  let monitor := MultiCluster.from_env (with_vars [("FAILOVER_CLUSTERS", "us-east:10.0.0.1:5432,eu-west:10.0.1.1:5432");
    ("FAILOVER_PRIMARY", "us-east"); ("FAILOVER_STRATEGY", "latency"); ("FAILOVER_CROSS_CHECK_SECS", "30");
    ("FAILOVER_FAILURE_THRESHOLD", "5"); ("FAILOVER_WEBHOOK", "https://hooks.slack.com/test")]) 0 in
  all [size (clusters monitor) == 2%nat; primary_cluster monitor == "us-east"; failover_strategy monitor == LatencyBased;
       cross_cluster_check_interval_secs monitor == 30; mc_threshold monitor == 5;
       mc_webhook monitor == Some "https://hooks.slack.com/test"].
(** A cluster of the tests: its name, its status, its latency *)
Definition one_cluster (c : string * ClusterStatus * option Z) : string * ClusterHealth :=
  let '(n, s, l) := c in (n, (new_cluster n [n +:+ ":5432"] 0) <| status := s |> <| latency_ms := l |>).
Definition monitor_of (s : Strategy) (cs : list (string * ClusterStatus * option Z)) : MultiClusterMonitor :=
  new_monitor (list_to_map (one_cluster <$> cs)) "us-east" s 10 3 None.
Definition us_east : string * ClusterStatus * option Z := ("us-east", Unknown, None).
Definition test_multi_cluster_monitor_explicit : bool :=
  let monitor := new_monitor (list_to_map (one_cluster <$> [us_east; ("eu-west", Unknown, None)])) "us-east" LatencyBased 15 5 None in
  all [size (clusters monitor) == 2%nat; primary_cluster monitor == "us-east"; failover_strategy monitor == LatencyBased;
       cross_cluster_check_interval_secs monitor == 15; mc_threshold monitor == 5].
Definition test_multi_cluster_monitor_accessor_methods : bool :=
  let monitor := new_monitor (list_to_map [one_cluster us_east]) "us-east" Sequential 10 3 (Some "https://hooks.slack.com/test") in
  all [primary_cluster monitor == "us-east"; failover_strategy monitor == Sequential; cross_cluster_check_interval_secs monitor == 10;
       mc_threshold monitor == 3; size (clusters monitor) == 1%nat; promotions_total monitor == 0].
Definition one_of (o : option string) (l : list string) : bool :=
  match o with Some n => bool_decide (n ∈ l) | None => false end.


Definition test_select_failover_target_sequential : bool :=
  one_of (select_failover_target rng (monitor_of Sequential [us_east; ("eu-west", ClHealthy, None); ("ap-south", ClHealthy, None)]))
    ["eu-west"; "ap-south"].
Definition test_select_failover_target_latency_based : bool :=
  select_failover_target rng (monitor_of LatencyBased [us_east; ("eu-west", ClHealthy, Some 100); ("ap-south", ClHealthy, Some 50)])
  == Some "ap-south".
Definition test_select_failover_target_no_healthy_secondaries : bool :=
  is_none (select_failover_target rng (monitor_of Sequential [us_east; ("eu-west", ClFailed, None)])).
Definition test_select_failover_target_weighted_random : bool :=
  one_of (select_failover_target rng (monitor_of WeightedRandom [us_east; ("eu-west", ClHealthy, Some 10); ("ap-south", ClHealthy, Some 10)]))
    ["eu-west"; "ap-south"].
Definition test_metrics_includes_cluster_status_and_promotions : bool :=
  let metrics := monitor_metrics (monitor_of Sequential [us_east; ("eu-west", ClHealthy, Some 42)]) in
  all [4 <=? Z.of_nat (length metrics); metric metrics "failover_promotions_total" == Some (f64_of_Z 0);
       length (filter (λ m, m.1 = "failover_cluster_status") metrics) == 2%nat].
Definition test_promotions_total_increments : bool :=
  promotions_total (monitor_of Sequential [us_east; ("eu-west", ClHealthy, None)]) == 0.
Definition test_promote_secondary_no_candidates : bool :=
  is_none (promote_secondary rng (monitor_of Sequential [us_east])).1.1.
Definition test_promote_secondary_promotes : bool :=
  let '(r, _, monitor) := promote_secondary rng (monitor_of Sequential [us_east; ("eu-west", ClHealthy, None)]) in
  all [r == Some "eu-west"; primary_cluster monitor == "eu-west"; promotions_total monitor == 1].
(** [make_all_healthy_monitor], and its two clusters with other statuses and latencies *)
Definition make_monitor (s : Strategy) (eu ap : ClusterStatus) (leu lap : option Z) : MultiClusterMonitor :=
  monitor_of s [("eu-west", eu, leu); ("ap-south", ap, lap)].
Definition make_all_healthy_monitor (s : Strategy) : MultiClusterMonitor := make_monitor s ClHealthy ClHealthy (Some 50) (Some 80).
Definition target (s : Strategy) (eu ap : ClusterStatus) (leu lap : option Z) : option string :=
  select_failover_target rng (make_monitor s eu ap leu lap).
Definition test_multi_cluster_all_healthy_selects_first : bool := is_some (target Sequential ClHealthy ClHealthy (Some 50) (Some 80)).
Definition test_multi_cluster_one_degraded_skips_it : bool :=
  target Sequential Degraded ClHealthy (Some 50) (Some 80) == Some "ap-south".
Definition test_multi_cluster_all_degraded_returns_none : bool :=
  is_none (target Sequential Degraded Degraded (Some 50) (Some 80)).
Definition test_multi_cluster_recovery_promotes_back : bool :=
  select_failover_target rng
    ((make_all_healthy_monitor Sequential) <| primary_cluster := "eu-west" |> <| mc_current_primary := "eu-west" |>) == Some "ap-south".
Definition test_multi_cluster_promote_secondary_updates_primary : bool :=
  let '(promoted, _, monitor) := promote_secondary rng (make_all_healthy_monitor Sequential) in
  all [is_some promoted; promoted != Some "us-east"; Some (primary_cluster monitor) == promoted; promotions_total monitor == 1].
Definition test_multi_cluster_promote_secondary_chains_events : bool :=
  let '(first, _, monitor) := promote_secondary rng (make_all_healthy_monitor Sequential) in
  let '(second, _, monitor) := promote_secondary rng monitor in
  all [is_some first; is_none second || (second != first) && (promotions_total monitor == 2)].
Definition test_multi_cluster_sequential_strategy_picks_first_healthy : bool := test_multi_cluster_all_healthy_selects_first.
Definition test_multi_cluster_latency_strategy_picks_lowest : bool :=
  target LatencyBased ClHealthy ClHealthy (Some 50) (Some 80) == Some "eu-west".
Definition test_multi_cluster_latency_strategy_picks_lowest_reversed : bool :=
  target LatencyBased ClHealthy ClHealthy (Some 200) (Some 10) == Some "ap-south".
Definition test_multi_cluster_weighted_random_picks_one : bool :=
  one_of (target WeightedRandom ClHealthy ClHealthy (Some 50) (Some 80)) ["eu-west"; "ap-south"].
Definition test_multi_cluster_weighted_random_prefers_lower_latency : bool :=
  target WeightedRandom ClHealthy ClHealthy (Some 1) (Some 5000) == Some "eu-west".
Definition count_status (st : ClusterStatus) (m : MultiClusterMonitor) : nat :=
  length (filter (λ c, status c = st) (hash_values (clusters m))).
Definition test_multi_cluster_aggregate_status_all_healthy : bool :=
  count_status ClHealthy (make_all_healthy_monitor Sequential) == 2%nat.
Definition test_multi_cluster_aggregate_status_one_failed : bool :=
  count_status ClHealthy (make_monitor Sequential ClHealthy ClFailed (Some 50) (Some 80)) == 1%nat.
Definition test_multi_cluster_aggregate_status_all_failed : bool :=
  count_status ClHealthy (make_monitor Sequential ClFailed ClFailed (Some 50) (Some 80)) == 0%nat.
Definition test_multi_cluster_promotion_increments_counter : bool :=
  let monitor := make_all_healthy_monitor Sequential in
  all [promotions_total monitor == 0;
       promotions_total (monitor <| primary_cluster := "eu-west" |> <| promotions_total ::= λ n, add64 n 1 |>) == 1].
Definition test_multi_cluster_metrics_after_promotion : bool :=
  metric (monitor_metrics ((make_all_healthy_monitor Sequential) <| promotions_total ::= λ n, add64 n 3 |>)) "failover_promotions_total"
  == Some (f64_of_Z 3).
Definition values_of (n : string) (l : list (string * f64)) : list f64 := snd <$> filter (λ m, m.1 = n) l.
Definition test_multi_cluster_metrics_cluster_status_values : bool :=
  let statuses := values_of "failover_cluster_status" (monitor_metrics (make_monitor Sequential Degraded ClHealthy (Some 50) (Some 80))) in
  bool_decide (f64_of_Z 1 ∈ statuses) && bool_decide (f64_of_Z 0 ∈ statuses).
Definition test_multi_cluster_metrics_includes_latency : bool :=
  bool_decide (f64_of_Z 42 ∈ values_of "failover_cluster_latency_ms" (monitor_metrics (make_monitor Sequential ClHealthy ClHealthy (Some 42) (Some 80)))).
Definition test_multi_cluster_health_check_aggregation_mixed : bool :=
  target LatencyBased Degraded ClHealthy (Some 150) (Some 30) == Some "ap-south".
Definition test_multi_cluster_demote_and_repromote : bool :=
  let '(first, _, monitor) := promote_secondary rng (make_all_healthy_monitor Sequential) in
  let '(second, _, monitor') := promote_secondary rng monitor in
  all [one_of first ["eu-west"; "ap-south"]; Some (primary_cluster monitor) == first; one_of second ["eu-west"; "ap-south"];
       first != second; Some (primary_cluster monitor') == second; promotions_total monitor' == 2].
Definition test_multi_cluster_weighted_random_no_latency_info : bool := is_some (target WeightedRandom ClHealthy ClHealthy None None).
Definition test_multi_cluster_latency_strategy_no_latency_info : bool := is_some (target LatencyBased ClHealthy ClHealthy None None).
Definition test_multi_cluster_single_secondary : bool :=
  select_failover_target rng (monitor_of Sequential [("eu-west", ClHealthy, None)]) == Some "eu-west".
Definition test_multi_cluster_only_primary_exists : bool := is_none (select_failover_target rng (monitor_of Sequential [us_east])).
Definition test_multi_cluster_cluster_status_unknown_is_not_healthy : bool :=
  target Sequential ClHealthy Unknown (Some 50) (Some 80) == Some "eu-west".

Definition cluster_suite : list bool :=
  [test_multi_cluster_monitor_from_env_defaults;
   test_multi_cluster_monitor_from_env_configured; test_multi_cluster_monitor_explicit;
   test_multi_cluster_monitor_accessor_methods; test_select_failover_target_sequential; test_select_failover_target_latency_based;
   test_select_failover_target_no_healthy_secondaries; test_select_failover_target_weighted_random;
   test_metrics_includes_cluster_status_and_promotions; test_promotions_total_increments; test_promote_secondary_no_candidates;
   test_promote_secondary_promotes; test_multi_cluster_all_healthy_selects_first; test_multi_cluster_one_degraded_skips_it;
   test_multi_cluster_all_degraded_returns_none; test_multi_cluster_recovery_promotes_back;
   test_multi_cluster_promote_secondary_updates_primary; test_multi_cluster_promote_secondary_chains_events;
   test_multi_cluster_sequential_strategy_picks_first_healthy; test_multi_cluster_latency_strategy_picks_lowest;
   test_multi_cluster_latency_strategy_picks_lowest_reversed; test_multi_cluster_weighted_random_picks_one;
   test_multi_cluster_weighted_random_prefers_lower_latency;
   test_multi_cluster_aggregate_status_all_healthy; test_multi_cluster_aggregate_status_one_failed;
   test_multi_cluster_aggregate_status_all_failed; test_multi_cluster_promotion_increments_counter;
   test_multi_cluster_metrics_after_promotion; test_multi_cluster_metrics_cluster_status_values;
   test_multi_cluster_metrics_includes_latency; test_multi_cluster_health_check_aggregation_mixed;
   test_multi_cluster_demote_and_repromote; test_multi_cluster_weighted_random_no_latency_info;
   test_multi_cluster_latency_strategy_no_latency_info; test_multi_cluster_single_secondary;
   test_multi_cluster_only_primary_exists; test_multi_cluster_cluster_status_unknown_is_not_healthy].
End clusters.

(** *** The results *)

Definition failover_suite (reachable : SocketAddr → bool) : list bool :=
  [test_new_defaults; test_metrics_reads_live_state; test_state_roundtrip; test_parse_replication_lag_valid;
   test_parse_replication_lag_invalid; test_patroni_config_from_env; test_redis_sentinel_config_from_env;
   test_redis_sentinel_defaults; test_patroni_defaults; test_failover_shim_new_env_check_interval_legacy;
   test_failover_shim_new_env_check_interval_secs_priority; test_failover_shim_new_env_custom_primary_replica;
   test_failover_shim_new_defaults_without_env; test_failover_shim_default_trait; test_failover_shim_metrics_count;
   test_parse_replication_lag_edge_cases; test_parse_replication_lag_negative; test_parse_replication_lag_whitespace;
   test_parse_replication_lag_null_string; test_shared_state_invalid_atomic_value; test_metrics_all_failover_states;
   test_check_database_reachable reachable; test_check_database_unreachable reachable; test_check_database_invalid_addr reachable;
   test_patroni_monitor_from_env; test_patroni_monitor_explicit; test_patroni_monitor_defaults; test_redis_sentinel_monitor_from_env;
   test_redis_sentinel_monitor_explicit; test_redis_sentinel_monitor_defaults; test_patroni_monitor_from_env_all_fields;
   test_redis_sentinel_monitor_from_env_all_fields; test_redis_sentinel_monitor_new_explicit;
   test_redis_sentinel_monitor_from_env_defaults; test_redis_sentinel_monitor_from_env_configured;
   test_patroni_monitor_new_explicit; test_patroni_monitor_from_env_defaults; test_cluster_status_values;
   test_cluster_status_as_f64_all_variants; test_multi_cluster_failover_strategy_display; test_multicluster_strategy_display;
   test_cluster_health_new; test_cluster_health_creation; test_parse_clusters_empty; test_parse_clusters_single;
   test_parse_clusters_multiple; test_parse_clusters_with_multiple_endpoints; test_parse_clusters_malformed_ignored;
   test_multi_cluster_parse_clusters_empty; test_multi_cluster_parse_clusters_trailing_comma;
   test_multi_cluster_parse_clusters_with_extra_parts].

Example failover_tests_pass : all (failover_suite (λ a, bool_decide (port_of a = 4242))) = true.
Proof. vm_compute. reflexivity. Qed.
(** Either order of the hash map, and a few random numbers *)
Example cluster_tests_pass :
  all (mjoin ((λ rng, @cluster_suite canonical_order rng ++ @cluster_suite reversed_order rng) <$> [400000; 123456789; 499999999])) = true.
Proof. vm_compute. reflexivity. Qed.
(** The test of the weighted strategy depends on the random number: it fails for some. *)
Example weighted_test_can_fail :
  @test_multi_cluster_weighted_random_prefers_lower_latency canonical_order 0 = false ∨
  @test_multi_cluster_weighted_random_prefers_lower_latency reversed_order 0 = false.
Proof. vm_compute. auto. Qed.

End FailoverTests.

(** ** The tests of [shim-core/src/shutdown.rs], on [Shutdown.v]

    The process of the tests does not exist: the machine refuses every signal. *)

Module ShutdownTests.
Import Prelude Shutdown Testing.
Open Scope test_scope.

#[local] Instance no_process : Os :=
  {| World := Z;
     kill _ _ w := (Err "ESRCH: No such process", w);
     alive _ _ := false;
     reap _ w := w;
     sleep d w := w + d;
     clock w := w;
     max_instant := 2 ^ 63 * 1000;
     clock_sleep d w _ := Z.le_refl (w + d) |}.
Definition no_pid : Z := 2 ^ 31 - 1.
(** A handler's answer for that process, with five seconds *)
Definition handled (d : DatabaseType) : option ShutdownResult := fst <$> shutdown_handler d no_pid 5 0.
Definition not_clean (d : DatabaseType) : bool := match handled d with Some r => negb (clean_exit r) | None => false end.
Definition strategies : list ShutdownStrategy := [PostgresGraceful; RedisGraceful; GenericGraceful].
Definition manager (d : DatabaseType) (secs : Z) : ShutdownManager := new_manager (with_vars []) d secs.
Definition one_var (k : string) (v : option string) : environment := with_vars (match v with Some v => [(k, v)] | None => [] end).

Definition test_database_type_display : bool := (database_type_display <$> [Postgres; Redis; Generic]) == ["postgres"; "redis"; "generic"].
Definition test_shutdown_handler_creates_correct_types : bool :=
  ((λ d, res_db_type <$> handled d) <$> [Postgres; Redis; Generic]) == [Some Postgres; Some Redis; Some Generic].
Definition test_shutdown_descriptions : bool :=
  all [str_contains (description Postgres) "PostgreSQL"; str_contains (description Postgres) "SIGTERM"; str_contains (description Redis) "Redis";
       str_contains (description Redis) "RDB"; str_contains (description Generic) "Generic"; str_contains (description Generic) "SIGKILL"].
Definition test_shutdown_manager_new : bool := all [handler (manager Postgres 30) == Postgres; negb (initiated (manager Postgres 30))].
Definition test_shutdown_manager_description : bool := str_contains (description (handler (manager Redis 10))) "Redis".
Definition test_shutdown_manager_in_flight_tracking : bool :=
  ((λ os, in_flight_count (ops_apply os (manager Generic 10))) <$>
   [[]; [Started]; [Started; Started]; [Started; Started; Completed]; [Started; Started; Completed; Completed]]) == [0; 1; 2; 1; 0].
Definition test_shutdown_manager_drain_timeout_from_env : bool :=
  drain_timeout_secs (new_manager (with_vars [("SHIM_DRAIN_TIMEOUT_SECS", "60")]) Generic 30) == 60.
Definition test_shutdown_manager_drain_timeout_default : bool := drain_timeout_secs (manager Generic 30) == 30.
Definition test_is_process_alive_invalid_pid : bool := negb (is_process_alive no_pid 0).
Definition test_postgres_shutdown_nonexistent : bool :=
  all [not_clean Postgres; existsb (λ l, str_contains l "SIGTERM failed") (default [] (log <$> handled Postgres))].
Definition test_redis_shutdown_nonexistent : bool := not_clean Redis.
Definition test_generic_shutdown_nonexistent : bool := not_clean Generic.
Definition test_shutdown_manager_shutdown_nonexistent : bool :=
  match manager_shutdown (λ _, []) no_pid (manager Postgres 5) 0 with Some (_, m, _) => initiated m | None => false end.
Definition test_shutdown_strategy_display : bool := (strategy_display <$> strategies) == ["postgres"; "redis"; "generic"].
Definition test_shutdown_strategy_from_str : bool :=
  (strategy_from_str <$> ["postgres"; "postgresql"; "pg"; "redis"; "generic"; "bogus"])
  == [PostgresGraceful; PostgresGraceful; PostgresGraceful; RedisGraceful; GenericGraceful; GenericGraceful].
Definition test_shutdown_strategy_to_database_type : bool := (to_database_type <$> strategies) == [Postgres; Redis; Generic].
Definition test_shutdown_strategy_from_env : bool :=
  ((λ v, strategy_from_env (one_var "SHUTDOWN_STRATEGY" v)) <$> [Some "postgres"; None]) == [PostgresGraceful; GenericGraceful].
Definition test_shutdown_strategy_default_timeout : bool :=
  ((λ v, default_timeout (one_var "SHUTDOWN_TIMEOUT_SECS" v)) <$> [None; Some "60"]) == [30; 60].
Definition test_shutdown_strategy_drain_timeout : bool :=
  ((λ v, drain_timeout (one_var "SHIM_DRAIN_TIMEOUT_SECS" v)) <$> [None; Some "45"]) == [30; 45].
(** A child that has been waited for has no id any more. *)
Definition test_graceful_shutdown_nonexistent_process : bool := is_some (fst <$> graceful_shutdown GenericGraceful None 5 0).

Definition shutdown_suite : list bool :=
  [test_database_type_display; test_shutdown_handler_creates_correct_types; test_shutdown_descriptions; test_shutdown_manager_new;
   test_shutdown_manager_description; test_shutdown_manager_in_flight_tracking; test_shutdown_manager_drain_timeout_from_env;
   test_shutdown_manager_drain_timeout_default; test_is_process_alive_invalid_pid; test_postgres_shutdown_nonexistent;
   test_redis_shutdown_nonexistent; test_generic_shutdown_nonexistent; test_shutdown_manager_shutdown_nonexistent;
   test_shutdown_strategy_display; test_shutdown_strategy_from_str; test_shutdown_strategy_to_database_type;
   test_shutdown_strategy_from_env; test_shutdown_strategy_default_timeout; test_shutdown_strategy_drain_timeout;
   test_graceful_shutdown_nonexistent_process].
Example shutdown_tests_pass : all shutdown_suite = true.
Proof. vm_compute. reflexivity. Qed.

End ShutdownTests.

(** ** The tests of [integration-tests/src/failover.rs], on [Failover.v], [MultiCluster.v],
    [Shutdown.v], [Process.v] and [Health.v]

    No server is there to connect to.  The process of [test_graceful_shutdown_real_process]
    is a child that ends at SIGTERM and that nobody has waited for ([unreaped]). *)

Module IntegrationTests.
Import Prelude Text Net Commands Config Events Failover FailoverIo MultiCluster Shutdown Process Health FailoverTests ShutdownTests Testing.
Open Scope test_scope.

#[local] Instance test_external : External := demo_external.

(** *** Connectors and monitors *)

Definition test_failover_state_transitions : bool :=
  let states := [Failover.Healthy; Suspect; FailingOver; FailedOver] in ((λ s, Failover.state (Failover.set_state s new_shared)) <$> states) == states.
Definition test_patroni_connector_config : bool :=
  let shim := new_failover (with_vars [("FAILOVER_CONNECTOR", "patroni"); ("FAILOVER_DB_HOST", "pg-cluster.internal"); ("FAILOVER_DB_PORT", "5433");
    ("FAILOVER_DB_USER", "patroni_admin"); ("FAILOVER_DB_PASSWORD", "supersecret"); ("FAILOVER_DB_NAME", "cluster_db");
    ("FAILOVER_LAG_THRESHOLD_SECS", "45.5"); ("FAILOVER_CHECK_INTERVAL_SECS", "15")]) in
  all [connector shim == Patroni; db_host shim == "pg-cluster.internal"; db_port shim == "5433"; db_user shim == "patroni_admin";
       db_password shim == "supersecret"; db_name shim == "cluster_db"; lag_threshold_secs shim == f64_of "45.5"; check_interval_secs shim == 15].
Definition test_redis_sentinel_connector_config : bool :=
  let shim := new_failover (with_vars [("FAILOVER_CONNECTOR", "redis-sentinel"); ("REDIS_SENTINEL_URL", "redis://sentinel.prod:26379");
    ("REDIS_SENTINEL_MASTER", "production-master"); ("FAILOVER_CHECK_INTERVAL_SECS", "7")]) in
  all [connector shim == RedisSentinel; redis_sentinel_url shim == "redis://sentinel.prod:26379";
       redis_sentinel_master shim == "production-master"; check_interval_secs shim == 7].
Definition test_connector_type_equality : bool := all [Tcp == Tcp; Patroni == Patroni; RedisSentinel == RedisSentinel; Tcp != Patroni; Patroni != RedisSentinel].
Definition test_patroni_connector_defaults : bool := test_patroni_defaults.
Definition test_redis_sentinel_defaults : bool := FailoverTests.test_redis_sentinel_defaults.
(** [psql] does not run: the check answers that the server cannot be reached. *)
Definition no_psql (_ : string) : result string string := Err "No such file or directory".
Definition test_failover_monitor_patroni : bool :=
  let monitor := patroni_from_env (with_vars [("FAILOVER_DB_HOST", "pg-cluster.internal"); ("FAILOVER_DB_PORT", "5433"); ("FAILOVER_DB_USER", "admin");
    ("FAILOVER_DB_PASSWORD", "secret"); ("FAILOVER_DB_NAME", "cluster_db"); ("FAILOVER_CHECK_INTERVAL_SECS", "15");
    ("FAILOVER_LAG_THRESHOLD_SECS", "20.5")]) in
  all [pm_host monitor == "pg-cluster.internal"; pm_port monitor == "5433"; pm_user monitor == "admin"; pm_password monitor == "secret";
       pm_interval_secs monitor == 15; pm_lag_threshold monitor == f64_of "20.5";
       match patroni_check no_psql with PatroniUnreachable => true | _ => false end].
Definition test_failover_monitor_redis_sentinel : bool :=
  let monitor := sentinel_from_env (with_vars [("REDIS_SENTINEL_URL", "redis://sentinel.prod:26379"); ("REDIS_SENTINEL_MASTER", "prod-master");
    ("FAILOVER_CHECK_INTERVAL_SECS", "7")]) in
  all [sm_url monitor == "redis://sentinel.prod:26379"; sm_master monitor == "prod-master"; sm_interval_secs monitor == 7].

(** *** Shutdown *)

#[local] Instance gone : Os := ShutdownTests.no_process.
Definition no_pid : Z := 2 ^ 31 - 1.
Definition shut (d : DatabaseType) (secs : Z) : option (ShutdownResult * ShutdownManager) :=
  fst <$> manager_shutdown (λ _, []) no_pid (new_manager (with_vars []) d secs) 0.
Definition unclean (d : DatabaseType) (secs : Z) : bool :=
  match shut d secs with Some (r, m) => all [negb (clean_exit r); res_db_type r == d; initiated m] | None => false end.
Definition test_graceful_shutdown_generic : bool :=
  let m := new_manager (with_vars []) Generic 5 in all [handler m == Generic; negb (initiated m); unclean Generic 5].
Definition test_graceful_shutdown_postgres : bool := all [handler (new_manager (with_vars []) Postgres 10) == Postgres; unclean Postgres 10].
Definition test_graceful_shutdown_redis : bool := all [handler (new_manager (with_vars []) Redis 10) == Redis; unclean Redis 10].
Definition strategy_is (s : ShutdownStrategy) (n : string) (d : DatabaseType) : bool := all [strategy_display s == n; to_database_type s == d].
Definition test_shutdown_strategy_postgres : bool := strategy_is PostgresGraceful "postgres" Postgres.
Definition test_shutdown_strategy_redis : bool := strategy_is RedisGraceful "redis" Redis.
Definition test_shutdown_strategy_generic : bool := strategy_is GenericGraceful "generic" Generic.
Definition test_child_process_with_db_type : bool :=
  let p := Process.with_db_type default_process Postgres in
  all [Process.db_type p == Postgres; Process.db_type (Process.set_db_type Redis p) == Redis].

(** *** Startup probes *)

Definition nothing_answers : Outside := mkOutside true (λ _, false) (λ _, false) (λ _, None).
Definition probed (p : StartupProbe) : HealthStatus := (probe_check (λ _, nothing_answers) p).1.
Definition test_startup_probe_immediate_success : bool := probed (with_max_retries 0 (new_probe "exec:true" 5)) == Health.Healthy.
Definition test_startup_probe_immediate_failure : bool := probed (with_max_retries 0 (new_probe "exec:false" 1)) == Unhealthy.
Definition test_startup_probe_tcp : bool := probed (with_max_retries 0 (new_probe "tcp:127.0.0.1:1" 1)) == Unhealthy.
Definition probe_says (p : StartupProbe) (l : list string) : bool := forallb (str_contains (check_cmd p)) l.
Definition thirty_tries (p : StartupProbe) : bool := all [max_retries p == 30; retry_delay_secs p == 1].
Definition test_postgres_startup_probe_construction : bool :=
  let p := postgres_startup_probe "127.0.0.1" 5432 in all [probe_says p ["127.0.0.1"; "5432"]; thirty_tries p].
Definition test_redis_startup_probe_construction : bool :=
  let p := redis_startup_probe "redis-cluster:6379" in all [probe_says p ["redis-cli"; "6379"; "ping"]; thirty_tries p].
Definition test_startup_probe_postgres : bool := probe_says (postgres_startup_probe "127.0.0.1" 5432) ["pg_isready"; "127.0.0.1"; "5432"].
Definition test_startup_probe_redis : bool := probe_says (redis_startup_probe "127.0.0.1:6379") ["redis-cli"; "6379"; "ping"].
Definition test_startup_probe_from_env_tcp : bool := probe_says (startup_probe_from_env (with_vars [])) ["tcp:"].
Definition test_startup_probe_from_env_postgres : bool :=
  probe_says (startup_probe_from_env (with_vars [("STARTUP_PROBE_TYPE", "postgres"); ("FAILOVER_DB_HOST", "pg.internal"); ("FAILOVER_DB_PORT", "5433")]))
    ["pg_isready"; "pg.internal"; "5433"].
Definition test_startup_probe_from_env_redis : bool :=
  probe_says (startup_probe_from_env (with_vars [("STARTUP_PROBE_TYPE", "redis")])) ["redis-cli"; "ping"].

(** *** Several clusters

    Every probe fails after two seconds; [rng] is the random number of a promotion. *)

Section clusters.
Context {HO : HashOrder} (rng : Z).
Definition checked (m : MultiClusterMonitor) : MultiClusterMonitor := check_all_clusters (λ _ _, (false, 2000)) (λ _, 0) m.
Definition cluster (n ep : string) (s : ClusterStatus) (l : option Z) : string * ClusterHealth :=
  (n, (new_cluster n [ep] 0) <| status := s |> <| latency_ms := l |>).
Definition watching (p : string) (s : Strategy) (hook : option string) (cs : list (string * ClusterHealth)) : MultiClusterMonitor :=
  new_monitor (list_to_map cs) p s 10 3 hook.
Definition status_of (n : string) (m : MultiClusterMonitor) : option ClusterStatus := status <$> clusters m !! n.
Definition test_multi_cluster_monitor_from_env : bool :=
  let m := MultiCluster.from_env (with_vars [("FAILOVER_CLUSTERS", "us-east:10.0.0.1:5432,eu-west:10.0.1.1:5432"); ("FAILOVER_PRIMARY", "us-east");
    ("FAILOVER_STRATEGY", "latency"); ("FAILOVER_CROSS_CHECK_SECS", "30"); ("FAILOVER_FAILURE_THRESHOLD", "5")]) 0 in
  all [size (clusters m) == 2%nat; primary_cluster m == "us-east"; failover_strategy m == LatencyBased;
       cross_cluster_check_interval_secs m == 30; mc_threshold m == 5].
Definition test_multi_cluster_monitor_explicit_config : bool :=
  let m := watching "primary" Sequential (Some "https://hooks.slack.com/test")
             [cluster "primary" "127.0.0.1:5432" MultiCluster.Unknown None; cluster "secondary" "127.0.0.2:5432" MultiCluster.Unknown None] in
  all [size (clusters m) == 2%nat; primary_cluster m == "primary"].
Definition test_multi_cluster_health_check_unreachable : bool :=
  let m := checked (watching "primary" Sequential None
             [cluster "primary" "192.0.2.1:9999" MultiCluster.Unknown None; cluster "secondary" "192.0.2.2:9999" MultiCluster.Unknown None]) in
  (status_of "primary" m == Some Degraded) || (status_of "primary" m == Some ClFailed).
Definition test_multi_cluster_failover_trigger : bool :=
  let m := checked (watching "us-east" Sequential None
             [cluster "us-east" "192.0.2.1:9999" MultiCluster.Unknown None; cluster "eu-west" "192.0.2.2:9999" ClHealthy None]) in
  let m5 := Nat.iter 5 checked m in
  let m5' := m5 <| clusters ::= alter (λ c, c <| status := ClHealthy |>) "eu-west" |> in
  let '(promoted, _, m6) := promote_secondary rng m5' in
  all [status_of "us-east" m != Some ClHealthy; status_of "us-east" m5 == Some ClFailed; promoted == Some "eu-west";
       primary_cluster m6 == "eu-west"; promotions_total m6 == 1].
Definition test_multi_cluster_no_eligible_secondary : bool :=
  is_none (promote_secondary rng (watching "primary" Sequential None
    [cluster "primary" "192.0.2.1:9999" MultiCluster.Unknown None; cluster "secondary" "192.0.2.2:9999" ClFailed None])).1.1.
Definition test_multi_cluster_metrics : bool :=
  let ms := monitor_metrics (watching "primary" Sequential None
    [cluster "primary" "127.0.0.1:5432" MultiCluster.Unknown None; cluster "secondary" "127.0.0.2:5432" ClHealthy (Some 42)]) in
  all [4 <=? Z.of_nat (length ms); metric ms "failover_promotions_total" == Some (f64_of_Z 0)].
Definition test_multi_cluster_latency_based_strategy : bool :=
  select_failover_target rng (watching "primary" LatencyBased None
    [cluster "primary" "127.0.0.1:5432" MultiCluster.Unknown None; cluster "slow" "127.0.0.2:5432" ClHealthy (Some 200);
     cluster "fast" "127.0.0.3:5432" ClHealthy (Some 10)]) == Some "fast".
Definition clusters_suite : list bool :=
  [test_multi_cluster_monitor_from_env; test_multi_cluster_monitor_explicit_config; test_multi_cluster_health_check_unreachable;
   test_multi_cluster_failover_trigger; test_multi_cluster_no_eligible_secondary; test_multi_cluster_metrics;
   test_multi_cluster_latency_based_strategy].
End clusters.

(** *** A child that nobody has waited for

    It ends at SIGTERM and is a zombie then: signal 0 still finds it, until it is
    reaped. *)
Record child := mkChild { time : Z; reaped : bool }.
Definition unreaped : Os :=
  {| World := child;
     kill _ _ w := (if reaped w then Err "ESRCH: No such process" else Ok (), w);
     alive _ w := negb (reaped w);
     reap _ w := mkChild (time w) true;
     sleep d w := mkChild (time w + d) (reaped w);
     clock := time;
     max_instant := 2 ^ 63 * 1000;
     clock_sleep d w _ := Z.le_refl (time w + d) |}.
Definition shut_down (s : ShutdownStrategy) (secs : Z) : option (result string ShutdownResult) :=
  fst <$> @graceful_shutdown unreaped s (Some 4242) secs (mkChild 0 false).
Definition test_graceful_shutdown_real_process : bool :=
  match shut_down GenericGraceful 2 with Some (Ok r) => all [clean_exit r; 2 <=? signals_sent r] | _ => false end.

Definition integration_suite : list bool :=
  [test_failover_state_transitions; test_patroni_connector_config; test_redis_sentinel_connector_config;
   test_connector_type_equality; test_patroni_connector_defaults; test_redis_sentinel_defaults; test_failover_monitor_patroni;
   test_failover_monitor_redis_sentinel; test_graceful_shutdown_generic; test_graceful_shutdown_postgres;
   test_graceful_shutdown_redis; test_shutdown_strategy_postgres; test_shutdown_strategy_redis; test_shutdown_strategy_generic;
   test_child_process_with_db_type; test_startup_probe_immediate_success; test_startup_probe_immediate_failure;
   test_startup_probe_tcp; test_postgres_startup_probe_construction; test_redis_startup_probe_construction;
   test_startup_probe_postgres; test_startup_probe_redis; test_startup_probe_from_env_tcp; test_startup_probe_from_env_postgres;
   test_startup_probe_from_env_redis; test_graceful_shutdown_real_process].
Example integration_tests_pass :
  all (integration_suite ++ mjoin ((λ rng, @clusters_suite canonical_order rng ++ @clusters_suite reversed_order rng) <$> [400000; 123456789])) = true.
Proof. vm_compute. reflexivity. Qed.

(** What that test shows: a child that ends at SIGTERM at once is waited for in full, sent
    SIGKILL, and reported as killed, whatever the strategy.  Only where something else
    reaps it ([Reaper.v]) is its end seen. *)
Example zombie_is_killed :
  (λ s, (λ r, match r with Ok r => (signals_sent r, wait_secs s 20 * 1000 <=? duration_ms r, last (Shutdown.log r)) | Err e => (-1, false, Some e) end) <$> shut_down s 20)
    <$> [PostgresGraceful; RedisGraceful; GenericGraceful]
  = replicate 3 (Some (2, true, Some "[3] Process killed by SIGKILL")).
Proof. vm_compute. reflexivity. Qed.

End IntegrationTests.
