(* ===== verification/TestData.v ===== *)
(** * The tests of [cache-shim], [sharding-shim], [queue-shim] and [scheduler-shim]

    One Module per shim or file; the conventions are those of [Testing.v]. *)

From S2P Require Import Prelude Testing.
From S2P Require Cache Sharding Queue Scheduler SchedulerLoop.

(** ** The tests of [cache-shim/src/lib.rs], on [Cache.v] *)

Module CacheTests.
Import Prelude Cache Testing.
Open Scope test_scope.

#[local] Instance test_order : HashOrder := canonical_order.
#[local] Instance test_chrono : Chrono := demo_chrono.
#[local] Instance set_outcome_eq_dec : EqDecision set_outcome.
Proof. solve_decision. Defined.
#[local] Instance cache_out_eq_dec : EqDecision cache_out.
Proof. solve_decision. Defined.

Definition defaults : CacheShim := new_cache (with_vars []).
(** [CacheShim { ttl_secs, max_size, max_entries, strategy, ..CacheShim::new() }] *)
Definition shim_with (ttl size entries : Z) (s : EvictionStrategy) : CacheShim :=
  mkCacheShim ttl size entries s (prefix defaults) (sweep_interval_secs defaults).
Definition roomy : CacheShim := shim_with 3600 1000000 (max_entries defaults) (cache_strategy defaults).
(** The calls of a test, all at the instant 0 *)
Definition run (c : CacheShim) (os : list cache_op) : list cache_out * CacheInner :=
  let '(tr, i) := cache_run c new_inner os in (snd <$> tr, i).
Definition sets (l : list (string * string)) : list cache_op := (λ kv, CSet kv.1 (b kv.2) 0) <$> l.
Definition get_ok (c : CacheShim) (k : string) (i : CacheInner) : option bytes := (get c k 0 0 i).1.
Definition exists_ok (c : CacheShim) (k : string) (i : CacheInner) : bool := exists_key c k 0 i.

Definition test_eviction_strategy_parse : bool :=
  all [eviction_from_str "lru" == Ok Lru; eviction_from_str "lfu" == Ok Lfu; eviction_from_str "fifo" == Ok Fifo;
       is_err (eviction_from_str "random")].
Definition test_eviction_strategy_display : bool := all [eviction_display Lru == "lru"; eviction_display Lfu == "lfu"].
Definition test_full_key_with_prefix : bool :=
  full_key (mkCacheShim 3600 1000000 10 Lru "shim:" 60) "users:1" == "shim:users:1".
Definition test_set_and_get : bool :=
  let '(out, i) := run roomy (sets [("key1", "value1")]) in
  let '(v, i) := get roomy "key1" 0 0 i in
  all [v == Some (b "value1"); hits i == 1; misses i == 0].
Definition test_get_miss : bool :=
  let '(v, i) := get defaults "nonexistent" 0 0 new_inner in all [is_none v; misses i == 1].
Definition test_set_overwrite : bool :=
  let '(_, i) := run roomy (sets [("key1", "old"); ("key1", "new")]) in
  all [get_ok roomy "key1" i == Some (b "new"); entry_count i == 1].
Definition test_set_too_large : bool :=
  let c := shim_with (ttl_secs defaults) 10 (max_entries defaults) (cache_strategy defaults) in
  (set_entry c "key1" (replicate 100 Byte.x00) 0 new_inner).1 == Returned false.
Definition test_invalidate : bool :=
  let '(_, i) := run roomy (sets [("key1", "value1")]) in
  let '(r, i) := invalidate roomy "key1" i in all [r; is_none (get_ok roomy "key1" i)].
Definition test_invalidate_miss : bool := negb (invalidate defaults "nonexistent" new_inner).1.
Definition test_invalidate_prefix : bool :=
  let '(_, i) := run roomy (sets [("user:1", "a"); ("user:2", "b"); ("order:1", "c")]) in
  let '(removed, i) := invalidate_prefix roomy "user:" i in
  all [removed == 2; entry_count i == 1; exists_ok roomy "order:1" i].
Definition test_clear : bool :=
  let '(_, i) := run roomy (sets [("a", "1"); ("b", "2"); ("c", "3")]) in
  let i := clear i in all [entry_count i == 0; size_bytes i == 0].
Definition test_exists : bool :=
  let '(_, i) := run roomy (sets [("key1", "value1")]) in all [exists_ok roomy "key1" i; negb (exists_ok roomy "nonexistent" i)].
Definition test_hit_rate : bool :=
  all [cache_hit_rate new_inner == f64_of_Z 0;
       cache_hit_rate (new_inner <| hits := 3 |> <| misses := 1 |>) == f64_of "0.75"].
Definition test_metrics : bool :=
  let i := new_inner <| hits := 10 |> <| misses := 2 |> <| evictions := 1 |> <| size_bytes := 5000 |> in
  let metrics := cache_metrics (set_entry defaults "a" (b "1") 0 i).2 in
  all [length metrics == 6%nat; head metrics == Some ("cache_hits_total", f64_of_Z 10);
       (fst <$> metrics !! 5%nat) == Some "cache_hit_rate"].
(** Three keys, a use of the first, and a fourth *)
Definition fourth_of (s : EvictionStrategy) : list (string * bool) :=
  let c := shim_with 3600 1000000 3 s in
  let '(_, i) := run c (sets [("a", "1"); ("b", "2"); ("c", "3")] ++ [CGet "a" 0 0] ++ sets [("d", "4")]) in
  (λ k, (k, exists_ok c k i)) <$> ["a"; "b"; "c"; "d"].
Definition test_lru_eviction_order : bool := fourth_of Lru == [("a", true); ("b", false); ("c", true); ("d", true)].
Definition test_fifo_eviction_order : bool := fourth_of Fifo == [("a", false); ("b", true); ("c", true); ("d", true)].

(** *** The tests of [integration-tests] *)

Definition test_cache_lifecycle : bool :=
  let c := new_cache (with_vars [("CACHE_TTL", "3600"); ("CACHE_MAX_ENTRIES", "10000"); ("CACHE_MAX_SIZE", "10000000")]) in
  let '(_, i) := run c (sets [("key1", "value1"); ("key2", "value2"); ("key3", "value3")]) in
  let '(n, i') := invalidate_prefix c "key" i in
  all [entry_count i == 3; get_ok c "key1" i == Some (b "value1"); n == 3; entry_count i' == 0].
(** [t]: the nanoseconds between the write and the read *)
Definition test_cache_ttl_expiration (t : Z) : bool :=
  let c := new_cache (with_vars [("CACHE_TTL", "0")]) in
  is_none (get c "ephemeral" t t (set_entry c "ephemeral" (b "data") 0 new_inner).2).1.
Definition pressed (s : string) : list (string * bool) :=
  let c := new_cache (with_vars [("CACHE_TTL", "3600"); ("CACHE_MAX_ENTRIES", "3"); ("CACHE_MAX_SIZE", "1000000"); ("CACHE_STRATEGY", s)]) in
  let '(_, i) := run c (sets [("a", "1"); ("b", "2"); ("c", "3")] ++ [CGet "a" 0 0] ++ sets [("d", "4")]) in
  (λ k, (k, exists_ok c k i)) <$> ["a"; "b"; "c"; "d"].
Definition test_cache_lru_eviction_under_pressure : bool := pressed "lru" == [("a", true); ("b", false); ("c", true); ("d", true)].
Definition test_cache_fifo_eviction_under_pressure : bool := (take 2 (pressed "fifo")) == [("a", false); ("b", true)].
Definition test_cache_hit_rate_tracking : bool :=
  let c := new_cache (with_vars [("CACHE_TTL", "3600"); ("CACHE_MAX_SIZE", "1000000")]) in
  let '(_, i) := run c (sets [("k1", "v1"); ("k2", "v2")] ++ ((λ k, CGet k 0 0) <$> ["k1"; "k2"; "missing1"; "missing2"])) in
  near (cache_hit_rate i) (f64_of "0.5") (f64_of "0.01").
Definition test_cache_purge_expired_removes_old_entries (t : Z) : bool :=
  let c := new_cache (with_vars [("CACHE_TTL", "0")]) in
  let '(v, i) := get c "k1" t t (run c (sets [("k1", "v1"); ("k2", "v2")])).2 in
  let '(n, i) := purge_expired t i in all [is_none v; n == 1; entry_count i == 0].
Definition test_cache_eviction_by_size : bool :=
  let c := new_cache (with_vars [("CACHE_TTL", "3600"); ("CACHE_MAX_SIZE", "20"); ("CACHE_MAX_ENTRIES", "10000")]) in
  let '(out, i) := run c (sets [("k1", "1234567890"); ("k2", "1234567890"); ("k3", "1234567890")]) in
  all [out == replicate 3 (RSet (Returned true)); entry_count i <=? 2].

(** The value of the test that is JSON is its text. *)
Definition e2e_cache_shim_set_get_delete : bool :=
  let c := new_cache (with_vars [("CACHE_TTL", "3600"); ("CACHE_MAX_ENTRIES", "100"); ("CACHE_MAX_SIZE", "1000000")]) in
  let alice := "{user:alice,roles:[admin,writer]}" in
  let '(_, i) := run c (sets [("user:alice", alice); ("user:bob", "bob_data"); ("session:abc123", "active")]) in
  let '(va, i) := get c "user:alice" 0 0 i in let '(vb, i) := get c "user:bob" 0 0 i in let '(vs, i) := get c "session:abc123" 0 0 i in
  let '(r, i') := invalidate c "user:bob" i in
  let '(n, i'') := invalidate_prefix c "session:" i' in
  all [[va; vb; vs] == [Some (b alice); Some (b "bob_data"); Some (b "active")]; exists_ok c "user:alice" i; exists_ok c "user:bob" i;
       r; negb (exists_ok c "user:bob" i'); is_none (get_ok c "user:bob" i'); exists_ok c "user:alice" i'; exists_ok c "session:abc123" i';
       n == 1; negb (exists_ok c "session:abc123" i''); entry_count i'' == 1].

Definition cache_integration_suite : list bool :=
  [test_cache_lifecycle; test_cache_ttl_expiration 1; test_cache_lru_eviction_under_pressure;
   test_cache_fifo_eviction_under_pressure; test_cache_hit_rate_tracking; test_cache_purge_expired_removes_old_entries 1;
   test_cache_eviction_by_size;
   e2e_cache_shim_set_get_delete].
Definition cache_suite : list bool :=
  [test_eviction_strategy_parse; test_eviction_strategy_display; test_full_key_with_prefix; test_set_and_get; test_get_miss;
   test_set_overwrite; test_set_too_large; test_invalidate; test_invalidate_miss; test_invalidate_prefix; test_clear; test_exists;
   test_hit_rate; test_metrics; test_lru_eviction_order; test_fifo_eviction_order].
Example cache_tests_pass : all (cache_suite ++ cache_integration_suite) = true.
Proof. vm_compute. reflexivity. Qed.

End CacheTests.

(** ** The tests of [sharding-shim/src/lib.rs], on [Sharding.v] *)

Module ShardingTests.
Import Prelude Sharding Testing.
Open Scope test_scope.

#[local] Instance test_search : BinarySearch := linear_search.
#[local] Instance ShardMapping_eq_dec : EqDecision ShardMapping.
Proof. solve_decision. Defined.

(** [vn]: the virtual nodes of a shard.  The tests take the default, 150; the evaluation
    below takes fewer, because hashing is slow here. *)
Section sharding_tests.
Context {HO : HashOrder} (vn : Z).

Definition defaults : ShardingShim := new_sharding (with_vars [("SHARDING_VNODES", pretty vn)]).
(** A shard of the tests: its number, a range, its health *)
Definition shard (k : Z) (r : option (Z * Z)) (up : bool) : Z * ShardMapping :=
  (k, mkShardMapping k ("shard-" +:+ pretty (Z.to_N k) +:+ ":5432") (fst <$> r) (snd <$> r) up).
Definition shim_of (st : ShardingStrategy) (l : list (Z * ShardMapping)) : ShardingShim :=
  defaults <| strategy := st |> <| shards := list_to_map l |> <| directory := ∅ |>.
Definition route_id (s : ShardingShim) (k : string) : option Z :=
  match (route s k).1 with Ok r => Some r.1 | Err _ => None end.

Definition test_strategy_parse : bool :=
  all [strategy_from_str "hash" == Ok Hash; strategy_from_str "range" == Ok Range; strategy_from_str "directory" == Ok Directory;
       is_err (strategy_from_str "invalid")].
Definition test_hash_key_deterministic : bool := hash_key "user:123" == hash_key "user:123".
Definition test_hash_key_distributes : bool := all [hash_key "user:1" != hash_key "user:2"; hash_key "user:2" != hash_key "user:3"].
Definition test_route_hash_consistent : bool :=
  let s := build_hash_ring ((shim_of Hash [shard 0 None true; shard 1 None true]) <| vnodes := vn |>) in
  all [is_some (route_id s "user:123"); route_id (route s "user:123").2 "user:123" == route_id s "user:123"].
Definition test_route_range : bool :=
  let s := shim_of Range [shard 0 (Some (0, 100)) true; shard 1 (Some (100, 200)) true] in
  all [route_id s "50" == Some 0; route_id s "150" == Some 1].
Definition test_route_range_non_numeric_fails : bool := is_err (route (shim_of Range [shard 0 (Some (0, 100)) true]) "abc").1.
Definition test_route_directory : bool :=
  let s := add_directory_mapping (add_directory_mapping (shim_of Directory [shard 0 None true; shard 1 None true]) "tenant-a" 0) "tenant-b" 1 in
  all [route_id s "tenant-a" == Some 0; route_id s "tenant-b" == Some 1].
Definition test_set_shard_health : bool :=
  let '(r, s) := set_shard_health (shim_of (strategy defaults) [shard 0 None true]) 0 false in
  all [r; (healthy <$> get_shard s 0) == Some false; negb (set_shard_health s 99 false).1].
Definition test_healthy_shards : bool :=
  length (healthy_shards (shim_of (strategy defaults) [shard 0 None true; shard 1 None false; shard 2 None true])) == 2%nat.
Definition test_hit_rate : bool :=
  near (hit_rate (defaults <| queries_routed := 80 |> <| queries_missed := 20 |>)) (f64_of "0.8") (f64_of "0.01").
Definition test_set_range : bool :=
  let '(r, s) := set_range (shim_of (strategy defaults) [shard 0 None true]) 0 0 100 in
  all [is_ok r; (range_start <$> get_shard s 0) == Some (Some 0); (range_end <$> get_shard s 0) == Some (Some 100)].

(** *** The tests of [integration-tests] *)

Definition three : string := "redis://localhost:6380,redis://localhost:6381,redis://localhost:6382".
Definition shards_at (addrs : string) : ShardingShim := new_sharding (with_vars [("SHARDING_ADDRESSES", addrs); ("SHARDING_VNODES", pretty vn)]).
(** The shards that answer for [n] numbered keys *)
Definition routed (prefix : string) (n : nat) (s : ShardingShim) : list Z :=
  omap (λ i, route_id s (prefix +:+ pretty (N.of_nat i))) (seq 0 n).
Definition spread (l : list Z) : nat := length (remove_dups l).
(** [n]: the number of keys, a thousand in the code *)
Definition test_sharding_hash_routing (n : nat) : bool :=
  let l := routed "user:" n (shards_at three) in all [length l == n; (2 <=? spread l)%nat].
Definition test_sharding_hash_determinism_and_distribution (n : nat) : bool :=
  let s := shards_at three in let l := routed "key:" n s in
  all [is_some (route_id s "user:42"); route_id (route s "user:42").2 "user:42" == route_id s "user:42"; length l == n; (2 <=? spread l)%nat].
Definition test_sharding_health_aware_routing : bool :=
  let s := shards_at "redis://localhost:6380,redis://localhost:6381" in
  let s := (set_shard_health (set_shard_health s 0 false).2 1 false).2 in
  all [length (healthy_shards s) == 0%nat; length (healthy_shards (set_shard_health s 0 true).2) == 1%nat].
Definition test_sharding_directory_routing : bool :=
  let s := add_directory_mapping (new_sharding (with_vars [("SHARDING_ADDRESSES", "redis://localhost:6380"); ("SHARDING_STRATEGY", "directory"); ("SHARDING_VNODES", pretty vn)])) "tenant-a" 0 in
  all [route_id s "tenant-a" == Some 0; is_none (route_id s "tenant-z")].

Definition sharding_integration_suite : list bool :=
  [test_sharding_hash_routing 12; test_sharding_hash_determinism_and_distribution 12; test_sharding_health_aware_routing;
   test_sharding_directory_routing].
Definition sharding_suite : list bool :=
  [test_strategy_parse; test_hash_key_deterministic; test_hash_key_distributes; test_route_hash_consistent; test_route_range;
   test_route_range_non_numeric_fails; test_route_directory; test_set_shard_health; test_healthy_shards; test_hit_rate; test_set_range].
End sharding_tests.

Example sharding_tests_pass :
  all (@sharding_suite canonical_order 4 ++ @sharding_integration_suite canonical_order 4) && all (@sharding_suite reversed_order 4) = true.
Proof. vm_compute. reflexivity. Qed.

End ShardingTests.

(** ** The tests of [queue-shim/src/lib.rs], on [Queue.v]

    Job ids are drawn by the test; the clock stands still. *)

Module QueueTests.
Import Prelude Queue Testing.
Open Scope test_scope.

#[local] Instance test_rfc : Rfc3339 := demo_rfc3339.
#[local] Instance JobStatus_eq_dec' : EqDecision JobStatus.
Proof. solve_decision. Defined.

Definition fresh_shim : QueueShim := new_queue (with_vars []).
(** [fail_job], with the pause between its halves over at once *)
Definition fail_job (id error : string) (q : QueueShim) : result string JobStatus * QueueShim :=
  match fail_job_begin id error q with
  | (FailSleeping job _, q) => let '(st, q) := fail_job_resume job q in (Ok st, q)
  | (FailDone r, q) => (r, q)
  end.
Definition enqueue_all (l : list string) (q : QueueShim) : QueueShim := foldl (λ q n, enqueue n [] n 0 q) q l.
Definition dequeue_ (q : QueueShim) : QueueShim := (dequeue 0 q).2.

Definition test_enqueue_dequeue : bool :=
  match dequeue 0 (enqueue "test-job" (b "payload") "id1" 0 fresh_shim) with
  | (Some job, _) => all [job_id job == "id1"; job_name job == "test-job"; status job == Running]
  | (None, _) => false
  end.
Definition test_dequeue_respects_worker_limit : bool :=
  let q := enqueue_all ["job-0"; "job-1"; "job-2"; "job-3"] fresh_shim in
  let '(r1, q) := dequeue 0 q in let '(r2, q) := dequeue 0 q in let '(r3, q) := dequeue 0 q in let '(r4, q) := dequeue 0 q in
  all [is_some r1; is_some r2; is_some r3; is_some r4; is_none (dequeue 0 q).1].
Definition test_complete_job : bool :=
  let '(r, q) := complete_job "done" (dequeue_ (enqueue_all ["done"] fresh_shim)) in
  all [is_ok r; jobs_processed q == 1; running_count q == 0%nat].
Definition test_complete_nonexistent_job : bool := is_err (complete_job "nope" fresh_shim).1.
Definition test_fail_job_retries : bool :=
  let '(r, q) := fail_job "flaky" "timeout" (dequeue_ (enqueue_all ["flaky"] fresh_shim)) in
  all [r == Ok Retrying; jobs_retried q == 1; pending_count q == 1%nat].
(** One round of the loops that fail a job until it is dead *)
Definition fail_round (id error : string) (q : QueueShim) : QueueShim :=
  let '(r, q) := fail_job id error q in if assert_eq r (Ok Retrying) then dequeue_ q else q.
Definition test_fail_job_dead_letter : bool :=
  let q := enqueue_all ["doomed"] fresh_shim in
  let q := Nat.iter 4 (λ q, fail_round "doomed" "fail" (dequeue_ q)) q in
  all [jobs_dead q == 1; dlq_length q == 1%nat].
Definition test_fail_nonexistent_job : bool := is_err (fail_job "nope" "err" fresh_shim).1.
Definition test_drain_dlq : bool :=
  let q := enqueue_all ["dlq-test"] (new_queue (with_vars [("QUEUE_RETRY_BASE_SECS", "0"); ("QUEUE_RETRY_MAX_SECS", "0")])) in
  let '(dlq, q) := drain_dlq (Nat.iter 4 (fail_round "dlq-test" "boom") (dequeue_ q)) in
  all [(job_id ∘ archived <$> dlq) == ["dlq-test"]; dlq_length q == 0%nat].
Definition test_queue_depth : bool :=
  let q := enqueue_all ["a"; "b"; "c"] fresh_shim in all [queue_depth q == 3; queue_depth (dequeue_ q) == 3].
Definition test_retry_delay_exponential : bool :=
  let d := retry_delay fresh_shim in all [d 1 <? d 2; d 0 <? d 1].
Definition test_retry_delay_capped : bool := retry_delay fresh_shim 20 <=? retry_max_secs fresh_shim.
Definition test_metrics : bool :=
  (snd <$> queue_metrics (fresh_shim <| jobs_enqueued := 100 |> <| jobs_processed := 80 |> <| jobs_failed := 10 |>
     <| jobs_retried := 8 |> <| jobs_dead := 2 |>)) == (f64_of_Z <$> [100; 80; 10; 8; 2]).
Definition test_env_config : bool :=
  let q := new_queue (with_vars [("QUEUE_MAX_WORKERS", "8"); ("QUEUE_MAX_RETRIES", "5")]) in
  all [max_workers q == 8; max_retries q == 5].
Definition test_job_attempts_tracked : bool :=
  match pending (fail_job "attempt-track" "err1" (dequeue_ (enqueue_all ["attempt-track"] fresh_shim))).2 with
  | j :: _ => all [attempts j == 1; last_error j == Some "err1"]
  | [] => false
  end.
(** A job that is there when the first worker looks, with the answer of the handler, a
    number of times *)
Definition worker_rounds (n : nat) (r : result string unit) : list queue_event :=
  concat (replicate n [EPop 0 0 0; ECheck 0 0; EHandled 0 r]).
Definition test_worker_processes_job : bool :=
  match sys_run (new_sys (with_vars []) true) (EEnqueue "worker-test" (b "123") "id" 0 :: worker_rounds 1 (Ok tt)) with
  | Some s => all [jobs_processed (Queue.shim s) == 1; running_count (Queue.shim s) == 0%nat; length (completed s) == 1%nat]
  | None => false
  end.
Definition test_worker_retries_on_failure : bool :=
  match sys_run (new_sys (with_vars []) true) (EEnqueue "retry-test" [] "id" 0 :: worker_rounds 2 (Err "simulated failure")) with
  | Some s => jobs_retried (Queue.shim s) == 2
  | None => false
  end.

(** *** The tests of [integration-tests] *)

Definition test_queue_job_lifecycle : bool :=
  let q0 := enqueue_all ["id1"; "id2"; "id3"] fresh_shim in
  let '(job, q1) := dequeue 0 q0 in
  let '(done, q2) := complete_job "id1" q1 in
  let '(job2, q3) := dequeue 0 q2 in
  let '(r, q4) := fail_job "id2" "timeout" q3 in
  all [queue_depth q0 == 3; (job_id <$> job) == Some "id1"; (status <$> job) == Some Running; running_count q1 == 1%nat;
       pending_count q1 == 2%nat; is_ok done; running_count q2 == 0%nat; (job_id <$> job2) == Some "id2"; r == Ok Retrying;
       pending_count q4 == 2%nat].
Definition test_queue_dlq_exhaustion : bool :=
  let q := Nat.iter 4 (λ q, fail_round "doomed" "persistent error" (dequeue_ q)) (enqueue_all ["doomed"] fresh_shim) in
  let '(dlq, _) := drain_dlq q in
  all [dlq_length q == 1%nat; (job_id ∘ archived <$> dlq) == ["doomed"]; forallb (λ r, str_contains r "persistent error") (reason <$> dlq)].
Definition test_queue_worker_processes_via_handler : bool :=
  match sys_run (new_sys (with_vars []) true) (EEnqueue "test-job" (b "123") "id" 0 :: worker_rounds 1 (Ok tt)) with
  | Some s => all [length (completed s) == 1%nat; running_count (Queue.shim s) == 0%nat]
  | None => false
  end.
Definition test_queue_retry_delay_properties : bool :=
  let d := retry_delay fresh_shim in all [d 0 <? d 1; d 1 <? d 2; d 2 <? d 5; d 20 <=? 300].
Definition test_queue_worker_limit_enforced : bool :=
  let q := enqueue_all ["j1"; "j2"; "j3"] (new_queue (with_vars [("QUEUE_MAX_WORKERS", "2")])) in
  let '(j1, q) := dequeue 0 q in let '(j2, q) := dequeue 0 q in
  all [(status <$> j1) == Some Running; (status <$> j2) == Some Running; is_none (dequeue 0 q).1].

(** The workers' steps in one of their orders *)
Definition e2e_queue_shim_worker_processes_jobs : bool :=
  match sys_run (new_sys (with_vars []) true)
          ([EEnqueue "email-send" (b "recipient=alice@example.com") "id1" 0; EEnqueue "report-gen" (b "type=monthly") "id2" 0;
            EEnqueue "data-sync" (b "table=users") "id3" 0] ++ worker_rounds 3 (Ok tt)) with
  | Some s => all [length (completed s) == 3%nat; jobs_processed (Queue.shim s) == 3; running_count (Queue.shim s) == 0%nat]
  | None => false
  end.
Definition e2e_queue_shim_retry_and_dlq : bool :=
  match sys_run (new_sys (with_vars []) true)
          (EEnqueue "doomed-job" [] "id" 0 :: worker_rounds 4 (Err "Simulated processing failure")) with
  | Some s => dlq_length (Queue.shim s) == 1%nat
  | None => false
  end.

Definition queue_integration_suite : list bool :=
  [test_queue_job_lifecycle; test_queue_dlq_exhaustion; test_queue_worker_processes_via_handler;
   test_queue_retry_delay_properties; test_queue_worker_limit_enforced;
   e2e_queue_shim_worker_processes_jobs;
   e2e_queue_shim_retry_and_dlq].
Definition queue_suite : list bool :=
  [test_enqueue_dequeue; test_dequeue_respects_worker_limit; test_complete_job; test_complete_nonexistent_job; test_fail_job_retries;
   test_fail_job_dead_letter; test_fail_nonexistent_job; test_drain_dlq; test_queue_depth; test_retry_delay_exponential;
   test_retry_delay_capped; test_metrics; test_env_config; test_job_attempts_tracked; test_worker_processes_job;
   test_worker_retries_on_failure].
Example queue_tests_pass : all (queue_suite ++ queue_integration_suite) = true.
Proof. vm_compute. reflexivity. Qed.

End QueueTests.

(** ** The tests of [scheduler-shim/src/lib.rs], on [Scheduler.v] and [SchedulerLoop.v]

    The cron expressions of the tests are read by a small parser: each fires at every
    multiple of a period. *)

Module SchedulerTests.
Import Prelude Scheduler SchedulerLoop Testing.
Open Scope test_scope.

Definition test_from_str (s : string) : result string positive :=
  if bool_decide (s = "0 0 * * * *") then Ok 3600000000000%positive
  else if bool_decide (s = "0 * * * * *") then Ok 60000000000%positive
  else if bool_decide (s = "*/1 * * * * *") then Ok 1000000000%positive else Err "Invalid expression".
#[local, program] Instance test_cron : Cron := {
  Schedule := positive;
  schedule_from_str := test_from_str;
  upcoming := @upcoming demo_cron
}.
Next Obligation. intros s now t. apply (upcoming_later (Cron := demo_cron)). Qed.
Next Obligation. intros s a b t. apply (upcoming_mono (Cron := demo_cron)). Qed.
#[local] Instance TaskState_eq_dec : EqDecision TaskState.
Proof. solve_decision. Defined.

Definition task_of (n s : string) (on : bool) : ScheduledTask := mkTask n s "echo" [] on 60 default_retry.
(** [serde_json] on the two values of the tests *)
Definition parse_tasks (s : string) : option (list ScheduledTask) :=
  if bool_decide (s = "t1") then Some [mkTask "t1" "0 * * * * *" "echo" [] true 60 (mkRetryConfig 2 5 60)]
  else if bool_decide (s = "two") then Some [task_of "active" "0 * * * * *" true; task_of "inactive" "0 * * * * *" false] else None.
Definition fresh_shim : SchedulerShim := new_scheduler parse_tasks (with_vars []) 0.
(** A shim with one task that waits, after [k] failures in a row *)
Definition shim_of (t : ScheduledTask) (k : Z) : SchedulerShim :=
  mkScheduler [t] (parse_schedules [t]) {[name t := mkRuntime TaskPending None None None k None]}
    (timezone fresh_shim) 0 0 0 false.
Definition runtime_of (n : string) (s : SchedulerShim) : option TaskRuntime := runtime s !! n.

Definition test_parse_valid_cron : bool := is_some (parse_schedules [task_of "backup" "0 0 * * * *" true] !! "backup").
Definition test_parse_invalid_cron : bool := is_none (parse_schedules [task_of "bad" "not-a-cron" true] !! "bad").
Definition test_validate_schedules : bool := validate_schedules fresh_shim == [].
(** [r]: the random factor *)
Definition test_retry_delay_exponential (r : f64) : bool :=
  let config := mkRetryConfig 5 2 100 in all [4 <=? retry_delay 2 config r; 2 <=? retry_delay 1 config r].
Definition test_retry_delay_capped (r : f64) : bool := retry_delay 5 (mkRetryConfig 10 10 20) r <=? 30.
Definition test_jitter_offset_range (draw : Z) : bool := jitter_offset draw <? MAX_JITTER_SECS.
Definition test_update_task_state : bool :=
  let s := shim_of (task_of "test" "0 * * * * *" true) 0 in
  let s1 := update_task_state "test" TaskRunning 1 s in
  let s2 := update_task_state "test" TaskSuccess 2 s1 in
  let s3 := update_task_state "test" TaskFailed 3 s2 in
  all [task_state s1 "test" == Some TaskRunning; is_some (runtime_of "test" s1 ≫= last_run);
       task_state s2 "test" == Some TaskSuccess; tasks_executed s2 == 1; is_some (runtime_of "test" s2 ≫= last_success);
       tasks_failed s3 == 1; (consecutive_failures <$> runtime_of "test" s3) == Some 1].
Definition test_consecutive_failures_reset_on_success : bool :=
  (consecutive_failures <$> runtime_of "flaky" (update_task_state "flaky" TaskSuccess 1 (shim_of (task_of "flaky" "0 * * * * *" true) 3)))
  == Some 0.
Definition test_list_tasks : bool := (fst ∘ fst <$> list_tasks (shim_of (task_of "backup" "0 0 * * * *" true) 0)) == ["backup"].
Definition test_metrics : bool :=
  length (scheduler_metrics (mkScheduler [] ∅ ∅ "UTC" 42 3 5 false)) == 4%nat.
Definition test_load_tasks_from_env : bool :=
  (name <$> tasks (new_scheduler parse_tasks (with_vars [("SCHEDULER_TASKS", "t1")]) 0)) == ["t1"].
Definition test_disabled_tasks_filtered : bool :=
  (name <$> tasks (new_scheduler parse_tasks (with_vars [("SCHEDULER_TASKS", "two")]) 0)) == ["active"].
(** Three seconds of turns, a second each *)
Definition test_scheduler_executes_task : bool :=
  match spawn_scheduler_loop true (shim_of (task_of "tick" "*/1 * * * * *" true) 0)
          ((λ k, let t := Z.of_nat k * 10 ^ 9 + 1 in mkTurn (λ _, t) t 0 0 false (λ _, Ok tt) (λ _, false) t) <$> seq 0 3) with
  | Some (_, ss, _) => 1 <=? Z.of_nat (length ss)
  | None => false
  end.

(** *** The tests of [integration-tests] *)

Definition tasks_shim (ts : list ScheduledTask) : SchedulerShim :=
  new_scheduler (λ _, Some ts) (with_vars [("SCHEDULER_TASKS", "tasks")]) 0.
Definition test_scheduler_cron_integration : bool :=
  let s := tasks_shim [mkTask "hourly-backup" "0 * * * * *" "backup.sh" ["--full"] true 600 (mkRetryConfig 3 5 300);
                       task_of "disabled-task" "0 0 * * * *" false] in
  all [(fst ∘ fst <$> list_tasks s) == ["hourly-backup"]; is_some (task_next_run s "hourly-backup"); is_none (task_state s "disabled-task")].
Definition test_scheduler_state_lifecycle : bool :=
  let s0 := tasks_shim [task_of "test" "0 * * * * *" true] in
  let s1 := update_task_state "test" TaskRunning 1 s0 in
  let s2 := update_task_state "test" TaskSuccess 2 s1 in
  all [task_state s0 "test" == Some TaskPending; task_state s1 "test" == Some TaskRunning; task_state s2 "test" == Some TaskSuccess;
       (state ∘ snd <$> list_tasks s2) == [TaskSuccess]; forallb (is_some ∘ last_success ∘ snd) (list_tasks s2)].

Definition e2e_scheduler_shim_fires_task : bool :=
  let s0 := tasks_shim [mkTask "e2e-test-task" "0 * * * * *" "echo" ["e2e"] true 60 (mkRetryConfig 1 1 5)] in
  let s1 := update_task_state "e2e-test-task" TaskRunning 1 s0 in
  let s2 := update_task_state "e2e-test-task" TaskSuccess 2 s1 in
  all [(fst ∘ fst <$> list_tasks s0) == ["e2e-test-task"]; is_some (task_next_run s0 "e2e-test-task");
       ((λ s, task_state s "e2e-test-task") <$> [s0; s1; s2]) == [Some TaskPending; Some TaskRunning; Some TaskSuccess];
       forallb (is_some ∘ last_success ∘ snd) (list_tasks s2)].

Definition scheduler_integration_suite : list bool :=
  [test_scheduler_cron_integration; test_scheduler_state_lifecycle;
   e2e_scheduler_shim_fires_task].
Definition scheduler_suite (r : f64) (draw : Z) : list bool :=
  [test_parse_valid_cron; test_parse_invalid_cron; test_validate_schedules; test_retry_delay_exponential r; test_retry_delay_capped r;
   test_jitter_offset_range draw; test_update_task_state; test_consecutive_failures_reset_on_success; test_list_tasks; test_metrics;
   test_load_tasks_from_env; test_disabled_tasks_filtered; test_scheduler_executes_task].
Example scheduler_tests_pass :
  all (scheduler_integration_suite ++ mjoin ((λ rd, scheduler_suite rd.1 rd.2) <$> [(f64_of_Z 0, 0); (f64_of "0.5", 59); (f64_of "0.99", 12345)])) = true.
Proof. vm_compute. reflexivity. Qed.

End SchedulerTests.
