(* ===== verification/TestTraffic.v ===== *)
(** * The tests of [proxy-shim] and [chaos-shim]

    One Module per shim or file; the conventions are those of [Testing.v]. *)

From S2P Require Import Prelude Testing.
From S2P Require Proxy Floats Chaos.

(** ** The tests of [proxy-shim/src/lib.rs], on [Proxy.v]

    The clock of a test is a number it moves itself: [sec] is a second. *)

Module ProxyTests.
Import Prelude Proxy Testing.
Open Scope test_scope.

#[local] Instance HandleRequestResult_eq_dec : EqDecision HandleRequestResult.
Proof. solve_decision. Defined.
#[local] Instance PoolStats_eq_dec : EqDecision PoolStats.
Proof. solve_decision. Defined.

Definition sec : Z := 10 ^ 9.
(** [loop_retry]'s delay with multiplier 2.0 and no jitter *)
Definition doubling (initial max attempt : Z) : Z := Z.min (initial * 2 ^ attempt) max.
Definition make_default_state : ProxyState := new_proxy (with_vars []).
Definition with_threshold (n : Z) : ProxyState := make_default_state <| circuit_threshold := n |>.
Definition with_reset (n secs : Z) : ProxyState := (with_threshold n) <| circuit_reset_secs := secs |>.
Definition fail (n : nat) (s : ProxyState) : ProxyState := Nat.iter n (record_failure 0) s.
Definition checked (now : Z) (s : ProxyState) : ProxyState := (check_circuit now s).2.
Definition requested (s : ProxyState) : ProxyState := (handle_request 0 s).2.

(** *** The circuit breaker *)

Definition test_circuit_starts_closed : bool := circuit_state make_default_state == Closed.
Definition test_check_circuit_closed : bool := (check_circuit 0 make_default_state).1.
Definition test_circuit_opens_after_threshold : bool :=
  let s := with_threshold 3 in
  all [circuit_state (fail 2 s) == Closed; circuit_state (fail 3 s) == Open; is_some (open_since (fail 3 s))].
Definition test_record_success_resets_failures : bool :=
  let s := fail 2 make_default_state in all [circuit_failures s == 2; circuit_failures (record_success s) == 0].
Definition test_circuit_half_open_to_closed : bool :=
  let s := fail 1 (with_threshold 1) in
  let s' := record_success (s <| circuit_state := HalfOpen |> <| half_open_inflight := false |>) in
  all [circuit_state s == Open; circuit_state s' == Closed; is_none (open_since s')].
Definition test_circuit_open_to_half_open_after_timeout : bool :=
  let s := fail 1 (with_reset 1 0) in
  all [circuit_state s == Open; (check_circuit 0 s).1; circuit_state (checked 0 s) == HalfOpen].
Definition test_circuit_half_open_rejects_concurrent : bool :=
  let '(r, s) := check_circuit 0 (fail 1 (with_reset 1 0)) in
  all [r; circuit_state s == HalfOpen; negb (check_circuit 0 s).1].
Definition test_circuit_half_open_failure_reopens : bool :=
  let s := checked 0 (fail 1 (with_reset 1 0)) in all [circuit_state s == HalfOpen; circuit_state (fail 1 s) == Open].
Definition test_circuit_full_lifecycle_closed_open_half_closed : bool :=
  let s := with_reset 3 60 in
  let '(r1, s1) := handle_request 0 s in
  let s2 := fail 2 s1 in let s3 := fail 1 s2 in
  let '(r2, s4) := handle_request 0 s3 in
  let '(r3, s5) := check_circuit (120 * sec) s4 in
  let s6 := record_success s5 in
  all [circuit_state s == Closed; r1; circuit_state s2 == Closed; circuit_state s3 == Open; negb r2; r3;
       circuit_state s5 == HalfOpen; circuit_state s6 == Closed; (handle_request (120 * sec) s6).1].
Definition test_circuit_threshold_exact_n_failures : bool :=
  let s := with_threshold 5 in all [circuit_state (fail 4 s) == Closed; circuit_state (fail 5 s) == Open].
Definition test_circuit_timeout_half_open_after_cooldown : bool :=
  let s := fail 1 (with_reset 1 60) in
  all [circuit_state s == Open; negb (check_circuit 0 s).1; circuit_state (checked 0 s) == Open;
       (check_circuit (120 * sec) (checked 0 s)).1; circuit_state (checked (120 * sec) (checked 0 s)) == HalfOpen].
Definition test_circuit_success_resets_failure_counter : bool :=
  let s := fail 4 make_default_state in
  all [circuit_failures s == 4; circuit_failures (record_success s) == 0; circuit_state (fail 4 (record_success s)) == Closed].
Definition test_circuit_half_open_failure_reopens_v2 : bool :=
  let s := checked 0 (fail 1 (with_reset 1 0)) in
  all [circuit_state s == HalfOpen; circuit_state (fail 1 s) == Open; is_some (open_since (fail 1 s))].
Definition test_timeout_enforcement_via_check_circuit : bool :=
  let '(r, s) := check_circuit 0 (fail 1 (with_reset 1 60)) in all [negb r; circuit_state s == Open].
Definition test_circuit_open_since_timestamp_recorded : bool :=
  all [is_none (open_since (with_threshold 1)); is_some (open_since (fail 1 (with_threshold 1)))].
Definition test_circuit_half_open_inflight_flag : bool :=
  let s := fail 1 (with_reset 1 0) in all [negb (half_open_inflight s); half_open_inflight (checked 0 s)].
Definition test_circuit_state_transitions_serial : bool :=
  let s := with_reset 2 0 in
  let s3 := checked 0 (fail 2 s) in
  (circuit_state <$> [s; fail 1 s; fail 2 s; s3; record_success s3; fail 2 (record_success s3)])
  == [Closed; Closed; Open; HalfOpen; Closed; Open].
Definition test_circuit_state_display : bool :=
  (circuit_display <$> [Closed; Open; HalfOpen]) == ["closed"; "open"; "half_open"].

(** *** Requests, with and without degradation *)

Definition test_handle_request_allows_when_closed : bool :=
  let '(r, s) := handle_request 0 make_default_state in all [r; requests_total s == 1].
Definition test_handle_request_rejects_when_open : bool :=
  let '(r, s) := handle_request 0 (fail 1 (with_threshold 1)) in all [negb r; requests_circuit_broken s == 1].
Definition test_handle_request_rejects_when_circuit_open : bool :=
  let s := fail 1 (with_threshold 1) in
  all [forallb (λ k, negb (handle_request 0 (Nat.iter k requested s)).1) (seq 0 10);
       requests_circuit_broken (Nat.iter 10 requested s) == 10].
Definition degrading (n secs : Z) : ProxyState := (with_reset n secs) <| graceful_degradation_enabled := true |>.
Definition ask_for (k : string) (s : ProxyState) : HandleRequestResult * ProxyState := handle_request_with_degradation k 0 s.
Definition test_graceful_degradation_disabled_by_default : bool := negb (is_graceful_degradation_enabled make_default_state).
Definition test_graceful_degradation_cache_and_serve : bool :=
  let s := cache_response "req-1" (b "cached-data") (degrading 1 30) in
  let s1 := fail 1 s in
  let '(r, s2) := handle_request 0 s1 in
  let '(r1, s3) := ask_for "req-1" s2 in let '(r2, s4) := ask_for "req-unknown" s3 in
  all [get_cached_response "req-1" s == Some (b "cached-data"); is_none (get_cached_response "req-2" s); circuit_state s1 == Open;
       negb r; r1 == ServedFromCache (b "cached-data"); stale_responses_total s3 == 1; r2 == Rejected; stale_responses_total s4 == 1].
Definition test_graceful_degradation_disabled_rejects_when_open : bool :=
  let '(r, s) := ask_for "req-1" (fail 1 (cache_response "req-1" (b "cached-data") (with_threshold 1))) in
  all [r == Rejected; stale_responses_total s == 0].
Definition test_graceful_degradation_allows_when_closed : bool :=
  let '(r, s) := ask_for "any-key" (degrading 5 30) in all [r == Allowed; stale_responses_total s == 0].
Definition test_graceful_degradation_half_open_rejects_concurrent : bool :=
  let '(r1, s) := ask_for "req-1" (fail 1 (degrading 1 0)) in all [r1 == Allowed; (ask_for "req-1" s).1 == Rejected].
Definition test_stale_cache_cleared_on_recovery : bool :=
  let s := fail 1 (cache_response "req-1" (b "cached") (degrading 1 0)) in
  let '(r1, s) := ask_for "req-1" s in let '(r2, s) := ask_for "req-uncached" s in
  let s := record_success s in
  all [r1 == ServedFromCache (b "cached"); r2 == Allowed; circuit_state s == Closed; (ask_for "req-1" s).1 == Allowed].
Definition test_handle_request_with_degradation_open_no_cache_rejects : bool :=
  (ask_for "missing" (fail 1 (degrading 1 30))).1 == Rejected.
Definition test_handle_request_with_degradation_half_open_allows_one : bool :=
  let '(r1, s) := ask_for "key" (fail 1 (degrading 1 0)) in all [r1 == Allowed; (ask_for "key" s).1 == Rejected].

(** *** Rate limit *)

Definition drained (n : nat) (k : TokenBucket) : TokenBucket := Nat.iter n (λ k, (try_consume 0 k).2) k.
Definition test_token_bucket_fill_and_drain : bool :=
  let k := new_bucket (f64_of_Z 10) 5 0 in
  all [tokens k == f64_of_Z 5; forallb (λ n, (try_consume 0 (drained n k)).1) (seq 0 5); negb (try_consume 0 (drained 5 k)).1;
       (try_consume sec (drained 5 k)).1; near (tokens (try_consume sec (drained 5 k)).2) (f64_of_Z 4) (f64_of "0.1")].
Definition test_token_bucket_burst_cap : bool :=
  let k := new_bucket (f64_of_Z 100) 3 0 in
  all [tokens k == f64_of_Z 3; near (tokens (refill (10 * sec) k)) (f64_of_Z 3) (f64_of "0.1")].
Definition test_rate_limit_no_config : bool := (check_rate_limit 0 make_default_state).1.
Definition limited (n : nat) (s : ProxyState) : ProxyState := Nat.iter n (λ s, (check_rate_limit 0 s).2) s.
Definition test_rate_limit_token_bucket_drain : bool :=
  let s := set_rate_limit (mkRateLimit 2 2 1) 0 make_default_state in
  ((λ n, (check_rate_limit 0 (limited n s)).1) <$> seq 0 3) == [true; true; false].
Definition test_rate_limit_refill_after_wait : bool :=
  let s := set_rate_limit (mkRateLimit 10 1 1) 0 make_default_state in
  all [(check_rate_limit 0 s).1; negb (check_rate_limit 0 (limited 1 s)).1; (check_rate_limit sec (limited 2 s)).1].
Definition test_rate_limit_integration_with_circuit : bool :=
  let s := set_rate_limit (mkRateLimit 1 1 1) 0 (with_threshold 1) in
  all [(check_rate_limit 0 s).1; negb (check_rate_limit 0 (limited 1 s)).1; negb (handle_request 0 (fail 1 (limited 2 s))).1].

(** *** Backends, routes, pool *)

Definition with_backends (l : list (string * Z * bool)) : ProxyState :=
  foldl (λ s e, register_backend e.1.1 e.1.2 e.2 s) make_default_state l.
Definition chosen (n : nat) (s : ProxyState) : list (option string) := (select_times n s).1.
Definition count (a : string) (l : list (option string)) : nat := length (filter (λ o, o = Some a) l).
Definition test_weighted_round_robin : bool :=
  let l := chosen 60 (with_backends [("A:5432", 2, true); ("B:5432", 1, true)]) in
  all [count "A:5432" l == 40%nat; count "B:5432" l == 20%nat].
Definition test_round_robin_skips_unhealthy : bool :=
  forallb (λ o, bool_decide (o = Some "A:5432" ∨ o = Some "C:5432"))
    (chosen 6 (with_backends [("A:5432", 1, true); ("B:5432", 1, false); ("C:5432", 1, true)])).
Definition test_select_backend_none_when_all_unhealthy : bool :=
  is_none (select_backend (with_backends [("a:5432", 1, false); ("b:5432", 1, false)])).1.
Definition test_select_backend_single_weight : bool :=
  chosen 10 (with_backends [("only:5432", 5, true)]) == replicate 10 (Some "only:5432").
Definition test_weighted_routing_heavy_light : bool :=
  let l := chosen 100 (with_backends [("heavy:5432", 9, true); ("light:5432", 1, true)]) in
  all [(80 <? count "heavy:5432" l)%nat; (0 <? count "light:5432" l)%nat].
Definition test_weighted_routing_all_equal : bool :=
  let l := chosen 300 (with_backends [("a:5432", 1, true); ("b:5432", 1, true); ("c:5432", 1, true)]) in
  ((λ a, count a l) <$> ["a:5432"; "b:5432"; "c:5432"]) == [100; 100; 100]%nat.
Definition test_weighted_routing_skips_unhealthy_heavy : bool :=
  chosen 50 (with_backends [("healthy:5432", 10, true); ("dead:5432", 100, false)]) == replicate 50 (Some "healthy:5432").
Definition delays (base attempts : Z) (l : list Z) : list Z :=
  (λ k, retry_delay_ms doubling k (make_default_state <| retry_base_ms := base |> <| retry_attempts := attempts |>)) <$> l.
Definition test_retry_delay_exponential : bool := delays 100 3 [0; 1; 2; 3] == [0; 100; 200; 400].
Definition test_retry_delay_exponential_backoff_values : bool := delays 50 4 [0; 1; 2; 3; 4] == [0; 50; 100; 200; 400].
Definition test_retry_delay_capped_at_max : bool := delays 100 2 [5] == [400].
Definition test_route_matching : bool :=
  let s := add_route_rule (mkRouteRule "/api/v2" "backend-v2:5432" 100 true)
             (add_route_rule (mkRouteRule "/api/v1" "backend-v1:5432" 100 true) make_default_state) in
  all [route "/api/v1/users" s == Some "backend-v1:5432"; route "/api/v2/orders" s == Some "backend-v2:5432"; is_none (route "/other/path" s)].
Definition test_route_unhealthy_skipped : bool :=
  is_none (route "/api/test" (add_route_rule (mkRouteRule "/api" "backend-v1:5432" 100 false) make_default_state)).
Definition test_pool_stats : bool :=
  let st := pool_stats (make_default_state <| connections_active := 5 |> <| connections_total := 20 |>) in
  all [pool_active st == 5; pool_idle st == 15; pool_total st == 20].
Definition test_connection_pool_exhaustion_behavior : bool :=
  let s := make_default_state <| max_connections := 2 |> in
  let st := pool_stats (requested (requested s)) in
  all [(handle_request 0 s).1; (handle_request 0 (requested s)).1; pool_active st == 1; pool_total st == 2].
Definition test_connection_pool_active_increments_on_request : bool :=
  let s := make_default_state in
  all [pool_active (pool_stats s) == 0; pool_active (pool_stats (requested s)) == 1;
       pool_active (pool_stats (requested (requested s))) == 1; pool_total (pool_stats (requested (requested s))) == 2].
Definition test_pool_stats_reflect_state : bool :=
  let s := make_default_state in
  let st := pool_stats (Nat.iter 3 requested s) in
  all [pool_active (pool_stats s) == 0; pool_total (pool_stats s) == 0; pool_idle (pool_stats s) == 0;
       pool_active st == 1; pool_total st == 3; pool_idle st == 2].
Definition test_metrics : bool :=
  let m := proxy_metrics (make_default_state <| connections_active := 10 |> <| connections_total := 50 |> <| requests_total := 100 |>
    <| requests_retried := 5 |> <| requests_circuit_broken := 3 |> <| circuit_state := HalfOpen |> <| circuit_failures := 7 |>) in
  all [length m == 8%nat; m !! 4%nat == Some ("proxy_requests_circuit_broken", f64_of_Z 3); (snd <$> m !! 5%nat) == Some (f64_of_Z 2);
       m !! 7%nat == Some ("proxy_stale_responses_total", f64_of_Z 0)].
Definition test_metrics_reflect_circuit_open_state : bool :=
  let m := proxy_metrics (fail 1 (with_threshold 1)) in
  all [metric m "proxy_circuit_state" == Some (f64_of_Z 1); metric m "proxy_circuit_failures" == Some (f64_of_Z 1)].

(** *** The tests of [integration-tests] *)

Definition proxy_env (degrade threshold reset : string) : ProxyState :=
  new_proxy (with_vars [("PROXY_GRACEFUL_DEGRADATION", degrade); ("PROXY_CIRCUIT_THRESHOLD", threshold); ("PROXY_CIRCUIT_RESET_SECS", reset)]).
Definition served (r : HandleRequestResult) : bool := match r with ServedFromCache _ => true | _ => false end.
Definition test_proxy_graceful_degradation_config : bool :=
  let degrades v := is_graceful_degradation_enabled (new_proxy (with_vars v)) in
  all [degrades [("PROXY_GRACEFUL_DEGRADATION", "true")]; negb (degrades [("PROXY_GRACEFUL_DEGRADATION", "false")]); negb (degrades [])].
Definition test_proxy_serves_stale_when_circuit_open : bool :=
  let s := cache_response "/api/users" (b "users") (proxy_env "true" "2" "30") in
  let s := fail 3 (cache_response "/api/orders" (b "orders") s) in
  let '(r1, s) := ask_for "/api/users" s in let '(r2, s) := ask_for "/api/orders" s in let '(r3, s) := ask_for "/api/unknown" s in
  all [r1 == ServedFromCache (b "users"); served r2; r3 == Rejected; stale_responses_total s == 2].
Definition test_proxy_degradation_disabled_rejects : bool :=
  let '(r, s) := ask_for "/api/users" (fail 3 (cache_response "/api/users" (b "data") (proxy_env "false" "2" "30"))) in
  all [r == Rejected; stale_responses_total s == 0].
Definition test_proxy_stale_responses_metric : bool :=
  let s := fail 3 (cache_response "key1" (b "val1") (proxy_env "true" "2" "30")) in
  let s := Nat.iter 3 (λ s, (ask_for "key1" s).2) s in
  all [stale_responses_total s == 3; metric (proxy_metrics s) "proxy_stale_responses_total" == Some (f64_of_Z 3)].
Definition test_proxy_recovery_after_degradation : bool :=
  let s := fail 3 (cache_response "key1" (b "stale") (proxy_env "true" "2" "0")) in
  let '(r1, s) := ask_for "key1" s in let '(r2, s) := ask_for "key-uncached" s in
  let '(r3, s) := ask_for "key1" (record_success s) in
  all [served r1; r2 == Allowed; r3 == Allowed; stale_responses_total s == 1].

Definition proxy_integration_suite : list bool :=
  [test_proxy_graceful_degradation_config; test_proxy_serves_stale_when_circuit_open; test_proxy_degradation_disabled_rejects;
   test_proxy_stale_responses_metric; test_proxy_recovery_after_degradation].
Definition proxy_suite : list bool :=
  [test_circuit_starts_closed; test_check_circuit_closed; test_circuit_opens_after_threshold; test_record_success_resets_failures;
   test_circuit_half_open_to_closed; test_circuit_open_to_half_open_after_timeout; test_circuit_half_open_rejects_concurrent;
   test_circuit_half_open_failure_reopens; test_circuit_full_lifecycle_closed_open_half_closed; test_circuit_threshold_exact_n_failures;
   test_circuit_timeout_half_open_after_cooldown; test_circuit_success_resets_failure_counter; test_circuit_half_open_failure_reopens_v2;
   test_timeout_enforcement_via_check_circuit; test_circuit_open_since_timestamp_recorded; test_circuit_half_open_inflight_flag;
   test_circuit_state_transitions_serial; test_circuit_state_display; test_handle_request_allows_when_closed;
   test_handle_request_rejects_when_open; test_handle_request_rejects_when_circuit_open; test_graceful_degradation_disabled_by_default;
   test_graceful_degradation_cache_and_serve; test_graceful_degradation_disabled_rejects_when_open;
   test_graceful_degradation_allows_when_closed; test_graceful_degradation_half_open_rejects_concurrent;
   test_stale_cache_cleared_on_recovery; test_handle_request_with_degradation_open_no_cache_rejects;
   test_handle_request_with_degradation_half_open_allows_one; test_token_bucket_fill_and_drain; test_token_bucket_burst_cap;
   test_rate_limit_no_config; test_rate_limit_token_bucket_drain; test_rate_limit_refill_after_wait;
   test_rate_limit_integration_with_circuit; test_weighted_round_robin; test_round_robin_skips_unhealthy;
   test_select_backend_none_when_all_unhealthy; test_select_backend_single_weight; test_weighted_routing_heavy_light;
   test_weighted_routing_all_equal; test_weighted_routing_skips_unhealthy_heavy; test_retry_delay_exponential;
   test_retry_delay_exponential_backoff_values; test_retry_delay_capped_at_max; test_route_matching; test_route_unhealthy_skipped;
   test_pool_stats; test_connection_pool_exhaustion_behavior; test_connection_pool_active_increments_on_request;
   test_pool_stats_reflect_state; test_metrics; test_metrics_reflect_circuit_open_state].
Example proxy_tests_pass : all (proxy_suite ++ proxy_integration_suite) = true.
Proof. vm_compute. reflexivity. Qed.

End ProxyTests.

(** ** The tests of [chaos-shim/src/lib.rs], on [Chaos.v]

    [r1] and [r2] are the random numbers a request draws. *)

Module ChaosTests.
Import Prelude Floats Chaos Testing.
Open Scope test_scope.

#[local] Instance test_rfc : Rfc3339 := demo_rfc3339.
#[local] Existing Instance canonical_order.

Definition shim0 : ChaosShim := new_chaos (with_vars []).
Definition on : ChaosShim := shim0 <| enabled := true |> <| target := "all" |> <| blast_radius := f64_of_Z 1 |>.
Definition orch0 : ChaosOrchestrator := new_orchestrator (with_vars []).
#[local] Instance orch_settable : Settable ChaosOrchestrator := λ o,
  mkOrchestrator (orch_enabled o) (running o) (experiment_history o) (schedules o) (orch_counter o) (total_faults o) (blast_radius_limit o).
Definition orch_on : ChaosOrchestrator := orch0 <| orch_enabled := true |>.
Definition half_ : f64 := f64_of "0.5".
Definition one : f64 := f64_of_Z 1.
Definition close_to (x : f64) (y : string) : bool := near x (f64_of y) (f64_of "0.01").

Section chaos_tests.
Context (r1 r2 : f64).

(** A request: its answer, and the shim after it *)
Definition ask (q : string) (s : ChaosShim) : InjectionResult * ChaosShim :=
  default (mkInjection false Latency (Some "panic") 0, s) (evaluate 0 r1 r2 q s).
Definition injects (q : string) (s : ChaosShim) : option FaultType :=
  let r := (ask q s).1 in if injected r then Some (fault_type r) else None.

Definition test_fault_type_display : bool := (fault_display <$> [Latency; Error; Partition]) == ["latency"; "error"; "partition"].
Definition test_fault_type_display_all_variants : bool :=
  (fault_display <$> [Latency; Error; Partition; Kill; PacketLoss]) == ["latency"; "error"; "partition"; "kill"; "packet_loss"].
Definition test_new_defaults : bool :=
  all [negb (enabled shim0); latency_ms shim0 == 0; error_rate shim0 == f64_of_Z 0; blast_radius shim0 == one].
Definition test_evaluate_disabled : bool :=
  let '(r, s) := ask "service-a" shim0 in all [negb (injected r); faults_suppressed s == 1].
Definition test_evaluate_latency : bool :=
  let '(r, s) := ask "service-a" (on <| latency_ms := 500 |>) in
  all [injected r; fault_type r == Latency; delay_ms r == 500; faults_injected s == 1].
Definition test_evaluate_partition : bool := injects "service-a" (on <| partition := true |>) == Some Partition.
Definition test_evaluate_target_mismatch : bool :=
  is_none (injects "service-a" (on <| latency_ms := 100 |> <| target := "service-b" |>)).
Definition test_start_and_stop_experiment : bool :=
  let '(e, s) := start_experiment 0 "test-lag" Latency "service-a" half_ 60 shim0 in
  let '(r, s) := stop_experiment 0 (id e) s in
  all [exp_enabled e; r; (exp_enabled <$> get_experiment (id e) s) == Some false].
Definition test_stop_nonexistent_experiment : bool := negb (stop_experiment 0 "nonexistent" shim0).1.
Definition test_active_experiments : bool :=
  let '(_, s) := start_experiment 0 "exp1" Latency "all" one 60 shim0 in
  let '(e2, s) := start_experiment 0 "exp2" Error "all" one 60 s in
  length (active_experiments (stop_experiment 0 (id e2) s).2) == 1%nat.
Definition test_set_error_rate_clamped : bool :=
  ((λ x, error_rate (set_error_rate (f64_of x) shim0)) <$> ["1.5"; "-0.5"; "0.75"]) == [one; f64_of_Z 0; f64_of "0.75"].
Definition test_injection_rate : bool := close_to (injection_rate (shim0 <| faults_injected := 8 |> <| faults_suppressed := 2 |>)) "0.8".
Definition test_injection_rate_zero : bool := injection_rate shim0 == f64_of_Z 0.
Definition test_is_active : bool :=
  let '(_, s) := start_experiment 0 "exp" Latency "all" one 60 (shim0 <| enabled := true |>) in
  all [is_active s; negb (is_active (set_enabled false s))].
Definition test_is_active_no_experiments : bool := negb (is_active (shim0 <| enabled := true |>)).
Definition test_metrics : bool :=
  let '(_, s) := start_experiment 0 "exp" Latency "all" one 60
    (shim0 <| enabled := true |> <| faults_injected := 10 |> <| faults_suppressed := 3 |> <| error_rate := half_ |>) in
  let v := snd <$> chaos_metrics s in
  all [length v == 6%nat; v !! 0%nat == Some one; v !! 1%nat == Some (f64_of_Z 10); v !! 3%nat == Some one; v !! 5%nat == Some half_].
Definition test_experiment_expiry : bool :=
  let '(e, s) := start_experiment 0 "expired" Latency "all" one 0 (shim0 <| enabled := true |>) in
  let e' := get_experiment (id e) (ask "all" s).2 in all [(exp_enabled <$> e') == Some false; is_some (e' ≫= ended_at)].
Definition test_blast_radius_with_random : bool :=
  let r := (ask "service-a" (on <| latency_ms := 100 |> <| blast_radius := f64_of_Z 0 |>)).1 in
  all [negb (injected r); reason r == Some "Blast radius exclusion"].
Definition test_apply_latency : bool := apply_latency (mkInjection true Latency None 10) == Some 10.
Definition test_latency_injection_timing_accuracy : bool := apply_latency (mkInjection true Latency None 50) == Some 50.
Definition test_no_latency_when_not_injected : bool := is_none (apply_latency (mkInjection false Latency None 100)).
Definition test_inject_error : bool :=
  all [is_err (inject_error (mkInjection true Error None 0)); is_ok (inject_error (mkInjection false Error None 0))].
Definition test_inject_error_on_partition_returns_ok : bool := is_ok (inject_error (mkInjection true Partition None 0)).
Definition test_inject_error_on_latency_returns_ok : bool := is_ok (inject_error (mkInjection true Latency None 100)).
Definition test_full_experiment_lifecycle : bool :=
  let '(e, s) := start_experiment 0 "lifecycle-test" Latency "all" one 30 (on <| latency_ms := 100 |>) in
  let '(ra, s) := ask "service-a" s in let '(rb, s) := ask "service-b" s in
  let '(r, s') := stop_experiment 0 (id e) s in
  let e' := get_experiment (id e) s' in
  all [exp_enabled e; is_some (started_at e); is_none (ended_at e); exp_faults_injected e == 0; injected ra; fault_type ra == Latency;
       delay_ms ra == 100; injected rb; faults_injected s == 2; r; (exp_enabled <$> e') == Some false; is_some (e' ≫= ended_at);
       match metric (chaos_metrics s') "chaos_faults_injected" with Some v => f64_gt v (f64_of_Z 0) | None => false end].
Definition test_all_fault_types_evaluation : bool :=
  (injects "svc" <$> [on <| latency_ms := 200 |>; on <| partition := true |>; on <| kill_probability := one |>; on <| error_rate := one |>])
  == [Some Latency; Some Partition; Some Kill; Some Error].
Definition test_concurrent_experiment_execution : bool :=
  let s := on <| latency_ms := 50 |> in
  let '(e1, s) := start_experiment 0 "concurrent-1" Latency "all" one 60 s in
  let '(e2, s) := start_experiment 0 "concurrent-2" Error "all" half_ 30 s in
  let '(e3, s3) := start_experiment 0 "concurrent-3" Partition "all" one 120 s in
  let '(b2, s2) := stop_experiment 0 (id e2) s3 in
  let '(b1, s1) := stop_experiment 0 (id e1) s2 in
  let '(b3, s0) := stop_experiment 0 (id e3) s1 in
  all [length (active_experiments s3) == 3%nat; is_active s3; b2; length (active_experiments s2) == 2%nat; b1; b3;
       length (active_experiments s0) == 0%nat; negb (is_active s0)].
Definition test_fault_metrics_collection_and_reporting : bool :=
  let '(_, s) := start_experiment 0 "metrics-test" Latency "all" one 60
    (on <| latency_ms := 100 |> <| error_rate := half_ |> <| faults_injected := 42 |> <| faults_suppressed := 8 |>) in
  let m := chaos_metrics s in
  all [(fst <$> m) == ["chaos_enabled"; "chaos_faults_injected"; "chaos_faults_suppressed"; "chaos_active_experiments";
                       "chaos_injection_rate"; "chaos_error_rate"];
       (snd <$> take 4 m) == (f64_of_Z <$> [1; 42; 8; 1]);
       from_option (λ v, close_to v "0.84") false (metric m "chaos_injection_rate"); metric m "chaos_error_rate" == Some half_].
Definition test_disabled_shim_metrics : bool := (snd <$> take 2 (chaos_metrics shim0)) == [f64_of_Z 0; f64_of_Z 0].
Definition test_error_rate_threshold_filtering : bool :=
  let s := on <| error_rate := one |> in
  forallb (λ k, injected (ask "svc" (Nat.iter k (λ s, (ask "svc" s).2) s)).1) (seq 0 100).
Definition test_target_matching_specific : bool :=
  let s := on <| latency_ms := 100 |> <| target := "web-1" |> in
  let r := (ask "web-2" s).1 in
  all [injected (ask "web-1" s).1; negb (injected r); reason r == Some "Target mismatch"].
Definition test_target_matching_all : bool :=
  forallb (λ q, injected (ask q (on <| latency_ms := 100 |>)).1) ["web-1"; "db-1"; "anything"].
Definition test_experiment_blast_radius_clamping : bool :=
  all [close_to (exp_blast_radius (start_experiment 0 "clamp" Latency "all" (f64_of "2.5") 60 shim0).1) "1.0";
       close_to (exp_blast_radius (start_experiment 0 "clamp2" Latency "all" (f64_of "-0.5") 60 shim0).1) "0.0"].
Definition test_active_fault_type_priority : bool :=
  (active_fault_type <$> [shim0 <| partition := true |> <| latency_ms := 100 |>; shim0 <| latency_ms := 100 |> <| error_rate := half_ |>;
     shim0 <| error_rate := half_ |> <| kill_probability := one |>; shim0 <| kill_probability := half_ |>; shim0])
  == [Partition; Latency; Error; Kill; Latency].
Definition test_chaos_shim_init_and_start_stop : bool :=
  let s := stop (λ _, 0) (start_experiment 0 "left" Latency "all" one 60 shim0).2 in
  forallb (λ e, negb (exp_enabled e) && is_some (ended_at e)) (hash_values (experiments s)).

(** *** The orchestrator *)

Definition start_ok (n : string) (f : FaultType) (t : string) (x : f64) (d : Z) (o : ChaosOrchestrator) : string * ChaosOrchestrator :=
  let '(r, o) := orch_start 0 n f t x d o in (match r with Ok i => i | Err e => "error: " +:+ e end, o).
Definition radius_of (i : string) (o : ChaosOrchestrator) : f64 := from_option exp_blast_radius (f64_of_Z (-1)) (running o !! i).
Definition test_orchestrator_default_disabled : bool :=
  all [negb (orch_enabled orch0); active_count orch0 == 0; completed_count orch0 == 0].
Definition test_orchestrator_start_experiment_disabled : bool :=
  (orch_start 0 "test" Latency "all" half_ 60 orch0).1 == Err "Orchestrator is disabled".
Definition test_orchestrator_start_experiment_enabled : bool :=
  let '(i, o) := start_ok "test-latency" Latency "service-a" half_ 60 orch_on in
  all [starts_with i "orch-exp-"; active_count o == 1;
       match running o !! i with
       | Some e => all [exp_name e == "test-latency"; exp_fault e == Latency; exp_target e == "service-a"; close_to (exp_blast_radius e) "0.5"]
       | None => false
       end].
Definition test_orchestrator_blast_radius_capped : bool :=
  let '(i, o) := start_ok "test" Error "all" (f64_of "0.9") 60 (set_blast_radius_limit (f64_of "0.3") orch_on) in close_to (radius_of i o) "0.3".
Definition test_orchestrator_blast_radius_global_limit : bool :=
  let '(i1, o) := start_ok "a" Latency "all" half_ 60 (set_blast_radius_limit (f64_of "0.2") orch_on) in
  let '(i2, o) := start_ok "b" Error "all" one 60 o in let '(i3, o) := start_ok "c" Partition "all" (f64_of "0.1") 60 o in
  all [close_to (radius_of i1 o) "0.2"; close_to (radius_of i2 o) "0.2"; close_to (radius_of i3 o) "0.1"].
Definition test_orchestrator_stop_experiment : bool :=
  let '(i, o) := start_ok "test" Latency "all" one 60 orch_on in
  let '(r, o) := orch_stop 0 i o in
  all [r; (exp_enabled <$> running o !! i) == Some false; is_some (running o !! i ≫= ended_at)].
Definition test_orchestrator_stop_all : bool :=
  let '(_, o) := start_ok "exp1" Latency "all" one 60 orch_on in let '(_, o) := start_ok "exp2" Error "all" one 60 o in
  all [active_count o == 2; forallb (negb ∘ exp_enabled) (hash_values (running (stop_all (λ _, 0) o)))].
Definition test_orchestrator_complete_experiment : bool :=
  let '(i, o) := start_ok "test" Partition "db-1" one 30 orch_on in
  let '(r, o) := complete_experiment 0 i true o in
  all [r; active_count o == 0; completed_count o == 1; (experiment_id <$> experiment_history o) == [i];
       (success <$> experiment_history o) == [true]].
Definition test_orchestrator_complete_nonexistent : bool := negb (complete_experiment 0 "nonexistent" true orch0).1.
Definition can (i : string) (k : nat) (o : ChaosOrchestrator) : bool := can_run_scheduled i (Nat.iter k (record_scheduled_run i) o).
Definition test_orchestrator_schedules : bool :=
  let o := register_schedule "exp-1" "0 */6 * * *" (Some 3) orch0 in
  all [can "exp-1" 0 o; negb (can_run_scheduled "nonexistent" o); can "exp-1" 2 o; negb (can "exp-1" 3 o)].
Definition test_experiment_scheduling_lifecycle : bool :=
  let '(i, o) := start_ok "sched-test" Latency "all" one 60 orch_on in
  let o := register_schedule i "0 */2 * * *" (Some 5) o in
  all [forallb (λ k, can i k o) (seq 0 5); negb (can i 5 o);
       can_run_scheduled i (register_schedule i "0 */1 * * *" (Some 10) (Nat.iter 5 (record_scheduled_run i) o))].
Definition test_scheduled_experiment_unlimited_runs : bool :=
  let o := register_schedule "exp-unlimited" "* * * * *" None orch0 in forallb (λ k, can "exp-unlimited" k o) (seq 0 100).
Definition test_experiment_max_runs_enforcement : bool :=
  let o := register_schedule "limited" "* * * * *" (Some 2) orch0 in ((λ k, can "limited" k o) <$> seq 0 3) == [true; true; false].
Definition test_orchestrator_tick_expires : bool :=
  let '(i, o) := start_ok "expired" Latency "all" one 0 orch_on in
  match orch_tick 0 o with
  | Some o => all [active_count o == 0; completed_count o == 1; (experiment_id <$> experiment_history o) == [i]]
  | None => false
  end.
Definition test_orchestrator_total_faults : bool :=
  let '(i, o) := start_ok "test" Latency "all" one 60 (orch_on <| total_faults := 5 |>) in
  total_faults (complete_experiment 0 i true (o <| running ::= alter (λ e, e <| exp_faults_injected := 10 |>) i |>)).2 == 15.
Definition test_orchestrator_set_enabled : bool := all [negb (orch_enabled orch0); orch_enabled (orch_set_enabled true orch0)].
Definition test_orchestrator_experiment_counter_increments : bool :=
  let '(i1, o) := start_ok "a" Latency "all" one 60 orch_on in let '(i2, _) := start_ok "b" Error "all" one 60 o in i1 != i2.
Definition test_concurrent_orchestrator_experiments : bool :=
  let '(i1, o) := start_ok "orch-1" Latency "web" one 60 orch_on in let '(i2, o) := start_ok "orch-2" Error "db" half_ 120 o in
  let '(i3, o3) := start_ok "orch-3" Partition "cache" one 30 o in
  let '(b2, o2) := complete_experiment 0 i2 true o3 in
  let '(b1, o1) := complete_experiment 0 i1 true (stop_all (λ _, 0) o2) in let '(b3, o0) := complete_experiment 0 i3 false o1 in
  all [active_count o3 == 3; b2; active_count o2 == 2; completed_count o2 == 1; b1; b3; active_count o0 == 0; completed_count o0 == 3;
       (success <$> experiment_history o0 !! 2%nat) == Some false].
Definition test_orchestrator_history_after_multiple_completions : bool :=
  let '(i1, o) := start_ok "exp-a" Latency "all" one 60 orch_on in let '(i2, o) := start_ok "exp-b" Error "all" half_ 30 o in
  let '(_, o) := complete_experiment 0 i1 true o in let '(_, o) := complete_experiment 0 i2 false o in
  ((λ r, (success r, res_fault r)) <$> experiment_history o) == [(true, Latency); (false, Error)].

(** *** The tests of [integration-tests] *)

Definition test_chaos_experiment_lifecycle : bool :=
  let '(e, s) := start_experiment 0 "latency-test" Latency "web-1,web-2" half_ 60 shim0 in
  let '(r, s') := stop_experiment 0 (id e) s in
  all [exp_name e == "latency-test"; (0 <? length (active_experiments s))%nat; r; length (active_experiments s') == 0%nat].
Definition test_chaos_experiment_full_lifecycle : bool :=
  let '(e, s) := start_experiment 0 "latency-test" Latency "web-1" half_ 60 shim0 in
  let '(r, s') := stop_experiment 0 (id e) s in
  all [exp_enabled e; (0 <? length (active_experiments s))%nat; r; length (active_experiments s') == 0%nat;
       (exp_enabled <$> get_experiment (id e) s') == Some false].
Definition chaos_env (ms : string) : environment :=
  with_vars [("CHAOS_ENABLED", "true"); ("CHAOS_LATENCY_MS", ms); ("CHAOS_TARGET", "all"); ("CHAOS_BLAST_RADIUS", "1.0")].
Definition test_chaos_injection_result_latency : bool :=
  let r := (ask "web-1" (new_chaos (chaos_env "250"))).1 in all [injected r; fault_type r == Latency; delay_ms r == 250].
Definition test_chaos_blast_radius_clamping : bool :=
  close_to (exp_blast_radius (start_experiment 0 "test" Error "all" (f64_of "1.5") 60 (set_error_rate half_ shim0)).1) "1.0".
Definition orch_env : ChaosOrchestrator := new_orchestrator (with_vars [("CHAOS_ORCHESTRATOR_ENABLED", "true")]).
Definition test_chaos_orchestrator_schedule : bool :=
  let '(i, o) := start_ok "test" Latency "all" one 60 orch_env in
  let o := register_schedule i "0 */6 * * *" (Some 3) o in
  all [can_run_scheduled i o; negb (can_run_scheduled i (Nat.iter 3 (record_scheduled_run i) o))].
Definition test_chaos_orchestrator_tick_expiration : bool :=
  let '(i, o) := start_ok "short" Latency "all" one 0 orch_env in
  match orch_tick 0 o with
  | Some o => all [active_count o == 0; completed_count o == 1; (experiment_id <$> experiment_history o) == [i]]
  | None => false
  end.
Definition test_chaos_metrics_report : bool :=
  let m := chaos_metrics (start_experiment 0 "e1" Latency "all" one 60 (new_chaos (chaos_env "100"))).2 in
  all [length m == 6%nat; metric m "chaos_enabled" == Some one].

Definition test_chaos_orchestrator_full_schedule_lifecycle : bool :=
  let i := "recurring-exp" in
  let o0 := register_schedule i "0 */6 * * *" (Some 2) orch_on in
  let o1 := record_scheduled_run i o0 in let o2 := record_scheduled_run i o1 in
  let o3 := register_schedule i "0 */6 * * *" (Some 5) o2 in
  (can_run_scheduled i <$> [o0; o1; o2; o3; record_scheduled_run i o3]) == [true; true; false; true; true].
Definition e2e_chaos_shim_experiment_lifecycle : bool :=
  let s0 := set_enabled true shim0 in
  let '(e, s1) := start_experiment 0 "e2e-latency-test" Latency "web-1,web-2" half_ 60 s0 in
  let r := (ask "web-1" (new_chaos (chaos_env "150"))).1 in
  let '(ok, s2) := stop_experiment 0 (id e) s1 in
  all [((λ s, (length (active_experiments s), is_active s)) <$> [s0; s1; s2]) == [(0%nat, false); (1%nat, true); (0%nat, false)];
       exp_name e == "e2e-latency-test"; exp_enabled e; close_to (exp_blast_radius e) "0.5"; injected r; fault_type r == Latency;
       delay_ms r == 150; ok; (exp_enabled <$> get_experiment (id e) s2) == Some false].
Definition e2e_chaos_shim_orchestrator_lifecycle : bool :=
  let '(i, o0) := start_ok "e2e-orchestrator-test" Error "db-primary" one 30 orch_on in
  let o1 := register_schedule i "0 */6 * * *" (Some 2) o0 in
  let o2 := Nat.iter 2 (record_scheduled_run i) o1 in
  let '(r, o3) := complete_experiment 0 i true o2 in
  let '(_, o4) := start_ok "short-lived" Latency "all" one 0 o3 in
  all [active_count o0 == 1; can_run_scheduled i o1; negb (can_run_scheduled i o2); r; active_count o3 == 0; completed_count o3 == 1;
       ((λ h, (experiment_id h, success h)) <$> experiment_history o3) == [(i, true)];
       match orch_tick 0 o4 with Some o => all [active_count o == 0; 2 <=? completed_count o] | None => false end].
Definition e2e_chaos_shim_error_injection : bool :=
  let s := new_chaos (with_vars [("CHAOS_ENABLED", "true"); ("CHAOS_ERROR_RATE", "1.0"); ("CHAOS_TARGET", "all"); ("CHAOS_BLAST_RADIUS", "1.0")]) in
  let '(_, s) := start_experiment 0 "e2e-error-test" Error "all" one 60 (set_error_rate one (set_enabled true s)) in
  let request '(ok, s) i := let '(r, s) := ask ("target-" +:+ i) s in (ok && injected r && (fault_type r == Error), s) in
  let '(ok, s) := foldl request (true, s) ["0"; "1"; "2"; "3"; "4"; "5"; "6"; "7"; "8"; "9"] in
  all [ok; length (active_experiments s) == 1%nat].

Definition chaos_integration_suite : list bool :=
  [test_chaos_experiment_lifecycle; test_chaos_experiment_full_lifecycle; test_chaos_injection_result_latency;
   test_chaos_blast_radius_clamping; test_chaos_orchestrator_schedule; test_chaos_orchestrator_tick_expiration;
   test_chaos_metrics_report;
   test_chaos_orchestrator_full_schedule_lifecycle;
   e2e_chaos_shim_experiment_lifecycle;
   e2e_chaos_shim_orchestrator_lifecycle;
   e2e_chaos_shim_error_injection].
Definition chaos_suite : list bool :=
  [test_fault_type_display; test_fault_type_display_all_variants; test_new_defaults; test_evaluate_disabled; test_evaluate_latency;
   test_evaluate_partition; test_evaluate_target_mismatch; test_start_and_stop_experiment; test_stop_nonexistent_experiment;
   test_active_experiments; test_set_error_rate_clamped; test_injection_rate; test_injection_rate_zero; test_is_active;
   test_is_active_no_experiments; test_metrics; test_experiment_expiry; test_blast_radius_with_random; test_apply_latency;
   test_latency_injection_timing_accuracy; test_no_latency_when_not_injected; test_inject_error;
   test_inject_error_on_partition_returns_ok; test_inject_error_on_latency_returns_ok; test_full_experiment_lifecycle;
   test_all_fault_types_evaluation; test_concurrent_experiment_execution; test_fault_metrics_collection_and_reporting;
   test_disabled_shim_metrics; test_error_rate_threshold_filtering; test_target_matching_specific; test_target_matching_all;
   test_experiment_blast_radius_clamping; test_active_fault_type_priority; test_chaos_shim_init_and_start_stop;
   test_orchestrator_default_disabled; test_orchestrator_start_experiment_disabled; test_orchestrator_start_experiment_enabled;
   test_orchestrator_blast_radius_capped; test_orchestrator_blast_radius_global_limit; test_orchestrator_stop_experiment;
   test_orchestrator_stop_all; test_orchestrator_complete_experiment; test_orchestrator_complete_nonexistent;
   test_orchestrator_schedules; test_experiment_scheduling_lifecycle; test_scheduled_experiment_unlimited_runs;
   test_experiment_max_runs_enforcement; test_orchestrator_tick_expires; test_orchestrator_total_faults; test_orchestrator_set_enabled;
   test_orchestrator_experiment_counter_increments; test_concurrent_orchestrator_experiments;
   test_orchestrator_history_after_multiple_completions].
End chaos_tests.

Example chaos_tests_pass : all (chaos_suite half_ half_ ++ chaos_integration_suite half_ half_) &&
  all (chaos_suite (f64_of "0.001") (f64_of "0.999")) = true.
Proof. vm_compute. reflexivity. Qed.

End ChaosTests.
