(* ===== verification/TestPolicy.v ===== *)
(** * The tests of [compliance-shim], [auth-shim], [audit-shim], [cost-shim] and [shim-core/src/tenant.rs]

    One Module per shim or file; the conventions are those of [Testing.v]. *)

From S2P Require Import Prelude Testing.
From S2P Require Compliance Text Auth Config Tenant AuditLog Floats Cost.

(** ** The tests of [compliance-shim/src/lib.rs], on [Compliance.v]

    The clock stands at 0.  The tests that only print a record as JSON and read it back
    have no counterpart. *)

Module ComplianceTests.
Import Prelude Compliance Testing.
Open Scope test_scope.

#[local] Instance test_rfc : Rfc3339 := demo_rfc3339.

Definition shim0 : ComplianceShim := new_compliance (with_vars []).
Definition make_check (i : string) (ok : bool) (sev : Severity) : ComplianceCheck :=
  mkCheck i ("Check " +:+ i) "cis" sev ok "test evidence" ("Fix " +:+ i).
Definition run (s : ComplianceShim) : ComplianceShim := run_checks (λ _, 0) 0 s.
(** The checks of a test, added and run *)
Definition checked_by (s : ComplianceShim) (l : list (string * bool * Severity)) : ComplianceShim :=
  run (foldl (λ s c, add_check (make_check c.1.1 c.1.2 c.2) s) s l).
Definition checked : list (string * bool * Severity) → ComplianceShim := checked_by shim0.
Definition ids_of (l : list Violation) : list string := check_id <$> l.
Definition report (s : ComplianceShim) : ComplianceReport := generate_report 0 s.
Definition above (sev : Severity) (s : ComplianceShim) : nat := length (violations_by_severity sev s).
Definition counted (sev : Severity) (s : ComplianceShim) : option Z := violation_counts s !! sev.
Definition resolve (i : string) (s : ComplianceShim) : ComplianceShim := (resolve_violation i s).2.
Definition values (s : ComplianceShim) : list f64 := snd <$> compliance_metrics s.
Definition meets (x : string) (s : ComplianceShim) : bool := meets_threshold (f64_of x) s.
Definition parses (s : string) : option Severity := match severity_from_str s with Ok x => Some x | Err _ => None end.
Definition levels : list Severity := [Info; Low; Medium; High; Critical].
Definition names : list string := ["info"; "low"; "medium"; "high"; "critical"].
Definition rules_of (db : string) : list ComplianceCheck := generate_cis_checks (shim0 <| db_type := db |>).
Definition starts_with (p s : string) : bool := String.prefix p s.

Definition test_severity_parse : bool := ((parses <$> ["info"; "critical"; "invalid"]) == [Some Info; Some Critical; None]).
Definition test_severity_ordering : bool :=
  forallb (λ ab : Severity * Severity, severity_ge ab.1 ab.2 && negb (severity_ge ab.2 ab.1)) [(Critical, High); (High, Medium); (Medium, Low); (Low, Info)].
Definition test_run_checks_all_pass : bool :=
  let s := checked [("C001", true, High); ("C002", true, Medium)] in
  all [checks_passed s == 2; checks_failed s == 0; compliance_score s == f64_of_Z 100; ids_of (violations s) == []].
Definition test_run_checks_some_fail : bool :=
  let s := checked [("C001", true, High); ("C002", false, High); ("C003", true, Low)] in
  all [checks_passed s == 2; checks_failed s == 1; near (compliance_score s) (f64_of "66.67") (f64_of "0.01"); ids_of (violations s) == ["C002"]].
Definition test_min_severity_filter : bool :=
  let s := checked_by (shim0 <| min_severity := High |>) [("C001", false, Low); ("C002", false, High)] in
  all [checks_failed s == 1; ids_of (violations s) == ["C002"]].
Definition test_violations_by_severity : bool :=
  let s := checked [("C001", false, Medium); ("C002", false, Critical)] in all [above High s == 1%nat; above Medium s == 2%nat].
Definition test_resolve_violation : bool :=
  let s := checked [("C001", false, High)] in let '(r, s') := resolve_violation "C001" s in
  all [unresolved_count s == 1; r; unresolved_count s' == 0; negb (resolve_violation "nonexistent" s').1].
Definition test_generate_report : bool :=
  let r := report (checked [("C001", true, High); ("C002", false, Medium)]) in
  all [rep_total r == 2; rep_passed r == 1; rep_failed r == 1; rep_benchmark r == "cis"].
Definition two_high_one_low : ComplianceShim := checked [("C001", false, High); ("C002", false, High); ("C003", false, Low)].
Definition test_violation_counts : bool := all [counted High two_high_one_low == Some 2; counted Low two_high_one_low == Some 1].
Definition test_meets_threshold : bool :=
  let s := checked [("C001", true, High); ("C002", true, Medium)] in all [meets "90.0" s; meets "100.0" s; negb (meets "100.1" s)].
Definition test_empty_checks_score_100 : bool := compliance_score (run shim0) == f64_of_Z 100.
Definition test_metrics : bool :=
  match values (checked [("C001", true, High); ("C002", false, High)]) with
  | [p; f; _; v] => (p, f, v) == (f64_of_Z 1, f64_of_Z 1, f64_of_Z 1)
  | _ => false
  end.
Definition test_generate_cis_checks_postgres : bool :=
  let ids := id <$> rules_of "postgres" in
  all [length ids == 12%nat; bool_decide ("CIS-POSTGRES-001" ∈ ids); bool_decide ("CIS-POSTGRES-012" ∈ ids)].
Definition test_generate_cis_checks_mariadb : bool := existsb (λ c, starts_with "CIS-MYSQL" (id c)) (rules_of "mariadb").
Definition test_generate_cis_checks_mysql : bool := (0 <? length (rules_of "mysql"))%nat.
Definition test_generate_cis_checks_redis : bool := existsb (λ c, starts_with "STIG-REDIS" (id c)) (rules_of "redis").
Definition test_generate_cis_checks_unknown_db : bool := length (rules_of "mongodb") == 0%nat.
Definition test_severity_display : bool := (severity_display <$> levels) == names.
Definition test_severity_display_all_variants : bool := forallb (λ x, parses (severity_display x) == Some x) levels.
Definition test_severity_from_str_all_variants : bool :=
  all [(parses <$> names) == (Some <$> levels); (parses <$> ["INFO"; "CRITICAL"]) == [Some Info; Some Critical]].
Definition test_severity_from_str_invalid : bool := (parses <$> ["invalid"; ""; "WARNING"]) == [None; None; None].
Definition test_severity_from_str_case_insensitive : bool :=
  (parses <$> ["INFO"; "LOW"; "MEDIUM"; "HIGH"; "CRITICAL"; "Info"]) == (Some <$> levels ++ [Info]).
Definition test_resolve_violation_filters_from_report : bool :=
  let s := checked [("C001", false, High); ("C002", false, Medium)] in
  all [length (rep_violations (report s)) == 2%nat; ids_of (rep_violations (report (resolve "C001" s))) == ["C002"]].
Definition test_violations_by_severity_excludes_resolved : bool :=
  ids_of (violations_by_severity Critical (resolve "C001" (checked [("C001", false, Critical); ("C002", false, Critical)]))) == ["C002"].
Definition test_report_score_matches_calculated : bool :=
  let r := report (checked ((λ i, (pretty (N.of_nat i), bool_decide (i < 7)%nat, Medium)) <$> seq 0 10)) in
  all [near (score r) (f64_of_Z 70) (f64_of "0.01"); rep_passed r == 7; rep_failed r == 3].
Definition test_report_benchmark_and_db_type : bool :=
  let r := report (shim0 <| benchmark := "stig" |> <| db_type := "redis" |>) in all [rep_benchmark r == "stig"; rep_db_type r == "redis"].
Definition test_metrics_initial_state : bool :=
  (take 3 (compliance_metrics shim0)) ==
  [("compliance_checks_passed", f64_of_Z 0); ("compliance_checks_failed", f64_of_Z 0); ("compliance_score", f64_of_Z 0)].
Definition test_run_checks_all_fail : bool :=
  let s := checked [("C001", false, High); ("C002", false, Medium)] in
  all [checks_passed s == 0; checks_failed s == 2; compliance_score s == f64_of_Z 0; length (violations s) == 2%nat].
Definition test_run_checks_single_check_pass : bool :=
  let s := checked [("C001", true, Critical)] in all [compliance_score s == f64_of_Z 100; length (violations s) == 0%nat].
Definition test_run_checks_single_check_fail : bool :=
  let s := checked [("C001", false, Critical)] in all [compliance_score s == f64_of_Z 0; length (violations s) == 1%nat].
Definition test_meets_threshold_zero : bool := meets "0.0" (checked [("C001", false, High)]).
Definition test_meets_threshold_below_zero : bool := meets "-1.0" shim0.
Definition test_meets_threshold_boundary_50_percent : bool :=
  let s := checked [("C001", true, High); ("C002", false, High)] in all [meets "50.0" s; negb (meets "50.1" s)].
Definition summary_of (r : ComplianceReport) : Z * Z * Z * nat := (rep_total r, rep_passed r, rep_failed r, length (rep_violations r)).
Definition test_generate_report_empty : bool :=
  let r := report shim0 in all [summary_of r == (0, 0, 0, 0%nat); rep_benchmark r == "cis"; rep_db_type r == "postgres"].
Definition test_generate_report_all_pass : bool :=
  let r := report (checked [("C001", true, High); ("C002", true, Medium)]) in all [summary_of r == (2, 2, 0, 0%nat); score r == f64_of_Z 100].
Definition test_generate_report_all_fail : bool :=
  let r := report (checked [("C001", false, High); ("C002", false, Low)]) in all [summary_of r == (2, 0, 2, 2%nat); score r == f64_of_Z 0].
Definition test_violations_by_severity_all_levels : bool :=
  let s := checked (zip (zip ["C001"; "C002"; "C003"; "C004"; "C005"] (replicate 5 false)) levels) in
  ((λ x, above x s) <$> levels) == [5; 4; 3; 2; 1]%nat.
Definition test_violation_counts_empty : bool := violation_counts shim0 == ∅.
Definition test_violation_counts_after_resolution : bool :=
  let s := resolve "C001" two_high_one_low in all [counted High s == Some 1; counted Low s == Some 1].
Definition test_resolve_violation_multiple : bool :=
  let s0 := checked [("C001", false, High); ("C002", false, Medium)] in
  let '(r1, s1) := resolve_violation "C001" s0 in let '(r2, s2) := resolve_violation "C002" s1 in
  all [unresolved_count s0 == 2; r1; unresolved_count s1 == 1; r2; unresolved_count s2 == 0].
Definition set_by (k v : string) : ComplianceShim := new_compliance (with_vars [(k, v)]).
Definition test_compliance_shim_new_env_benchmark : bool := benchmark (set_by "COMPLIANCE_BENCHMARK" "stig") == "stig".
Definition test_compliance_shim_new_env_db_type : bool := db_type (set_by "COMPLIANCE_DB_TYPE" "mariadb") == "mariadb".
Definition test_compliance_shim_new_env_severity : bool := min_severity (set_by "COMPLIANCE_SEVERITY" "high") == High.
Definition test_compliance_shim_new_env_report_format : bool := report_format (set_by "COMPLIANCE_REPORT" "text") == "text".
Definition test_compliance_shim_new_env_output : bool := output (set_by "COMPLIANCE_OUTPUT" "file") == "file".
Definition test_compliance_shim_new_defaults : bool :=
  all [benchmark shim0 == "cis"; db_type shim0 == "postgres"; min_severity shim0 == Info; report_format shim0 == "json"; output shim0 == "stdout"].
Definition test_cis_checks_have_severity_levels : bool :=
  forallb (λ c, all [id c != ""; description c != ""; remediation c != ""; check_benchmark c == "cis"]) (rules_of "postgres").
Definition test_mariadb_cis_checks_have_severity_levels : bool :=
  forallb (λ c, all [starts_with "CIS-MYSQL" (id c); description c != ""]) (rules_of "mariadb").
Definition test_redis_stig_checks_have_severity_levels : bool :=
  forallb (λ c, all [starts_with "STIG-REDIS" (id c); description c != ""]) (rules_of "redis").
Definition test_run_checks_resets_previous_violations : bool :=
  let s := checked [("C001", false, High)] in
  let s' := checked_by (s <| checks := [] |>) [("C001", true, High)] in
  all [length (violations s) == 1%nat; length (violations s') == 0%nat; checks_passed s' == 1].
Definition test_metrics_after_all_fail : bool :=
  values (checked [("C001", false, High); ("C002", false, High)]) == (f64_of_Z <$> [0; 2; 0; 2]).
Definition critical_only : ComplianceShim := shim0 <| min_severity := Critical |>.
Definition test_min_severity_filter_all_blocked : bool :=
  let s := checked_by critical_only [("C001", false, Info); ("C002", false, Low); ("C003", false, Medium); ("C004", false, High)] in
  all [length (violations s) == 0%nat; checks_failed s == 0].
Definition test_min_severity_filter_critical_only : bool :=
  ids_of (violations (checked_by critical_only [("C001", false, Critical); ("C002", false, High)])) == ["C001"].

(** *** The tests of [integration-tests] *)

Definition test_compliance_scoring : bool :=
  let s := checked [("TLS-001", true, High); ("AUTH-001", false, Critical)] in
  all [summary_of (report s) == (2, 1, 1, 1%nat); meets "50.0" s; negb (meets "80.0" s)].
Definition test_compliance_violation_severity_filter : bool :=
  let s := checked [("LOW-001", false, Low); ("HIGH-001", false, High); ("CRIT-001", false, Critical)] in
  all [above High s == 2%nat; above Critical s == 1%nat].
Definition test_compliance_violation_resolution : bool :=
  let s := checked [("FIX-001", false, High)] in let '(r, s') := resolve_violation "FIX-001" s in
  all [unresolved_count s == 1; r; unresolved_count s' == 0; length (rep_violations (report s')) == 0%nat].
Definition test_compliance_cis_postgres_checks : bool :=
  let cs := generate_cis_checks (set_by "COMPLIANCE_DB_TYPE" "postgres") in
  all [length cs == 12%nat; forallb (λ c, check_benchmark c == "cis") cs].
Definition test_compliance_cis_mariadb_checks : bool := length (generate_cis_checks (set_by "COMPLIANCE_DB_TYPE" "mariadb")) == 8%nat.
Definition test_compliance_violation_counts : bool :=
  let s := checked [("C1", false, High); ("C2", false, High); ("C3", false, Critical)] in all [counted High s == Some 2; counted Critical s == Some 1].

Definition compliance_suite : list bool :=
  [test_severity_parse; test_severity_ordering; test_run_checks_all_pass; test_run_checks_some_fail; test_min_severity_filter;
   test_violations_by_severity; test_resolve_violation; test_generate_report; test_violation_counts; test_meets_threshold;
   test_empty_checks_score_100; test_metrics; test_generate_cis_checks_postgres; test_generate_cis_checks_mariadb;
   test_generate_cis_checks_mysql; test_generate_cis_checks_redis; test_generate_cis_checks_unknown_db; test_severity_display;
   test_severity_display_all_variants; test_severity_from_str_all_variants; test_severity_from_str_invalid;
   test_severity_from_str_case_insensitive; test_resolve_violation_filters_from_report;
   test_violations_by_severity_excludes_resolved; test_report_score_matches_calculated; test_report_benchmark_and_db_type;
   test_metrics_initial_state; test_run_checks_all_fail; test_run_checks_single_check_pass; test_run_checks_single_check_fail;
   test_meets_threshold_zero; test_meets_threshold_below_zero; test_meets_threshold_boundary_50_percent;
   test_generate_report_empty; test_generate_report_all_pass; test_generate_report_all_fail;
   test_violations_by_severity_all_levels; test_violation_counts_empty; test_violation_counts_after_resolution;
   test_resolve_violation_multiple; test_compliance_shim_new_env_benchmark; test_compliance_shim_new_env_db_type;
   test_compliance_shim_new_env_severity; test_compliance_shim_new_env_report_format; test_compliance_shim_new_env_output;
   test_compliance_shim_new_defaults; test_cis_checks_have_severity_levels; test_mariadb_cis_checks_have_severity_levels;
   test_redis_stig_checks_have_severity_levels; test_run_checks_resets_previous_violations; test_metrics_after_all_fail;
   test_min_severity_filter_all_blocked; test_min_severity_filter_critical_only; test_compliance_scoring;
   test_compliance_violation_severity_filter; test_compliance_violation_resolution; test_compliance_cis_postgres_checks;
   test_compliance_cis_mariadb_checks; test_compliance_violation_counts].
Example compliance_tests_pass : all compliance_suite = true.
Proof. vm_compute. reflexivity. Qed.

End ComplianceTests.

(** ** The tests of [auth-shim/src/lib.rs], on [Auth.v]

    The tokens' UUIDs are drawn by the test; the clock stands at 0. *)

Module AuthTests.
Import Prelude Text Auth Testing.
Open Scope test_scope.

#[local] Instance test_rfc : Rfc3339 := decimal_rfc3339.
#[local] Instance test_chrono : Chrono := demo_chrono.
#[local] Program Instance test_mac : HmacSha256 := {| mac_tag key data := Some (toy_hash key data) |}.
Next Obligation. done. Qed.

Definition uuid : string := "0b0a6c1e-3a75-4c0d-9c0f-0123456789ab".
Definition no_shim : AuthShim := mkAuthShim "" None None None None 0 0 0 0 0 ∅ ∅ ∅ ∅ "".
Definition shim_of (env : list (string * string)) : AuthShim := default no_shim (new_auth uuid (with_vars env)).
Definition shim0 : AuthShim := shim_of [].
(** A token for a user, and the shim that knows it *)
Definition token_for (u : string) (r : Role) (s : AuthShim) : string * AuthShim :=
  default ("", s) (create_token ("id-" +:+ u) ("secret-" +:+ u) 0 u r None s).
Definition panicked : AuthResult := mkAuthResult true None None (Some "panic").
Definition validated (t : string) (s : AuthShim) : AuthResult * AuthShim := default (panicked, s) (validate_token 0 t s).
Definition validated_key (i k : string) (s : AuthShim) : AuthResult := default panicked (fst <$> validate_api_key i k s).
Definition says (w : string) (r : AuthResult) : bool := match reason r with Some x => str_contains x w | None => false end.
Definition role_of (s : string) : option Role := match role_from_str s with Ok r => Some r | Err _ => None end.
Definition key_of (i raw : string) (r : Role) (s : AuthShim) : ApiKey := mkApiKey i "service-a" (hash_api_key raw s) r "" None false.
Definition with_key (i raw : string) (r : Role) (s : AuthShim) : AuthShim := register_api_key (key_of i raw r s) s.
Definition roles : list Role := [Admin; ReadWrite; ReadOnly].
(** [check_permission] of a role for each of [roles] *)
Definition permits (r : Role) : list bool := check_permission r <$> roles.

Definition test_role_parse : bool :=
  (role_of <$> ["admin"; "readwrite"; "rw"; "readonly"; "ro"; "denied"; "invalid"])
  == [Some Admin; Some ReadWrite; Some ReadWrite; Some ReadOnly; Some ReadOnly; Some Denied; None].
Definition test_role_display : bool := (role_display <$> [Admin; ReadOnly]) == ["admin"; "readonly"].
Definition test_create_and_validate_token : bool :=
  let '(t, s) := token_for "alice" Admin shim0 in let r := (validated t s).1 in
  all [authenticated r; user r == Some "alice"; role r == Some Admin; is_none (reason r)].
Definition test_validate_nonexistent_token : bool :=
  let '(r, s) := validated "nonexistent" shim0 in all [negb (authenticated r); auth_failure s == 1].
Definition test_validate_token_wrong_id : bool :=
  let '(r, s) := validated "some-id.some-secret" shim0 in all [negb (authenticated r); auth_failure s == 1].
Definition test_validate_token_tampered : bool :=
  let s := (token_for "alice" Admin shim0).2 in let r := (validated "id-alice.tampered_secret-alice" s).1 in
  all [negb (authenticated r); says "verification failed" r].
Definition test_validate_expired_token : bool :=
  let '(t, s) := token_for "bob" ReadWrite shim0 in
  let expire st := mkStoredToken (token_hash st) (tok_user st) (tok_role st) (issued_at st) (to_rfc3339 (-1)) (source_ip st) in
  let r := (validated t (s <| tokens ::= alter expire "id-bob" |>)).1 in all [negb (authenticated r); says "expired" r].
Definition test_validate_denied_role : bool :=
  let '(t, s) := token_for "charlie" Denied shim0 in let r := (validated t s).1 in all [negb (authenticated r); says "denied" r].
Definition test_revoke_token : bool :=
  let '(t, s) := token_for "alice" Admin shim0 in let '(r, s) := revoke_token "id-alice" s in all [r; negb (authenticated (validated t s).1)].
Definition test_register_and_validate_api_key : bool :=
  let r := validated_key "key-1" "my-secret-api-key" (with_key "key-1" "my-secret-api-key" ReadWrite shim0) in
  all [authenticated r; is_none (reason r); role r == Some ReadWrite].
Definition test_validate_api_key_wrong_key : bool :=
  let r := validated_key "key-wrong" "wrong-key" (with_key "key-wrong" "correct-key" ReadWrite shim0) in
  all [negb (authenticated r); says "verification failed" r].
Definition test_revoked_api_key : bool :=
  negb (authenticated (validated_key "key-2" "my-secret-api-key" (revoke_api_key "key-2" (with_key "key-2" "my-secret-api-key" Admin shim0)).2)).
Definition failing (u : string) (s : AuthShim) : bool * AuthShim := record_failed_login 0 u s.
Definition test_failed_login_lockout : bool :=
  let '(r1, s) := failing "alice" (shim0 <| max_failed_logins := 3 |> <| lockout_secs := 300 |>) in
  let '(r2, s) := failing "alice" s in let '(r3, s) := failing "alice" s in
  all [negb r1; negb r2; r3; is_locked_out 0 "alice" s].
Definition test_clear_failed_attempts : bool :=
  let s := Nat.iter 2 (λ s, (failing "alice" s).2) (shim0 <| max_failed_logins := 5 |>) in
  all [failed_count "alice" s == 2; failed_count "alice" (clear_failed_attempts "alice" s) == 0].
Definition test_check_permission_admin : bool := permits Admin == [true; true; true].
Definition test_check_permission_readwrite : bool := permits ReadWrite == [false; true; true].
Definition test_check_permission_readonly : bool := permits ReadOnly == [false; false; true].
Definition salt : string := "0123456789abcdef".
Definition verifies (p stored : string) : bool := default true (verify_password p stored).
Definition test_hash_and_verify_password : bool :=
  let stored := hash_password salt "super_secret_123" in
  all [verifies "super_secret_123" stored; negb (verifies "wrong_password" stored)].
Definition test_password_hash_format : bool :=
  (String.length <$> split_on ":" (hash_password salt "test")) == [32; 64]%nat.
Definition test_password_hash_different_each_time : bool :=
  hash_password salt "same_password" != hash_password "fedcba9876543210" "same_password".
Definition test_verify_password_invalid_format : bool := all [negb (verifies "pw" "invalid"); negb (verifies "pw" "zz:zz")].
Definition test_metrics : bool :=
  let s := (token_for "bob" ReadOnly (token_for "alice" Admin shim0).2).2 in
  (snd <$> take 3 (auth_metrics (s <| auth_success := 10 |> <| auth_failure := 3 |>))) == (f64_of_Z <$> [10; 3; 2]).

(** *** The tests of [integration-tests] *)

Definition test_auth_token_lifecycle : bool :=
  let '(t, s) := token_for "user123" ReadWrite shim0 in all [t != ""; authenticated (validated t s).1; is_none (reason (validated t s).1)].
Definition test_auth_api_keys : bool :=
  let s := with_key "key-1" "my-secret-api-key" ReadOnly shim0 in let '(r, s') := revoke_api_key "key-1" s in
  all [authenticated (validated_key "key-1" "my-secret-api-key" s); r; negb (authenticated (validated_key "key-1" "my-secret-api-key" s'))].
Definition test_auth_token_expiration : bool :=
  let '(t, s) := token_for "alice" ReadWrite shim0 in let r := (validated t s).1 in all [authenticated r; is_none (reason r)].
Definition test_auth_token_hmac_verification : bool :=
  let '(t, s) := token_for "bob" Admin shim0 in let r := (validated "id-bob.wrong_secret_secret-bob" s).1 in
  all [authenticated (validated t s).1; negb (authenticated r); says "verification failed" r].
Definition test_auth_role_permissions : bool :=
  ((permits <$> roles) == [[true; true; true]; [false; true; true]; [false; false; true]]) && negb (check_permission Denied ReadOnly).
Definition test_auth_lockout_and_recovery : bool :=
  let s0 := shim_of [("AUTH_MAX_FAILED_LOGINS", "3"); ("AUTH_LOCKOUT_SECS", "300")] in
  let '(r1, s) := failing "user1" s0 in let '(r2, s) := failing "user1" s in let '(r3, s) := failing "user1" s in
  let s' := clear_failed_attempts "user1" s in
  all [negb (is_locked_out 0 "user1" s0); negb r1; negb r2; r3; is_locked_out 0 "user1" s; negb (is_locked_out 0 "user1" s');
       failed_count "user1" s' == 0].
Definition test_auth_api_key_revocation : bool :=
  let s := with_key "key-1" "service-key-123" ReadWrite shim0 in let '(r, s') := revoke_api_key "key-1" s in
  all [authenticated (validated_key "key-1" "service-key-123" s); r; negb (authenticated (validated_key "key-1" "service-key-123" s'))].

Definition auth_suite : list bool :=
  [test_role_parse; test_role_display; test_create_and_validate_token; test_validate_nonexistent_token;
   test_validate_token_wrong_id; test_validate_token_tampered; test_validate_expired_token; test_validate_denied_role;
   test_revoke_token; test_register_and_validate_api_key; test_validate_api_key_wrong_key; test_revoked_api_key;
   test_failed_login_lockout; test_clear_failed_attempts; test_check_permission_admin; test_check_permission_readwrite;
   test_check_permission_readonly; test_hash_and_verify_password; test_password_hash_format;
   test_password_hash_different_each_time; test_verify_password_invalid_format; test_metrics; test_auth_token_lifecycle;
   test_auth_api_keys; test_auth_token_expiration; test_auth_token_hmac_verification; test_auth_role_permissions;
   test_auth_lockout_and_recovery; test_auth_api_key_revocation].
Example auth_tests_pass : all auth_suite = true.
Proof. vm_compute. reflexivity. Qed.

End AuthTests.

(** ** The tests of [shim-core/src/tenant.rs], on [Tenant.v]

    A tenant's identifier is valid, as in the crate that judges it, with 3 to 63 letters,
    digits and dashes.  The clock stands at 0 unless a test moves it.  The tests of that
    crate's rule itself have no counterpart. *)

Module TenantTests.
Import Prelude Config Tenant Testing.
Open Scope test_scope.

#[local] Instance test_rfc : Rfc3339 := demo_rfc3339.
Section tenant_tests.
Context {HO : HashOrder}.

Definition slug_char (c : Ascii.ascii) : bool :=
  let n := Z.of_nat (Ascii.nat_of_ascii c) in ((97 <=? n) && (n <=? 122)) || ((48 <=? n) && (n <=? 57)) || (n =? 45).
Definition slug (s : string) : bool :=
  (3 <=? String.length s)%nat && (String.length s <=? 63)%nat && forallb slug_char (String.list_ascii_of_string s).
Definition MB : Z := 1024 * 1024.
Definition tenant_of (i : string) : TenantConfig := mkTenant i None None None [] no_quota 1.
Definition test_config : list TenantConfig :=
  [mkTenant "tenant-a" (Some MB) (Some (f64_of_Z 50)) (Some 100) ["feature-x"; "feature-y"] no_quota 1;
   mkTenant "tenant-b" (Some (2 * MB)) None None [] no_quota 1].
Definition made (l : list TenantConfig) : result string TenantIsolator := from_config slug (λ _, 0) l.
Definition isolator : TenantIsolator := match made test_config with Ok t => t | Err _ => new_isolator end.
Definition count (t : TenantIsolator) : nat := size (configs t).
Definition memory (i : string) (n : Z) (t : TenantIsolator) : TenantIsolator := record_memory 0 i n t.
Definition cpu (i p : string) (t : TenantIsolator) : TenantIsolator := record_cpu 0 i (f64_of p) t.
(** [check_quota] and [check_quota_hardened]; a panic answers wrongly *)
Definition quota (i : string) (t : TenantIsolator) : option (bool * TenantIsolator) := check_quota (λ _, 0) 0 i t.
Definition passes (i : string) (t : TenantIsolator) : option bool := fst <$> quota i t.
Definition checked (i : string) (t : TenantIsolator) : TenantIsolator := default t (snd <$> quota i t).
Definition hardened (i : string) (t : TenantIsolator) : option TenantQuotaResult * TenantIsolator :=
  match check_quota_hardened (λ _, 0) 0 i t with Some (r, t) => (Some r, t) | None => (None, t) end.
Fixpoint hardened_n (n : nat) (i : string) (t : TenantIsolator) : list (option TenantQuotaResult) * TenantIsolator :=
  match n with O => ([], t) | S n => let '(r, t) := hardened i t in let '(l, t) := hardened_n n i t in (r :: l, t) end.
Definition metrics_of (i : string) (t : TenantIsolator) : option TenantMetrics :=
  (λ x, x.2) <$> list_find (λ m, tm_tenant_id m = i) (tenant_metrics 0 t).
Definition removed (i : string) (t : TenantIsolator) : option (bool * TenantIsolator) := remove_tenant 0 i t.

Definition test_from_config : bool := all [global_enabled isolator; count isolator == 2%nat].
Definition test_from_config_invalid_tenant_id : bool :=
  match made (test_config ++ [tenant_of "a"]) with Err i => i == "a" | Ok _ => false end.
Definition test_new_not_enabled : bool := negb (global_enabled new_isolator).
Definition register (c : TenantConfig) (t : TenantIsolator) : option (result string unit * TenantIsolator) := register_tenant slug (λ _, 0) 0 c t.
Definition test_register_tenant : bool :=
  match register (tenant_of "new-tenant") new_isolator with
  | Some (r, t) => all [is_ok r; global_enabled t; count t == 1%nat]
  | None => false
  end.
Definition test_register_tenant_invalid_id : bool :=
  match register (tenant_of "x") new_isolator with Some (r, t) => all [is_err r; negb (global_enabled t)] | None => false end.
Definition test_remove_tenant : bool :=
  match removed "tenant-a" isolator with
  | Some (r, t) => all [r; count t == 1%nat; (fst <$> removed "nonexistent" t) == Some false]
  | None => false
  end.
Definition test_check_quota_within_limits : bool :=
  passes "tenant-a" (record_request 0 "tenant-a" (cpu "tenant-a" "25.0" (memory "tenant-a" (512 * 1024) isolator))) == Some true.
Definition test_check_quota_memory_exceeded : bool := passes "tenant-a" (memory "tenant-a" (2 * MB) isolator) == Some false.
Definition test_check_quota_cpu_exceeded : bool := passes "tenant-a" (cpu "tenant-a" "75.0" isolator) == Some false.
Definition test_check_quota_rate_exceeded : bool := (hardened "tenant-a" (hardened_n 100 "tenant-a" isolator).2).1 == Some RateLimited.
Definition test_check_quota_no_limits : bool := passes "tenant-b" (cpu "tenant-b" "999.0" (memory "tenant-b" 1024 isolator)) == Some true.
Definition test_check_quota_hardened_results : bool :=
  let '(r, t) := hardened "tenant-a" (cpu "tenant-a" "25.0" (memory "tenant-a" (512 * 1024) isolator)) in
  all [r == Some Allowed; (hardened "tenant-a" (memory "tenant-a" (2 * MB) t)).1 == Some MemoryExceeded].
Definition test_is_feature_allowed : bool :=
  ((λ x : string * string, is_feature_allowed x.1 x.2 isolator) <$>
   [("tenant-a", "feature-x"); ("tenant-a", "feature-y"); ("tenant-a", "feature-z"); ("tenant-b", "feature-x")]) == [true; true; false; false].
Definition test_is_feature_allowed_unknown_tenant : bool := is_feature_allowed "unknown" "anything" new_isolator.
Definition test_metrics : bool :=
  let t := record_request 0 "tenant-a" (cpu "tenant-a" "10.0" (memory "tenant-a" 1024 isolator)) in
  match metrics_of "tenant-a" t with
  | Some m => all [length (tenant_metrics 0 t) == 2%nat; tm_memory_bytes m == 1024; near (tm_cpu_percent m) (f64_of_Z 10) (f64_of "0.01");
                   tm_requests_count m == 1; negb (memory_limit_reached m); negb (cpu_limit_reached m); tm_rejected_count m == 0]
  | None => false
  end.
Definition test_shim_metrics : bool := length (shim_metrics 0 (memory "tenant-a" 1024 isolator)) == 16%nat.
Definition test_get_config_and_usage : bool :=
  let t := memory "tenant-a" 42 isolator in
  all [is_some (configs t !! "tenant-a"); is_none (configs t !! "unknown"); (memory_bytes <$> usage t !! "tenant-a") == Some 42;
       is_none (usage t !! "unknown")].
Definition test_lifecycle : bool :=
  let t := record_request 0 "tenant-a" (cpu "tenant-a" "10.0" (memory "tenant-a" 1024 isolator)) in
  let t := checked "tenant-b" (checked "tenant-a" (cpu "tenant-b" "30.0" (memory "tenant-b" 2048 t))) in
  match removed "tenant-a" t with
  | Some (r, t') => all [passes "tenant-a" t == Some true; passes "tenant-b" t == Some true; r; count t' == 1%nat; is_none (usage t' !! "tenant-a")]
  | None => false
  end.

(** *** Token buckets *)

Definition bucket (max rate : Z) : TokenBucket := new_bucket (f64_of_Z max) (f64_of_Z rate) 0.
Definition taken (n : nat) (b : TokenBucket) : TokenBucket := Nat.iter n (λ b, (try_consume 0 b).2) b.
Definition test_token_bucket_consume : bool :=
  let '(r, b) := try_consume 0 (bucket 10 5) in all [r; tokens b == f64_of_Z 9].
Definition test_token_bucket_exhaustion : bool :=
  ((λ n, (try_consume 0 (taken n (bucket 3 1))).1) <$> seq 0 4) == [true; true; true; false].
Definition test_token_bucket_refill : bool :=
  let b := taken 2 (bucket 2 1) in
  all [negb (try_consume 0 b).1; (try_consume 0 ((taken 1 b) <| last_refill := - 10 ^ 9 |>)).1].
Definition test_token_bucket_reset : bool :=
  let b := taken 2 (bucket 2 1) in all [negb (try_consume 0 b).1; (try_consume 0 (reset_bucket 0 (taken 1 b))).1].
Definition test_token_bucket_no_burst_above_max : bool :=
  tokens (refill 0 ((bucket 5 10) <| last_refill := - 100 * 10 ^ 9 |>)) == f64_of_Z 5.
Definition test_token_bucket_with_isolator : bool :=
  let '(l, t) := hardened_n 100 "tenant-a" isolator in
  all [is_some (token_bucket <$> usage isolator !! "tenant-a"); l == replicate 100 (Some Allowed); (hardened "tenant-a" t).1 == Some RateLimited].

(** *** The audit log *)

Definition over (t : TenantIsolator) : TenantIsolator := memory "tenant-a" (2 * MB) t.
Definition refused (t : TenantIsolator) : list AuditEntry :=
  List.filter (λ e, bool_decide (action e = "quota_check") && negb (allowed e)) (audit_log t).
Definition test_audit_log_records_operations : bool :=
  (audit_tenant <$> head (refused (checked "tenant-a" (over (memory "tenant-a" 1024 isolator))))) == Some "tenant-a".
Definition test_audit_log_max_entries : bool :=
  let t := Nat.iter 10 (λ t, checked "tenant-a" (over t)) (set_max_audit_entries 5 isolator) in (length (audit_log t) <=? 5)%nat.
Definition test_rejected_count_increments : bool :=
  (rejected_count <$> usage (Nat.iter 5 (checked "tenant-a") (over isolator)) !! "tenant-a") == Some 5.
Definition test_metrics_includes_new_fields : bool :=
  match metrics_of "tenant-a" (checked "tenant-a" (over isolator)) with
  | Some m => all [tm_rejected_count m == 1; memory_limit_reached m]
  | None => false
  end.

(** *** CPU time *)

Definition ms : Z := 10 ^ 6.
Definition tracker (total max : string) : CpuTimeTracker := mkCpuTime (f64_of total) None (Some (f64_of max)).
Definition at_least (x : f64) (n : Z) : bool := f64_le (f64_of_Z n) x.
Definition test_cpu_time_tracker_basic : bool :=
  let '(e, c) := end_window (10 * ms) (start_window 0 (tracker "0" "100")) in
  all [negb (is_over_budget (tracker "0" "100")); at_least e 5; negb (is_over_budget c)].
Definition test_cpu_time_tracker_over_budget : bool := is_over_budget (end_window (5 * ms) (start_window 0 (tracker "0" "0.001"))).2.
Definition test_cpu_time_tracker_reset : bool :=
  let c := tracker "50" "10" in
  all [is_over_budget c; negb (is_over_budget (reset_cpu_time c)); total_cpu_ms (reset_cpu_time c) == f64_of_Z 0].
Definition test_cpu_time_tracking_via_isolator : bool :=
  let '(e, t) := end_cpu_window (10 * ms) "tenant-a" (start_cpu_window 0 "tenant-a" isolator) in
  all [at_least e 5; default false ((λ u, at_least (total_cpu_ms (cpu_time u)) 5) <$> usage t !! "tenant-a")].
Definition test_validate_tenant_id_method : bool := all [is_ok (validate_tenant_id slug "valid-id"); is_err (validate_tenant_id slug "x")].

Definition tenant_suite : list bool :=
  [test_from_config; test_from_config_invalid_tenant_id; test_new_not_enabled; test_register_tenant;
   test_register_tenant_invalid_id; test_remove_tenant; test_check_quota_within_limits; test_check_quota_memory_exceeded;
   test_check_quota_cpu_exceeded; test_check_quota_rate_exceeded; test_check_quota_no_limits; test_check_quota_hardened_results;
   test_is_feature_allowed; test_is_feature_allowed_unknown_tenant; test_metrics; test_shim_metrics; test_get_config_and_usage;
   test_lifecycle; test_token_bucket_consume; test_token_bucket_exhaustion; test_token_bucket_refill; test_token_bucket_reset;
   test_token_bucket_no_burst_above_max; test_token_bucket_with_isolator; test_audit_log_records_operations;
   test_audit_log_max_entries; test_rejected_count_increments; test_metrics_includes_new_fields; test_cpu_time_tracker_basic;
   test_cpu_time_tracker_over_budget; test_cpu_time_tracker_reset; test_cpu_time_tracking_via_isolator;
   test_validate_tenant_id_method].
End tenant_tests.

Example tenant_tests_pass : all (@tenant_suite canonical_order) && all (@tenant_suite reversed_order) = true.
Proof. vm_compute. reflexivity. Qed.

End TenantTests.

(** ** The tests of [audit-shim/src/lib.rs], on [AuditLog.v]

    The disk is a map from the log directory's names to their contents, the codec of an
    entry that of [AuditLog.v]'s examples; the clock stands at 1. *)

Module AuditTests.
Import Prelude Text Config AuditLog Testing.
Open Scope test_scope.

#[local] Instance test_rfc : Rfc3339 := decimal_rfc3339.
#[local] Existing Instances demo_json demo_dates.

Definition base : AuditShim := new_audit (with_vars []).
Definition make_shim : AuditShim := base <| database := "testdb" |> <| log_queries := true |>.
Definition make_shim_with_dir : AuditShim := make_shim <| max_entries := 5 |>.
Definition args (op : string) (ms : Z) (ok : bool) : EntryArgs := mkArgs op None None ms None None None ok None.
(** [create_entry] and [log_entry(..).unwrap()] *)
Definition logging (a : EntryArgs) (sd : AuditShim * disk) : option (bool * (AuditShim * disk)) :=
  let '(e, s) := create_entry 1 a sd.1 in
  match log_entry log_io_ok (λ _, 1) e s sd.2 with (Ok b, s, d) => Some (b, (s, d)) | _ => None end.
Definition logged_n (l : list EntryArgs) (sd : AuditShim * disk) : option (AuditShim * disk) :=
  foldl (λ o a, sd ← o; snd <$> logging a sd) (Some sd) l.
(** [create_entry], and the entry pushed on the log *)
Definition pushed (a : EntryArgs) (s : AuditShim) : AuditShim := let '(e, s) := create_entry 1 a s in s <| log ::= λ l, l ++ [e] |>.
Definition filter_on (f : AuditFilter → AuditFilter) : AuditFilter := f default_filter.
#[local] Instance AuditFilter_settable : Settable AuditFilter := λ f,
  mkFilter (f_operation f) (f_table f) (f_success f) (f_min_duration_ms f) (f_since f) (f_limit f).

Definition test_should_audit_table_all : bool := all [should_audit_table "users" base; should_audit_table "orders" base].
Definition test_should_audit_table_filtered : bool :=
  let s := base <| tables := ["users"; "orders"] |> in all [should_audit_table "users" s; negb (should_audit_table "payments" s)].
Definition test_should_audit_table_case_insensitive : bool := should_audit_table "users" (base <| tables := ["USERS"] |>).
Definition test_log_entry_basic : bool :=
  match logging (mkArgs "SELECT" (Some "users") (Some "SELECT * FROM users") 5 (Some 10) None None true None) (make_shim, ∅) with
  | Some (r, (s, _)) => all [r; queries_logged s == 1; entry_count s == 1]
  | None => false
  end.
Definition test_log_entry_filtered_by_min_duration : bool :=
  match logging (args "SELECT" 5 true) (make_shim <| min_duration_ms := 100 |>, ∅) with
  | Some (r, (s, _)) => all [negb r; queries_filtered s == 1; queries_logged s == 0]
  | None => false
  end.
Definition test_log_entry_passes_min_duration : bool :=
  match logging (args "SELECT" 50 true) (make_shim <| min_duration_ms := 10 |>, ∅) with
  | Some (r, (s, _)) => all [r; queries_logged s == 1]
  | None => false
  end.
Definition test_log_queries_disabled : bool :=
  is_none (entry_query (create_entry 1 (mkArgs "SELECT" (Some "users") (Some "SELECT 1") 5 None None None true None) (make_shim <| log_queries := false |>)).1).
Definition test_query_by_operation : bool :=
  let s := pushed (args "INSERT" 5 true) (pushed (args "SELECT" 10 true) make_shim) in
  (operation <$> query (filter_on (λ f, f <| f_operation := Some "SELECT" |>)) s) == ["SELECT"].
Definition test_query_by_success : bool :=
  let s := pushed (mkArgs "SELECT" None None 5 None None None false (Some "timeout")) (pushed (args "SELECT" 10 true) make_shim) in
  (success <$> query (filter_on (λ f, f <| f_success := Some false |>)) s) == [false].
Definition test_query_with_limit : bool :=
  length (query (filter_on (λ f, f <| f_limit := 3%nat |>)) (Nat.iter 10 (pushed (args "SELECT" 1 true)) make_shim)) == 3%nat.
(** An entry of an instant (the tests write dates) *)
Definition entry_at (i op : string) (t : Z) : AuditEntry := mkEntry i (to_rfc3339 t) "testdb" op None None 5 None None None true None.
Definition test_query_since_filter : bool :=
  let s := make_shim <| log := [entry_at "audit-0000000001" "SELECT" 10; entry_at "audit-0000000002" "INSERT" 12] |> in
  (operation <$> query (filter_on (λ f, f <| f_since := Some (to_rfc3339 11) |>)) s) == ["INSERT"].
Definition test_stats : bool :=
  let s := pushed (args "SELECT" 30 false) (pushed (args "INSERT" 20 true) (pushed (args "SELECT" 10 true) make_shim)) in
  let st := stats (s <| queries_logged := 3 |> <| total_duration_ms := 60 |> <| max_duration_ms := 30 |>) in
  all [total_entries st == 3; success_count st == 2; failure_count st == 1; stat_max_duration_ms st == 30;
       near (avg_duration_ms st) (f64_of_Z 20) (f64_of "0.01")].
Definition test_clear_log_before : bool :=
  let s := make_shim <| log := [entry_at "audit-0000000001" "SELECT" 1; entry_at "audit-0000000002" "SELECT" 6] |> in
  all [entry_count s == 2; (id <$> log (clear_log_before 3 s)) == ["audit-0000000002"]].
Definition test_format_json : bool :=
  let e := entry_at "test" "SELECT" 1 in (operation <$> from_json (format_entry e (make_shim <| out_format := "json" |>))) == Some "SELECT".
Definition test_format_cef : bool := String.prefix "CEF:0|" (format_entry (entry_at "test" "SELECT" 1) (make_shim <| out_format := "cef" |>)).
Definition test_metrics : bool :=
  match logging (args "SELECT" 100 true) (make_shim, ∅) with
  | Some (_, (s, _)) => let m := audit_metrics s in
      all [length m == 4%nat; m !! 0%nat == Some ("audit_queries_logged_total", f64_of_Z 1); m !! 2%nat == Some ("audit_avg_duration_ms", f64_of_Z 100)]
  | None => false
  end.
(** [n]: the entries written before the restart, three in the code *)
Definition test_disk_persistence_write_and_reload (n : nat) : bool :=
  match logged_n ((λ i, args "SELECT" (Z.of_nat i) true) <$> seq 0 n) (make_shim_with_dir, ∅) with
  | Some (s, d) =>
      let '(r, s') := load_from_disk (λ _, None) d make_shim_with_dir in
      all [entry_count s == Z.of_nat n; is_ok r; entry_count s' == Z.of_nat n; entry_counter s' == Z.of_nat n;
           (entry_database <$> head (log s')) == Some "testdb"]
  | None => false
  end.
Definition test_disk_persistence_daily_file_naming : bool :=
  match logging (args "INSERT" 1 true) (make_shim_with_dir, ∅) with
  | Some (_, (_, d)) => (λ c, operation <$> entries_of c) <$> d !! "audit-1.log" == Some ["INSERT"]
  | None => false
  end.
Definition test_log_rotation : bool :=
  match logged_n ((λ i, args "SELECT" (Z.of_nat i) true) <$> seq 0 7) (make_shim_with_dir, ∅) with
  | Some (s, d) => all [max_entries s == 5; entry_count s <=? max_entries s; existsb (λ f, str_contains f.1 "rotate") (map_to_list d)]
  | None => false
  end.
Definition test_shared_http_client_created_in_new : bool :=
  all [negb (has_client base); has_client (make_shim <| has_client := true |>)].

Definition audit_suite : list bool :=
  [test_should_audit_table_all; test_should_audit_table_filtered; test_should_audit_table_case_insensitive; test_log_entry_basic;
   test_log_entry_filtered_by_min_duration; test_log_entry_passes_min_duration; test_log_queries_disabled;
   test_query_by_operation; test_query_by_success; test_query_with_limit; test_query_since_filter; test_stats;
   test_clear_log_before; test_format_json; test_format_cef; test_metrics; test_disk_persistence_daily_file_naming;
   test_log_rotation; test_shared_http_client_created_in_new].
Example audit_tests_pass : all (audit_suite ++ [test_disk_persistence_write_and_reload 2]) = true.
Proof. vm_compute. reflexivity. Qed.

End AuditTests.

(** ** The tests of [cost-shim/src/lib.rs], on [Cost.v]

    The clock stands at 0. *)

Module CostTests.
Import Prelude Floats Text Cost Testing.
Open Scope test_scope.

#[local] Instance test_rfc : Rfc3339 := decimal_rfc3339.
#[local] Instance test_chrono : Chrono := demo_chrono.
Section cost_tests.
Context {HO : HashOrder}.

Definition shim0 : CostShim := new_cost (with_vars []).
(** A budget; a panic would leave the shim *)
Definition budget_for (t l : string) (s : CostShim) : CostShim := default s (create_budget 0 t (f64_of l) s).
Definition used (t : string) (rt : ResourceType) (a u c : string) (s : CostShim) : CostShim :=
  (record_usage 0 t rt (f64_of a) u (f64_of c) s).2.
Definition spent_by (t : string) (s : CostShim) : f64 := default (f64_of_Z (-1)) (spent <$> get_budget t s).
Definition cents : f64 := f64_of "0.01".
Definition bill_of (l sp : string) : Budget := mkBudget "t1" (f64_of l) (f64_of sp) "USD" "2025-01-01T00:00:00Z" "2025-02-01T00:00:00Z".
Definition positive_ (x : f64) : bool := f64_lt (f64_of_Z 0) x.

Definition test_resource_type_display : bool := (resource_display <$> [Cpu; Memory; DatabaseReads]) == ["cpu"; "memory"; "db_reads"].
Definition test_resource_usage_total_cost : bool :=
  near (total_cost (mkResourceUsage Cpu (f64_of_Z 100) "hours" (f64_of "0.05") "2025-01-01T00:00:00Z")) (f64_of_Z 5) cents.
Definition test_budget_remaining : bool := near (remaining (bill_of "100" "30")) (f64_of_Z 70) cents.
Definition test_budget_usage_percent : bool := near (usage_percent (bill_of "100" "75")) (f64_of_Z 75) cents.
Definition test_budget_over_budget : bool := over_limit (bill_of "50" "60").
Definition test_budget_near_limit : bool :=
  all [is_near_limit (f64_of_Z 80) (bill_of "100" "85"); negb (is_near_limit (f64_of_Z 90) (bill_of "100" "85"))].
Definition test_create_budget_and_get : bool :=
  let s := budget_for "tenant-a" "200" shim0 in
  all [(limit <$> get_budget "tenant-a" s) == Some (f64_of_Z 200); spent_by "tenant-a" s == f64_of_Z 0; tenant_count s == 1].
Definition test_record_usage : bool :=
  let '(cost, s) := record_usage 0 "tenant-a" Cpu (f64_of_Z 10) "hours" (f64_of "0.05") (budget_for "tenant-a" "100" shim0) in
  all [near cost (f64_of "0.5") cents; near (spent_by "tenant-a" s) (f64_of "0.5") cents; resources_tracked s == 1].
Definition test_is_over_budget : bool :=
  let s := used "tenant-a" Memory "1000" "GB" "0.02" (budget_for "tenant-a" "10" shim0) in
  all [is_over_budget "tenant-a" s; negb (is_over_budget "nonexistent" s)].
Definition test_check_alerts : bool :=
  let '(l, s) := check_alerts (used "tenant-a" Cpu "500" "hours" "0.20" (budget_for "tenant-a" "100" (shim0 <| alert_threshold := f64_of_Z 80 |>))) in
  all [length l == 1%nat; alert_threshold_triggered s == 1].
Definition test_project_cost : bool :=
  match project_cost 0 "tenant-a" (used "tenant-a" Cpu "100" "hours" "0.01" (budget_for "tenant-a" "100" shim0)) with
  | Some p => all [positive_ (projected_monthly p); projected_tenant p == "tenant-a"]
  | None => false
  end.
Definition test_total_spend : bool :=
  near (total_spend (used "t2" Memory "5" "GB" "0.10" (used "t1" Cpu "10" "h" "0.05" (budget_for "t2" "100" (budget_for "t1" "100" shim0)))))
    (f64_of_Z 1) cents.
Definition test_reset_budgets : bool :=
  let s := used "tenant-a" Cpu "100" "h" "0.05" (budget_for "tenant-a" "100" shim0) in
  all [positive_ (spent_by "tenant-a" s); (spent_by "tenant-a" <$> reset_budgets (λ _, 0) s) == Some (f64_of_Z 0)].
Definition test_metrics : bool :=
  let m := cost_metrics (used "t1" Cpu "10" "h" "0.05" (budget_for "t2" "100" (budget_for "t1" "100" shim0))) in
  match snd <$> m with
  | [a; b; c; _] => all [a == f64_of_Z 2; b == f64_of_Z 1; near c (f64_of "0.5") cents]
  | _ => false
  end.

(** *** The optimizer *)

Definition opt0 : CostOptimizer := new_optimizer (with_vars []).
Definition recorded (n : nat) (r m v : string) (o : CostOptimizer) : CostOptimizer := Nat.iter n (record_point 0 r m (f64_of v)) o.
Definition advice (ty : RecommendationType) (o : CostOptimizer) : list CostRecommendation :=
  List.filter (λ r, bool_decide (recommendation_type r = ty)) (analyze o).1.
Definition no_advice (l : list CostRecommendation) : bool := length l == 0%nat.

Definition test_optimizer_default_enabled : bool := all [opt_enabled opt0; no_advice (recommendations opt0)].
Definition test_optimizer_record_usage : bool := length (usage_history (recorded 1 "server-1" "cpu_percent" "5" opt0)) == 1%nat.
Definition test_optimizer_analyze_disabled : bool :=
  no_advice (analyze (recorded 1 "server-1" "cpu_percent" "5" (opt0 <| opt_enabled := false |>))).1.
Definition test_optimizer_right_size_down : bool :=
  match (analyze (recorded 10 "server-1" "cpu_percent" "5" opt0)).1 with
  | r :: _ => all [recommendation_type r == RightSizeDown; resource_id r == "server-1"; current_value r == f64_of_Z 5; suggested_value r == f64_of_Z 10]
  | [] => false
  end.
Definition test_optimizer_right_size_up : bool :=
  (severity <$> head (advice RightSizeUp (recorded 10 "server-1" "cpu_percent" "90" opt0))) == Some "high".
Definition test_optimizer_idle_resource : bool :=
  (severity <$> head (advice IdleResource (recorded 10 "server-1" "cpu_percent" "0.5" opt0))) == Some "medium".
Definition test_optimizer_memory_underutilized : bool :=
  (recommendation_type <$> head (List.filter (λ r, bool_decide (unit_of r = "bytes"))
     (analyze (recorded 10 "server-1" "memory_bytes" "5" opt0)).1)) == Some RightSizeDown.
Definition test_optimizer_no_recommendations_no_data : bool := no_advice (analyze opt0).1.
Definition test_optimizer_thresholds : bool :=
  no_advice (advice RightSizeDown (recorded 5 "server-1" "cpu_percent" "5"
    (set_analysis_window 3 (set_overutilized_threshold (f64_of_Z 90) (set_underutilized_threshold (f64_of_Z 5) opt0))))).
Definition test_optimizer_clear_history : bool :=
  let '(r, o) := analyze (recorded 10 "server-1" "cpu_percent" "90" opt0) in
  all [(0 <? length (usage_history o))%nat; negb (no_advice r); length (usage_history (clear_history o)) == 0%nat;
       no_advice (recommendations (clear_history o))].
Definition test_optimizer_recommendation_type_display : bool :=
  (recommendation_display <$> [RightSizeDown; RightSizeUp; IdleResource; ReservedCapacity])
  == ["right_size_down"; "right_size_up"; "idle_resource"; "reserved_capacity"].
Definition test_optimizer_multiple_resources : bool :=
  let o := Nat.iter 10 (λ o, record_point 0 "server-2" "cpu_percent" (f64_of_Z 90) (record_point 0 "server-1" "cpu_percent" (f64_of_Z 5) o)) opt0 in
  let ids := resource_id <$> (analyze o).1 in all [bool_decide ("server-1" ∈ ids); bool_decide ("server-2" ∈ ids)].

(** *** The tests of [integration-tests] *)

Definition test_cost_budget_tracking : bool :=
  let s1 := used "cpu-monthly" Cpu "200" "hours" "1.0" (used "cpu-monthly" Cpu "100" "hours" "1.0" (budget_for "cpu-monthly" "1000" shim0)) in
  let s2 := used "cpu-monthly" Cpu "800" "hours" "1.0" s1 in
  match get_budget "cpu-monthly" s1, get_budget "cpu-monthly" s2 with
  | Some b1, Some b2 => all [negb (over_limit b1); negb (is_near_limit (f64_of_Z 80) b1); f64_lt (f64_of_Z 600) (remaining b1); over_limit b2;
                             (check_alerts s2).1 != []]
  | _, _ => false
  end.
Definition test_cost_multi_tenant_budgets : bool :=
  let s := used "tenant-b" Memory "50" "GB" "5.0" (used "tenant-a" Cpu "100" "hours" "1.0" (budget_for "tenant-b" "500" (budget_for "tenant-a" "1000" shim0))) in
  all [tenant_count s == 2; near (spent_by "tenant-a" s) (f64_of_Z 100) cents; near (spent_by "tenant-b" s) (f64_of_Z 250) cents;
       negb (is_over_budget "tenant-a" s); negb (is_over_budget "tenant-b" s)].
Definition test_cost_projection : bool :=
  match project_cost 0 "tenant-a" (used "tenant-a" Cpu "1000" "hours" "1.0" (budget_for "tenant-a" "10000" shim0)) with
  | Some p => all [projected_tenant p == "tenant-a"; near (current_cost p) (f64_of_Z 1000) cents; positive_ (projected_monthly p)]
  | None => false
  end.
Definition test_cost_alert_threshold : bool :=
  let '(l, _) := check_alerts (used "tenant-a" Cpu "90" "units" "1.0" (budget_for "tenant-a" "100" (new_cost (with_vars [("COST_ALERT_THRESHOLD", "80")])))) in
  bool_decide ("tenant-a" ∈ l).
Definition test_cost_budget_reset : bool :=
  let s := used "tenant-a" Cpu "50" "hours" "1.0" (budget_for "tenant-a" "100" shim0) in
  all [positive_ (spent_by "tenant-a" s); (spent_by "tenant-a" <$> reset_budgets (λ _, 0) s) == Some (f64_of_Z 0)].
Definition test_cost_optimizer_idle_recommendations : bool :=
  negb (no_advice (advice IdleResource (recorded 10 "idle-server" "cpu_percent" "0.5" opt0))).

Definition cost_suite : list bool :=
  [test_resource_type_display; test_resource_usage_total_cost; test_budget_remaining; test_budget_usage_percent; test_budget_over_budget;
   test_budget_near_limit; test_create_budget_and_get; test_record_usage; test_is_over_budget; test_check_alerts; test_project_cost;
   test_total_spend; test_reset_budgets; test_metrics; test_optimizer_default_enabled; test_optimizer_record_usage;
   test_optimizer_analyze_disabled; test_optimizer_right_size_down; test_optimizer_right_size_up; test_optimizer_idle_resource;
   test_optimizer_memory_underutilized; test_optimizer_no_recommendations_no_data; test_optimizer_thresholds;
   test_optimizer_clear_history; test_optimizer_recommendation_type_display; test_optimizer_multiple_resources;
   test_cost_budget_tracking; test_cost_multi_tenant_budgets; test_cost_projection; test_cost_alert_threshold; test_cost_budget_reset;
   test_cost_optimizer_idle_recommendations].
End cost_tests.

Example cost_tests_pass : all (@cost_suite canonical_order) && all (@cost_suite reversed_order) = true.
Proof. vm_compute. reflexivity. Qed.

End CostTests.
