(* ===== verification/TestEvents.v ===== *)
(** * The tests of the bus of [shim-core] and [alerting-shim]

    One Module per shim or file; the conventions are those of [Testing.v]. *)

From S2P Require Import Prelude Testing.
From S2P Require Floats Events Bus Wiring Alerting AlertingShim Chaos.

(** ** The tests of [shim-core]'s [event.rs], [bus.rs], [wiring.rs] and [alerting.rs], on
    [Events.v], [Bus.v], [Wiring.v] and [Alerting.v]

    The channel is the log of [Bus.v]; the pauses of the tests are runs of the handlers'
    tasks until none has work ([settle]).  The tests of serialization, and those that
    publish from several threads ([Bus.concurrent_publish_unique]), have no counterpart. *)

Module BusTests.
Import Prelude Floats Events Bus Wiring Alerting Testing.
Open Scope test_scope.

#[local] Instance test_external : External := demo_external.
#[local] Instance test_channel : Broadcast ShimEvent := log_broadcast ShimEvent.
Definition no_uuid : @uuid demo_external := 0.
Definition null : @json demo_external := tt.
Definition levels : list Severity := [Info; Notice; Warning; Error; Critical].
Definition made (src : string) (ev : EventType) (sev : Severity) : ShimEvent := new_event no_uuid 0 src ev sev.

(** *** Events *)

Definition custom (n : string) : EventType := Custom n null.
Definition test_event_new : bool :=
  let e := made "backup-shim" (BackupCompleted "daily" 1024 "abc123") Info in
  all [source e == "backup-shim"; sequence e == 0; negb (is_alertable e)].
Definition test_event_builder : bool :=
  let e := with_payload (with_correlation (with_sequence (made "tls-shim" (TlsCertExpiring "/etc/tls/cert.pem" 7) Warning) 42) 9) tt in
  all [sequence e == 42; bool_decide ((correlation_id e : option Z) = Some 9); is_alertable e; is_some (payload e)].
Definition test_severity_ordering_by_alertability : bool :=
  ((λ s, is_alertable (made "x" (custom "t") s)) <$> levels) == [false; false; true; true; true].
Definition test_is_alertable : bool :=
  ((λ s, is_alertable (made "x" (custom "test") s)) <$> [Info; Warning; Error; Critical]) == [false; true; true; true].

(** *** The bus *)

Definition emitted (b : ShimBus) (src : string) (ev : EventType) (sev : Severity) : ShimEvent * ShimBus := emit no_uuid 0 b src ev sev.
Definition x_of (src : string) (b : ShimBus) : ShimEvent * ShimBus := emitted b src (custom "x") Info.
(** What a receiver that subscribed to [b0] reads from [b] *)
Definition reads (b0 b : ShimBus) : list ShimEvent := backlog (tx b) (subscribe (tx b0)).
Definition test_bus_new : bool := total_published new_bus == 0.
Definition test_bus_publish_subscribe : bool :=
  let '(e, b) := emitted new_bus "backup-shim" (BackupStarted "daily") Info in
  all [sequence e == 1; total_published b == 1; ((λ e, (source e, sequence e)) <$> reads new_bus b) == [("backup-shim", 1)]].
Definition test_bus_sequence_monotonic : bool :=
  let '(e1, b) := x_of "shim-a" new_bus in let '(e2, b) := x_of "shim-a" b in let '(e3, b) := x_of "shim-b" b in
  (sequence <$> [e1; e2; e3]) == [1; 2; 1].
Definition test_bus_multiple_subscribers : bool :=
  let '(_, b) := emitted new_bus "tls-shim" (TlsCertRenewed "/etc/tls/cert.pem") Notice in
  (length (reads new_bus b), length (reads new_bus b)) == (1, 1)%nat.
Definition test_bus_sequence_for_source : bool :=
  let b1 := (x_of "shim-a" new_bus).2 in
  (sequence_for new_bus "shim-a", sequence_for b1 "shim-a", sequence_for (x_of "shim-a" b1).2 "shim-a") == (0, 1, 2).
(** The answers of a receiver, for a subscriber's filter *)
Definition answers (b : ShimBus) : list (RecvResult ShimEvent) := Received <$> reads new_bus b.
Definition test_subscriber_filtered : bool :=
  let b := (emitted new_bus "auth-shim" (AuthTokenRevoked "tok" "expired") Notice).2 in
  let b := (emitted b "backup-shim" (BackupCompleted "daily" 1024 "abc") Info).2 in
  (source <$> (sub_try_recv (mkBusSubscriber ["backup_completed"] Info) (answers b)).1) == Some "backup-shim".
Definition test_bus_subscriber_recv_filtered : bool :=
  let b := (emitted (emitted new_bus "shim" (custom "x") Info).2 "shim" (custom "y") Warning).2 in
  match sub_recv (mkBusSubscriber [] Warning) (answers b) with
  | Some (Some e, _) => severity e == Warning
  | _ => false
  end.
Definition test_bus_try_recv_empty : bool := is_none (source <$> (sub_try_recv (mkBusSubscriber [] Info) (answers new_bus)).1).

(** *** Handlers on the bus *)

(** One round of the tasks, and rounds until they wait (the fuel is more than enough for
    the events of the tests) *)
Definition round (w : wired) : wired := foldl (λ w h, default w (task_step no_uuid 0 w h)) w all_handlers.
Definition settle (w : wired) : wired := Nat.iter 20 round w.
(** A bus with one handler, kept by the test *)
Definition alone (h : Handler) (threshold : Z) : wired :=
  start_handler true {| w_bus := new_bus; w_threshold := threshold; w_rx := λ _, subscribe (tx new_bus);
    w_running := λ _, false; w_shutdown := λ _, false; w_count := λ _, 0; w_alerts := []; w_log := []; w_ext := []; w_out := λ _, [] |} h.
Definition said (w : wired) (l : list (string * EventType * Severity)) : wired :=
  foldl (λ w x, settle (wired_publish w (made x.1.1 x.1.2 x.2))) w l.
(** The events another receiver has seen, by their name *)
Definition seen (n : string) (w : wired) : list ShimEvent := List.filter (λ e, bool_decide (Events.event_name e = n)) (reads new_bus (w_bus w)).
Definition happens (n : string) (w : wired) : bool := negb (bool_decide (length (seen n w) = 0%nat)).
Definition health (a b : string) (sev : Severity) : string * EventType * Severity := ("health-shim", HealthStatusChanged a b, sev).
Definition test_health_failover_triggers_after_threshold : bool :=
  happens "failover_triggered" (said (alone HealthFailover 2) [health "healthy" "unhealthy" Warning; health "unhealthy" "unhealthy" Warning]).
Definition test_backup_encryption_forwards : bool :=
  match event <$> seen "encryption_key_rotated" (said (alone BackupEncryption 2) [("backup-shim", BackupCompleted "daily" 1024 "abc", Info)]) with
  | [EncryptionKeyRotated k _] => k == "backup-daily"
  | _ => false
  end.
Definition test_scheduler_backup_triggers : bool :=
  match event <$> seen "backup_started" (said (alone SchedulerBackup 2) [("scheduler-shim", SchedulerTaskFired "daily-backup" "0 2 * * *", Info)]) with
  | [BackupStarted n] => n == "daily-backup"
  | _ => false
  end.
Definition test_health_resets_on_healthy : bool :=
  negb (happens "failover_triggered" (said (alone HealthFailover 2)
    [health "healthy" "unhealthy" Warning; health "unhealthy" "healthy" Info; health "healthy" "unhealthy" Warning])).

(** *** Alerts *)

Definition rfc (t : Z) : string := pretty t.
Definition debug (e : EventType) : string := event_type_tag e.
Definition manager : AlertManager := new_alert_manager [].
Definition to_alert (e : ShimEvent) : AlertManagerAlert := event_to_alert rfc debug e.
Definition hook (min : AlertSeverity) (g : option string) : AlertManagerWebhook := mkWebhook "test" "http://localhost" min ∅ g.
Definition bare (sev : AlertSeverity) (src : string) : AlertManagerAlert := mkAlert no_uuid ∅ ∅ sev src None (rfc 0) "test".
Definition failed (src n : string) (sev : Severity) : ShimEvent := made src (BackupFailed n "timeout") sev.
Definition has (k : string) (m : gmap string string) : bool := is_some (m !! k).
Definition test_alert_severity_from_shim_severity : bool := (alert_severity_from <$> levels) == [AInfo; AInfo; AWarning; AError; ACritical].
Definition test_alert_severity_display : bool :=
  (alert_severity_display <$> [AInfo; AWarning; AError; ACritical]) == ["info"; "warning"; "error"; "critical"].
Definition test_webhook_accepts_severity : bool :=
  (accepts (hook AWarning None) <$> [AInfo; AWarning; AError; ACritical]) == [false; true; true; true].
Definition test_event_to_alert : bool :=
  let a := to_alert (failed "backup-shim" "daily" Error) in
  all [al_source a == "backup-shim"; al_severity a == AError; al_event_type a == "backup_failed"; bool_decide ((al_id a : Z) = no_uuid);
       has "summary" (al_annotations a); has "description" (al_annotations a); has "source" (al_labels a); has "severity" (al_labels a);
       has "event_type" (al_labels a)].
Definition test_event_to_alert_with_correlation_id : bool :=
  let a := to_alert (with_correlation (made "tls-shim" (TlsCertExpiring "/etc/tls/cert.pem" 3) Warning) 17) in
  bool_decide ((al_correlation_id a : option Z) = Some 17).
Definition test_build_webhook_payload : bool :=
  let p := build_webhook_payload manager (bare AWarning "test-shim") (hook AInfo (Some "test-group")) in
  all [wp_group p == "test-group"; length (wp_alerts p) == 1%nat; has "group" (wp_group_labels p); has "source" (wp_common_labels p)].
Definition test_build_webhook_payload_default_group : bool :=
  wp_group (build_webhook_payload manager (bare AInfo "test") (hook AInfo None)) == "shim-alerts".
Definition increasing (l : list Z) : bool := forallb (λ x, x.1 <? x.2) (zip l (tail l)).
Definition test_severity_rank_event_ordering : bool := increasing (severity_rank <$> levels).
Definition test_severity_rank_comparison : bool := increasing (alert_severity_rank <$> [AInfo; AWarning; AError; ACritical]).
Definition test_alert_manager_counters : bool := all [alerts_forwarded manager == 0; alerts_dropped manager == 0; delivery_failures manager == 0].
Definition test_alert_manager_builder : bool :=
  let m := with_dedup_window (with_external_url (with_min_severity manager Warning) "http://alertmanager:9093") (60 * 10 ^ 9) in
  all [am_min_severity m == Warning; external_url m == "http://alertmanager:9093"; dedup_window m == 60 * 10 ^ 9].
Definition test_convert_event : bool :=
  (al_source <$> wp_alerts (convert_event rfc debug manager (failed "backup-shim" "daily" Error))) == ["backup-shim"].
Definition test_dedup_key_uniqueness : bool := dedup_key (failed "backup-shim" "daily" Error) != dedup_key (failed "tls-shim" "daily" Critical).

(** *** The tests of [integration-tests] *)

Definition test_cross_shim_health_to_failover : bool :=
  ((λ e, (source e, severity e)) <$> seen "failover_triggered"
     (said (alone HealthFailover 2) [health "healthy" "unhealthy" Warning; health "unhealthy" "unhealthy" Warning]))
  == [("failover-shim", Critical)].
Definition test_cross_shim_backup_to_encryption : bool :=
  match event <$> seen "encryption_key_rotated"
          (said (alone BackupEncryption 2) [("backup-shim", BackupCompleted "postgres-daily" 5000000 "sha256:abcdef123456", Info)]) with
  | [EncryptionKeyRotated k a] => all [k == "backup-postgres-daily"; a == "AES-256-GCM"]
  | _ => false
  end.
Definition test_cross_shim_scheduler_to_backup : bool :=
  match event <$> seen "backup_started" (said (alone SchedulerBackup 2) [("scheduler-shim", SchedulerTaskFired "nightly-backup" "0 2 * * *", Info)]) with
  | [BackupStarted n] => n == "nightly-backup"
  | _ => false
  end.
(** The handler of this test is never started: its events are counted as published. *)
Definition test_cross_shim_alert_fan_in : bool :=
  let b := (emitted new_bus "backup-shim" (BackupFailed "redis-daily" "connection refused") Error).2 in
  let b := (emitted b "tls-shim" (TlsCertExpiring "/etc/tls/api.pem" 3) Warning).2 in
  let b := (emitted b "health-shim" (HealthStatusChanged "healthy" "unhealthy") Critical).2 in
  (3 <=? length (List.filter is_alertable (reads new_bus b)))%nat.
Definition test_wire_all_handlers : bool :=
  let w := said (wire_all_handlers new_bus) (replicate 3 (health "healthy" "unhealthy" Warning) ++
             [("scheduler-shim", SchedulerTaskFired "weekly-backup" "0 3 * * 0", Info)]) in
  all [happens "failover_triggered" w; happens "backup_started" w].
Definition test_bus_multi_source_sequencing : bool :=
  let '(e1, b) := x_of "shim-a" new_bus in let '(e2, b) := x_of "shim-b" b in let '(e3, _) := x_of "shim-a" b in
  (sequence <$> [e1; e2; e3]) == [1; 1; 2].

(** *** The tests of [integration-tests] that set a fault and say so on the bus

    The experiments of [Chaos.v] emit nothing themselves: it is the test that does. *)

#[local] Instance test_rfc : Rfc3339 := demo_rfc3339.
#[local] Existing Instance canonical_order.
#[local] Existing Instance Chaos.checked_duration.
Definition one : f64 := f64_of_Z 1.
Definition chaos0 : Chaos.ChaosShim := Chaos.new_chaos (with_vars []).
Definition experiment (n : string) (f : Chaos.FaultType) (t : string) (d : Z) (s : Chaos.ChaosShim) : Chaos.ChaosExperiment * Chaos.ChaosShim :=
  Chaos.start_experiment 0 n f t one d s.
Definition chaos_says (n : string) (sev : Severity) (b : ShimBus) : ShimBus := (emitted b "chaos-shim" (custom n) sev).2.
Definition heard (b : ShimBus) : list (string * Severity) := (λ e, (source e, severity e)) <$> reads new_bus b.
Definition test_chaos_triggers_health_events : bool :=
  let '(e, s) := experiment "chaos-health-test" Chaos.Latency "all" 60 (Chaos.set_latency 100 (Chaos.set_enabled true chaos0)) in
  all [heard (chaos_says "chaos.experiment.started" Warning new_bus) == [("chaos-shim", Warning)]; (Chaos.stop_experiment 0 (Chaos.id e) s).1].
Definition test_chaos_partition_triggers_failover : bool :=
  let o := Chaos.new_orchestrator (with_vars [("CHAOS_ORCHESTRATOR_ENABLED", "true")]) in
  match Chaos.orch_start 0 "partition-failover" Chaos.Partition "db-primary" one 30 o with
  | (Ok i, o) =>
      let b := chaos_says "chaos.fault.injected" Critical new_bus in
      let b := (emitted b "failover-shim" (FailoverTriggered "db-primary" "db-replica") Critical).2 in
      all [heard b == [("chaos-shim", Critical); ("failover-shim", Critical)]; (Events.event_name <$> drop 1 (reads new_bus b)) == ["failover_triggered"];
           (Chaos.complete_experiment 0 i true o).1]
  | _ => false
  end.
Definition test_chaos_triggers_alerting : bool :=
  let '(e, s) := experiment "alert-test" Chaos.Error "db-1" 30 chaos0 in
  all [heard (chaos_says "chaos.fault.injected" Error new_bus) == [("chaos-shim", Error)]; (Chaos.stop_experiment 0 (Chaos.id e) s).1].
(** The [unwrap]s of the metrics it reports do not fail. *)
Definition test_chaos_metrics_cross_shim : bool :=
  let '(_, s) := experiment "metrics-cross" Chaos.Latency "all" 60 (Chaos.set_latency 100 (Chaos.set_enabled true chaos0)) in
  let s := Nat.iter 10 (λ s, from_option snd s (Chaos.evaluate 0 (f64_of_Z 0) (f64_of_Z 0) "web-1" s)) s in
  all [forallb (λ n, is_some (metric (Chaos.chaos_metrics s) n)) ["chaos_faults_injected"; "chaos_active_experiments"; "chaos_injection_rate"];
       heard (chaos_says "chaos.metrics.report" Info new_bus) == [("chaos-shim", Info)]].

Definition bus_suite : list bool :=
  [test_event_new; test_event_builder; test_severity_ordering_by_alertability; test_is_alertable; test_bus_new;
   test_bus_publish_subscribe; test_bus_sequence_monotonic; test_bus_multiple_subscribers; test_bus_sequence_for_source;
   test_subscriber_filtered; test_bus_subscriber_recv_filtered; test_bus_try_recv_empty;
   test_health_failover_triggers_after_threshold; test_backup_encryption_forwards; test_scheduler_backup_triggers;
   test_health_resets_on_healthy; test_alert_severity_from_shim_severity; test_alert_severity_display;
   test_webhook_accepts_severity; test_event_to_alert; test_event_to_alert_with_correlation_id; test_build_webhook_payload;
   test_build_webhook_payload_default_group; test_severity_rank_event_ordering; test_severity_rank_comparison;
   test_alert_manager_counters; test_alert_manager_builder; test_convert_event; test_dedup_key_uniqueness;
   test_cross_shim_health_to_failover; test_cross_shim_backup_to_encryption; test_cross_shim_scheduler_to_backup;
   test_cross_shim_alert_fan_in; test_wire_all_handlers; test_bus_multi_source_sequencing;
   test_chaos_triggers_health_events;
   test_chaos_partition_triggers_failover;
   test_chaos_triggers_alerting;
   test_chaos_metrics_cross_shim].
Example bus_tests_pass : all bus_suite = true.
Proof. vm_compute. reflexivity. Qed.

End BusTests.

(** ** The tests of [alerting-shim/src/lib.rs], on [AlertingShim.v]

    The webhooks a test writes as JSON are given to the shim as they are parsed; the clock
    stands at 0, and moves on between two failures. *)

Module AlertingTests.
Import Prelude AlertingShim Testing.
Open Scope test_scope.

Definition sec : Z := 10 ^ 9.
Definition shim_of (l : list WebhookConfig) : AlertingShim := new_alerting (λ _, Some l) (with_vars [("ALERTING_WEBHOOKS", "json")]).
Definition shim0 : AlertingShim := new_alerting (λ _, None) (with_vars []).
Definition make_alert (t : string) (sev : Severity) : Alert := mkAlert "id" t (t +:+ " happened") sev "test" ∅ 0.
Definition webhook (n url ch min : string) : WebhookConfig := mkWebhookConfig n url ch min ∅.
Definition severity_of (s : string) : option Severity := match severity_parse s with Ok x => Some x | Err _ => None end.
Definition routed (sev : Severity) (s : AlertingShim) : list string := wh_name <$> route (make_alert "t" sev) s.
(** [process_alert(..).unwrap()]: no client is made before [init], so nothing is sent *)
Definition processed (a : Alert) (s : AlertingShim) : option (Z * AlertingShim) := (process_alert (λ _ _, false) (λ _, (0, 0)) 0 0 a s).2.

Definition test_severity_parse : bool :=
  (severity_of <$> ["info"; "warning"; "warn"; "critical"; "fatal"; "unknown"])
  == [Some Info; Some Warning; Some Warning; Some Critical; Some Critical; None].
Definition test_severity_ordering : bool := all [severity_index Warning <? severity_index Critical; severity_index Info <? severity_index Warning].
Definition test_severity_display : bool := (severity_display <$> [Info; Warning; Critical]) == ["info"; "warning"; "critical"].
Definition test_webhook_accepts : bool :=
  (accepts (webhook "slack" "https://hooks.slack.com/xxx" "#alerts" "warning") <$> [Info; Warning; Critical]) == [false; true; true].
Definition test_dedup_prevents_duplicate : bool :=
  let s := record_alert 0 (make_alert "dup-test" Warning) shim0 in
  all [is_duplicate 0 (make_alert "dup-test" Warning) s; negb (is_duplicate 0 (make_alert "dup-test" Critical) s)].
Definition test_process_alert_dedup : bool :=
  let a := make_alert "proc-dup" Info in
  match processed a (record_alert 0 a shim0) with Some (n, s) => all [n == 0; alerts_deduplicated s == 1] | None => false end.
Definition test_process_alert_route : bool :=
  (fst <$> processed (make_alert "route-test" Info)
     (shim_of [webhook "w1" "http://localhost/webhook" "#ops" "info"; webhook "w2" "http://localhost/pager" "#critical" "critical"])) == Some 1.
Definition test_backoff_calculation : bool :=
  let d := calculate_backoff shim0 in all [d 0 <? d 1; d 1 <? d 5; d 20 <=? backoff_max shim0 * sec].
Definition failing (t : Z) (s : AlertingShim) : AlertingShim := default s (record_failure t t "w1" s).
Definition test_backoff_state_tracking : bool :=
  let s := failing 0 shim0 in
  all [negb (is_in_backoff 0 "w1" shim0); is_in_backoff 0 "w1" s; negb (is_in_backoff 0 "w1" (record_success 0 "w1" s))].
Definition until (s : AlertingShim) : Z := default 0 (endpoint_states s !! "w1" ≫= backoff_until).
Definition test_consecutive_failures_increase_backoff : bool := let s := failing 0 shim0 in until s <? until (failing 1 s).
Definition test_route_filters_by_severity : bool :=
  let s := shim_of [webhook "info-ch" "http://x" "#info" "info"; webhook "crit-ch" "http://y" "#crit" "critical"] in
  all [routed Info s == ["info-ch"]; length (routed Critical s) == 2%nat].
Definition test_clear_dedup_cache : bool :=
  let a := make_alert "cache-clear" Info in let s := record_alert 0 a shim0 in
  all [is_duplicate 0 a s; negb (is_duplicate 0 a (clear_dedup_cache s))].
Definition test_metrics : bool :=
  (snd <$> alerting_metrics (shim0 <| alerts_sent := 10 |> <| alerts_failed := 2 |> <| alerts_deduplicated := 5 |>)) == (f64_of_Z <$> [10; 2; 5]).

(** *** The tests of [integration-tests] *)

Definition test_alerting_routing_and_dedup : bool :=
  let s := shim_of [webhook "slack" "http://localhost:3001/slack" "#alerts" "info"; webhook "pager" "http://localhost:3002/pager" "critical" "warning"] in
  all [routed Info s == ["slack"]; length (routed Warning s) == 2%nat; length (routed Critical s) == 2%nat].
Definition test_alerting_dedup_window_boundary : bool :=
  let s := record_alert 0 (make_alert "Test" Info) shim0 in
  all [is_duplicate 0 (make_alert "Test" Info) s; negb (is_duplicate 0 (make_alert "Test" Critical) s)].
Definition test_alerting_webhook_severity_filter : bool :=
  let s := shim_of [webhook "info-only" "http://x" "#info" "info"; webhook "crit-only" "http://y" "#crit" "critical"] in
  all [routed Info s == ["info-only"]; length (routed Critical s) == 2%nat].
Definition test_alerting_metrics_counts : bool :=
  let a := make_alert "t" Info in
  match processed a (record_alert 0 a shim0) ≫= λ r, processed a r.2 with
  | Some (_, s) => metric (alerting_metrics s) "alerting_deduplicated_total" == Some (f64_of_Z 2)
  | None => false
  end.

(** The server of the test takes every post; what a post says is not looked at. *)
Definition e2e_alerting_shim_webhook_delivery : bool :=
  let w := webhook "test" "http://127.0.0.1:3001/webhook" "#test" "info" in
  let '(r, s) := AlertingShim.init true (shim_of [w]) in
  let a := mkAlert "e2e-001" "E2E Test Alert" "This is an end-to-end test alert" Warning "e2e-test" {["env" := "test"]} 0 in
  match process_alert (λ _ _, true) (λ _, (0, 0)) 0 0 a s with
  | (posts, Some (n, s)) => all [is_ok r; (0 <? length (route a s))%nat; 0 <? n; (wh_name ∘ fst <$> posts) == ["test"]; alerts_sent s == 1]
  | _ => false
  end.

Definition alerting_suite : list bool :=
  [test_severity_parse; test_severity_ordering; test_severity_display; test_webhook_accepts; test_dedup_prevents_duplicate;
   test_process_alert_dedup; test_process_alert_route; test_backoff_calculation; test_backoff_state_tracking;
   test_consecutive_failures_increase_backoff; test_route_filters_by_severity; test_clear_dedup_cache; test_metrics;
   test_alerting_routing_and_dedup; test_alerting_dedup_window_boundary; test_alerting_webhook_severity_filter;
   test_alerting_metrics_counts;
   e2e_alerting_shim_webhook_delivery].
Example alerting_tests_pass : all alerting_suite = true.
Proof. vm_compute. reflexivity. Qed.

End AlertingTests.
