(* ===== verification/TestSecrets.v ===== *)
(** * The tests of [encryption-shim], [tls-shim] and [vault-shim]

    One Module per shim or file; the conventions are those of [Testing.v]. *)

From S2P Require Import Prelude Testing.
From S2P Require Text Auth Encryption Config Tls Floats Net Vault.

(** ** The tests of [encryption-shim/src/lib.rs], on [Encryption.v]

    The ciphers are those of [Encryption.v]'s examples; hexadecimal is read by
    [Auth.hex_decode].  What the tests assert of the ciphers themselves - the length of a
    ciphertext - is left out. *)

Module EncryptionTests.
Import Prelude Text Auth Encryption Testing.
Open Scope test_scope.

#[local] Existing Instance demo_aead.
#[local] Instance EncryptionMethod_eq_dec : EqDecision EncryptionMethod.
Proof. solve_decision. Defined.

Definition unhex (h : string) : result string string :=
  match hex_decode h with Some (Some m) => Ok m | _ => Err "invalid hex" end.
Definition made (env : list (string * string)) : option EncryptionShim :=
  new_encryption (with_vars env) (λ _, Err "") unhex (λ _, None) (Nat.iter 32 (String "r") "") 0.
Definition hex_key : string := "0123456789abcdef0123456789abcdef0123456789abcdef0123456789abcdef".
Definition on_shim (env : list (string * string)) (k : EncryptionShim → bool) : bool :=
  match made env with Some s => k s | None => false end.
Definition keyed : list (string * string) := [("ENCRYPTION_KEY", hex_key)].
Definition nonce_of (c : Ascii.ascii) : string := Nat.iter 12 (String c) "".
(** [encrypt(..).unwrap()], with a continuation *)
Definition sealed (p : string) (c : Ascii.ascii) (s : EncryptionShim) (k : EncryptedPayload → EncryptionShim → bool) : bool :=
  match encrypt p (Some (nonce_of c)) "" s with Some (Ok pl, s) => k pl s | _ => false end.
Definition opens_to (p : string) (pl : EncryptedPayload) (s : EncryptionShim) : bool :=
  match decrypt pl s with Some (Ok x, _) => x == p | _ => false end.
Definition method_of (s : string) : option EncryptionMethod := match method_from_str s with Ok m => Some m | Err _ => None end.
(** A round trip, the payload's method, and the counters after it *)
Definition roundtrip (p : string) (c : Ascii.ascii) (name : string) (s : EncryptionShim) : bool :=
  sealed p c s (λ pl s, match decrypt pl s with
                        | Some (Ok x, s) => all [x == p; method_name pl == name; String.length (nonce pl) == NONCE_SIZE; String.length (tag pl) == 16%nat;
                                                 encryptions_total s == 1; decryptions_total s == 1]
                        | _ => false
                        end).

Definition test_encryption_method_parse : bool :=
  (method_of <$> ["aes-gcm"; "aes256gcm"; "chacha20"; "invalid"]) == [Some AesGcm; Some AesGcm; Some ChaCha20; None].
Definition test_encryption_method_display : bool := (method_display <$> [AesGcm; ChaCha20]) == ["aes-gcm"; "chacha20"].
Definition test_new_with_env_key : bool :=
  on_shim (keyed ++ [("ENCRYPTION_KEY_ID", "test-key"); ("ENCRYPTION_METHOD", "aes-gcm")])
    (λ s, all [method s == AesGcm; active_key_id s == Some "test-key"; is_some (keys s !! "test-key")]).
Definition test_aes_gcm_roundtrip : bool := on_shim keyed (roundtrip "hello world, this is a secret message" "1" "aes-gcm").
Definition test_chacha20_roundtrip : bool :=
  on_shim (("ENCRYPTION_METHOD", "chacha20") :: keyed) (roundtrip "chacha20 test data" "2" "chacha20").
Definition with_key_id (i : string) (pl : EncryptedPayload) : EncryptedPayload :=
  mkPayload i (nonce pl) (ciphertext pl) (tag pl) (method_name pl) (aad pl).
Definition test_decryption_wrong_key_fails : bool :=
  on_shim keyed (λ s, sealed "secret" "3" s (λ pl s,
    match decrypt (with_key_id "nonexistent" pl) s with Some (r, _) => is_err r | None => false end)).
(** A payload of before a rotation, and one of after it *)
Definition rotation (new_id new_hex : string) (s : EncryptionShim) : bool :=
  sealed "data" "4" s (λ pl s,
    match unhex new_hex with
    | Ok m => let '(r, s) := rotate_key new_id m 0 s in
              match decrypt pl s with
              | Some (Ok x, s) => all [pl_key_id pl == "default"; is_ok r; x == "data"; decryption_key_rotation_hits s == 1;
                                       sealed "data2" "5" s (λ pl2 _, pl_key_id pl2 == new_id)]
              | _ => false
              end
    | Err _ => false
    end).
Definition test_key_rotation : bool :=
  on_shim keyed (rotation "key-v2" "abcdef0123456789abcdef0123456789abcdef0123456789abcdef0123456789").
Definition test_metrics : bool :=
  on_shim [] (λ s, let m := encryption_metrics (s <| encryptions_total := 10 |> <| decryptions_total := 8 |> <| decryption_key_rotation_hits := 2 |>) in
                   all [length m == 4%nat; (snd <$> m !! 0%nat) == Some 10]).

(** *** The tests of [integration-tests] *)

Definition test_encryption_aes_gcm_roundtrip : bool :=
  on_shim (("ENCRYPTION_METHOD", "aes-gcm") :: keyed) (λ s,
    all [roundtrip "Hello, EvergreenShims! This is a secret message." "1" "aes-gcm" s; sealed "x" "1" s (λ pl _, pl_key_id pl == "default")]).
Definition test_encryption_chacha20_roundtrip : bool :=
  on_shim (("ENCRYPTION_METHOD", "chacha20") :: keyed) (λ s, sealed "ChaCha20 encryption test data" "2" s (opens_to "ChaCha20 encryption test data")).
Definition test_encryption_key_rotation : bool :=
  on_shim keyed (rotation "v2" "abcdef0123456789abcdef0123456789abcdef0123456789abcdef0123456789").

Definition e2e_encryption_aes_gcm_roundtrip : bool :=
  forallb (λ p, on_shim (("ENCRYPTION_METHOD", "aes-gcm") :: keyed) (roundtrip p "*" "aes-gcm"))
    [""; "short"; "The quick brown fox jumps over the lazy dog. 1234567890!@#$%^&*()"; Nat.iter 1024 (String Ascii.zero) "";
     "{database:{host:db.prod,port:5432},credentials:{user:admin,pass:s3cret}}"].
(** No wrong key is tried. *)
Definition e2e_encryption_wrong_key_fails : bool :=
  on_shim (("ENCRYPTION_METHOD", "aes-gcm") :: keyed) (λ s, sealed "secret data" "1" s (λ pl s,
    match unhex "abcdef0123456789abcdef0123456789abcdef0123456789abcdef0123456789" with
    | Ok m => let '(r, s) := rotate_key "v2" m 0 s in
              all [is_ok r; opens_to "secret data" pl s; sealed "new data" "2" s (λ pl2 _, pl_key_id pl2 == "v2")]
    | Err _ => false
    end)).

Definition encryption_suite : list bool :=
  [test_encryption_method_parse; test_encryption_method_display; test_new_with_env_key; test_aes_gcm_roundtrip;
   test_chacha20_roundtrip; test_decryption_wrong_key_fails; test_key_rotation; test_metrics; test_encryption_aes_gcm_roundtrip;
   test_encryption_chacha20_roundtrip; test_encryption_key_rotation;
   e2e_encryption_aes_gcm_roundtrip;
   e2e_encryption_wrong_key_fails].
Example encryption_tests_pass : all encryption_suite = true.
Proof. vm_compute. reflexivity. Qed.

End EncryptionTests.

(** ** The tests of [tls-shim/src/lib.rs], on [Tls.v]

    A certificate is what the environment of [Tls.v]'s examples makes; the clock stands
    at 0.  The tests of the certificates themselves have no counterpart. *)

Module TlsTests.
Import Prelude Text Config Tls Testing.
Open Scope test_scope.

#[local] Existing Instances demo_chrono decimal_rfc3339 canonical_order.
Definition shim0 : TlsShim := new_tls (with_vars []).
Definition cert_for (d : string) (days : Z) : CertInfo :=
  mkCert d "Test CA" (to_rfc3339 0) (to_rfc3339 (days * 86400 * 10 ^ 9)) "1234" "abcdef" days None None.
Definition checked (c : CertInfo) : CertValidation := default (mkValidation false [] []) (validate_cert c).
Definition nl : string := String newline "".
Definition version_of (s : string) : option Z := version_rank <$> version_from_str s.

Definition test_tls_version_parse : bool :=
  (version_of <$> ["TLSv1.2"; "TLSv1.3"; "1.0"; "invalid"]) == [Some (version_rank Tls1_2); Some (version_rank Tls1_3); Some (version_rank Tls1_0); None].
Definition test_tls_version_display : bool := (version_display <$> [Tls1_2; Tls1_3]) == ["TLSv1.2"; "TLSv1.3"].
Definition three_days : TlsShim := shim0 <| renew_before_secs := 259200 |>.
Definition test_needs_renewal_true : bool := needs_renewal three_days (cert_for "example.com" 2).
Definition test_needs_renewal_false : bool := negb (needs_renewal three_days (cert_for "example.com" 10)).
Definition test_validate_cert_valid : bool :=
  let r := checked (cert_for "example.com" 60) in all [valid r; errors r == []].
Definition test_validate_cert_expired : bool :=
  let r := checked (cert_for "example.com" (-1)) in all [negb (valid r); existsb (λ e, str_contains e "expired") (errors r)].
Definition test_validate_cert_warnings : bool :=
  let r := checked (cert_for "example.com" 5) in all [valid r; warnings r != []].
Definition with_pem (p : string) : CertInfo :=
  let c := cert_for "example.com" 60 in
  mkCert (ci_domain c) (issuer c) (not_before c) (not_after c) (serial c) (fingerprint c) (days_until_expiry c) (Some p) None.
Definition test_validate_cert_with_pem : bool := let r := checked (with_pem demo_pem) in all [valid r; errors r == []].
Definition test_validate_cert_invalid_pem : bool :=
  let r := checked (with_pem "not a real PEM certificate") in
  all [negb (valid r); existsb (λ e, str_contains e "Invalid certificate PEM") (errors r)].
Definition test_register_and_get_cert : bool :=
  let s := register_cert (cert_for "example.com" 90) shim0 in all [is_some (ci_domain <$> get_cert "example.com" s); cert_count s == 1%nat].
Definition two_certs (a b : string) (d : Z) : TlsShim := register_cert (cert_for b 90) (register_cert (cert_for a d) shim0).
Definition test_remove_cert : bool :=
  let '(r, s) := remove_cert "a.com" (two_certs "a.com" "b.com" 90) in all [r; cert_count s == 1%nat; negb (remove_cert "nonexistent.com" s).1].
Definition test_expiring_soon : bool :=
  match expiring_soon 30 (two_certs "expiring.com" "safe.com" 5) with [x] => str_contains x "expiring.com" | _ => false end.
Definition test_version_allowed : bool :=
  ((λ v, version_allowed v (shim0 <| min_version := Tls1_2 |>)) <$> [Tls1_2; Tls1_3; Tls1_1; Tls1_0]) == [true; true; false; false].
Definition test_cert_count_empty : bool := cert_count shim0 == 0%nat.
Definition test_metrics : bool := metric (tls_metrics (two_certs "a.com" "b.com" 90)) "tls_managed_certs" == Some 2.

(** *** Renewals *)

Definition renewing (s : TlsShim) : answer unit * TlsShim * Disk := renew_certificate_async demo_sha demo_outside (with_vars []) (demo_clock 0) s empty_disk.
Definition fails_ (a : answer unit) : bool := match a with Answered (Err _) => true | _ => false end.
Definition at_dir (d : string) (p : string) : TlsShim := shim0 <| domain := d |> <| provider := p |> <| data_dir := "dir" |>.
Definition test_renew_certificate_internal_ca : bool :=
  match renewing (at_dir "test.example.com" "internal-ca") with
  | (Answered (Ok _), s, d) => all [certs_renewed s == 1; is_some (last_renewal s); is_some (files d !! "dir/test.example.com.pem");
                                    is_some (files d !! "dir/test.example.com.key")]
  | _ => false
  end.
Definition test_renew_certificate_no_domain : bool := fails_ (renewing (at_dir "" "letsencrypt")).1.1.
Definition test_renew_certificate_unknown_provider : bool := fails_ (renewing (at_dir "example.com" "unknown")).1.1.
Definition test_compute_fingerprint : bool :=
  match compute_fingerprint demo_sha demo_pem with Some f => all [str_contains f ":"; String.length f == 95%nat] | None => false end.
Definition test_extract_serial : bool := (String.length <$> extract_serial demo_sha demo_pem) == Some 32%nat.
Definition test_load_cert_nonexistent : bool :=
  match load_cert_from_disk demo_sha (demo_clock 0) (at_dir "a" "internal-ca") empty_disk with Some None => true | _ => false end.
Definition test_save_and_load_cert : bool :=
  let s := at_dir "save-test.com" "internal-ca" in
  let '(r, d) := save_cert_to_disk demo_pem "key" s empty_disk in
  match load_cert_from_disk demo_sha (demo_clock 0) s d with
  | Some (Some c) => all [is_ok r; ci_domain c == "save-test.com"; is_some (cert_pem c); is_some (key_pem c)]
  | _ => false
  end.

(** *** PEM *)

Definition roundtrips (data label : string) : bool := pem_decode (pem_encode data label) label == Some (Some data).
Definition bytes_to (n : nat) : string := String.string_of_list_ascii ((λ i, Ascii.ascii_of_nat (i mod 256)) <$> seq 0 n).
Definition test_pem_encode_decode_roundtrip : bool :=
  let data := "Hello, World! This is test data for PEM encoding." in
  all [str_contains (pem_encode data "TEST DATA") "BEGIN TEST DATA"; roundtrips data "TEST DATA"].
Definition test_pem_roundtrip_empty_payload : bool := roundtrips "" "EMPTY".
Definition test_pem_roundtrip_single_byte : bool := roundtrips "A" "BYTE".
Definition test_pem_roundtrip_exact_64_byte_boundary : bool := roundtrips (bytes_to 64) "BOUNDARY".
(** [n]: ten thousand bytes in the code *)
Definition test_pem_roundtrip_large_payload (n : nat) : bool :=
  all [str_contains (pem_encode (bytes_to n) "LARGE") "BEGIN LARGE"; roundtrips (bytes_to n) "LARGE"].
Definition test_pem_decode_wrong_label_fails : bool := pem_decode (pem_encode "secret" "CERTIFICATE") "PRIVATE KEY" == Some None.
Definition test_pem_decode_invalid_base64_fails : bool :=
  pem_decode ("-----BEGIN TEST-----" +:+ nl +:+ "!!!invalid-base64!!!" +:+ nl +:+ "-----END TEST-----" +:+ nl) "TEST" == Some None.
Definition test_pem_decode_missing_end_marker_fails : bool := pem_decode ("-----BEGIN TEST-----" +:+ nl +:+ "SGVsbG8=" +:+ nl) "TEST" == Some None.
Definition test_pem_roundtrip_all_binary_values : bool := roundtrips (bytes_to 256) "FULLBYTE".
Definition test_pem_encode_produces_correct_structure : bool :=
  let pem := pem_encode "test" "LABEL" in
  all [String.prefix ("-----BEGIN LABEL-----" +:+ nl) pem; ends_with ("-----END LABEL-----" +:+ nl) pem; length (split_on newline pem) == 4%nat].

Definition tls_suite : list bool :=
  [test_tls_version_parse; test_tls_version_display; test_needs_renewal_true; test_needs_renewal_false; test_validate_cert_valid;
   test_validate_cert_expired; test_validate_cert_warnings; test_validate_cert_with_pem; test_validate_cert_invalid_pem;
   test_register_and_get_cert; test_remove_cert; test_expiring_soon; test_version_allowed; test_cert_count_empty; test_metrics;
   test_renew_certificate_internal_ca; test_renew_certificate_no_domain; test_renew_certificate_unknown_provider;
   test_compute_fingerprint; test_extract_serial; test_load_cert_nonexistent; test_save_and_load_cert;
   test_pem_encode_decode_roundtrip; test_pem_roundtrip_empty_payload; test_pem_roundtrip_single_byte;
   test_pem_roundtrip_exact_64_byte_boundary; test_pem_decode_wrong_label_fails; test_pem_decode_invalid_base64_fails;
   test_pem_decode_missing_end_marker_fails; test_pem_roundtrip_all_binary_values; test_pem_encode_produces_correct_structure].
Example tls_tests_pass : all (tls_suite ++ [test_pem_roundtrip_large_payload 300]) = true.
Proof. vm_compute. reflexivity. Qed.

End TlsTests.

(** ** The tests of [vault-shim], on [Vault.v]

    The tests that write credentials as JSON and read them back have no counterpart. *)

Module VaultTests.
Import Prelude Text Floats Net Config Vault Testing.
Open Scope test_scope.

Definition shim (l : list (string * string)) : VaultShim := new_vault (with_vars l).
Definition no_check (_ : string) : option string := None.
Definition credentials (u p : string) : Credentials := mkCredentials u p "2024-01-01T00:00:00Z" None.
(** A rotation in which everything works, and the file before it *)
Definition fine : Replies := mkReplies (Ok ∅) (Ok (mkDynamic None None None)) (Ok ()) 0 0 0.
Definition nothing_written : Outside := mkOutside None [].

Definition test_vault_shim_defaults : bool :=
  let s := shim [] in
  all [vault_addr s == "https://127.0.0.1:8200"; vault_token s == ""; vault_role s == ""; vault_secret s == ""; vault_key s == "password";
       vault_mount s == "secret"; rotation_secs s == 3600; negb (tls_skip_verify s)].
Definition test_tls_skip_verify_default_off : bool := negb (tls_skip_verify (shim [])).
Definition test_tls_skip_verify_true : bool := tls_skip_verify (shim [("VAULT_TLS_SKIP_VERIFY", "true")]).
Definition test_tls_skip_verify_one : bool := tls_skip_verify (shim [("VAULT_TLS_SKIP_VERIFY", "1")]).
Definition test_tls_skip_verify_false_string : bool := negb (tls_skip_verify (shim [("VAULT_TLS_SKIP_VERIFY", "false")])).
Definition test_env_overrides : bool :=
  let s := shim [("VAULT_ADDR", "https://vault.prod:8200"); ("VAULT_TOKEN", "hvs.test-token"); ("VAULT_ROLE", "postgres-admin");
                 ("VAULT_SECRET", "secret/data/db"); ("VAULT_KEY", "pass"); ("VAULT_MOUNT", "kv"); ("VAULT_ROTATION_SECS", "1800")] in
  all [vault_addr s == "https://vault.prod:8200"; vault_token s == "hvs.test-token"; vault_role s == "postgres-admin";
       vault_secret s == "secret/data/db"; vault_key s == "pass"; vault_mount s == "kv"; rotation_secs s == 1800].
Definition test_metrics_initial : bool :=
  (vault_metrics (shim [])).*1 == ["vault_rotation_success_total"; "vault_rotation_failure_total"].
Definition test_metrics_with_last_rotation : bool :=
  let m := vault_metrics ((shim []) <| last_rotation := Some 1700000000 |>) in
  all [length m == 3%nat; (m.*1 !! 2%nat) == Some "vault_rotation_last_success_timestamp"].
Definition test_write_credentials_to_file : bool :=
  let '(r, w) := write_credentials fine (credentials "admin" "secret") ((shim []) <| output_file := Some "/tmp/x/creds.txt" |>) nothing_written in
  all [is_ok r; credentials_file w == Some ("admin:secret" +:+ String "010" "")].
Definition test_write_credentials_no_output_file : bool :=
  is_ok (write_credentials fine (credentials "user" "pass") ((shim []) <| output_file := None |>) nothing_written).1.
Definition test_vault_shim_config_override : bool :=
  let c := default_config <| vault := Some (mkVault "https://vault.prod:8200" "dynamic-role" "secret/data/db" 1800) |> in
  let '(r, s) := init (λ _, true) no_check no_check (with_vars []) c (shim []) in
  all [is_ok r; vault_addr s == "https://vault.prod:8200"; vault_role s == "dynamic-role"; vault_secret s == "secret/data/db";
       rotation_secs s == 1800].

Definition vault_suite : list bool :=
  [test_vault_shim_defaults; test_tls_skip_verify_default_off; test_tls_skip_verify_true; test_tls_skip_verify_one;
   test_tls_skip_verify_false_string; test_env_overrides; test_metrics_initial; test_metrics_with_last_rotation;
   test_write_credentials_to_file; test_write_credentials_no_output_file; test_vault_shim_config_override].
Example vault_tests_pass : all vault_suite = true.
Proof. vm_compute. reflexivity. Qed.

End VaultTests.
