(* ===== verification/TestConfig.v ===== *)
(** * The tests of the configuration of [shim-core] and [config-shim]

    One Module per shim or file; the conventions are those of [Testing.v]. *)

From S2P Require Import Prelude Testing.
From S2P Require Text Floats Net Config HotReload Commands ConfigShim.

(** ** The tests of [shim-core/src/config.rs], on [Config.v]

    A cron expression is taken to be good when it has six or seven fields, a URL when it
    starts with [https://]; the directory [/tmp] exists.  The tests that only print a
    configuration as TOML or JSON and read it back have no counterpart. *)

Module ConfigTests.
Import Prelude Text Floats Net Config Testing.
Open Scope test_scope.

Definition cron_error (s : string) : option string :=
  let n := length (split_whitespace s) in if bool_decide (n = 6 \/ n = 7)%nat then None else Some "Invalid expression".
Definition https_error (s : string) : option string := if String.prefix "https://" s then None else Some "not an https URL".
Definition path_exists (p : string) : bool := bool_decide (p = "/tmp").
(** The fields [validate] and [validate_schema] complain about *)
Definition errors (c : Config) : list string := field <$> validate path_exists cron_error https_error c.
Definition schema_errors (c : Config) : list string := field <$> validate_schema path_exists cron_error https_error c.
Definition complains (f : string) (c : Config) : bool := bool_decide (f ∈ errors c).
Definition schema_complains (f : string) (c : Config) : bool := bool_decide (f ∈ schema_errors c).
Definition valid_config (c : Config) : bool := errors c == [].
Definition c0 : Config := default_config.

Definition listening (l : string) : Config := c0 <| health ::= λ h, h <| listen := l |> |>.
Definition vaulted (addr : string) (secs : Z) : Config := c0 <| vault := Some (mkVault addr "test" "secret/data" secs) |>.
Definition backed_up (sched store : string) (days : Z) : Config := c0 <| backup := Some (mkBackup sched store days "mydb" "") |>.
Definition migrating (dir : string) (port : Z) : Config :=
  c0 <| migration := Some (mkMigrationConfig dir "mydb" false "127.0.0.1" port "postgres" "" "postgres") |>.
Definition secured (dom : string) (before : Z) : Config := c0 <| tls := Some (mkTls "letsencrypt" dom "test@example.com" before) |>.
Definition failing_over (check timeout threshold : Z) (hook : option string) : Config :=
  c0 <| failover := Some (mkFailoverConfig "10.0.0.1:5432" "10.0.0.2:5432" check timeout threshold hook "postgres") |>.
Definition tenant (i : string) : TenantConfig := mkTenant i None None None [] no_quota 1.
Definition tenanted (l : list TenantConfig) : Config := c0 <| tenants := l |>.

(** *** Defaults *)

Definition test_process_config_default_command_is_empty : bool := command default_process == "".
Definition test_config_default_has_empty_process_command : bool := command (process c0) == "".
Definition test_valid_default_config : bool := valid_config c0.
Definition test_resource_quota_default : bool :=
  let q := resource_quota c0 in
  all [is_none (quota_memory_bytes q); is_none (quota_cpu_percent q); is_none (quota_open_files q); is_none (quota_connections q)].
Definition test_tenants_default_empty : bool := length (tenants c0) == 0%nat.
Definition test_config_default_version : bool := version c0 == Some "1.0".

(** *** [validate] *)

Definition test_invalid_health_listen : bool := complains "health.listen" (listening "not-an-address").
Definition test_invalid_health_interval_zero : bool := complains "health.interval_secs" (c0 <| health ::= λ h, h <| interval_secs := 0 |> |>).
Definition test_invalid_health_timeout_zero : bool := complains "health.timeout_secs" (c0 <| health ::= λ h, h <| timeout_secs := 0 |> |>).
Definition test_invalid_vault_addr_not_url : bool := complains "vault.addr" (vaulted "ftp://vault.local" 3600).
Definition test_invalid_vault_rotation_zero : bool := complains "vault.rotation_secs" (vaulted "https://vault.local" 0).
Definition test_valid_vault_config : bool := valid_config (vaulted "https://vault.local" 60).
Definition test_invalid_backup_retention_zero : bool := complains "backup.retention_days" (backed_up "0 2 * * *" "s3" 0).
Definition test_invalid_backup_schedule_bad_cron : bool := complains "backup.schedule" (backed_up "not-a-cron" "local" 7).
Definition test_valid_backup_empty_schedule : bool := valid_config (backed_up "" "local" 30).
Definition test_invalid_migration_db_port_zero : bool := complains "migration.db_port" (migrating "/tmp/test-migrations" 0).
Definition test_invalid_tls_domain_empty : bool := complains "tls.domain" (secured "" 86400).
Definition test_invalid_tls_renew_before_zero : bool := complains "tls.renew_before_secs" (secured "example.com" 0).
Definition test_invalid_failover_check_interval_zero : bool := complains "failover.check_interval_secs" (failing_over 0 10 3 None).
Definition test_invalid_failover_timeout_zero : bool := complains "failover.timeout_secs" (failing_over 5 0 3 None).
Definition test_invalid_failover_threshold_zero : bool := complains "failover.failure_threshold" (failing_over 5 10 0 None).
Definition test_multiple_errors_collected : bool :=
  length (errors (c0 <| health ::= λ h, h <| listen := "bad" |> <| interval_secs := 0 |> <| timeout_secs := 0 |> |>)) == 3%nat.
Definition test_validation_error_display : bool := error_display (mkError "health.listen" "bad value") == "health.listen: bad value".
Definition test_vault_url_valid : bool := valid_config (vaulted "https://vault.example.com:8200" 3600).
Definition test_health_valid_custom_listen : bool :=
  valid_config (c0 <| health ::= λ h, h <| listen := "127.0.0.1:8080" |> <| interval_secs := 30 |> <| timeout_secs := 15 |> |>).
Definition test_validate_duplicate_tenant_ids : bool := existsb (λ f, str_contains f "tenant_id") (errors (tenanted [tenant "dup"; tenant "dup"])).
Definition test_validate_empty_tenant_id : bool := existsb (λ f, str_contains f "tenant_id") (errors (tenanted [tenant ""])).
Definition test_validate_tenant_cpu_out_of_range : bool :=
  existsb (λ f, str_contains f "max_cpu_percent") (errors (tenanted [(tenant "t1") <| max_cpu_percent := Some (f64_of_Z 150) |>])).
Definition test_config_unknown_version_warns : bool := complains "version" (c0 <| version := Some "9.9" |>).

(** *** The environment, and merging *)

Definition test_config_from_env_resource_quota : bool :=
  let q := resource_quota (from_env (with_vars [("SHIM_MAX_MEMORY_BYTES", "2048"); ("SHIM_MAX_CPU_PERCENT", "50.5"); ("SHIM_MAX_OPEN_FILES", "512")])) in
  all [quota_memory_bytes q == Some 2048; quota_cpu_percent q == Some (f64_of "50.5"); quota_open_files q == Some 512].
Definition test_config_from_env_invalid_resource_quota : bool :=
  is_none (quota_memory_bytes (resource_quota (from_env (with_vars [("SHIM_MAX_MEMORY_BYTES", "not_a_number")])))).
Definition memory_of (n : Z) (c : Config) : Config := c <| resource_quota ::= λ q, q <| quota_memory_bytes := Some n |> |>.
Definition test_config_merge_resource_quota : bool :=
  quota_memory_bytes (resource_quota (merge (with_vars [("SHIM_MAX_MEMORY_BYTES", "4096")]) (memory_of 4096 c0) c0)) == Some 4096.
Definition test_config_merge_without_env_override : bool :=
  quota_memory_bytes (resource_quota (merge (with_vars []) (memory_of 2048 c0) (memory_of 1024 c0))) == Some 1024.
Definition test_config_from_env_tenant : bool :=
  match tenants (from_env (with_vars [("SHIM_TENANT_ID", "env-tenant"); ("SHIM_TENANT_MAX_MEMORY", "4096"); ("SHIM_TENANT_MAX_CPU", "75.5")])) with
  | [t] => all [tenant_id t == "env-tenant"; max_memory_bytes t == Some 4096; max_cpu_percent t == Some (f64_of "75.5")]
  | _ => false
  end.
Definition test_config_from_env_no_tenant : bool := length (tenants (from_env (with_vars []))) == 0%nat.
Definition test_config_merge_tenant_env_override : bool :=
  let ids := tenant_id <$> tenants (merge (with_vars [("SHIM_TENANT_ID", "env-tenant")])
    (tenanted [(tenant "env-tenant") <| max_memory_bytes := Some 4096 |>]) (tenanted [tenant "file-tenant"])) in
  all [bool_decide ("env-tenant" ∈ ids); bool_decide ("file-tenant" ∈ ids)].

(** *** [validate_schema] *)

Definition test_validate_schema_default_config_passes : bool := schema_errors c0 == [].
Definition test_validate_schema_port_out_of_range : bool := schema_complains "health.listen" (listening "0.0.0.0:70000").
Definition test_validate_schema_migration_port_zero : bool := schema_complains "migration.db_port" (migrating "/tmp" 0).
Definition test_validate_schema_invalid_cron_expression : bool := schema_complains "backup.schedule" (backed_up "not-a-valid-cron" "s3" 7).
Definition test_validate_schema_valid_cron_expression : bool := schema_errors (backed_up "0 0 2 * * *" "s3" 7) == [].
Definition test_validate_schema_empty_backup_storage : bool := schema_complains "backup.storage" (backed_up "0 2 * * *" "" 7).
Definition test_validate_schema_vault_invalid_url_scheme : bool := schema_complains "vault.addr" (vaulted "ftp://vault.local" 3600).
Definition test_validate_schema_failover_webhook_invalid_scheme : bool :=
  schema_complains "failover.webhook" (failing_over 5 10 3 (Some "ftp://hooks.example.com")).
Definition test_validate_schema_failover_webhook_valid : bool :=
  negb (schema_complains "failover.webhook" (failing_over 5 10 3 (Some "https://hooks.example.com"))).
Definition test_validate_schema_empty_migration_dir : bool := schema_complains "migration.dir" (migrating "" 5432).
Definition test_validate_schema_multiple_errors_collected : bool :=
  (3 <=? length (schema_errors ((backed_up "bad" "" 0) <| health := health (listening "0.0.0.0:70000") |>)))%nat.
Definition test_validate_schema_health_valid_custom_port : bool := negb (schema_complains "health.listen" (listening "127.0.0.1:8080")).
Definition test_validate_schema_health_port_zero : bool := schema_complains "health.listen" (listening "0.0.0.0:0").

Definition config_suite : list bool :=
  [test_process_config_default_command_is_empty; test_config_default_has_empty_process_command;
   test_valid_default_config; test_resource_quota_default; test_tenants_default_empty; test_config_default_version;
   test_invalid_health_listen; test_invalid_health_interval_zero; test_invalid_health_timeout_zero;
   test_invalid_vault_addr_not_url; test_invalid_vault_rotation_zero; test_valid_vault_config; test_invalid_backup_retention_zero;
   test_invalid_backup_schedule_bad_cron; test_valid_backup_empty_schedule; test_invalid_migration_db_port_zero;
   test_invalid_tls_domain_empty; test_invalid_tls_renew_before_zero; test_invalid_failover_check_interval_zero;
   test_invalid_failover_timeout_zero; test_invalid_failover_threshold_zero; test_multiple_errors_collected;
   test_validation_error_display; test_vault_url_valid; test_health_valid_custom_listen; test_validate_duplicate_tenant_ids;
   test_validate_empty_tenant_id; test_validate_tenant_cpu_out_of_range; test_config_unknown_version_warns;
   test_config_from_env_resource_quota; test_config_from_env_invalid_resource_quota; test_config_merge_resource_quota;
   test_config_merge_without_env_override; test_config_from_env_tenant; test_config_from_env_no_tenant;
   test_config_merge_tenant_env_override; test_validate_schema_default_config_passes; test_validate_schema_port_out_of_range;
   test_validate_schema_migration_port_zero; test_validate_schema_invalid_cron_expression;
   test_validate_schema_valid_cron_expression; test_validate_schema_empty_backup_storage;
   test_validate_schema_vault_invalid_url_scheme; test_validate_schema_failover_webhook_invalid_scheme;
   test_validate_schema_failover_webhook_valid; test_validate_schema_empty_migration_dir;
   test_validate_schema_multiple_errors_collected; test_validate_schema_health_valid_custom_port;
   test_validate_schema_health_port_zero].
Example config_tests_pass : all config_suite = true.
Proof. vm_compute. reflexivity. Qed.

End ConfigTests.

(** ** The tests of [shim-core/src/hotreload.rs], on [HotReload.v]

    The tests write the file 200 ms after the start and look 1500 ms later; the
    notifications of a write, of which there may be several, come at once.  Of
    the tests with several threads, those that assert something of the configuration are
    readings between those turns. *)

Module HotReloadTests.
Import Prelude Text Floats Net Config HotReload ConfigTests Testing.
Open Scope test_scope.

(** A file with a [health.listen] line, or one that is not TOML *)
Definition listening_on (l : string) : string → result string Config.Config := λ _, Ok (listening l).
Definition not_toml : string → result string Config.Config := λ _, Err "expected `.`, `=`".
Definition watching : ConfigWatcher := new_watcher (listening_on "0.0.0.0:9200") (Some "shim.toml").
Definition no_validator : Config.Config → list ConfigValidationError := λ _, [].
Definition validator : Config.Config → list ConfigValidationError := validate path_exists cron_error https_error.
(** The two notifications of a write at [at_ms] after the start *)
Definition write_at (at_ms : Z) (c : string → result string Config.Config) : list Turn :=
  (λ d, mkTurn Modify ((at_ms + d) * 10 ^ 6) ((at_ms + d) * 10 ^ 6) c 1700000000) <$> [0; 1].
Definition watched (v : Config.Config → list ConfigValidationError) (us : list Turn) : Thread := run_thread v us (start_thread 0 watching).
Definition address (w : ConfigWatcher) : string := listen (health (config w)).

Definition test_config_watcher_new : bool := address watching == "0.0.0.0:9200".
Definition test_config_watcher_reload : bool :=
  String.prefix "0.0.0.0:" (address (watcher (watched no_validator (write_at 200 (listening_on "0.0.0.0:9300"))))).
Definition test_config_watcher_invalid_config_keeps_previous : bool :=
  address (watcher (watched no_validator (write_at 200 not_toml))) == "0.0.0.0:9200".
Definition test_reload_metrics_creation : bool := all [reload_total new_metrics == 0; reload_failed_total new_metrics == 0].
Definition test_reload_metrics_increments : bool :=
  let u := mkTurn Modify 0 0 not_toml 0 in
  let m := count_failure (count_reload u (count_reload u new_metrics)) in
  all [reload_total m == 2; reload_failed_total m == 1].
Definition test_config_watcher_with_metrics : bool :=
  is_some (metrics (with_metrics (listening_on "0.0.0.0:9200") (Some "shim.toml"))).
Definition test_validate_callback_type : bool := bool_decide (validator default_config = []).
Definition test_validate_callback_rejects_invalid : bool := negb (bool_decide (validator (listening "not-an-address") = [])).
(** Five writes, 800 ms apart, and a reading after each *)
Definition test_concurrent_config_reload_and_read : bool :=
  let step t i := run_thread no_validator (write_at (200 + 800 * i) (listening_on ("0.0.0.0:" +:+ pretty (9300 + i)))) t in
  let ts := (λ n, foldl step (start_thread 0 watching) (take n [0; 1; 2; 3; 4])) <$> [0; 1; 2; 3; 4; 5]%nat in
  forallb (λ t, String.prefix "0.0.0.0:9" (address (watcher t)) && (Z.of_nat (length (called_back t)) <=? 5)) ts.
Definition test_concurrent_validate_and_read : bool := bool_decide (validator (config watching) = []).
Definition test_config_watcher_start_watching_with_validation : bool :=
  String.prefix "0.0.0.0:" (address (watcher (watched validator (write_at 200 (listening_on "0.0.0.0:9300"))))).
Definition test_config_watcher_validation_rejects_bad_config : bool :=
  address (watcher (watched validator (write_at 200 (listening_on "not-an-address")))) == "0.0.0.0:9200".

Definition hotreload_suite : list bool :=
  [test_config_watcher_new; test_config_watcher_reload; test_config_watcher_invalid_config_keeps_previous;
   test_reload_metrics_creation; test_reload_metrics_increments; test_config_watcher_with_metrics; test_validate_callback_type;
   test_validate_callback_rejects_invalid; test_concurrent_config_reload_and_read;
   test_concurrent_validate_and_read; test_config_watcher_start_watching_with_validation;
   test_config_watcher_validation_rejects_bad_config].
Example hotreload_tests_pass : all hotreload_suite = true.
Proof. vm_compute. reflexivity. Qed.

(** The two tests of refusals would pass without any: a write 200 ms after the start is
    within the debounce time, so the file is not read, good or bad. *)
Theorem early_write_unread v c at_ms :
  0 ≤ at_ms < 499 → watched v (write_at at_ms c) = start_thread 0 watching.
Proof.
  intros H. unfold watched, run_thread, write_at. cbn [fmap list_fmap foldl].
  assert (∀ d, 0 ≤ d ≤ 1 → turn v (mkTurn Modify ((at_ms + d) * 10 ^ 6) ((at_ms + d) * 10 ^ 6) c 1700000000)
            (start_thread 0 watching) = start_thread 0 watching) as Hd.
  { intros d Hd. unfold turn. simpl over. simpl event. cbn [seen_at last_reload start_thread debounce watching new_watcher with_debounce watcher].
    by rewrite (proj2 (Z.ltb_lt _ _)) by lia. }
  by rewrite !Hd by lia.
Qed.

End HotReloadTests.

(** ** The tests of [config-shim], on [ConfigShim.v]

    A file is its content, its hash stands for SHA-256; the command [false] fails. *)

Module ConfigShimTests.
Import Prelude Text Commands ConfigShim Testing.
Open Scope test_scope.

Definition path : string := "/tmp/x/config.toml".
Definition sha (s : string) : string := toy_hash "sha256" s.
Definition holding (content : string) : World := mkWorld {[path := content]} [].
Definition shell (_ : World) (c : Command) : result string Output :=
  Ok (mkOutput (negb (bool_decide (c = mkCommand "sh" ["-c"; "false"; path] []))) "" "").
Definition copies (_ : string) : option string := None.
Definition new : ConfigShim := new_config_shim (with_vars []).
Definition at_path : ConfigShim := new <| config_path := path |>.
Definition hash_of (w : World) (p : string) : option string := file_hash sha w p.
Definition file : string := "key = 'value'".

Definition test_file_hash_consistent : bool :=
  let h := hash_of (holding file) path in all [is_some h; h == hash_of (holding file) path; h != Some ""].
Definition test_file_hash_changes_on_content_change : bool := hash_of (holding file) path != hash_of (holding "key = 'changed'") path.
Definition test_file_hash_none_for_missing : bool := is_none (hash_of (holding file) "/nonexistent/file.toml").
Definition test_validate_succeeds_with_valid_cmd : bool := is_ok (validate shell new (holding file) path).
Definition test_validate_fails_for_bad_cmd : bool :=
  is_err (validate shell (new <| validate_cmd := Some "false" |>) (holding "bad config") path).
Definition test_backup_creates_file : bool :=
  let '(r, w) := backup copies (at_path <| keep_backup := true |>) (holding "original content") in
  all [r == Ok (Some (path +:+ ".bak")); files w !! (path +:+ ".bak") == Some "original content"].
Definition test_backup_skipped_when_disabled : bool :=
  (backup copies (at_path <| keep_backup := false |>) (holding "content")).1 == Ok None.
Definition test_parse_signal : bool :=
  (parse_signal <$> ["SIGHUP"; "SIGUSR1"; "SIGUSR2"; "SIGTERM"; "sighup"; "1"; "INVALID"])
  == [Some SIGHUP; Some 10; Some 12; Some 15; Some SIGHUP; Some SIGHUP; None].
Definition test_reload_skips_unchanged : bool :=
  let s := at_path <| keep_backup := false |> <| last_hash := hash_of (holding file) path |> in
  match reload sha shell copies (λ _, None) 0 s (holding file) with
  | (Ok e, s', _) => all [success e; new_hash e == old_hash e; reloads_total s' == 0]
  | _ => false
  end.
Definition test_metrics : bool :=
  let m := config_metrics (new <| reloads_total := 5 |> <| reloads_success := 4 |> <| reloads_failed := 1 |>
                             <| last_reload := Some 1700000000000000000 |>) in
  all [length m == 4%nat; take 3 m == [("config_reloads_total", 5); ("config_reloads_success", 4); ("config_reloads_failed", 1)]].
Definition test_set_child_pid : bool := all [is_none (child_pid new); child_pid (set_child_pid 12345 new) == Some 12345].

Definition e2e_config_shim_detects_change : bool :=
  let w1 := holding "database_host = db.prod, database_port = 5432" in
  let w2 := holding "database_host = db.staging, database_port = 5433" in
  all [is_some (hash_of w1 path); is_some (hash_of w2 path); hash_of w1 path != hash_of w2 path; is_ok (validate shell new w2 path);
       from_option (λ c, str_contains c "db.staging") false (files w2 !! path)].

Definition config_shim_suite : list bool :=
  [test_file_hash_consistent; test_file_hash_changes_on_content_change; test_file_hash_none_for_missing;
   test_validate_succeeds_with_valid_cmd; test_validate_fails_for_bad_cmd; test_backup_creates_file;
   test_backup_skipped_when_disabled; test_parse_signal; test_reload_skips_unchanged; test_metrics; test_set_child_pid;
   e2e_config_shim_detects_change].
Example config_shim_tests_pass : all config_shim_suite = true.
Proof. vm_compute. reflexivity. Qed.

End ConfigShimTests.
