(* ===== verification/TestRuntime.v ===== *)
(** * The tests of [resource.rs], [structured_logging.rs], [metrics.rs] and [health.rs] of [shim-core], and [health-shim]

    One Module per shim or file; the conventions are those of [Testing.v]. *)

From S2P Require Import Prelude Testing.
From S2P Require Text Floats Net Config Resource Events Logging Metrics Commands Health.

(** ** The tests of [shim-core/src/resource.rs], on [Resource.v]

    [/proc] is that of [Resource.v]'s examples.  The tests that read the machine's own
    [/proc], or the text a registry prints, have no counterpart. *)

Module ResourceTests.
Import Prelude Text Floats Net Config Resource Testing.
Open Scope test_scope.

Definition proc : Proc := demo_proc 5.
Definition only_memory (n : Z) : ResourceQuota := mkQuota (Some n) None None None.
Definition only_files (n : Z) : ResourceQuota := mkQuota None None (Some n) None.
Definition roomy : ResourceQuota := mkQuota (Some (2 ^ 64 - 1)) (Some (f64_of_Z 100)) (Some (2 ^ 32 - 1)) None.
Definition within (q : ResourceQuota) : bool := (check_quotas 0 0 proc (new_monitor q)).1.

Definition test_resource_usage_default : bool :=
  all [is_none (memory_bytes no_usage); is_none (cpu_percent no_usage); is_none (open_files no_usage); is_none (cpu_user_time no_usage);
       is_none (cpu_system_time no_usage)].
Definition test_resource_monitor_creation : bool := is_none (metrics (new_monitor no_quota)).
Definition test_resource_monitor_with_metrics : bool := is_some (metrics (with_metrics no_quota)).
Definition test_check_quotas_no_limits_always_ok : bool := within no_quota.
Definition test_check_quotas_within_limit : bool := within roomy.
Definition test_check_quotas_over_limit : bool := negb (within (only_memory 1)).
Definition test_check_quotas_over_open_files_limit : bool := negb (within (only_files 1)).
Definition test_check_quotas_warning_level_memory : bool := negb (within (only_memory 2)).
Definition test_check_quotas_warning_level_files : bool := negb (within (only_files 2)).
Definition test_set_cpu_percent : bool := (g_cpu_percent <$> metrics (set_cpu_percent (f64_of "42.5") (with_metrics no_quota))) == Some (f64_of "42.5").
Definition test_quota_accessor : bool :=
  let q := quota (new_monitor (mkQuota (Some 4096) None (Some 256) None)) in
  all [quota_memory_bytes q == Some 4096; quota_open_files q == Some 256].
Definition test_periodic_monitoring_running_flag : bool :=
  let m := new_monitor no_quota in all [negb (running m); negb (running (stop_periodic_monitoring m))].
Definition test_read_usage_returns_something_on_linux : bool :=
  let u := (read_usage 0 0 proc (new_monitor no_quota)).1 in
  all [0 <? default 0 (memory_bytes u); 0 <? default 0 (open_files u)].
Definition test_read_usage_updates_cpu_state : bool :=
  let m := (read_usage 0 0 proc (new_monitor no_quota)).2 in
  all [is_some (prev_cpu_user m); is_some (prev_cpu_system m); is_some (prev_wall_time m)].
Definition test_stop_and_start_periodic_monitoring : bool :=
  let m := start_periodic_monitoring (new_monitor no_quota) in
  let m' := stop_periodic_monitoring m in all [running m; negb (running m'); is_none (running <$> periodic_turn proc m')].
Definition test_check_quotas_metrics_update : bool :=
  let '(r, m) := check_quotas 0 0 proc (with_metrics roomy) in
  all [r; default false ((λ g, f64_lt (f64_of_Z 0) (g_memory_bytes g)) <$> metrics m)].

Definition resource_suite : list bool :=
  [test_resource_usage_default; test_resource_monitor_creation; test_resource_monitor_with_metrics;
   test_check_quotas_no_limits_always_ok; test_check_quotas_within_limit; test_check_quotas_over_limit;
   test_check_quotas_over_open_files_limit; test_check_quotas_warning_level_memory; test_check_quotas_warning_level_files;
   test_set_cpu_percent; test_quota_accessor; test_periodic_monitoring_running_flag; test_read_usage_returns_something_on_linux;
   test_read_usage_updates_cpu_state; test_stop_and_start_periodic_monitoring; test_check_quotas_metrics_update].
Example resource_tests_pass : all resource_suite = true.
Proof. vm_compute. reflexivity. Qed.

End ResourceTests.

(** ** The tests of [shim-core/src/structured_logging.rs], on [Logging.v]

    Uuids are numbers here, drawn one after the other; the tests of the subscriber have
    no counterpart. *)

Module LoggingTests.
Import Prelude Text Events Logging Testing.
Open Scope test_scope.

#[local] Instance test_external : External := demo_external.
Definition uuid1 : uuid := 41.
Definition uuid2 : uuid := 42.
#[local] Instance uuid_eq : EqDecision uuid := _ : EqDecision Z.
Definition now : Z := 1700000000000000000.
(** An operation of two milliseconds *)
Definition tracked (op shim status : string) : OperationMetrics := complete (now + 2 * 10 ^ 6) status (start_tracker now op shim uuid1).
Definition all_digits (s : string) : bool := str_all (λ c, is_some (parse_unsigned 9 (String c ""))) s.
Definition first_ids : list string := generate_ids [1700000000000; 1700000000000] REQUEST_COUNTER.

Definition test_request_context_new : bool :=
  let c := new_context uuid1 "test-shim" in all [shim_name c == "test-shim"; is_none (correlation c)].
Definition test_request_context_with_correlation : bool :=
  correlation (context_with_correlation uuid1 "shim" uuid2) == Some uuid2.
Definition test_operation_tracker_start_and_complete : bool :=
  let m := tracked "backup" "backup-shim" "success" in
  all [om_operation m == "backup"; om_shim m == "backup-shim"; om_status m == "success"; duration_ms m <? 1000; om_request m == uuid1].
Definition test_generate_request_id : bool :=
  match first_ids with [a; b] => all [starts_with a "req-"; a != b] | _ => false end.
Definition test_derive_correlation_id : bool := derive_correlation_id "req-123" == "corr-req-123".
Definition test_request_context_new_uniqueness : bool :=
  request_id (new_context uuid1 "shim") != request_id (new_context uuid2 "shim").
Definition test_request_context_with_correlation_uniqueness : bool :=
  let c1 := context_with_correlation uuid1 "shim" 7 in
  let c2 := context_with_correlation uuid2 "shim" 7 in
  all [request_id c1 != request_id c2; correlation c1 == correlation c2].
Definition test_operation_tracker_complete_status_values : bool :=
  all [om_status (tracked "op1" "shim1" "success") == "success"; om_status (tracked "op2" "shim2" "error") == "error"].
Definition test_operation_tracker_metrics_fields : bool :=
  let m := tracked "test-op" "test-shim" "ok" in all [om_operation m == "test-op"; om_shim m == "test-shim"; om_request m == uuid1].
Definition test_generate_request_id_format : bool :=
  match split_on "-" (default "" (head first_ids)) with
  | [r; t; n] => all [r == "req"; all_digits t; all_digits n]
  | _ => false
  end.
Definition test_generate_request_id_sequential : bool :=
  let seq i := split_on "-" i !! 2%nat ≫= parse_unsigned (2 ^ 64 - 1) in
  match first_ids with
  | [a; b] => match seq a, seq b with Some x, Some y => y == x + 1 | _, _ => false end
  | _ => false
  end.
Definition test_derive_correlation_id_empty : bool := derive_correlation_id "" == "corr-".
Definition test_derive_correlation_id_long : bool :=
  let i := derive_correlation_id (Nat.iter 200 (String.append "a") "") in
  all [starts_with i "corr-"; Nat.ltb 200 (String.length i)].

Definition logging_suite : list bool :=
  [test_request_context_new; test_request_context_with_correlation; test_operation_tracker_start_and_complete;
   test_generate_request_id; test_derive_correlation_id; test_request_context_new_uniqueness;
   test_request_context_with_correlation_uniqueness; test_operation_tracker_complete_status_values;
   test_operation_tracker_metrics_fields; test_generate_request_id_format; test_generate_request_id_sequential;
   test_derive_correlation_id_empty; test_derive_correlation_id_long].
Example logging_tests_pass : all logging_suite = true.
Proof. vm_compute. reflexivity. Qed.

End LoggingTests.

(** ** The tests of [shim-core/src/metrics.rs] and [metrics_export.rs], on [Metrics.v]

    [text] writes families the way the text format does, without comments and buckets.
    The replies of a server are those of its handlers. *)

Module MetricsTests.
Import Prelude Text Floats Metrics Testing.
Open Scope test_scope.

Definition line (n : string) (v : f64) : string := n +:+ " " +:+ f64_display v +:+ String newline "".
Definition family_text (f : Family) : string :=
  let n := family_name f in
  match family_samples f with
  | Single v => line n v
  | Labelled l => String.concat "" ((λ kv, line (n +:+ "{" +:+ kv.1 +:+ "}") kv.2) <$> l)
  | Observed l => line (n +:+ "_count") (f64_of_Z (Z.of_nat (length l)))
  end.
Definition text (l : list Family) : string := String.concat "" (family_text <$> l).
Definition contains (s : string) (l : list string) : bool := forallb (str_contains s) l.
Definition lines (s : string) : list string := split_on "010" s.
Definition valid_line (s : string) : bool :=
  match s with
  | "" => true
  | String c _ => let n := Z.of_nat (nat_of_ascii c) in
                  ((65 <=? n) && (n <=? 90)) || ((97 <=? n) && (n <=? 122)) || (n =? 95) || (n =? 35)
  end.
Definition publish_one (m : ShimMetrics) : ShimMetrics := m <| events_published ::= λ n, add64 n 1 |>.
Definition from_source (s : string) (m : ShimMetrics) : ShimMetrics := m <| events_by_source ::= inc_label s |>.

(** *** [metrics.rs] *)

Definition test_metrics_new : bool :=
  all [events_published new_metrics == 0; events_dropped new_metrics == 0; health_status new_metrics == zero].
Definition test_metrics_export : bool :=
  contains (export text (publish_one (publish_one new_metrics) <| health_status := one |>)) ["shim_events_published_total 2"; "shim_health_status 1"].
Definition test_record_error : bool :=
  contains (export text (record_error "timeout" (record_error "connection" (record_error "connection" new_metrics))))
    ["shim_errors_total"; "connection"].
Definition test_set_healthy : bool :=
  let m := set_healthy true new_metrics in all [health_status m == one; health_status (set_healthy false m) == zero].
Definition test_uptime : bool :=
  contains (export text (new_metrics <| uptime_gauge := f64_of "42.5" |>)) ["shim_uptime_seconds 42.5"].
Definition test_events_by_source : bool :=
  contains (export text (from_source "tls-shim" (from_source "backup-shim" (from_source "backup-shim" new_metrics)))) ["backup-shim"; "tls-shim"].
Definition test_operation_duration : bool :=
  contains (export text (new_metrics <| operation_durations ::= cons (f64_of "0.05") |>)) ["shim_operation_duration_seconds"].
Definition test_prometheus_format_valid : bool :=
  forallb valid_line (lines (export text (publish_one new_metrics <| health_status := one |>))).
Definition test_metrics_server_serves_metrics : bool :=
  contains (export text (publish_one (publish_one new_metrics) <| health_status := one |>)) ["shim_events_published_total 2"; "shim_health_status 1"].

(** *** [metrics_export.rs] *)

Definition make_exporter : MetricsExporter := new_exporter 0 new_metrics.
Definition after (os : list ExporterOp) : MetricsExporter := exporter_run text os make_exporter.
Definition exported (os : list ExporterOp) : string := export_all text (after os).
Definition custom (x : MetricsExporter) (s m : string) : option f64 := c ← custom_metrics x !! s; c !! m.
Definition test_exporter_new : bool := all [negb (running make_exporter); scrape_count make_exporter == 0].
Definition test_mark_up_down : bool :=
  all [negb (running make_exporter); running (after [OpUp]); negb (running (after [OpUp; OpDown]))].
Definition test_export_all_contains_base_metrics : bool :=
  contains (export_all text (new_exporter 0 (publish_one (publish_one new_metrics) <| health_status := one |>)))
    ["shim_events_published_total 2"; "shim_health_status 1"].
Definition test_export_all_contains_exporter_metrics : bool :=
  contains (exported [OpUp; OpEvent "backup_completed"; OpEvent "backup_completed"; OpEvent "tls_cert_renewed"; OpForwarded;
                      OpProbe "liveness"; OpReload])
    ["shim_up 1"; "shim_events_total"; "backup_completed"; "shim_alerts_forwarded_total 1"; "shim_health_probes_total"; "liveness";
     "shim_config_reloads_total 1"].
Definition test_custom_metrics : bool :=
  let x := after [OpCustom "backup-shim" "backups_completed" (f64_of_Z 42); OpCustom "backup-shim" "backups_failed" (f64_of_Z 3);
                  OpCustom "tls-shim" "certs_renewed" (f64_of_Z 12)] in
  all [custom x "backup-shim" "backups_completed" == Some (f64_of_Z 42); custom x "backup-shim" "backups_failed" == Some (f64_of_Z 3);
       custom x "tls-shim" "certs_renewed" == Some (f64_of_Z 12)].
Definition test_uptime_seconds : bool :=
  let u1 := uptime_seconds 1000 make_exporter in
  all [negb (f64_lt u1 zero); f64_gt (uptime_seconds (1000 + 10 ^ 7) make_exporter) u1].
Definition test_scrape_count : bool := all [scrape_count make_exporter == 0; scrape_count (after [OpScrape; OpScrape]) == 2].
Definition test_down_metric : bool := contains (exported [OpDown]) ["shim_up 0"].
Definition test_base_metrics_integrated : bool :=
  contains (exported [OpError "connection"; OpHealthy true]) ["shim_errors_total"; "connection"; "shim_health_status 1"].
Definition test_metrics_server_endpoints : bool :=
  let '(_, body, x) := metrics_handler text (after [OpUp; OpEvent "test"]) in
  all [contains body ["shim_up 1"; "shim_events_total"]; hz_healthy (healthz_handler 10 x).2].

Definition metrics_suite : list bool :=
  [test_metrics_new; test_metrics_export; test_record_error; test_set_healthy; test_uptime; test_events_by_source;
   test_operation_duration; test_prometheus_format_valid; test_metrics_server_serves_metrics; test_exporter_new;
   test_mark_up_down; test_export_all_contains_base_metrics; test_export_all_contains_exporter_metrics; test_custom_metrics;
   test_uptime_seconds; test_scrape_count; test_down_metric; test_base_metrics_integrated; test_metrics_server_endpoints].
Example metrics_tests_pass : all metrics_suite = true.
Proof. vm_compute. reflexivity. Qed.

End MetricsTests.

(** ** The tests of [health-shim] and of [shim-core/src/health.rs], on [Health.v]

    In the tests of the checker a check answers what it is told; here the commands
    [exec:true], [exec:false] and an unknown one do.  Ports are closed and the programs
    [pg_isready] and [redis-cli] missing. *)

Module HealthTests.
Import Prelude Text Floats Net Commands Config Health Testing.
Open Scope test_scope.

Definition nothing_answers : Outside := mkOutside true (λ _, false) (λ _, false) (λ _, None).
Definition probe (cmd : string) : HealthStatus := execute_health_cmd nothing_answers cmd.
Definition no_check (_ : string) : option string := None.
Definition init_shim (c : Config) : result string () * HealthShim :=
  Health.init (λ _, true) no_check no_check (with_vars []) c new_health_shim.

(** *** [shim-core/src/health.rs] *)

Definition test_health_status_display : bool :=
  (health_status_display <$> [Healthy; Unhealthy; Unknown]) == ["healthy"; "unhealthy"; "unknown"].
Definition test_is_ready : bool := (is_ready <$> [Healthy; Unhealthy; Unknown]) == [true; false; false].
Definition test_exec_true : bool := probe "exec:true" == Healthy.
Definition test_exec_false : bool := probe "exec:false" == Unhealthy.
Definition test_unknown_command_returns_unknown : bool := probe "bogus:foo" == Unknown.
Definition test_tcp_check_refused : bool := probe "tcp:127.0.0.1:1" == Unhealthy.
Definition test_tcp_check_timeout : bool := probe "tcp:192.0.2.1:1" == Unhealthy.
Definition test_startup_probe_new : bool :=
  let p := new_probe "exec:true" 5 in
  all [check_cmd p == "exec:true"; probe_timeout_secs p == 5; max_retries p == 10; retry_delay_secs p == 2].
Definition test_startup_probe_builder : bool :=
  let p := with_retry_delay_secs 3 (with_max_retries 20 (new_probe "tcp:127.0.0.1:5432" 5)) in
  all [max_retries p == 20; retry_delay_secs p == 3].
Definition test_startup_probe_passes_immediately : bool :=
  (probe_check (λ _, nothing_answers) (new_probe "exec:true" 5)).1 == Healthy.
Definition test_startup_probe_fails_immediately : bool :=
  (probe_check (λ _, nothing_answers) (with_max_retries 0 (new_probe "exec:false" 1))).1 == Unhealthy.
Definition test_postgres_startup_probe : bool :=
  let p := postgres_startup_probe "127.0.0.1" 5432 in
  all [str_contains (check_cmd p) "127.0.0.1"; str_contains (check_cmd p) "5432"; max_retries p == 30; retry_delay_secs p == 1].
Definition test_redis_startup_probe : bool :=
  let p := redis_startup_probe "127.0.0.1:6379" in
  all [str_contains (check_cmd p) "redis-cli"; str_contains (check_cmd p) "6379"; max_retries p == 30; retry_delay_secs p == 1].
Definition test_startup_probe_from_env_tcp : bool := str_contains (check_cmd (startup_probe_from_env (with_vars []))) "tcp:".
Definition test_startup_probe_from_env_postgres : bool :=
  let c := check_cmd (startup_probe_from_env (with_vars
    [("STARTUP_PROBE_TYPE", "postgres"); ("FAILOVER_DB_HOST", "pg.internal"); ("FAILOVER_DB_PORT", "5433")])) in
  all [str_contains c "pg_isready"; str_contains c "pg.internal"; str_contains c "5433"].
Definition test_startup_probe_from_env_redis : bool :=
  let c := check_cmd (startup_probe_from_env (with_vars [("STARTUP_PROBE_TYPE", "redis")])) in
  all [str_contains c "redis-cli"; str_contains c "ping"].
Definition test_pg_isready_command : bool :=
  let s := probe "pg_isready -h 127.0.0.1 -p 5432" in (s == Unhealthy) || (s == Healthy).
Definition test_redis_cli_command : bool :=
  let s := probe "redis-cli -p 6379 ping" in (s == Unhealthy) || (s == Healthy).

(** *** [checker.rs] *)

Definition mock_cmd (h : HealthStatus) : string :=
  match h with Healthy => "exec:true" | Unhealthy => "exec:false" | Unknown => "mock" end.
Definition mock (l r : HealthStatus) : HealthChecker := new_checker (mkCheck (mock_cmd l) (mock_cmd r) 5).
Definition both (c : HealthChecker) : HealthChecker := (check_readiness nothing_answers (check_liveness nothing_answers c).2).2.
Definition checker_values (c : HealthChecker) : list f64 := (checker_metrics c).*2.
Definition test_checker_new_defaults_to_unknown : bool :=
  let c := mock Healthy Healthy in all [last_liveness c == Unknown; last_readiness c == Unknown].
Definition test_checker_liveness_updates_status : bool :=
  let '(h, c) := check_liveness nothing_answers (mock Healthy Unknown) in all [h == Healthy; last_liveness c == Healthy].
Definition test_checker_readiness_updates_status : bool :=
  let '(h, c) := check_readiness nothing_answers (mock Unknown Unhealthy) in all [h == Unhealthy; last_readiness c == Unhealthy].
Definition test_checker_metrics_unknown_values : bool :=
  checker_metrics (mock Healthy Unhealthy) == [("health_liveness", f64_of_Z 0); ("health_readiness", f64_of_Z 0)].
Definition test_checker_metrics_after_checks : bool := checker_values (both (mock Healthy Healthy)) == [f64_of_Z 1; f64_of_Z 1].
Definition test_checker_metrics_unhealthy : bool := checker_values (both (mock Unhealthy Unhealthy)) == [f64_of_Z 0; f64_of_Z 0].

(** *** [health-shim/src/lib.rs] *)

Definition test_health_shim_new : bool :=
  all [is_none (checker new_health_shim); shim_listen new_health_shim == "0.0.0.0:9101"].
Definition test_health_shim_init : bool :=
  let '(r, s) := init_shim (default_config <| health ::= λ h,
    h <| liveness_cmd := "echo ok" |> <| readiness_cmd := "echo ready" |> <| listen := "127.0.0.1:9999" |>
      <| interval_secs := 5 |> <| timeout_secs := 3 |> |>) in
  all [is_ok r; is_some (checker s); shim_listen s == "127.0.0.1:9999"; initialized s].
Definition test_register_capability : bool :=
  (cap_healthy <$> capabilities (register_capability "vault" new_health_shim) !! "vault") == Some true.
Definition test_set_capability_health : bool :=
  match capabilities (set_capability_health "backup" false (Some "disk full") (register_capability "backup" new_health_shim)) !! "backup" with
  | Some c => all [negb (cap_healthy c); cap_message c == Some "disk full"]
  | None => false
  end.

Section detailed.
Context `{HO : HashOrder}.
Definition test_detailed_status_healthy : bool :=
  let d := detailed_status 120 (register_capability "health" new_health_shim <| initialized := true |>) in
  all [det_liveness d == "healthy"; det_readiness d == "ready"; det_startup d == "complete"; det_initialized d; det_uptime_secs d == 120;
       length (det_capabilities d) == 1%nat].
Definition test_detailed_status_degraded : bool :=
  let d := detailed_status 60 (set_capability_health "vault" false None (register_capability "vault" new_health_shim) <| initialized := true |>) in
  all [det_liveness d == "degraded"; det_readiness d == "not_ready"].
Definition test_detailed_status_starting : bool :=
  let d := detailed_status 0 new_health_shim in
  all [det_liveness d == "starting"; det_startup d == "in_progress"; negb (det_initialized d)].
Definition detailed_suite : list bool := [test_detailed_status_healthy; test_detailed_status_degraded; test_detailed_status_starting].
End detailed.

Definition exporter (l : list (string * string)) : option (string * Z) :=
  (λ e, (exp_webhook_url e, exp_interval_secs e)) <$> exporter_from_env (with_vars l).
Definition hook : string * string := ("HEALTH_WEBHOOK_URL", "http://localhost:8080/webhook").
Definition test_health_exporter_from_env_returns_none_without_url : bool := is_none (exporter []).
Definition test_health_exporter_from_env_returns_none_empty_url : bool := is_none (exporter [("HEALTH_WEBHOOK_URL", "")]).
Definition test_health_exporter_from_env_returns_some_with_url : bool := exporter [hook] == Some ("http://localhost:8080/webhook", 30).
Definition test_health_exporter_custom_interval : bool :=
  exporter [hook; ("HEALTH_WEBHOOK_INTERVAL_SECS", "10")] == Some ("http://localhost:8080/webhook", 10).
Definition test_health_exporter_invalid_interval_defaults_to_30 : bool :=
  exporter [hook; ("HEALTH_WEBHOOK_INTERVAL_SECS", "not_a_number")] == Some ("http://localhost:8080/webhook", 30).
Definition test_health_exporter_new_explicit : bool :=
  let e := mkExporter "http://example.com/hook" 60 in all [exp_webhook_url e == "http://example.com/hook"; exp_interval_secs e == 60].
Definition test_health_exporter_build_payload : bool :=
  let p := @build_payload decimal_rfc3339 1700000000 "healthy" "unhealthy" in
  all [pl_liveness p == "healthy"; pl_readiness p == "unhealthy"; pl_shim p == "health"; pl_timestamp p != ""].

Definition health_suite : list bool :=
  [test_health_status_display; test_is_ready; test_exec_true; test_exec_false; test_unknown_command_returns_unknown;
   test_tcp_check_refused; test_tcp_check_timeout; test_startup_probe_new; test_startup_probe_builder;
   test_startup_probe_passes_immediately; test_startup_probe_fails_immediately; test_postgres_startup_probe;
   test_redis_startup_probe; test_startup_probe_from_env_tcp; test_startup_probe_from_env_postgres;
   test_startup_probe_from_env_redis; test_pg_isready_command; test_redis_cli_command; test_checker_new_defaults_to_unknown;
   test_checker_liveness_updates_status; test_checker_readiness_updates_status; test_checker_metrics_unknown_values;
   test_checker_metrics_after_checks; test_checker_metrics_unhealthy; test_health_shim_new; test_health_shim_init;
   test_register_capability; test_set_capability_health; test_health_exporter_from_env_returns_none_without_url;
   test_health_exporter_from_env_returns_none_empty_url; test_health_exporter_from_env_returns_some_with_url;
   test_health_exporter_custom_interval; test_health_exporter_invalid_interval_defaults_to_30; test_health_exporter_new_explicit;
   test_health_exporter_build_payload].
Example health_tests_pass : all (health_suite ++ @detailed_suite canonical_order ++ @detailed_suite reversed_order) = true.
Proof. vm_compute. reflexivity. Qed.

End HealthTests.
