(* ===== verification/TestPlugins.v ===== *)
(** * The tests of [shim-core/src/wasm.rs] and [shim-plugin]

    One Module per shim or file; the conventions are those of [Testing.v]. *)

From S2P Require Import Prelude Testing.
From S2P Require Text Floats Config Main Wasm Plugin.

(** ** The tests of [shim-core/src/wasm.rs], on [Wasm.v]

    The modules of the tests are a memory, whether there is a [_start], and the call it
    makes.  The engine compiles those, and refuses other bytes; a call burns at least two
    units of fuel, as the tests of the limit take it. *)

Module WasmTests.
Import Prelude Text Floats Config Main Wasm Testing.
Open Scope test_scope.

(** *** The wrapper *)

Definition dummy_capability : Sandboxed :=
  mkSandboxed (mkCapability "dummy" (λ _, Ok ()) (Ok ()) (Ok ())) (Ok ()) 1024 500 [].
Definition wrapped (n : string) : WasmShim := new_wasm_shim n dummy_capability.
Definition lifecycle (s : WasmShim) : bool :=
  let c := as_capability s in all [is_ok (cap_init c default_config); is_ok (cap_start c); is_ok (cap_stop c)].
Definition wasm_shim_name : bool := cap_name (as_capability (wrapped "test")) == "test".
Definition wasm_shim_lifecycle : bool := lifecycle (wrapped "test").
Definition incremented (ks : list string) (n : string) : WasmShim := foldl (λ s k, increment_counter k s) (wrapped n) ks.
Definition wasm_shim_multiple_counters_independent : bool :=
  let s := incremented ["a"; "b"; "a"] "counters" in all [counter "a" s == 2; counter "b" s == 1; counter "c" s == 0].
Definition wasm_shim_memory_and_cpu_from_inner : bool :=
  all [memory_usage_bytes (inner (wrapped "test")) == 1024; cpu_time_us (inner (wrapped "test")) == 500].
Section metrics.
Context `{HO : HashOrder}.
Definition wasm_shim_metrics_include_sandbox_info : bool :=
  let m := wasm_metrics (wrapped "test") in all [has_metric m "wasm_memory_bytes"; has_metric m "wasm_cpu_time_us"].
Definition wasm_shim_counters : bool :=
  let s := incremented ["foo"; "foo"] "test" in
  all [counter "foo" (wrapped "test") == 0; counter "foo" s == 2;
       match metric (wasm_metrics s) "wasm_counter_foo" with Some v => v == f64_of_Z 2 | None => false end].
Definition wasm_shim_module_lifecycle_init_start_stop_metrics : bool :=
  let s := wrapped "lifecycle" in
  let m := wasm_metrics s in
  all [lifecycle s; cap_name (as_capability s) == "lifecycle"; has_metric m "wasm_memory_bytes"; has_metric m "wasm_cpu_time_us"].
Definition wrapper_suite : list bool :=
  [wasm_shim_metrics_include_sandbox_info; wasm_shim_counters; wasm_shim_module_lifecycle_init_start_stop_metrics].
End metrics.

(** *** Modules *)

Record module_text := mkText { initial : string; start : bool; body : Call }.
Definition returns (fuel : Z) : Call := mkCall [] fuel None.
Definition calls (a : action) : Call := mkCall [(2, a)] 1 None.
Definition noop_wasm : module_text := mkText "" true (returns 2).
Definition host_log_wasm : module_text := mkText "hello from wasm" true (calls (ALog 2 0 15)).
Definition host_metrics_wasm : module_text := mkText "my_counter" true (calls (AMetric 0 10 (f64_of_Z 42))).
Definition host_config_wasm : module_text := mkText "health.listen" true (calls (AConfig 0 14)).
Definition growing (n : nat) : module_text := mkText "" true (calls (AGrow n)).
Definition no_start : module_text := mkText "" false (returns 2).

Definition page (s : string) : Memory := write 0 s (mkMemory 1 (λ _, of_byte 0)).
Definition instantiate (limit : Z → bool) (st : StoreState) (f : Z) (m : module_text) : result string Instantiated :=
  if limit PAGE then Ok (mkInstantiated st f (Some (page (initial m))) (start m)) else Err "memory minimum size exceeds memory limits".
(** Loading a module that compiles, and bytes that do not *)
Definition load (n : string) (m : module_text) (wc : WasmConfig) (c : Config) : result WasmError WasmCapability :=
  load_shim_bytes (λ _, Ok m) instantiate n "" wc c.
Definition load_garbage (n bytes : string) : result WasmError WasmCapability :=
  load_shim_bytes (λ _, Err "magic header not detected") instantiate n bytes default_wasm_config default_config.
(** Loading and running: what the run reports, what [config_get] answered, and the
    instance after *)
Definition ran (m : module_text) (wc : WasmConfig) (c : Config)
    : option (option (result WasmError WasmExecutionResult) * list Z * WasmCapability) :=
  match load "test" m wc c with Ok i => Some (run (body m) i) | Err _ => None end.
Definition report (m : module_text) (wc : WasmConfig) : option WasmExecutionResult :=
  match ran m wc default_config with Some (Some (Ok r), _, _) => Some r | _ => None end.
Definition fails (m : module_text) (wc : WasmConfig) : bool :=
  match ran m wc default_config with Some (Some (Err _), _, _) => true | _ => false end.
Definition with_pages (p : option Z) : WasmConfig := mkWasmConfig p (Some 1000000).
Definition with_fuel (f : Z) : WasmConfig := mkWasmConfig (Some 256) (Some f).
Definition name_of (r : result WasmError WasmCapability) : option string := match r with Ok i => Some (wc_name i) | Err _ => None end.

Definition load_noop_module : bool := name_of (load "noop" noop_wasm default_wasm_config default_config) == Some "noop".
Definition run_noop_module : bool :=
  match report noop_wasm default_wasm_config with Some r => all [res_log r == []; bool_decide (res_metrics r = ∅)] | None => false end.
Definition fuel_metering_tracks_usage : bool :=
  match load "noop" noop_wasm default_wasm_config default_config, ran noop_wasm default_wasm_config default_config with
  | Ok i, Some (_, _, i') => (fuel_consumed i <? fuel_consumed i') || (fuel_consumed i =? 0)
  | _, _ => false
  end.
Definition fuel_exhaustion_trap : bool := fails noop_wasm (with_fuel 1).
Definition host_log_import : bool := (res_log <$> report host_log_wasm default_wasm_config) == Some ["hello from wasm"].
Definition host_metrics_import : bool :=
  match report host_metrics_wasm default_wasm_config with Some r => (res_metrics r !! "my_counter") == Some (f64_of_Z 42) | None => false end.
Definition listening : Config := default_config <| health ::= λ h, h <| listen := "127.0.0.1:9999" |> |>.
Definition host_config_get_import : bool :=
  match ran host_config_wasm default_wasm_config listening with Some (Some (Ok r), _, _) => res_log r == [] | _ => false end.
Definition memory_limit_enforced : bool := is_some (ran (growing 100) (with_pages (Some 1)) default_config).
Definition load_nonexistent_file : bool :=
  is_err (load_shim (λ _, Ok noop_wasm) instantiate (λ _, Err "No such file or directory") "/nonexistent/file.wasm" default_wasm_config default_config).
Definition load_invalid_wasm_bytes : bool := is_err (load_garbage "bad" "not a wasm module").
Definition wasm_config_default : bool :=
  all [max_memory_pages default_wasm_config == Some 256; fuel_limit default_wasm_config == Some 1000000].
Definition memory_limiter_allows_within_limit : bool := is_some (report (growing 1) (with_pages (Some 4))).
Definition memory_limiter_blocks_over_limit : bool := is_some (report (growing 100) (with_pages (Some 1))).
Definition memory_limiter_no_limit_allows_large_growth : bool := is_some (report (growing 10) (with_pages None)).
Definition minimal_wasm_binary_instantiation : bool :=
  all [name_of (load "minimal" noop_wasm default_wasm_config default_config) == Some "minimal";
       (res_log <$> report noop_wasm default_wasm_config) == Some []].
Definition oom_protection_respects_memory_limit : bool :=
  match ran (growing 1000) (with_pages (Some 1)) default_config with
  | Some (Some (Ok _), _, i) => 0 <? fuel_consumed i
  | _ => false
  end.
Definition load_invalid_wasm_binary_returns_error : bool :=
  all [is_err (load_garbage "garbage" "asm"); is_err (load_garbage "empty" ""); is_err (load_garbage "random" "this is not wasm at all, just plain text")].
Definition wasm_module_no_start_function_returns_error : bool := fails no_start default_wasm_config.
(** The lock of an instance makes the calls of several threads a sequence. *)
Definition concurrent_wasm_module_execution_safety : bool :=
  match load "conc1" noop_wasm default_wasm_config default_config with
  | Ok i => forallb (λ r, match r with Some (Ok _) => true | _ => false end) (run_all (replicate 40 (body noop_wasm)) i).1.1
  | Err _ => false
  end.
Definition fuel_exhaustion_returns_error : bool := fails noop_wasm (with_fuel 1).
Definition execution_result_fields_populated : bool :=
  match report noop_wasm default_wasm_config with
  | Some r => all [0 <? fuel_used r; res_log r == []; bool_decide (res_metrics r = ∅)]
  | None => false
  end.

Definition wasm_suite : list bool :=
  [wasm_shim_name; wasm_shim_lifecycle; wasm_shim_multiple_counters_independent; wasm_shim_memory_and_cpu_from_inner;
   load_noop_module; run_noop_module; fuel_metering_tracks_usage; fuel_exhaustion_trap; host_log_import; host_metrics_import;
   host_config_get_import; memory_limit_enforced; load_nonexistent_file; load_invalid_wasm_bytes; wasm_config_default;
   memory_limiter_allows_within_limit; memory_limiter_blocks_over_limit; memory_limiter_no_limit_allows_large_growth;
   minimal_wasm_binary_instantiation; oom_protection_respects_memory_limit; load_invalid_wasm_binary_returns_error;
   wasm_module_no_start_function_returns_error; concurrent_wasm_module_execution_safety; fuel_exhaustion_returns_error;
   execution_result_fields_populated].
Example wasm_tests_pass : all (wasm_suite ++ @wrapper_suite canonical_order ++ @wrapper_suite reversed_order) = true.
Proof. vm_compute. reflexivity. Qed.

(** The test of [config_get] asks for a key of 14 bytes, one more than [health.listen]
    has, and so gets the answer for a key that is unknown; its comment says that the
    answer is checked to be a pointer. *)
Example config_test_reads_nothing :
  (λ r, r.1.2) <$> ran host_config_wasm default_wasm_config listening = Some [-1] ∧
  (λ r, r.1.2) <$> ran (mkText "health.listen" true (calls (AConfig 0 13))) default_wasm_config listening = Some [2 * PAGE - 18].
Proof. vm_compute. done. Qed.

End WasmTests.

(** ** The tests of [shim-plugin/src/loader.rs], on [Plugin.v]

    The two plugins in C of the tests are the tables they export.  The tests of the
    pointers of a table have no counterpart. *)

Module PluginTests.
Import Prelude Text Config Main Plugin Testing.
Open Scope test_scope.

(** [test_plugin.c] and [test_plugin_bad.c] *)
Definition good_vtable : PluginVTable := mkVTable (Utf8 "good_test_plugin") (λ _, 0) 0 0 (Utf8 "[]").
Definition bad_vtable : PluginVTable := mkVTable (Utf8 "bad_test_plugin") (λ _, 1) 2 3 (Utf8 "[]").
Definition disk (p : string) : library :=
  if ends_with "libgood_test_plugin.so" p || ends_with "/good.so" p then Exports good_vtable
  else if ends_with "libbad_test_plugin.so" p then Exports bad_vtable
  else if ends_with "/no_init.so" p then NoEntryPoint else NoLibrary.
Definition good_plugin_path : string := "/tmp/shim_plugin_test_0/libgood_test_plugin.so".
Definition bad_plugin_path : string := "/tmp/shim_plugin_test_1/libbad_test_plugin.so".
Definition as_json (_ : Config) : result string string := Ok "{}".
Definition no_metrics (j : string) : option (list (string * f64)) := if bool_decide (j = "[]") then Some [] else None.
(** An answer of a plugin that loads; a failure with a text *)
Definition loads {A} (k : PluginInstance → A) (path : string) : option A :=
  match load_plugin disk path with Ok p => Some (k p) | Err _ => None end.
Definition fails_with {A} (pat : string) (r : result string A) : bool := match r with Err e => str_contains e pat | Ok _ => false end.
Definition lifecycle (p : PluginInstance) : bool :=
  all [is_ok (plugin_init as_json p default_config); is_ok (plugin_start p); is_ok (plugin_stop p)].
(** Scanning a directory: the count, the names *)
Definition scan (dir : string) (es : list string) : result string () * PluginLoader :=
  load_all disk true (Ok (Some <$> es)) (new_loader dir).

Definition load_valid_plugin_succeeds : bool := loads plugin_name good_plugin_path == Some "good_test_plugin".
Definition load_plugin_returns_correct_vtable_name : bool :=
  all [loads plugin_name good_plugin_path == Some "good_test_plugin"; loads plugin_name good_plugin_path != Some ""].
Definition plugin_lifecycle_init_start_stop : bool := loads lifecycle good_plugin_path == Some true.
Definition plugin_init_failure_returns_error : bool :=
  loads (λ p, fails_with "init failed" (plugin_init as_json p default_config)) bad_plugin_path == Some true.
Definition plugin_start_failure_returns_error : bool := loads (λ p, fails_with "start failed" (plugin_start p)) bad_plugin_path == Some true.
Definition plugin_stop_failure_returns_error : bool := loads (λ p, fails_with "stop failed" (plugin_stop p)) bad_plugin_path == Some true.
Definition plugin_metrics_returns_empty_for_good_plugin : bool :=
  loads (λ p, bool_decide (plugin_metrics no_metrics p = [])) good_plugin_path == Some true.
Definition plugin_metrics_returns_empty_for_bad_plugin : bool :=
  loads (λ p, bool_decide (plugin_metrics no_metrics p = [])) bad_plugin_path == Some true.
Definition load_nonexistent_plugin_returns_error : bool := is_err (load_plugin disk "/nonexistent/plugin.so").
Definition load_invalid_shared_library_returns_error : bool := is_err (load_plugin disk "/tmp/shim_plugin_invalid/invalid.so").
Definition load_plugin_without_shim_plugin_init_returns_error : bool :=
  fails_with "shim_plugin_init" (load_plugin disk "/tmp/shim_plugin_no_init/no_init.so").
Definition plugin_loader_new_with_empty_dir : bool :=
  let '(r, l) := scan "/tmp/shim_plugin_empty_loader" [] in all [is_ok r; count l == 0%nat; bool_decide (plugin_name <$> into_plugins l = [])].
Definition plugin_loader_nonexistent_dir_returns_error : bool :=
  is_err (load_all disk false (Err "No such file or directory") (new_loader "/nonexistent/plugin/dir")).1.
Definition plugin_loader_ignores_non_library_files : bool :=
  let '(r, l) := scan "/tmp/shim_plugin_nonlib" ["readme.txt"; "config.json"] in all [is_ok r; count l == 0%nat].
Definition plugin_loader_loads_valid_plugins : bool :=
  let '(r, l) := scan "/tmp/shim_plugin_valid_loader" ["good.so"] in
  all [is_ok r; count l == 1%nat; (plugin_name <$> into_plugins l) == ["good_test_plugin"]].
Definition plugin_loader_skips_invalid_and_loads_valid : bool :=
  let '(r, l) := scan "/tmp/shim_plugin_mixed" ["bad.so"; "good.so"] in all [is_ok r; count l == 1%nat].
Definition full_plugin_lifecycle_with_metrics : bool :=
  loads (λ p, lifecycle p && bool_decide (plugin_metrics no_metrics p = [])) good_plugin_path == Some true.

Definition plugin_suite : list bool :=
  [load_valid_plugin_succeeds; load_plugin_returns_correct_vtable_name; plugin_lifecycle_init_start_stop;
   plugin_init_failure_returns_error; plugin_start_failure_returns_error; plugin_stop_failure_returns_error;
   plugin_metrics_returns_empty_for_good_plugin; plugin_metrics_returns_empty_for_bad_plugin;
   load_nonexistent_plugin_returns_error; load_invalid_shared_library_returns_error;
   load_plugin_without_shim_plugin_init_returns_error; plugin_loader_new_with_empty_dir;
   plugin_loader_nonexistent_dir_returns_error; plugin_loader_ignores_non_library_files; plugin_loader_loads_valid_plugins;
   plugin_loader_skips_invalid_and_loads_valid; full_plugin_lifecycle_with_metrics].
Example plugin_tests_pass : all plugin_suite = true.
Proof. vm_compute. reflexivity. Qed.

End PluginTests.
