(* ===== verification/TestPlatform.v ===== *)
(** * The tests of [shim-operator] and [management-api]

    One Module per shim or file; the conventions are those of [Testing.v]. *)

From S2P Require Import Prelude Testing.
From S2P Require Text Config Main Operator Net RateLimit Management.

(** ** The tests of [shim-operator], on [Operator.v]

    The tests that write resources as JSON have no counterpart; those of [error_backoff],
    which only look for a panic, check what it decides. *)

Module OperatorTests.
Import Prelude Text Config Main Operator Testing.
Open Scope test_scope.

(** *** [reconciler.rs] *)

Definition test_spec : ShimConfigSpec :=
  mkSpec "/app/start" ["--port"; "8080"] ["health"; "vault"]
    (Some (mkRequirements (Some (mkResource (Some "100m") (Some "128Mi"))) (Some (mkResource (Some "500m") (Some "256Mi")))))
    (Some (mkOptions "debug" true 9090 9091 (Some "http://localhost:4317"))).
Definition minimal_spec : ShimConfigSpec := mkSpec "/bin/app" [] [] None None.
(** The data of the generated map hold these. *)
Definition holds (m : gmap string string) (l : list (string * string)) : bool := forallb (λ kv, (m !! kv.1) == Some kv.2) l.
Definition generated (name namespace : string) (s : ShimConfigSpec) (p : ConfigMap → bool) : bool :=
  match generate_configmap name namespace s with Ok cm => p cm | Err _ => false end.
Definition env_of (n : string) : option string := snd <$> (snd <$> list_find (λ e, e.1 = n) (c_env (build_sidecar_container test_spec))).

Definition test_generate_configmap_all_fields : bool :=
  generated "my-shim" "default" test_spec (λ cm,
    all [cm_name cm == "shim-config-my-shim"; cm_namespace cm == "default";
         holds (cm_data cm) [("SHIM_CHILD_COMMAND", "/app/start"); ("SHIM_CHILD_ARGS", "--port,8080"); ("SHIM_FEATURES", "health,vault");
                             ("SHIM_LOG_LEVEL", "debug"); ("SHIM_JSON_LOGGING", "true"); ("SHIM_METRICS_PORT", "9090");
                             ("SHIM_HEALTH_PORT", "9091"); ("SHIM_OTEL_ENDPOINT", "http://localhost:4317")]]).
Definition test_generate_configmap_minimal_spec : bool :=
  generated "minimal" "default" minimal_spec (λ cm,
    all [holds (cm_data cm) [("SHIM_CHILD_COMMAND", "/bin/app"); ("SHIM_CHILD_ARGS", ""); ("SHIM_FEATURES", ""); ("SHIM_LOG_LEVEL", "info");
                             ("SHIM_JSON_LOGGING", "false")];
         is_none (cm_data cm !! "SHIM_OTEL_ENDPOINT")]).
Definition test_generate_configmap_labels : bool :=
  generated "test" "ns" test_spec (λ cm,
    holds (cm_labels cm) [("app.kubernetes.io/managed-by", "shim-operator"); ("evergreen.dev/shim-config", "test")]).
Definition test_generate_configmap_data : bool := holds (generate_configmap_data test_spec) [("SHIM_CHILD_COMMAND", "/app/start")].
Definition test_parse_quantity : bool :=
  (parse_quantity <$> ["100m"; "128Mi"; "1Gi"; ""]) == [Some "100m"; Some "128Mi"; Some "1Gi"; None].
Definition test_build_sidecar_container_resources : bool :=
  let c := build_sidecar_container test_spec in
  all [c_name c == "evergreen-shim"; is_some (image c); match c_resources c with Some (r, l) => is_some r && is_some l | None => false end].
Definition test_build_sidecar_container_env : bool :=
  all [env_of "SHIM_CHILD_COMMAND" == Some "/app/start"; env_of "SHIM_CHILD_ARGS" == Some "--port,8080"; env_of "SHIM_FEATURES" == Some "health,vault"].
Definition test_build_sidecar_container_ports : bool := ports (build_sidecar_container test_spec) == [("metrics", 9090); ("health", 9091)].
Definition test_error_backoff_transient_does_not_panic : bool :=
  match error_backoff (Reconcile "temp") with Requeue s => s =? 30 | AwaitChange => false end.
Definition test_error_backoff_permanent_does_not_panic : bool :=
  match error_backoff (Validation "bad") with AwaitChange => true | Requeue _ => false end.

(** *** [crd.rs] *)

Definition test_shim_config_options_defaults : bool :=
  let o := default_options in
  all [log_level o == "info"; negb (json_logging o); metrics_port o == 9090; health_port o == 9091; is_none (otel_endpoint o)].
Definition test_shim_config_condition_new : bool :=
  let c := @new_condition decimal_rfc3339 1700000000 "Ready" "True" "Reconciled" "all good" in
  all [condition_type c == "Ready"; cond_status c == "True"; reason c == Some "Reconciled"; message c == Some "all good";
       is_some (last_transition_time c)].

(** *** [error.rs] *)

Definition is_permanent (e : OperatorError) : bool := match classify e with Permanent => true | Transient => false end.
Definition test_validation_error_is_permanent : bool := is_permanent (Validation "bad input").
Definition test_reconcile_error_is_transient : bool := negb (is_permanent (Reconcile "retry me")).
Definition test_configmap_gen_error_is_permanent : bool := is_permanent (ConfigMapGen "bad spec").

Definition operator_suite : list bool :=
  [test_generate_configmap_all_fields; test_generate_configmap_minimal_spec; test_generate_configmap_labels;
   test_generate_configmap_data; test_parse_quantity; test_build_sidecar_container_resources; test_build_sidecar_container_env;
   test_build_sidecar_container_ports; test_error_backoff_transient_does_not_panic; test_error_backoff_permanent_does_not_panic;
   test_shim_config_options_defaults; test_shim_config_condition_new; test_validation_error_is_permanent;
   test_reconcile_error_is_transient; test_configmap_gen_error_is_permanent].
Example operator_tests_pass : all operator_suite = true.
Proof. vm_compute. reflexivity. Qed.

End OperatorTests.

(** ** The tests of [management-api], on [Management.v] and [RateLimit.v]

    Calls of the limiter come a millisecond apart; a lock makes those of several threads
    a sequence. *)

Module ManagementTests.
Import Prelude Text Net RateLimit Management Testing.
Open Scope test_scope.

(** *** [lib.rs] *)

(** Addresses of four bytes; the text of an IPv6 address is not needed here. *)
Definition ip : Type := list Z.
Definition parse_ip_addr (s : string) : option ip := match read_ipv4 s with Some (l, "") => Some l | _ => None end.
Section handlers.
Context `{HO : HashOrder}.
Definition state : ShimState := new_state "0.1.0" 0 1 1000.
(** The answer of a handler, ten seconds later; a request without headers *)
Definition answer (r : Request) : option Response :=
  match handle "0.1.0" 1 1 parse_ip_addr ∅ (1000 + 10 ^ 10) r state with Ok (x, _) => Some x | Err _ => None end.
Definition test_get_status : bool :=
  match answer GetStatus with
  | Some (StatusResponse h v u caps) => all [h == 1; v != ""; u != ""; negb (Nat.eqb (length caps) 0)]
  | _ => false
  end.
Definition named (n : string) : Metric → bool := λ m, bool_decide (metric_name m = n).
Definition test_get_metrics : bool :=
  match answer GetMetrics with
  | Some (MetricsResponse ms) => all [negb (Nat.eqb (length ms) 0); existsb (named "shim_uptime_seconds") ms]
  | _ => false
  end.
Definition reloaded (path : text) : option (bool * list string) :=
  match answer (ReloadConfig path) with Some (ReloadResponse ok _ ws) => Some (ok, ws) | _ => None end.
Definition test_reload_config : bool := match reloaded [] with Some (ok, ws) => all [ok; ws != []] | None => false end.
Definition test_reload_config_with_path : bool := reloaded (text_of "/etc/config.toml") == Some (true, []).
Definition caps_of (r : option Response) : list CapabilityInfo := match r with Some (CapabilitiesResponse cs) => cs | _ => [] end.
Definition test_list_capabilities : bool :=
  let cs := caps_of (answer ListCapabilities) in
  all [length cs == 2%nat; (cap_name <$> head cs) == Some "health"; (enabled <$> head cs) == Some true].
Definition test_state_default : bool := length (capabilities state) == 2%nat.
Definition status_of (n : string) (r : option Response) : option CapabilityStatus :=
  match r with Some (StatusResponse _ _ _ cs) => snd <$> list_find (λ c, st_name c = n) cs | _ => None end.
Definition test_get_status_capabilities_fields : bool :=
  let r := answer GetStatus in
  all [(st_enabled <$> status_of "metrics" r) == Some true; ((λ c, (st_enabled c, st_healthy c)) <$> status_of "health" r) == Some (true, true)].
Definition test_get_metrics_includes_dynamic_uptime : bool :=
  match answer GetMetrics with
  | Some (MetricsResponse ms) => match snd <$> list_find (λ m, metric_name m = "shim_uptime_seconds") ms with
                                 | Some m => negb (f64_lt (value m) (f64_of_Z 0)) | None => false end
  | _ => false
  end.
Definition test_reload_config_warning_message : bool :=
  match reloaded [] with Some (_, ws) => existsb (λ w, str_contains w "No config path specified") ws | None => false end.
Definition test_list_capabilities_version_info : bool := forallb (λ c, negb (bool_decide (cap_version c = ""))) (caps_of (answer ListCapabilities)).
Definition handlers_suite : list bool :=
  [test_get_status; test_get_metrics; test_reload_config; test_reload_config_with_path; test_list_capabilities; test_state_default;
   test_get_status_capabilities_fields; test_get_metrics_includes_dynamic_uptime; test_reload_config_warning_message;
   test_list_capabilities_version_info].
End handlers.

(** Calls of a limiter *)
Definition calls (n : nat) (r : RateLimiter) : list bool * RateLimiter := allow_all ((λ k, Z.of_nat k * 10 ^ 6) <$> seq 0 n) r.
Definition test_rate_limiter_enforced : bool := (calls 4 (new_limiter 3)).1 == [true; true; true; false].
Definition chars (l : list Z) (s : string) : text := l ++ text_of s.
Definition test_sanitize_control_characters : bool := sanitize_input (text_of "hello" ++ chars [1; 2] "world") == Ok (text_of "helloworld").
Definition test_sanitize_preserves_whitespace : bool :=
  let s := text_of "hello" ++ chars [9] "world" ++ [10] in sanitize_input s == Ok s.
Definition null_path : text := text_of "path" ++ chars [0] "bad".
Definition valid (r : Request) : bool := is_ok (validate r).
Definition test_validation_rejects_null_bytes : bool := negb (valid (ReloadConfig null_path)).
Definition test_validation_rejects_long_strings : bool := negb (valid (ReloadConfig (replicate 2000 97))).
Definition test_validation_allows_valid_input : bool := valid (ReloadConfig (text_of "/etc/config.toml")).
Definition peer (h : option string) : option ip :=
  extract_peer parse_ip_addr (match h with Some v => {["x-forwarded-for" := v]} | None => ∅ end).
Definition v4 (a b c d : Z) : option ip := Some [a; b; c; d].
Definition test_extract_peer_no_header : bool := bool_decide (peer None = None).
Definition test_extract_peer_with_forwarded_for : bool := bool_decide (peer (Some "192.168.1.100") = v4 192 168 1 100).
Definition test_extract_peer_with_multiple_forwarded_for : bool := bool_decide (peer (Some "10.0.0.1, 10.0.0.2") = v4 10 0 0 1).
Definition test_extract_peer_with_invalid_ip : bool := bool_decide (peer (Some "not-an-ip") = None).
Definition test_extract_peer_with_whitespace : bool := bool_decide (peer (Some "  172.16.0.1  ") = v4 172 16 0 1).

(** *** [validation.rs] *)

Definition test_get_status_request_valid : bool := valid GetStatus.
Definition test_get_metrics_request_valid : bool := valid GetMetrics.
Definition test_list_capabilities_request_valid : bool := valid ListCapabilities.
Definition test_reload_config_empty_path_ok : bool := valid (ReloadConfig []).
Definition test_reload_config_valid_path : bool := valid (ReloadConfig (text_of "/etc/config.toml")).
Definition test_reload_config_too_long : bool := negb (valid (ReloadConfig (replicate 1025 97))).
Definition test_reload_config_null_byte : bool := negb (valid (ReloadConfig null_path)).
Definition test_validate_port_valid : bool := forallb (λ p, is_ok (validate_port p)) [80; 65535; 1].
Definition test_validate_port_invalid : bool := forallb (λ p, is_err (validate_port p)) [0; 65536].
Definition test_validate_metric_name_valid : bool :=
  forallb (λ n, is_ok (validate_metric_name (text_of n))) ["shim_uptime_seconds"; "cpu.usage"; "a"].
Definition test_validate_metric_name_invalid : bool :=
  forallb (λ n, is_err (validate_metric_name n)) [[]; text_of "has space"; text_of "has-dash"; replicate 1025 97].

(** *** [sanitization.rs] *)

Definition test_sanitize_clean_input : bool := sanitize_input (text_of "hello world") == Ok (text_of "hello world").
Definition test_sanitize_strips_control_chars : bool := sanitize_input (text_of "hello" ++ chars [1; 2; 3] "world") == Ok (text_of "helloworld").
Definition test_sanitize_preserves_newline_and_tab : bool := test_sanitize_preserves_whitespace.
Definition test_sanitize_rejects_null_byte : bool := is_err (sanitize_input (text_of "hello" ++ chars [0] "world")).
Definition test_sanitize_truncates_long_input : bool :=
  match sanitize_input (replicate 2000 97) with Ok s => str_len s == Z.of_nat MAX_INPUT_LENGTH | Err _ => false end.
Definition test_sanitize_empty_input : bool := sanitize_input [] == Ok [].
Definition field : text := text_of "config_path".
Definition test_sanitize_string_field_ok : bool := sanitize_string_field (text_of "config.toml") field == Ok (text_of "config.toml").
Definition test_sanitize_string_field_null_byte : bool := is_err (sanitize_string_field (text_of "bad" ++ chars [0] "input") field).
Definition test_sanitize_string_field_control_chars : bool := sanitize_string_field (text_of "hello" ++ [1; 2]) (text_of "field") == Ok (text_of "hello").

(** *** [rate_limiter.rs] *)

Definition test_rate_limiter_allows_within_limit : bool := (calls 5 (new_limiter 5)).1 == replicate 5 true.
Definition test_rate_limiter_rejects_over_limit : bool := test_rate_limiter_enforced.
Definition test_rate_limiter_reset_after_window : bool :=
  let '(l, r) := calls 3 (new_limiter 2) in all [l == [true; true; false]; (allow (4 * 10 ^ 6) (r <| timestamps := [] |>)).1].
Definition test_rate_limiter_thread_safety : bool := length (timestamps (calls 100 (new_limiter 100)).2) == 100%nat.
Definition test_rate_limit_from_env_default : bool := rate_limit_from_env (with_vars []) == 60.
Definition test_rate_limit_from_env_custom : bool := rate_limit_from_env (with_vars [("MGMT_RATE_LIMIT_RPM", "120")]) == 120.

Definition management_suite : list bool :=
  [test_rate_limiter_enforced;
   test_sanitize_control_characters; test_sanitize_preserves_whitespace; test_validation_rejects_null_bytes;
   test_validation_rejects_long_strings; test_validation_allows_valid_input; test_extract_peer_no_header;
   test_extract_peer_with_forwarded_for; test_extract_peer_with_multiple_forwarded_for; test_extract_peer_with_invalid_ip;
   test_extract_peer_with_whitespace; test_get_status_request_valid; test_get_metrics_request_valid;
   test_list_capabilities_request_valid; test_reload_config_empty_path_ok; test_reload_config_valid_path;
   test_reload_config_too_long; test_reload_config_null_byte; test_validate_port_valid; test_validate_port_invalid;
   test_validate_metric_name_valid; test_validate_metric_name_invalid; test_sanitize_clean_input;
   test_sanitize_strips_control_chars; test_sanitize_preserves_newline_and_tab; test_sanitize_rejects_null_byte;
   test_sanitize_truncates_long_input; test_sanitize_empty_input; test_sanitize_string_field_ok;
   test_sanitize_string_field_null_byte; test_sanitize_string_field_control_chars; test_rate_limiter_allows_within_limit;
   test_rate_limiter_rejects_over_limit; test_rate_limiter_reset_after_window; test_rate_limiter_thread_safety;
   test_rate_limit_from_env_default; test_rate_limit_from_env_custom].
Example management_tests_pass : all (management_suite ++ @handlers_suite canonical_order ++ @handlers_suite reversed_order) = true.
Proof. vm_compute. reflexivity. Qed.

End ManagementTests.
